(* ===== verification/_CoqProject ===== *)
-Q . S2P
Prelude.v
Rows.v
Memstore.v
MemstoreInv.v
MemstoreList.v
Paging.v
Authz.v
GoJson.v
AuditLog.v
GoUrl.v
Csr.v
Sealed.v
World.v
Footprint.v
Ca.v
IssueBase.v
Domains.v
Providers.v
Issuers.v
Acme.v
ImportCert.v
Lifecycle.v
Renew.v
Crl.v
CertList.v
Enroll.v
EnrollJobs.v
Stream.v
Sse.v
Hub.v
HubLimits.v
HubRuns.v
Secrets.v
Backup.v
Lists.v
ListScope.v
PageSql.v
Webhook.v
Deploy.v
Expiring.v
Identity.v
NetIdentity.v
Statistics.v
CertInfo.v
Grpc.v
Http.v
HttpCerts.v
GoTime.v
HttpOps.v
Config.v
Sql.v
SqlStore.v
SqlDb.v
SqlInv.v
SqlSchema.v
SqlTx.v
SqlAgree.v
Regexp.v
Problem.v
DnsProviders.v
AcmeFlow.v
Adapters.v
Client.v
Agent.v
Bootstrap.v
Kek.v
Process.v
Surface.v
Valkey.v
