(* ===== verification/Prelude.v ===== *)
(** * go-tangra-lcm: a verification library

    The program is a certificate life-cycle service: tenants keep issuers (their own
    CAs or ACME accounts), people and services ask for certificates, the service
    issues, renews and revokes them, seals the keys it keeps, tells signed-in people
    what happens and records everything in an audit log.  This library translates
    its Go packages to executable definitions and proves what makes them correct.

    ** How the code is modelled

    - Go errors are values of [err], results values of [res], strings byte strings.
      Times are nanoseconds since year 1 as [Z], durations int64 where they can
      overflow; a map is a [gmap], and a [range] over it visits it in an order of the
      runtime that the theorems leave open ([GoRuntime]).
    - A method of a service is a computation [M A] over a [World]: the store, the
      audit events, the positions of the identifier and random sources (World.v).  It
      keeps what it wrote before it failed; [Atomic] is the store's transaction.  The
      clock of a call is its argument [now], and [later] what it reads a second time.
    - Code outside the repository is a class of operations with the laws its
      documentation states: [Crypto] (PEM, X.509, keys), [AEAD], [IdSource],
      [AcmeServer], [Enrolling] (the token verifier), [CrlSigner], [ListQuery] (sorting
      and cutting of console pages), [Outbound] and [LcmNet] (HTTP and gRPC exchanges,
      the disk), [TaskHost] (the scheduler's library, net/mail, notifications),
      [CertReader] (the other fields of a certificate), [OpenAPI] and [TokenVerifier]
      (the document's router and validator, platform tokens), [ListParams], [BackupCodec]
      and [Framework], [Postgres] (encodings, collation, clock and failures of the
      database), [AcmeApi] (golang.org/x/crypto/acme), [DnsNet] and [Poll] (the APIs and
      servers of DNS), [Mesh] (calls to other services), [ValkeyServer] (the commands of the
      server), [Os] (system calls that fail), [KekSource] and [Outside] (what starting
      the process depends on).  Each class with laws has a stand-in that satisfies them,
      used by the witnesses.
    - A route of an interface is a function of the caller, the path, the query and the
      decoded body to a response and the state after it; work that goes on after the
      answer is a function of the state it finds.
    - The SQL store is modelled a second time under the same interface: tables,
      statements, row level security and transactions, with failures at every
      statement and at the commit.
    - Concurrency is a transition system whose steps are critical sections, channel
      operations and whole store calls: the audit writer, the job queue, the event hub,
      the watchers of an identity.

    ** Files, and the sources they translate (under src/internal, or as given)

    - Prelude.v: errors, results, the state monad, strings, times, sorting, tactics.
    - Rows.v: store/models.go, ids.go, trustdomain.go.
    - Memstore.v: memstore/memstore.go, the store every service runs on, one function
      per method.  MemstoreInv.v: its invariant and the isolation of tenants
      from each other.  MemstoreList.v: the queue of due jobs.  Paging.v: the paging loop shared
      by the listings.
    - Authz.v: authz/authz.go and grants.go, against an interface the store
      discharges.
    - GoJson.v, GoUrl.v: what the program uses of encoding/json and net/url.
    - AuditLog.v: audit/audit.go, with the batching writer as a state machine.
    - Csr.v: csr/csr.go.  Sealed.v: sealed/sealed.go.  Ca.v: ca/ca.go.
    - IssueBase.v: issue/issue.go, the issuance of a certificate.  Lifecycle.v:
      issue/certificates.go.  CertList.v: its listing.  Issuers.v: issue/issuers.go.
      Domains.v, Providers.v, Acme.v: ACME orders (issue/acme.go, and the part of acme/dns.go
      and acme/cloudflare.go that needs no network).  ImportCert.v: issue/importcert.go.
    - Footprint.v: which rows of a table a computation may change, for the files below.
    - Renew.v: renew/renew.go and its adapter of app/adapters.go.  Crl.v:
      revoke/revoke.go.  Secrets.v: secrets/secrets.go.  Backup.v: transfer/backup.go.
    - Enroll.v, EnrollJobs.v: enroll/enroll.go, requests.go, jobs.go.
    - Stream.v: stream/client.go and the publishing part of hub.go.  Sse.v:
      stream/sse.go.  Hub.v, HubLimits.v, HubRuns.v: stream/hub.go.
    - Lists.v: the console pages of store/lists.go, memstore/pages.go, issue/lists.go,
      enroll/lists.go and secrets.go.  ListScope.v: their theorems.  PageSql.v: the
      queries store/pages.go builds for the SQL store.
    - Webhook.v: webhook/webhook.go.  Deploy.v: deploy/deploy.go.
    - Expiring.v: taskexec/expiring.go.  Statistics.v: stats/stats.go.  CertInfo.v:
      certinfo/certinfo.go.
    - Identity.v: selfidentity/provider.go, and the rotation of identities.
      NetIdentity.v: src/sdk/pkg/lcmidentity.
    - Grpc.v: grpcapi/server.go and servers.go.
    - Http.v: the errors, the table of routes and the chain of httpapi (errors.go,
      deps.go, certdeps.go, server.go, middleware.go).  HttpCerts.v: the routes of
      certificates.go, issuers.go, enroll.go, grants.go and lists.go.  HttpOps.v: those
      of secrets.go, deploydeps.go, backup.go and ops.go, with DecodeBounded of
      transfer/backup.go.  GoTime.v: RFC 3339 dates, written and read.
    - Config.v: config/config.go and the settings app/wire.go passes on.
    - Sql.v: store/store.go, the tables of store/migrations, statements and
      transactions.  SqlStore.v: store/repos.go.  SqlDb.v: repo/repo.go and
      repo/repodb/db.go.  SqlInv.v, SqlTx.v: its invariants and transactions.
      SqlSchema.v: what the migrations promise, said without the engine.
      SqlAgree.v: its lists against those of the in-memory store.
    - Regexp.v: what the program uses of package regexp.  Problem.v: acme/problem.go.
      DnsProviders.v: the exchanges of acme/cloudflare.go, dns.go and freyadns.go.
      AcmeFlow.v: acme/acme.go.
    - Adapters.v: app/adapters.go, perms.go, enrolllistener.go, freyadns.go,
      scheduler.go and src/sdk/pkg/dnschallenge.
    - Client.v, Agent.v: src/sdk/pkg/lcmclient, src/cmd/lcm-agent and Agent.Watch of
      grpcapi/servers.go.
    - Bootstrap.v: src/cmd/lcmsvc/bootstrap.go and src/cmd/lcm-devca.  Kek.v: the
      key-encryption key of sealed/sealed.go.  Process.v: app/app.go and permissions.go.
    - Surface.v: the document of src/api/openapi, the routes mounted by httpapi, GET
      /stream and src/pkg/lcmmanifest.  Valkey.v: stream/valkeykv.

    ** What the theorems show

    - The store: every reachable state satisfies the constraints of the schema, and
      an operation leaves other tenants' rows alone, unless it inserts under an
      identifier one of them has.
    - Access: a decision is exactly what the grants and roles say; no grant carries
      more than its granter has; listings agree with single decisions.
    - Issuance: only for identities the caller is entitled to; what is recorded; keys
      are handed over once; renewal replaces, revocation is final, a scheduler pass
      renews what is due and nothing twice; the revocation list holds the revocations of
      the tenant, but for those of the moment at which a page ends.
    - Enrollment: a token gives what it names and nothing else; requests are decided
      once; the counter of attempts of a job stays within its maximum at every call of
      every worker; a processed job is completed or failed when the store takes the write.
    - Settings: what is sealed opens again, and only that; redacted settings merge to
      themselves; accepted domain names are those of a declarative definition.
    - Secrets and backups: a secret opens to the value last given, field by field; an
      import that skips duplicates changes nothing that exists and accounts for all it
      was given; an export without credentials holds no secret and every certificate.
    - Audit: no sensitive name is stored in details made of maps, lists and scalars;
      every accepted row is handed to the store once and in order, and stored when the
      store does not refuse it; the writer ends.
    - Events: a stream gets only its tenant's events meant for its user, none twice,
      within its limits; what the handler writes is read back as the same events.
    - Console pages: the pages of requests, jobs and certificates hold exactly what
      the checks of single records allow; the texts of the queries never contain a
      value a caller gave.
    - Webhooks and targets: events go, signed, to exactly the subscribers, a bounded
      number of times; credentials of targets are stored only sealed.
    - The expiry task: no certificate can forge a line of the digest; the result
      accounts for every recipient.  Statistics count the tenant's rows; the details of a
      certificate come from its certificate blocks alone.
    - Identities: the version of a trust bundle follows its set of roots, whatever the
      interleaving of watchers; renewing keeps both while nobody changes the CAs; a
      workload's join token goes only to the enrollment route and where its redirects
      point, and a restart reuses the certificate it persisted.
    - Interfaces: a request reaches a handler only through validation and, unless the
      route is public, with the verified owner of its token; answers to errors are of a
      fixed vocabulary and reveal no internal text; reads do not tell what exists; an
      order accepted over HTTP ends and is announced once, as long as its request is there
      to be written; the audit trail's cursor loses nothing; a serial revoked over gRPC
      is never verified as valid while it stays revoked; a
      checked configuration is used as written; every operation of the document has a
      handler and is registered at the gateway with a permission the module declares,
      or as public exactly when the server serves it without a token.
    - The SQL store: a transaction takes effect whole or not at all, whichever
      statement fails; its tenant reads and writes only the rows with it in their tenant
      column; every row, logs included, keeps the checks, keys, uniqueness and references
      of the migrations; its lists are those of the in-memory store.
    - ACME: a chain is returned only when every challenge was answered; whatever
      fails, the records that were published are taken back; causes of errors are clean
      lines without control characters.
    - Workloads: the enrollment listener hands out a certificate only for a token and
      the identity it names; a file of the agent is always whole, and private from its
      first moment; the live update of a renewal reaches the client's stream.
    - The process: a start that fails releases what it had acquired; bootstrapping
      twice is bootstrapping once; over both clients of the event log the hub's loop
      dispatches the entries of a stream in order and none twice, leaving out only those
      that were trimmed before it read them.
    - Behaviour the code does not intend is proved as well: a panic of the hub, the
      loss of replayed events and of revocations made at one moment, a revocation
      undone by a concurrent renewal, SPIFFE identities whose canonical form is
      refused, a renewal window larger than the scan,
      a restored issuer that cannot sign, a request on no page, a target's
      credential that is lost, renewals of a leaf announced as new roots, certificates
      beyond the verified page, audit events of one instant skipped between pages, an
      agent that never renews, a key nobody gets, the loser of the race for a CA, a row of
      another tenant overwritten in memory, a job claimed more often than its maximum or
      left in processing, a token sent on by a redirect, details of other types and batches
      the audit store refuses.

    ** Fuel and bounds

    Loops that are not structural carry fuel that a theorem shows to be enough: a
    listing, the CRL and a backup get one more than the rows stored ([page_loop_spec],
    [CRL_complete], [pages_all], [enroll_pages_exact]); the PEM loops one more than the
    length of the text, since each block is shorter than what is left
    ([cert_blocks_fuel]); the JSON reader twice the length
    plus two; decimal printing 40 digits, where 128-bit serials need 39.  The replay
    of the hub is run with one step per task ([replay_truncated]).  The wait for a DNS
    record is bounded by the clock ([waitTXT_ends]); a temporary file of the
    agent is tried 10000 times, as os.CreateTemp does; the search for the name of the
    mesh issuer has one step more than the issuers stored ([mesh_issuer_ensured]).

    ** Not modelled

    Generated code and the console.  The pages of the SQL store beyond the texts of
    their queries: sorting and counting are in a library and in PostgreSQL.  Opening
    pools and TLS configurations, running migrations, flags and signals, serving
    listeners and the lease at the gateway: they only call libraries.  Of the
    interfaces: the decoding of request bodies, response headers and the JSON of the
    views.  Of the configuration: its file.  The stream client's wake-up is one
    further look at the log. *)

From stdpp Require Export base gmap strings list sorting fin_maps.
From Stdlib Require Export ZArith Lia.

Declare Scope go_scope.
Delimit Scope go_scope with go.
Open Scope Z_scope.

(** ** Error values

    Go errors are compared with [errors.Is], which walks the chain of
    [Unwrap] methods.  A package-level [var ErrX = errors.New(..)] is named by
    its package and identifier; the struct errors keep their fields. *)
Inductive err : Type :=
| Sentinel (pkg name : string)
| ValidationError (pkg field msg : string)
| CausedValidationError (pkg field msg : string) (cause : err)
| InUseError (what : string) (count : Z)
| TransitionError (id from to : string)
| ConflictError (pkg msg : string)
| RefusalError (reason : string) (detail : list (string * list string))
| Wrapf (msg : string) (wrapped : err)
| Opaque (msg : string).

(** [errors.Is(e, pkg.name)] for a sentinel target. *)
Fixpoint errors_is (e : err) (pkg name : string) : bool :=
  match e with
  | Sentinel p n => bool_decide (p = pkg) && bool_decide (n = name)
  | CausedValidationError _ _ _ c => errors_is c pkg name
  | Wrapf _ w => errors_is w pkg name
  (* enroll.ConflictError unwraps to store.ErrConflict *)
  | TransitionError _ _ _ => bool_decide (pkg = "store") && bool_decide (name = "ErrConflict")
  (* enroll.RefusalError unwraps to authz.ErrForbidden *)
  | RefusalError _ _ => bool_decide (pkg = "authz") && bool_decide (name = "ErrForbidden")
  | _ => false
  end.

(** ** Results and the state monad of the services *)

Inductive res (A : Type) : Type :=
| Ok (a : A)
| Err (e : err).
Arguments Ok {A} a.
Arguments Err {A} e.

Definition is_ok {A} (r : res A) : bool :=
  match r with Ok _ => true | Err _ => false end.

Definition res_map {A B} (f : A -> B) (r : res A) : res B :=
  match r with Ok a => Ok (f a) | Err e => Err e end.

Definition res_bind {A B} (r : res A) (k : A -> res B) : res B :=
  match r with Ok a => k a | Err e => Err e end.

(** A computation over a state [S] that may fail: the state reached before the
    failure is kept, as in Go where an early [return err] undoes nothing. *)
Definition ST (S A : Type) : Type := S -> res A * S.

Definition st_ret {S A} (a : A) : ST S A := fun s => (Ok a, s).
Definition st_err {S A} (e : err) : ST S A := fun s => (Err e, s).
Definition st_bind {S A B} (c : ST S A) (k : A -> ST S B) : ST S B :=
  fun s => match c s with
           | (Ok a, s') => k a s'
           | (Err e, s') => (Err e, s')
           end.
(** The call whose error the caller inspects ([x, err := f()] followed by a
    test on [err]). *)
Definition st_try {S A} (c : ST S A) : ST S (res A) :=
  fun s => let '(r, s') := c s in (Ok r, s').
Definition st_mod {S} (f : S -> S) : ST S unit := fun s => (Ok tt, f s).
Definition st_lift {S A} (r : res A) : ST S A := fun s => (r, s).
(** A read of the state that changes nothing. *)
Definition st_read {S A} (f : S -> res A) : ST S A := fun s => (f s, s).
(** [if cond { return err }]. *)
Definition st_guard {S} (b : bool) (e : err) : ST S unit :=
  fun s => if b then (Ok tt, s) else (Err e, s).

Notation "'let*' x := c 'in' k" := (st_bind c (fun x => k))
  (at level 10, x pattern, c at level 99, k at level 200,
   format "'let*'  x  :=  c  'in' '//' k") : go_scope.
Notation "'let?' x := c 'in' k" := (res_bind c (fun x => k))
  (at level 10, x pattern, c at level 99, k at level 200,
   format "'let?'  x  :=  c  'in' '//' k") : go_scope.
Open Scope go_scope.

(** ** Functional record update: [r <| field := v |>] *)

(** [reta r] rebuilds [r] from its projections; one instance per record. *)
Class RecordEta (R : Type) := reta : R -> R.
Class Update {R E : Type} (p : R -> E) := update : (E -> E) -> R -> R.

Ltac derive_update :=
  lazymatch goal with
  | |- @Update ?R ?E ?p =>
    let t := constr:(fun (f : E -> E) (r : R) =>
      ltac:(let b := eval hnf in (reta r) in
            let ab := eval pattern (p r) in b in
            lazymatch ab with
            | ?h ?y => let u := eval cbv beta in (h (f y)) in exact u
            end)) in
    exact t
  end.
#[export] Hint Extern 1 (Update _) => derive_update : typeclass_instances.

Notation "r <| p := v |>" := (update (p := p) (fun _ => v) r)
  (at level 1, left associativity, p constr at level 10, v at level 200,
   format "r <| p  :=  v |>") : go_scope.

(** ** The Go runtime the code relies on

    The order in which [range] visits a map is unspecified; every definition
    takes it from this class, so that the theorems hold for every order.
    [strings.ToLower] is modelled byte for byte on ASCII input and defers to
    the Unicode tables ([strings.Map(unicode.ToLower, s)]) otherwise, and so is
    [strings.TrimSpace]. *)
Class GoRuntime := {
  map_range {A} : gmap string A -> list (string * A);
  map_range_perm {A} (m : gmap string A) : map_range m ≡ₚ map_to_list m;
  unicode_lower : string -> string;
  unicode_trim : string -> string;
  unicode_fold : string -> string -> bool;
}.
(** The runtime the witnesses run on: the order of [map_to_list]. *)
Definition std_runtime : GoRuntime :=
  {| map_range A m := map_to_list m;
     map_range_perm A m := Permutation_refl (map_to_list m);
     unicode_lower s := s;
     unicode_trim s := s;
     unicode_fold s t := bool_decide (s = t) |}.

(** ** Strings *)

Definition byte_of (c : Ascii.ascii) : Z := Z.of_N (Ascii.N_of_ascii c).

Definition is_ascii_byte (c : Ascii.ascii) : bool := byte_of c <? 128.
Definition lower_byte (c : Ascii.ascii) : Ascii.ascii :=
  if (65 <=? byte_of c) && (byte_of c <=? 90)
  then Ascii.ascii_of_N (Z.to_N (byte_of c + 32)) else c.

Fixpoint string_map (f : Ascii.ascii -> Ascii.ascii) (s : string) : string :=
  match s with
  | EmptyString => EmptyString
  | String c s' => String (f c) (string_map f s')
  end.
Fixpoint string_forallb (f : Ascii.ascii -> bool) (s : string) : bool :=
  match s with
  | EmptyString => true
  | String c s' => f c && string_forallb f s'
  end.
Definition string_existsb (f : Ascii.ascii -> bool) (s : string) : bool :=
  negb (string_forallb (fun c => negb (f c)) s).

(** [strings.ToLower]. *)
Definition ToLower `{GoRuntime} (s : string) : string :=
  if string_forallb is_ascii_byte s then string_map lower_byte s else unicode_lower s.

(** [strings.EqualFold]. *)
Definition EqualFold `{GoRuntime} (s t : string) : bool :=
  if string_forallb is_ascii_byte s && string_forallb is_ascii_byte t
  then bool_decide (string_map lower_byte s = string_map lower_byte t) else unicode_fold s t.

(** [strings.TrimSpace]. *)
Definition space_byte (c : Ascii.ascii) : bool :=
  ((9 <=? byte_of c) && (byte_of c <=? 13)) || (byte_of c =? 32).
Fixpoint trim_left (s : string) : string :=
  match s with
  | EmptyString => EmptyString
  | String c s' => if space_byte c then trim_left s' else s
  end.
Fixpoint trim_right (s : string) : string :=
  match s with
  | EmptyString => EmptyString
  | String c s' =>
    match trim_right s' with
    | EmptyString => if space_byte c then EmptyString else String c EmptyString
    | t => String c t
    end
  end.
Definition TrimSpace `{GoRuntime} (s : string) : string :=
  if string_forallb is_ascii_byte s then trim_right (trim_left s) else unicode_trim s.

Definition str_len (s : string) : Z := Z.of_nat (String.length s).
Definition str_eqb (a b : string) : bool := bool_decide (a = b).
Infix "=s" := str_eqb (at level 70, no associativity) : go_scope.
Notation "a <>s b" := (negb (str_eqb a b)) (at level 70, no associativity) : go_scope.
(** The byte-wise order of Go strings. *)
Definition str_ltb (a b : string) : bool := String.ltb a b.

Definition contains (l : list string) (v : string) : bool := existsb (fun x => x =s v) l.

Definition strp (p : option string) : string := default "" p.
Definition ptrOrNil (s : string) : option string := if s =s "" then None else Some s.

(** ** []byte: [None] is the nil slice, [Some] a non-nil one *)
Definition bytes : Type := option string.
Definition blen (b : bytes) : Z := match b with None => 0 | Some s => str_len s end.

(** ** Time

    A [time.Time] is the number of nanoseconds since the zero time; a
    [time.Duration] is an int64 number of nanoseconds. *)
Definition IsZero (t : Z) : bool := t =? 0.
Definition Before (a b : Z) : bool := a <? b.
Definition After (a b : Z) : bool := b <? a.
Definition TimeEqual (a b : Z) : bool := a =? b.

Definition int64_min : Z := - 2 ^ 63.
Definition int64_max : Z := 2 ^ 63 - 1.
(** [Time.Sub] saturates at the bounds of a Duration. *)
Definition time_sub (a b : Z) : Z := Z.max int64_min (Z.min int64_max (a - b)).
(** int64 arithmetic wraps around. *)
Definition wrap64 (z : Z) : Z := (z + 2 ^ 63) mod 2 ^ 64 - 2 ^ 63.
Definition Second : Z := 1000000000.

(** ** Sorting

    [sort.Slice] with a comparison [less].  The model is a stable insertion
    sort; where the code sorts by a key that is unique, every sorting routine
    gives this list ([sort_slice_unique]). *)
Fixpoint insert_by {A} (less : A -> A -> bool) (x : A) (l : list A) : list A :=
  match l with
  | [] => [x]
  | y :: l' => if less y x then y :: insert_by less x l' else x :: l
  end.
Definition sort_slice {A} (less : A -> A -> bool) (l : list A) : list A :=
  foldr (insert_by less) [] l.

(** The two-part keys the listings sort by. *)
Definition key : Type := Z * string.
Definition key_ltb (a b : key) : bool :=
  (a.1 <? b.1) || ((a.1 =? b.1) && str_ltb a.2 b.2).

(** ** Proof automation *)

(** Split every [match], [if] and pair binding of a hypothesis that equates a
    computation with its result. *)
Ltac invert_step H :=
  lazymatch type of H with
  | context [match ?x with _ => _ end] =>
      let E := fresh "E" in destruct x eqn:E; try discriminate H; simplify_eq/=
  end.
Ltac invert_run H := repeat (progress simpl in H; simplify_eq/=) ; repeat invert_step H.

(** Boolean hypotheses to propositions. *)
Ltac bools :=
  repeat match goal with
  | H : _ && _ = true |- _ => apply andb_true_iff in H; destruct H
  | H : _ || _ = false |- _ => apply orb_false_iff in H; destruct H
  | H : negb _ = true |- _ => apply negb_true_iff in H
  | H : negb _ = false |- _ => apply negb_false_iff in H
  | H : bool_decide _ = true |- _ => apply bool_decide_eq_true in H
  | H : bool_decide _ = false |- _ => apply bool_decide_eq_false in H
  | H : (_ =s _) = true |- _ => apply bool_decide_eq_true in H
  | H : (_ =s _) = false |- _ => apply bool_decide_eq_false in H
  | H : (_ <? _) = true |- _ => apply Z.ltb_lt in H
  | H : (_ <? _) = false |- _ => apply Z.ltb_ge in H
  | H : (_ <=? _) = true |- _ => apply Z.leb_le in H
  | H : (_ <=? _) = false |- _ => apply Z.leb_gt in H
  | H : (_ =? _) = true |- _ => apply Z.eqb_eq in H
  | H : (_ =? _) = false |- _ => apply Z.eqb_neq in H
  end.

Create HintDb lcm.
Create Rewrite HintDb lcm.

(** ** Shared lemmas *)

Lemma str_eqb_refl s : (s =s s) = true.
Proof. by apply bool_decide_eq_true. Qed.
Lemma str_eqb_eq a b : (a =s b) = true <-> a = b.
Proof. apply bool_decide_eq_true. Qed.
Lemma str_eqb_neq a b : (a =s b) = false <-> a <> b.
Proof. apply bool_decide_eq_false. Qed.
#[export] Hint Rewrite str_eqb_refl : lcm.

Lemma contains_spec l v : contains l v = true <-> v ∈ l.
Proof.
  unfold contains. rewrite existsb_exists. split.
  - intros (x & Hx & ->%str_eqb_eq). by apply list_elem_of_In.
  - intros H. exists v. split; [by apply list_elem_of_In | apply str_eqb_refl].
Qed.

(** *** Visiting a map in the order of the runtime *)
Section range.
Context `{GoRuntime} {A : Type}.
Implicit Types (m : gmap string A).

Lemma elem_of_map_range m k x : (k, x) ∈ map_range m <-> m !! k = Some x.
Proof. rewrite map_range_perm. apply elem_of_map_to_list. Qed.

Lemma NoDup_map_range_fst m : NoDup (map_range m).*1.
Proof. rewrite map_range_perm. apply NoDup_fst_map_to_list. Qed.

Lemma existsb_range m (f : string * A -> bool) :
  existsb f (map_range m) = true <-> exists k x, m !! k = Some x /\ f (k, x) = true.
Proof.
  rewrite existsb_exists. split.
  - intros ([k x] & Hin%list_elem_of_In & Hf). exists k, x. by rewrite <- elem_of_map_range.
  - intros (k & x & Hk & Hf). exists (k, x). rewrite <- list_elem_of_In.
    by rewrite elem_of_map_range.
Qed.

Lemma existsb_range_false m (f : string * A -> bool) :
  existsb f (map_range m) = false <-> forall k x, m !! k = Some x -> f (k, x) = false.
Proof.
  split.
  - intros Hf k x Hk. destruct (f (k, x)) eqn:E; [|done].
    assert (existsb f (map_range m) = true) by (apply existsb_range; eauto). congruence.
  - intros Hf. destruct (existsb f (map_range m)) eqn:E; [|done].
    apply existsb_range in E as (k & x & Hk & Hfx). by rewrite (Hf k x Hk) in Hfx.
Qed.
End range.

(** *** Sorting *)
Section sort_slice.
Context {A : Type} (less : A -> A -> bool).

Lemma insert_by_perm x l : insert_by less x l ≡ₚ x :: l.
Proof.
  induction l as [|y l IH]; simpl; [done|].
  destruct (less y x); [|done]. rewrite IH. by constructor.
Qed.
Lemma sort_slice_perm l : sort_slice less l ≡ₚ l.
Proof. induction l as [|x l IH]; simpl; [done|]. by rewrite insert_by_perm, IH. Qed.

Lemma elem_of_sort_slice x l : x ∈ sort_slice less l <-> x ∈ l.
Proof. by rewrite sort_slice_perm. Qed.

(** [less] orders the elements by a key that determines them. *)
Definition leq (x y : A) : Prop := less y x = false.
Context (less_asym : forall x y, less x y = true -> less y x = false).
Context (leq_trans : forall x y z, leq x y -> leq y z -> leq x z).

Lemma insert_by_sorted x l :
  StronglySorted leq l -> StronglySorted leq (insert_by less x l).
Proof using less_asym leq_trans.
  induction 1 as [|y l Hs IH Hy]; simpl; [by repeat constructor|].
  destruct (less y x) eqn:E.
  - constructor; [done|]. rewrite insert_by_perm. constructor; [|done].
    by apply less_asym.
  - constructor; [by constructor|]. constructor; [done|].
    eapply Forall_impl; [exact Hy|]. intros z Hz. by eapply leq_trans.
Qed.
Lemma sort_slice_sorted l : StronglySorted leq (sort_slice less l).
Proof using less_asym leq_trans.
  induction l as [|x l IH]; simpl; [constructor|]. by apply insert_by_sorted.
Qed.

(** Any sorted rearrangement is the one computed, when the key separates the
    elements of the list. *)
Lemma sort_slice_unique l l' :
  (forall x y, x ∈ l -> y ∈ l -> leq x y -> leq y x -> x = y) ->
  l' ≡ₚ l -> StronglySorted leq l' -> sort_slice less l = l'.
Proof using less_asym leq_trans.
  intros Hanti Hp Hs. apply (StronglySorted_unique_strong leq).
  - intros x1 x2 H1 H2 ? ?. rewrite elem_of_sort_slice in H1. rewrite Hp in H2. by apply Hanti.
  - apply sort_slice_sorted.
  - done.
  - by rewrite sort_slice_perm, Hp.
Qed.
End sort_slice.

Lemma sorted_weaken {A} (R Q : A -> A -> Prop) l :
  (forall x y, R x y -> Q x y) -> StronglySorted R l -> StronglySorted Q l.
Proof.
  intros Hq. induction 1 as [|x l _ IH Hx]; constructor; [done|]. eapply Forall_impl; [exact Hx|]. apply Hq.
Qed.

Lemma sort_slice_ext {A} (f g : A -> A -> bool) l :
  (forall a b, f a b = g a b) -> sort_slice f l = sort_slice g l.
Proof.
  intros He. induction l as [|x l IH]; [done|]. simpl. rewrite IH. generalize (sort_slice g l).
  intros l'. induction l' as [|y l' IH']; [done|]. simpl. by rewrite He, IH'.
Qed.

(** Sorting by a key of the image. *)
Lemma insert_by_fmap {A B} (lessB : B -> B -> bool) (lessA : A -> A -> bool) (g : A -> B) x l :
  (forall a b, lessB (g a) (g b) = lessA a b) -> insert_by lessB (g x) (g <$> l) = g <$> insert_by lessA x l.
Proof. intros Hl. induction l as [|y l IH]; cbn; [done|]. rewrite Hl. case_match; cbn; by rewrite ?IH. Qed.
Lemma sort_slice_fmap {A B} (lessB : B -> B -> bool) (lessA : A -> A -> bool) (g : A -> B) l :
  (forall a b, lessB (g a) (g b) = lessA a b) -> sort_slice lessB (g <$> l) = g <$> sort_slice lessA l.
Proof. intros Hl. induction l as [|y l IH]; cbn; [done|]. unfold sort_slice in *. cbn. rewrite IH. by apply insert_by_fmap. Qed.

(** *** The order of the keys *)
Lemma str_ltb_irrefl a : str_ltb a a = false.
Proof.
  unfold str_ltb, String.ltb. destruct (String.compare a a) eqn:E; [done| |done].
  pose proof (String.compare_antisym a a) as H. by rewrite E in H.
Qed.
Lemma str_ltb_leb a b : str_ltb a b = negb (String.leb b a).
Proof.
  unfold str_ltb, String.ltb, String.leb. rewrite String.compare_antisym.
  by destruct (String.compare b a).
Qed.
Lemma str_leb_trans a b c : String.leb a b = true -> String.leb b c = true -> String.leb a c = true.
Proof.
  intros H1%Is_true_true H2%Is_true_true. apply Is_true_true.
  exact (transitivity (R := String.le) H1 H2).
Qed.
Lemma str_leb_ltb_false a b : str_ltb b a = false <-> String.leb a b = true.
Proof. rewrite str_ltb_leb. destruct (String.leb a b); naive_solver. Qed.

Lemma key_ltb_asym a b : key_ltb a b = true -> key_ltb b a = false.
Proof.
  unfold key_ltb. destruct a as [za sa], b as [zb sb]; simpl. intros H.
  apply orb_true_iff in H as [H|H]; bools.
  - apply orb_false_iff. split; [apply Z.ltb_ge; lia|].
    apply andb_false_iff. left. apply Z.eqb_neq. lia.
  - subst. rewrite Z.ltb_irrefl, Z.eqb_refl. simpl. rewrite str_ltb_leb in *.
    destruct (String.leb_total sa sb) as [E|E]; rewrite E in *; done.
Qed.
Definition key_leb (a b : key) : bool := negb (key_ltb b a).
Lemma key_leb_spec a b :
  key_ltb b a = false <-> a.1 < b.1 \/ (a.1 = b.1 /\ String.leb a.2 b.2 = true).
Proof.
  unfold key_ltb. rewrite orb_false_iff, andb_false_iff, str_leb_ltb_false, Z.ltb_ge, Z.eqb_neq.
  destruct (decide (a.1 = b.1)); intuition lia.
Qed.
Lemma key_leb_trans a b c :
  key_ltb b a = false -> key_ltb c b = false -> key_ltb c a = false.
Proof.
  rewrite !key_leb_spec. intros [?|[? H1]] [?|[? H2]]; try (left; lia).
  right. split; [lia|]. eapply str_leb_trans; eauto.
Qed.
Lemma key_leb_antisym a b : key_ltb b a = false -> key_ltb a b = false -> a = b.
Proof.
  rewrite !key_leb_spec. destruct a as [za sa], b as [zb sb]; simpl.
  intros [?|[-> H1]] [?|[? H2]]; try lia. f_equal. by apply String.leb_antisym.
Qed.

(** Sorting by a key, ascending and descending. *)
Section by_key.
Context {A : Type} (k : A -> key).
Definition asc (x y : A) : bool := key_ltb (k x) (k y).
Definition desc (x y : A) : bool := key_ltb (k y) (k x).

Lemma sort_asc_sorted l : StronglySorted (leq asc) (sort_slice asc l).
Proof.
  apply sort_slice_sorted; unfold leq, asc; [intros; by apply key_ltb_asym|].
  intros x y z H1 H2. eapply key_leb_trans; eauto.
Qed.
Lemma sort_desc_sorted l : StronglySorted (leq desc) (sort_slice desc l).
Proof.
  apply sort_slice_sorted; unfold leq, desc; [intros; by apply key_ltb_asym|].
  intros x y z H1 H2. eapply key_leb_trans; eauto.
Qed.
Lemma sort_asc_unique l l' :
  (forall x y, x ∈ l -> y ∈ l -> k x = k y -> x = y) ->
  l' ≡ₚ l -> StronglySorted (leq asc) l' -> sort_slice asc l = l'.
Proof.
  intros Hinj Hp Hs. apply sort_slice_unique; auto; unfold leq, asc.
  - intros; by apply key_ltb_asym.
  - intros x y z H1 H2. eapply key_leb_trans; eauto.
  - intros x y ? ? H1 H2. apply Hinj; auto. by apply key_leb_antisym.
Qed.
Lemma sort_desc_unique l l' :
  (forall x y, x ∈ l -> y ∈ l -> k x = k y -> x = y) ->
  l' ≡ₚ l -> StronglySorted (leq desc) l' -> sort_slice desc l = l'.
Proof.
  intros Hinj Hp Hs. apply sort_slice_unique; auto; unfold leq, desc.
  - intros; by apply key_ltb_asym.
  - intros x y z H1 H2. eapply key_leb_trans; eauto.
  - intros x y ? ? H1 H2. apply Hinj; auto. by apply key_leb_antisym.
Qed.
End by_key.
