(* ===== verification/Rows.v ===== *)
(** The row types of internal/store/models.go, the trust-domain grammar of
    internal/store/trustdomain.go, the UUIDs of internal/store/ids.go and the
    list scopes of internal/store/lists.go. *)

From S2P Require Import Prelude.

(** ** Rows (internal/store/models.go)

    [*string] is [option string], [time.Time] the nanoseconds since the zero
    time, [[]byte] is [bytes]. *)
(** A signing authority for a trust domain. *)
Record Issuer := mkIssuer {
  iss_ID : string; iss_TenantID : string; iss_Name : string; iss_Type : string;
  iss_TrustDomain : string; iss_IsDefault : bool; iss_CAID : option string;
  iss_ACMEDirectoryURL : string; iss_ACMEEmail : string; iss_DNSProvider : string;
  iss_SettingsPublic : bytes; iss_SettingsSealed : bytes; iss_Enabled : bool;
  iss_CreatedBy : option string; iss_UpdatedBy : option string; iss_CreatedAt : Z;
  iss_UpdatedAt : Z; iss_CertificateCount : Z;
}.
#[export] Instance iss_eta : RecordEta Issuer := fun r =>
  mkIssuer (iss_ID r) (iss_TenantID r) (iss_Name r) (iss_Type r) (iss_TrustDomain r)
    (iss_IsDefault r) (iss_CAID r) (iss_ACMEDirectoryURL r) (iss_ACMEEmail r) (iss_DNSProvider
    r) (iss_SettingsPublic r) (iss_SettingsSealed r) (iss_Enabled r) (iss_CreatedBy r)
    (iss_UpdatedBy r) (iss_CreatedAt r) (iss_UpdatedAt r) (iss_CertificateCount r).

(** Root material of a trust domain. *)
Record CA := mkCA {
  ca_ID : string; ca_TenantID : string; ca_TrustDomain : string; ca_CertPEM : string;
  ca_KeySealed : bytes; ca_State : string; ca_NotBefore : Z; ca_NotAfter : Z;
  ca_Serial : string; ca_CreatedAt : Z;
}.
#[export] Instance ca_eta : RecordEta CA := fun r =>
  mkCA (ca_ID r) (ca_TenantID r) (ca_TrustDomain r) (ca_CertPEM r) (ca_KeySealed r) (ca_State
    r) (ca_NotBefore r) (ca_NotAfter r) (ca_Serial r) (ca_CreatedAt r).

(** An enrollment application or an ACME order. *)
Record CertificateRequest := mkCertificateRequest {
  req_ID : string; req_TenantID : string; req_IssuerID : option string; req_Kind : string;
  req_SpiffeID : string; req_SANs : bytes; req_KeyType : string; req_CSRPEM : option string;
  req_ValiditySeconds : Z; req_RequestedBy : string; req_RequesterKind : string;
  req_Status : string; req_Approver : option string; req_Reason : option string;
  req_CertificateID : option string; req_CreatedAt : Z; req_UpdatedAt : Z;
}.
#[export] Instance req_eta : RecordEta CertificateRequest := fun r =>
  mkCertificateRequest (req_ID r) (req_TenantID r) (req_IssuerID r) (req_Kind r) (req_SpiffeID
    r) (req_SANs r) (req_KeyType r) (req_CSRPEM r) (req_ValiditySeconds r) (req_RequestedBy r)
    (req_RequesterKind r) (req_Status r) (req_Approver r) (req_Reason r) (req_CertificateID r)
    (req_CreatedAt r) (req_UpdatedAt r).

(** The asynchronous execution of a request. *)
Record CertificateJob := mkCertificateJob {
  job_ID : string; job_TenantID : string; job_RequestID : string; job_Type : string;
  job_Status : string; job_LeaseUntil : option Z; job_Attempts : Z; job_MaxAttempts : Z;
  job_ResultCertificateID : option string; job_Error : option string; job_RunAfter : Z;
  job_CreatedAt : Z; job_UpdatedAt : Z;
}.
#[export] Instance job_eta : RecordEta CertificateJob := fun r =>
  mkCertificateJob (job_ID r) (job_TenantID r) (job_RequestID r) (job_Type r) (job_Status r)
    (job_LeaseUntil r) (job_Attempts r) (job_MaxAttempts r) (job_ResultCertificateID r)
    (job_Error r) (job_RunAfter r) (job_CreatedAt r) (job_UpdatedAt r).

(** A minted certificate. *)
Record IssuedCertificate := mkIssuedCertificate {
  crt_ID : string; crt_TenantID : string; crt_IssuerID : string; crt_Kind : string;
  crt_RequestID : option string; crt_Serial : string; crt_SpiffeID : string;
  crt_Subject : string; crt_SANs : bytes; crt_NotBefore : Z; crt_NotAfter : Z;
  crt_FingerprintSHA256 : string; crt_Status : string; crt_CertPEM : string;
  crt_ChainPEM : string; crt_KeySealed : bytes; crt_KeyDelivered : bool; crt_AutoRenew : bool;
  crt_SupersededBy : option string; crt_Owner : string; crt_CreatedBy : option string;
  crt_UpdatedBy : option string; crt_CreatedAt : Z; crt_UpdatedAt : Z;
}.
#[export] Instance crt_eta : RecordEta IssuedCertificate := fun r =>
  mkIssuedCertificate (crt_ID r) (crt_TenantID r) (crt_IssuerID r) (crt_Kind r) (crt_RequestID
    r) (crt_Serial r) (crt_SpiffeID r) (crt_Subject r) (crt_SANs r) (crt_NotBefore r)
    (crt_NotAfter r) (crt_FingerprintSHA256 r) (crt_Status r) (crt_CertPEM r) (crt_ChainPEM r)
    (crt_KeySealed r) (crt_KeyDelivered r) (crt_AutoRenew r) (crt_SupersededBy r) (crt_Owner
    r) (crt_CreatedBy r) (crt_UpdatedBy r) (crt_CreatedAt r) (crt_UpdatedAt r).

(** One revoked certificate. *)
Record Revocation := mkRevocation {
  rev_ID : string; rev_TenantID : string; rev_CertificateID : string; rev_Serial : string;
  rev_Reason : string; rev_RevokedAt : Z; rev_RevokedBy : option string;
}.
#[export] Instance rev_eta : RecordEta Revocation := fun r =>
  mkRevocation (rev_ID r) (rev_TenantID r) (rev_CertificateID r) (rev_Serial r) (rev_Reason r)
    (rev_RevokedAt r) (rev_RevokedBy r).

(** What a workload reports as installed. *)
Record InstalledCertificate := mkInstalledCertificate {
  ins_ID : string; ins_TenantID : string; ins_CertificateID : string; ins_ClientID : string;
  ins_InstalledAt : Z; ins_ReportedAt : Z;
}.
#[export] Instance ins_eta : RecordEta InstalledCertificate := fun r =>
  mkInstalledCertificate (ins_ID r) (ins_TenantID r) (ins_CertificateID r) (ins_ClientID r)
    (ins_InstalledAt r) (ins_ReportedAt r).

(** A destination a certificate can be deployed to. *)
Record DeploymentTarget := mkDeploymentTarget {
  tgt_ID : string; tgt_TenantID : string; tgt_Name : string; tgt_Kind : string;
  tgt_ConfigPublic : bytes; tgt_ConfigSealed : bytes; tgt_CreatedBy : option string;
  tgt_UpdatedBy : option string; tgt_CreatedAt : Z; tgt_UpdatedAt : Z;
}.
#[export] Instance tgt_eta : RecordEta DeploymentTarget := fun r =>
  mkDeploymentTarget (tgt_ID r) (tgt_TenantID r) (tgt_Name r) (tgt_Kind r) (tgt_ConfigPublic
    r) (tgt_ConfigSealed r) (tgt_CreatedBy r) (tgt_UpdatedBy r) (tgt_CreatedAt r)
    (tgt_UpdatedAt r).

(** A per-tenant credential. *)
Record TenantSecret := mkTenantSecret {
  sec_ID : string; sec_TenantID : string; sec_Name : string; sec_Kind : string;
  sec_ValueSealed : bytes; sec_CreatedBy : option string; sec_UpdatedBy : option string;
  sec_CreatedAt : Z; sec_UpdatedAt : Z;
}.
#[export] Instance sec_eta : RecordEta TenantSecret := fun r =>
  mkTenantSecret (sec_ID r) (sec_TenantID r) (sec_Name r) (sec_Kind r) (sec_ValueSealed r)
    (sec_CreatedBy r) (sec_UpdatedBy r) (sec_CreatedAt r) (sec_UpdatedAt r).

(** An external callback subscription. *)
Record WebhookEndpoint := mkWebhookEndpoint {
  whk_ID : string; whk_TenantID : string; whk_Name : string; whk_URL : string;
  whk_EventTypes : option (list string); whk_SecretSealed : bytes; whk_Enabled : bool;
  whk_CreatedBy : option string; whk_UpdatedBy : option string; whk_CreatedAt : Z;
  whk_UpdatedAt : Z;
}.
#[export] Instance whk_eta : RecordEta WebhookEndpoint := fun r =>
  mkWebhookEndpoint (whk_ID r) (whk_TenantID r) (whk_Name r) (whk_URL r) (whk_EventTypes r)
    (whk_SecretSealed r) (whk_Enabled r) (whk_CreatedBy r) (whk_UpdatedBy r) (whk_CreatedAt r)
    (whk_UpdatedAt r).

(** A relation tuple on a certificate or issuer. *)
Record Grant := mkGrant {
  grt_ID : string; grt_TenantID : string; grt_ResourceType : string; grt_ResourceID : string;
  grt_SubjectType : string; grt_SubjectID : string; grt_Relation : string;
  grt_GrantedBy : option string; grt_GrantedAt : Z; grt_ExpiresAt : option Z;
}.
#[export] Instance grt_eta : RecordEta Grant := fun r =>
  mkGrant (grt_ID r) (grt_TenantID r) (grt_ResourceType r) (grt_ResourceID r) (grt_SubjectType
    r) (grt_SubjectID r) (grt_Relation r) (grt_GrantedBy r) (grt_GrantedAt r) (grt_ExpiresAt
    r).

(** One history entry of a certificate. *)
Record CertLogRow := mkCertLogRow {
  log_TS : Z; log_TenantID : string; log_CertificateID : string; log_Event : string;
  log_IssuerID : string; log_SpiffeID : string; log_Error : string;
}.
#[export] Instance log_eta : RecordEta CertLogRow := fun r =>
  mkCertLogRow (log_TS r) (log_TenantID r) (log_CertificateID r) (log_Event r) (log_IssuerID
    r) (log_SpiffeID r) (log_Error r).

(** One persisted audit event. *)
Record AuditRow := mkAuditRow {
  aud_ID : Z; aud_TS : Z; aud_TenantID : string; aud_EventType : string;
  aud_ActorKind : string; aud_ActorID : string; aud_SubjectKind : string;
  aud_SubjectID : string; aud_SubjectName : string; aud_Outcome : string; aud_Reason : string;
  aud_CorrelationID : string; aud_Details : bytes;
}.
#[export] Instance aud_eta : RecordEta AuditRow := fun r =>
  mkAuditRow (aud_ID r) (aud_TS r) (aud_TenantID r) (aud_EventType r) (aud_ActorKind r)
    (aud_ActorID r) (aud_SubjectKind r) (aud_SubjectID r) (aud_SubjectName r) (aud_Outcome r)
    (aud_Reason r) (aud_CorrelationID r) (aud_Details r).

(** Selects certificate requests. *)
Record RequestFilter := mkRequestFilter {
  rqf_Status : string; rqf_CursorTS : Z; rqf_CursorID : string; rqf_Limit : Z;
}.
#[export] Instance rqf_eta : RecordEta RequestFilter := fun r =>
  mkRequestFilter (rqf_Status r) (rqf_CursorTS r) (rqf_CursorID r) (rqf_Limit r).

(** Selects certificate jobs. *)
Record JobFilter := mkJobFilter {
  jbf_Status : string; jbf_CursorTS : Z; jbf_CursorID : string; jbf_Limit : Z;
}.
#[export] Instance jbf_eta : RecordEta JobFilter := fun r =>
  mkJobFilter (jbf_Status r) (jbf_CursorTS r) (jbf_CursorID r) (jbf_Limit r).

(** Selects issued certificates. *)
Record CertificateFilter := mkCertificateFilter {
  crf_IssuerID : string; crf_SpiffeID : string; crf_Status : string; crf_CursorTS : Z;
  crf_CursorID : string; crf_Limit : Z;
}.
#[export] Instance crf_eta : RecordEta CertificateFilter := fun r =>
  mkCertificateFilter (crf_IssuerID r) (crf_SpiffeID r) (crf_Status r) (crf_CursorTS r)
    (crf_CursorID r) (crf_Limit r).

(** Selects audit events. *)
Record AuditFilter := mkAuditFilter {
  adf_EventType : string; adf_ActorID : string; adf_From : Z; adf_To : Z; adf_Cursor : Z;
  adf_Limit : Z;
}.
#[export] Instance adf_eta : RecordEta AuditFilter := fun r =>
  mkAuditFilter (adf_EventType r) (adf_ActorID r) (adf_From r) (adf_To r) (adf_Cursor r)
    (adf_Limit r).

(** Per-tenant counts. *)
Record Stats := mkStats {
  sts_Issuers : Z; sts_Certificates : gmap string Z; sts_Jobs : gmap string Z; sts_Clients : Z;
  sts_ExpiringSoon : Z; sts_RecentErrors : Z; sts_Operations24h : Z;
}.
#[export] Instance sts_eta : RecordEta Stats := fun r =>
  mkStats (sts_Issuers r) (sts_Certificates r) (sts_Jobs r) (sts_Clients r) (sts_ExpiringSoon
    r) (sts_RecentErrors r) (sts_Operations24h r).

(** ** Errors of the store (internal/store/store.go) *)
Definition store_ErrNotFound : err := Sentinel "store" "ErrNotFound".
Definition store_ErrConflict : err := Sentinel "store" "ErrConflict".

(** ** Audit page size *)
Definition DefaultAuditLimit : Z := 100.
Definition MaxAuditLimit : Z := 500.
Definition AuditLimit (limit : Z) : Z :=
  if limit <=? 0 then DefaultAuditLimit
  else if MaxAuditLimit <? limit then MaxAuditLimit
  else limit.

(** ** Trust domains (internal/store/trustdomain.go) *)
Definition AnyTrustDomain : string := "*".

Definition trust_domain_byte (c : Ascii.ascii) : bool :=
  ((97 <=? byte_of c) && (byte_of c <=? 122))
  || ((48 <=? byte_of c) && (byte_of c <=? 57))
  || (byte_of c =? 46) || (byte_of c =? 45).

Definition ValidTrustDomain (host : string) : bool :=
  if (host =s "") || (253 <? str_len host) then false
  else string_forallb trust_domain_byte host.

Definition ValidIssuerTrustDomain (issuerType trustDomain : string) : bool :=
  if trustDomain =s AnyTrustDomain then issuerType =s "acme"
  else ValidTrustDomain trustDomain.

(** ** Identifiers (internal/store/ids.go) *)

(** [hex.EncodeToString]. *)
Definition hex_digit (d : Z) : Ascii.ascii :=
  Ascii.ascii_of_N (Z.to_N (if d <? 10 then 48 + d else 87 + d)).
Definition hex_byte (b : Z) : string :=
  String (hex_digit (b / 16)) (String (hex_digit (b mod 16)) EmptyString).
Definition hex_encode (l : list Z) : string :=
  foldr (fun b s => String.append (hex_byte b) s) EmptyString l.

(** [NewID] on the 16 bytes read from the random source and the clock in
    milliseconds: the first six bytes are the timestamp, the version nibble is
    7 and the variant bits are 10. *)
Definition uuid_bytes (rnd : list Z) (ms : Z) : list Z :=
  let byte z := Z.land z 255 in
  [byte (Z.shiftr ms 40); byte (Z.shiftr ms 32); byte (Z.shiftr ms 24);
   byte (Z.shiftr ms 16); byte (Z.shiftr ms 8); byte ms;
   Z.lor (Z.land (nth 6 rnd 0) 15) 112; nth 7 rnd 0;
   Z.lor (Z.land (nth 8 rnd 0) 63) 128]
  ++ take 7 (drop 9 rnd).
Definition NewID (rnd : list Z) (ms : Z) : string :=
  let h := hex_encode (uuid_bytes rnd ms) in
  (String.substring 0 8 h +:+ "-" +:+ String.substring 8 4 h +:+ "-" +:+
   String.substring 12 4 h +:+ "-" +:+ String.substring 16 4 h +:+ "-" +:+
   String.substring 20 12 h)%string.

(** [uuidRE]: five groups of 8, 4, 4, 4 and 12 hexadecimal digits. *)
Definition is_hex (c : Ascii.ascii) : bool :=
  ((48 <=? byte_of c) && (byte_of c <=? 57))
  || ((97 <=? byte_of c) && (byte_of c <=? 102))
  || ((65 <=? byte_of c) && (byte_of c <=? 70)).
Fixpoint hex_run (n : nat) (s : string) : option string :=
  match n, s with
  | O, _ => Some s
  | S n', String c s' => if is_hex c then hex_run n' s' else None
  | S _, EmptyString => None
  end.
Definition dash (s : string) : option string :=
  match s with
  | String c s' => if byte_of c =? 45 then Some s' else None
  | EmptyString => None
  end.
Fixpoint uuid_groups (n : nat) (ns : list nat) (s : string) : bool :=
  match hex_run n s, ns with
  | Some s', [] => s' =s ""
  | Some s', n' :: ns' =>
      match dash s' with Some s'' => uuid_groups n' ns' s'' | None => false end
  | None, _ => false
  end.
Definition IsUUID (s : string) : bool := uuid_groups 8 [4; 4; 4; 12]%nat s.

(** The identifiers the services draw: the n-th call of [store.NewID]. *)
Class IdSource := new_id : nat -> string.

(** ** List scopes (internal/store/lists.go) *)
Record Visible := mkVisible { vis_All : bool; vis_IDs : list string }.
Record RequestScope := mkRequestScope {
  rsc_Actor : string; rsc_AllPinned : bool; rsc_Issuers : list string;
  rsc_DefaultDomains : list string; rsc_AllJobs : bool;
}.
