(* ===== verification/Memstore.v ===== *)
(** The store: internal/memstore/memstore.go, the in-memory implementation of
    repo.Store (internal/repo/repo.go).

    [Mem] is the struct of the same name.  A read method is a function
    [Mem -> res A], a write method a function [Mem -> res A * Mem]; both start
    with the failure injected for the operation ([m.fail(op)]), which stands
    for every error of a database.  The mutex makes each method one atomic
    step.  The lower-case helper names are those of the file. *)

From S2P Require Import Prelude Rows.

Record Mem := mkMem {
  m_Issuers : gmap string Issuer;
  m_CAs : gmap string CA;
  m_Requests : gmap string CertificateRequest;
  m_Jobs : gmap string CertificateJob;
  m_Certificates : gmap string IssuedCertificate;
  m_Revocations : gmap string Revocation;
  m_Installed : gmap string InstalledCertificate;
  m_Targets : gmap string DeploymentTarget;
  m_Secrets : gmap string TenantSecret;
  m_Webhooks : gmap string WebhookEndpoint;
  m_Grants : gmap string Grant;
  m_CertLog : list CertLogRow;
  m_Audit : list AuditRow;
  m_Fail : gmap string err;
  m_Now : Z;
}.
#[export] Instance mem_eta : RecordEta Mem := fun r =>
  mkMem (m_Issuers r) (m_CAs r) (m_Requests r) (m_Jobs r) (m_Certificates r)
    (m_Revocations r) (m_Installed r) (m_Targets r) (m_Secrets r) (m_Webhooks r)
    (m_Grants r) (m_CertLog r) (m_Audit r) (m_Fail r) (m_Now r).

(** [New]: an empty store whose clock reads [now]. *)
Definition Mem_New (now : Z) : Mem :=
  mkMem ∅ ∅ ∅ ∅ ∅ ∅ ∅ ∅ ∅ ∅ ∅ [] [] ∅ now.

(** [FailOn]: a nil error clears the injection. *)
Definition Mem_FailOn (op : string) (e : option err) (m : Mem) : Mem :=
  match e with
  | None => m <| m_Fail := delete op (m_Fail m) |>
  | Some e => m <| m_Fail := <[op := e]> (m_Fail m) |>
  end.

(** [if err := m.fail(op); err != nil { return err }], for reads and writes. *)
Definition fail_read {A} (op : string) (m : Mem) (k : res A) : res A :=
  match m_Fail m !! op with Some e => Err e | None => k end.
Definition fail_write {A} (op : string) (m : Mem) (k : res A * Mem) : res A * Mem :=
  match m_Fail m !! op with Some e => (Err e, m) | None => k end.

(** [Atomic] runs [fn] against the same store: no isolation, no rollback. *)
Definition Mem_Atomic {A} (fn : Mem -> res A * Mem) (m : Mem) : res A * Mem :=
  fail_write "Atomic" m (fn m).

(** ** Helpers *)

(** [append([]byte(nil), b...)] of an empty slice is nil. *)
Definition cloneBytes (b : bytes) : bytes :=
  match b with
  | None => None
  | Some s => if s =s "" then None else Some s
  end.
Definition cloneStrings (l : option (list string)) : option (list string) :=
  match l with
  | None | Some [] => None
  | Some l => Some l
  end.

(** The descending cursor: a zero cursor time accepts everything. *)
Definition beforeCursor (ts : Z) (id : string) (cursorTS : Z) (cursorID : string) : bool :=
  if IsZero cursorTS then true
  else Before ts cursorTS || (TimeEqual ts cursorTS && str_ltb id cursorID).

Definition cpIssuer (i : Issuer) : Issuer :=
  i <| iss_SettingsPublic := cloneBytes (iss_SettingsPublic i) |>
    <| iss_SettingsSealed := cloneBytes (iss_SettingsSealed i) |>.
Definition cpCA (c : CA) : CA := c <| ca_KeySealed := cloneBytes (ca_KeySealed c) |>.
Definition cpRequest (r : CertificateRequest) : CertificateRequest :=
  r <| req_SANs := cloneBytes (req_SANs r) |>.
Definition cpCertificate (c : IssuedCertificate) : IssuedCertificate :=
  c <| crt_SANs := cloneBytes (crt_SANs c) |>
    <| crt_KeySealed := cloneBytes (crt_KeySealed c) |>.
Definition cpTarget (t : DeploymentTarget) : DeploymentTarget :=
  t <| tgt_ConfigPublic := cloneBytes (tgt_ConfigPublic t) |>
    <| tgt_ConfigSealed := cloneBytes (tgt_ConfigSealed t) |>.
Definition cpSecret (s : TenantSecret) : TenantSecret :=
  s <| sec_ValueSealed := cloneBytes (sec_ValueSealed s) |>.
Definition cpWebhook (w : WebhookEndpoint) : WebhookEndpoint :=
  w <| whk_EventTypes := Some (default [] (cloneStrings (whk_EventTypes w))) |>
    <| whk_SecretSealed := cloneBytes (whk_SecretSealed w) |>.
Definition cpAudit (a : AuditRow) : AuditRow :=
  a <| aud_Details := cloneBytes (aud_Details a) |>.

(** [sqlLimit]: a limit <= 0 returns no rows. *)
Definition sqlLimit {A} (out : list A) (limit : Z) : list A :=
  if limit <=? 0 then []
  else if limit <? Z.of_nat (length out) then take (Z.to_nat limit) out
  else out.

(** [sortDesc]: newest first, ties by descending id. *)
Definition sortDesc {A} (ts : A -> Z) (id : A -> string) (out : list A) : list A :=
  sort_slice (fun a b => if negb (TimeEqual (ts a) (ts b)) then After (ts a) (ts b)
                         else str_ltb (id b) (id a)) out.
(** The ascending order of [ClaimDueJobs], [DueForRenewal],
    [ExpiringCertificates] and [sortGrants]. *)
Definition sortAsc {A} (ts : A -> Z) (id : A -> string) (out : list A) : list A :=
  sort_slice (fun a b => if negb (TimeEqual (ts a) (ts b)) then Before (ts a) (ts b)
                         else str_ltb (id a) (id b)) out.

(** The rows of the zero value of their struct (a map read of an absent key). *)
Definition zero_job : CertificateJob :=
  mkCertificateJob "" "" "" "" "" None 0 0 None None 0 0 0.

Section memstore.
Context `{GoRuntime}.

Definition sortByNameID {A} (name id : A -> string) (out : list A) : list A :=
  sort_slice (fun a b => if ToLower (name a) <>s ToLower (name b)
                         then str_ltb (ToLower (name a)) (ToLower (name b))
                         else str_ltb (id a) (id b)) out.

(** ** Issuers *)

Definition certCountForIssuer (m : Mem) (id : string) : Z :=
  Z.of_nat (length (filter (fun x : string * IssuedCertificate => crt_IssuerID x.2 = id)
                           (map_range (m_Certificates m)))).

(** [i.CAID] names a CA of the issuer's tenant. *)
Definition ca_reference_ok (m : Mem) (i : Issuer) : bool :=
  match iss_CAID i with
  | None => true
  | Some caid => match m_CAs m !! caid with
                 | Some c => ca_TenantID c =s iss_TenantID i
                 | None => false
                 end
  end.
(** The unique name per tenant and the single default per trust domain. *)
Definition issuer_clash (i x : Issuer) : bool :=
  (iss_TenantID x =s iss_TenantID i)
  && ((ToLower (iss_Name x) =s ToLower (iss_Name i))
      || (iss_IsDefault i && iss_IsDefault x && (iss_TrustDomain x =s iss_TrustDomain i))).

Definition Mem_InsertIssuer (i : Issuer) (m : Mem) : res unit * Mem :=
  fail_write "InsertIssuer" m
  (if negb (ca_reference_ok m i) then (Err store_ErrConflict, m)
   else if existsb (fun x => issuer_clash i x.2) (map_range (m_Issuers m))
   then (Err store_ErrConflict, m)
   else
     let i := i <| iss_CreatedAt := m_Now m |> <| iss_UpdatedAt := m_Now m |> in
     let i := match iss_SettingsPublic i with
              | None => i <| iss_SettingsPublic := Some "{}" |>
              | Some _ => i
              end in
     (Ok tt, m <| m_Issuers := <[iss_ID i := cpIssuer i]> (m_Issuers m) |>)).

Definition Mem_GetIssuer (tid id : string) (m : Mem) : res Issuer :=
  fail_read "GetIssuer" m
  match m_Issuers m !! id with
  | Some i => if iss_TenantID i =s tid
              then Ok (cpIssuer i <| iss_CertificateCount := certCountForIssuer m id |>)
              else Err store_ErrNotFound
  | None => Err store_ErrNotFound
  end.

(** A listed issuer: a copy with its certificate count. *)
Definition listedIssuer (m : Mem) (i : Issuer) : Issuer :=
  cpIssuer i <| iss_CertificateCount := certCountForIssuer m (iss_ID i) |>.

Definition Mem_ListIssuers (tid after : string) (limit : Z) (m : Mem) : res (list Issuer) :=
  fail_read "ListIssuers" m
  (let out := listedIssuer m <$>
       filter (fun i => (iss_TenantID i =s tid)
                        && str_ltb (ToLower after) (ToLower (iss_Name i)) = true)
              (map_range (m_Issuers m)).*2 in
   Ok (sqlLimit (sortByNameID iss_Name iss_ID out) limit)).

Definition Mem_IssuersByIDs (tid : string) (ids : list string) (m : Mem) : res (list Issuer) :=
  fail_read "IssuersByIDs" m
  (let pick id := match m_Issuers m !! id with
                  | Some i => if iss_TenantID i =s tid
                    then [cpIssuer i <| iss_CertificateCount := certCountForIssuer m id |>]
                    else []
                  | None => []
                  end in
   Ok (sortByNameID iss_Name iss_ID (ids ≫= pick))).

Definition Mem_DefaultIssuer (tid trustDomain : string) (m : Mem) : res Issuer :=
  fail_read "DefaultIssuer" m
  match filter (fun i => (iss_TenantID i =s tid) && (iss_TrustDomain i =s trustDomain)
                         && iss_IsDefault i = true) (map_range (m_Issuers m)).*2 with
  | i :: _ => Ok (listedIssuer m i)
  | [] => Err store_ErrNotFound
  end.

Definition Mem_UpdateIssuer (i : Issuer) (m : Mem) : res unit * Mem :=
  fail_write "UpdateIssuer" m
  match m_Issuers m !! iss_ID i with
  | None => (Err store_ErrNotFound, m)
  | Some old =>
    if iss_TenantID old <>s iss_TenantID i then (Err store_ErrNotFound, m)
    else if negb (ca_reference_ok m i) then (Err store_ErrConflict, m)
    else if existsb (fun x => (x.1 <>s iss_ID i) && issuer_clash i x.2)
                    (map_range (m_Issuers m)) then (Err store_ErrConflict, m)
    else
      let old := old <| iss_Name := iss_Name i |> <| iss_Type := iss_Type i |>
        <| iss_TrustDomain := iss_TrustDomain i |> <| iss_IsDefault := iss_IsDefault i |>
        <| iss_CAID := iss_CAID i |> <| iss_ACMEDirectoryURL := iss_ACMEDirectoryURL i |>
        <| iss_ACMEEmail := iss_ACMEEmail i |> <| iss_DNSProvider := iss_DNSProvider i |>
        <| iss_SettingsPublic := iss_SettingsPublic i |>
        <| iss_SettingsSealed := iss_SettingsSealed i |> <| iss_Enabled := iss_Enabled i |>
        <| iss_UpdatedBy := iss_UpdatedBy i |> <| iss_UpdatedAt := m_Now m |> in
      (Ok tt, m <| m_Issuers := <[iss_ID i := cpIssuer old]> (m_Issuers m) |>)
  end.

Definition Mem_ClearDefaultIssuer (tid trustDomain except : string) (m : Mem) : res unit * Mem :=
  fail_write "ClearDefaultIssuer" m
  (Ok tt, m <| m_Issuers := map_imap (fun id i =>
       Some (if (iss_TenantID i =s tid) && (iss_TrustDomain i =s trustDomain)
                && iss_IsDefault i && (id <>s except)
             then i <| iss_IsDefault := false |> else i)) (m_Issuers m) |>).

Definition Mem_DeleteIssuer (tid id : string) (m : Mem) : res unit * Mem :=
  fail_write "DeleteIssuer" m
  match m_Issuers m !! id with
  | None => (Err store_ErrNotFound, m)
  | Some i =>
    if iss_TenantID i <>s tid then (Err store_ErrNotFound, m)
    else if 0 <? certCountForIssuer m id then (Err store_ErrConflict, m)
    else (Ok tt, m <| m_Issuers := delete id (m_Issuers m) |>)
  end.

(** ** CAs *)

Definition ca_active_in (tid trustDomain : string) (x : CA) : bool :=
  (ca_TenantID x =s tid) && (ca_TrustDomain x =s trustDomain) && (ca_State x =s "active").

Definition Mem_InsertCA (c : CA) (m : Mem) : res unit * Mem :=
  fail_write "InsertCA" m
  (if (ca_State c =s "active")
      && existsb (fun x => ca_active_in (ca_TenantID c) (ca_TrustDomain c) x.2)
                 (map_range (m_CAs m))
   then (Err store_ErrConflict, m)
   else
     let c := if IsZero (ca_CreatedAt c) then c <| ca_CreatedAt := m_Now m |> else c in
     (Ok tt, m <| m_CAs := <[ca_ID c := cpCA c]> (m_CAs m) |>)).

Definition Mem_GetCA (tid id : string) (m : Mem) : res CA :=
  fail_read "GetCA" m
  match m_CAs m !! id with
  | Some c => if ca_TenantID c =s tid then Ok (cpCA c) else Err store_ErrNotFound
  | None => Err store_ErrNotFound
  end.

(** The newest CA in the state: the first one visited among equal times. *)
Definition newest_ca (best : option CA) (c : CA) : option CA :=
  match best with
  | None => Some c
  | Some b => if After (ca_CreatedAt c) (ca_CreatedAt b) then Some c else best
  end.
Definition Mem_CAByState (tid trustDomain state : string) (m : Mem) : res CA :=
  fail_read "CAByState" m
  match foldl newest_ca None
          (filter (fun c => (ca_TenantID c =s tid) && (ca_TrustDomain c =s trustDomain)
                            && (ca_State c =s state) = true) (map_range (m_CAs m)).*2) with
  | Some c => Ok (cpCA c)
  | None => Err store_ErrNotFound
  end.

Definition Mem_CAsForDomain (tid trustDomain : string) (m : Mem) : res (list CA) :=
  fail_read "CAsForDomain" m
  (Ok (sortDesc ca_CreatedAt ca_ID (cpCA <$>
     filter (fun c => (ca_TenantID c =s tid) && (ca_TrustDomain c =s trustDomain) = true)
            (map_range (m_CAs m)).*2))).

Definition Mem_SetCAState (tid id state : string) (m : Mem) : res unit * Mem :=
  fail_write "SetCAState" m
  match m_CAs m !! id with
  | None => (Err store_ErrNotFound, m)
  | Some c =>
    if ca_TenantID c <>s tid then (Err store_ErrNotFound, m)
    else if (state =s "active")
            && existsb (fun x => (x.1 <>s id) && ca_active_in tid (ca_TrustDomain c) x.2)
                       (map_range (m_CAs m))
    then (Err store_ErrConflict, m)
    else (Ok tt, m <| m_CAs := <[id := c <| ca_State := state |>]> (m_CAs m) |>)
  end.

Definition Mem_DeleteCA (tid id : string) (m : Mem) : res unit * Mem :=
  fail_write "DeleteCA" m
  match m_CAs m !! id with
  | None => (Err store_ErrNotFound, m)
  | Some c =>
    if ca_TenantID c <>s tid then (Err store_ErrNotFound, m)
    else if existsb (fun x => bool_decide (iss_CAID x.2 = Some id)) (map_range (m_Issuers m))
    then (Err store_ErrConflict, m)
    else (Ok tt, m <| m_CAs := delete id (m_CAs m) |>)
  end.

(** ** Certificate requests *)

Definition Mem_InsertRequest (r : CertificateRequest) (m : Mem) : res unit * Mem :=
  fail_write "InsertRequest" m
  (let issuer_ok := match req_IssuerID r with
                    | None => true
                    | Some iid => match m_Issuers m !! iid with
                                  | Some i => iss_TenantID i =s req_TenantID r
                                  | None => false
                                  end
                    end in
   if negb issuer_ok then (Err store_ErrConflict, m)
   else
     let r := if req_Kind r =s "" then r <| req_Kind := "svid" |> else r in
     let r := r <| req_CreatedAt := m_Now m |> <| req_UpdatedAt := m_Now m |> in
     (Ok tt, m <| m_Requests := <[req_ID r := cpRequest r]> (m_Requests m) |>)).

Definition Mem_GetRequest (tid id : string) (m : Mem) : res CertificateRequest :=
  fail_read "GetRequest" m
  match m_Requests m !! id with
  | Some r => if req_TenantID r =s tid then Ok (cpRequest r) else Err store_ErrNotFound
  | None => Err store_ErrNotFound
  end.

Definition request_selected (tid : string) (f : RequestFilter) (r : CertificateRequest) : bool :=
  (req_TenantID r =s tid) && ((rqf_Status f =s "") || (req_Status r =s rqf_Status f))
  && beforeCursor (req_CreatedAt r) (req_ID r) (rqf_CursorTS f) (rqf_CursorID f).
Definition Mem_ListRequests (tid : string) (f : RequestFilter) (m : Mem)
  : res (list CertificateRequest) :=
  fail_read "ListRequests" m
  (Ok (sqlLimit (sortDesc req_CreatedAt req_ID
     (cpRequest <$> filter (fun r => request_selected tid f r = true)
                           (map_range (m_Requests m)).*2)) (rqf_Limit f))).

(** A read-modify-write of one row of the tenant. *)
Definition Mem_SetRequestStatus (tid id status : string) (approver reason : option string)
  (m : Mem) : res unit * Mem :=
  fail_write "SetRequestStatus" m
  match m_Requests m !! id with
  | None => (Err store_ErrNotFound, m)
  | Some r =>
    if req_TenantID r <>s tid then (Err store_ErrNotFound, m)
    else
      let r := r <| req_Status := status |> in
      let r := match approver with Some a => r <| req_Approver := Some a |> | None => r end in
      let r := match reason with Some x => r <| req_Reason := Some x |> | None => r end in
      let r := r <| req_UpdatedAt := m_Now m |> in
      (Ok tt, m <| m_Requests := <[id := r]> (m_Requests m) |>)
  end.

Definition Mem_CompleteRequest (tid id status : string) (certificateID reason : option string)
  (m : Mem) : res unit * Mem :=
  fail_write "CompleteRequest" m
  match m_Requests m !! id with
  | None => (Err store_ErrNotFound, m)
  | Some r =>
    if req_TenantID r <>s tid then (Err store_ErrNotFound, m)
    else
      let r := r <| req_Status := status |> <| req_CertificateID := certificateID |>
                 <| req_Reason := reason |> <| req_UpdatedAt := m_Now m |> in
      (Ok tt, m <| m_Requests := <[id := r]> (m_Requests m) |>)
  end.

Definition Mem_DeleteRequest (tid id : string) (m : Mem) : res unit * Mem :=
  fail_write "DeleteRequest" m
  match m_Requests m !! id with
  | None => (Err store_ErrNotFound, m)
  | Some r =>
    if req_TenantID r <>s tid then (Err store_ErrNotFound, m)
    else (Ok tt, m <| m_Requests := delete id (m_Requests m) |>)
  end.

(** ** Certificate jobs *)

Definition Mem_InsertJob (j : CertificateJob) (m : Mem) : res unit * Mem :=
  fail_write "InsertJob" m
  (let j := j <| job_CreatedAt := m_Now m |> <| job_UpdatedAt := m_Now m |> in
   let j := if IsZero (job_RunAfter j) then j <| job_RunAfter := m_Now m |> else j in
   (Ok tt, m <| m_Jobs := <[job_ID j := j]> (m_Jobs m) |>)).

Definition Mem_GetJob (tid id : string) (m : Mem) : res CertificateJob :=
  fail_read "GetJob" m
  match m_Jobs m !! id with
  | Some j => if job_TenantID j =s tid then Ok j else Err store_ErrNotFound
  | None => Err store_ErrNotFound
  end.

Definition job_selected (tid : string) (f : JobFilter) (j : CertificateJob) : bool :=
  (job_TenantID j =s tid) && ((jbf_Status f =s "") || (job_Status j =s jbf_Status f))
  && beforeCursor (job_CreatedAt j) (job_ID j) (jbf_CursorTS f) (jbf_CursorID f).
Definition Mem_ListJobs (tid : string) (f : JobFilter) (m : Mem) : res (list CertificateJob) :=
  fail_read "ListJobs" m
  (Ok (sqlLimit (sortDesc job_CreatedAt job_ID
     (filter (fun j => job_selected tid f j = true) (map_range (m_Jobs m)).*2)) (jbf_Limit f))).

Definition Mem_UpdateJob (j : CertificateJob) (m : Mem) : res unit * Mem :=
  fail_write "UpdateJob" m
  match m_Jobs m !! job_ID j with
  | None => (Err store_ErrNotFound, m)
  | Some old =>
    if job_TenantID old <>s job_TenantID j then (Err store_ErrNotFound, m)
    else
      let old := old <| job_Status := job_Status j |> <| job_LeaseUntil := job_LeaseUntil j |>
        <| job_Attempts := job_Attempts j |> <| job_MaxAttempts := job_MaxAttempts j |>
        <| job_ResultCertificateID := job_ResultCertificateID j |>
        <| job_Error := job_Error j |> <| job_RunAfter := job_RunAfter j |>
        <| job_UpdatedAt := m_Now m |> in
      (Ok tt, m <| m_Jobs := <[job_ID j := old]> (m_Jobs m) |>)
  end.

Definition Mem_DeleteJob (tid id : string) (m : Mem) : res unit * Mem :=
  fail_write "DeleteJob" m
  match m_Jobs m !! id with
  | None => (Err store_ErrNotFound, m)
  | Some j =>
    if job_TenantID j <>s tid then (Err store_ErrNotFound, m)
    else (Ok tt, m <| m_Jobs := delete id (m_Jobs m) |>)
  end.

(** [ClaimDueJobs]: the due jobs, oldest first, each leased. *)
Definition job_due (now : Z) (j : CertificateJob) : bool :=
  (job_Status j =s "queued") && negb (After (job_RunAfter j) now)
  && match job_LeaseUntil j with None => true | Some l => Before l now end.
Definition claimed (now until : Z) (stored : CertificateJob) : CertificateJob :=
  stored <| job_Status := "processing" |> <| job_LeaseUntil := Some until |>
         <| job_Attempts := job_Attempts stored + 1 |> <| job_UpdatedAt := now |>.
Definition claim_one (now until : Z) (acc : list CertificateJob * gmap string CertificateJob)
  (j : CertificateJob) : list CertificateJob * gmap string CertificateJob :=
  let stored := claimed now until (default zero_job (acc.2 !! job_ID j)) in
  (acc.1 ++ [stored], <[job_ID j := stored]> acc.2).
Definition due_jobs (now limit : Z) (m : Mem) : list CertificateJob :=
  sqlLimit (sortAsc job_RunAfter job_ID
              (filter (fun j => job_due now j = true) (map_range (m_Jobs m)).*2)) limit.
Definition Mem_ClaimDueJobs (now lease limit : Z) (m : Mem) : res (list CertificateJob) * Mem :=
  fail_write "ClaimDueJobs" m
  (let '(out, jobs) := foldl (claim_one now (now + lease)) ([], m_Jobs m)
                             (due_jobs now limit m) in
   (Ok out, m <| m_Jobs := jobs |>)).

(** ** Issued certificates *)

Definition Mem_InsertCertificate (c : IssuedCertificate) (m : Mem) : res unit * Mem :=
  fail_write "InsertCertificate" m
  (let issuer_ok := match m_Issuers m !! crt_IssuerID c with
                    | Some i => iss_TenantID i =s crt_TenantID c
                    | None => false
                    end in
   if negb issuer_ok then (Err store_ErrConflict, m)
   else if existsb (fun x => (crt_TenantID x.2 =s crt_TenantID c)
                             && (crt_Serial x.2 =s crt_Serial c)) (map_range (m_Certificates m))
   then (Err store_ErrConflict, m)
   else
     let c := c <| crt_CreatedAt := m_Now m |> <| crt_UpdatedAt := m_Now m |> in
     let c := match crt_SANs c with None => c <| crt_SANs := Some "[]" |> | Some _ => c end in
     (Ok tt, m <| m_Certificates := <[crt_ID c := cpCertificate c]> (m_Certificates m) |>)).

Definition Mem_GetCertificate (tid id : string) (m : Mem) : res IssuedCertificate :=
  fail_read "GetCertificate" m
  match m_Certificates m !! id with
  | Some c => if crt_TenantID c =s tid then Ok (cpCertificate c) else Err store_ErrNotFound
  | None => Err store_ErrNotFound
  end.

Definition certificate_selected (tid : string) (f : CertificateFilter) (c : IssuedCertificate)
  : bool :=
  (crt_TenantID c =s tid)
  && ((crf_IssuerID f =s "") || (crt_IssuerID c =s crf_IssuerID f))
  && ((crf_SpiffeID f =s "") || (crt_SpiffeID c =s crf_SpiffeID f))
  && ((crf_Status f =s "") || (crt_Status c =s crf_Status f))
  && beforeCursor (crt_CreatedAt c) (crt_ID c) (crf_CursorTS f) (crf_CursorID f).
Definition Mem_ListCertificates (tid : string) (f : CertificateFilter) (m : Mem)
  : res (list IssuedCertificate) :=
  fail_read "ListCertificates" m
  (Ok (sqlLimit (sortDesc crt_CreatedAt crt_ID
     (cpCertificate <$> filter (fun c => certificate_selected tid f c = true)
                               (map_range (m_Certificates m)).*2)) (crf_Limit f))).

Definition Mem_CertificatesByIDs (tid : string) (ids : list string) (m : Mem)
  : res (list IssuedCertificate) :=
  fail_read "CertificatesByIDs" m
  (let pick id := match m_Certificates m !! id with
                  | Some c => if crt_TenantID c =s tid then [cpCertificate c] else []
                  | None => []
                  end in
   Ok (sortDesc crt_CreatedAt crt_ID (ids ≫= pick))).

(** [AutoRenew] is not among the columns [UpdateCertificate] copies. *)
Definition Mem_UpdateCertificate (c : IssuedCertificate) (m : Mem) : res unit * Mem :=
  fail_write "UpdateCertificate" m
  match m_Certificates m !! crt_ID c with
  | None => (Err store_ErrNotFound, m)
  | Some old =>
    if crt_TenantID old <>s crt_TenantID c then (Err store_ErrNotFound, m)
    else
      let old := old <| crt_Status := crt_Status c |> <| crt_ChainPEM := crt_ChainPEM c |>
        <| crt_KeySealed := crt_KeySealed c |> <| crt_KeyDelivered := crt_KeyDelivered c |>
        <| crt_SupersededBy := crt_SupersededBy c |> <| crt_Owner := crt_Owner c |>
        <| crt_UpdatedBy := crt_UpdatedBy c |> <| crt_UpdatedAt := m_Now m |> in
      (Ok tt, m <| m_Certificates := <[crt_ID c := cpCertificate old]> (m_Certificates m) |>)
  end.

Definition Mem_SetCertificateStatus (tid id status : string) (supersededBy : option string)
  (m : Mem) : res unit * Mem :=
  fail_write "SetCertificateStatus" m
  match m_Certificates m !! id with
  | None => (Err store_ErrNotFound, m)
  | Some c =>
    if crt_TenantID c <>s tid then (Err store_ErrNotFound, m)
    else
      let c := c <| crt_Status := status |> in
      let c := match supersededBy with
               | Some s => c <| crt_SupersededBy := Some s |>
               | None => c
               end in
      let c := c <| crt_UpdatedAt := m_Now m |> in
      (Ok tt, m <| m_Certificates := <[id := c]> (m_Certificates m) |>)
  end.

Definition Mem_MarkKeyDelivered (tid id : string) (m : Mem) : res unit * Mem :=
  fail_write "MarkKeyDelivered" m
  match m_Certificates m !! id with
  | None => (Err store_ErrNotFound, m)
  | Some c =>
    if crt_TenantID c <>s tid then (Err store_ErrNotFound, m)
    else
      let c := c <| crt_KeyDelivered := true |> <| crt_KeySealed := None |>
                 <| crt_UpdatedAt := m_Now m |> in
      (Ok tt, m <| m_Certificates := <[id := c]> (m_Certificates m) |>)
  end.

Definition Mem_DeleteCertificate (tid id : string) (m : Mem) : res unit * Mem :=
  fail_write "DeleteCertificate" m
  match m_Certificates m !! id with
  | None => (Err store_ErrNotFound, m)
  | Some c =>
    if crt_TenantID c <>s tid then (Err store_ErrNotFound, m)
    else (Ok tt, m <| m_Certificates := delete id (m_Certificates m) |>)
  end.

(** A live certificate whose expiry lies in (now, before]. *)
Definition expires_within (now before : Z) (c : IssuedCertificate) : bool :=
  ((crt_Status c =s "active") || (crt_Status c =s "expiring"))
  && bool_decide (crt_SupersededBy c = None)
  && After (crt_NotAfter c) now && negb (After (crt_NotAfter c) before).

(** System scope: no tenant filter. *)
Definition Mem_DueForRenewal (now notAfterBefore limit : Z) (m : Mem)
  : res (list IssuedCertificate) :=
  fail_read "DueForRenewal" m
  (Ok (sqlLimit (sortAsc crt_NotAfter crt_ID
     (cpCertificate <$> filter (fun c => expires_within now notAfterBefore c = true)
                               (map_range (m_Certificates m)).*2)) limit)).

Definition Mem_ExpiringCertificates (tid : string) (now before limit : Z) (m : Mem)
  : res (list IssuedCertificate) :=
  fail_read "ExpiringCertificates" m
  (Ok (sqlLimit (sortAsc crt_NotAfter crt_ID
     (cpCertificate <$> filter (fun c => (crt_TenantID c =s tid)
                                         && expires_within now before c = true)
                               (map_range (m_Certificates m)).*2)) limit)).

(** ** Revocations *)

Definition Mem_InsertRevocation (r : Revocation) (m : Mem) : res unit * Mem :=
  fail_write "InsertRevocation" m
  (if existsb (fun x => (rev_TenantID x.2 =s rev_TenantID r)
                        && (rev_CertificateID x.2 =s rev_CertificateID r))
              (map_range (m_Revocations m))
   then (Err store_ErrConflict, m)
   else
     let r := if IsZero (rev_RevokedAt r) then r <| rev_RevokedAt := m_Now m |> else r in
     (Ok tt, m <| m_Revocations := <[rev_ID r := r]> (m_Revocations m) |>)).

Definition revocation_selected (tid : string) (cursor : Z) (r : Revocation) : bool :=
  (rev_TenantID r =s tid) && (IsZero cursor || Before (rev_RevokedAt r) cursor).
Definition Mem_ListRevocations (tid : string) (cursor limit : Z) (m : Mem)
  : res (list Revocation) :=
  fail_read "ListRevocations" m
  (Ok (sqlLimit (sortDesc rev_RevokedAt rev_ID
     (filter (fun r => revocation_selected tid cursor r = true)
             (map_range (m_Revocations m)).*2)) limit)).

(** ** Installed certificates *)

Definition same_install (i x : InstalledCertificate) : bool :=
  (ins_TenantID x =s ins_TenantID i) && (ins_CertificateID x =s ins_CertificateID i)
  && (ins_ClientID x =s ins_ClientID i).
Definition Mem_UpsertInstalled (i : InstalledCertificate) (m : Mem) : res unit * Mem :=
  fail_write "UpsertInstalled" m
  match filter (fun x : string * InstalledCertificate => same_install i x.2 = true)
               (map_range (m_Installed m)) with
  | (id, x) :: _ =>
      (Ok tt, m <| m_Installed :=
                 <[id := x <| ins_ReportedAt := ins_ReportedAt i |>]> (m_Installed m) |>)
  | [] =>
      let i := if IsZero (ins_InstalledAt i) then i <| ins_InstalledAt := m_Now m |> else i in
      let i := if IsZero (ins_ReportedAt i) then i <| ins_ReportedAt := m_Now m |> else i in
      (Ok tt, m <| m_Installed := <[ins_ID i := i]> (m_Installed m) |>)
  end.

Definition installed_selected (tid clientID : string) (cursor : Z) (i : InstalledCertificate)
  : bool :=
  (ins_TenantID i =s tid) && ((clientID =s "") || (ins_ClientID i =s clientID))
  && (IsZero cursor || Before (ins_ReportedAt i) cursor).
Definition Mem_ListInstalled (tid clientID : string) (cursor limit : Z) (m : Mem)
  : res (list InstalledCertificate) :=
  fail_read "ListInstalled" m
  (Ok (sqlLimit (sortDesc ins_ReportedAt ins_ID
     (filter (fun i => installed_selected tid clientID cursor i = true)
             (map_range (m_Installed m)).*2)) limit)).

(** ** Deployment targets *)

Definition Mem_InsertTarget (t : DeploymentTarget) (m : Mem) : res unit * Mem :=
  fail_write "InsertTarget" m
  (if existsb (fun x => (tgt_TenantID x.2 =s tgt_TenantID t)
                        && (ToLower (tgt_Name x.2) =s ToLower (tgt_Name t)))
              (map_range (m_Targets m))
   then (Err store_ErrConflict, m)
   else
     let t := t <| tgt_CreatedAt := m_Now m |> <| tgt_UpdatedAt := m_Now m |> in
     let t := match tgt_ConfigPublic t with
              | None => t <| tgt_ConfigPublic := Some "{}" |>
              | Some _ => t
              end in
     (Ok tt, m <| m_Targets := <[tgt_ID t := cpTarget t]> (m_Targets m) |>)).

Definition Mem_GetTarget (tid id : string) (m : Mem) : res DeploymentTarget :=
  fail_read "GetTarget" m
  match m_Targets m !! id with
  | Some t => if tgt_TenantID t =s tid then Ok (cpTarget t) else Err store_ErrNotFound
  | None => Err store_ErrNotFound
  end.

Definition Mem_ListTargets (tid : string) (m : Mem) : res (list DeploymentTarget) :=
  fail_read "ListTargets" m
  (Ok (sortByNameID tgt_Name tgt_ID (cpTarget <$>
     filter (fun t => (tgt_TenantID t =s tid) = true) (map_range (m_Targets m)).*2))).

Definition Mem_DeleteTarget (tid id : string) (m : Mem) : res unit * Mem :=
  fail_write "DeleteTarget" m
  match m_Targets m !! id with
  | None => (Err store_ErrNotFound, m)
  | Some t =>
    if tgt_TenantID t <>s tid then (Err store_ErrNotFound, m)
    else (Ok tt, m <| m_Targets := delete id (m_Targets m) |>)
  end.

(** ** Tenant secrets *)

Definition secret_clash (s x : TenantSecret) : bool :=
  (sec_TenantID x =s sec_TenantID s) && (ToLower (sec_Name x) =s ToLower (sec_Name s)).

Definition Mem_InsertSecret (s : TenantSecret) (m : Mem) : res unit * Mem :=
  fail_write "InsertSecret" m
  (if existsb (fun x => secret_clash s x.2) (map_range (m_Secrets m))
   then (Err store_ErrConflict, m)
   else
     let s := s <| sec_CreatedAt := m_Now m |> <| sec_UpdatedAt := m_Now m |> in
     (Ok tt, m <| m_Secrets := <[sec_ID s := cpSecret s]> (m_Secrets m) |>)).

Definition Mem_GetSecret (tid id : string) (m : Mem) : res TenantSecret :=
  fail_read "GetSecret" m
  match m_Secrets m !! id with
  | Some s => if sec_TenantID s =s tid then Ok (cpSecret s) else Err store_ErrNotFound
  | None => Err store_ErrNotFound
  end.

Definition Mem_SecretByName (tid name : string) (m : Mem) : res TenantSecret :=
  fail_read "SecretByName" m
  match filter (fun s => (sec_TenantID s =s tid) && (ToLower (sec_Name s) =s ToLower name) = true)
               (map_range (m_Secrets m)).*2 with
  | s :: _ => Ok (cpSecret s)
  | [] => Err store_ErrNotFound
  end.

Definition Mem_ListSecrets (tid : string) (m : Mem) : res (list TenantSecret) :=
  fail_read "ListSecrets" m
  (Ok (sortByNameID sec_Name sec_ID (cpSecret <$>
     filter (fun s => (sec_TenantID s =s tid) = true) (map_range (m_Secrets m)).*2))).

Definition Mem_UpdateSecret (s : TenantSecret) (m : Mem) : res unit * Mem :=
  fail_write "UpdateSecret" m
  match m_Secrets m !! sec_ID s with
  | None => (Err store_ErrNotFound, m)
  | Some old =>
    if sec_TenantID old <>s sec_TenantID s then (Err store_ErrNotFound, m)
    else if existsb (fun x => (x.1 <>s sec_ID s) && secret_clash s x.2)
                    (map_range (m_Secrets m)) then (Err store_ErrConflict, m)
    else
      let old := old <| sec_Name := sec_Name s |> <| sec_Kind := sec_Kind s |>
        <| sec_ValueSealed := sec_ValueSealed s |> <| sec_UpdatedBy := sec_UpdatedBy s |>
        <| sec_UpdatedAt := m_Now m |> in
      (Ok tt, m <| m_Secrets := <[sec_ID s := cpSecret old]> (m_Secrets m) |>)
  end.

Definition Mem_DeleteSecret (tid id : string) (m : Mem) : res unit * Mem :=
  fail_write "DeleteSecret" m
  match m_Secrets m !! id with
  | None => (Err store_ErrNotFound, m)
  | Some s =>
    if sec_TenantID s <>s tid then (Err store_ErrNotFound, m)
    else (Ok tt, m <| m_Secrets := delete id (m_Secrets m) |>)
  end.

(** ** Webhook endpoints *)

Definition Mem_InsertWebhook (w : WebhookEndpoint) (m : Mem) : res unit * Mem :=
  fail_write "InsertWebhook" m
  (if existsb (fun x => (whk_TenantID x.2 =s whk_TenantID w)
                        && (ToLower (whk_Name x.2) =s ToLower (whk_Name w)))
              (map_range (m_Webhooks m))
   then (Err store_ErrConflict, m)
   else
     let w := w <| whk_CreatedAt := m_Now m |> <| whk_UpdatedAt := m_Now m |> in
     let w := match whk_EventTypes w with
              | None => w <| whk_EventTypes := Some [] |>
              | Some _ => w
              end in
     (Ok tt, m <| m_Webhooks := <[whk_ID w := cpWebhook w]> (m_Webhooks m) |>)).

Definition Mem_GetWebhook (tid id : string) (m : Mem) : res WebhookEndpoint :=
  fail_read "GetWebhook" m
  match m_Webhooks m !! id with
  | Some w => if whk_TenantID w =s tid then Ok (cpWebhook w) else Err store_ErrNotFound
  | None => Err store_ErrNotFound
  end.

Definition Mem_ListWebhooks (tid : string) (m : Mem) : res (list WebhookEndpoint) :=
  fail_read "ListWebhooks" m
  (Ok (sortByNameID whk_Name whk_ID (cpWebhook <$>
     filter (fun w => (whk_TenantID w =s tid) = true) (map_range (m_Webhooks m)).*2))).

Definition Mem_WebhooksForEvent (tid eventType : string) (m : Mem)
  : res (list WebhookEndpoint) :=
  fail_read "WebhooksForEvent" m
  (Ok (sortByNameID whk_Name whk_ID (cpWebhook <$>
     filter (fun w => (whk_TenantID w =s tid) && whk_Enabled w
                      && contains (default [] (whk_EventTypes w)) eventType = true)
            (map_range (m_Webhooks m)).*2))).

Definition Mem_DeleteWebhook (tid id : string) (m : Mem) : res unit * Mem :=
  fail_write "DeleteWebhook" m
  match m_Webhooks m !! id with
  | None => (Err store_ErrNotFound, m)
  | Some w =>
    if whk_TenantID w <>s tid then (Err store_ErrNotFound, m)
    else (Ok tt, m <| m_Webhooks := delete id (m_Webhooks m) |>)
  end.

(** ** Grants *)

(** The unique key of a grant: one per resource and subject. *)
Definition same_grant (g x : Grant) : bool :=
  (grt_TenantID x =s grt_TenantID g) && (grt_ResourceType x =s grt_ResourceType g)
  && (grt_ResourceID x =s grt_ResourceID g) && (grt_SubjectType x =s grt_SubjectType g)
  && (grt_SubjectID x =s grt_SubjectID g).
Definition Mem_UpsertGrant (g : Grant) (m : Mem) : res Grant * Mem :=
  fail_write "UpsertGrant" m
  match filter (fun x : string * Grant => same_grant g x.2 = true) (map_range (m_Grants m)) with
  | (id, x) :: _ =>
      let x := x <| grt_Relation := grt_Relation g |> <| grt_GrantedBy := grt_GrantedBy g |>
                 <| grt_GrantedAt := m_Now m |> <| grt_ExpiresAt := grt_ExpiresAt g |> in
      (Ok x, m <| m_Grants := <[id := x]> (m_Grants m) |>)
  | [] =>
      let g := g <| grt_GrantedAt := m_Now m |> in
      (Ok g, m <| m_Grants := <[grt_ID g := g]> (m_Grants m) |>)
  end.

Definition Mem_GetGrant (tid id : string) (m : Mem) : res Grant :=
  fail_read "GetGrant" m
  match m_Grants m !! id with
  | Some g => if grt_TenantID g =s tid then Ok g else Err store_ErrNotFound
  | None => Err store_ErrNotFound
  end.

Definition Mem_DeleteGrant (tid id : string) (m : Mem) : res unit * Mem :=
  fail_write "DeleteGrant" m
  match m_Grants m !! id with
  | None => (Err store_ErrNotFound, m)
  | Some g =>
    if grt_TenantID g <>s tid then (Err store_ErrNotFound, m)
    else (Ok tt, m <| m_Grants := delete id (m_Grants m) |>)
  end.

Definition sortGrants (out : list Grant) : list Grant := sortAsc grt_GrantedAt grt_ID out.

Definition grant_on (tid rt rid : string) (g : Grant) : bool :=
  (grt_TenantID g =s tid) && (grt_ResourceType g =s rt) && (grt_ResourceID g =s rid).
Definition Mem_GrantsOnResource (tid rt rid : string) (m : Mem) : res (list Grant) :=
  fail_read "GrantsOnResource" m
  (Ok (sortGrants (filter (fun g => grant_on tid rt rid g = true) (map_range (m_Grants m)).*2))).

Definition grant_for (tid uid : string) (roles : list string) (now : Z) (g : Grant) : bool :=
  if (grt_TenantID g <>s tid)
     || match grt_ExpiresAt g with Some e => negb (After e now) | None => false end
  then false
  else if grt_SubjectType g =s "user" then negb ((uid =s "") || (grt_SubjectID g <>s uid))
  else if grt_SubjectType g =s "role" then contains roles (grt_SubjectID g)
  else grt_SubjectType g =s "tenant".
Definition Mem_GrantsForSubjects (tid uid : string) (roles : list string) (now : Z) (m : Mem)
  : res (list Grant) :=
  fail_read "GrantsForSubjects" m
  (Ok (sortGrants (filter (fun g => grant_for tid uid roles now g = true)
                          (map_range (m_Grants m)).*2))).

Definition Mem_DeleteGrantsOfResource (tid rt rid : string) (m : Mem) : res unit * Mem :=
  fail_write "DeleteGrantsOfResource" m
  (Ok tt, m <| m_Grants := filter (fun x : string * Grant => grant_on tid rt rid x.2 = false)
                                  (m_Grants m) |>).

(** ** Certificate log, audit and statistics *)

Definition Mem_InsertCertLog (rows : list CertLogRow) (m : Mem) : res unit * Mem :=
  fail_write "InsertCertLog" m (Ok tt, m <| m_CertLog := m_CertLog m ++ rows |>).

(** Each row is numbered by its position. *)
Definition append_audit (l : list AuditRow) (r : AuditRow) : list AuditRow :=
  l ++ [cpAudit r <| aud_ID := Z.of_nat (length l) + 1 |>].
Definition Mem_InsertAuditRows (rows : list AuditRow) (m : Mem) : res unit * Mem :=
  fail_write "InsertAuditRows" m
  (Ok tt, m <| m_Audit := foldl append_audit (m_Audit m) rows |>).

Definition subjectName (m : Mem) (tid : string) (r : AuditRow) : string :=
  let named {A} (o : option A) (ten name : A -> string) :=
    match o with Some x => if ten x =s tid then name x else "" | None => "" end in
  let k := aud_SubjectKind r in
  if k =s "issuer" then named (m_Issuers m !! aud_SubjectID r) iss_TenantID iss_Name
  else if k =s "certificate"
  then named (m_Certificates m !! aud_SubjectID r) crt_TenantID crt_SpiffeID
  else if k =s "secret" then named (m_Secrets m !! aud_SubjectID r) sec_TenantID sec_Name
  else if k =s "webhook" then named (m_Webhooks m !! aud_SubjectID r) whk_TenantID whk_Name
  else "".

Definition audit_selected (tid : string) (f : AuditFilter) (r : AuditRow) : bool :=
  (aud_TenantID r =s tid) && ((adf_EventType f =s "") || (aud_EventType r =s adf_EventType f))
  && ((adf_ActorID f =s "") || (aud_ActorID r =s adf_ActorID f))
  && (IsZero (adf_From f) || negb (Before (aud_TS r) (adf_From f)))
  && (IsZero (adf_To f) || negb (After (aud_TS r) (adf_To f)))
  && (IsZero (adf_Cursor f) || Before (aud_TS r) (adf_Cursor f)).
(** [sort.SliceStable], newest first. *)
Definition Mem_QueryAudit (tid : string) (f : AuditFilter) (m : Mem) : res (list AuditRow) :=
  fail_read "QueryAudit" m
  (let out := (fun r => cpAudit r <| aud_SubjectName := subjectName m tid r |>) <$>
                filter (fun r => audit_selected tid f r = true) (m_Audit m) in
   let out := sort_slice (fun a b => After (aud_TS a) (aud_TS b)) out in
   Ok (take (Z.to_nat (AuditLimit (adf_Limit f))) out)).

Definition count_if {A} (P : A -> bool) (l : list A) : Z :=
  Z.of_nat (length (List.filter P l)).
(** [st.Certificates[c.Status]++] over the rows. *)
Definition count_by {A} (k : A -> string) (l : list A) : gmap string Z :=
  foldl (fun acc x => <[k x := default 0 (acc !! k x) + 1]> acc) ∅ l.
Definition Mem_TenantStats (tid : string) (now window : Z) (m : Mem) : res Stats :=
  fail_read "TenantStats" m
  (let since := now - window in
   let expBefore := now + window in
   let certs := filter (fun c => (crt_TenantID c =s tid) = true)
                       (map_range (m_Certificates m)).*2 in
   let clients : gset string :=
     list_to_set (ins_ClientID <$> filter (fun i => (ins_TenantID i =s tid) = true)
                                          (map_range (m_Installed m)).*2) in
   Ok {| sts_Issuers := count_if (fun i => iss_TenantID i =s tid) (map_range (m_Issuers m)).*2;
         sts_Certificates := count_by crt_Status certs;
         sts_Jobs := count_by job_Status (filter (fun j => (job_TenantID j =s tid) = true)
                                                 (map_range (m_Jobs m)).*2);
         sts_Clients := Z.of_nat (size clients);
         sts_ExpiringSoon := count_if (fun c =>
             ((crt_Status c =s "active") || (crt_Status c =s "expiring"))
             && After (crt_NotAfter c) now && negb (After (crt_NotAfter c) expBefore)) certs;
         sts_RecentErrors := count_if (fun l => (log_TenantID l =s tid)
             && (log_Event l =s "failed") && negb (Before (log_TS l) since)) (m_CertLog m);
         sts_Operations24h := count_if (fun a => (aud_TenantID a =s tid)
             && negb (Before (aud_TS a) since)) (m_Audit m) |}).

End memstore.
