(* ===== verification/MemstoreInv.v ===== *)
(** The integrity of the store: every sequence of store operations keeps the
    uniqueness and reference constraints the database schema declares
    ([reachable_wf]), and an operation of one tenant leaves the rows of every
    other tenant untouched, but for a row whose identifier it inserts again
    ([tenant_frame]). *)

From S2P Require Import Prelude Rows Memstore.

(** ** The write operations, as data *)

Inductive mem_op : Type :=
| OpInsertIssuer (i : Issuer) | OpUpdateIssuer (i : Issuer)
| OpClearDefaultIssuer (tid trustDomain except : string) | OpDeleteIssuer (tid id : string)
| OpInsertCA (c : CA) | OpSetCAState (tid id state : string) | OpDeleteCA (tid id : string)
| OpInsertRequest (r : CertificateRequest)
| OpSetRequestStatus (tid id status : string) (approver reason : option string)
| OpCompleteRequest (tid id status : string) (certificateID reason : option string)
| OpDeleteRequest (tid id : string)
| OpInsertJob (j : CertificateJob) | OpUpdateJob (j : CertificateJob)
| OpDeleteJob (tid id : string) | OpClaimDueJobs (now lease limit : Z)
| OpInsertCertificate (c : IssuedCertificate) | OpUpdateCertificate (c : IssuedCertificate)
| OpSetCertificateStatus (tid id status : string) (supersededBy : option string)
| OpMarkKeyDelivered (tid id : string) | OpDeleteCertificate (tid id : string)
| OpInsertRevocation (r : Revocation) | OpUpsertInstalled (i : InstalledCertificate)
| OpInsertTarget (t : DeploymentTarget) | OpDeleteTarget (tid id : string)
| OpInsertSecret (s : TenantSecret) | OpUpdateSecret (s : TenantSecret)
| OpDeleteSecret (tid id : string)
| OpInsertWebhook (w : WebhookEndpoint) | OpDeleteWebhook (tid id : string)
| OpUpsertGrant (g : Grant) | OpDeleteGrant (tid id : string)
| OpDeleteGrantsOfResource (tid rt rid : string)
| OpInsertCertLog (rows : list CertLogRow) | OpInsertAuditRows (rows : list AuditRow).

Section step.
Context `{GoRuntime}.

Definition run_op (op : mem_op) (m : Mem) : Mem :=
  match op with
  | OpInsertIssuer i => (Mem_InsertIssuer i m).2
  | OpUpdateIssuer i => (Mem_UpdateIssuer i m).2
  | OpClearDefaultIssuer t d e => (Mem_ClearDefaultIssuer t d e m).2
  | OpDeleteIssuer t i => (Mem_DeleteIssuer t i m).2
  | OpInsertCA c => (Mem_InsertCA c m).2
  | OpSetCAState t i s => (Mem_SetCAState t i s m).2
  | OpDeleteCA t i => (Mem_DeleteCA t i m).2
  | OpInsertRequest r => (Mem_InsertRequest r m).2
  | OpSetRequestStatus t i s a r => (Mem_SetRequestStatus t i s a r m).2
  | OpCompleteRequest t i s c r => (Mem_CompleteRequest t i s c r m).2
  | OpDeleteRequest t i => (Mem_DeleteRequest t i m).2
  | OpInsertJob j => (Mem_InsertJob j m).2
  | OpUpdateJob j => (Mem_UpdateJob j m).2
  | OpDeleteJob t i => (Mem_DeleteJob t i m).2
  | OpClaimDueJobs n l k => (Mem_ClaimDueJobs n l k m).2
  | OpInsertCertificate c => (Mem_InsertCertificate c m).2
  | OpUpdateCertificate c => (Mem_UpdateCertificate c m).2
  | OpSetCertificateStatus t i s b => (Mem_SetCertificateStatus t i s b m).2
  | OpMarkKeyDelivered t i => (Mem_MarkKeyDelivered t i m).2
  | OpDeleteCertificate t i => (Mem_DeleteCertificate t i m).2
  | OpInsertRevocation r => (Mem_InsertRevocation r m).2
  | OpUpsertInstalled i => (Mem_UpsertInstalled i m).2
  | OpInsertTarget t => (Mem_InsertTarget t m).2
  | OpDeleteTarget t i => (Mem_DeleteTarget t i m).2
  | OpInsertSecret s => (Mem_InsertSecret s m).2
  | OpUpdateSecret s => (Mem_UpdateSecret s m).2
  | OpDeleteSecret t i => (Mem_DeleteSecret t i m).2
  | OpInsertWebhook w => (Mem_InsertWebhook w m).2
  | OpDeleteWebhook t i => (Mem_DeleteWebhook t i m).2
  | OpUpsertGrant g => (Mem_UpsertGrant g m).2
  | OpDeleteGrant t i => (Mem_DeleteGrant t i m).2
  | OpDeleteGrantsOfResource t a b => (Mem_DeleteGrantsOfResource t a b m).2
  | OpInsertCertLog r => (Mem_InsertCertLog r m).2
  | OpInsertAuditRows r => (Mem_InsertAuditRows r m).2
  end.

(** A row is inserted under an identifier the table does not hold yet: the
    services draw it from [store.NewID] and the database declares it a primary
    key. *)
Definition fresh_id (op : mem_op) (m : Mem) : Prop :=
  match op with
  | OpInsertIssuer i => m_Issuers m !! iss_ID i = None
  | OpInsertCA c => m_CAs m !! ca_ID c = None
  | OpInsertRequest r => m_Requests m !! req_ID r = None
  | OpInsertJob j => m_Jobs m !! job_ID j = None
  | OpInsertCertificate c => m_Certificates m !! crt_ID c = None
  | OpInsertRevocation r => m_Revocations m !! rev_ID r = None
  | OpUpsertInstalled i => m_Installed m !! ins_ID i = None
  | OpInsertTarget t => m_Targets m !! tgt_ID t = None
  | OpInsertSecret s => m_Secrets m !! sec_ID s = None
  | OpInsertWebhook w => m_Webhooks m !! whk_ID w = None
  | OpUpsertGrant g => m_Grants m !! grt_ID g = None
  | _ => True
  end.

(** The states the services can bring a new store to: operations in any order,
    failures injected and cleared at will, a clock that may move. *)
Inductive reachable : Mem -> Prop :=
| reach_new now : reachable (Mem_New now)
| reach_op op m : reachable m -> fresh_id op m -> reachable (run_op op m)
| reach_fail op e m : reachable m -> reachable (Mem_FailOn op e m)
| reach_clock t m : reachable m -> reachable (m <| m_Now := t |>).

(** A store with one issuer, for the witnesses. *)
Definition sample_issuer : Issuer :=
  mkIssuer "i1" "t1" "Corp CA" "internal" "example.org" true None "" "" "" None None true
    (Some "u1") (Some "u1") 0 0 0.
Definition sample_cert : IssuedCertificate :=
  mkIssuedCertificate "c1" "t1" "i1" "svid" None "0a" "spiffe://example.org/web" "" None 10 1000
    "" "active" "" "" (Some "sealed") false true None "u1" (Some "u1") (Some "u1") 0 0.
Definition sample_store : Mem := run_op (OpInsertIssuer sample_issuer) (Mem_New 100).

(** ** Table constraints *)

(** Every row is stored under its own identifier. *)
Definition keyed {A} (id : A -> string) (t : gmap string A) : Prop :=
  forall k x, t !! k = Some x -> id x = k.
(** No two rows clash. *)
Definition uniq {A} (clash : A -> A -> Prop) (t : gmap string A) : Prop :=
  forall k1 k2 x1 x2, t !! k1 = Some x1 -> t !! k2 = Some x2 -> clash x1 x2 -> k1 = k2.

Section keyed.
Context {A : Type} (id : A -> string).
Implicit Types (t : gmap string A).

Lemma keyed_empty : keyed id ∅.
Proof. by intros k x ?%lookup_empty_Some. Qed.
Lemma keyed_insert k x t : keyed id t -> id x = k -> keyed id (<[k := x]> t).
Proof. intros Ht Hx k' x'. rewrite lookup_insert_Some. naive_solver. Qed.
Lemma keyed_delete k t : keyed id t -> keyed id (delete k t).
Proof. intros Ht k' x'. rewrite lookup_delete_Some. naive_solver. Qed.
Lemma keyed_filter (P : string * A -> Prop) `{!forall x, Decision (P x)} t :
  keyed id t -> keyed id (filter P t).
Proof. intros Ht k x [? _]%map_lookup_filter_Some. by apply Ht. Qed.
(** A row rewritten in place without touching what the constraint reads. *)
Lemma keyed_replace k x old t :
  t !! k = Some old -> id x = id old -> keyed id t -> keyed id (<[k := x]> t).
Proof. intros Hk Hx Ht. apply keyed_insert; [done|]. rewrite Hx. by apply Ht. Qed.
End keyed.

Section uniq.
Context {A : Type} (clash : A -> A -> Prop).
Implicit Types (t : gmap string A).

Lemma uniq_empty : uniq clash ∅.
Proof. by intros k1 k2 x1 x2 ?%lookup_empty_Some. Qed.
Lemma uniq_delete k t : uniq clash t -> uniq clash (delete k t).
Proof. intros Ht k1 k2 x1 x2. rewrite !lookup_delete_Some. naive_solver. Qed.
Lemma uniq_filter (P : string * A -> Prop) `{!forall x, Decision (P x)} t :
  uniq clash t -> uniq clash (filter P t).
Proof. intros Ht k1 k2 x1 x2 [? _]%map_lookup_filter_Some [? _]%map_lookup_filter_Some. eauto. Qed.
(** A new or replaced row clashes with no row under another key. *)
Lemma uniq_insert k x t :
  (forall a b, clash a b -> clash b a) -> uniq clash t ->
  (forall k' x', k' <> k -> t !! k' = Some x' -> ~ clash x' x) ->
  uniq clash (<[k := x]> t).
Proof.
  intros Hsym Ht Hx k1 k2 x1 x2 H1 H2 Hc.
  apply lookup_insert_Some in H1 as [[<- <-]|[? H1]];
    apply lookup_insert_Some in H2 as [[<- <-]|[? H2]]; eauto.
  - exfalso. eapply Hx; [..|by apply Hsym]; eauto.
  - exfalso. eapply Hx; [..|exact Hc]; eauto.
Qed.
Lemma uniq_replace k x old t :
  (forall a b, clash a b -> clash b a) -> t !! k = Some old ->
  (forall y, clash y x -> clash y old) -> uniq clash t -> uniq clash (<[k := x]> t).
Proof.
  intros Hsym Hk Hx Ht. apply uniq_insert; [done..|].
  intros k' x' Hne Hk' Hc. apply Hne. eauto.
Qed.
End uniq.
#[local] Hint Resolve keyed_insert keyed_delete keyed_filter uniq_delete uniq_filter : lcm.

(** The clashes the store refuses. *)
Definition same_name {A} (ten name : A -> string) (x y : A) : Prop :=
  ten x = ten y /\ ToLower (name x) = ToLower (name y).
Definition both_default (x y : Issuer) : Prop :=
  iss_TenantID x = iss_TenantID y /\ iss_TrustDomain x = iss_TrustDomain y
  /\ iss_IsDefault x = true /\ iss_IsDefault y = true.
Definition both_active (x y : CA) : Prop :=
  ca_TenantID x = ca_TenantID y /\ ca_TrustDomain x = ca_TrustDomain y
  /\ ca_State x = "active" /\ ca_State y = "active".
Definition same_serial (x y : IssuedCertificate) : Prop :=
  crt_TenantID x = crt_TenantID y /\ crt_Serial x = crt_Serial y.
Definition same_revoked (x y : Revocation) : Prop :=
  rev_TenantID x = rev_TenantID y /\ rev_CertificateID x = rev_CertificateID y.
Definition grant_key (g : Grant) : string * string * string * string * string :=
  (grt_TenantID g, grt_ResourceType g, grt_ResourceID g, grt_SubjectType g, grt_SubjectID g).
Definition same_grant_key (x y : Grant) : Prop := grant_key x = grant_key y.
Definition install_key (i : InstalledCertificate) : string * string * string :=
  (ins_TenantID i, ins_CertificateID i, ins_ClientID i).
Definition same_install_key (x y : InstalledCertificate) : Prop := install_key x = install_key y.

(** References: an issuer's CA and a certificate's issuer exist in its tenant. *)
Definition ca_refs (iss : gmap string Issuer) (cas : gmap string CA) : Prop :=
  forall k i c, iss !! k = Some i -> iss_CAID i = Some c ->
    exists ca, cas !! c = Some ca /\ ca_TenantID ca = iss_TenantID i.
Definition issuer_refs (crts : gmap string IssuedCertificate) (iss : gmap string Issuer) : Prop :=
  forall k c, crts !! k = Some c ->
    exists i, iss !! crt_IssuerID c = Some i /\ iss_TenantID i = crt_TenantID c.

Record wf (m : Mem) : Prop := {
  wf_issuers : keyed iss_ID (m_Issuers m);
  wf_issuer_names : uniq (same_name iss_TenantID iss_Name) (m_Issuers m);
  wf_issuer_default : uniq both_default (m_Issuers m);
  wf_issuer_ca : ca_refs (m_Issuers m) (m_CAs m);
  wf_cas : keyed ca_ID (m_CAs m);
  wf_ca_active : uniq both_active (m_CAs m);
  wf_requests : keyed req_ID (m_Requests m);
  wf_jobs : keyed job_ID (m_Jobs m);
  wf_certs : keyed crt_ID (m_Certificates m);
  wf_cert_issuer : issuer_refs (m_Certificates m) (m_Issuers m);
  wf_cert_serial : uniq same_serial (m_Certificates m);
  wf_revs : keyed rev_ID (m_Revocations m);
  wf_rev_cert : uniq same_revoked (m_Revocations m);
  wf_installed : keyed ins_ID (m_Installed m);
  wf_install_key : uniq same_install_key (m_Installed m);
  wf_targets : keyed tgt_ID (m_Targets m);
  wf_target_names : uniq (same_name tgt_TenantID tgt_Name) (m_Targets m);
  wf_secrets : keyed sec_ID (m_Secrets m);
  wf_secret_names : uniq (same_name sec_TenantID sec_Name) (m_Secrets m);
  wf_webhooks : keyed whk_ID (m_Webhooks m);
  wf_webhook_names : uniq (same_name whk_TenantID whk_Name) (m_Webhooks m);
  wf_grants : keyed grt_ID (m_Grants m);
  wf_grant_key : uniq same_grant_key (m_Grants m);
}.

Lemma same_name_sym {A} (ten name : A -> string) x y :
  same_name ten name x y -> same_name ten name y x.
Proof. unfold same_name. naive_solver. Qed.
Lemma both_default_sym x y : both_default x y -> both_default y x.
Proof. unfold both_default. naive_solver. Qed.
Lemma both_active_sym x y : both_active x y -> both_active y x.
Proof. unfold both_active. naive_solver. Qed.
Lemma same_serial_sym x y : same_serial x y -> same_serial y x.
Proof. unfold same_serial. naive_solver. Qed.
Lemma same_revoked_sym x y : same_revoked x y -> same_revoked y x.
Proof. unfold same_revoked. naive_solver. Qed.
#[local] Hint Resolve same_name_sym both_default_sym both_active_sym same_serial_sym
  same_revoked_sym : lcm.

(** *** References *)
Lemma ca_refs_insert_issuer iss cas k i :
  ca_refs iss cas ->
  (forall c, iss_CAID i = Some c -> exists ca, cas !! c = Some ca /\ ca_TenantID ca = iss_TenantID i) ->
  ca_refs (<[k := i]> iss) cas.
Proof. intros Hr Hi k' i' c. rewrite lookup_insert_Some. intros [[<- <-]|[_ ?]] ?; eauto. Qed.
Lemma ca_refs_insert_ca iss cas k ca :
  ca_refs iss cas -> (forall old, cas !! k = Some old -> ca_TenantID old = ca_TenantID ca) ->
  ca_refs iss (<[k := ca]> cas).
Proof.
  intros Hr Hk k' i c Hi Hc. destruct (Hr k' i c Hi Hc) as (old & Ho & Ht).
  destruct (decide (c = k)) as [->|Hne].
  - exists ca. rewrite lookup_insert_eq. split; [done|]. rewrite <- Ht. symmetry. by apply Hk.
  - exists old. by rewrite lookup_insert_ne.
Qed.
Lemma ca_refs_delete_ca iss cas k :
  ca_refs iss cas -> (forall k' i, iss !! k' = Some i -> iss_CAID i <> Some k) ->
  ca_refs iss (delete k cas).
Proof.
  intros Hr Hk k' i c Hi Hc. destruct (Hr k' i c Hi Hc) as (old & Ho & Ht).
  exists old. rewrite lookup_delete_ne; [done|]. intros ->. by eapply Hk.
Qed.
Lemma ca_reference_ok_spec m i :
  ca_reference_ok m i = true ->
  forall c, iss_CAID i = Some c -> exists ca, m_CAs m !! c = Some ca /\ ca_TenantID ca = iss_TenantID i.
Proof.
  unfold ca_reference_ok. intros Hok c Hc. rewrite Hc in Hok.
  destruct (m_CAs m !! c) as [ca|]; [|done]. bools. eauto.
Qed.
Lemma issuer_refs_insert_issuer crts iss k i :
  issuer_refs crts iss -> (forall old, iss !! k = Some old -> iss_TenantID old = iss_TenantID i) ->
  issuer_refs crts (<[k := i]> iss).
Proof.
  intros Hr Hk k' c Hc. destruct (Hr k' c Hc) as (old & Ho & Ht).
  destruct (decide (crt_IssuerID c = k)) as [He|Hne].
  - rewrite He in *. exists i. rewrite lookup_insert_eq. split; [done|]. rewrite <- Ht. symmetry. by apply Hk.
  - exists old. by rewrite lookup_insert_ne.
Qed.
Lemma issuer_refs_insert_cert crts iss k c :
  issuer_refs crts iss -> (exists i, iss !! crt_IssuerID c = Some i /\ iss_TenantID i = crt_TenantID c) ->
  issuer_refs (<[k := c]> crts) iss.
Proof. intros Hr Hc k' c'. rewrite lookup_insert_Some. intros [[<- <-]|[_ ?]]; eauto. Qed.
Lemma certCountForIssuer_0 m id :
  certCountForIssuer m id <= 0 ->
  forall k c, m_Certificates m !! k = Some c -> crt_IssuerID c <> id.
Proof.
  unfold certCountForIssuer. intros Hz k c Hk He.
  assert (Hin : (k, c) ∈ filter (fun x : string * IssuedCertificate => crt_IssuerID x.2 = id)
                          (map_range (m_Certificates m)))
    by (apply list_elem_of_filter; split; [done | by apply elem_of_map_range]).
  destruct (filter _ _); [by apply elem_of_nil in Hin | simpl in Hz; lia].
Qed.

(** *** Replacing one table *)
Lemma wf_set_issuers m (t : gmap string Issuer) :
  wf m -> keyed iss_ID t -> uniq (same_name iss_TenantID iss_Name) t -> uniq both_default t ->
  ca_refs t (m_CAs m) ->
  issuer_refs (m_Certificates m) t ->
  wf (m <| m_Issuers := t |>).
Proof. intros [] **. by constructor. Qed.
Lemma wf_set_cas m (t : gmap string CA) :
  wf m -> ca_refs (m_Issuers m) t -> keyed ca_ID t -> uniq both_active t ->
  wf (m <| m_CAs := t |>).
Proof. intros [] **. by constructor. Qed.
Lemma wf_set_requests m (t : gmap string CertificateRequest) :
  wf m -> keyed req_ID t ->
  wf (m <| m_Requests := t |>).
Proof. intros [] **. by constructor. Qed.
Lemma wf_set_jobs m (t : gmap string CertificateJob) :
  wf m -> keyed job_ID t ->
  wf (m <| m_Jobs := t |>).
Proof. intros [] **. by constructor. Qed.
Lemma wf_set_certs m (t : gmap string IssuedCertificate) :
  wf m -> keyed crt_ID t ->
  issuer_refs t (m_Issuers m) -> uniq same_serial t ->
  wf (m <| m_Certificates := t |>).
Proof. intros [] **. by constructor. Qed.
Lemma wf_set_revs m (t : gmap string Revocation) :
  wf m -> keyed rev_ID t -> uniq same_revoked t ->
  wf (m <| m_Revocations := t |>).
Proof. intros [] **. by constructor. Qed.
Lemma wf_set_installed m (t : gmap string InstalledCertificate) :
  wf m -> keyed ins_ID t -> uniq same_install_key t ->
  wf (m <| m_Installed := t |>).
Proof. intros [] **. by constructor. Qed.
Lemma wf_set_targets m (t : gmap string DeploymentTarget) :
  wf m -> keyed tgt_ID t -> uniq (same_name tgt_TenantID tgt_Name) t ->
  wf (m <| m_Targets := t |>).
Proof. intros [] **. by constructor. Qed.
Lemma wf_set_secrets m (t : gmap string TenantSecret) :
  wf m -> keyed sec_ID t -> uniq (same_name sec_TenantID sec_Name) t ->
  wf (m <| m_Secrets := t |>).
Proof. intros [] **. by constructor. Qed.
Lemma wf_set_webhooks m (t : gmap string WebhookEndpoint) :
  wf m -> keyed whk_ID t -> uniq (same_name whk_TenantID whk_Name) t ->
  wf (m <| m_Webhooks := t |>).
Proof. intros [] **. by constructor. Qed.
Lemma wf_set_grants m (t : gmap string Grant) :
  wf m -> keyed grt_ID t -> uniq same_grant_key t ->
  wf (m <| m_Grants := t |>).
Proof. intros [] **. by constructor. Qed.

(** *** Every operation keeps the constraints *)

(** The branches of a store operation; those that refuse leave the store as it
    is. *)
Ltac op_cases :=
  unfold fail_write; repeat (case_match; simpl; try assumption; try reflexivity); simpl; bools; simplify_eq/=.

Lemma issuer_clash_false i x :
  issuer_clash i x = false ->
  ~ same_name iss_TenantID iss_Name x i /\ ~ both_default x i.
Proof.
  unfold issuer_clash, same_name, both_default. intros Hc. split.
  - intros [H1 H2]. by rewrite H1, H2, !str_eqb_refl in Hc.
  - intros (H1 & H2 & H3 & H4). by rewrite H1, H2, H3, H4, !str_eqb_refl, orb_true_r in Hc.
Qed.

#[local] Hint Resolve wf_issuers wf_issuer_names wf_issuer_default wf_issuer_ca wf_cas wf_ca_active
  wf_requests wf_jobs wf_certs wf_cert_issuer wf_cert_serial wf_revs wf_rev_cert wf_installed
  wf_install_key wf_targets wf_target_names wf_secrets wf_secret_names wf_webhooks
  wf_webhook_names wf_grants wf_grant_key : lcm.
#[local] Hint Extern 1 (keyed _ (<[_ := _]> _)) => apply keyed_insert; [|reflexivity] : lcm.

(** No row of the table clashes with the one inserted. *)
Ltac no_clash Hn :=
  match type of Hn with existsb _ _ = false => rewrite existsb_range_false in Hn end.
(** A row rewritten in place. *)
Ltac replaced :=
  first [ eapply keyed_replace; [eassumption|reflexivity|by eauto with lcm]
        | eapply uniq_replace; [by eauto with lcm|eassumption|done|by eauto with lcm] ].

Lemma wf_InsertIssuer i m :
  wf m -> m_Issuers m !! iss_ID i = None -> wf (Mem_InsertIssuer i m).2.
Proof.
  intros Hwf Hf. unfold Mem_InsertIssuer, fail_write. case_match; [done|].
  destruct (ca_reference_ok m i) eqn:Hca; [|done]. simpl.
  destruct (existsb _ _) eqn:Hn; [done|]. no_clash Hn.
  pose proof (ca_reference_ok_spec _ _ Hca) as Hcas.
  assert (forall i', iss_ID i' = iss_ID i -> iss_TenantID i' = iss_TenantID i ->
            iss_Name i' = iss_Name i -> iss_IsDefault i' = iss_IsDefault i ->
            iss_TrustDomain i' = iss_TrustDomain i -> iss_CAID i' = iss_CAID i ->
            wf (m <| m_Issuers := <[iss_ID i := i']> (m_Issuers m) |>)) as Hset.
  { intros i' E1 E2 E3 E4 E5 E6. apply wf_set_issuers; [done|..].
    - apply keyed_insert; eauto with lcm.
    - apply uniq_insert; [by eauto with lcm..|]. intros k x _ Hk [? ?].
      apply (proj1 (issuer_clash_false i x (Hn k x Hk))). split; congruence.
    - apply uniq_insert; [by eauto with lcm..|]. intros k x _ Hk (? & ? & ? & ?).
      apply (proj2 (issuer_clash_false i x (Hn k x Hk))). repeat split; congruence.
    - apply ca_refs_insert_issuer; [by eauto with lcm|]. rewrite E2, E6. done.
    - apply issuer_refs_insert_issuer; [by eauto with lcm|congruence]. }
  case_match; apply Hset; done.
Qed.


Lemma wf_UpdateIssuer i m : wf m -> wf (Mem_UpdateIssuer i m).2.
Proof.
  intros Hwf. unfold Mem_UpdateIssuer, fail_write. case_match; [done|].
  destruct (m_Issuers m !! iss_ID i) as [old|] eqn:Hold; [|done].
  destruct (iss_TenantID old =s iss_TenantID i) eqn:Ht; [simpl|done]. bools.
  destruct (ca_reference_ok m i) eqn:Hca; [simpl|done].
  destruct (existsb _ _) eqn:Hn; [done|]. no_clash Hn.
  assert (Hcl : forall k x, k <> iss_ID i -> m_Issuers m !! k = Some x -> issuer_clash i x = false).
  { intros k x Hne Hk. specialize (Hn k x Hk). simpl in Hn.
    by rewrite (proj2 (str_eqb_neq _ _) Hne) in Hn. }
  apply wf_set_issuers; [done|..].
  - apply keyed_insert; [by eauto with lcm|]. by apply (wf_issuers _ Hwf) in Hold.
  - apply uniq_insert; [by eauto with lcm..|]. intros k x Hne Hk [? ?].
    apply (proj1 (issuer_clash_false i x (Hcl k x Hne Hk))). split; simpl in *; congruence.
  - apply uniq_insert; [by eauto with lcm..|]. intros k x Hne Hk (? & ? & ? & ?).
    apply (proj2 (issuer_clash_false i x (Hcl k x Hne Hk))). repeat split; simpl in *; congruence.
  - apply ca_refs_insert_issuer; [by eauto with lcm|]. simpl. rewrite Ht.
    by apply ca_reference_ok_spec.
  - apply issuer_refs_insert_issuer; [by eauto with lcm|]. intros ? ?. by simplify_eq/=.
Qed.

Lemma wf_ClearDefaultIssuer t d e m : wf m -> wf (Mem_ClearDefaultIssuer t d e m).2.
Proof.
  intros Hwf. unfold Mem_ClearDefaultIssuer, fail_write. case_match; [done|]. simpl.
  set (g := fun (id : string) (i : Issuer) => _).
  assert (Hg : forall k x, map_imap g (m_Issuers m) !! k = Some x ->
            exists i, m_Issuers m !! k = Some i /\ iss_ID x = iss_ID i
              /\ iss_TenantID x = iss_TenantID i /\ iss_Name x = iss_Name i
              /\ iss_TrustDomain x = iss_TrustDomain i /\ iss_CAID x = iss_CAID i
              /\ (iss_IsDefault x = true -> iss_IsDefault i = true)).
  { intros k x. rewrite map_lookup_imap. destruct (m_Issuers m !! k) as [i|] eqn:Hk; [|done].
    unfold g. simpl. intros [= <-]. exists i. case_match; naive_solver. }
  assert (Hg' : forall k i, m_Issuers m !! k = Some i ->
            exists x, map_imap g (m_Issuers m) !! k = Some x /\ iss_TenantID x = iss_TenantID i).
  { intros k i Hk. rewrite map_lookup_imap, Hk. unfold g. simpl. eexists. split; [done|].
    by case_match. }
  apply wf_set_issuers; [done|..].
  - intros k x (i & Hk & -> & _)%Hg. by apply (wf_issuers _ Hwf).
  - intros k1 k2 x1 x2 (i1 & Hi1 & ? & ? & ? & _)%Hg (i2 & Hi2 & ? & ? & ? & _)%Hg [? ?].
    eapply (wf_issuer_names _ Hwf); [exact Hi1|exact Hi2|]. split; congruence.
  - intros k1 k2 x1 x2 (i1 & Hi1 & ? & ? & ? & ? & ? & ?)%Hg (i2 & Hi2 & ? & ? & ? & ? & ? & ?)%Hg
      (? & ? & ? & ?).
    eapply (wf_issuer_default _ Hwf); [exact Hi1|exact Hi2|]. repeat split; [congruence..|eauto|eauto].
  - intros k x c (i & Hk & ? & Et & ? & ? & Ec & _)%Hg Hc. rewrite Et. rewrite Ec in Hc.
    by eapply (wf_issuer_ca _ Hwf).
  - intros k c (i & (x & Hx & Et)%Hg' & Hi)%(wf_cert_issuer _ Hwf). exists x. by rewrite Et.
Qed.

Lemma wf_DeleteIssuer t id m : wf m -> wf (Mem_DeleteIssuer t id m).2.
Proof.
  intros Hwf. unfold Mem_DeleteIssuer. op_cases. apply wf_set_issuers; eauto with lcm.
  - intros k i' c. rewrite lookup_delete_Some. intros [_ ?]. by apply (wf_issuer_ca _ Hwf k).
  - intros k c Hc. destruct (wf_cert_issuer _ Hwf k c Hc) as (i' & Hi & ?). exists i'.
    rewrite lookup_delete_ne; [done|]. intros Heq. symmetry in Heq. revert Heq.
    by eapply certCountForIssuer_0.
Qed.

Lemma ca_active_in_false t d x y :
  ca_TenantID y = t -> ca_TrustDomain y = d -> ca_active_in t d x = false -> ~ both_active x y.
Proof.
  unfold ca_active_in. intros <- <- Hf (H1 & H2 & H3 & _).
  by rewrite H1, H2, H3, !str_eqb_refl in Hf.
Qed.

Lemma wf_InsertCA c m : wf m -> m_CAs m !! ca_ID c = None -> wf (Mem_InsertCA c m).2.
Proof.
  intros Hwf Hf. unfold Mem_InsertCA, fail_write. case_match; [done|].
  destruct (_ && _) eqn:Hn; [done|]. simpl.
  assert (Hset : forall c', ca_ID c' = ca_ID c -> ca_TenantID c' = ca_TenantID c ->
            ca_TrustDomain c' = ca_TrustDomain c -> ca_State c' = ca_State c ->
            wf (m <| m_CAs := <[ca_ID c := c']> (m_CAs m) |>)).
  { intros c' E1 E2 E3 E4. apply wf_set_cas; [done|..].
    - apply ca_refs_insert_ca; [by eauto with lcm|congruence].
    - apply keyed_insert; eauto with lcm.
    - apply uniq_insert; [by eauto with lcm..|]. intros k x _ Hk Hb.
      apply andb_false_iff in Hn as [Hs|Hn]; bools; [destruct Hb; naive_solver congruence|].
      no_clash Hn. by eapply ca_active_in_false; [exact E2|exact E3|exact (Hn k x Hk)|]. }
  case_match; by apply Hset.
Qed.

Lemma wf_SetCAState t id s m : wf m -> wf (Mem_SetCAState t id s m).2.
Proof.
  intros Hwf. unfold Mem_SetCAState, fail_write. case_match; [done|].
  destruct (m_CAs m !! id) as [c|] eqn:Hc; [|done].
  destruct (ca_TenantID c =s t) eqn:Ht; [simpl|done]. bools.
  destruct (_ && _) eqn:Hn; [done|]. simpl. apply wf_set_cas; [done|..].
  - apply ca_refs_insert_ca; [by eauto with lcm|]. intros ? ?. by simplify_eq/=.
  - replaced.
  - apply uniq_insert; [by eauto with lcm..|]. intros k x Hne Hk Hb.
    apply andb_false_iff in Hn as [Hs|Hn]; bools; [by destruct Hb as (_ & _ & _ & ?)|].
    no_clash Hn. specialize (Hn k x Hk). simpl in Hn.
    rewrite (proj2 (str_eqb_neq _ _) Hne) in Hn. simpl in Hn.
    by eapply ca_active_in_false; [| |exact Hn|exact Hb].
Qed.

Lemma wf_DeleteCA t id m : wf m -> wf (Mem_DeleteCA t id m).2.
Proof.
  intros Hwf. unfold Mem_DeleteCA, fail_write. case_match; [done|].
  destruct (m_CAs m !! id) as [c|] eqn:Hc; [|done].
  case_match; [done|]. destruct (existsb _ _) eqn:Hn; [done|]. no_clash Hn.
  apply wf_set_cas; eauto with lcm. apply ca_refs_delete_ca; [by eauto with lcm|].
  intros k i Hk. specialize (Hn k i Hk). by bools.
Qed.


Lemma wf_InsertRequest r m : wf m -> wf (Mem_InsertRequest r m).2.
Proof.
  intros Hwf. unfold Mem_InsertRequest. op_cases; (apply wf_set_requests; [done|]);
    (apply keyed_insert; [by eauto with lcm|done]).
Qed.
Lemma wf_SetRequestStatus t id s a r m : wf m -> wf (Mem_SetRequestStatus t id s a r m).2.
Proof.
  intros Hwf. unfold Mem_SetRequestStatus. op_cases; (apply wf_set_requests; [done|replaced]).
Qed.
Lemma wf_CompleteRequest t id s c r m : wf m -> wf (Mem_CompleteRequest t id s c r m).2.
Proof.
  intros Hwf. unfold Mem_CompleteRequest. op_cases; (apply wf_set_requests; [done|replaced]).
Qed.
Lemma wf_DeleteRequest t id m : wf m -> wf (Mem_DeleteRequest t id m).2.
Proof. intros Hwf. unfold Mem_DeleteRequest. op_cases. apply wf_set_requests; eauto with lcm. Qed.

Lemma wf_InsertJob j m : wf m -> wf (Mem_InsertJob j m).2.
Proof.
  intros Hwf. unfold Mem_InsertJob. op_cases; (apply wf_set_jobs; [done|]);
    (apply keyed_insert; [by eauto with lcm|done]).
Qed.
Lemma wf_UpdateJob j m : wf m -> wf (Mem_UpdateJob j m).2.
Proof. intros Hwf. unfold Mem_UpdateJob. op_cases; (apply wf_set_jobs; [done|replaced]). Qed.
Lemma wf_DeleteJob t id m : wf m -> wf (Mem_DeleteJob t id m).2.
Proof. intros Hwf. unfold Mem_DeleteJob. op_cases. apply wf_set_jobs; eauto with lcm. Qed.

Lemma elem_of_sqlLimit {A} (x : A) l n : x ∈ sqlLimit l n -> x ∈ l.
Proof.
  unfold sqlLimit. case_match; [by intros ?%elem_of_nil|]. case_match; [|done].
  rewrite <- (take_drop (Z.to_nat n) l) at 2. rewrite elem_of_app. by left.
Qed.
Lemma elem_of_due_jobs now limit m j :
  j ∈ due_jobs now limit m ->
  job_due now j = true /\ exists k, m_Jobs m !! k = Some j.
Proof.
  unfold due_jobs, sortAsc. intros Hj%elem_of_sqlLimit%elem_of_sort_slice.
  apply list_elem_of_filter in Hj as [Hd Hj].
  apply list_elem_of_fmap in Hj as ([k x] & -> & Hk%elem_of_map_range). eauto.
Qed.
Lemma claim_one_keyed now until l acc :
  keyed job_ID acc.2 -> (forall j, j ∈ l -> is_Some (acc.2 !! job_ID j)) ->
  keyed job_ID (foldl (claim_one now until) acc l).2.
Proof.
  revert acc. induction l as [|j l IH]; intros acc Hk Hl; [done|]. simpl. apply IH; simpl.
  - destruct (Hl j) as [old Ho]; [left|]. rewrite Ho. simpl.
    apply keyed_insert; [done|]. exact (Hk _ _ Ho).
  - intros j' Hj'. rewrite lookup_insert_is_Some. destruct (decide (job_ID j = job_ID j')); [by left|].
    right. split; [done|]. apply Hl. by right.
Qed.
Lemma wf_ClaimDueJobs n l k m : wf m -> wf (Mem_ClaimDueJobs n l k m).2.
Proof.
  intros Hwf. unfold Mem_ClaimDueJobs, fail_write. case_match; [done|].
  destruct (foldl _ _ _) as [out jobs] eqn:E. simpl. apply wf_set_jobs; [done|].
  change jobs with ((out, jobs).2). rewrite <- E. apply claim_one_keyed; [by apply wf_jobs|].
  intros j [_ [k' Hk]]%elem_of_due_jobs. exists j. by rewrite (wf_jobs _ Hwf _ _ Hk).
Qed.

Lemma wf_InsertCertificate c m :
  wf m -> wf (Mem_InsertCertificate c m).2.
Proof.
  intros Hwf. unfold Mem_InsertCertificate, fail_write. case_match; [done|].
  destruct (m_Issuers m !! crt_IssuerID c) as [i|] eqn:Hi; [|done].
  destruct (iss_TenantID i =s crt_TenantID c) eqn:Ht; [simpl|done]. bools.
  destruct (existsb _ _) eqn:Hn; [done|]. no_clash Hn.
  assert (Hset : forall c', crt_ID c' = crt_ID c -> crt_TenantID c' = crt_TenantID c ->
            crt_IssuerID c' = crt_IssuerID c -> crt_Serial c' = crt_Serial c ->
            wf (m <| m_Certificates := <[crt_ID c := c']> (m_Certificates m) |>)).
  { intros c' E1 E2 E3 E4. apply wf_set_certs; [done|..].
    - apply keyed_insert; eauto with lcm.
    - apply issuer_refs_insert_cert; [by eauto with lcm|]. rewrite E2, E3. eauto.
    - apply uniq_insert; [by eauto with lcm..|]. intros k x _ Hk [H1 H2].
      specialize (Hn k x Hk). simpl in Hn. rewrite H1, H2, E2, E4 in Hn.
      by rewrite !str_eqb_refl in Hn. }
  case_match; by apply Hset.
Qed.
(** A certificate rewritten in place keeps its identity columns. *)
Lemma wf_replace_cert k c' old m :
  wf m -> m_Certificates m !! k = Some old -> crt_ID c' = crt_ID old ->
  crt_TenantID c' = crt_TenantID old -> crt_IssuerID c' = crt_IssuerID old ->
  crt_Serial c' = crt_Serial old ->
  wf (m <| m_Certificates := <[k := c']> (m_Certificates m) |>).
Proof.
  intros Hwf Hk E1 E2 E3 E4. apply wf_set_certs; [done|..].
  - eapply keyed_replace; eauto with lcm.
  - apply issuer_refs_insert_cert; [by eauto with lcm|]. rewrite E2, E3.
    by apply (wf_cert_issuer _ Hwf k).
  - eapply uniq_replace; [by eauto with lcm|exact Hk| |by eauto with lcm].
    intros y [? ?]. split; congruence.
Qed.
Lemma wf_UpdateCertificate c m : wf m -> wf (Mem_UpdateCertificate c m).2.
Proof. intros Hwf. unfold Mem_UpdateCertificate. op_cases; by eapply wf_replace_cert. Qed.
Lemma wf_SetCertificateStatus t id s b m : wf m -> wf (Mem_SetCertificateStatus t id s b m).2.
Proof. intros Hwf. unfold Mem_SetCertificateStatus. op_cases; by eapply wf_replace_cert. Qed.
Lemma wf_MarkKeyDelivered t id m : wf m -> wf (Mem_MarkKeyDelivered t id m).2.
Proof. intros Hwf. unfold Mem_MarkKeyDelivered. op_cases; by eapply wf_replace_cert. Qed.
Lemma wf_DeleteCertificate t id m : wf m -> wf (Mem_DeleteCertificate t id m).2.
Proof.
  intros Hwf. unfold Mem_DeleteCertificate. op_cases. apply wf_set_certs; eauto with lcm.
  intros k c'. rewrite lookup_delete_Some. intros [_ ?]. by apply (wf_cert_issuer _ Hwf k).
Qed.


Lemma wf_InsertRevocation r m : wf m -> wf (Mem_InsertRevocation r m).2.
Proof.
  intros Hwf. unfold Mem_InsertRevocation, fail_write. case_match; [done|].
  destruct (existsb _ _) eqn:Hn; [done|]. no_clash Hn. simpl.
  assert (Hset : forall r', rev_ID r' = rev_ID r -> rev_TenantID r' = rev_TenantID r ->
            rev_CertificateID r' = rev_CertificateID r ->
            wf (m <| m_Revocations := <[rev_ID r := r']> (m_Revocations m) |>)).
  { intros r' E1 E2 E3. apply wf_set_revs; [done|..].
    - apply keyed_insert; eauto with lcm.
    - apply uniq_insert; [by eauto with lcm..|]. intros k x _ Hk [H1 H2].
      specialize (Hn k x Hk). simpl in Hn. rewrite H1, H2, E2, E3 in Hn.
      by rewrite !str_eqb_refl in Hn. }
  case_match; by apply Hset.
Qed.

Lemma same_install_spec i x : same_install i x = true <-> same_install_key x i.
Proof.
  unfold same_install, same_install_key, install_key. rewrite !andb_true_iff, !str_eqb_eq. split.
  - intros [[-> ->] ->]. done.
  - intros [=]. done.
Qed.
Lemma filter_nil_not {A} (f : A -> bool) (t : gmap string A) k x :
  filter (fun y : string * A => f y.2 = true) (map_range t) = [] ->
  t !! k = Some x -> f x = false.
Proof.
  intros Hf Hk. destruct (f x) eqn:E; [|done].
  assert (Hin : (k, x) ∈ filter (fun y : string * A => f y.2 = true) (map_range t)).
  { apply list_elem_of_filter. split; [done|]. by apply elem_of_map_range. }
  rewrite Hf in Hin. by apply elem_of_nil in Hin.
Qed.
Lemma filter_cons_is {A} (f : A -> bool) (t : gmap string A) k x l :
  filter (fun y : string * A => f y.2 = true) (map_range t) = (k, x) :: l ->
  t !! k = Some x /\ f x = true.
Proof.
  intros Hf. assert (Hin : (k, x) ∈ filter (fun y : string * A => f y.2 = true) (map_range t))
    by (rewrite Hf; by left).
  apply list_elem_of_filter in Hin as [? Hin]. by rewrite elem_of_map_range in Hin.
Qed.

Lemma wf_UpsertInstalled i m : wf m -> wf (Mem_UpsertInstalled i m).2.
Proof.
  intros Hwf. unfold Mem_UpsertInstalled, fail_write. case_match; [done|].
  destruct (filter _ _) as [|[k x] l] eqn:E; simpl.
  - assert (Hset : forall i', ins_ID i' = ins_ID i -> install_key i' = install_key i ->
              wf (m <| m_Installed := <[ins_ID i := i']> (m_Installed m) |>)).
    { intros i' E1 E2. apply wf_set_installed; [done|..].
      - apply keyed_insert; eauto with lcm.
      - apply uniq_insert; [done|by eauto with lcm|]. intros k x _ Hk Hs.
        apply (filter_nil_not (same_install i) _ _ _ E) in Hk.
        apply not_true_iff_false in Hk. apply Hk. apply same_install_spec.
        unfold same_install_key in *. congruence. }
    repeat case_match; by apply Hset.
  - apply (filter_cons_is (same_install i)) in E as [Hk _]. apply wf_set_installed; [done|replaced|].
    eapply uniq_replace; [done|exact Hk|done|by eauto with lcm].
Qed.

Lemma wf_InsertTarget t m : wf m -> wf (Mem_InsertTarget t m).2.
Proof.
  intros Hwf. unfold Mem_InsertTarget, fail_write. case_match; [done|].
  destruct (existsb _ _) eqn:Hn; [done|]. no_clash Hn. simpl.
  assert (Hset : forall t', tgt_ID t' = tgt_ID t -> tgt_TenantID t' = tgt_TenantID t ->
            tgt_Name t' = tgt_Name t ->
            wf (m <| m_Targets := <[tgt_ID t := t']> (m_Targets m) |>)).
  { intros t' E1 E2 E3. apply wf_set_targets; [done|..].
    - apply keyed_insert; eauto with lcm.
    - apply uniq_insert; [by eauto with lcm..|]. intros k x _ Hk [H1 H2].
      specialize (Hn k x Hk). simpl in Hn. rewrite H1, H2, E2, E3 in Hn.
      by rewrite !str_eqb_refl in Hn. }
  case_match; by apply Hset.
Qed.
Lemma wf_DeleteTarget t id m : wf m -> wf (Mem_DeleteTarget t id m).2.
Proof. intros Hwf. unfold Mem_DeleteTarget. op_cases. apply wf_set_targets; eauto with lcm. Qed.

Lemma secret_clash_false s x :
  secret_clash s x = false -> ~ same_name sec_TenantID sec_Name x s.
Proof. unfold secret_clash. intros Hc [H1 H2]. by rewrite H1, H2, !str_eqb_refl in Hc. Qed.
Lemma wf_InsertSecret s m : wf m -> wf (Mem_InsertSecret s m).2.
Proof.
  intros Hwf. unfold Mem_InsertSecret, fail_write. case_match; [done|].
  destruct (existsb _ _) eqn:Hn; [done|]. no_clash Hn. simpl. apply wf_set_secrets; [done|..].
  - apply keyed_insert; eauto with lcm.
  - apply uniq_insert; [by eauto with lcm..|]. intros k x _ Hk.
    exact (secret_clash_false _ _ (Hn k x Hk)).
Qed.
Lemma wf_UpdateSecret s m : wf m -> wf (Mem_UpdateSecret s m).2.
Proof.
  intros Hwf. unfold Mem_UpdateSecret, fail_write. case_match; [done|].
  destruct (m_Secrets m !! sec_ID s) as [old|] eqn:Hold; [|done].
  destruct (sec_TenantID old =s sec_TenantID s) eqn:Ht; [simpl|done]. bools.
  destruct (existsb _ _) eqn:Hn; [done|]. no_clash Hn. apply wf_set_secrets; [done|..].
  - replaced.
  - apply uniq_insert; [by eauto with lcm..|]. intros k x Hne Hk [? ?].
    specialize (Hn k x Hk). simpl in Hn. rewrite (proj2 (str_eqb_neq _ _) Hne) in Hn.
    apply (secret_clash_false _ _ Hn). split; simpl in *; congruence.
Qed.
Lemma wf_DeleteSecret t id m : wf m -> wf (Mem_DeleteSecret t id m).2.
Proof. intros Hwf. unfold Mem_DeleteSecret. op_cases. apply wf_set_secrets; eauto with lcm. Qed.

Lemma wf_InsertWebhook w m : wf m -> wf (Mem_InsertWebhook w m).2.
Proof.
  intros Hwf. unfold Mem_InsertWebhook, fail_write. case_match; [done|].
  destruct (existsb _ _) eqn:Hn; [done|]. no_clash Hn. simpl.
  assert (Hset : forall w', whk_ID w' = whk_ID w -> whk_TenantID w' = whk_TenantID w ->
            whk_Name w' = whk_Name w ->
            wf (m <| m_Webhooks := <[whk_ID w := w']> (m_Webhooks m) |>)).
  { intros w' E1 E2 E3. apply wf_set_webhooks; [done|..].
    - apply keyed_insert; eauto with lcm.
    - apply uniq_insert; [by eauto with lcm..|]. intros k x _ Hk [H1 H2].
      specialize (Hn k x Hk). simpl in Hn. rewrite H1, H2, E2, E3 in Hn.
      by rewrite !str_eqb_refl in Hn. }
  case_match; by apply Hset.
Qed.
Lemma wf_DeleteWebhook t id m : wf m -> wf (Mem_DeleteWebhook t id m).2.
Proof. intros Hwf. unfold Mem_DeleteWebhook. op_cases. apply wf_set_webhooks; eauto with lcm. Qed.

Lemma same_grant_spec g x : same_grant g x = true <-> same_grant_key x g.
Proof.
  unfold same_grant, same_grant_key, grant_key. rewrite !andb_true_iff, !str_eqb_eq. split.
  - intros [[[[-> ->] ->] ->] ->]. done.
  - intros [=]. done.
Qed.
Lemma wf_UpsertGrant g m : wf m -> wf (Mem_UpsertGrant g m).2.
Proof.
  intros Hwf. unfold Mem_UpsertGrant, fail_write. case_match; [done|].
  destruct (filter _ _) as [|[k x] l] eqn:E; simpl.
  - apply wf_set_grants; [done|..].
    + apply keyed_insert; eauto with lcm.
    + apply uniq_insert; [done|by eauto with lcm|]. intros k x _ Hk Hs.
      apply (filter_nil_not (same_grant g) _ _ _ E) in Hk.
      apply not_true_iff_false in Hk. apply Hk. by apply same_grant_spec.
  - apply (filter_cons_is (same_grant g)) in E as [Hk _]. apply wf_set_grants; [done|replaced|].
    eapply uniq_replace; [done|exact Hk|done|by eauto with lcm].
Qed.
Lemma wf_DeleteGrant t id m : wf m -> wf (Mem_DeleteGrant t id m).2.
Proof. intros Hwf. unfold Mem_DeleteGrant. op_cases. apply wf_set_grants; eauto with lcm. Qed.
Lemma wf_DeleteGrantsOfResource t a b m : wf m -> wf (Mem_DeleteGrantsOfResource t a b m).2.
Proof.
  intros Hwf. unfold Mem_DeleteGrantsOfResource. op_cases. apply wf_set_grants; eauto with lcm.
Qed.

Lemma wf_same_tables m m' :
  wf m -> m_Issuers m' = m_Issuers m -> m_CAs m' = m_CAs m -> m_Requests m' = m_Requests m ->
  m_Jobs m' = m_Jobs m -> m_Certificates m' = m_Certificates m ->
  m_Revocations m' = m_Revocations m -> m_Installed m' = m_Installed m ->
  m_Targets m' = m_Targets m -> m_Secrets m' = m_Secrets m -> m_Webhooks m' = m_Webhooks m ->
  m_Grants m' = m_Grants m -> wf m'.
Proof.
  intros [] E1 E2 E3 E4 E5 E6 E7 E8 E9 E10 E11. constructor;
  rewrite ?E1, ?E2, ?E3, ?E4, ?E5, ?E6, ?E7, ?E8, ?E9, ?E10, ?E11; assumption.
Qed.
Lemma wf_InsertCertLog r m : wf m -> wf (Mem_InsertCertLog r m).2.
Proof. intros Hwf. unfold Mem_InsertCertLog. op_cases; by eapply wf_same_tables. Qed.
Lemma wf_InsertAuditRows r m : wf m -> wf (Mem_InsertAuditRows r m).2.
Proof. intros Hwf. unfold Mem_InsertAuditRows. op_cases; by eapply wf_same_tables. Qed.

Lemma wf_New now : wf (Mem_New now).
Proof.
  constructor; simpl; try apply keyed_empty; try apply uniq_empty.
  - by intros k i c ?%lookup_empty_Some.
  - by intros k c ?%lookup_empty_Some.
Qed.
#[local] Hint Resolve wf_InsertIssuer wf_UpdateIssuer wf_ClearDefaultIssuer wf_DeleteIssuer
  wf_InsertCA wf_SetCAState wf_DeleteCA wf_InsertRequest wf_SetRequestStatus wf_CompleteRequest
  wf_DeleteRequest wf_InsertJob wf_UpdateJob wf_DeleteJob wf_ClaimDueJobs wf_InsertCertificate
  wf_UpdateCertificate wf_SetCertificateStatus wf_MarkKeyDelivered wf_DeleteCertificate
  wf_InsertRevocation wf_UpsertInstalled wf_InsertTarget wf_DeleteTarget wf_InsertSecret
  wf_UpdateSecret wf_DeleteSecret wf_InsertWebhook wf_DeleteWebhook wf_UpsertGrant
  wf_DeleteGrant wf_DeleteGrantsOfResource wf_InsertCertLog wf_InsertAuditRows : lcm.
Lemma run_op_wf op m : wf m -> fresh_id op m -> wf (run_op op m).
Proof. destruct op; simpl; eauto with lcm. Qed.

(** ** Tenants *)

(** The rows of one tenant. *)
Definition rows_of {A} (ten : A -> string) (t : string) (tbl : gmap string A) : gmap string A :=
  filter (fun x : string * A => ten x.2 = t) tbl.
Record View := mkView {
  v_Issuers : gmap string Issuer; v_CAs : gmap string CA;
  v_Requests : gmap string CertificateRequest; v_Jobs : gmap string CertificateJob;
  v_Certificates : gmap string IssuedCertificate; v_Revocations : gmap string Revocation;
  v_Installed : gmap string InstalledCertificate; v_Targets : gmap string DeploymentTarget;
  v_Secrets : gmap string TenantSecret; v_Webhooks : gmap string WebhookEndpoint;
  v_Grants : gmap string Grant; v_CertLog : list CertLogRow; v_Audit : list AuditRow;
}.
Definition tenant_view (t : string) (m : Mem) : View :=
  mkView (rows_of iss_TenantID t (m_Issuers m)) (rows_of ca_TenantID t (m_CAs m))
    (rows_of req_TenantID t (m_Requests m)) (rows_of job_TenantID t (m_Jobs m))
    (rows_of crt_TenantID t (m_Certificates m)) (rows_of rev_TenantID t (m_Revocations m))
    (rows_of ins_TenantID t (m_Installed m)) (rows_of tgt_TenantID t (m_Targets m))
    (rows_of sec_TenantID t (m_Secrets m)) (rows_of whk_TenantID t (m_Webhooks m))
    (rows_of grt_TenantID t (m_Grants m))
    (filter (fun l => log_TenantID l = t) (m_CertLog m))
    (filter (fun a => aud_TenantID a = t) (m_Audit m)).

(** The tenants an operation is called for; the claim of due jobs is the one
    operation of system scope. *)
Definition acts_for (t : string) (op : mem_op) : Prop :=
  match op with
  | OpInsertIssuer i | OpUpdateIssuer i => iss_TenantID i = t
  | OpInsertCA c => ca_TenantID c = t
  | OpInsertRequest r => req_TenantID r = t
  | OpInsertJob j | OpUpdateJob j => job_TenantID j = t
  | OpInsertCertificate c | OpUpdateCertificate c => crt_TenantID c = t
  | OpInsertRevocation r => rev_TenantID r = t
  | OpUpsertInstalled i => ins_TenantID i = t
  | OpInsertTarget x => tgt_TenantID x = t
  | OpInsertSecret s | OpUpdateSecret s => sec_TenantID s = t
  | OpInsertWebhook w => whk_TenantID w = t
  | OpUpsertGrant g => grt_TenantID g = t
  | OpClearDefaultIssuer t' _ _ | OpDeleteIssuer t' _ | OpSetCAState t' _ _ | OpDeleteCA t' _
  | OpSetRequestStatus t' _ _ _ _ | OpCompleteRequest t' _ _ _ _ | OpDeleteRequest t' _
  | OpDeleteJob t' _ | OpSetCertificateStatus t' _ _ _ | OpMarkKeyDelivered t' _
  | OpDeleteCertificate t' _ | OpDeleteTarget t' _ | OpDeleteSecret t' _ | OpDeleteWebhook t' _
  | OpDeleteGrant t' _ | OpDeleteGrantsOfResource t' _ _ => t' = t
  | OpClaimDueJobs _ _ _ => True
  | OpInsertCertLog rows => exists l, l ∈ rows /\ log_TenantID l = t
  | OpInsertAuditRows rows => exists a, a ∈ rows /\ aud_TenantID a = t
  end.

(** A new row is not put under the identifier of a row of the tenant. *)
Definition spares (t : string) (op : mem_op) (m : Mem) : Prop :=
  match op with
  | OpInsertIssuer i => forall x, m_Issuers m !! iss_ID i = Some x -> iss_TenantID x <> t
  | OpInsertCA c => forall x, m_CAs m !! ca_ID c = Some x -> ca_TenantID x <> t
  | OpInsertRequest r => forall x, m_Requests m !! req_ID r = Some x -> req_TenantID x <> t
  | OpInsertJob j => forall x, m_Jobs m !! job_ID j = Some x -> job_TenantID x <> t
  | OpInsertCertificate c => forall x, m_Certificates m !! crt_ID c = Some x -> crt_TenantID x <> t
  | OpInsertRevocation r => forall x, m_Revocations m !! rev_ID r = Some x -> rev_TenantID x <> t
  | OpUpsertInstalled i => forall x, m_Installed m !! ins_ID i = Some x -> ins_TenantID x <> t
  | OpInsertTarget d => forall x, m_Targets m !! tgt_ID d = Some x -> tgt_TenantID x <> t
  | OpInsertSecret s => forall x, m_Secrets m !! sec_ID s = Some x -> sec_TenantID x <> t
  | OpInsertWebhook w => forall x, m_Webhooks m !! whk_ID w = Some x -> whk_TenantID x <> t
  | OpUpsertGrant g => forall x, m_Grants m !! grt_ID g = Some x -> grt_TenantID x <> t
  | _ => True
  end.

Section rows_of.
Context {A : Type} (ten : A -> string) (t : string).
Implicit Types (tbl : gmap string A).

Lemma rows_of_insert_new k x tbl :
  (forall y, tbl !! k = Some y -> ten y <> t) -> ten x <> t -> rows_of ten t (<[k := x]> tbl) = rows_of ten t tbl.
Proof. intros Hk Hx. apply map_filter_insert_not'; [done|]. exact Hk. Qed.
Lemma rows_of_replace k x old tbl :
  tbl !! k = Some old -> ten old <> t -> ten x <> t ->
  rows_of ten t (<[k := x]> tbl) = rows_of ten t tbl.
Proof. intros Hk Ho Hx. apply map_filter_insert_not'; [done|]. intros y Hy. by simplify_eq. Qed.
Lemma rows_of_delete k old tbl :
  tbl !! k = Some old -> ten old <> t -> rows_of ten t (delete k tbl) = rows_of ten t tbl.
Proof. intros Hk Ho. apply map_filter_delete_not. intros y Hy. by simplify_eq. Qed.
(** Rows rewritten or dropped, all of other tenants. *)
Lemma rows_of_ext tbl1 tbl2 :
  (forall k x, ten x = t -> tbl1 !! k = Some x <-> tbl2 !! k = Some x) ->
  rows_of ten t tbl1 = rows_of ten t tbl2.
Proof.
  intros Hx. apply map_eq. intros k. apply option_eq. intros x. unfold rows_of.
  rewrite !map_lookup_filter_Some. simpl. naive_solver.
Qed.
End rows_of.


Ltac frame_row :=
  first [ by eapply rows_of_insert_new | eapply rows_of_replace; [eassumption|simpl; congruence..]
        | eapply rows_of_delete; [eassumption|congruence] ].
Create HintDb store_ops.
#[local] Hint Unfold Mem_InsertIssuer Mem_UpdateIssuer Mem_DeleteIssuer Mem_InsertCA
  Mem_SetCAState Mem_DeleteCA Mem_InsertRequest Mem_SetRequestStatus Mem_CompleteRequest
  Mem_DeleteRequest Mem_InsertJob Mem_UpdateJob Mem_DeleteJob Mem_InsertCertificate
  Mem_UpdateCertificate Mem_SetCertificateStatus Mem_MarkKeyDelivered Mem_DeleteCertificate
  Mem_InsertRevocation Mem_InsertTarget Mem_DeleteTarget Mem_InsertSecret Mem_UpdateSecret
  Mem_DeleteSecret Mem_InsertWebhook Mem_DeleteWebhook Mem_DeleteGrant : store_ops.
Ltac frame_op := op_cases; unfold tenant_view; simpl; f_equal; try frame_row.

Lemma frame_ClearDefaultIssuer t t' d e m :
  t' <> t -> tenant_view t (Mem_ClearDefaultIssuer t' d e m).2 = tenant_view t m.
Proof.
  intros Ht. unfold Mem_ClearDefaultIssuer. op_cases. unfold tenant_view; simpl; f_equal.
  apply rows_of_ext. intros k x Hx. rewrite map_lookup_imap.
  destruct (m_Issuers m !! k) as [i|]; simpl; [|done]. case_match; bools; [|done].
  split; intros [= Heq]; subst x; simpl in *; congruence.
Qed.
Lemma frame_DeleteGrantsOfResource t t' a b m :
  t' <> t -> tenant_view t (Mem_DeleteGrantsOfResource t' a b m).2 = tenant_view t m.
Proof.
  intros Ht. unfold Mem_DeleteGrantsOfResource. op_cases. unfold tenant_view; simpl; f_equal.
  apply rows_of_ext. intros k x Hx. rewrite map_lookup_filter_Some. unfold grant_on; simpl.
  rewrite (proj2 (str_eqb_neq (grt_TenantID x) t')) by congruence. naive_solver.
Qed.
Lemma frame_UpsertGrant t g m :
  grt_TenantID g <> t -> (forall x, m_Grants m !! grt_ID g = Some x -> grt_TenantID x <> t) ->
  tenant_view t (Mem_UpsertGrant g m).2 = tenant_view t m.
Proof.
  intros Ht Hf. unfold Mem_UpsertGrant, fail_write. case_match; [done|].
  destruct (filter _ _) as [|[k x] l] eqn:E; simpl; unfold tenant_view; simpl; f_equal.
  - by apply rows_of_insert_new.
  - apply (filter_cons_is (same_grant g)) in E as [Hk Hs].
    apply same_grant_spec in Hs. injection Hs as Hs _. eapply rows_of_replace; simpl; eauto; congruence.
Qed.
Lemma frame_UpsertInstalled t i m :
  ins_TenantID i <> t -> (forall x, m_Installed m !! ins_ID i = Some x -> ins_TenantID x <> t) ->
  tenant_view t (Mem_UpsertInstalled i m).2 = tenant_view t m.
Proof.
  intros Ht Hf. unfold Mem_UpsertInstalled, fail_write. case_match; [done|].
  destruct (filter _ _) as [|[k x] l] eqn:E; simpl; unfold tenant_view; simpl; f_equal.
  - repeat case_match; by apply rows_of_insert_new.
  - apply (filter_cons_is (same_install i)) in E as [Hk Hs].
    apply same_install_spec in Hs. injection Hs as Hs _. eapply rows_of_replace; simpl; eauto; congruence.
Qed.
Lemma filter_other {A} (P : A -> Prop) `{!forall x, Decision (P x)} (l : list A) :
  ~ (exists x, x ∈ l /\ P x) -> filter P l = [].
Proof.
  intros Hl. destruct (filter P l) as [|x l'] eqn:E; [done|]. exfalso. apply Hl. exists x.
  assert (Hx : x ∈ filter P l) by (rewrite E; left). by apply list_elem_of_filter in Hx as [??].
Qed.
Lemma frame_InsertCertLog t rows m :
  ~ (exists l, l ∈ rows /\ log_TenantID l = t) ->
  tenant_view t (Mem_InsertCertLog rows m).2 = tenant_view t m.
Proof.
  intros Hr. unfold Mem_InsertCertLog. op_cases. unfold tenant_view; simpl; f_equal.
  by rewrite filter_app, (filter_other _ rows), app_nil_r.
Qed.
Lemma frame_InsertAuditRows t rows m :
  ~ (exists a, a ∈ rows /\ aud_TenantID a = t) ->
  tenant_view t (Mem_InsertAuditRows rows m).2 = tenant_view t m.
Proof.
  intros Hr. unfold Mem_InsertAuditRows. op_cases. unfold tenant_view; simpl; f_equal.
  generalize (m_Audit m). induction rows as [|a rows IH]; intros l; simpl; [done|].
  rewrite IH by (intros (x & ? & ?); apply Hr; exists x; split; [by right|done]).
  unfold append_audit. rewrite filter_app, filter_cons_False; [by rewrite app_nil_r|].
  simpl. intros ?. apply Hr. exists a. split; [left|done].
Qed.

(** C1. Every store the services can produce keeps the constraints of the
    schema: rows stored under their identifiers, names unique per tenant
    without regard to case, at most one default issuer and one active CA per
    trust domain, unique serials, one revocation per certificate, one grant per
    resource and subject, and the CA of an issuer and the issuer of a
    certificate present in the same tenant. *)
Theorem reachable_wf m : reachable m -> wf m.
Proof.
  induction 1 as [now|op m _ IH Hf|op e m _ IH|t m _ IH].
  - apply wf_New.
  - by apply run_op_wf.
  - destruct e; by eapply wf_same_tables.
  - by eapply wf_same_tables.
Qed.

(** C2. A store operation called for other tenants leaves every row of a tenant as it
    was, also when it names identifiers of that tenant to read, change or delete; the one
    exception is a new row stored under the identifier of a row of the tenant, which the
    in-memory store does not refuse ([foreign_row_overwritten]). *)
Theorem tenant_frame t op m :
  spares t op m -> ~ acts_for t op -> tenant_view t (run_op op m) = tenant_view t m.
Proof.
  destruct op; simpl; intros Hf Ht; try done;
    try (by auto using frame_ClearDefaultIssuer, frame_DeleteGrantsOfResource, frame_UpsertGrant,
           frame_UpsertInstalled, frame_InsertCertLog, frame_InsertAuditRows).
  all: autounfold with store_ops; frame_op.
Qed.

End step.

(** ** Witnesses *)
#[local] Existing Instance std_runtime.

Lemma reachable_wf_witness : wf (run_op (OpInsertCertificate sample_cert) sample_store)
  /\ size (m_Certificates (run_op (OpInsertCertificate sample_cert) sample_store)) = 1%nat.
Proof.
  split; [|reflexivity]. apply reachable_wf. unfold sample_store.
  repeat (apply reach_op || apply reach_new || reflexivity).
Defined.

(** A new issuer of another tenant takes the place of the sample issuer: the key of the
    map is not the primary key of a table. *)
Definition intruder : Issuer := sample_issuer <| iss_TenantID := "t2" |> <| iss_CAID := None |>.
Example foreign_row_overwritten :
  (Mem_InsertIssuer intruder sample_store).1 = Ok tt
  /\ v_Issuers (tenant_view "t1" (run_op (OpInsertIssuer intruder) sample_store)) = ∅.
Proof. split; vm_compute; reflexivity. Qed.
(** Another tenant tries to delete the sample issuer and the store refuses; it stores an
    issuer of its own. *)
Lemma tenant_frame_witness :
  tenant_view "t1" (run_op (OpDeleteIssuer "t2" "i1") sample_store) = tenant_view "t1" sample_store
  /\ tenant_view "t1" (run_op (OpInsertIssuer (intruder <| iss_ID := "i2" |>)) sample_store) = tenant_view "t1" sample_store
  /\ size (v_Issuers (tenant_view "t1" sample_store)) = 1%nat.
Proof.
  split; [apply tenant_frame; simpl; [exact I|discriminate]|]. split; [|reflexivity].
  apply tenant_frame; [|discriminate]. intros x Hx. discriminate Hx.
Defined.
