(* ===== verification/MemstoreList.v ===== *)
(** What the selecting operations of the store return: the claim of due jobs,
    the unique rows, and the cursor listings of internal/memstore/memstore.go. *)

From S2P Require Import Prelude Rows Memstore MemstoreInv.

Section lists.
Context `{GoRuntime}.

(** ** A row found by a property that only it has *)
Lemma list_singleton {A} (l : list A) x :
  NoDup l -> x ∈ l -> (forall y, y ∈ l -> y = x) -> l = [x].
Proof.
  intros Hn Hx Hall. destruct l as [|a [|b l]].
  - by apply elem_of_nil in Hx.
  - f_equal. apply Hall. by left.
  - exfalso. apply NoDup_cons in Hn as [Hn _]. apply Hn.
    rewrite (Hall a), (Hall b) by (set_solver). left.
Qed.
Lemma filter_snd {A} (P : A -> Prop) `{!forall x, Decision (P x)} (l : list (string * A)) :
  filter P l.*2 = (filter (fun e => P e.2) l).*2.
Proof.
  induction l as [|[k x] l IH]; [done|]. rewrite fmap_cons, !filter_cons, IH. simpl. by case_decide.
Qed.
Lemma unique_row {A} (P : A -> Prop) `{!forall x, Decision (P x)} (t : gmap string A) k x :
  t !! k = Some x -> P x -> (forall k' x', t !! k' = Some x' -> P x' -> k' = k) ->
  filter P (map_range t).*2 = [x].
Proof.
  intros Hk Hx Hu. rewrite filter_snd.
  rewrite (list_singleton _ (k, x)); [done|..].
  - apply NoDup_filter. eapply NoDup_fmap_1, NoDup_map_range_fst.
  - apply list_elem_of_filter. split; [done|]. by apply elem_of_map_range.
  - intros [k' x'] [Hp Hk']%list_elem_of_filter. apply elem_of_map_range in Hk'.
    assert (k' = k) as -> by eauto. congruence.
Qed.

(** ** The claim of due jobs *)

Lemma sqlLimit_prefix {A} (l : list A) n : exists r, l = sqlLimit l n ++ r.
Proof.
  unfold sqlLimit. case_match; [by exists l|]. case_match; [|exists []; by rewrite app_nil_r].
  exists (drop (Z.to_nat n) l). by rewrite take_drop.
Qed.
Lemma sqlLimit_length {A} (l : list A) n : Z.of_nat (length (sqlLimit l n)) <= Z.max 0 n.
Proof. unfold sqlLimit. repeat case_match; bools; simpl; [lia| |lia]. rewrite length_take. lia. Qed.
Lemma sqlLimit_all {A} (l : list A) n : Z.of_nat (length (sqlLimit l n)) < n -> sqlLimit l n = l.
Proof.
  unfold sqlLimit. repeat case_match; bools; simpl; [lia| |done]. rewrite length_take. lia.
Qed.

(** The jobs due, in the order in which they are claimed. *)
Definition due_sorted (now : Z) (m : Mem) : list CertificateJob :=
  sortAsc job_RunAfter job_ID (filter (fun j => job_due now j = true) (map_range (m_Jobs m)).*2).
Lemma elem_of_due_sorted now m j :
  j ∈ due_sorted now m <-> job_due now j = true /\ exists k, m_Jobs m !! k = Some j.
Proof.
  unfold due_sorted, sortAsc. rewrite elem_of_sort_slice, list_elem_of_filter, list_elem_of_fmap.
  split.
  - intros [Hd ([k x] & -> & Hk%elem_of_map_range)]. eauto.
  - intros [Hd [k Hk]]. split; [done|]. exists (k, j). by rewrite elem_of_map_range.
Qed.
Lemma map_range_ids {A} (id : A -> string) (t : gmap string A) :
  keyed id t -> NoDup (id <$> (map_range t).*2).
Proof.
  intros Hk. rewrite <- list_fmap_compose.
  replace ((id ∘ snd) <$> map_range t) with (map_range t).*1; [apply NoDup_map_range_fst|].
  apply list_fmap_ext. intros i [k x] Hi. simpl. symmetry. apply Hk.
  apply elem_of_map_range. eapply list_elem_of_lookup_2. exact Hi.
Qed.
Lemma NoDup_fmap_filter {A} (f : A -> string) (P : A -> Prop) `{!forall x, Decision (P x)} l :
  NoDup (f <$> l) -> NoDup (f <$> filter P l).
Proof. intros Hn. eapply sublist_NoDup; [exact Hn|]. apply fmap_sublist, sublist_filter. Qed.
Lemma due_sorted_ids now m : keyed job_ID (m_Jobs m) -> NoDup (job_ID <$> due_sorted now m).
Proof.
  intros Hk. unfold due_sorted, sortAsc. rewrite sort_slice_perm.
  by apply NoDup_fmap_filter, map_range_ids.
Qed.

(** Claiming jobs that are stored and distinct rewrites exactly those. *)
Lemma claim_fold now until l out jobs :
  NoDup (job_ID <$> l) -> (forall j, j ∈ l -> jobs !! job_ID j = Some j) ->
  let r := foldl (claim_one now until) (out, jobs) l in
  r.1 = out ++ (claimed now until <$> l)
  /\ (forall j, j ∈ l -> r.2 !! job_ID j = Some (claimed now until j))
  /\ (forall k, k ∉ job_ID <$> l -> r.2 !! k = jobs !! k).
Proof.
  revert out jobs. induction l as [|j l IH]; intros out jobs Hn Hl; simpl.
  - split_and!; [by rewrite app_nil_r|by intros ? ?%elem_of_nil|done].
  - simpl in Hn. apply NoDup_cons in Hn as [Hj Hn].
    assert (Hjj : jobs !! job_ID j = Some j) by (apply Hl; left).
    unfold claim_one at 2 4 6. simpl. rewrite Hjj. simpl.
    destruct (IH (out ++ [claimed now until j]) (<[job_ID j := claimed now until j]> jobs))
      as (H1 & H2 & H3); [done| |].
    { intros j' Hj'. rewrite lookup_insert_ne; [apply Hl; by right|].
      intros He. apply Hj. rewrite He. by apply list_elem_of_fmap_2. }
    split_and!.
    + rewrite H1. by rewrite <- app_assoc.
    + intros j' [->|Hj']%elem_of_cons; [|by apply H2]. rewrite (H3 _ Hj). by rewrite lookup_insert_eq.
    + intros k [Hk1 Hk2]%not_elem_of_cons.
      rewrite (H3 k Hk2). by rewrite lookup_insert_ne.
Qed.

(** The claim, as a list of jobs and the table after it. *)
Lemma ClaimDueJobs_ok now lease limit m out m' :
  keyed job_ID (m_Jobs m) -> Mem_ClaimDueJobs now lease limit m = (Ok out, m') ->
  out = claimed now (now + lease) <$> sqlLimit (due_sorted now m) limit
  /\ m' = m <| m_Jobs := m_Jobs m' |>
  /\ (forall j, j ∈ sqlLimit (due_sorted now m) limit ->
        m_Jobs m' !! job_ID j = Some (claimed now (now + lease) j))
  /\ (forall k, k ∉ job_ID <$> sqlLimit (due_sorted now m) limit -> m_Jobs m' !! k = m_Jobs m !! k).
Proof.
  intros Hk. unfold Mem_ClaimDueJobs, fail_write. case_match; [done|]. unfold due_jobs.
  fold (due_sorted now m). set (l := sqlLimit (due_sorted now m) limit).
  assert (Hsub : sublist l (due_sorted now m))
    by (destruct (sqlLimit_prefix (due_sorted now m) limit) as [r Hr]; rewrite Hr at 1;
        apply sublist_inserts_r; done).
  destruct (claim_fold now (now + lease) l [] (m_Jobs m)) as (H1 & H2 & H3).
  - eapply sublist_NoDup; [by apply due_sorted_ids|]. by apply fmap_sublist.
  - intros j Hj. eapply elem_of_sublist in Hj; [|exact Hsub].
    apply elem_of_due_sorted in Hj as [_ [k Hj]]. by rewrite (Hk _ _ Hj).
  - destruct (foldl _ _ l) as [o jobs] eqn:E. simpl in *. intros [= -> <-]. simpl. done.
Qed.

(** The listings sort by the pair of time and identifier. *)
Lemma sortAsc_asc {A} (ts : A -> Z) (id : A -> string) l :
  sortAsc ts id l = sort_slice (asc (fun x => (ts x, id x))) l.
Proof.
  apply sort_slice_ext. intros a b. unfold asc, key_ltb, TimeEqual, Before. simpl.
  destruct (ts a =? ts b) eqn:E; simpl; bools; [|by rewrite orb_false_r].
  by rewrite (proj2 (Z.ltb_ge _ _)) by lia.
Qed.
Lemma sortDesc_desc {A} (ts : A -> Z) (id : A -> string) l :
  sortDesc ts id l = sort_slice (desc (fun x => (ts x, id x))) l.
Proof.
  apply sort_slice_ext. intros a b. unfold desc, key_ltb, TimeEqual, After. simpl.
  rewrite (Z.eqb_sym (ts b)). destruct (ts a =? ts b) eqn:E; simpl; bools; [|by rewrite orb_false_r].
  by rewrite (proj2 (Z.ltb_ge _ _)) by lia.
Qed.

Definition job_key (j : CertificateJob) : key := (job_RunAfter j, job_ID j).

(** A job waits and is due: queued, its time has come, and no lease of it runs. *)
Definition waits (now : Z) (j : CertificateJob) : Prop :=
  job_Status j = "queued" /\ job_RunAfter j <= now /\ forall t, job_LeaseUntil j = Some t -> t < now.
Lemma job_due_waits now j : job_due now j = true <-> waits now j.
Proof.
  unfold job_due, waits, After, Before. rewrite !andb_true_iff, str_eqb_eq, negb_true_iff, Z.ltb_ge. split.
  - intros [[Hs Hr] Hl]. split_and!; [done..|]. intros t Ht. rewrite Ht in Hl. by apply Z.ltb_lt.
  - intros (Hs & Hr & Hl). split_and!; [done..|]. destruct (job_LeaseUntil j); [|done]. by apply Z.ltb_lt, Hl.
Qed.
(** C35. What the claim of due jobs hands out: at most [limit] jobs, each once, only
    queued ones that are due, the earliest first, and all of them when there is room; each
    is put in processing under a lease, one attempt counted, and every other job is left
    as it was.  A job in processing is left alone also when its lease has expired: nothing
    but a change of its status brings it back. *)
Theorem ClaimDueJobs_queue now lease limit m out m' :
  wf m -> Mem_ClaimDueJobs now lease limit m = (Ok out, m') ->
  Z.of_nat (length out) <= Z.max 0 limit /\ NoDup (job_ID <$> out)
  /\ (forall j, j ∈ out -> m_Jobs m' !! job_ID j = Some j
       /\ exists old, m_Jobs m !! job_ID j = Some old /\ waits now old
            /\ j = old <| job_Status := "processing" |> <| job_LeaseUntil := Some (now + lease) |>
                       <| job_Attempts := job_Attempts old + 1 |> <| job_UpdatedAt := now |>)
  /\ (forall k, k ∉ job_ID <$> out -> m_Jobs m' !! k = m_Jobs m !! k)
  /\ (Z.of_nat (length out) < limit -> forall k j, m_Jobs m' !! k = Some j -> ~ waits now j)
  /\ (forall j k x, j ∈ out -> m_Jobs m' !! k = Some x -> waits now x -> key_ltb (job_key x) (job_key j) = false)
  /\ (forall k j, m_Jobs m !! k = Some j -> job_Status j = "processing" -> m_Jobs m' !! k = Some j).
Proof.
  intros Hwf Hc. pose proof (wf_jobs _ Hwf) as Hk.
  apply ClaimDueJobs_ok in Hc as (-> & _ & Hin & Hout); [|done].
  set (l := sqlLimit (due_sorted now m) limit) in *.
  destruct (sqlLimit_prefix (due_sorted now m) limit) as [rest Hrest]. fold l in Hrest.
  assert (Hids : (job_ID <$> (claimed now (now + lease) <$> l)) = (job_ID <$> l))
    by (rewrite <- list_fmap_compose; done).
  assert (Hl : forall j, j ∈ l -> job_due now j = true /\ m_Jobs m !! job_ID j = Some j).
  { intros j Hj. assert (Hd : j ∈ due_sorted now m) by (rewrite Hrest; set_solver).
    apply elem_of_due_sorted in Hd as [Hd [k Hj']]. by rewrite (Hk _ _ Hj'). }
  rewrite length_fmap, Hids.
  assert (Hleft : forall k x, m_Jobs m' !! k = Some x -> job_due now x = true ->
            k ∉ job_ID <$> l /\ x ∈ rest).
  { intros k x Hx Hdue. destruct (decide (k ∈ job_ID <$> l)) as [Hkl|Hkl].
    - apply list_elem_of_fmap in Hkl as (j & -> & Hj). rewrite (Hin j Hj) in Hx.
      injection Hx as <-. done.
    - split; [done|]. rewrite (Hout k Hkl) in Hx.
      assert (Hd : x ∈ due_sorted now m) by (apply elem_of_due_sorted; eauto).
      rewrite Hrest in Hd. apply elem_of_app in Hd as [Hd|Hd]; [|done].
      exfalso. apply Hkl. rewrite <- (Hk _ _ Hx). by apply list_elem_of_fmap_2. }
  split_and!.
  - apply sqlLimit_length.
  - eapply (sublist_NoDup _ (job_ID <$> due_sorted now m)); [by apply due_sorted_ids|].
    apply fmap_sublist. rewrite Hrest. by apply sublist_inserts_r.
  - intros j' (j & -> & Hj)%list_elem_of_fmap. destruct (Hl j Hj) as [Hd Hjm].
    split; [exact (Hin j Hj)|]. exists j. by rewrite <- job_due_waits.
  - done.
  - intros Hlen k j Hj Hd%job_due_waits.
    destruct (Hleft k j Hj Hd) as [_ Hr]. pose proof (sqlLimit_all _ _ Hlen) as Hall.
    fold l in Hall. rewrite Hall in Hrest. rewrite <- (app_nil_r (due_sorted now m)) in Hrest at 1.
    apply app_inv_head in Hrest. subst rest. by apply elem_of_nil in Hr.
  - intros j' k x (j & -> & Hj)%list_elem_of_fmap Hx Hd%job_due_waits. destruct (Hleft k x Hx Hd) as [_ Hr].
    change (job_key (claimed now (now + lease) j)) with (job_key j).
    assert (Hs : StronglySorted (leq (asc job_key)) (l ++ rest))
      by (rewrite <- Hrest; unfold due_sorted; rewrite sortAsc_asc; apply sort_asc_sorted).
    by eapply StronglySorted_app_1_elem_of in Hs.
  - intros k j Hj Hp. rewrite Hout; [done|]. intros (x & -> & Hx)%list_elem_of_fmap. destruct (Hl x Hx) as [[Hq _]%job_due_waits Hxm]. congruence.
Qed.

(** Two claims never hand out the same job, whatever their clocks: a job in
    processing stays out of every later claim, also after its lease has
    expired. *)
Theorem claims_disjoint now1 lease1 limit1 now2 lease2 limit2 m out1 m1 out2 m2 j :
  wf m -> Mem_ClaimDueJobs now1 lease1 limit1 m = (Ok out1, m1) ->
  Mem_ClaimDueJobs now2 lease2 limit2 m1 = (Ok out2, m2) ->
  j ∈ out1 -> job_ID j ∉ job_ID <$> out2.
Proof.
  intros Hwf H1 H2 Hj Hin.
  assert (Hwf1 : wf m1) by (pose proof (wf_ClaimDueJobs now1 lease1 limit1 m Hwf) as Hx; by rewrite H1 in Hx).
  apply ClaimDueJobs_ok in H1 as (-> & _ & Hin1 & _); [|by apply wf_jobs].
  apply ClaimDueJobs_ok in H2 as (-> & _ & _ & _); [|by apply wf_jobs].
  apply list_elem_of_fmap in Hj as (j1 & -> & Hj1). specialize (Hin1 j1 Hj1).
  rewrite <- list_fmap_compose in Hin. apply list_elem_of_fmap in Hin as (j2 & He & Hj2).
  destruct (sqlLimit_prefix (due_sorted now2 m1) limit2) as [rest Hrest].
  assert (Hd : j2 ∈ due_sorted now2 m1) by (rewrite Hrest; set_solver).
  apply elem_of_due_sorted in Hd as [Hd [k Hk]]. pose proof (wf_jobs _ Hwf1 _ _ Hk) as <-.
  simpl in He. rewrite <- He, Hin1 in Hk. injection Hk as <-. done.
Qed.
End lists.

(** ** Witnesses: two queued jobs, claimed one at a time *)
Module QueueSample.
#[local] Existing Instance std_runtime.
Definition job (id : string) (after : Z) : CertificateJob :=
  mkCertificateJob id "t1" "r1" "request" "queued" None 0 3 None None after 0 0.
Definition queue : Mem :=
  run_op (OpInsertJob (job "j2" 7)) (run_op (OpInsertJob (job "j1" 5)) (Mem_New 1)).
Lemma queue_wf : wf queue.
Proof. unfold queue. repeat (apply run_op_wf || apply wf_New || reflexivity). Qed.
Definition claim (now : Z) (m : Mem) : list CertificateJob * Mem :=
  match Mem_ClaimDueJobs now 60 1 m with (Ok l, m') => (l, m') | (Err _, m') => ([], m') end.
Definition first : list CertificateJob * Mem := claim 10 queue.
Definition second : list CertificateJob * Mem := claim 500 first.2.
Lemma first_run : Mem_ClaimDueJobs 10 60 1 queue = (Ok first.1, first.2).
Proof. vm_compute. reflexivity. Qed.
Lemma second_run : Mem_ClaimDueJobs 500 60 1 first.2 = (Ok second.1, second.2).
Proof. vm_compute. reflexivity. Qed.

Lemma ClaimDueJobs_queue_witness :
  (job_ID <$> first.1) = ["j1"] /\ m_Jobs first.2 !! "j2" = m_Jobs queue !! "j2".
Proof.
  assert (Hi : (job_ID <$> first.1) = ["j1"]) by (vm_compute; reflexivity). split; [exact Hi|].
  destruct (ClaimDueJobs_queue 10 60 1 queue first.1 first.2 queue_wf first_run) as (_ & _ & _ & Hother & _).
  apply Hother. rewrite Hi. set_solver.
Defined.
(** The lease of the first job has expired by the second claim, which takes the
    other job. *)
Lemma claims_disjoint_witness :
  (job_ID <$> second.1) = ["j2"] /\ "j1" ∉ job_ID <$> second.1.
Proof.
  split; [vm_compute; reflexivity|].
  apply (claims_disjoint 10 60 1 500 60 1 queue first.1 first.2 second.1 second.2
           (nth 0 first.1 zero_job) queue_wf first_run second_run).
  left.
Defined.
End QueueSample.
