(* ===== verification/Paging.v ===== *)
(** The paging loop of the listings of internal/issue: pages of the store are
    read from a cursor until enough rows the caller may see are collected.

    The loop of the source runs until it is done; here it has fuel, and
    [page_loop_spec] shows that one more than the number of rows is enough. *)

From S2P Require Import Prelude Rows Memstore MemstoreInv MemstoreList.

Definition ErrFuel : err := Opaque "out of fuel".

Section loop.
Context {A B C : Type}.
Context (list_page : C -> res (list A)) (cursor_of : A -> C).
Context (project : A -> res (option B)) (limit : Z).

(** [for _, row := range rows { cursor = row; if !visible { continue };
    out = append(out, view); if len(out) == limit { break } }]. *)
Fixpoint page_rows (rows : list A) (out : list B) (cur : C) : res (list B * C) :=
  match rows with
  | [] => Ok (out, cur)
  | row :: rows' =>
    let? v := project row in
    match v with
    | None => page_rows rows' out (cursor_of row)
    | Some b =>
      let out := out ++ [b] in
      if Z.of_nat (length out) =? limit then Ok (out, cursor_of row)
      else page_rows rows' out (cursor_of row)
    end
  end.
(** [for len(out) < limit { ... }]. *)
Fixpoint page_loop (fuel : nat) (out : list B) (cur : C) : res (list B) :=
  match fuel with
  | O => Err ErrFuel
  | S fuel' =>
    if Z.of_nat (length out) <? limit then
      let? rows := list_page cur in
      if (length rows =? 0)%nat then Ok out
      else
        let? (out, cur) := page_rows rows out cur in
        if Z.of_nat (length rows) <? limit then Ok out else page_loop fuel' out cur
    else Ok out
  end.

(** The store lists the rows after a cursor, and the cursor of a row is the
    place just after it. *)
Context (after : C -> list A) (f : A -> option B).
Hypothesis limit_pos : 0 < limit.
Hypothesis list_page_ok : forall c, list_page c = Ok (sqlLimit (after c) limit).
Hypothesis after_next : forall c pre r post,
  after c = pre ++ r :: post -> after (cursor_of r) = post.

Definition projected (a : A) : Prop := project a = Ok (f a).

Lemma page_rows_spec rows out cur :
  Forall projected rows -> Z.of_nat (length out) < limit ->
  exists k cur', page_rows rows out cur = Ok (take (Z.to_nat limit) (out ++ omap f rows), cur')
    /\ (k <= length rows)%nat
    /\ (cur' = cur /\ k = 0%nat \/ exists r pre, take k rows = pre ++ [r] /\ cur' = cursor_of r)
    /\ (k = length rows
        \/ Z.of_nat (length (take (Z.to_nat limit) (out ++ omap f rows))) = limit).
Proof using limit_pos.
  revert out cur. induction rows as [|r rows IH]; intros out cur Hp Hl; simpl.
  - exists 0%nat, cur. rewrite app_nil_r, take_ge by lia. split_and!; auto.
  - apply Forall_cons in Hp as [Hr Hp]. rewrite Hr. simpl. destruct (f r) as [b|].
    + destruct (Z.of_nat (length (out ++ [b])) =? limit) eqn:E; bools.
      * exists 1%nat, (cursor_of r). change (list_omap A B f rows) with (omap f rows).
        rewrite (cons_middle b out (omap f rows)), (app_assoc out [b]).
        assert (Ht : take (Z.to_nat limit) ((out ++ [b]) ++ omap f rows) = out ++ [b]).
        { rewrite take_app_le by lia. by rewrite take_ge by lia. }
        rewrite Ht. split_and!; [done|lia|right; exists r, []; done|right; done].
      * rewrite length_app in E. simpl in E.
        destruct (IH (out ++ [b]) (cursor_of r) Hp) as (k & cur' & H1 & H2 & H3 & H4);
          [rewrite length_app; simpl; lia|].
        exists (S k), cur'. change (list_omap A B f rows) with (omap f rows).
        rewrite (cons_middle b out (omap f rows)), (app_assoc out [b]). split_and!; [done|lia| |naive_solver lia].
        right. destruct H3 as [[-> ->]|(r' & pre & Hk & ->)]; [exists r, []; done|].
        exists r', (r :: pre). simpl. by rewrite Hk.
    + destruct (IH out (cursor_of r) Hp Hl) as (k & cur' & H1 & H2 & H3 & H4).
      exists (S k), cur'. split_and!; [done|lia| |naive_solver lia].
      right. destruct H3 as [[-> ->]|(r' & pre & Hk & ->)]; [exists r, []; done|].
      exists r', (r :: pre). simpl. by rewrite Hk.
Qed.

(** The page is the first [limit] visible rows after the cursor. *)
Lemma page_loop_spec fuel out cur :
  Forall projected (after cur) -> Z.of_nat (length out) <= limit -> (length (after cur) < fuel)%nat ->
  page_loop fuel out cur = Ok (take (Z.to_nat limit) (out ++ omap f (after cur))).
Proof using limit_pos list_page_ok after_next.
  revert out cur. induction fuel as [|fuel IH]; intros out cur Hp Ho Hf; [lia|]. simpl.
  destruct (Z.of_nat (length out) <? limit) eqn:El; bools;
    [|rewrite take_app_le, take_ge by lia; done].
  rewrite list_page_ok. simpl. destruct (sqlLimit_prefix (after cur) limit) as [rest Hrest].
  set (rows := sqlLimit (after cur) limit) in *. destruct (length rows =? 0)%nat eqn:E0.
  { apply Nat.eqb_eq in E0. assert (Hall : rows = after cur) by (apply sqlLimit_all; fold rows; lia).
    rewrite <- Hall, (nil_length_inv _ E0). simpl. by rewrite app_nil_r, take_ge by lia. }
  apply Nat.eqb_neq in E0. rewrite Hrest in Hp, Hf |- *. apply Forall_app in Hp as [Hpr Hps].
  destruct (page_rows_spec rows out cur Hpr El) as (k & cur' & -> & Hk & Hcur & Hend). simpl.
  rewrite omap_app. destruct (Z.of_nat (length rows) <? limit) eqn:Er; bools.
  { apply sqlLimit_all in Er. fold rows in Er. rewrite Er in Hrest.
    rewrite <- (app_nil_r (after cur)) in Hrest at 1. apply app_inv_head in Hrest as <-. simpl.
    by rewrite app_nil_r. }
  rewrite length_app in Hf. rewrite app_assoc. set (seen := out ++ omap f rows) in *.
  destruct (decide (Z.of_nat (length seen) < limit)) as [Hs|Hs].
  - destruct Hend as [Hk'|Hfull]; [|rewrite length_take in Hfull; lia].
    destruct Hcur as [[_ ->]|(r & pre & Hr & ->)]; [lia|].
    rewrite Hk', take_ge in Hr by lia.
    assert (Ha : after (cursor_of r) = rest)
      by (apply (after_next cur pre); rewrite Hrest, Hr, <- app_assoc; done).
    rewrite take_ge by lia. rewrite IH, Ha; [done|by rewrite Ha|lia|rewrite Ha; lia].
  - rewrite take_app_le by lia.
    destruct fuel as [|fuel]; [lia|]. simpl. rewrite length_take.
    by rewrite (proj2 (Z.ltb_ge _ _)) by lia.
Qed.
End loop.

(** ** A sorted listing, from a row on *)
Section sorted.
Context {A : Type} (less : A -> A -> bool).
Hypothesis less_asym : forall x y, less x y = true -> less y x = false.
Hypothesis leq_trans : forall x y z, leq less x y -> leq less y z -> leq less x z.

Lemma sorted_next (rows : list A) (selc selr : A -> bool) pre r post :
  NoDup rows ->
  (forall x y, x ∈ rows -> y ∈ rows -> leq less x y -> leq less y x -> x = y) ->
  (forall x, x ∈ rows -> selr x = true <-> selc x = true /\ less r x = true) ->
  sort_slice less (filter (fun x => selc x = true) rows) = pre ++ r :: post ->
  sort_slice less (filter (fun x => selr x = true) rows) = post.
Proof using less_asym leq_trans.
  intros Hn Hanti Hsel Hs.
  assert (Hin : forall x, x ∈ pre ++ r :: post <-> selc x = true /\ x ∈ rows)
    by (intros x; rewrite <- Hs, elem_of_sort_slice, list_elem_of_filter; done).
  assert (Hsort : StronglySorted (leq less) (pre ++ r :: post))
    by (rewrite <- Hs; by apply sort_slice_sorted).
  assert (Hnd : NoDup (pre ++ r :: post))
    by (rewrite <- Hs, sort_slice_perm; by apply NoDup_filter).
  apply NoDup_app in Hnd as (_ & Hdis & Hnd). apply NoDup_cons in Hnd as [Hr Hnd].
  assert (Hpre : forall x, x ∈ pre -> leq less x r)
    by (intros x Hx; eapply StronglySorted_app_1_elem_of; [exact Hsort|done|left]).
  apply StronglySorted_app in Hsort as (_ & _ & Hsort). apply StronglySorted_inv in Hsort as [Hsort Hpost].
  assert (Hrr : r ∈ rows) by (apply Hin; set_solver).
  apply sort_slice_unique; [done|done| | |done].
  - intros x y [_ Hx]%list_elem_of_filter [_ Hy]%list_elem_of_filter. by apply Hanti.
  - apply NoDup_Permutation; [done|by apply NoDup_filter|]. intros x. rewrite list_elem_of_filter. split.
    + intros Hx. assert (Hx' : selc x = true /\ x ∈ rows) by (apply Hin; set_solver).
      destruct Hx' as [Hc Hxr]. split; [|done]. apply Hsel; [done|]. split; [done|].
      destruct (less r x) eqn:E; [done|]. exfalso.
      assert (x = r) as ->; [|done]. apply Hanti; [done..|].
      rewrite Forall_forall in Hpost. by apply Hpost.
    + intros [Hx Hxr]. apply Hsel in Hx as [Hc Hl]; [|done].
      assert (Hx : x ∈ pre ++ r :: post) by (by apply Hin).
      apply elem_of_app in Hx as [Hx|[->|Hx]%elem_of_cons]; [| |done].
      * specialize (Hpre x Hx). unfold leq in Hpre. congruence.
      * pose proof (less_asym _ _ Hl). congruence.
Qed.
End sorted.

Lemma fmap_filter {A B} (g : A -> B) (P : B -> bool) (Q : A -> bool) (l : list A) :
  (forall x, P (g x) = Q x) ->
  g <$> filter (fun x => Q x = true) l = filter (fun y => P y = true) (g <$> l).
Proof.
  intros Hpq. induction l as [|x l IH]; [done|]. rewrite fmap_cons, !filter_cons, Hpq.
  case_decide; [by rewrite fmap_cons, IH|done].
Qed.
