(* ===== verification/Authz.v ===== *)
(** Access decisions: internal/authz/authz.go and internal/authz/grants.go.

    The evaluator is written against [AuthzStore], the Go interface of the same
    role; [AuthzStoreLaws] states what the decisions rely on, and the in-memory
    store discharges it ([mem_authz_laws]).  A method that only reads is a
    function of the store; one that writes is a state computation.  The clock
    [a.now()] and the identifiers drawn from [store.NewID] are arguments. *)

From S2P Require Import Prelude Rows Memstore MemstoreInv.

(** ** Vocabulary *)
Definition Owner : string := "owner".
Definition Editor : string := "editor".
Definition Viewer : string := "viewer".
Definition Sharer : string := "sharer".
Definition Read : string := "read".
Definition Write : string := "write".
Definition Delete : string := "delete".
Definition Share : string := "share".
Definition Use : string := "use".
Definition Certificate : string := "certificate".
Definition IssuerType : string := "issuer".
Definition SubjectUser : string := "user".
Definition SubjectRole : string := "role".
Definition SubjectTenant : string := "tenant".
Definition AdminRoles : list string := ["owner"; "admin"].

Definition authz_ErrForbidden : err := Sentinel "authz" "ErrForbidden".
Definition authz_ErrNotFound : err := Sentinel "authz" "ErrNotFound".
Definition authz_ErrInput : err := Sentinel "authz" "ErrInput".
Definition authz_ErrAboveGranter : err := Wrapf "relation_above_granter" authz_ErrForbidden.

(** ** Subjects and permissions *)
Record Subjects := mkSubjects {
  sub_TenantID : string; sub_UserID : string; sub_Roles : list string; sub_Service : string;
}.
Definition ServiceSubjects (tenantID spiffeID : string) : Subjects :=
  mkSubjects tenantID "" [] spiffeID.
Definition ActorKind (s : Subjects) : string := if sub_Service s <>s "" then "service" else "user".
Definition ActorID (s : Subjects) : string :=
  if sub_Service s <>s "" then sub_Service s else sub_UserID s.
Definition IsAdmin (s : Subjects) : bool :=
  existsb (fun r => existsb (fun a => r =s a) AdminRoles) (sub_Roles s).

Record Permissions := mkPermissions {
  p_Read : bool; p_Write : bool; p_Delete : bool; p_Share : bool; p_Use : bool;
}.
Definition no_permissions : Permissions := mkPermissions false false false false false.

Definition Has (p : Permissions) (perm : string) : bool :=
  if perm =s Read then p_Read p
  else if perm =s Write then p_Write p
  else if perm =s Delete then p_Delete p
  else if perm =s Share then p_Share p
  else if perm =s Use then p_Use p
  else false.

Definition Of (relation : string) : Permissions :=
  if relation =s Owner then mkPermissions true true true true true
  else if relation =s Editor then mkPermissions true true false false true
  else if relation =s Viewer then mkPermissions true false false false false
  else if relation =s Sharer then mkPermissions true false false true true
  else no_permissions.

Definition rank (relation : string) : Z :=
  if relation =s Owner then 4
  else if relation =s Editor then 3
  else if relation =s Sharer then 2
  else if relation =s Viewer then 1
  else 0.

Definition ValidRelation (r : string) : bool := 0 <? rank r.
Definition ValidPermission (p : string) : bool :=
  (p =s Read) || (p =s Write) || (p =s Delete) || (p =s Share) || (p =s Use).
Definition ValidResourceType (t : string) : bool := (t =s Certificate) || (t =s IssuerType).
Definition ValidSubjectType (t : string) : bool :=
  (t =s SubjectUser) || (t =s SubjectRole) || (t =s SubjectTenant).

(** ** The store the evaluator reads and writes *)
Class AuthzStore (St : Type) := {
  as_GetCertificate : string -> string -> St -> res IssuedCertificate;
  as_GetIssuer : string -> string -> St -> res Issuer;
  as_UpsertGrant : Grant -> ST St Grant;
  as_GetGrant : string -> string -> St -> res Grant;
  as_DeleteGrant : string -> string -> ST St unit;
  as_GrantsOnResource : string -> string -> string -> St -> res (list Grant);
  as_GrantsForSubjects : string -> string -> list string -> Z -> St -> res (list Grant);
  as_DeleteGrantsOfResource : string -> string -> string -> ST St unit;
}.

(** ** Evaluation *)

Definition notFound {A} (r : res A) : res A :=
  match r with
  | Err e => if errors_is e "store" "ErrNotFound" then Err authz_ErrNotFound else Err e
  | Ok a => Ok a
  end.

(** [matches]: the grant applies to the subjects at [now]. *)
Definition matches (g : Grant) (s : Subjects) (now : Z) : bool :=
  if match grt_ExpiresAt g with Some e => negb (After e now) | None => false end then false
  else if grt_SubjectType g =s SubjectUser
       then (sub_UserID s <>s "") && (grt_SubjectID g =s sub_UserID s)
  else if grt_SubjectType g =s SubjectRole
       then existsb (fun r => r =s grt_SubjectID g) (sub_Roles s)
  else grt_SubjectType g =s SubjectTenant.

Definition union_perms (a b : Permissions) : Permissions :=
  mkPermissions (p_Read a || p_Read b) (p_Write a || p_Write b) (p_Delete a || p_Delete b)
    (p_Share a || p_Share b) (p_Use a || p_Use b).

(** One turn of the loop of [decide]. *)
Definition decide_grant (s : Subjects) (now : Z) (acc : Permissions * string * list Grant)
  (g : Grant) : Permissions * string * list Grant :=
  let '(perms, relation, sources) := acc in
  if negb (matches g s now) then acc
  else (union_perms perms (Of (grt_Relation g)),
        (if rank relation <? rank (grt_Relation g) then grt_Relation g else relation),
        sources ++ [g]).
Definition authz_decide (now : Z) (s : Subjects) (grants : list Grant)
  : Permissions * string * list Grant :=
  let init := if IsAdmin s then (Of Owner, Owner, []) else (no_permissions, "", []) in
  foldl (decide_grant s now) init grants.

Section authorizer.
Context {St : Type} `{AuthzStore St}.

Definition locate (tenantID resourceType resourceID : string) (st : St) : res unit :=
  notFound (if resourceType =s Certificate
            then res_map (fun _ => tt) (as_GetCertificate tenantID resourceID st)
            else res_map (fun _ => tt) (as_GetIssuer tenantID resourceID st)).

Definition resolve (now : Z) (s : Subjects) (resourceType resourceID : string) (st : St)
  : res (Permissions * string * list Grant) :=
  let? _ := locate (sub_TenantID s) resourceType resourceID st in
  let? grants := as_GrantsOnResource (sub_TenantID s) resourceType resourceID st in
  Ok (authz_decide now s grants).

Definition authz_Check (now : Z) (s : Subjects) (resourceType resourceID action : string)
  (st : St) : res unit :=
  if negb (ValidResourceType resourceType) || negb (ValidPermission action)
  then Err authz_ErrInput
  else
    let? (perms, _, _) := resolve now s resourceType resourceID st in
    if negb (Has perms action) then Err authz_ErrForbidden else Ok tt.

Definition authz_Effective (now : Z) (s : Subjects) (resourceType resourceID : string) (st : St)
  : res (Permissions * string * list Grant) :=
  if negb (ValidResourceType resourceType) then Err authz_ErrInput
  else resolve now s resourceType resourceID st.

(** The map of ids is a set; the second component is [all]. *)
Definition authz_ListAccessibleIDs (now : Z) (s : Subjects) (resourceType : string) (st : St)
  : res (gset string * bool) :=
  if negb (ValidResourceType resourceType) then Err authz_ErrInput
  else if IsAdmin s then Ok (∅, true)
  else
    let? grants := as_GrantsForSubjects (sub_TenantID s) (sub_UserID s) (sub_Roles s) now st in
    Ok (foldl (fun (ids : gset string) g =>
                 if (grt_ResourceType g =s resourceType) && p_Read (Of (grt_Relation g))
                 then {[grt_ResourceID g]} ∪ ids else ids) ∅ grants, false).

(** ** Grants *)
Record GrantInput := mkGrantInput {
  gin_ResourceType : string; gin_ResourceID : string; gin_SubjectType : string;
  gin_SubjectID : string; gin_Relation : string; gin_ExpiresAt : option Z;
}.
Definition validate_grant (now : Z) (i : GrantInput) : res unit :=
  if negb (ValidResourceType (gin_ResourceType i)) || negb (ValidSubjectType (gin_SubjectType i))
     || negb (ValidRelation (gin_Relation i)) || (gin_ResourceID i =s "")
  then Err authz_ErrInput
  else if (if gin_SubjectType i =s SubjectTenant then gin_SubjectID i <>s ""
           else (gin_SubjectID i =s "") || (128 <? str_len (gin_SubjectID i)))
  then Err authz_ErrInput
  else match gin_ExpiresAt i with
       | Some e => if negb (After e now) then Err authz_ErrInput else Ok tt
       | None => Ok tt
       end.

Definition grant_row (id : string) (s : Subjects) (i : GrantInput) : Grant :=
  mkGrant id (sub_TenantID s) (gin_ResourceType i) (gin_ResourceID i) (gin_SubjectType i)
    (gin_SubjectID i) (gin_Relation i)
    (if sub_UserID s <>s "" then Some (sub_UserID s) else None) 0 (gin_ExpiresAt i).

Definition authz_Grant (now : Z) (id : string) (s : Subjects) (i : GrantInput) : ST St Grant :=
  let* _ := st_lift (validate_grant now i) in
  let* (perms, held, _) := st_read (resolve now s (gin_ResourceType i) (gin_ResourceID i)) in
  let* _ := st_guard (p_Share perms) authz_ErrForbidden in
  let* _ := st_guard (negb (rank held <? rank (gin_Relation i))) authz_ErrAboveGranter in
  as_UpsertGrant (grant_row id s i).

Definition authz_Revoke (now : Z) (s : Subjects) (grantID : string) : ST St unit :=
  let* g := st_read (fun st => notFound (as_GetGrant (sub_TenantID s) grantID st)) in
  let* (perms, _, _) := st_read (resolve now s (grt_ResourceType g) (grt_ResourceID g)) in
  let* _ := st_guard (p_Share perms) authz_ErrForbidden in
  fun st => let '(r, st') := as_DeleteGrant (sub_TenantID s) grantID st in (notFound r, st').

Definition authz_GrantOwner (id tenantID resourceType resourceID userID : string) : ST St unit :=
  if userID =s "" then st_ret tt
  else
    let* _ := as_UpsertGrant (mkGrant id tenantID resourceType resourceID SubjectUser userID Owner
                                (Some userID) 0 None) in
    st_ret tt.

Definition authz_DropResource (tenantID resourceType resourceID : string) : ST St unit :=
  as_DeleteGrantsOfResource tenantID resourceType resourceID.

Definition authz_ListGrants (now : Z) (s : Subjects) (resourceType resourceID : string) (st : St)
  : res (list Grant) :=
  let? (perms, _, _) := resolve now s resourceType resourceID st in
  if negb (p_Share perms) then Err authz_ErrForbidden
  else as_GrantsOnResource (sub_TenantID s) resourceType resourceID st.
End authorizer.

(** ** What the evaluator relies on *)
Class AuthzStoreLaws (St : Type) `{AuthzStore St} := {
  (** the integrity the store keeps *)
  as_inv : St -> Prop;
  (** the grants it holds *)
  as_held : St -> Grant -> Prop;
  as_on_spec t rt rid st gs : as_GrantsOnResource t rt rid st = Ok gs ->
    forall g, g ∈ gs <-> as_held st g /\ grant_on t rt rid g = true;
  as_for_spec t u rs now st gs : as_GrantsForSubjects t u rs now st = Ok gs ->
    forall g, g ∈ gs <-> as_held st g /\ grant_for t u rs now g = true;
  as_get_spec t id st g : as_inv st -> as_GetGrant t id st = Ok g ->
    as_held st g /\ grt_ID g = id /\ grt_TenantID g = t;
  as_upsert_spec g st g' st' : as_inv st -> (forall x, as_held st x -> grt_ID x <> grt_ID g) ->
    as_UpsertGrant g st = (Ok g', st') ->
    as_inv st' /\ grant_key g' = grant_key g /\ grt_Relation g' = grt_Relation g
    /\ grt_ExpiresAt g' = grt_ExpiresAt g
    /\ forall x, as_held st' x <-> x = g' \/ (as_held st x /\ grant_key x <> grant_key g);
  as_delete_spec t id st st' : as_inv st -> as_DeleteGrant t id st = (Ok tt, st') ->
    as_inv st' /\ forall x, as_held st' x <-> as_held st x /\ grt_ID x <> id;
  as_drop_spec t rt rid st st' : as_inv st -> as_DeleteGrantsOfResource t rt rid st = (Ok tt, st') ->
    as_inv st' /\ forall x, as_held st' x <-> as_held st x /\ grant_on t rt rid x = false;
}.

(** ** The decision on a list of grants *)

Lemma Has_union a b p : Has (union_perms a b) p = Has a p || Has b p.
Proof. unfold Has, union_perms; simpl. repeat case_match; done. Qed.
Lemma Has_none p : Has no_permissions p = false.
Proof. unfold Has; simpl. repeat case_match; done. Qed.
Lemma Has_owner p : Has (Of Owner) p = ValidPermission p.
Proof. unfold Has, ValidPermission; simpl. repeat case_match; done. Qed.
Lemma rank_nonneg r : 0 <= rank r.
Proof. unfold rank. repeat case_match; lia. Qed.
Lemma rank_le_owner r : rank r <= rank Owner.
Proof. unfold rank at 1. repeat case_match; vm_compute; congruence. Qed.

(** The grants that apply. *)
Definition applying (now : Z) (s : Subjects) (gs : list Grant) : list Grant :=
  List.filter (fun g => matches g s now) gs.

(** What [decide] computes, stated without its loop: [rel] is a strongest
    relation among those held. *)
Record decision (now : Z) (s : Subjects) (gs : list Grant)
  (p : Permissions) (rel : string) (src : list Grant) : Prop := {
  dec_sources : src = applying now s gs;
  dec_perms a : Has p a = (IsAdmin s && ValidPermission a)
                          || existsb (fun g => Has (Of (grt_Relation g)) a) (applying now s gs);
  dec_max g : g ∈ applying now s gs -> rank (grt_Relation g) <= rank rel;
  dec_admin : IsAdmin s = true -> rel = Owner;
  dec_held : rel = "" \/ (IsAdmin s = true /\ rel = Owner)
             \/ exists g, g ∈ applying now s gs /\ rel = grt_Relation g;
}.

Lemma decide_snoc now s gs g p rel src :
  decision now s gs p rel src ->
  let '(p', rel', src') := decide_grant s now (p, rel, src) g in
  decision now s (gs ++ [g]) p' rel' src'.
Proof.
  intros [Hs Hp Hm Ha Hh]. unfold decide_grant. destruct (matches g s now) eqn:Hg; simpl.
  - assert (Happ : applying now s (gs ++ [g]) = applying now s gs ++ [g])
      by (unfold applying; rewrite List.filter_app; simpl; by rewrite Hg).
    constructor; rewrite ?Happ.
    + by rewrite Hs.
    + intros a. rewrite Has_union, Hp, existsb_app. simpl. by rewrite orb_false_r, orb_assoc.
    + intros x. rewrite elem_of_app, list_elem_of_singleton.
      destruct (rank rel <? rank (grt_Relation g)) eqn:E; bools; intros [?%Hm| ->]; lia.
    + intros Had. rewrite (Ha Had). pose proof (rank_le_owner (grt_Relation g)).
      by rewrite (proj2 (Z.ltb_ge _ _)).
    + destruct (_ <? _).
      * right; right. exists g. split; [|done]. apply elem_of_app. right. by left.
      * destruct Hh as [?|[?|(x & ? & ?)]]; auto. right; right. exists x.
        split; [|done]. apply elem_of_app. by left.
  - assert (Happ : applying now s (gs ++ [g]) = applying now s gs)
      by (unfold applying; rewrite List.filter_app; simpl; by rewrite Hg, app_nil_r).
    constructor; by rewrite ?Happ.
Qed.

Lemma decide_decision now s gs p rel src :
  authz_decide now s gs = (p, rel, src) -> decision now s gs p rel src.
Proof.
  revert p rel src. induction gs as [|g gs IH] using rev_ind; intros p rel src.
  - unfold authz_decide. simpl. destruct (IsAdmin s) eqn:Ha; intros [= <- <- <-].
    + constructor; simpl; auto.
      * intros a. by rewrite Has_owner, Ha, orb_false_r.
      * by intros g ?%elem_of_nil.
    + constructor; simpl; auto.
      * intros a. by rewrite Has_none, Ha.
      * by intros g ?%elem_of_nil.
      * congruence.
  - unfold authz_decide in *. rewrite foldl_app. simpl.
    destruct (foldl _ _ gs) as [[p0 rel0] src0] eqn:E.
    pose proof (decide_snoc now s gs g p0 rel0 src0 (IH _ _ _ eq_refl)) as Hd.
    intros Hr. by rewrite Hr in Hd.
Qed.

(** The allowed actions, stated on the grants. *)
Definition allowed (now : Z) (s : Subjects) (gs : list Grant) (a : string) : Prop :=
  (IsAdmin s = true /\ ValidPermission a = true)
  \/ exists g, g ∈ gs /\ matches g s now = true /\ Has (Of (grt_Relation g)) a = true.

Lemma elem_of_applying now s gs g : g ∈ applying now s gs <-> g ∈ gs /\ matches g s now = true.
Proof. unfold applying. by rewrite list_elem_of_In, List.filter_In, <- list_elem_of_In. Qed.

Lemma decision_allowed now s gs p rel src a :
  decision now s gs p rel src -> Has p a = true <-> allowed now s gs a.
Proof.
  intros [_ Hp _ _ _]. rewrite Hp, orb_true_iff, andb_true_iff, existsb_exists. unfold allowed.
  split; (intros [?|(g & Hg & ?)]; [by left|right]; exists g).
  - apply list_elem_of_In, elem_of_applying in Hg as [??]. done.
  - destruct H. split; [|done]. apply list_elem_of_In, elem_of_applying. done.
Qed.

(** Holding [share] together with a relation at least as strong as the one
    handed out means holding every permission it carries: editor and sharer are
    not comparable, but an editor that can share holds both. *)
Lemma share_covers now s gs p rel src r a :
  decision now s gs p rel src -> p_Share p = true -> rank r <= rank rel ->
  Has (Of r) a = true -> Has p a = true.
Proof.
  intros Hd Hsh Hr Ha. rewrite (decision_allowed _ _ _ _ _ _ _ Hd).
  assert (Hshare : allowed now s gs Share)
    by (apply (decision_allowed _ _ _ _ _ _ _ Hd); exact Hsh).
  assert (Hval : ValidPermission a = true).
  { rewrite <- Has_owner. unfold Of, Has in *. repeat case_match; done. }
  destruct (dec_held _ _ _ _ _ _ Hd) as [->|[[Had _]|(g & Hg & Hrel)]].
  - exfalso. pose proof (rank_nonneg r). unfold rank, Of in *. simpl in Hr.
    repeat case_match; simplify_eq; try (simpl in Hr; lia). by rewrite Has_none in Ha.
  - by left.
  - apply elem_of_applying in Hg as [Hg Hm].
    destruct Hshare as [[Had _]|(g' & Hg' & Hm' & Hs')]; [by left|].
    destruct (Has (Of (grt_Relation g')) a) eqn:E'; [right; eauto 6|].
    right. exists g. split; [done|]. split; [done|]. subst rel.
    pose proof (dec_max _ _ _ _ _ _ Hd g' ltac:(by apply elem_of_applying)) as Hmax.
    clear -Ha Hr Hs' E' Hmax. unfold Of, rank in *.
    repeat case_match; simplify_eq; try done; try lia.
    all: unfold Has in *; repeat case_match; done.
Qed.

(** ** The in-memory store implements the interface *)
Section mem_instance.
Context `{GoRuntime}.

#[export] Instance mem_authz : AuthzStore Mem := {|
  as_GetCertificate := Mem_GetCertificate;
  as_GetIssuer := Mem_GetIssuer;
  as_UpsertGrant := Mem_UpsertGrant;
  as_GetGrant := Mem_GetGrant;
  as_DeleteGrant := Mem_DeleteGrant;
  as_GrantsOnResource := Mem_GrantsOnResource;
  as_GrantsForSubjects := Mem_GrantsForSubjects;
  as_DeleteGrantsOfResource := Mem_DeleteGrantsOfResource;
|}.

Definition mem_grants_inv (m : Mem) : Prop :=
  keyed grt_ID (m_Grants m) /\ uniq same_grant_key (m_Grants m).
Definition mem_held (m : Mem) (g : Grant) : Prop := exists k, m_Grants m !! k = Some g.

Lemma wf_grants_inv m : wf m -> mem_grants_inv m.
Proof. intros Hwf. split; apply Hwf. Qed.

Lemma elem_of_grants (f : Grant -> bool) m g :
  g ∈ sortGrants (filter (fun g => f g = true) (map_range (m_Grants m)).*2)
  <-> mem_held m g /\ f g = true.
Proof.
  unfold sortGrants, sortAsc. rewrite elem_of_sort_slice, list_elem_of_filter, list_elem_of_fmap.
  unfold mem_held. split.
  - intros [Hf ([k x] & -> & Hk%elem_of_map_range)]. eauto.
  - intros [[k Hk] Hf]. split; [done|]. exists (k, g). by rewrite elem_of_map_range.
Qed.

Lemma mem_on_spec t rt rid m gs :
  Mem_GrantsOnResource t rt rid m = Ok gs ->
  forall g, g ∈ gs <-> mem_held m g /\ grant_on t rt rid g = true.
Proof.
  unfold Mem_GrantsOnResource, fail_read. case_match; [done|]. intros [= <-] g.
  by rewrite elem_of_grants.
Qed.
Lemma mem_for_spec t u rs now m gs :
  Mem_GrantsForSubjects t u rs now m = Ok gs ->
  forall g, g ∈ gs <-> mem_held m g /\ grant_for t u rs now g = true.
Proof.
  unfold Mem_GrantsForSubjects, fail_read. case_match; [done|]. intros [= <-] g.
  by rewrite elem_of_grants.
Qed.
Lemma mem_get_spec t id m g :
  mem_grants_inv m -> Mem_GetGrant t id m = Ok g ->
  mem_held m g /\ grt_ID g = id /\ grt_TenantID g = t.
Proof.
  intros [Hk _]. unfold Mem_GetGrant, fail_read. case_match; [done|].
  destruct (m_Grants m !! id) as [x|] eqn:E; [|done]. case_match; [|done]. bools.
  intros [= <-]. split_and!; [by exists id|by apply Hk|done].
Qed.
(** A write under one key, as the set of grants held. *)
Lemma held_insert (tbl : gmap string Grant) k x g :
  (exists k', <[k := x]> tbl !! k' = Some g)
  <-> g = x \/ exists k', k' <> k /\ tbl !! k' = Some g.
Proof.
  split.
  - intros [k' Hk']. apply lookup_insert_Some in Hk' as [[_ ?]|[? ?]]; [by left|right]. eauto.
  - intros [->|(k' & Hne & Hk')]; [exists k; apply lookup_insert_eq|].
    exists k'. by rewrite lookup_insert_ne.
Qed.
Lemma mem_upsert_spec g m g' m' :
  mem_grants_inv m -> (forall x, mem_held m x -> grt_ID x <> grt_ID g) ->
  Mem_UpsertGrant g m = (Ok g', m') ->
  mem_grants_inv m' /\ grant_key g' = grant_key g /\ grt_Relation g' = grt_Relation g
  /\ grt_ExpiresAt g' = grt_ExpiresAt g
  /\ forall x, mem_held m' x <-> x = g' \/ (mem_held m x /\ grant_key x <> grant_key g).
Proof.
  intros [Hk Hu] Hfresh. unfold Mem_UpsertGrant, fail_write. case_match; [done|].
  destruct (filter _ _) as [|[k x] l] eqn:E; intros [= <- <-].
  - assert (Hno : forall k x, m_Grants m !! k = Some x -> ~ same_grant_key x g).
    { intros k x Hx Hs. apply (filter_nil_not (same_grant g) _ _ _ E) in Hx.
      by rewrite (proj2 (same_grant_spec g x) Hs) in Hx. }
    split_and!; [|done..|].
    + split; simpl; [by apply keyed_insert|]. apply uniq_insert; [done..|]. intros k x _ Hx. eauto.
    + intros x. unfold mem_held. simpl. rewrite held_insert. split; (intros [->|Hx]; [by left|right]).
      * destruct Hx as (k & _ & Hx). split; [eauto|]. by eapply Hno.
      * destruct Hx as [[k Hx] _]. exists k. split; [|done]. intros ->.
        apply (Hfresh x); [by exists (grt_ID g)|by apply Hk].
  - apply (filter_cons_is (same_grant g)) in E as [Hx Hs]. apply same_grant_spec in Hs.
    assert (Hkey : grant_key x = grant_key g) by exact Hs.
    split_and!; [|exact Hkey|done..|].
    + split; simpl; [by eapply keyed_replace|]. eapply uniq_replace; eauto. done.
    + intros y. unfold mem_held. simpl. rewrite held_insert. split; (intros [->|Hy]; [by left|right]).
      * destruct Hy as (k' & Hne & Hy). split; [eauto|]. intros Hk'. apply Hne.
        eapply Hu; [exact Hy|exact Hx|]. unfold same_grant_key. congruence.
      * destruct Hy as [[k' Hy] Hne]. exists k'. split; [|done]. intros ->. simplify_eq.
Qed.
Lemma mem_delete_spec t id m m' :
  mem_grants_inv m -> Mem_DeleteGrant t id m = (Ok tt, m') ->
  mem_grants_inv m' /\ forall x, mem_held m' x <-> mem_held m x /\ grt_ID x <> id.
Proof.
  intros [Hk Hu]. unfold Mem_DeleteGrant, fail_write. case_match; [done|].
  destruct (m_Grants m !! id) as [g|] eqn:E; [|done]. case_match; [done|]. intros [= <-].
  split; [split; simpl; [by apply keyed_delete|by apply uniq_delete]|].
  intros x. unfold mem_held. simpl. split.
  - intros [k Hx]. apply lookup_delete_Some in Hx as [? Hx]. split; [eauto|].
    rewrite (Hk _ _ Hx). done.
  - intros [[k Hx] Hne]. exists k. apply lookup_delete_Some. split; [|done].
    rewrite <- (Hk _ _ Hx). done.
Qed.
Lemma mem_drop_spec t rt rid m m' :
  mem_grants_inv m -> Mem_DeleteGrantsOfResource t rt rid m = (Ok tt, m') ->
  mem_grants_inv m' /\ forall x, mem_held m' x <-> mem_held m x /\ grant_on t rt rid x = false.
Proof.
  intros [Hk Hu]. unfold Mem_DeleteGrantsOfResource, fail_write. case_match; [done|].
  intros [= <-]. split; [split; simpl; [by apply keyed_filter|by apply uniq_filter]|].
  intros x. unfold mem_held. simpl. setoid_rewrite map_lookup_filter_Some. naive_solver.
Qed.

#[export] Instance mem_authz_laws : AuthzStoreLaws Mem := {|
  as_inv := mem_grants_inv;
  as_held := mem_held;
  as_on_spec := mem_on_spec;
  as_for_spec := mem_for_spec;
  as_get_spec := mem_get_spec;
  as_upsert_spec := mem_upsert_spec;
  as_delete_spec := mem_delete_spec;
  as_drop_spec := mem_drop_spec;
|}.
End mem_instance.

(** ** Theorems, for every store that keeps the laws *)
Section decisions.
Context {St : Type} `{HL : AuthzStoreLaws St}.

(** The grants of a resource that the store holds. *)
Definition permitted (now : Z) (s : Subjects) (rt rid a : string) (st : St) : Prop :=
  (IsAdmin s = true /\ ValidPermission a = true)
  \/ exists g, as_held st g /\ grant_on (sub_TenantID s) rt rid g = true
       /\ matches g s now = true /\ Has (Of (grt_Relation g)) a = true.

Lemma allowed_permitted now s rt rid a st gs :
  as_GrantsOnResource (sub_TenantID s) rt rid st = Ok gs ->
  allowed now s gs a <-> permitted now s rt rid a st.
Proof.
  intros Hg. unfold allowed, permitted. setoid_rewrite (as_on_spec _ _ _ _ _ Hg). naive_solver.
Qed.
Lemma resolve_inv now s rt rid st p rel src :
  resolve now s rt rid st = Ok (p, rel, src) ->
  locate (sub_TenantID s) rt rid st = Ok tt
  /\ exists gs, as_GrantsOnResource (sub_TenantID s) rt rid st = Ok gs
       /\ decision now s gs p rel src.
Proof.
  unfold resolve. destruct (locate _ _ _ _) as [[]|]; simpl; [|done].
  destruct (as_GrantsOnResource _ _ _ _) as [gs|]; simpl; [|done]. intros [= Hd].
  split; [done|]. exists gs. split; [done|]. by apply decide_decision.
Qed.
Lemma resolve_permitted now s rt rid st p rel src a :
  resolve now s rt rid st = Ok (p, rel, src) ->
  Has p a = true <-> permitted now s rt rid a st.
Proof.
  intros (_ & gs & Hg & Hd)%resolve_inv. rewrite (decision_allowed _ _ _ _ _ _ _ Hd).
  by apply allowed_permitted.
Qed.

Lemma grant_for_matches s now g :
  grant_for (sub_TenantID s) (sub_UserID s) (sub_Roles s) now g
  = (grt_TenantID g =s sub_TenantID s) && matches g s now.
Proof.
  unfold grant_for, matches, contains, SubjectUser, SubjectRole, SubjectTenant.
  destruct (grt_TenantID g =s sub_TenantID s); simpl; [|done].
  destruct (match grt_ExpiresAt g with Some e => _ | None => _ end); [done|].
  case_match; [|done]. destruct (sub_UserID s =s ""), (grt_SubjectID g =s sub_UserID s); done.
Qed.
Lemma grant_on_spec t rt rid g :
  grant_on t rt rid g = true
  <-> grt_TenantID g = t /\ grt_ResourceType g = rt /\ grt_ResourceID g = rid.
Proof. unfold grant_on. rewrite !andb_true_iff, !str_eqb_eq. naive_solver. Qed.
Lemma elem_of_accessible rt gs (ids : gset string) id :
  id ∈ foldl (fun (ids : gset string) g =>
                if (grt_ResourceType g =s rt) && p_Read (Of (grt_Relation g))
                then {[grt_ResourceID g]} ∪ ids else ids) ids gs
  <-> id ∈ ids \/ exists g, g ∈ gs /\ grt_ResourceType g = rt
        /\ p_Read (Of (grt_Relation g)) = true /\ grt_ResourceID g = id.
Proof.
  revert ids. induction gs as [|g gs IH]; intros ids; simpl; [set_solver|].
  rewrite IH. setoid_rewrite elem_of_cons. destruct (_ && _) eqn:E.
  - bools. set_solver.
  - apply andb_false_iff in E. split; [set_solver|].
    intros [?|(x & [->|?] & Hx & Hr & ?)]; [set_solver| |set_solver].
    destruct E as [E|E]; bools; congruence.
Qed.
Lemma authz_Grant_inv now id s i st g st' :
  authz_Grant now id s i st = (Ok g, st') ->
  validate_grant now i = Ok tt
  /\ (exists p rel src, resolve now s (gin_ResourceType i) (gin_ResourceID i) st = Ok (p, rel, src)
        /\ p_Share p = true /\ rank (gin_Relation i) <= rank rel)
  /\ as_UpsertGrant (grant_row id s i) st = (Ok g, st').
Proof.
  unfold authz_Grant, st_bind, st_lift, st_read, st_guard.
  destruct (validate_grant _ _) as [[]|]; [|done].
  destruct (resolve _ _ _ _ _) as [[[p rel] src]|] eqn:E; [|done].
  destruct (p_Share p) eqn:Hs; [|done]. destruct (_ <? _) eqn:Hr; [done|]. simpl. bools. eauto 10.
Qed.

(** C3. [Check] allows an action exactly when the request is well formed, the
    resource exists in the caller's tenant and the caller is an administrator
    of the tenant or an unexpired grant on that resource to them, one of their
    roles or the tenant carries the action; and it answers forbidden exactly
    when only the permission is missing (or the store itself says so). *)
Theorem Check_sound_complete now s rt rid a st :
  (authz_Check now s rt rid a st = Ok tt <->
     ValidResourceType rt = true /\ ValidPermission a = true
     /\ locate (sub_TenantID s) rt rid st = Ok tt
     /\ is_ok (as_GrantsOnResource (sub_TenantID s) rt rid st) = true
     /\ permitted now s rt rid a st)
  /\ (authz_Check now s rt rid a st = Err authz_ErrForbidden <->
     ValidResourceType rt = true /\ ValidPermission a = true
     /\ ((locate (sub_TenantID s) rt rid st = Ok tt
          /\ is_ok (as_GrantsOnResource (sub_TenantID s) rt rid st) = true
          /\ ~ permitted now s rt rid a st)
         \/ resolve now s rt rid st = Err authz_ErrForbidden)).
Proof.
  unfold authz_Check. destruct (ValidResourceType rt), (ValidPermission a); simpl; try naive_solver.
  destruct (resolve now s rt rid st) as [[[p rel] src]|e] eqn:E; simpl.
  - pose proof (resolve_permitted _ _ _ _ _ _ _ _ a E) as Hp.
    apply resolve_inv in E as (Hl & gs & Hg & _). rewrite Hl, Hg. simpl.
    destruct (Has p a); simpl; naive_solver.
  - revert E. unfold resolve. destruct (locate _ _ _ _) as [[]|]; simpl; [|naive_solver].
    destruct (as_GrantsOnResource _ _ _ _); simpl; naive_solver.
Qed.

(** [Effective] reports every grant that applies, the union of their
    permissions and a strongest relation among them (owner for an
    administrator). *)
Theorem Effective_strongest now s rt rid st p rel src :
  authz_Effective now s rt rid st = Ok (p, rel, src) ->
  (forall g, g ∈ src <-> as_held st g /\ grant_on (sub_TenantID s) rt rid g = true
                        /\ matches g s now = true)
  /\ (forall g, g ∈ src -> rank (grt_Relation g) <= rank rel)
  /\ (if IsAdmin s then rel = Owner
      else (src = [] /\ rel = "") \/ exists g, g ∈ src
           /\ rank (grt_Relation g) = rank rel /\ (rel = grt_Relation g \/ rel = ""))
  /\ (forall a, Has p a = true <-> permitted now s rt rid a st).
Proof.
  unfold authz_Effective. destruct (ValidResourceType rt); simpl; [|done]. intros E.
  pose proof (fun a => resolve_permitted _ _ _ _ _ _ _ _ a E) as Hp.
  apply resolve_inv in E as (_ & gs & Hg & [-> _ Hm Ha Hh]).
  split_and!; [|done| |done].
  - intros g. rewrite elem_of_applying, (as_on_spec _ _ _ _ _ Hg). naive_solver.
  - destruct (IsAdmin s) eqn:Had; [by apply Ha|].
    destruct Hh as [->|[[? _]|(g & Hin & ->)]]; [|congruence|eauto 6].
    destruct (applying now s gs) as [|g l] eqn:El; [by left|right]. exists g.
    assert (Hin : g ∈ g :: l) by left. split; [done|]. specialize (Hm g Hin).
    pose proof (rank_nonneg (grt_Relation g)). change (rank "") with 0 in *. split; [lia|by right].
Qed.

(** C4. Nobody hands out what they do not hold: a grant is accepted only from a
    caller who may share the resource, and every permission of the relation
    granted is one the caller holds on it. *)
Theorem Grant_no_escalation now id s i st g st' :
  authz_Grant now id s i st = (Ok g, st') ->
  permitted now s (gin_ResourceType i) (gin_ResourceID i) Share st
  /\ forall a, Has (Of (gin_Relation i)) a = true ->
       permitted now s (gin_ResourceType i) (gin_ResourceID i) a st.
Proof.
  intros (_ & (p & rel & src & Hres & Hs & Hr) & _)%authz_Grant_inv. split.
  - by rewrite <- (resolve_permitted _ _ _ _ _ _ _ _ Share Hres).
  - intros a Ha. rewrite <- (resolve_permitted _ _ _ _ _ _ _ _ a Hres).
    apply resolve_inv in Hres as (_ & gs & _ & Hd). by eapply share_covers.
Qed.

(** A grant takes effect as asked and touches no other: afterwards the
    subjects it names hold its permissions until it expires, and every grant of
    another resource or subject is held as before. *)
Theorem Grant_effective now id s i st g st' :
  as_inv st -> (forall x, as_held st x -> grt_ID x <> id) ->
  authz_Grant now id s i st = (Ok g, st') ->
  (forall s' now' a, sub_TenantID s' = sub_TenantID s ->
     matches (grant_row id s i) s' now' = true -> Has (Of (gin_Relation i)) a = true ->
     permitted now' s' (gin_ResourceType i) (gin_ResourceID i) a st')
  /\ (forall x, grant_key x <> grant_key (grant_row id s i) -> as_held st' x <-> as_held st x).
Proof.
  intros Hinv Hf (_ & _ & Hu)%authz_Grant_inv.
  apply as_upsert_spec in Hu as (_ & Hk & Hrel & Hexp & Hh); [|done..].
  injection Hk as E1 E2 E3 E4 E5. simpl in *. split.
  - intros s' now' a Ht Hm Ha. right. exists g. split_and!.
    + apply Hh. by left.
    + apply grant_on_spec. split_and!; congruence.
    + rewrite <- Hm. unfold matches. simpl. by rewrite E4, E5, Hexp.
    + by rewrite Hrel.
  - intros x Hne. rewrite Hh. split; [|naive_solver]. intros [->|[? _]]; [|done].
    exfalso. apply Hne. unfold grant_key. simpl. congruence.
Qed.

(** Revoking needs [share] on the resource of the grant and removes that
    grant only. *)
Theorem Revoke_removes now s id st st' :
  as_inv st -> authz_Revoke now s id st = (Ok tt, st') ->
  exists g, as_held st g /\ grt_ID g = id /\ grt_TenantID g = sub_TenantID s
    /\ permitted now s (grt_ResourceType g) (grt_ResourceID g) Share st
    /\ forall x, as_held st' x <-> as_held st x /\ grt_ID x <> id.
Proof.
  intros Hinv. unfold authz_Revoke, st_bind, st_read, st_guard.
  destruct (as_GetGrant _ _ _) as [g|e] eqn:Hg; simpl; [|by destruct (errors_is _ _ _)].
  destruct (resolve _ _ _ _ _) as [[[p rel] src]|] eqn:E; [|done].
  destruct (p_Share p) eqn:Hs; [|done].
  destruct (as_DeleteGrant _ _ _) as [[[]|e] st1] eqn:Hd; simpl; [|by destruct (errors_is _ _ _)].
  intros [= <-]. apply as_get_spec in Hg as (Hh & Hid & Ht); [|done].
  apply as_delete_spec in Hd as [_ Hd]; [|done]. exists g. split_and!; try done.
  by rewrite <- (resolve_permitted _ _ _ _ _ _ _ _ Share E).
Qed.

(** What the listing filter lets through is what the caller may read. *)
Lemma accessible_permitted now s rt st ids all :
  authz_ListAccessibleIDs now s rt st = Ok (ids, all) ->
  all = IsAdmin s
  /\ forall id, all || bool_decide (id ∈ ids) = true <-> permitted now s rt id Read st.
Proof.
  unfold authz_ListAccessibleIDs. destruct (ValidResourceType rt) eqn:Hv; simpl; [|done].
  destruct (IsAdmin s) eqn:Ha.
  { intros [= <- <-]. split; [done|]. intros id. split; [|done]. intros _. by left. }
  destruct (as_GrantsForSubjects _ _ _ _ _) as [gs|] eqn:Hg; simpl; [|done].
  intros [= <- <-]. split; [done|]. intros id. rewrite orb_false_l, bool_decide_eq_true.
  rewrite elem_of_accessible. unfold permitted. rewrite Ha.
  setoid_rewrite (as_for_spec _ _ _ _ _ _ Hg). setoid_rewrite grant_for_matches.
  setoid_rewrite grant_on_spec. setoid_rewrite andb_true_iff. setoid_rewrite str_eqb_eq.
  set_solver.
Qed.

(** The listing filter agrees with the per-resource decision: a caller who
    is not an administrator is listed exactly the identifiers on which they are
    permitted to read, and only administrators list everything. *)
Theorem ListAccessibleIDs_agrees now s rt st ids all :
  authz_ListAccessibleIDs now s rt st = Ok (ids, all) ->
  all = IsAdmin s
  /\ (all = false -> forall id, id ∈ ids <-> permitted now s rt id Read st)
  /\ (all = false -> forall id, locate (sub_TenantID s) rt id st = Ok tt ->
        is_ok (as_GrantsOnResource (sub_TenantID s) rt id st) = true ->
        id ∈ ids <-> authz_Check now s rt id Read st = Ok tt).
Proof.
  intros Hl. assert (Hv : ValidResourceType rt = true)
    by (unfold authz_ListAccessibleIDs in Hl; by destruct (ValidResourceType rt)).
  apply accessible_permitted in Hl as [Hall Hids]. split; [done|].
  assert (Hid : all = false -> forall id, id ∈ ids <-> permitted now s rt id Read st)
    by (intros -> id; by rewrite <- Hids, orb_false_l, bool_decide_eq_true).
  split; [done|]. intros Ha id Hl Hok. rewrite (Hid Ha).
  unfold authz_Check. rewrite Hv. simpl. unfold resolve. rewrite Hl. simpl.
  destruct (as_GrantsOnResource _ _ _ _) as [gs'|] eqn:Hg'; [|done]. simpl.
  destruct (authz_decide now s gs') as [[p rel] src] eqn:Hd. simpl.
  rewrite <- (allowed_permitted _ _ _ _ _ _ _ Hg').
  rewrite <- (decision_allowed _ _ _ _ _ _ _ (decide_decision _ _ _ _ _ _ Hd)).
  destruct (Has p Read); naive_solver.
Qed.
End decisions.

(** ** Witnesses: an owner shares an issuer with a colleague *)
Module AuthzSample.
#[local] Existing Instance std_runtime.

Definition alice : Subjects := mkSubjects "t1" "alice" [] "".
Definition bob : Subjects := mkSubjects "t1" "bob" ["ops"] "".
Definition shared_store : Mem :=
  (authz_GrantOwner "g1" "t1" IssuerType "i1" "alice" sample_store).2.
Definition to_ops : GrantInput := mkGrantInput IssuerType "i1" SubjectRole "ops" Editor (Some 900).
Definition granted_store : Mem := (authz_Grant 100 "g2" alice to_ops shared_store).2.
Definition ops_grant : Grant :=
  mkGrant "g2" "t1" "issuer" "i1" "role" "ops" "editor" (Some "alice") 100 (Some 900).

Definition alice_grant : Grant :=
  mkGrant "g1" "t1" "issuer" "i1" "user" "alice" "owner" (Some "alice") 100 None.

Lemma sample_no_grants x : ~ mem_held sample_store x.
Proof. intros [k Hk]. change (m_Grants sample_store) with (∅ : gmap string Grant) in Hk.
  by rewrite lookup_empty in Hk. Qed.
Lemma shared_spec : mem_grants_inv shared_store
  /\ forall x, mem_held shared_store x <-> x = alice_grant.
Proof.
  destruct (mem_upsert_spec (alice_grant <| grt_GrantedAt := 0 |>) sample_store alice_grant
              shared_store) as (Hi & _ & _ & _ & Hx).
  - split; [apply keyed_empty|apply uniq_empty].
  - by intros x ?%sample_no_grants.
  - vm_compute. reflexivity.
  - split; [exact Hi|]. intros x. rewrite Hx. pose proof (sample_no_grants x). tauto.
Qed.
Lemma granted_run : authz_Grant 100 "g2" alice to_ops shared_store = (Ok ops_grant, granted_store).
Proof. vm_compute. reflexivity. Qed.

Lemma Check_sound_complete_witness :
  authz_Check 200 bob IssuerType "i1" Use granted_store = Ok tt
  /\ permitted 200 bob IssuerType "i1" Use granted_store
  /\ authz_Check 900 bob IssuerType "i1" Use granted_store = Err authz_ErrForbidden.
Proof.
  split; [vm_compute; reflexivity|]. split; [|vm_compute; reflexivity].
  apply (Check_sound_complete 200 bob IssuerType "i1" Use granted_store).
  vm_compute. reflexivity.
Defined.
Lemma Effective_strongest_witness :
  exists p rel src, authz_Effective 200 bob IssuerType "i1" granted_store = Ok (p, rel, src)
    /\ rel = Editor /\ (Has p Use = true <-> permitted 200 bob IssuerType "i1" Use granted_store).
Proof.
  eexists _, _, _. split; [vm_compute; reflexivity|]. split; [reflexivity|].
  eapply Effective_strongest. vm_compute. reflexivity.
Defined.
Lemma Grant_no_escalation_witness :
  permitted 100 alice IssuerType "i1" Write shared_store.
Proof. apply (Grant_no_escalation _ _ _ _ _ _ _ granted_run). vm_compute. reflexivity. Defined.
Lemma Grant_effective_witness : permitted 200 bob IssuerType "i1" Write granted_store.
Proof.
  refine (proj1 (Grant_effective 100 "g2" alice to_ops shared_store ops_grant granted_store
                   (proj1 shared_spec) _ granted_run) bob 200 Write eq_refl _ _).
  - intros x Hx%(proj2 shared_spec). subst x. discriminate.
  - vm_compute. reflexivity.
  - vm_compute. reflexivity.
Defined.
Lemma Revoke_removes_witness :
  exists st', authz_Revoke 100 alice "g1" shared_store = (Ok tt, st')
    /\ exists g, as_held shared_store g /\ grt_ID g = "g1" /\ ~ as_held st' g.
Proof.
  eexists. split; [vm_compute; reflexivity|].
  destruct (Revoke_removes (HL := mem_authz_laws) 100 alice "g1" shared_store
              (authz_Revoke 100 alice "g1" shared_store).2 (proj1 shared_spec))
    as (g & Hg & Hid & _ & _ & Hst).
  - vm_compute. reflexivity.
  - exists g. split; [exact Hg|]. split; [exact Hid|]. intros Hn. apply Hst in Hn. tauto.
Defined.
Lemma ListAccessibleIDs_agrees_witness :
  exists ids, authz_ListAccessibleIDs 200 bob IssuerType granted_store = Ok (ids, false)
    /\ ("i1" ∈ ids <-> permitted 200 bob IssuerType "i1" Read granted_store).
Proof.
  eexists. split; [vm_compute; reflexivity|].
  eapply (ListAccessibleIDs_agrees 200 bob IssuerType granted_store _ false); [|reflexivity].
  vm_compute. reflexivity.
Defined.
End AuthzSample.
