(* ===== verification/GoJson.v ===== *)
(** encoding/json, as far as the code uses it: [json.Marshal] of strings,
    booleans, integers, slices and maps with string keys, and [json.Unmarshal]
    into [any] and into [[]string].

    An [any] value holds one of those, or a value of another type, known by the
    text [json.Marshal] gives for it ([AOther], [None] when it fails); a JSON
    number read back is kept as its text. *)

From S2P Require Import Prelude.

Inductive any : Type :=
| ANil
| ABool (b : bool)
| AInt (z : Z)
| ANum (text : string)
| AStr (s : string)
| AMap (m : list (string * any))
| AList (l : list any)
| AOther (json : option string).

Definition quote : Ascii.ascii := Ascii.ascii_of_N 34.
Definition backslash : Ascii.ascii := Ascii.ascii_of_N 92.
Definition chr (n : Z) : Ascii.ascii := Ascii.ascii_of_N (Z.to_N n).
Definition str1 (c : Ascii.ascii) : string := String c EmptyString.

(** ** UTF-8 *)

(** The length of the valid encoding a string starts with, 0 if there is none
    ([utf8.DecodeRune]). *)
Definition between (lo hi : Z) (c : Ascii.ascii) : bool := (lo <=? byte_of c) && (byte_of c <=? hi).
Definition utf8_size (s : string) : nat :=
  match s with
  | EmptyString => 0%nat
  | String c s1 =>
    let b := byte_of c in
    if b <? 128 then 1%nat
    else if (194 <=? b) && (b <=? 223) then
      match s1 with
      | String c1 _ => if between 128 191 c1 then 2%nat else 0%nat
      | _ => 0%nat
      end
    else if (224 <=? b) && (b <=? 239) then
      match s1 with
      | String c1 (String c2 _) =>
        if between (if b =? 224 then 160 else 128) (if b =? 237 then 159 else 191) c1
           && between 128 191 c2 then 3%nat else 0%nat
      | _ => 0%nat
      end
    else if (240 <=? b) && (b <=? 244) then
      match s1 with
      | String c1 (String c2 (String c3 _)) =>
        if between (if b =? 240 then 144 else 128) (if b =? 244 then 143 else 191) c1
           && between 128 191 c2 && between 128 191 c3 then 4%nat else 0%nat
      | _ => 0%nat
      end
    else 0%nat
  end.

(** [utf8.ValidString]; [k] bytes of the current encoding remain. *)
Fixpoint utf8_valid_from (k : nat) (s : string) : bool :=
  match s with
  | EmptyString => true
  | String _ s' =>
    match k with
    | S k' => utf8_valid_from k' s'
    | O => match utf8_size s with
           | O => false
           | S n => utf8_valid_from n s'
           end
    end
  end.
Definition utf8_valid (s : string) : bool := utf8_valid_from 0 s.

(** ** Encoding *)

Definition hex4 (n : Z) : Ascii.ascii := chr (if n <? 10 then 48 + n else 87 + n).
(** The escape of an ASCII byte; json.Marshal also escapes HTML characters. *)
Definition esc_ascii (c : Ascii.ascii) : string :=
  let b := byte_of c in
  let e x := String backslash (str1 x) in
  if (b =? 34) || (b =? 92) then String backslash (str1 c)
  else if b =? 8 then e (chr 98)
  else if b =? 12 then e (chr 102)
  else if b =? 10 then e (chr 110)
  else if b =? 13 then e (chr 114)
  else if b =? 9 then e (chr 116)
  else if (b <? 32) || (b =? 60) || (b =? 62) || (b =? 38)
  then String backslash ("u00" +:+ str1 (hex4 (b / 16)) +:+ str1 (hex4 (b mod 16)))
  else str1 c.

(** Is the encoding at the head U+2028 or U+2029? *)
Definition line_separator (s : string) : option Ascii.ascii :=
  match s with
  | String c0 (String c1 (String c2 _)) =>
    if (byte_of c0 =? 226) && (byte_of c1 =? 128) then
      if byte_of c2 =? 168 then Some (chr 56)
      else if byte_of c2 =? 169 then Some (chr 57) else None
    else None
  | _ => None
  end.

(** [emit] bytes of the current encoding remain to be copied, [skip] to be
    passed over. *)
Fixpoint json_escape (emit skip : nat) (s : string) : string :=
  match s with
  | EmptyString => EmptyString
  | String c s' =>
    match skip, emit with
    | S k, _ => json_escape emit k s'
    | O, S k => String c (json_escape k 0 s')
    | O, O =>
      if is_ascii_byte c then esc_ascii c +:+ json_escape 0 0 s'
      else match utf8_size s with
           | O => String backslash ("ufffd" +:+ json_escape 0 0 s')
           | S n =>
             match line_separator s with
             | Some d => String backslash ("u202" +:+ str1 d +:+ json_escape 0 n s')
             | None => String c (json_escape n 0 s')
             end
           end
    end
  end.
Definition json_string (s : string) : string :=
  String quote (json_escape 0 0 s +:+ str1 quote).

(** Decimal digits of a non-negative number; [fuel] bounds their count. *)
Fixpoint digits (fuel : nat) (z : Z) (acc : string) : string :=
  match fuel with
  | O => acc
  | S n => let acc := String (chr (48 + z mod 10)) acc in
           if z <? 10 then acc else digits n (z / 10) acc
  end.
(** [strconv.FormatInt(z, 10)] and [big.Int.String]: an int64 has at most 19
    digits, a serial number (at most 2^128) at most 39. *)
Definition FormatInt (z : Z) : string :=
  if z <? 0 then String (chr 45) (digits 40 (- z) "") else digits 40 z "".

Definition json_join (l : list string) : string := String.concat "," l.

(** [json.Marshal]: maps are written in the order of their keys. *)
Fixpoint json_marshal (v : any) : option string :=
  match v with
  | ANil => Some "null"
  | ABool b => Some (if b then "true" else "false")
  | AInt z => Some (FormatInt z)
  | ANum t => Some t
  | AStr s => Some (json_string s)
  | AMap m =>
    (fix go (l : list (string * any)) (acc : list (string * string)) : option string :=
       match l with
       | [] => Some ("{" +:+ json_join ((fun kv => json_string kv.1 +:+ ":" +:+ kv.2) <$>
                 sort_slice (fun a b => str_ltb a.1 b.1) acc) +:+ "}")
       | (k, x) :: l' => match json_marshal x with
                         | Some t => go l' (acc ++ [(k, t)])
                         | None => None
                         end
       end) m []
  | AList l =>
    (fix go (l : list any) (acc : list string) : option string :=
       match l with
       | [] => Some ("[" +:+ json_join acc +:+ "]")
       | x :: l' => match json_marshal x with
                    | Some t => go l' (acc ++ [t])
                    | None => None
                    end
       end) l []
  | AOther j => j
  end.

(** [json.Marshal] of a [[]string]; nil is null. *)
Definition marshal_strings (l : option (list string)) : string :=
  match l with
  | None => "null"
  | Some l => "[" +:+ json_join (json_string <$> l) +:+ "]"
  end.

(** ** Decoding *)

Definition is_space (c : Ascii.ascii) : bool :=
  let b := byte_of c in (b =? 32) || (b =? 9) || (b =? 10) || (b =? 13).
Fixpoint skip_space (s : string) : string :=
  match s with
  | String c s' => if is_space c then skip_space s' else s
  | EmptyString => s
  end.

Definition hex_value (c : Ascii.ascii) : option Z :=
  let b := byte_of c in
  if (48 <=? b) && (b <=? 57) then Some (b - 48)
  else if (97 <=? b) && (b <=? 102) then Some (b - 87)
  else if (65 <=? b) && (b <=? 70) then Some (b - 55)
  else None.
Definition hex_rune (c1 c2 c3 c4 : Ascii.ascii) : option Z :=
  match hex_value c1, hex_value c2, hex_value c3, hex_value c4 with
  | Some a, Some b, Some c, Some d => Some (4096 * a + 256 * b + 16 * c + d)
  | _, _, _, _ => None
  end.
(** [utf8.EncodeRune]; surrogates become U+FFFD. *)
Definition encode_rune (r : Z) : string :=
  let cont z := chr (128 + z mod 64) in
  let three r := String (chr (224 + r / 4096)) (String (cont (r / 64)) (str1 (cont r))) in
  if r <? 128 then str1 (chr r)
  else if r <? 2048 then String (chr (192 + r / 64)) (str1 (cont r))
  else if (55296 <=? r) && (r <=? 57343) then three 65533
  else if r <? 65536 then three r
  else String (chr (240 + r / 262144))
         (String (cont (r / 4096)) (String (cont (r / 64)) (str1 (cont r)))).
Definition simple_escape (c : Ascii.ascii) : option Ascii.ascii :=
  let b := byte_of c in
  if (b =? 34) || (b =? 92) || (b =? 47) then Some c
  else if b =? 98 then Some (chr 8)
  else if b =? 102 then Some (chr 12)
  else if b =? 110 then Some (chr 10)
  else if b =? 114 then Some (chr 13)
  else if b =? 116 then Some (chr 9)
  else None.

Definition cons_string (t : string) (r : option (string * string)) : option (string * string) :=
  match r with Some (x, rest) => Some (t +:+ x, rest) | None => None end.
(** The text of a string literal up to its closing quote, and what follows;
    [k] bytes of the current encoding remain. *)
Fixpoint json_unquote (k : nat) (s : string) : option (string * string) :=
  match s with
  | EmptyString => None
  | String c s' =>
    match k with
    | S k' => cons_string (str1 c) (json_unquote k' s')
    | O =>
      let b := byte_of c in
      if b =? 34 then Some ("", s')
      else if b =? 92 then
        match s' with
        | String e s1 =>
          if byte_of e =? 117 then
            match s1 with
            | String h1 (String h2 (String h3 (String h4 s2))) =>
              match hex_rune h1 h2 h3 h4 with
              | None => None
              | Some r =>
                if (55296 <=? r) && (r <=? 56319) then
                  (* a high surrogate pairs with a following \u escape *)
                  match s2 with
                  | String x (String u (String g1 (String g2 (String g3 (String g4 s3))))) =>
                    match (if (byte_of x =? 92) && (byte_of u =? 117)
                           then hex_rune g1 g2 g3 g4 else None) with
                    | Some r2 =>
                      if (56320 <=? r2) && (r2 <=? 57343)
                      then cons_string (encode_rune (65536 + (r - 55296) * 1024 + (r2 - 56320)))
                             (json_unquote 0 s3)
                      else cons_string (encode_rune 65533) (json_unquote 0 s2)
                    | None => cons_string (encode_rune 65533) (json_unquote 0 s2)
                    end
                  | _ => cons_string (encode_rune 65533) (json_unquote 0 s2)
                  end
                else cons_string (encode_rune r) (json_unquote 0 s2)
              end
            | _ => None
            end
          else match simple_escape e with
               | Some x => cons_string (str1 x) (json_unquote 0 s1)
               | None => None
               end
        | EmptyString => None
        end
      else if b <? 32 then None
      else if b <? 128 then cons_string (str1 c) (json_unquote 0 s')
      else match utf8_size s with
           | O => cons_string (encode_rune 65533) (json_unquote 0 s')
           | S n => cons_string (str1 c) (json_unquote n s')
           end
    end
  end.

(** A maximal run of digits. *)
Definition is_digit (c : Ascii.ascii) : bool := between 48 57 c.
Fixpoint digit_run (s : string) : string * string :=
  match s with
  | String c s' => if is_digit c then let '(d, r) := digit_run s' in (String c d, r) else ("", s)
  | EmptyString => ("", s)
  end.
(** The JSON number grammar: an optional sign, 0 or a digit run that does not
    start with 0, an optional fraction, an optional exponent. *)
Definition json_number (s : string) : option (string * string) :=
  let '(sign, s) := match s with
                    | String c s' => if byte_of c =? 45 then ("-", s') else ("", s)
                    | EmptyString => ("", s)
                    end in
  match s with
  | EmptyString => None
  | String c s' =>
    if negb (is_digit c) then None
    else
      let '(int, s) := if byte_of c =? 48 then (str1 c, s') else digit_run s in
      let frac := match s with
                  | String d s1 =>
                    if byte_of d =? 46 then
                      let '(ds, s2) := digit_run s1 in
                      if ds =s "" then None else Some (String d ds, s2)
                    else Some ("", s)
                  | EmptyString => Some ("", s)
                  end in
      match frac with
      | None => None
      | Some (frac, s) =>
        let expo := match s with
                    | String e s1 =>
                      if (byte_of e =? 101) || (byte_of e =? 69) then
                        let '(sg, s2) := match s1 with
                                         | String x s2 =>
                                           if (byte_of x =? 43) || (byte_of x =? 45)
                                           then (str1 x, s2) else ("", s1)
                                         | EmptyString => ("", s1)
                                         end in
                        let '(ds, s3) := digit_run s2 in
                        if ds =s "" then None else Some (String e (sg +:+ ds), s3)
                      else Some ("", s)
                    | EmptyString => Some ("", s)
                    end in
        match expo with
        | None => None
        | Some (expo, rest) => Some (sign +:+ int +:+ frac +:+ expo, rest)
        end
      end
  end.

(** [x] then a continuation, past white space. *)
Definition head_byte (s : string) : Z :=
  match s with String c _ => byte_of c | EmptyString => -1 end.
Definition tail (s : string) : string :=
  match s with String _ s' => s' | EmptyString => EmptyString end.
Fixpoint strip_prefix (p s : string) : option string :=
  match p, s with
  | EmptyString, _ => Some s
  | String a p', String b s' => if bool_decide (a = b) then strip_prefix p' s' else None
  | String _ _, EmptyString => None
  end.
(** A later entry of an object replaces an earlier one. *)
Definition set_entry (m : list (string * any)) (k : string) (v : any) : list (string * any) :=
  List.filter (fun e => e.1 <>s k) m ++ [(k, v)].

(** One value and what follows; two nested calls shorten the text, so twice its
    length is enough [fuel]. *)
Fixpoint json_value (fuel : nat) (s : string) : option (any * string) :=
  match fuel with
  | O => None
  | S n =>
    let s := skip_space s in
    let b := head_byte s in
    if b =? 34 then
      match json_unquote 0 (tail s) with Some (t, r) => Some (AStr t, r) | None => None end
    else if b =? 123 then
      let s := skip_space (tail s) in
      if head_byte s =? 125 then Some (AMap [], tail s) else json_members n [] s
    else if b =? 91 then
      let s := skip_space (tail s) in
      if head_byte s =? 93 then Some (AList [], tail s) else json_elements n [] s
    else match strip_prefix "true" s, strip_prefix "false" s, strip_prefix "null" s with
         | Some r, _, _ => Some (ABool true, r)
         | _, Some r, _ => Some (ABool false, r)
         | _, _, Some r => Some (ANil, r)
         | _, _, _ => match json_number s with
                      | Some (t, r) => Some (ANum t, r)
                      | None => None
                      end
         end
  end
with json_elements (fuel : nat) (acc : list any) (s : string) : option (any * string) :=
  match fuel with
  | O => None
  | S n =>
    match json_value n s with
    | None => None
    | Some (v, r) =>
      let r := skip_space r in
      if head_byte r =? 44 then json_elements n (acc ++ [v]) (tail r)
      else if head_byte r =? 93 then Some (AList (acc ++ [v]), tail r)
      else None
    end
  end
with json_members (fuel : nat) (acc : list (string * any)) (s : string) : option (any * string) :=
  match fuel with
  | O => None
  | S n =>
    let s := skip_space s in
    if negb (head_byte s =? 34) then None
    else match json_unquote 0 (tail s) with
         | None => None
         | Some (k, r) =>
           let r := skip_space r in
           if negb (head_byte r =? 58) then None
           else match json_value n (tail r) with
                | None => None
                | Some (v, r) =>
                  let r := skip_space r in
                  if head_byte r =? 44 then json_members n (set_entry acc k v) (tail r)
                  else if head_byte r =? 125 then Some (AMap (set_entry acc k v), tail r)
                  else None
                end
         end
  end.

(** [json.Unmarshal] into an [any]: one value and nothing after it. *)
Definition json_unmarshal (s : string) : option any :=
  match json_value (2 * String.length s + 2) s with
  | Some (v, r) => if skip_space r =s "" then Some v else None
  | None => None
  end.

(** [_ = json.Unmarshal(raw, &list)] into a nil [[]string], the error dropped:
    a text that is not JSON leaves it nil; an element that is not a string
    leaves the empty string in its place; null leaves it nil. *)
Definition unmarshal_strings (raw : string) : option (list string) :=
  match json_unmarshal raw with
  | Some (AList l) => Some ((fun v => match v with AStr s => s | _ => "" end) <$> l)
  | _ => None
  end.

(** ** Round trip *)

Lemma str_cons_app c (a b : string) : String c a +:+ b = String c (a +:+ b).
Proof. done. Qed.
Lemma str_app_assoc (a b c : string) : (a +:+ b) +:+ c = a +:+ (b +:+ c).
Proof. induction a as [|x a IH]; [done|]. rewrite ?str_cons_app; simpl. by f_equal. Qed.
Lemma str_app_nil (a : string) : a +:+ "" = a.
Proof. induction a as [|x a IH]; [done|]. rewrite ?str_cons_app; simpl. by f_equal. Qed.
Lemma str_length_app (a b : string) :
  String.length (a +:+ b) = (String.length a + String.length b)%nat.
Proof. induction a as [|x a IH]; [done|]. rewrite ?str_cons_app; simpl. by f_equal. Qed.

(** An escaped ASCII byte reads back as itself. *)
Lemma unquote_ascii c t :
  is_ascii_byte c = true -> json_unquote 0 (esc_ascii c +:+ t) = cons_string (str1 c) (json_unquote 0 t).
Proof. destruct c as [[] [] [] [] [] [] [] []]; intros H; first [discriminate H | reflexivity]. Qed.

(** The bytes of one encoding are copied, so its length reads back the same. *)
Lemma utf8_size_copied c s n t :
  utf8_size (String c s) = S n -> is_ascii_byte c = false ->
  utf8_size (String c (json_escape n 0 s +:+ t)) = S n /\ (n <= String.length s)%nat.
Proof.
  unfold is_ascii_byte. intros Hs Ha. unfold utf8_size in *. rewrite Ha in *.
  destruct (_ && _) eqn:E2 in Hs; rewrite ?E2.
  { destruct s as [|c1 s]; [done|]. destruct (between 128 191 c1) eqn:Hb; [|done].
    injection Hs as <-. simpl. rewrite Hb. split; [done|lia]. }
  destruct (_ && _) eqn:E3 in Hs; rewrite ?E3.
  { destruct s as [|c1 [|c2 s]]; [done..|]. destruct (_ && between _ _ c2) eqn:Hb; [|done].
    injection Hs as <-. simpl. rewrite Hb. split; [done|lia]. }
  destruct (_ && _) eqn:E4 in Hs; rewrite ?E4; [|done].
  destruct s as [|c1 [|c2 [|c3 s]]]; [done..|]. destruct (_ && between _ _ c3) eqn:Hb; [|done].
  injection Hs as <-. simpl. rewrite Hb. split; [done|lia].
Qed.

Lemma line_separator_is s d :
  line_separator s = Some d ->
  exists s2, s = encode_rune (8232 + (byte_of d - 56)) +:+ s2 /\ (d = chr 56 \/ d = chr 57).
Proof.
  destruct s as [|c0 [|c1 [|c2 s2]]]; try done. simpl.
  destruct c0 as [[] [] [] [] [] [] [] []]; try done.
  destruct c1 as [[] [] [] [] [] [] [] []]; try done.
  destruct c2 as [[] [] [] [] [] [] [] []]; try done;
    intros [= <-]; exists s2; (split; [reflexivity|auto]).
Qed.

Lemma unquote_line_separator d t :
  d = chr 56 \/ d = chr 57 ->
  json_unquote 0 (String backslash ("u202" +:+ (str1 d +:+ t)))
  = cons_string (encode_rune (8232 + (byte_of d - 56))) (json_unquote 0 t).
Proof. intros [-> | ->]; reflexivity. Qed.

(** The bytes a string starts with when not ASCII are neither quotes nor
    escapes. *)
Lemma unquote_multibyte c s n :
  is_ascii_byte c = false -> utf8_size (String c s) = S n ->
  json_unquote 0 (String c s) = cons_string (str1 c) (json_unquote n s).
Proof.
  unfold is_ascii_byte. intros Ha Hs. bools.
  cbn [json_unquote]. rewrite Hs.
  destruct (byte_of c =? 34) eqn:E34; bools; [lia|].
  destruct (byte_of c =? 92) eqn:E92; bools; [lia|].
  destruct (byte_of c <? 32) eqn:E32; bools; [lia|].
  destruct (byte_of c <? 128) eqn:E128; bools; [lia|done].
Qed.

Lemma unquote_escape m s emit rest :
  (String.length s <= m)%nat -> (emit <= String.length s)%nat -> utf8_valid_from emit s = true ->
  json_unquote emit (json_escape emit 0 s +:+ String quote rest) = Some (s, rest).
Proof.
  revert s emit. induction m as [|m IH]; intros s emit Hm Hl Hv.
  { destruct s; simpl in *; [|lia]. by destruct emit; [|lia]. }
  destruct s as [|c s']; [by destruct emit; simpl in *; [|lia]|]. simpl in Hm, Hl.
  destruct emit as [|k].
  - cbn [json_escape]. destruct (is_ascii_byte c) eqn:Ha.
    + assert (H1 : utf8_size (String c s') = 1%nat) by (unfold utf8_size; unfold is_ascii_byte in Ha; by rewrite Ha).
      cbn [utf8_valid_from] in Hv. rewrite H1 in Hv.
      rewrite str_app_assoc, unquote_ascii by done. rewrite IH; [done|lia..|done].
    + cbn [utf8_valid_from] in Hv. destruct (utf8_size (String c s')) as [|n] eqn:Hs; [done|].
      destruct (line_separator (String c s')) as [d|] eqn:Hd.
      * apply line_separator_is in Hd as (s2 & Heq & Hd8). rewrite str_cons_app, !str_app_assoc.
        etransitivity; [exact (unquote_line_separator d _ Hd8)|].
        assert (Hs2 : json_escape 0 n s' = json_escape 0 0 s2 /\ utf8_valid_from 0 s2 = true
                      /\ (String.length s2 < String.length s')%nat).
        { destruct Hd8 as [-> | ->]; injection Heq as -> ->; injection Hs as <-; simpl; auto. }
        destruct Hs2 as (-> & Hv2 & Hl2). rewrite IH; [|lia..|done]. simpl. by rewrite Heq.
      * destruct (utf8_size_copied c s' n (String quote rest) Hs Ha) as [Hc Hn].
        rewrite str_cons_app.
        etransitivity; [exact (unquote_multibyte c _ n Ha Hc)|].
        rewrite IH; [done|lia..|done].
  - cbn [json_escape]. simpl in Hv. rewrite str_cons_app. simpl. rewrite IH; [done|lia..|done].
Qed.

Lemma unquote_json_string s rest :
  utf8_valid s = true ->
  exists t, json_string s +:+ rest = String quote t /\ json_unquote 0 t = Some (s, rest).
Proof.
  intros Hv. exists (json_escape 0 0 s +:+ String quote rest). split.
  - unfold json_string, str1. by rewrite str_cons_app, str_app_assoc.
  - apply (unquote_escape (String.length s)); [lia|lia|done].
Qed.
Lemma json_value_string n s rest :
  utf8_valid s = true -> json_value (S n) (json_string s +:+ rest) = Some (AStr s, rest).
Proof.
  intros (t & Ht & Hu)%(fun H => unquote_json_string s rest H). rewrite Ht. simpl. by rewrite Hu.
Qed.
Lemma json_elements_S n acc s :
  json_elements (S n) acc s =
  match json_value n s with
  | None => None
  | Some (v, r) =>
    let r := skip_space r in
    if head_byte r =? 44 then json_elements n (acc ++ [v]) (tail r)
    else if head_byte r =? 93 then Some (AList (acc ++ [v]), tail r)
    else None
  end.
Proof. reflexivity. Qed.
Lemma json_elements_strings n l acc :
  l <> [] -> (2 * length l <= n)%nat -> Forall (fun s => utf8_valid s = true) l ->
  json_elements n acc (json_join (json_string <$> l) +:+ "]")
  = Some (AList (acc ++ (AStr <$> l)), "").
Proof.
  revert n acc. induction l as [|s l IH]; intros n acc Hne Hn Hv; [done|].
  apply Forall_cons in Hv as [Hs Hv]. simpl in Hn. destruct n as [|[|n]]; [lia..|].
  destruct l as [|s2 l].
  - change (json_join (json_string <$> [s])) with (json_string s).
    rewrite json_elements_S, (json_value_string n s "]" Hs). reflexivity.
  - change (json_join (json_string <$> s :: s2 :: l))
      with (json_string s +:+ ("," +:+ json_join (json_string <$> s2 :: l))).
    rewrite str_app_assoc. rewrite json_elements_S, (json_value_string n s _ Hs).
    change (skip_space (("," +:+ json_join (json_string <$> s2 :: l)) +:+ "]"))
      with (String (chr 44) (json_join (json_string <$> s2 :: l) +:+ "]")).
    cbv zeta. replace (head_byte (String (chr 44) _) =? 44) with true by reflexivity. cbn [tail].
    rewrite IH; [|done|simpl in *; lia|done]. simpl. by rewrite <- app_assoc.
Qed.
Lemma json_join_length l :
  (2 * length l <= String.length (json_join (json_string <$> l)))%nat.
Proof.
  assert (H1 : forall s, (2 <= String.length (json_string s))%nat).
  { intros s. unfold json_string. simpl. rewrite str_length_app. simpl. lia. }
  induction l as [|s [|s2 l] IH]; [simpl; lia| |].
  - change (json_join (json_string <$> [s])) with (json_string s). specialize (H1 s). cbn [length]. lia.
  - change (json_join (json_string <$> s :: s2 :: l))
      with (json_string s +:+ ("," +:+ json_join (json_string <$> s2 :: l))).
    rewrite !str_length_app. specialize (H1 s). cbn [length] in *. lia.
Qed.

(** The names written with [json.Marshal] are read back by [json.Unmarshal]. *)
Lemma strings_roundtrip l :
  Forall (fun s => utf8_valid s = true) l -> unmarshal_strings (marshal_strings (Some l)) = Some l.
Proof.
  intros Hv. unfold unmarshal_strings, json_unmarshal, marshal_strings.
  destruct (decide (l = [])) as [->|Hne]; [reflexivity|].
  set (body := json_join (json_string <$> l)).
  assert (Hb : (2 * length l <= String.length body)%nat) by apply json_join_length.
  assert (Hq : exists t, body = String quote t).
  { destruct l as [|s [|s2 l]]; [done|unfold body; eexists; reflexivity..]. }
  assert (Hr : json_value (2 * String.length ("[" +:+ body +:+ "]") + 2) ("[" +:+ body +:+ "]")
               = Some (AList (AStr <$> l), "")).
  { change ("[" +:+ body +:+ "]") with (String (chr 91) (body +:+ "]")).
    remember (2 * String.length (String (chr 91) (body +:+ "]")) + 1)%nat as n eqn:Hn.
    replace (2 * _ + 2)%nat with (S n) by lia. simpl in Hn. rewrite str_length_app in Hn.
    assert (Hsk : skip_space (body +:+ "]") = body +:+ "]" /\ (head_byte (body +:+ "]") =? 93) = false).
    { destruct Hq as [t ->]. done. }
    cbn [json_value]. change (skip_space (String (chr 91) (body +:+ "]")))
      with (String (chr 91) (body +:+ "]")).
    change (head_byte (String (chr 91) (body +:+ "]"))) with 91. cbn [tail Z.eqb Pos.eqb].
    rewrite (proj1 Hsk), (proj2 Hsk). unfold body. rewrite json_elements_strings; [done|done|lia|done]. }
  rewrite Hr. simpl. f_equal. rewrite <- list_fmap_compose. apply list_fmap_id.
Qed.
