(* ===== verification/AuditLog.v ===== *)
(** The audit trail: internal/audit/audit.go.

    [Validate] and the detail guard are pure; the batch writer is a state
    machine: the callers' [Record] and [Close] and the turns of the goroutine
    [run] interleave in any order, while the store starts and ceases to fail.  What the
    details may not carry ([clean]) is defined without the code's guard. *)

From S2P Require Import Prelude Rows Memstore GoJson.

(** The closed vocabulary ([known]). *)
Definition audit_known : list string :=
  ["issuer_created"; "issuer_updated"; "issuer_deleted"; "ca_generated"; "bundle_rotated";
   "certificate_requested"; "request_approved"; "request_rejected"; "certificate_issued";
   "certificate_renewed"; "certificate_imported"; "certificate_revoked"; "certificate_deleted";
   "certificate_deployed"; "certificate_installed"; "secret_created"; "secret_updated";
   "secret_rotated"; "secret_deleted"; "webhook_created"; "webhook_updated"; "webhook_deleted";
   "grant_created"; "grant_revoked"; "access_refused"; "backup_exported";
   "backup_exported_with_credentials"; "backup_imported"; "stream_opened"; "stream_refused";
   "enrollment_issued"; "enrollment_refused"].
Definition audit_Known (t : string) : bool := contains audit_known t.

(** An event before persistence; the details are a Go map, given by its
    entries. *)
Record Event := mkEvent {
  ev_TenantID : string; ev_EventType : string; ev_ActorKind : string; ev_ActorID : string;
  ev_SubjectKind : string; ev_SubjectID : string; ev_SubjectName : string; ev_Outcome : string;
  ev_Reason : string; ev_CorrelationID : string; ev_Details : list (string * any);
}.

Definition actor_kinds : list string := ["user"; "service"; "system"].
Definition subject_kinds : list string :=
  ["certificate"; "issuer"; "request"; "job"; "secret"; "grant"; "webhook"; "bundle"; "backup";
   "system"].
Definition outcomes : list string := ["ok"; "refused"; "failed"].

Definition audit_Validate (e : Event) : res unit :=
  if negb (audit_Known (ev_EventType e)) then Err (Opaque "audit: unknown event type")
  else if ev_TenantID e =s "" then Err (Opaque "audit: tenant_id is required")
  else if negb (contains actor_kinds (ev_ActorKind e)) then Err (Opaque "audit: actor_kind")
  else if negb (contains subject_kinds (ev_SubjectKind e)) then Err (Opaque "audit: subject_kind")
  else if negb (contains outcomes (ev_Outcome e)) then Err (Opaque "audit: outcome")
  else Ok tt.

(** [strings.Contains(s, sub)]. *)
Definition has_prefix (p s : string) : bool := String.prefix p s.
Fixpoint string_contains (s sub : string) : bool :=
  has_prefix sub s || match s with
                      | EmptyString => false
                      | String _ s' => string_contains s' sub
                      end.

Definition forbidden : list string := ["key"; "secret"; "token"; "password"; "private"; "csr"].

Section guard.
Context `{GoRuntime}.

Definition forbiddenKey (k : string) : bool :=
  existsb (fun f => string_contains (ToLower k) f) forbidden.

(** [x[:256]]. *)
Definition str_take (n : nat) (s : string) : string := String.substring 0 n s.
Fixpoint guardValue (v : any) : any :=
  match v with
  | AStr s => if 256 <? str_len s then AStr (str_take 256 s) else AStr s
  | AMap m =>
    AMap ((fix go (l : list (string * any)) : list (string * any) :=
             match l with
             | [] => []
             | (k, x) :: l' => if forbiddenKey k then go l' else (k, guardValue x) :: go l'
             end) m)
  | AList l => AList ((fix go (l : list any) : list any :=
                         match l with [] => [] | x :: l' => guardValue x :: go l' end) l)
  | _ => v
  end.
(** The map of the details with the forbidden keys dropped, then its JSON. *)
Definition guardMap (m : list (string * any)) : list (string * any) :=
  (fun e : string * any => (e.1, guardValue e.2)) <$>
    List.filter (fun e => negb (forbiddenKey e.1)) m.
Definition guardDetails (m : list (string * any)) : bytes :=
  match json_marshal (AMap (guardMap m)) with
  | Some js => Some js
  | None => Some "{}"
  end.

Definition row_of (now : Z) (e : Event) : AuditRow :=
  mkAuditRow 0 now (ev_TenantID e) (ev_EventType e) (ev_ActorKind e) (ev_ActorID e)
    (ev_SubjectKind e) (ev_SubjectID e) (ev_SubjectName e) (ev_Outcome e) (ev_Reason e)
    (ev_CorrelationID e) (guardDetails (ev_Details e)).

(** ** The batch writer *)

(** [w_buf] is the local buffer of [run]; [w_stopped] says it has returned.
    [w_calls] is the history of the batches handed to [InsertAuditRows], each with
    what the store answered, and [w_errors] that of the errors passed to [onError]. *)
Record Writer := mkWriter {
  w_st : Mem; w_ch : list AuditRow; w_queue : Z; w_closed : bool; w_dropped : Z;
  w_buf : list AuditRow; w_stopped : bool; w_calls : list (list AuditRow * res unit); w_errors : list err;
}.
#[export] Instance writer_eta : RecordEta Writer := fun r =>
  mkWriter (w_st r) (w_ch r) (w_queue r) (w_closed r) (w_dropped r) (w_buf r) (w_stopped r)
    (w_calls r) (w_errors r).
Definition audit_newWriter (st : Mem) (queue : Z) : Writer :=
  mkWriter st [] queue false 0 [] false [] [].

Definition audit_Record (now : Z) (e : Event) (w : Writer) : res unit * Writer :=
  match audit_Validate e with
  | Err x => (Err x, w)
  | Ok _ =>
    if w_closed w then (Err (Opaque "audit: writer closed"), w <| w_dropped := w_dropped w + 1 |>)
    else if Z.of_nat (length (w_ch w)) <? w_queue w
    then (Ok tt, w <| w_ch := w_ch w ++ [row_of now e] |>)
    else (Ok tt, w <| w_dropped := w_dropped w + 1 |>
                   <| w_errors := w_errors w ++ [Opaque "audit: queue full, event dropped"] |>)
  end.

(** The closure [flush] of [run]. *)
Definition writer_flush (w : Writer) : Writer :=
  match w_buf w with
  | [] => w
  | _ =>
    let '(r, st) := Mem_InsertAuditRows (w_buf w) (w_st w) in
    let w := w <| w_st := st |> <| w_calls := w_calls w ++ [(w_buf w, r)] |> in
    let w := match r with Err e => w <| w_errors := w_errors w ++ [e] |> | Ok _ => w end in
    w <| w_buf := [] |>
  end.

(** One turn of the loop of [run], by the case of its select. *)
Definition run_receive (w : Writer) : Writer :=
  match w_ch w with
  | r :: ch =>
    let w := w <| w_ch := ch |> <| w_buf := w_buf w ++ [r] |> in
    if 200 <=? Z.of_nat (length (w_buf w)) then writer_flush w else w
  | [] => if w_closed w then (writer_flush w) <| w_stopped := true |> else w
  end.
Definition run_tick (w : Writer) : Writer := writer_flush w.
Definition run_flush (w : Writer) : Writer :=
  writer_flush (w <| w_buf := w_buf w ++ w_ch w |> <| w_ch := [] |>).
Definition audit_Close (w : Writer) : Writer := w <| w_closed := true |>.

(** The events of a run: calls of the clients, turns of [run], and the store
    starting or ceasing to fail. *)
Inductive writer_event : Type :=
| WRecord (now : Z) (e : Event)
| WClose
| WReceive
| WTick
| WFlush
| WStore (op : string) (e : option err).
Definition writer_do (x : writer_event) (w : Writer) : Writer :=
  match x with
  | WRecord now e => (audit_Record now e w).2
  | WClose => audit_Close w
  | WReceive => run_receive w
  | WTick => run_tick w
  | WFlush => run_flush w
  | WStore op e => w <| w_st := Mem_FailOn op e (w_st w) |>
  end.
(** The goroutine takes no turn once it has returned, and receives only what is
    there or the end of a closed channel. *)
Definition writer_enabled (x : writer_event) (w : Writer) : bool :=
  match x with
  | WReceive => negb (w_stopped w) && (w_closed w || bool_decide (w_ch w <> []))
  | WTick | WFlush => negb (w_stopped w)
  | WClose => negb (w_closed w)
  | WRecord _ _ | WStore _ _ => true
  end.
(** The row a step queues. *)
Definition writer_accepts (x : writer_event) (w : Writer) : list AuditRow :=
  match x with
  | WRecord now e =>
    if is_ok (audit_Validate e) && negb (w_closed w) && (Z.of_nat (length (w_ch w)) <? w_queue w)
    then [row_of now e] else []
  | _ => []
  end.
(** The runs of a writer, with the rows queued in order. *)
Inductive writer_run (st : Mem) (queue : Z) : list AuditRow -> Writer -> Prop :=
| wr_new : writer_run st queue [] (audit_newWriter st queue)
| wr_step x acc w : writer_run st queue acc w -> writer_enabled x w = true ->
    writer_run st queue (acc ++ writer_accepts x w) (writer_do x w).
End guard.

(** ** The guard *)

Section any_ind.
Context (P : any -> Prop).
Context (Hnil : P ANil) (Hbool : forall b, P (ABool b)) (Hint : forall z, P (AInt z))
  (Hnum : forall t, P (ANum t)) (Hstr : forall s, P (AStr s))
  (Hmap : forall m, Forall (fun e : string * any => P e.2) m -> P (AMap m))
  (Hlist : forall l, Forall P l -> P (AList l)) (Hother : forall j, P (AOther j)).
Definition any_nested_ind : forall v, P v :=
  fix F (v : any) : P v :=
    match v with
    | ANil => Hnil | ABool b => Hbool b | AInt z => Hint z | ANum t => Hnum t | AStr s => Hstr s
    | AMap m => Hmap m ((fix G (m : list (string * any)) : Forall (fun e => P e.2) m :=
                           match m with
                           | [] => @List.Forall_nil _ _
                           | e :: m' => @List.Forall_cons _ _ e m' (F e.2) (G m')
                           end) m)
    | AList l => Hlist l ((fix G (l : list any) : Forall P l :=
                             match l with
                             | [] => @List.Forall_nil _ _
                             | x :: l' => @List.Forall_cons _ _ x l' (F x) (G l')
                             end) l)
    | AOther j => Hother j
    end.
End any_ind.

Section guard_props.
Context `{GoRuntime}.

(** What the trail may not carry, told apart from the code: a name that contains one of
    these words, each letter small or capital, at any place. *)
Definition sensitive_words : list string := ["key"; "secret"; "token"; "password"; "private"; "csr"].
Definition small_or_capital (c d : Ascii.ascii) : Prop := byte_of c = byte_of d \/ byte_of c + 32 = byte_of d.
Definition spells (s w : string) : Prop :=
  Forall2 small_or_capital (String.list_ascii_of_string s) (String.list_ascii_of_string w).
Definition sensitive (k : string) : Prop :=
  exists w p s q, w ∈ sensitive_words /\ k = p +:+ (s +:+ q) /\ spells s w.

(** No sensitive name at any depth and no string over 256 bytes; a value of any other Go
    type is not clean, since nothing is known of its text. *)
Inductive clean : any -> Prop :=
| clean_nil : clean ANil
| clean_bool b : clean (ABool b)
| clean_int z : clean (AInt z)
| clean_num t : clean (ANum t)
| clean_str s : (String.length s <= 256)%nat -> clean (AStr s)
| clean_map m : (forall k x, (k, x) ∈ m -> ~ sensitive k) -> (forall k x, (k, x) ∈ m -> clean x) -> clean (AMap m)
| clean_list l : (forall x, x ∈ l -> clean x) -> clean (AList l).
(** The details made of [map[string]any], [[]any], strings and scalars. *)
Fixpoint plain (v : any) : bool :=
  match v with
  | AMap m => forallb (fun e => plain e.2) m
  | AList l => forallb plain l
  | AOther _ => false
  | _ => true
  end.
Fixpoint ascii_names (v : any) : bool :=
  match v with
  | AMap m => forallb (fun e => string_forallb is_ascii_byte e.1 && ascii_names e.2) m
  | AList l => forallb ascii_names l
  | _ => true
  end.

Lemma guardMap_cons k x m :
  guardMap ((k, x) :: m) = if forbiddenKey k then guardMap m else (k, guardValue x) :: guardMap m.
Proof. unfold guardMap. simpl. by destruct (forbiddenKey k). Qed.
Lemma guardValue_map m : guardValue (AMap m) = AMap (guardMap m).
Proof.
  unfold guardMap. simpl. f_equal. induction m as [|[k x] m IH]; [done|]. simpl.
  destruct (forbiddenKey k); simpl; [done|]. by rewrite IH.
Qed.
Lemma guardValue_list l : guardValue (AList l) = AList (guardValue <$> l).
Proof. reflexivity. Qed.

Lemma substring_length n s : (String.length (String.substring 0 n s) <= n)%nat.
Proof. revert n. induction s as [|c s IH]; intros [|n]; simpl; try lia. specialize (IH n). lia. Qed.

(** *** The words *)

(** What [unicode.ToLower] over the runes of a string does to its ASCII characters,
    whatever surrounds them. *)
Context (lower_ascii : forall p s q, string_forallb is_ascii_byte s = true ->
  exists p' q', unicode_lower (p +:+ (s +:+ q)) = p' +:+ (string_map lower_byte s +:+ q')).

Lemma forbidden_words w : w ∈ sensitive_words -> w ∈ forbidden /\ string_forallb is_ascii_byte w = true.
Proof. unfold sensitive_words, forbidden. intros Hw. repeat (apply elem_of_cons in Hw as [->|Hw]; [split; [set_solver|reflexivity]|]). by apply elem_of_nil in Hw. Qed.
Lemma words_small w c : w ∈ sensitive_words -> c ∈ String.list_ascii_of_string w -> 97 <= byte_of c <= 122.
Proof.
  intros Hw. assert (Ha : forallb (fun c => (97 <=? byte_of c) && (byte_of c <=? 122)) (String.list_ascii_of_string w) = true).
  { unfold sensitive_words in Hw. repeat (apply elem_of_cons in Hw as [->|Hw]; [reflexivity|]). by apply elem_of_nil in Hw. }
  intros Hc%list_elem_of_In. apply (proj1 (forallb_forall _ _) Ha) in Hc. bools. lia.
Qed.
Lemma byte_inj c d : byte_of c = byte_of d -> c = d.
Proof. unfold byte_of. intros Hb. rewrite <- (Ascii.ascii_N_embedding c), <- (Ascii.ascii_N_embedding d). f_equal. lia. Qed.
Lemma lower_small c d : 97 <= byte_of d <= 122 -> small_or_capital c d <-> lower_byte c = d /\ byte_of c < 128.
Proof.
  intros Hd. unfold small_or_capital, lower_byte. destruct (_ && _) eqn:E; bools.
  - assert (Hb : byte_of (Ascii.ascii_of_N (Z.to_N (byte_of c + 32))) = byte_of c + 32).
    { unfold byte_of at 1. rewrite Ascii.N_ascii_embedding; lia. }
    split; [intros [Hc|Hc]; [lia|split; [apply byte_inj; congruence|lia]]|].
    intros [Hc _]. right. by rewrite <- Hc.
  - apply andb_false_iff in E. rewrite !Z.leb_gt in E. split.
    + intros [Hc|Hc]; [split; [by apply byte_inj|lia]|lia].
    + intros [-> _]. by left.
Qed.
Lemma spells_lower s w : w ∈ sensitive_words ->
  spells s w <-> string_map lower_byte s = w /\ string_forallb is_ascii_byte s = true.
Proof.
  intros Hw. pose proof (fun c => words_small w c Hw) as Hs. clear Hw. unfold spells. revert s Hs.
  induction w as [|d w IH]; intros [|c s] Hs; simpl; try (split; [by inversion 1|by intros [? ?]]).
  assert (Hd : 97 <= byte_of d <= 122) by (apply Hs; simpl; set_solver).
  specialize (IH s). rewrite Forall2_cons, IH, lower_small by (try done; intros; apply Hs; simpl; set_solver).
  unfold is_ascii_byte. split.
  - intros [[<- Hc] [<- Ha]]. split; [done|]. by rewrite Ha, (proj2 (Z.ltb_lt _ _) Hc).
  - intros [Hc Ha]. bools. injection Hc as -> ->. done.
Qed.
Lemma prefix_split p s : String.prefix p s = true <-> exists q, s = p +:+ q.
Proof.
  revert s. induction p as [|c p IH]; intros [|d s]; simpl; try (split; [eauto|done]); try (split; [done|by intros [q ?]]).
  destruct (Ascii.ascii_dec c d) as [->|Hn]; [rewrite IH|]; split; try done.
  - intros [q ->]. by exists q.
  - intros [q Hq]. injection Hq as ->. by exists q.
  - intros [q Hq]. by injection Hq.
Qed.
Lemma contains_split s sub : string_contains s sub = true <-> exists p q, s = p +:+ (sub +:+ q).
Proof.
  split.
  - induction s as [|c s IH]; intros Hc; apply orb_true_iff in Hc as [Hp|Hc]; try done;
      try (apply prefix_split in Hp as [q Hq]; by exists "", q).
    apply IH in Hc as (p & q & ->). by exists (String c p), q.
  - intros (p & q & ->). induction p as [|c p IH].
    + assert (Hp : has_prefix sub (sub +:+ q) = true) by (apply prefix_split; by exists q).
      change ("" +:+ (sub +:+ q)) with (sub +:+ q). destruct (sub +:+ q); cbn [string_contains]; by rewrite Hp.
    + simpl. by rewrite IH, orb_true_r.
Qed.
Lemma string_map_app f s t : string_map f (s +:+ t) = string_map f s +:+ string_map f t.
Proof. induction s as [|c s IH]; simpl; [done|]. by rewrite IH. Qed.
Lemma string_forallb_app f s t : string_forallb f (s +:+ t) = string_forallb f s && string_forallb f t.
Proof. induction s as [|c s IH]; simpl; [done|]. by rewrite IH, andb_assoc. Qed.
Lemma string_map_split f k p q : string_map f k = p +:+ q -> exists k1 k2, k = k1 +:+ k2 /\ string_map f k1 = p /\ string_map f k2 = q.
Proof.
  revert k. induction p as [|c p IH]; intros k Hk; [by exists "", k|].
  destruct k as [|d k]; [done|]. injection Hk as <- Hk. apply IH in Hk as (k1 & k2 & -> & <- & <-). by exists (String d k1), k2.
Qed.

Lemma sensitive_forbidden k : sensitive k -> forbiddenKey k = true.
Proof.
  intros (w & p & s & q & Hw & -> & Hs). apply (spells_lower s w Hw) in Hs as [Hs Ha].
  apply existsb_exists. exists w. split; [apply list_elem_of_In; exact (proj1 (forbidden_words w Hw))|]. apply contains_split.
  unfold ToLower. destruct (string_forallb is_ascii_byte (p +:+ (s +:+ q))).
  - exists (string_map lower_byte p), (string_map lower_byte q). by rewrite !string_map_app, Hs.
  - destruct (lower_ascii p s q Ha) as (p' & q' & ->). rewrite Hs. eauto.
Qed.
Lemma forbidden_sensitive k : string_forallb is_ascii_byte k = true -> forbiddenKey k = true -> sensitive k.
Proof.
  unfold forbiddenKey, ToLower. intros Ha. rewrite Ha. intros (w & Hw%list_elem_of_In & Hc)%existsb_exists.
  apply contains_split in Hc as (p & q & Hk). apply string_map_split in Hk as (k1 & k' & -> & _ & Hk).
  apply string_map_split in Hk as (s & k2 & -> & Hs & _). rewrite !string_forallb_app in Ha. bools.
  exists w, k1, s, k2. split; [done|]. split; [done|]. by apply spells_lower.
Qed.

Lemma guardValue_clean v : plain v = true -> clean (guardValue v).
Proof.
  induction v as [| | | |s|m IH|l IH|] using any_nested_ind; try (intros _; constructor; fail); try done.
  - intros _. simpl. destruct (256 <? str_len s) eqn:E; constructor; bools; unfold str_len in *; [|lia].
    apply substring_length.
  - rewrite guardValue_map. simpl. intros Hp.
    assert (Hm : forall k x, (k, x) ∈ guardMap m -> exists x0, (k, x0) ∈ m /\ forbiddenKey k = false /\ x = guardValue x0).
    { intros k x (e0 & He & He0)%list_elem_of_fmap. injection He as -> ->. apply list_elem_of_In, List.filter_In in He0 as [He0 Hk].
      exists e0.2. split; [by destruct e0; apply list_elem_of_In|]. by apply negb_true_iff in Hk. }
    constructor; intros k x (x0 & Hx & Hk & ->)%Hm.
    + intros Hs%sensitive_forbidden. congruence.
    + apply list_elem_of_In in Hx. apply (proj1 (List.Forall_forall _ _) IH _ Hx). by apply (proj1 (forallb_forall _ _) Hp) in Hx.
  - rewrite guardValue_list. simpl. intros Hp. constructor. intros x (x0 & -> & Hx0%list_elem_of_In)%list_elem_of_fmap.
    apply (proj1 (List.Forall_forall _ _) IH _ Hx0). by apply (proj1 (forallb_forall _ _) Hp) in Hx0.
Qed.
Lemma guardValue_id v : ascii_names v = true -> clean v -> guardValue v = v.
Proof.
  induction v as [| | | |s|m IH|l IH|] using any_nested_ind; try done.
  - intros _ Hs. inversion Hs as [| | | |? Hl| |]; subst. simpl. rewrite (proj2 (Z.ltb_ge _ _)); [done|unfold str_len; lia].
  - rewrite guardValue_map. simpl. intros Ha Hm. inversion Hm as [| | | | |? Hk Hx|]; subst. clear Hm. f_equal.
    induction IH as [|[k x] m IHx _ IHm]; [done|]. simpl in Ha, IHx. bools. rewrite guardMap_cons.
    destruct (forbiddenKey k) eqn:Ef.
    { exfalso. apply (Hk k x); [set_solver|]. by apply forbidden_sensitive. }
    rewrite IHx, IHm; try done; try (apply (Hx k); set_solver); intros k' x' Hin; [apply (Hk k' x')|apply (Hx k' x')]; set_solver.
  - rewrite guardValue_list. simpl. intros Ha Hl. inversion Hl as [| | | | | |? Hx]; subst. clear Hl. f_equal.
    induction IH as [|x l IHx _ IHl]; [done|]. simpl in Ha. bools.
    rewrite fmap_cons, IHx, IHl; try done; try (apply Hx; set_solver). intros; apply Hx; set_solver.
Qed.

(** ** The writer *)

Lemma flush_rows w :
  concat (w_calls (writer_flush w)).*1 ++ w_buf (writer_flush w) = concat (w_calls w).*1 ++ w_buf w.
Proof.
  unfold writer_flush. destruct (w_buf w) as [|r b] eqn:E; [by rewrite E|].
  destruct (Mem_InsertAuditRows _ _) as [[[]|e] st]; simpl;
    rewrite fmap_app, concat_app; simpl; by rewrite ?E, !app_nil_r.
Qed.
Lemma flush_frame w :
  w_ch (writer_flush w) = w_ch w /\ w_closed (writer_flush w) = w_closed w
  /\ w_stopped (writer_flush w) = w_stopped w /\ w_buf (writer_flush w) = []
  /\ w_queue (writer_flush w) = w_queue w /\ w_dropped (writer_flush w) = w_dropped w.
Proof.
  unfold writer_flush. destruct (w_buf w) as [|r b] eqn:E; [done|].
  destruct (Mem_InsertAuditRows _ _) as [[[]|e] st]; done.
Qed.

(** The rows as the store keeps them, numbered on from [n]. *)
Definition numbered (n : nat) (rows : list AuditRow) : list AuditRow :=
  imap (fun i r => cpAudit r <| aud_ID := Z.of_nat (n + i) + 1 |>) rows.
(** The rows of the batches the store accepted. *)
Definition stored_rows (calls : list (list AuditRow * res unit)) : list AuditRow :=
  concat (List.filter (fun c => is_ok c.2) calls).*1.
Lemma append_audits l rows : foldl append_audit l rows = l ++ numbered (length l) rows.
Proof.
  unfold numbered. revert l. induction rows as [|r rows IH]; intros l; simpl; [by rewrite app_nil_r|].
  rewrite IH. unfold append_audit. rewrite length_app, <- app_assoc. simpl. rewrite Nat.add_0_r. f_equal. f_equal.
  apply imap_ext. intros i x _. unfold compose. by replace (length l + 1 + i)%nat with (length l + S i)%nat by lia.
Qed.
Lemma numbered_app n l k : numbered n (l ++ k) = numbered n l ++ numbered (n + length l) k.
Proof. unfold numbered. rewrite imap_app. f_equal. apply imap_ext. intros i x _. unfold compose. by rewrite Nat.add_assoc. Qed.
Lemma numbered_length n l : length (numbered n l) = length l.
Proof. apply length_imap. Qed.
(** The trail holds what was there and the batches accepted since, in order; every
    refusal was reported. *)
Definition store_inv (st : Mem) (w : Writer) : Prop :=
  m_Audit (w_st w) = m_Audit st ++ numbered (length (m_Audit st)) (stored_rows (w_calls w))
  /\ forall b e, (b, Err e) ∈ w_calls w -> e ∈ w_errors w.
Lemma flush_store st w : store_inv st w -> store_inv st (writer_flush w).
Proof.
  intros [Hs He]. unfold writer_flush. destruct (w_buf w) as [|r b] eqn:E; [done|].
  unfold Mem_InsertAuditRows, fail_write. destruct (m_Fail (w_st w) !! _) as [e|]; split; simpl; unfold stored_rows;
    rewrite ?List.filter_app, ?fmap_app, ?concat_app; simpl; rewrite ?app_nil_r.
  - exact Hs.
  - intros b' e' [Hin|Hin%list_elem_of_singleton]%elem_of_app; apply elem_of_app; [left; by eapply He|right].
    injection Hin as _ ->. apply list_elem_of_singleton. done.
  - pose proof (append_audits (m_Audit (w_st w)) (r :: b)) as Hf. cbn [foldl] in Hf.
    by rewrite Hf, Hs, length_app, numbered_length, numbered_app, app_assoc.
  - intros b' e' [Hin|Hin%list_elem_of_singleton]%elem_of_app; [by eapply He|done].
Qed.
Lemma receive_store st w : store_inv st w -> store_inv st (run_receive w).
Proof.
  intros Hs. unfold run_receive. destruct (w_ch w) as [|r ch].
  - destruct (w_closed w); [|done]. apply (flush_store st w Hs).
  - destruct (200 <=? _); [apply flush_store|]; exact Hs.
Qed.
Lemma writer_run_store st queue acc w : writer_run st queue acc w -> store_inv st w.
Proof.
  induction 1 as [|x acc w _ IH He].
  - split; simpl; [by rewrite app_nil_r|]. intros b e Hn. by apply elem_of_nil in Hn.
  - destruct x; simpl.
    + unfold audit_Record. destruct (audit_Validate _); simpl; [|done]. destruct (w_closed w); simpl; [done|].
      destruct (_ <? _); simpl; [done|]. destruct IH as [Hs Hr]. split; [done|].
      intros b x Hx. apply elem_of_app. left. by eapply Hr.
    + exact IH.
    + by apply receive_store.
    + by apply flush_store.
    + apply flush_store. exact IH.
    + destruct IH as [Hs Hr]. split; [|done]. simpl. rewrite <- Hs. by destruct e.
Qed.

(** What every run keeps: the rows handed over, buffered and queued are those
    accepted, in order; the buffer is short between turns, the channel within
    its capacity, and a writer that has stopped holds nothing. *)
Record writer_inv (queue : Z) (acc : list AuditRow) (w : Writer) : Prop := {
  wi_rows : concat (w_calls w).*1 ++ w_buf w ++ w_ch w = acc;
  wi_buf : (length (w_buf w) < 200)%nat;
  wi_queue : w_queue w = queue;
  wi_ch : Z.of_nat (length (w_ch w)) <= Z.max 0 queue;
  wi_stopped : w_stopped w = true -> w_closed w = true /\ w_buf w = [] /\ w_ch w = [];
}.

Lemma record_inv queue acc now e w :
  writer_inv queue acc w ->
  writer_inv queue (acc ++ writer_accepts (WRecord now e) w) (audit_Record now e w).2.
Proof.
  intros [Hr Hb Hq Hc Hs]. unfold audit_Record, writer_accepts.
  destruct (audit_Validate e) as [[]|x]; simpl; [|by rewrite app_nil_r].
  destruct (w_closed w) eqn:Hcl; simpl; [rewrite app_nil_r; constructor; simpl; rewrite ?Hcl; auto|].
  destruct (_ <? _) eqn:El; simpl; [|rewrite app_nil_r; constructor; simpl; rewrite ?Hcl; auto]. bools.
  constructor; simpl; try done.
  - by rewrite <- Hr, <- !app_assoc.
  - rewrite length_app. simpl. lia.
  - intros [? _]%Hs. congruence.
Qed.
Lemma receive_inv queue acc w :
  w_stopped w = false -> writer_inv queue acc w -> writer_inv queue acc (run_receive w).
Proof.
  intros Hst [Hr Hb Hq Hc Hs]. unfold run_receive. destruct (w_ch w) as [|r ch] eqn:Ech.
  - destruct (w_closed w) eqn:Hcl; [|by constructor; rewrite ?Hcl, ?Ech].
    pose proof (flush_rows w) as Hf. pose proof (flush_frame w) as (F1 & F2 & F3 & F4 & F5 & _).
    constructor; simpl; try rewrite F4; try rewrite F1; try rewrite Ech; simpl; try done; try lia.
    + rewrite F4, app_nil_r in Hf. by rewrite <- Hr, !app_nil_r, Hf.
    + intros _. by rewrite F2.
  - set (w1 := w <| w_ch := ch |> <| w_buf := w_buf w ++ [r] |>).
    assert (H1 : concat (w_calls w1).*1 ++ w_buf w1 ++ w_ch w1 = acc)
      by (simpl; by rewrite <- Hr, <- !app_assoc).
    assert (H2 : w_ch w1 = ch /\ w_queue w1 = queue /\ w_stopped w1 = false) by (simpl; auto).
    destruct H2 as (E1 & E2 & E3). simpl in Hc.
    destruct (200 <=? _) eqn:E; bools.
    + pose proof (flush_rows w1) as Hf. pose proof (flush_frame w1) as (F1 & F2 & F3 & F4 & F5 & _).
      constructor; rewrite ?F1, ?F3, ?F4, ?F5, ?E1, ?E2, ?E3; try done; try (simpl; lia).
      rewrite app_assoc, <- H1, app_assoc, <- Hf, F4, E1. done.
    + constructor; rewrite ?E1, ?E2, ?E3; try done; lia.
Qed.
Lemma flush_inv queue acc w :
  writer_inv queue acc w -> writer_inv queue acc (writer_flush w).
Proof.
  intros [Hr Hb Hq Hc Hs]. pose proof (flush_rows w) as Hf.
  pose proof (flush_frame w) as (F1 & F2 & F3 & F4 & F5 & _).
  constructor; rewrite ?F1, ?F2, ?F3, ?F4, ?F5; simpl; try done; try lia.
  - rewrite F4, app_nil_r in Hf. by rewrite Hf, <- app_assoc.
  - intros ?%Hs. naive_solver.
Qed.
Lemma drain_inv queue acc w :
  w_stopped w = false -> writer_inv queue acc w -> writer_inv queue acc (run_flush w).
Proof.
  intros Hst [Hr Hb Hq Hc Hs]. unfold run_flush.
  set (w1 := w <| w_buf := w_buf w ++ w_ch w |> <| w_ch := [] |>).
  pose proof (flush_rows w1) as Hf. pose proof (flush_frame w1) as (F1 & F2 & F3 & F4 & F5 & _).
  constructor; rewrite ?F1, ?F2, ?F3, ?F4, ?F5; simpl; try done; try lia; try congruence.
  rewrite F4, app_nil_r in Hf. rewrite Hf. by rewrite app_nil_r.
Qed.
Lemma writer_run_inv st queue acc w : writer_run st queue acc w -> writer_inv queue acc w.
Proof.
  induction 1 as [|x acc w _ IH He].
  - constructor; simpl; try done; lia.
  - destruct x; simpl in He; bools; rewrite ?app_nil_r.
    + by apply record_inv.
    + destruct IH. constructor; simpl; auto. intros ?%wi_stopped0. naive_solver.
    + by apply receive_inv.
    + by apply flush_inv.
    + by apply drain_inv.
    + destruct IH. by constructor.
Qed.

(** The turns of [run] after [Close]. *)
Definition run_turn (w : Writer) : Writer := if w_stopped w then w else run_receive w.

Lemma receive_closed w : w_closed (run_receive w) = w_closed w.
Proof.
  unfold run_receive. destruct (w_ch w); simpl.
  - destruct (w_closed w) eqn:E; simpl; [|done]. by destruct (flush_frame w) as (_ & -> & _).
  - case_match; [|done]. by destruct (flush_frame (w <| w_ch := l |> <| w_buf := w_buf w ++ [a] |>))
      as (_ & -> & _).
Qed.
Lemma receive_ch w r ch : w_ch w = r :: ch -> w_ch (run_receive w) = ch.
Proof.
  unfold run_receive. intros ->. case_match; [|done].
  by destruct (flush_frame (w <| w_ch := ch |> <| w_buf := w_buf w ++ [r] |>)) as (-> & _).
Qed.
Lemma turns_stop queue acc n w :
  writer_inv queue acc w -> w_closed w = true -> length (w_ch w) = n ->
  w_stopped (Nat.iter (S n) run_turn w) = true
  /\ writer_inv queue acc (Nat.iter (S n) run_turn w).
Proof.
  revert w. induction n as [|n IH]; intros w Hi Hc Hn; rewrite Nat.iter_succ_r.
  - apply length_zero_iff_nil in Hn. simpl. unfold run_turn.
    destruct (w_stopped w) eqn:Hs; [done|]. split; [|by apply receive_inv].
    unfold run_receive. by rewrite Hn, Hc.
  - destruct (w_ch w) as [|r ch] eqn:Hch; [done|]. injection Hn as Hn. unfold run_turn at 2 4.
    destruct (w_stopped w) eqn:Hs.
    { apply (wi_stopped _ _ _ Hi) in Hs as (_ & _ & Hnil). congruence. }
    apply IH; [by apply receive_inv|by rewrite receive_closed|by rewrite (receive_ch _ _ _ Hch)].
Qed.

(** C38. The details of an event made of [map[string]any], [[]any], strings and scalars
    are stored without any name that contains key, secret, token, password, private or
    csr, in small or capital letters, at any depth of their maps and lists, and without
    any string over 256 bytes; such details whose names are ASCII and that already satisfy
    this are stored as they are.  [lower_ascii] is what [strings.ToLower] does to ASCII
    letters.  A value of another Go type is stored unguarded
    ([AuditSample.typed_map_unguarded]). *)
Theorem guardDetails_clean m :
  plain (AMap m) = true ->
  exists m', guardDetails m = Some (default "{}" (json_marshal (AMap m')))
    /\ clean (AMap m') /\ (ascii_names (AMap m) = true -> clean (AMap m) -> m' = m).
Proof.
  intros Hp. exists (guardMap m). split_and!.
  - unfold guardDetails. by destruct (json_marshal _).
  - rewrite <- guardValue_map. by apply guardValue_clean.
  - intros Ha Hc. pose proof (guardValue_id _ Ha Hc) as Hi. rewrite guardValue_map in Hi. by injection Hi.
Qed.

(** The writer loses no accepted event and reorders none, however the
    callers and the goroutine interleave and whether or not the store fails:
    the batches handed to the store, the buffer and the channel together are
    the accepted rows in order, and a batch is never left to grow. *)
Theorem writer_fifo st queue acc w :
  writer_run st queue acc w ->
  concat (w_calls w).*1 ++ w_buf w ++ w_ch w = acc
  /\ (length (w_buf w) < 200)%nat /\ Z.of_nat (length (w_ch w)) <= Z.max 0 queue.
Proof. intros [? ? ? ? ?]%writer_run_inv. done. Qed.

Lemma turns_store st n w : store_inv st w -> store_inv st (Nat.iter n run_turn w).
Proof.
  intros Hs. induction n as [|n IH]; [done|]. simpl. unfold run_turn at 1.
  destruct (w_stopped _); [done|]. by apply receive_store.
Qed.

(** C39. After [Close] the goroutine terminates, once it has handed every accepted row to
    [InsertAuditRows] exactly once and in order.  The rows of the batches the store
    accepted are then in the trail, behind what was there and in order; a batch it refused
    is lost and its error reported; so when it refused none, every accepted row is
    stored. *)
Theorem Close_drains st queue acc w :
  writer_run st queue acc w -> w_closed w = true ->
  let w' := Nat.iter (S (length (w_ch w))) run_turn w in
  w_stopped w' = true
  /\ concat (w_calls w').*1 = acc
  /\ m_Audit (w_st w') = m_Audit st ++ numbered (length (m_Audit st)) (stored_rows (w_calls w'))
  /\ (forall b e, (b, Err e) ∈ w_calls w' -> e ∈ w_errors w')
  /\ ((forall b e, (b, Err e) ∉ w_calls w') ->
      m_Audit (w_st w') = m_Audit st ++ numbered (length (m_Audit st)) acc).
Proof.
  intros Hr Hc. cbv zeta. destruct (turns_stop _ _ _ _ (writer_run_inv _ _ _ _ Hr) Hc eq_refl) as [Hs Hi].
  pose proof (turns_store st (S (length (w_ch w))) w (writer_run_store _ _ _ _ Hr)) as [Ha He].
  assert (Hacc : concat (w_calls (Nat.iter (S (length (w_ch w))) run_turn w)).*1 = acc).
  { pose proof (wi_rows _ _ _ Hi) as Hrows. destruct (wi_stopped _ _ _ Hi Hs) as (_ & Hb & Hch).
    by rewrite Hb, Hch, !app_nil_r in Hrows. }
  split_and!; [done..|]. intros Hok. rewrite Ha, <- Hacc. do 2 f_equal. unfold stored_rows. do 2 f_equal.
  apply forallb_filter_id. apply forallb_forall. intros [b [[]|e]] Hin; [done|]. by apply list_elem_of_In, Hok in Hin.
Qed.
End guard_props.

Module AuditSample.
#[local] Existing Instance std_runtime.
Definition issued : Event :=
  mkEvent "t1" "certificate_issued" "user" "alice" "certificate" "c1" "" "ok" "" ""
    [("serial", AStr "0a"); ("private_key", AStr "PEM")].
Definition sample_rows : list AuditRow := [row_of 7 issued; row_of 8 issued].
Definition closed_writer : Writer :=
  writer_do WClose (writer_do (WRecord 8 issued) (writer_do WReceive
    (writer_do (WRecord 7 issued) (audit_newWriter (Mem_New 0) 10000)))).
Lemma sample_run :
  writer_run (Mem_New 0) 10000 sample_rows closed_writer.
Proof.
  pose proof (wr_new (Mem_New 0) 10000) as W0.
  pose proof (wr_step _ _ (WRecord 7 issued) _ _ W0 eq_refl) as W1.
  pose proof (wr_step _ _ WReceive _ _ W1 eq_refl) as W2.
  pose proof (wr_step _ _ (WRecord 8 issued) _ _ W2 eq_refl) as W3.
  exact (wr_step _ _ WClose _ _ W3 eq_refl).
Qed.
Lemma writer_fifo_witness :
  exists w, w_buf w = [row_of 7 issued] /\ w_ch w = [row_of 8 issued]
    /\ concat (w_calls w).*1 ++ w_buf w ++ w_ch w = sample_rows.
Proof.
  eexists. split; [|split]; [| |apply (writer_fifo _ _ _ _ sample_run)]; vm_compute; reflexivity.
Defined.
Lemma Close_drains_witness :
  exists w, w_stopped w = true /\ concat (w_calls w).*1 = sample_rows /\ aud_ID <$> m_Audit (w_st w) = [1; 2].
Proof.
  pose proof (Close_drains _ _ _ _ sample_run eq_refl) as (Hs & Hr & _ & _ & Hall).
  eexists. split; [exact Hs|]. split; [exact Hr|]. rewrite Hall; [vm_compute; reflexivity|].
  intros b e Hin.
  assert (Hc : w_calls (Nat.iter (S (length (w_ch closed_writer))) run_turn closed_writer) = [(sample_rows, Ok tt)]) by (vm_compute; reflexivity).
  rewrite Hc in Hin. by apply list_elem_of_singleton in Hin.
Defined.
(** A refused batch is lost. *)
Example refused_batch_lost :
  let w := Nat.iter 2 run_turn (writer_do WClose (writer_do (WStore "InsertAuditRows" (Some (Opaque "down")))
             (writer_do (WRecord 7 issued) (audit_newWriter (Mem_New 0) 10000)))) in
  w_stopped w = true /\ m_Audit (w_st w) = [] /\ w_errors w = [Opaque "down"] /\ w_dropped w = 0.
Proof. vm_compute. split_and!; reflexivity. Qed.

(** A runtime that lowers the ASCII letters of every string. *)
Definition ascii_runtime : GoRuntime :=
  {| map_range A m := map_to_list m; map_range_perm A m := Permutation_refl (map_to_list m);
     unicode_lower := string_map lower_byte; unicode_trim s := s; unicode_fold s t := bool_decide (s = t) |}.
Lemma ascii_runtime_lowers p s q : string_forallb is_ascii_byte s = true ->
  exists p' q', @unicode_lower ascii_runtime (p +:+ (s +:+ q)) = p' +:+ (string_map lower_byte s +:+ q').
Proof. intros _. exists (string_map lower_byte p), (string_map lower_byte q). simpl. by rewrite !string_map_app. Qed.
Definition nested : list (string * any) :=
  [("serial", AStr "0a"); ("Join-ToKeN", AStr "t"); ("labels", AMap [("PRIVATE", AInt 1); ("n", AInt 2)])].
Lemma guardDetails_clean_witness :
  @guardMap ascii_runtime nested = [("serial", AStr "0a"); ("labels", AMap [("n", AInt 2)])]
  /\ exists m', @guardDetails ascii_runtime nested = Some (default "{}" (json_marshal (AMap m'))) /\ clean (AMap m').
Proof.
  split; [vm_compute; reflexivity|].
  destruct (@guardDetails_clean ascii_runtime ascii_runtime_lowers nested eq_refl) as (m' & Hm & Hc & _).
  exists m'. split; [exact Hm|exact Hc].
Defined.
(** A [map[string]string] with a token is stored as it is. *)
Example typed_map_unguarded :
  guardDetails [("labels", AOther (json_marshal (AMap [("token", AStr "t")])))]
  = json_marshal (AMap [("labels", AMap [("token", AStr "t")])]).
Proof. vm_compute. reflexivity. Qed.
End AuditSample.
