(* ===== verification/GoUrl.v ===== *)
(** net/url's [Parse], as far as the SPIFFE grammar of internal/csr/csr.go
    depends on it.

    The user information of an authority is kept as the fact that it is there:
    whether or not it is well formed, its presence is all the callers look at.
    A host in square brackets is an IPv6 literal, whose name holds a colon; the
    callers refuse it either way and it is refused here. *)

From S2P Require Import Prelude.

Record URL := mkURL {
  u_Scheme : string; u_Opaque : string; u_User : bool; u_Host : string; u_Path : string;
  u_RawQuery : string; u_ForceQuery : bool; u_Fragment : string;
}.

(** ** String helpers *)

(** [strings.Cut] at a byte: what is before it, and what is after it if it is
    there. *)
Fixpoint cut (b : Z) (s : string) : string * option string :=
  match s with
  | EmptyString => (EmptyString, None)
  | String c s' => if byte_of c =? b then (EmptyString, Some s')
                   else let '(x, r) := cut b s' in (String c x, r)
  end.
Definition has_byte (b : Z) (s : string) : bool := string_existsb (fun c => byte_of c =? b) s.
(** What follows the last occurrence of a byte, and what precedes it. *)
Fixpoint cut_last (b : Z) (s : string) : option (string * string) :=
  match s with
  | EmptyString => None
  | String c s' =>
    match cut_last b s' with
    | Some (x, y) => Some (String c x, y)
    | None => if byte_of c =? b then Some (EmptyString, s') else None
    end
  end.
Fixpoint count_byte (b : Z) (s : string) : nat :=
  match s with
  | EmptyString => 0
  | String c s' => (if byte_of c =? b then 1 else 0) + count_byte b s'
  end.
Fixpoint ends_with (b : Z) (s : string) : bool :=
  match s with
  | EmptyString => false
  | String c EmptyString => byte_of c =? b
  | String _ s' => ends_with b s'
  end.
Fixpoint drop_last (s : string) : string :=
  match s with
  | EmptyString | String _ EmptyString => EmptyString
  | String c s' => String c (drop_last s')
  end.

Definition is_letter (c : Ascii.ascii) : bool :=
  ((97 <=? byte_of c) && (byte_of c <=? 122)) || ((65 <=? byte_of c) && (byte_of c <=? 90)).
Definition is_digit_byte (c : Ascii.ascii) : bool := (48 <=? byte_of c) && (byte_of c <=? 57).
Definition is_ctl (c : Ascii.ascii) : bool := (byte_of c <? 32) || (byte_of c =? 127).

(** ** Escapes *)
Definition unhex (c : Ascii.ascii) : option Z :=
  let b := byte_of c in
  if (48 <=? b) && (b <=? 57) then Some (b - 48)
  else if (97 <=? b) && (b <=? 102) then Some (b - 87)
  else if (65 <=? b) && (b <=? 70) then Some (b - 55)
  else None.

(** [unescape(s, encodePath)]: percent escapes are decoded, a malformed one is
    an error. *)
Fixpoint unescape_path (s : string) : option string :=
  match s with
  | EmptyString => Some EmptyString
  | String c s' =>
    if byte_of c =? 37 then
      match s' with
      | String h (String l s'') =>
        match unhex h, unhex l, unescape_path s'' with
        | Some a, Some b, Some t => Some (String (Ascii.ascii_of_N (Z.to_N (16 * a + b))) t)
        | _, _, _ => None
        end
      | _ => None
      end
    else match unescape_path s' with Some t => Some (String c t) | None => None end
  end.

(** The ASCII bytes a host may hold unescaped. *)
Definition host_byte (c : Ascii.ascii) : bool :=
  (128 <=? byte_of c) || is_letter c || is_digit_byte c
  || existsb (fun b => byte_of c =? b)
       [45; 95; 46; 126; 33; 36; 38; 39; 40; 41; 42; 43; 44; 59; 61; 58; 91; 93; 60; 62; 34].
(** [unescape(s, encodeHost)]: only bytes above ASCII and the percent sign
    itself may be escaped. *)
Fixpoint unescape_host (s : string) : option string :=
  match s with
  | EmptyString => Some EmptyString
  | String c s' =>
    if byte_of c =? 37 then
      match s' with
      | String h (String l s'') =>
        match unhex h, unhex l, unescape_host s'' with
        | Some a, Some b, Some t =>
          if (a <? 8) && negb ((byte_of h =? 50) && (byte_of l =? 53)) then None
          else Some (String (Ascii.ascii_of_N (Z.to_N (16 * a + b))) t)
        | _, _, _ => None
        end
      | _ => None
      end
    else if host_byte c
    then match unescape_host s' with Some t => Some (String c t) | None => None end
    else None
  end.

(** ** Parsing *)

(** [getScheme]: [None] is the error, [Some ("", s)] no scheme. *)
Fixpoint scheme_end (first : bool) (s : string) : option (option (string * string)) :=
  match s with
  | EmptyString => Some None
  | String c s' =>
    if is_letter c || (negb first && (is_digit_byte c || existsb (fun b => byte_of c =? b) [43; 45; 46]))
    then match scheme_end false s' with
         | Some (Some (x, r)) => Some (Some (String c x, r))
         | r => r
         end
    else if byte_of c =? 58 then (if first then None else Some (Some (EmptyString, s')))
    else Some None
  end.
Definition getScheme (s : string) : option (string * string) :=
  match scheme_end true s with
  | None => None
  | Some None => Some (EmptyString, s)
  | Some (Some (x, r)) => Some (x, r)
  end.

(** [validOptionalPort]: empty, or a colon and digits. *)
Definition validOptionalPort (s : string) : bool :=
  match s with
  | EmptyString => true
  | String c s' => (byte_of c =? 58) && string_forallb is_digit_byte s'
  end.

Definition parseHost (host : string) : option string :=
  if has_byte 91 host then None
  else match cut_last 58 host with
       | Some (_, port) => if string_forallb is_digit_byte port then unescape_host host else None
       | None => unescape_host host
       end.
Definition parseAuthority (authority : string) : option (bool * string) :=
  match cut_last 64 authority with
  | None => match parseHost authority with Some h => Some (false, h) | None => None end
  | Some (_, host) => match parseHost host with Some h => Some (true, h) | None => None end
  end.

Definition starts (b : Z) (s : string) : bool :=
  match s with String c _ => byte_of c =? b | EmptyString => false end.
Definition tail2 (s : string) : string :=
  match s with String _ (String _ s') => s' | _ => EmptyString end.
Definition starts2 (b : Z) (s : string) : bool :=
  match s with String c s' => (byte_of c =? b) && starts b s' | EmptyString => false end.

Definition finish (sch : string) (user : bool) (host rest query : string) (force : bool)
  : option URL :=
  match unescape_path rest with
  | Some path => Some (mkURL sch "" user host path query force "")
  | None => None
  end.

Section parse.
Context `{GoRuntime}.

(** [parse(rawURL, false)], without the fragment. *)
Definition url_parse_rest (raw : string) : option URL :=
  if string_existsb is_ctl raw then None
  else if raw =s "*" then Some (mkURL "" "" false "" "*" "" false "")
  else match getScheme raw with
  | None => None
  | Some (scheme, rest) =>
    let scheme := ToLower scheme in
    let '(rest, query, force) :=
      if ends_with 63 rest && Nat.eqb (count_byte 63 rest) 1
      then (drop_last rest, EmptyString, true)
      else let '(a, q) := cut 63 rest in (a, default EmptyString q, false) in
    if negb (starts 47 rest) && (scheme <>s "")
    then Some (mkURL scheme rest false "" "" query force "")
    else if negb (starts 47 rest) && has_byte 58 (cut 47 rest).1 then None
    else if starts2 47 rest && ((scheme <>s "") || negb (starts 47 (tail2 rest)))
    then
      let '(authority, path) := cut 47 (tail2 rest) in
      let path := match path with Some p => String (Ascii.ascii_of_N 47) p | None => EmptyString end in
      match parseAuthority authority with
      | Some (user, host) => finish scheme user host path query force
      | None => None
      end
    else finish scheme false "" rest query force
  end.

(** [url.Parse]. *)
Definition url_parse (raw : string) : option URL :=
  let '(u, frag) := cut 35 raw in
  match url_parse_rest u with
  | None => None
  | Some url =>
    match default EmptyString frag with
    | EmptyString => Some url
    | f => match unescape_path f with
           | Some f' => Some (mkURL (u_Scheme url) (u_Opaque url) (u_User url) (u_Host url)
                                (u_Path url) (u_RawQuery url) (u_ForceQuery url) f')
           | None => None
           end
    end
  end.
End parse.

(** [splitHostPort], [Hostname] and [Port]; hosts in brackets do not occur. *)
Definition splitHostPort (hostport : string) : string * string :=
  match cut_last 58 hostport with
  | Some (h, p) => if string_forallb is_digit_byte p then (h, p) else (hostport, "")
  | None => (hostport, "")
  end.
Definition Hostname (u : URL) : string := (splitHostPort (u_Host u)).1.
Definition Port (u : URL) : string := (splitHostPort (u_Host u)).2.
