(* ===== verification/Csr.v ===== *)
(** Validation of signing requests: internal/csr/csr.go.

    The PEM and ASN.1 decoders, the signature check, SHA-256 and the other
    cryptographic primitives are the operations of [Crypto]. *)

From S2P Require Import Prelude Rows GoUrl.

Definition MaxCSRBytes : Z := 16384.
Definition MaxSPIFFEIDBytes : Z := 2048.
Definition csr_ErrTooLarge : err := Sentinel "csr" "ErrTooLarge".
Definition csr_ErrParse : err := Sentinel "csr" "ErrParse".
Definition csr_ErrSPIFFEID : err := Sentinel "csr" "ErrSPIFFEID".
Definition csr_ErrWeakKey : err := Sentinel "csr" "ErrWeakKey".
Definition csr_ErrSANs : err := Sentinel "csr" "ErrSANs".

(** ** SPIFFE identities *)
Record SPIFFEID := mkSPIFFEID { sid_TrustDomain : string; sid_Path : string; sid_Raw : string }.

Definition SPIFFEID_String (id : SPIFFEID) : string :=
  "spiffe://" +:+ sid_TrustDomain id +:+ "/" +:+ sid_Path id.

Definition hasControl (s : string) : bool :=
  string_existsb (fun c => (byte_of c <? 32) || (byte_of c =? 127)) s.
Definition csr_validTrustDomain (host : string) : bool := string_forallb trust_domain_byte host.
(** [strings.TrimPrefix(s, "/")]. *)
Definition trim_slash (s : string) : string :=
  match s with String c s' => if byte_of c =? 47 then s' else s | EmptyString => s end.

Section spiffe.
Context `{GoRuntime}.

Definition ParseSPIFFEID (s : string) : res SPIFFEID :=
  if (str_len s =? 0) || (MaxSPIFFEIDBytes <? str_len s) || hasControl s then Err csr_ErrSPIFFEID
  else match url_parse s with
  | None => Err csr_ErrSPIFFEID
  | Some u =>
    if (u_Scheme u <>s "spiffe") || (u_Opaque u <>s "") then Err csr_ErrSPIFFEID
    else if u_User u || (u_RawQuery u <>s "") || u_ForceQuery u || (u_Fragment u <>s "")
    then Err csr_ErrSPIFFEID
    else if Port u <>s "" then Err csr_ErrSPIFFEID
    else
      let host := Hostname u in
      if (host =s "") || (253 <? str_len host) || negb (csr_validTrustDomain host)
      then Err csr_ErrSPIFFEID
      else
        let path := trim_slash (u_Path u) in
        if (path =s "") || hasControl path then Err csr_ErrSPIFFEID
        else Ok (mkSPIFFEID host path s)
  end.

(** ** SANs *)
Definition ValidateSANs (requested csrProvided : list string) : res unit :=
  let allowed : gset string := list_to_set (ToLower <$> requested) in
  if forallb (fun name => bool_decide (ToLower name ∈ allowed)) csrProvided
  then Ok tt else Err csr_ErrSANs.
End spiffe.

(** ** Keys and certificates *)
Inductive PublicKey : Type :=
| RSAKey (bits : Z) (der : string)
| ECDSAKey (bits : Z) (der : string)
| Ed25519Key (der : string)
| OtherKey (der : string).

Definition keyStrength (pub : PublicKey) : res Z :=
  match pub with
  | RSAKey bits _ => if bits <? 2048 then Err csr_ErrWeakKey else Ok bits
  | ECDSAKey bits _ => if bits <? 256 then Err csr_ErrWeakKey else Ok bits
  | Ed25519Key _ => Ok 256
  | OtherKey _ => Err csr_ErrWeakKey
  end.

(** What the code reads of a parsed request, and writes into a certificate. *)
Record CertificateRequestDER := mkCertReq {
  cr_Raw : string; cr_PublicKey : PublicKey; cr_DNSNames : list string; cr_URIs : list string;
}.
Record Template := mkTemplate {
  tm_SerialNumber : Z; tm_CommonName : string; tm_NotBefore : Z; tm_NotAfter : Z;
  tm_IsCA : bool; tm_URI : string; tm_DNSNames : list string;
}.

(** What the code reads of a parsed certificate. *)
Record X509 := mkX509 {
  x_Raw : string; x_SerialNumber : Z; x_NotBefore : Z; x_NotAfter : Z; x_IsCA : bool;
  x_CommonName : string; x_DNSNames : list string; x_IPAddresses : list string;
  x_URIs : list string; x_EmailAddresses : list string; x_PublicKey : PublicKey;
  x_IssuerDN : string;
}.
(** A PEM block: its type, whether it has a Proc-Type header, its bytes. *)
Record Block := mkBlock { blk_Type : string; blk_ProcType : string; blk_Bytes : string }.

(** crypto/x509, crypto/ecdsa, encoding/pem and crypto/sha256.  A private key is
    an opaque text; the first argument of an operation that reads the random
    source numbers the read. *)
Class Crypto := {
  pem_next : string -> option (Block * string);         (* pem.Decode: the block and the rest *)
  pem_encode : string -> string -> string;              (* type, bytes *)
  parse_csr_der : string -> option CertificateRequestDER;
  csr_signature_ok : CertificateRequestDER -> bool;
  generate_key : nat -> res (string * PublicKey);       (* ecdsa.GenerateKey(P-256) *)
  marshal_key : string -> res string;                   (* PKCS#8 *)
  parse_pkcs8 : string -> option (option string);       (* [Some None]: not a crypto.Signer *)
  parse_pkcs1 : string -> option string;                (* x509.ParsePKCS1PrivateKey *)
  parse_ec : string -> option string;                   (* x509.ParseECPrivateKey *)
  public_of : string -> PublicKey;                      (* key.Public() *)
  parse_certificate : string -> res X509;               (* x509.ParseCertificate *)
  random_int : nat -> res Z;                            (* rand.Int below 2^128 *)
  (* template, parent certificate ([None]: the template itself), public key, signer *)
  create_certificate : nat -> Template -> option string -> PublicKey -> string -> res string;
  (* common name, DNS names, key *)
  create_csr : nat -> string -> list string -> string -> res string;
  sha256_hex : string -> string;
}.
(** The first block of a text: its type and bytes. *)
Definition pem_decode `{Crypto} (s : string) : option (string * string) :=
  match pem_next s with Some (b, _) => Some (blk_Type b, blk_Bytes b) | None => None end.
(** The signer of a PKCS#8 text. *)
Definition parse_key `{Crypto} (der : string) : option string :=
  match parse_pkcs8 der with Some (Some k) => Some k | _ => None end.

Section csr.
Context `{Crypto}.

Record ParsedCSR := mkParsedCSR {
  pc_CSR : CertificateRequestDER; pc_DNSNames : list string; pc_URIs : list string;
  pc_PublicKeyBits : Z;
}.
Definition ParseCSR (pemBytes : string) : res ParsedCSR :=
  if MaxCSRBytes <? str_len pemBytes then Err csr_ErrTooLarge
  else match pem_decode pemBytes with
  | None => Err csr_ErrParse
  | Some (ty, der) =>
    if ty <>s "CERTIFICATE REQUEST" then Err csr_ErrParse
    else match parse_csr_der der with
    | None => Err csr_ErrParse
    | Some csr =>
      if negb (csr_signature_ok csr) then Err csr_ErrParse
      else
        let? bits := keyStrength (cr_PublicKey csr) in
        Ok (mkParsedCSR csr (cr_DNSNames csr) (cr_URIs csr) bits)
    end
  end.

Definition EncodeCertPEM (der : string) : string := pem_encode "CERTIFICATE" der.
Definition Fingerprint (der : string) : string := sha256_hex der.
(** [randomSerial] of internal/ca and internal/issue: positive, at most 2^128. *)
Definition randomSerial (draw : nat) : res Z := let? n := random_int draw in Ok (n + 1).
End csr.

(** ** SANs are compared without regard to case *)
Lemma ValidateSANs_spec `{GoRuntime} req prov :
  ValidateSANs req prov = Ok tt <->
  forall x, x ∈ prov -> exists y, y ∈ req /\ ToLower y = ToLower x.
Proof.
  unfold ValidateSANs. destruct (forallb _ _) eqn:E.
  - split; [|done]. intros _ x Hx. rewrite forallb_forall in E.
    specialize (E x (proj1 (list_elem_of_In _ _) Hx)). bools.
    apply elem_of_list_to_set, list_elem_of_fmap in E as (y & ? & ?). eauto.
  - split; [done|]. intros Hs. exfalso. apply not_true_iff_false in E. apply E.
    apply forallb_forall. intros x Hx%list_elem_of_In. destruct (Hs x Hx) as (y & Hy & He).
    apply bool_decide_eq_true, elem_of_list_to_set, list_elem_of_fmap. eauto.
Qed.

(** ** The canonical form of an identity *)

Lemma forallb_app f a b : string_forallb f (a +:+ b) = string_forallb f a && string_forallb f b.
Proof.
  induction a as [|c a IH]; [done|]. change (String c a +:+ b) with (String c (a +:+ b)).
  simpl. by rewrite IH, andb_assoc.
Qed.
Lemma forallb_impl (f g : Ascii.ascii -> bool) s :
  (forall c, f c = true -> g c = true) -> string_forallb f s = true -> string_forallb g s = true.
Proof.
  intros Hfg. induction s as [|c s IH]; simpl; [done|]. intros [? ?]%andb_true_iff.
  rewrite Hfg by done. by apply IH.
Qed.

(** A string without a byte. *)
Definition lacks (b : Z) (s : string) : bool := string_forallb (fun c => negb (byte_of c =? b)) s.

Lemma lacks_has_byte b s : lacks b s = true -> has_byte b s = false.
Proof. unfold lacks, has_byte, string_existsb. intros ->. done. Qed.
Lemma cut_lacks b s : lacks b s = true -> cut b s = (s, None).
Proof.
  induction s as [|c s IH]; simpl; [done|]. intros [Hc Hs]%andb_true_iff.
  apply negb_true_iff in Hc. rewrite Hc, (IH Hs). done.
Qed.
Lemma cut_app b x s :
  lacks b x = true -> byte_of (Ascii.ascii_of_N (Z.to_N b)) = b ->
  cut b (x +:+ String (Ascii.ascii_of_N (Z.to_N b)) s) = (x, Some s).
Proof.
  intros Hx Hb. induction x as [|c x IH].
  - simpl. by rewrite Hb, Z.eqb_refl.
  - simpl in Hx. apply andb_true_iff in Hx as [Hc Hx]. apply negb_true_iff in Hc.
    change (String c x +:+ ?t) with (String c (x +:+ t)). simpl. by rewrite Hc, (IH Hx).
Qed.
Lemma cut_last_lacks b s : lacks b s = true -> cut_last b s = None.
Proof.
  induction s as [|c s IH]; simpl; [done|]. intros [Hc Hs]%andb_true_iff.
  apply negb_true_iff in Hc. by rewrite (IH Hs), Hc.
Qed.
Lemma ends_with_lacks b s : lacks b s = true -> ends_with b s = false.
Proof.
  induction s as [|c s IH]; [done|]. intros [Hc Hs]%andb_true_iff. apply negb_true_iff in Hc.
  destruct s; [done|]. by apply IH.
Qed.
Lemma unescape_path_lacks s : lacks 37 s = true -> unescape_path s = Some s.
Proof.
  induction s as [|c s IH]; simpl; [done|]. intros [Hc Hs]%andb_true_iff.
  apply negb_true_iff in Hc. by rewrite Hc, (IH Hs).
Qed.
Lemma trust_byte_host c : trust_domain_byte c = true -> host_byte c = true /\ (byte_of c =? 37) = false.
Proof.
  unfold trust_domain_byte, host_byte, is_letter, is_digit_byte. simpl. intros Hc.
  destruct (byte_of c =? 37) eqn:E37; bools; [by rewrite E37 in Hc|]. split; [|done].
  repeat (apply orb_true_iff in Hc as [Hc|Hc]); rewrite Hc; simpl; rewrite ?orb_true_r; done.
Qed.
Lemma unescape_host_domain s : string_forallb trust_domain_byte s = true -> unescape_host s = Some s.
Proof.
  induction s as [|c s IH]; simpl; [done|]. intros [Hc Hs]%andb_true_iff.
  destruct (trust_byte_host c Hc) as [-> ->]. by rewrite (IH Hs).
Qed.
Lemma trust_lacks b s :
  string_forallb trust_domain_byte s = true -> existsb (Z.eqb b) [47; 64; 91; 58; 63; 35] = true ->
  lacks b s = true.
Proof.
  intros Hs Hb. eapply forallb_impl; [|exact Hs]. intros c Hc.
  apply negb_true_iff, Z.eqb_neq. intros <-. unfold trust_domain_byte in Hc. revert Hb Hc. simpl.
  rewrite !orb_true_iff, !andb_true_iff, !Z.eqb_eq, !Z.leb_le. lia.
Qed.
Lemma trust_no_control s : string_forallb trust_domain_byte s = true -> hasControl s = false.
Proof.
  intros Hs. unfold hasControl, string_existsb. apply negb_false_iff.
  eapply forallb_impl; [|exact Hs]. intros c Hc. unfold trust_domain_byte in Hc.
  apply negb_true_iff, orb_false_iff. rewrite Z.ltb_ge, Z.eqb_neq.
  rewrite !orb_true_iff, !andb_true_iff, !Z.eqb_eq, !Z.leb_le in Hc. lia.
Qed.
Lemma hasControl_app a b : hasControl (a +:+ b) = hasControl a || hasControl b.
Proof. unfold hasControl, string_existsb. by rewrite forallb_app, negb_andb. Qed.
Lemma lacks_app b x y : lacks b (x +:+ y) = lacks b x && lacks b y.
Proof. apply forallb_app. Qed.

(** The authority and path of the canonical form. *)
Lemma parse_authority_domain td :
  string_forallb trust_domain_byte td = true -> parseAuthority td = Some (false, td).
Proof.
  intros Ht. unfold parseAuthority, parseHost.
  rewrite (cut_last_lacks 64 td), (lacks_has_byte 91 td), (cut_last_lacks 58 td)
    by (apply trust_lacks; done).
  by rewrite unescape_host_domain.
Qed.
Lemma url_parse_canonical `{GoRuntime} td path :
  string_forallb trust_domain_byte td = true -> hasControl path = false ->
  lacks 37 path = true -> lacks 63 path = true -> lacks 35 path = true ->
  url_parse ("spiffe://" +:+ td +:+ "/" +:+ path)
  = Some (mkURL "spiffe" "" false td ("/" +:+ path) "" false "").
Proof.
  intros Ht Hc H37 H63 H35. unfold url_parse.
  rewrite (cut_lacks 35) by (rewrite !lacks_app, (trust_lacks 35 td), H35 by done; done).
  assert (Hrest : url_parse_rest ("spiffe://" +:+ td +:+ "/" +:+ path)
                  = Some (mkURL "spiffe" "" false td ("/" +:+ path) "" false "")).
  { unfold url_parse_rest. set (raw := "spiffe://" +:+ td +:+ "/" +:+ path).
    assert (Hctl : string_existsb is_ctl raw = false).
    { change (hasControl raw = false). unfold raw. rewrite !hasControl_app, Hc.
      rewrite (trust_no_control td Ht). done. }
    rewrite Hctl. change (raw =s "*") with false.
    set (rest := "//" +:+ td +:+ "/" +:+ path).
    change (getScheme raw) with (Some ("spiffe", rest)). cbv iota beta zeta.
    change (ToLower "spiffe") with "spiffe".
    assert (H63' : lacks 63 rest = true)
      by (unfold rest; by rewrite !lacks_app, (trust_lacks 63 td), H63).
    rewrite (ends_with_lacks 63 _ H63'), (cut_lacks 63 _ H63'). cbn [andb default].
    change (starts 47 rest) with true. change (starts2 47 rest) with true.
    change (tail2 rest) with (td +:+ String (Ascii.ascii_of_N (Z.to_N 47)) path).
    change ("spiffe" <>s "") with true. cbn [negb andb orb].
    rewrite cut_app by (done || by apply trust_lacks). rewrite parse_authority_domain by done.
    unfold finish.
    change (String (Ascii.ascii_of_N 47) path) with ("/" +:+ path).
    by rewrite unescape_path_lacks by (by rewrite lacks_app, H37). }
  by rewrite Hrest.
Qed.

Lemma ParseSPIFFEID_complete `{GoRuntime} td path :
  ValidTrustDomain td = true -> path <> "" -> hasControl path = false ->
  lacks 37 path = true -> lacks 63 path = true -> lacks 35 path = true ->
  str_len ("spiffe://" +:+ td +:+ "/" +:+ path) <= MaxSPIFFEIDBytes ->
  ParseSPIFFEID ("spiffe://" +:+ td +:+ "/" +:+ path)
  = Ok (mkSPIFFEID td path ("spiffe://" +:+ td +:+ "/" +:+ path)).
Proof.
  unfold ValidTrustDomain. destruct (_ || _) eqn:El; [done|]. bools.
  intros Ht Hp Hc H37 H63 H35 Hlen. unfold ParseSPIFFEID.
  change (str_len _ =? 0) with false.
  rewrite (proj2 (Z.ltb_ge _ _) Hlen), !hasControl_app, Hc, (trust_no_control td Ht).
  cbn [orb]. change (hasControl "spiffe://") with false. change (hasControl "/") with false. cbn [orb].
  rewrite url_parse_canonical by done.
  cbn [u_Scheme u_Opaque u_User u_RawQuery u_ForceQuery u_Fragment].
  assert (Hsp : splitHostPort td = (td, ""))
    by (unfold splitHostPort; rewrite cut_last_lacks; [done|by apply trust_lacks]).
  unfold Port, Hostname. cbn [u_Host]. rewrite Hsp. cbn [fst snd].
  change (trim_slash (u_Path _)) with path. unfold csr_validTrustDomain.
  rewrite (proj2 (str_eqb_neq td "")), (proj2 (Z.ltb_ge _ _)), Ht by done.
  by rewrite (proj2 (str_eqb_neq path "")), Hc by done.
Qed.
Lemma ParseSPIFFEID_sound `{GoRuntime} s id :
  ParseSPIFFEID s = Ok id ->
  ValidTrustDomain (sid_TrustDomain id) = true /\ sid_Path id <> ""
  /\ hasControl (sid_Path id) = false /\ sid_Raw id = s /\ 0 < str_len s <= MaxSPIFFEIDBytes.
Proof.
  unfold ParseSPIFFEID. intros Hr. repeat (case_match; [discriminate|]).
  destruct (url_parse s) as [u|]; [|done]. repeat (case_match; [discriminate|]).
  injection Hr as <-. simpl. bools. unfold ValidTrustDomain. unfold csr_validTrustDomain in *.
  rewrite (proj2 (str_eqb_neq _ _)), (proj2 (Z.ltb_ge _ _)) by done. simpl.
  unfold str_len in *. split_and!; done || lia.
Qed.

(** An accepted identity has a valid trust domain and a canonical form that
    is accepted as the same identity, unless its decoded path holds a percent
    sign, a question mark or a number sign. *)
Theorem ParseSPIFFEID_canonical `{GoRuntime} s id :
  ParseSPIFFEID s = Ok id ->
  ValidTrustDomain (sid_TrustDomain id) = true
  /\ (lacks 37 (sid_Path id) = true -> lacks 63 (sid_Path id) = true ->
      lacks 35 (sid_Path id) = true -> str_len (SPIFFEID_String id) <= MaxSPIFFEIDBytes ->
      ParseSPIFFEID (SPIFFEID_String id)
      = Ok (mkSPIFFEID (sid_TrustDomain id) (sid_Path id) (SPIFFEID_String id))).
Proof.
  intros (Ht & Hp & Hc & _ & _)%ParseSPIFFEID_sound. split; [done|]. intros.
  by apply ParseSPIFFEID_complete.
Qed.

(** The exception is real: an escaped question mark passes the checks on the
    query and ends up in the canonical form, which names another identity with
    a query and is refused. *)
Theorem ParseSPIFFEID_escaped_query `{GoRuntime} :
  exists s id, ParseSPIFFEID s = Ok id
    /\ SPIFFEID_String id = "spiffe://example.org/web?admin"
    /\ ParseSPIFFEID (SPIFFEID_String id) = Err csr_ErrSPIFFEID.
Proof. eexists "spiffe://example.org/web%3Fadmin", _. repeat split. Qed.

(** A request accepted for signing is at most 16 KiB of PEM, carries a valid
    self-signature and a key no weaker than RSA 2048, P-256 or Ed25519. *)
Theorem ParseCSR_strong `{Crypto} pemBytes p :
  ParseCSR pemBytes = Ok p ->
  str_len pemBytes <= MaxCSRBytes /\ csr_signature_ok (pc_CSR p) = true
  /\ match cr_PublicKey (pc_CSR p) with
     | RSAKey bits _ => 2048 <= bits /\ pc_PublicKeyBits p = bits
     | ECDSAKey bits _ => 256 <= bits /\ pc_PublicKeyBits p = bits
     | Ed25519Key _ => pc_PublicKeyBits p = 256
     | OtherKey _ => False
     end.
Proof.
  unfold ParseCSR. case_match; [done|]. bools.
  destruct (pem_decode _) as [[ty der]|]; [|done]. case_match; [done|].
  destruct (parse_csr_der der) as [csr|]; [|done].
  destruct (csr_signature_ok csr) eqn:Hs; simpl; [|done].
  destruct (keyStrength _) as [bits|] eqn:Hk; simpl; [|done]. intros [= <-]. simpl.
  split_and!; [lia|done|]. unfold keyStrength in Hk.
  destruct (cr_PublicKey csr); try (case_match; bools); simplify_eq; auto.
Qed.

Module CsrSample.
#[local] Existing Instance std_runtime.
(** A stand-in for the cryptography: PEM is the type, a colon and the bytes; every
    draw succeeds. *)
Definition toy_crypto : Crypto := {|
  pem_next s := match cut 58 s with
                | (ty, Some b) => Some (mkBlock ty "" b, "")
                | (_, None) => None
                end;
  pem_encode ty b := ty +:+ ":" +:+ b;
  parse_csr_der s := Some (mkCertReq s (ECDSAKey 256 "pub") ["a.example.org"] []);
  csr_signature_ok _ := true;
  generate_key n := Ok ("key", ECDSAKey 256 "pub");
  marshal_key k := Ok k;
  parse_pkcs8 s := Some (Some s);
  parse_pkcs1 s := None;
  parse_ec s := None;
  public_of k := ECDSAKey 256 "pub";
  parse_certificate s :=
    Ok (mkX509 s 77 0 1000 false "a.example.org" ["a.example.org"] [] [] [] (ECDSAKey 256 "pub") "CA");
  random_int n := Ok (Z.of_nat n);
  create_certificate n t _ _ _ := Ok (tm_CommonName t);
  create_csr n cn _ _ := Ok cn;
  sha256_hex s := s;
|}.
Lemma ParseSPIFFEID_canonical_witness :
  ParseSPIFFEID "spiffe://example.org/web"
  = Ok (mkSPIFFEID "example.org" "web" "spiffe://example.org/web")
  /\ ValidTrustDomain "example.org" = true.
Proof.
  split; [reflexivity|].
  exact (proj1 (ParseSPIFFEID_canonical "spiffe://example.org/web"
           (mkSPIFFEID "example.org" "web" "spiffe://example.org/web") eq_refl)).
Defined.
Lemma ParseCSR_strong_witness :
  exists p, ParseCSR (H := toy_crypto) "CERTIFICATE REQUEST:abc" = Ok p /\ pc_PublicKeyBits p = 256.
Proof.
  eexists. split; [reflexivity|].
  exact (proj2 (proj2 (proj2 (ParseCSR_strong (H := toy_crypto) "CERTIFICATE REQUEST:abc"
           (mkParsedCSR (mkCertReq "abc" (ECDSAKey 256 "pub") ["a.example.org"] []) ["a.example.org"] [] 256)
           eq_refl)))).
Defined.
End CsrSample.
