(* ===== verification/Sealed.v ===== *)
(** Sealing and redaction of settings: internal/sealed/sealed.go.

    AES-256-GCM is the class [AEAD]; its two laws are the documented behaviour
    of [cipher.AEAD]: sealing adds the overhead and opening inverts sealing, and
    only that (the tag is a function of key, nonce, text and associated data).
    Loading the key is in Kek.v. *)

From S2P Require Import Prelude Rows GoJson.

Definition Marker : string := "__set__".
Definition MaxSettingsBytes : Z := 8192.
Definition sealed_ErrTampered : err := Sentinel "sealed" "ErrTampered".
Definition sealed_ErrTooLarge : err := Sentinel "sealed" "ErrTooLarge".

Definition NonceSize : nat := 12.
Definition Overhead : nat := 16.
Class AEAD := {
  aead_seal : string -> string -> string -> string -> string;        (* key nonce text ad *)
  aead_open : string -> string -> string -> string -> option string;
}.
Class AEADLaws `{AEAD} : Prop := {
  aead_length k n p ad :
    String.length (aead_seal k n p ad) = (String.length p + Overhead)%nat;
  aead_open_iff k n c p ad : aead_open k n c ad = Some p <-> c = aead_seal k n p ad;
}.

(** ** The envelope *)

(** [s[:n]] and [s[n:]]. *)
Definition str_firstn (n : nat) (s : string) : string := String.substring 0 n s.
Fixpoint str_skipn (n : nat) (s : string) : string :=
  match n, s with
  | O, _ => s
  | S n', String _ s' => str_skipn n' s'
  | S _, EmptyString => EmptyString
  end.

Section envelope.
Context `{AEAD}.

(** [Seal] with the data key and the two nonces read from the random source. *)
Definition env_Seal (kek dek n1 n2 plaintext ad : string) : res string :=
  if MaxSettingsBytes <? str_len plaintext then Err sealed_ErrTooLarge
  else Ok (n1 +:+ aead_seal kek n1 dek ad +:+ n2 +:+ aead_seal dek n2 plaintext ad).

Definition env_Open (kek blob ad : string) : res string :=
  let wrapLen := (32 + Overhead)%nat in
  if str_len blob <? Z.of_nat (NonceSize + wrapLen + NonceSize + 16) then Err sealed_ErrTampered
  else
    match aead_open kek (str_firstn NonceSize blob)
            (str_firstn wrapLen (str_skipn NonceSize blob)) ad with
    | None => Err sealed_ErrTampered
    | Some dek =>
      let rest := str_skipn (NonceSize + wrapLen) blob in
      match aead_open dek (str_firstn NonceSize rest) (str_skipn NonceSize rest) ad with
      | None => Err sealed_ErrTampered
      | Some pt => Ok pt
      end
    end.
End envelope.

Definition ADCA (id : string) : string := "ca:" +:+ id.
Definition ADIssuer (id : string) : string := "issuer:" +:+ id.
Definition ADSecret (id : string) : string := "secret:" +:+ id.
Definition ADWebhook (id : string) : string := "webhook:" +:+ id.
Definition ADCertKey (id : string) : string := "certkey:" +:+ id.
Definition ADTarget (id : string) : string := "target:" +:+ id.

(** ** Settings *)
Definition Settings : Type := gmap string any.

(** [json.Unmarshal] into a nil [Settings]; [null] leaves it nil. *)
Definition sealed_Decode (raw : bytes) : res Settings :=
  if MaxSettingsBytes <? blen raw then Err sealed_ErrTooLarge
  else match json_unmarshal (default "" raw) with
       | Some (AMap m) => Ok (list_to_map m)
       | _ => Err (Opaque "sealed: settings must be a JSON object")
       end.
Definition sealed_Encode `{GoRuntime} (s : Settings) : res string :=
  match json_marshal (AMap (map_range s)) with
  | None => Err (Opaque "json: unsupported value")
  | Some b => if MaxSettingsBytes <? str_len b then Err sealed_ErrTooLarge else Ok b
  end.

(** [str, _ := v.(string)]. *)
Definition as_string (v : any) : string := match v with AStr s => s | _ => "" end.

Definition redact_field (out : Settings) (f : string) : Settings :=
  match out !! f with
  | Some v => if as_string v <>s "" then <[f := AStr Marker]> out else delete f out
  | None => out
  end.
Definition Redact (s : Settings) (secretFields : list string) : Settings :=
  foldl redact_field s secretFields.

Definition Public (s : Settings) (secretFields : list string) : Settings :=
  foldl (fun out f => delete f out) s secretFields.

Definition merge_field (stored incoming out : Settings) (f : string) : Settings :=
  let present := incoming !! f in
  let str := match present with Some v => as_string v | None => "" end in
  if bool_decide (present = None) || (str =s Marker) then
    match stored !! f with
    | Some old => <[f := old]> out
    | None => delete f out
    end
  else if str =s "" then delete f out
  else out.
Definition Merge (stored incoming : Settings) (secretFields : list string) : Settings :=
  foldl (merge_field stored incoming) incoming secretFields.

(** ** Scrubbing *)

(** [text[:i]] for the first CR or LF. *)
Fixpoint first_line (s : string) : string :=
  match s with
  | EmptyString => EmptyString
  | String c s' => if (byte_of c =? 13) || (byte_of c =? 10) then EmptyString
                   else String c (first_line s')
  end.
(** [strings.ReplaceAll] of a non-empty text; [skip] bytes of a match remain. *)
Fixpoint replace_all (old new : string) (skip : nat) (s : string) : string :=
  match s with
  | EmptyString => EmptyString
  | String c s' =>
    match skip with
    | S k => replace_all old new k s'
    | O => if String.prefix old s
           then new +:+ replace_all old new (String.length old - 1) s'
           else String c (replace_all old new 0 s')
    end
  end.
(** [base64.StdEncoding.EncodeToString]. *)
Definition b64_char (n : Z) : Ascii.ascii :=
  chr (if n <? 26 then 65 + n else if n <? 52 then 71 + n else if n <? 62 then n - 4
       else if n =? 62 then 43 else 47).
Fixpoint base64 (s : string) : string :=
  match s with
  | EmptyString => EmptyString
  | String a EmptyString =>
    let n := byte_of a in
    String (b64_char (n / 4)) (String (b64_char (n mod 4 * 16)) "==")
  | String a (String b EmptyString) =>
    let n := byte_of a * 256 + byte_of b in
    String (b64_char (n / 1024)) (String (b64_char (n / 16 mod 64))
      (String (b64_char (n mod 16 * 4)) "="))
  | String a (String b (String c s')) =>
    let n := byte_of a * 65536 + byte_of b * 256 + byte_of c in
    String (b64_char (n / 262144)) (String (b64_char (n / 4096 mod 64))
      (String (b64_char (n / 64 mod 64)) (String (b64_char (n mod 64)) (base64 s'))))
  end.
Definition scrub_field (stored : Settings) (text f : string) : string :=
  match stored !! f with
  | Some (AStr v) =>
    if v <>s "" then
      let text := replace_all v "[REDACTED]" 0 text in
      let enc := base64 v in
      if enc <>s "" then replace_all enc "[REDACTED]" 0 text else text
    else text
  | _ => text
  end.
Definition Scrub (text : string) (stored : Settings) (secretFields : list string) : string :=
  let text := foldl (scrub_field stored) (first_line text) secretFields in
  if 1024 <? str_len text then str_firstn 1024 text else text.

(** ** Theorems *)

Section envelope_props.
Context `{AEADLaws}.

Lemma str_firstn_app n a b : String.length a = n -> str_firstn n (a +:+ b) = a.
Proof.
  intros <-. unfold str_firstn. induction a as [|c a IH]; [by destruct b|].
  rewrite str_cons_app. simpl. by rewrite IH.
Qed.
Lemma str_skipn_app n a b : String.length a = n -> str_skipn n (a +:+ b) = b.
Proof. intros <-. induction a as [|c a IH]; [done|]. exact IH. Qed.
Lemma str_split n s : (n <= String.length s)%nat -> s = str_firstn n s +:+ str_skipn n s.
Proof.
  revert s. unfold str_firstn. induction n as [|n IH]; intros [|c s] Hn; simpl in *; try done; try lia.
  rewrite str_cons_app. f_equal. apply IH. lia.
Qed.
Lemma str_firstn_length n s :
  (n <= String.length s)%nat -> String.length (str_firstn n s) = n.
Proof.
  revert s. unfold str_firstn. induction n as [|n IH]; intros [|c s] Hn; simpl in *; try done; try lia.
  f_equal. apply IH. lia.
Qed.
Lemma str_skipn_skipn a b s : str_skipn a (str_skipn b s) = str_skipn (b + a) s.
Proof. revert s. induction b as [|b IH]; intros [|c s]; simpl; try done; by destruct a. Qed.

Lemma str_skipn_length n s : String.length (str_skipn n s) = (String.length s - n)%nat.
Proof. revert n. induction s as [|c s IH]; intros [|n]; simpl; auto. Qed.

Lemma Open_iff kek blob ad pt :
  env_Open kek blob ad = Ok pt <->
   exists dek n1 n2, String.length dek = 32%nat /\ String.length n1 = NonceSize
     /\ String.length n2 = NonceSize
     /\ blob = n1 +:+ aead_seal kek n1 dek ad +:+ n2 +:+ aead_seal dek n2 pt ad.
Proof.
  unfold env_Open. split.
  - case_match; [done|]. bools. unfold str_len in *. unfold NonceSize, Overhead in *.
    set (wrapped := str_firstn (32 + 16) (str_skipn 12 blob)).
    destruct (aead_open kek _ wrapped ad) as [dek|] eqn:E1; [|done].
    destruct (aead_open dek _ _ ad) as [p|] eqn:E2; [|done]. intros [= ->].
    apply aead_open_iff in E1, E2.
    assert (Hw : String.length wrapped = 48%nat)
      by (apply str_firstn_length; rewrite str_skipn_length; lia).
    exists dek, (str_firstn 12 blob), (str_firstn 12 (str_skipn (12 + (32 + 16)) blob)).
    rewrite <- E1, <- E2. split_and!.
    + rewrite E1, aead_length in Hw. unfold Overhead in Hw. lia.
    + apply str_firstn_length. lia.
    + apply str_firstn_length. rewrite str_skipn_length. lia.
    + rewrite <- (str_split 12 (str_skipn _ blob)) by (rewrite str_skipn_length; lia).
      rewrite <- (str_skipn_skipn (32 + 16) 12). unfold wrapped.
      rewrite <- str_split by (rewrite str_skipn_length; lia). apply str_split. lia.
  - intros (dek & n1 & n2 & Hd & Hn1 & Hn2 & ->).
    assert (Hl : String.length (aead_seal kek n1 dek ad) = 48%nat)
      by (rewrite aead_length, Hd; done).
    assert (Hlen : str_len (n1 +:+ aead_seal kek n1 dek ad +:+ n2 +:+ aead_seal dek n2 pt ad)
                   >= Z.of_nat (NonceSize + (32 + Overhead) + NonceSize + 16)).
    { unfold str_len. rewrite !str_length_app, !aead_length, Hn1, Hn2, Hd. unfold Overhead. lia. }
    rewrite (proj2 (Z.ltb_ge _ _)) by lia. rewrite <- str_skipn_skipn.
    change (32 + Overhead)%nat with 48%nat.
    rewrite !(str_skipn_app NonceSize n1), (str_firstn_app NonceSize n1) by done.
    rewrite (str_firstn_app 48), (str_skipn_app 48) by done.
    rewrite (proj2 (aead_open_iff _ _ _ _ _) eq_refl).
    rewrite (str_firstn_app NonceSize n2), (str_skipn_app NonceSize n2) by done.
    by rewrite (proj2 (aead_open_iff _ _ _ _ _) eq_refl).
Qed.

(** What was sealed is opened with the same key and associated data; and
    conversely a blob that opens to a text of admissible size is a sealing of
    that text under the same key and associated data. *)
Theorem Seal_Open kek blob ad pt :
  (forall dek n1 n2, String.length dek = 32%nat -> String.length n1 = NonceSize ->
     String.length n2 = NonceSize -> env_Seal kek dek n1 n2 pt ad = Ok blob ->
     env_Open kek blob ad = Ok pt)
  /\ (env_Open kek blob ad = Ok pt -> str_len pt <= MaxSettingsBytes ->
      exists dek n1 n2, String.length dek = 32%nat /\ String.length n1 = NonceSize
        /\ String.length n2 = NonceSize /\ env_Seal kek dek n1 n2 pt ad = Ok blob).
Proof.
  split.
  - intros dek n1 n2 Hd H1 H2 Hs. apply Open_iff. exists dek, n1, n2. unfold env_Seal in Hs.
    case_match; [done|]. by injection Hs as <-.
  - intros (dek & n1 & n2 & Hd & H1 & H2 & ->)%Open_iff Hl. exists dek, n1, n2.
    split_and!; [done..|]. unfold env_Seal. by rewrite (proj2 (Z.ltb_ge _ _)).
Qed.
End envelope_props.

Section settings_props.
Implicit Types (s stored incoming : Settings).

(** What is left of a credential field after redaction. *)
Definition redacted_value (v : option any) : option any :=
  match v with
  | Some v => if as_string v <>s "" then Some (AStr Marker) else None
  | None => None
  end.
Lemma redact_field_lookup out f k :
  redact_field out f !! k = if bool_decide (k = f) then redacted_value (out !! k) else out !! k.
Proof.
  unfold redact_field, redacted_value. case_bool_decide as Hk; [subst k|].
  - destruct (out !! f) as [v|] eqn:E; [|by rewrite E].
    destruct (as_string v =s ""); [apply lookup_delete_eq|apply lookup_insert_eq].
  - destruct (out !! f) as [v|]; [|done].
    destruct (as_string v =s ""); [by apply lookup_delete_ne|by apply lookup_insert_ne].
Qed.
Lemma redacted_value_idem v : redacted_value (redacted_value v) = redacted_value v.
Proof. destruct v as [v|]; simpl; [|done]. by destruct (as_string v =s ""). Qed.
Lemma Redact_lookup fs s k :
  Redact s fs !! k = if bool_decide (k ∈ fs) then redacted_value (s !! k) else s !! k.
Proof.
  unfold Redact. revert s. induction fs as [|f fs IH]; intros s; simpl; [done|].
  rewrite IH, redact_field_lookup.
  repeat case_bool_decide; try apply redacted_value_idem; set_solver.
Qed.

Lemma Public_lookup fs s k :
  Public s fs !! k = if bool_decide (k ∈ fs) then None else s !! k.
Proof.
  unfold Public. revert s. induction fs as [|f fs IH]; intros s; [done|].
  cbn [foldl]. rewrite IH. destruct (decide (k = f)) as [->|Hne].
  - rewrite (lookup_delete_eq s f). repeat case_bool_decide; set_solver.
  - rewrite (lookup_delete_ne s f k) by done. repeat case_bool_decide; set_solver.
Qed.

(** What [Merge] leaves in a credential field. *)
Definition merged_value (stored incoming : option any) : option any :=
  match incoming with
  | None => stored
  | Some v => if as_string v =s Marker then stored
              else if as_string v =s "" then None else Some v
  end.
Lemma merged_redacted v : merged_value v (redacted_value v) = v.
Proof. destruct v as [v|]; simpl; [|done]. by destruct (as_string v =s ""). Qed.
Lemma merge_field_lookup stored incoming out f k :
  (out !! f = incoming !! f \/ out !! f = merged_value (stored !! f) (incoming !! f)) ->
  merge_field stored incoming out f !! k
  = if bool_decide (k = f) then merged_value (stored !! k) (incoming !! k) else out !! k.
Proof.
  intros Hout. unfold merge_field, merged_value in *.
  destruct (decide (k = f)) as [->|Hk];
    [rewrite (bool_decide_eq_true_2 (f = f)) by done|rewrite (bool_decide_eq_false_2 (k = f)) by done].
  - destruct (incoming !! f) as [v|] eqn:Ei; simpl.
    + destruct (as_string v =s Marker) eqn:Em.
      * destruct (stored !! f); [apply lookup_insert_eq|apply lookup_delete_eq].
      * destruct (as_string v =s "") eqn:Ee; [apply lookup_delete_eq|naive_solver].
    + destruct (stored !! f); [apply lookup_insert_eq|apply lookup_delete_eq].
  - destruct (_ || _); [destruct (stored !! f)|destruct (_ =s "")];
      [by apply lookup_insert_ne|by apply lookup_delete_ne..|done].
Qed.
Lemma Merge_lookup fs stored incoming k :
  Merge stored incoming fs !! k
  = if bool_decide (k ∈ fs) then merged_value (stored !! k) (incoming !! k) else incoming !! k.
Proof.
  unfold Merge. revert k. induction fs as [|f fs IH] using rev_ind; [done|]. intros k.
  rewrite foldl_app. simpl. rewrite merge_field_lookup by (rewrite IH; case_bool_decide; auto).
  rewrite IH. repeat case_bool_decide; set_solver.
Qed.

(** A client that sends back the settings it was shown changes nothing:
    merging the redacted settings into the stored ones gives the stored ones,
    while the redacted form shows of a credential at most that it is set. *)
Theorem Redact_Merge s fs :
  Merge s (Redact s fs) fs = s
  /\ (forall f, f ∈ fs -> Redact s fs !! f = None \/ Redact s fs !! f = Some (AStr Marker))
  /\ (forall f, f ∈ fs -> Public s fs !! f = None).
Proof.
  split_and!.
  - apply map_eq. intros k. rewrite Merge_lookup, Redact_lookup. case_bool_decide; [|done].
    apply merged_redacted.
  - intros f Hf. rewrite Redact_lookup, bool_decide_eq_true_2 by done. unfold redacted_value.
    repeat case_match; auto.
  - intros f Hf. by rewrite Public_lookup, bool_decide_eq_true_2.
Qed.

(** An update follows the documented rule field by field: a credential sent
    as the marker or omitted keeps its stored value, the empty string clears it,
    any other string replaces it; every other field comes from the update.  A
    credential that is not a string, such as a nested object, is cleared like
    the empty string. *)
Theorem Merge_rule stored incoming fs k :
  Merge stored incoming fs !! k =
  if decide (k ∈ fs) then
    match incoming !! k with
    | None => stored !! k
    | Some v => if decide (as_string v = Marker) then stored !! k
                else if decide (as_string v = "") then None else Some v
    end
  else incoming !! k.
Proof.
  rewrite Merge_lookup. destruct (decide (k ∈ fs));
    [rewrite bool_decide_eq_true_2 by done|by rewrite bool_decide_eq_false_2].
  unfold merged_value, str_eqb. generalize (incoming !! k). intros [v|]; [|done].
  destruct (decide (as_string v = Marker)) as [->|Hm]; [done|].
  rewrite (bool_decide_eq_false_2 _ Hm).
  by destruct (decide (as_string v = "")) as [->|He]; [|rewrite (bool_decide_eq_false_2 _ He)].
Qed.
End settings_props.

(** ** Witnesses *)
Module SealedSample.
(** A stand-in for AES-GCM: the tag is a fixed block and the text is in the
    clear; it satisfies the laws. *)
Definition tag : string := "0123456789abcdef".
Definition toy_aead : AEAD := {|
  aead_seal _ _ p _ := p +:+ tag;
  aead_open _ _ c _ :=
    let n := (String.length c - 16)%nat in
    if str_skipn n c =s tag then Some (str_firstn n c) else None;
|}.
Lemma toy_laws : AEADLaws (H := toy_aead).
Proof.
  split.
  - intros. simpl. by rewrite str_length_app.
  - intros k n c p ad. simpl. split.
    + case_match; [|done]. bools. intros [= <-]. rewrite <- H. apply str_split. lia.
    + intros ->. rewrite str_length_app. replace (_ - 16)%nat with (String.length p) by (simpl; lia).
      rewrite str_skipn_app, str_firstn_app by done. by rewrite str_eqb_refl.
Qed.
Lemma Seal_Open_witness :
  exists blob, env_Seal (H := toy_aead) "kek" "0123456789abcdef0123456789abcdef" "nonce1nonce1"
                 "nonce2nonce2" "hello" (ADCA "c1") = Ok blob
    /\ env_Open (H := toy_aead) "kek" blob (ADCA "c1") = Ok "hello".
Proof.
  eexists. split; [reflexivity|].
  apply (proj1 (Seal_Open (H0 := toy_laws) "kek" _ (ADCA "c1") "hello")
           "0123456789abcdef0123456789abcdef" "nonce1nonce1" "nonce2nonce2"); reflexivity.
Defined.
End SealedSample.
