(* ===== verification/World.v ===== *)
(** The world the services run in: the store, the audit calls made, and how far
    the identifier and random sources have been read.

    A service method is a computation [M A]: it may fail, and what it changed
    before failing stays changed.  Its clock reads one instant [now] for the
    whole call.  [s.audit.Record] never blocks and its error is dropped, so a
    service's audit trail is the list of the events it recorded. *)

From S2P Require Import Prelude Rows Memstore Authz GoJson GoUrl AuditLog Csr Sealed.

(** What the process is deployed with and reads from outside. *)
Class Env := {
  env_runtime :: GoRuntime;
  env_crypto :: Crypto;
  env_aead :: AEAD;
  env_ids :: IdSource;
  env_kek : string;
  random_bytes : nat -> nat -> res string;     (* io.ReadFull(rand, make([]byte, n)) *)
  (** whether [Atomic] undoes the writes of a function that fails: the SQL
      store does, the in-memory one does not *)
  tx_rollback : bool;
}.

(** What the code relies on of these: authenticated encryption, full reads of the
    random source, and that the encoders of PEM, PKCS#8 and X.509 are read back by
    their parsers. *)
Class EnvLaws `{Env} : Prop := {
  laws_aead :: AEADLaws;
  laws_random n k s : random_bytes n k = Ok s -> String.length s = k;
  laws_pem ty b : ty = "PRIVATE KEY" \/ ty = "CERTIFICATE" ->
    pem_next (pem_encode ty b) = Some (mkBlock ty "" b, "");
  laws_pem_rest s b rest : pem_next s = Some (b, rest) -> (String.length rest < String.length s)%nat;
  laws_key n k pub der :
    generate_key n = Ok (k, pub) -> marshal_key k = Ok der -> parse_pkcs8 der = Some (Some k);
  laws_cert n t parent pub signer der :
    create_certificate n t parent pub signer = Ok der -> exists c, parse_certificate der = Ok c;
}.

Record World := mkWorld { wd_mem : Mem; wd_events : list Event; wd_ids : nat; wd_rnd : nat }.
#[export] Instance world_eta : RecordEta World := fun r =>
  mkWorld (wd_mem r) (wd_events r) (wd_ids r) (wd_rnd r).
Definition M (A : Type) : Type := ST World A.

Definition reading {A} (f : Mem -> res A) : M A := fun w => (f (wd_mem w), w).
Definition writing {A} (f : Mem -> res A * Mem) : M A :=
  fun w => let '(r, m) := f (wd_mem w) in (r, w <| wd_mem := m |>).
(** [s.emit(ctx, e)]. *)
Definition emit (e : Event) : M unit := fun w => (Ok tt, w <| wd_events := wd_events w ++ [e] |>).

Section world.
Context `{Env}.

Definition newID : M string := fun w => (Ok (new_id (wd_ids w)), w <| wd_ids := S (wd_ids w) |>).
(** One read of the random source. *)
Definition drawing {A} (f : nat -> res A) : M A :=
  fun w => (f (wd_rnd w), w <| wd_rnd := S (wd_rnd w) |>).

(** [st.Atomic(ctx, tenant, fn)]. *)
Definition Atomic {A} (fn : M A) : M A :=
  fun w => match m_Fail (wd_mem w) !! "Atomic" with
           | Some e => (Err e, w)
           | None => match fn w with
                     | (Ok a, w') => (Ok a, w')
                     | (Err e, w') => (Err e, if tx_rollback then w' <| wd_mem := wd_mem w |> else w')
                     end
           end.

(** [env.Seal] and [env.Open] with the key of the process. *)
Definition Seal (plaintext ad : string) : M string :=
  if MaxSettingsBytes <? str_len plaintext then st_err sealed_ErrTooLarge
  else
    let* dek := drawing (fun n => random_bytes n 32) in
    let* n1 := drawing (fun n => random_bytes n 12) in
    let* n2 := drawing (fun n => random_bytes n 12) in
    st_lift (env_Seal env_kek dek n1 n2 plaintext ad).
Definition Open (blob : bytes) (ad : string) : res string := env_Open env_kek (default "" blob) ad.

(** The evaluator over the store. *)
Definition az_Check (now : Z) (s : Subjects) (rt rid action : string) : M unit :=
  reading (authz_Check now s rt rid action).
Definition az_Effective (now : Z) (s : Subjects) (rt rid : string)
  : M (Permissions * string * list Grant) :=
  reading (authz_Effective now s rt rid).
(** [authz.New(tx).GrantOwner]; the identifier is drawn only when used. *)
Definition az_GrantOwner (tenantID rt rid userID : string) : M unit :=
  if userID =s "" then st_ret tt
  else let* id := newID in writing (authz_GrantOwner id tenantID rt rid userID).
Definition az_DropResource (tenantID rt rid : string) : M unit :=
  writing (authz_DropResource tenantID rt rid).
End world.

#[global] Arguments Open : simpl never.
#[global] Arguments Seal : simpl never.

(** [userPtr]: the caller's user id, or nil for a service. *)
Definition userPtr (s : Subjects) : option string :=
  if sub_UserID s =s "" then None else Some (sub_UserID s).
(** [errors.Is(err, store.ErrNotFound)] and [store.ErrConflict]. *)
Definition is_not_found (e : err) : bool := errors_is e "store" "ErrNotFound".
Definition is_conflict (e : err) : bool := errors_is e "store" "ErrConflict".

(** ** Reasoning about computations *)

(** A computation that succeeded went through each of its steps. *)
Lemma st_bind_ok {S A B} (c : ST S A) (k : A -> ST S B) s b s' :
  st_bind c k s = (Ok b, s') <-> exists a s1, c s = (Ok a, s1) /\ k a s1 = (Ok b, s').
Proof.
  unfold st_bind. destruct (c s) as [[a|e] s1]; split.
  - eauto.
  - intros (a' & s1' & [= <- <-] & ?). done.
  - done.
  - by intros (a' & s1' & [=] & ?).
Qed.
Lemma st_guard_ok {S} b e (s s' : S) u : st_guard b e s = (Ok u, s') <-> b = true /\ s' = s.
Proof.
  unfold st_guard. destruct b, u; (split; [intros [=]; auto|by intros [[=] ->]]).
Qed.
Lemma st_lift_ok {S A} (r : res A) (s s' : S) a : st_lift r s = (Ok a, s') <-> r = Ok a /\ s' = s.
Proof. unfold st_lift. split; [intros [=]; auto|by intros [-> ->]]. Qed.
Lemma st_ret_ok {S A} (x a : A) (s s' : S) : st_ret x s = (Ok a, s') <-> a = x /\ s' = s.
Proof. unfold st_ret. split; [intros [=]; auto|by intros [-> ->]]. Qed.
Lemma reading_ok {A} (f : Mem -> res A) w w' a :
  reading f w = (Ok a, w') <-> f (wd_mem w) = Ok a /\ w' = w.
Proof. unfold reading. split; [intros [=]; auto|by intros [-> ->]]. Qed.
Lemma emit_ok e w w' u :
  emit e w = (Ok u, w') <-> w' = w <| wd_events := wd_events w ++ [e] |>.
Proof. unfold emit. destruct u. split; [by intros [=]|by intros ->]. Qed.
Lemma st_try_ok {S A} (c : ST S A) s s' r : st_try c s = (Ok r, s') <-> c s = (r, s').
Proof. unfold st_try. destruct (c s) as [r' s1]. split; [by intros [= -> ->]|by intros [= -> ->]]. Qed.
Lemma Atomic_ok `{Env} {A} (fn : M A) w w' a :
  Atomic fn w = (Ok a, w') -> fn w = (Ok a, w').
Proof. unfold Atomic. case_match; [done|]. destruct (fn w) as [[]?]; [done|]. by case_match. Qed.

Lemma writing_ok {A} (f : Mem -> res A * Mem) w w' a :
  writing f w = (Ok a, w') <-> exists m, f (wd_mem w) = (Ok a, m) /\ w' = w <| wd_mem := m |>.
Proof.
  unfold writing. destruct (f (wd_mem w)) as [r m]. split.
  - intros [= -> <-]. eauto.
  - intros (m' & [= -> ->] & ->). done.
Qed.

Lemma Seal_frame `{Env} plaintext ad w r w' :
  Seal plaintext ad w = (r, w') -> wd_mem w' = wd_mem w /\ wd_events w' = wd_events w.
Proof.
  unfold Seal, st_bind, drawing, st_lift, st_err. intros Hr. invert_run Hr; done.
Qed.
(** What is sealed opens again with the key of the process. *)
Lemma Seal_opens `{EnvLaws} plaintext ad w blob w' :
  Seal plaintext ad w = (Ok blob, w') -> Open (Some blob) ad = Ok plaintext.
Proof.
  unfold Seal. case_match; [done|]. intros Hr.
  apply st_bind_ok in Hr as (dek & w1 & [= Hd <-] & Hr).
  apply st_bind_ok in Hr as (n1 & w2 & [= Hn1 <-] & Hr).
  apply st_bind_ok in Hr as (n2 & w3 & [= Hn2 <-] & Hr).
  apply st_lift_ok in Hr as [Hs _]. unfold Open. simpl. apply Open_iff. exists dek, n1, n2.
  unfold env_Seal in Hs. case_match; [done|]. injection Hs as <-.
  split_and!; eauto using laws_random.
Qed.

(** An access check that passes changes nothing and means the caller is permitted;
    on a store without injected failures a refusal is one of the sentinels. *)
Lemma az_Check_ok `{Env} now s rt rid a w w' u :
  az_Check now s rt rid a w = (Ok u, w') -> w' = w /\ permitted now s rt rid a (wd_mem w).
Proof.
  intros [Hc ->]%reading_ok. split; [done|]. unfold authz_Check in Hc. case_match; [done|].
  destruct (resolve _ _ _ _ _) as [[[p rel] src]|] eqn:Hres; simpl in Hc; [|done].
  destruct (Has p a) eqn:Hu; [|done]. by eapply resolve_permitted.
Qed.
Lemma az_Check_err `{Env} now s rt rid a w w' e :
  m_Fail (wd_mem w) = ∅ -> az_Check now s rt rid a w = (Err e, w') ->
  w' = w /\ exists pkg n, e = Sentinel pkg n.
Proof.
  intros Hf [= Hc <-]. split; [done|]. unfold authz_Check in Hc.
  case_match; [injection Hc as <-; eexists _, _; reflexivity|].
  unfold resolve, locate, notFound, as_GetCertificate, as_GetIssuer, as_GrantsOnResource, mem_authz,
    Mem_GetCertificate, Mem_GetIssuer, Mem_GrantsOnResource, fail_read in Hc.
  rewrite Hf in Hc. rewrite !lookup_empty in Hc. simpl in Hc.
  repeat (case_match; simplify_eq/=; try destruct (authz_decide _ _ _) as [[? ?] ?]);
    eexists _, _; reflexivity.
Qed.

(** ** Frames: what a computation leaves alone, whether it succeeds or fails *)
Definition keeps {T A} (f : Mem -> T) (c : M A) : Prop :=
  forall w, f (wd_mem (c w).2) = f (wd_mem w).
Section frames.
Context `{Env} {T : Type} (f : Mem -> T).
Lemma keeps_run {A} (c : M A) w r w' : keeps f c -> c w = (r, w') -> f (wd_mem w') = f (wd_mem w).
Proof. intros Hc Hr. specialize (Hc w). by rewrite Hr in Hc. Qed.
Lemma keeps_ret {A} (a : A) : keeps f (st_ret a).
Proof. done. Qed.
Lemma keeps_err {A} e : keeps f (st_err e : M A).
Proof. done. Qed.
Lemma keeps_lift {A} (r : res A) : keeps f (st_lift r).
Proof. done. Qed.
Lemma keeps_reading {A} (g : Mem -> res A) : keeps f (reading g).
Proof. done. Qed.
Lemma keeps_emit e : keeps f (emit e).
Proof. done. Qed.
Lemma keeps_newID : keeps f newID.
Proof. done. Qed.
Lemma keeps_drawing {A} (g : nat -> res A) : keeps f (drawing g).
Proof. done. Qed.
Lemma keeps_bind {A B} (c : M A) (k : A -> M B) :
  keeps f c -> (forall a, keeps f (k a)) -> keeps f (st_bind c k).
Proof.
  intros Hc Hk w. unfold st_bind. specialize (Hc w). destruct (c w) as [[a|e] w1]; [|done].
  by rewrite (Hk a w1).
Qed.
Lemma keeps_try {A} (c : M A) : keeps f c -> keeps f (st_try c).
Proof. intros Hc w. unfold st_try. specialize (Hc w). by destruct (c w). Qed.
Lemma keeps_writing {A} (g : Mem -> res A * Mem) : (forall m, f (g m).2 = f m) -> keeps f (writing g).
Proof. intros Hg w. unfold writing. specialize (Hg (wd_mem w)). by destruct (g (wd_mem w)). Qed.
Lemma keeps_Atomic {A} (c : M A) : keeps f c -> keeps f (Atomic c).
Proof.
  intros Hc w. unfold Atomic. case_match; [done|]. specialize (Hc w).
  destruct (c w) as [[a|e] w1]; [done|]. by destruct tx_rollback.
Qed.
End frames.
Create HintDb frames.
#[export] Hint Resolve keeps_ret keeps_err keeps_lift keeps_reading keeps_emit keeps_newID
  keeps_drawing keeps_bind keeps_try keeps_Atomic : frames.
(** Splits a computation at its branches until the hints apply. *)
Ltac keep :=
  repeat first
    [ apply keeps_bind; [|intros ?] | apply keeps_try | apply keeps_Atomic
    | progress (eauto 2 with frames)
    | lazymatch goal with |- keeps _ (match ?x with _ => _ end) => destruct x end ].

(** Steps through a successful run: every bind becomes its parts. *)
Ltac run_step H :=
  lazymatch type of H with
  | st_bind _ _ _ = (Ok _, _) =>
      apply st_bind_ok in H; let x := fresh "x" in let s := fresh "w" in let Hx := fresh "Hrun" in
      destruct H as (x & s & Hx & H)
  | st_guard _ _ _ = (Ok _, _) => apply st_guard_ok in H; destruct H as [H ->]
  | st_lift _ _ = (Ok _, _) => apply st_lift_ok in H; destruct H as [H ->]
  | st_ret _ _ = (Ok _, _) => apply st_ret_ok in H; destruct H as [-> ->]
  | reading _ _ = (Ok _, _) => apply reading_ok in H; destruct H as [H ->]
  | emit _ _ = (Ok _, _) => apply emit_ok in H
  | st_err _ _ = (Ok _, _) => discriminate H
  end.

(** ** A stand-in for the deployment, for the witnesses *)
Module Toy.
Definition toy_env : Env := {|
  env_runtime := std_runtime;
  env_crypto := CsrSample.toy_crypto;
  env_aead := SealedSample.toy_aead;
  env_ids := fun n => "id" +:+ FormatInt (Z.of_nat n);
  env_kek := "kek";
  random_bytes n k := Ok (Nat.iter k (String (Ascii.ascii_of_nat 97)) "");
  tx_rollback := false;
|}.
#[local] Existing Instance toy_env.
Lemma toy_env_laws : EnvLaws.
Proof.
  split.
  - exact SealedSample.toy_laws.
  - intros n k s [= <-]. induction k as [|k IH]; [done|]. simpl. by rewrite IH.
  - intros ty b [-> | ->]; reflexivity.
  - intros s b rest. simpl. destruct s as [|c s]; [done|]. destruct (cut 58 (String c s)) as [ty [r|]]; [|done].
    intros [= _ <-]. simpl. lia.
  - intros n k pub der [= <- <-] [= <-]. reflexivity.
  - intros. eexists. reflexivity.
Qed.
End Toy.
