(* ===== verification/Footprint.v ===== *)
(** What a computation may change of one table of the store: rows are written only
    under identifiers the call itself draws, or under identifiers given; no row goes
    away.  This holds whether the call succeeds or fails. *)

From S2P Require Import Prelude Rows Memstore MemstoreInv Authz GoJson GoUrl AuditLog Csr Sealed World.

Definition drawn `{Env} (a b : nat) (id : string) : Prop := exists k, (a <= k < b)%nat /\ id = new_id k.
Lemma drawn_now `{Env} n0 j : (n0 <= j)%nat -> drawn n0 (S j) (new_id j).
Proof. intros Hj. exists j. split; [lia|done]. Qed.

Section footprint.
Context `{Env} {X : Type} (table : Mem -> gmap string X) (id_of : X -> string).
(** Rows stay, under their identifiers. *)
Record grows (t t' : gmap string X) : Prop := {
  gr_keyed : keyed id_of t -> keyed id_of t';
  gr_there id : is_Some (t !! id) -> is_Some (t' !! id);
}.
#[export] Instance grows_preorder : PreOrder grows.
Proof. split; [by split|]. intros a b c [K1 T1] [K2 T2]. split; auto. Qed.
Lemma grows_insert id x t : (keyed id_of t -> id_of x = id) -> grows t (<[id := x]> t).
Proof.
  intros Hx. split; [intros Hk; apply keyed_insert; auto|]. intros id' Hs. rewrite lookup_insert. by case_decide.
Qed.
Definition changes (free : string -> Prop) (n0 n : nat) {A} (c : M A) : Prop :=
  forall w, (n <= wd_ids w)%nat ->
    (wd_ids w <= wd_ids (c w).2)%nat
    /\ grows (table (wd_mem w)) (table (wd_mem (c w).2))
    /\ forall id, ~ free id -> ~ drawn n0 (wd_ids (c w).2) id ->
       table (wd_mem (c w).2) !! id = table (wd_mem w) !! id.
Context (free : string -> Prop) (n0 n : nat).
Lemma changes_stay {A} (c : M A) :
  keeps table c -> (forall w, wd_ids w <= wd_ids (c w).2)%nat -> changes free n0 n c.
Proof. intros Hk Hi w _. split_and!; [done|by rewrite (Hk w)|]. intros id _ _. by rewrite (Hk w). Qed.
Lemma changes_ret {A} (a : A) : changes free n0 n (st_ret a).
Proof. by apply changes_stay. Qed.
Lemma changes_err {A} e : changes free n0 n (st_err e : M A).
Proof. by apply changes_stay. Qed.
Lemma changes_lift {A} (r : res A) : changes free n0 n (st_lift r).
Proof. by apply changes_stay. Qed.
Lemma changes_reading {A} (g : Mem -> res A) : changes free n0 n (reading g).
Proof. by apply changes_stay. Qed.
Lemma changes_emit e : changes free n0 n (emit e).
Proof. by apply changes_stay. Qed.
Lemma changes_drawing {A} (g : nat -> res A) : changes free n0 n (drawing g).
Proof. by apply changes_stay. Qed.
Lemma changes_bind {A B} (c : M A) (k : A -> M B) :
  changes free n0 n c -> (forall a, changes free n0 n (k a)) -> changes free n0 n (st_bind c k).
Proof.
  intros Hc Hk w Hw. unfold st_bind. specialize (Hc w Hw). destruct (c w) as [[a|e] w1]; [|done].
  simpl in Hc. destruct Hc as (Hle & Hkey & Hc). destruct (Hk a w1 ltac:(lia)) as (Hle' & Hkey' & Hk').
  split_and!; [lia|by etrans|].
  intros id Ho Hd. rewrite (Hk' id Ho Hd). apply Hc; [done|]. intros (j & Hj & ->). apply Hd. exists j. split; [lia|done].
Qed.
Lemma changes_try {A} (c : M A) : changes free n0 n c -> changes free n0 n (st_try c).
Proof. intros Hc w Hw. specialize (Hc w Hw). unfold st_try. by destruct (c w). Qed.
Lemma changes_Atomic {A} (c : M A) : changes free n0 n c -> changes free n0 n (Atomic c).
Proof.
  intros Hc w Hw. unfold Atomic. case_match; [done|]. specialize (Hc w Hw). destruct (c w) as [[a|e] w1]; [done|].
  destruct tx_rollback; [|done]. simpl in *. split_and!; [lia|done|done].
Qed.
(** Writes to other tables, and of one row. *)
Lemma changes_writing {A} (g : Mem -> res A * Mem) (at_ : option string) :
  (forall m, grows (table m) (table (g m).2)) ->
  (forall m id, Some id <> at_ -> table (g m).2 !! id = table m !! id) ->
  match at_ with Some id => free id \/ drawn n0 n id | None => True end -> changes free n0 n (writing g).
Proof.
  intros Hkey Hg Hat w Hw. unfold writing. specialize (Hg (wd_mem w)). specialize (Hkey (wd_mem w)).
  destruct (g (wd_mem w)) as [r m]. simpl in *. split_and!; [done|done|]. intros id Ho Hd. apply Hg.
  intros <-. destruct Hat as [Hfree|(k & Hk & ->)]; [done|]. apply Hd. exists k. split; [lia|done].
Qed.
Lemma changes_elsewhere {A} (g : Mem -> res A * Mem) :
  (forall m, table (g m).2 = table m) -> changes free n0 n (writing g).
Proof. intros Hg. apply (changes_writing g None); [| |done]; intros m; by rewrite Hg. Qed.
Lemma changes_row {A} (g : Mem -> res A * Mem) id :
  (forall m, table (g m).2 = table m
     \/ exists x, table (g m).2 = <[id := x]> (table m) /\ (keyed id_of (table m) -> id_of x = id)) ->
  free id \/ drawn n0 n id -> changes free n0 n (writing g).
Proof.
  intros Hg Hid. apply (changes_writing g (Some id)); [| |done].
  - intros m. destruct (Hg m) as [->|(x & -> & Hx)]; [done|]. by apply grows_insert.
  - intros m id' Hne. destruct (Hg m) as [->|(x & -> & _)]; [done|]. apply lookup_insert_ne. congruence.
Qed.
Lemma changes_Seal p ad : changes free n0 n (Seal p ad).
Proof.
  unfold Seal. case_match; [apply changes_err|]. do 3 (apply changes_bind; [apply changes_drawing|intros ?]).
  apply changes_lift.
Qed.
End footprint.
Lemma changes_newID `{Env} {X} (table : Mem -> gmap string X) id_of free n0 n {A} (k : string -> M A) :
  (forall j, (n <= j)%nat -> changes table id_of free n0 (S j) (k (new_id j))) ->
  changes table id_of free n0 n (st_bind newID k).
Proof.
  intros Hk w Hw. unfold st_bind, newID.
  set (w1 := w <| wd_ids := S (wd_ids w) |>). assert (H0 : wd_ids w1 = S (wd_ids w)) by done.
  destruct (Hk (wd_ids w) Hw w1 ltac:(lia)) as (H1 & H2 & H3). split_and!; [lia|exact H2|exact H3].
Qed.
Create HintDb footprint.
#[export] Hint Resolve changes_ret changes_err changes_lift changes_reading changes_emit changes_drawing
  changes_Seal : footprint.
(** Splits a computation at its steps and branches; identifiers it draws are its own. *)
Ltac follow :=
  repeat first
    [ apply changes_newID; intros ? ? | apply changes_try | solve [eauto 2 with footprint]
    | apply changes_bind; [|intros ?]
    | lazymatch goal with |- changes _ _ _ _ _ (match ?x with _ => _ end) => destruct x end ].
(** The cases of an operation of the store that writes one row. *)
Ltac one_row :=
  repeat (case_match; simplify_eq/=); try (by left);
  (right; eexists; split; [reflexivity|]; intros Hk; try done;
   match goal with Hc : _ !! _ = Some _ |- _ => exact (Hk _ _ Hc) end).
