(* ===== verification/Ca.v ===== *)
(** The certificate authority of a trust domain: internal/ca/ca.go. *)

From S2P Require Import Prelude Rows Memstore MemstoreInv MemstoreList Authz GoJson GoUrl Csr Sealed World.

Definition ca_ErrInput : err := Sentinel "ca" "ErrInput".
Definition ca_ErrParse : err := Sentinel "ca" "ErrParse".
(** ~10 years, in nanoseconds. *)
Definition rootValidity : Z := 10 * 365 * 24 * 3600 * Second.

Section ca.
Context `{Env}.

Definition ca_validTrustDomain (host : string) : bool :=
  if (host =s "") || (253 <? str_len host) then false else string_forallb trust_domain_byte host.

(** A fresh root, with its key sealed under its identifier. *)
Definition ca_generate (now : Z) (tenantID trustDomain : string) : M CA :=
  let* id := newID in
  let* (priv, pub) := drawing generate_key in
  let* serial := drawing randomSerial in
  match url_parse ("spiffe://" +:+ trustDomain) with
  | None => st_err ca_ErrInput
  | Some _ =>
    let tmpl := mkTemplate serial (trustDomain +:+ " LCM Root") now (now + rootValidity) true
                  ("spiffe://" +:+ trustDomain) [] in
    let* der := drawing (fun n => create_certificate n tmpl None pub priv) in
    let* keyDER := st_lift (marshal_key priv) in
    let* blob := Seal (pem_encode "PRIVATE KEY" keyDER) (ADCA id) in
    st_ret (mkCA id tenantID trustDomain (EncodeCertPEM der) (Some blob) "active"
              (tm_NotBefore tmpl) (tm_NotAfter tmpl) (FormatInt serial) 0)
  end.

Definition EnsureCA (now : Z) (tenantID trustDomain : string) : M CA :=
  if (tenantID =s "") || negb (ca_validTrustDomain trustDomain) then st_err ca_ErrInput
  else
    let* existing := st_try (reading (Mem_CAByState tenantID trustDomain "active")) in
    match existing with
    | Ok c => st_ret c
    | Err e =>
      if negb (is_not_found e) then st_err e
      else Atomic (
        let* again := st_try (reading (Mem_CAByState tenantID trustDomain "active")) in
        match again with
        | Ok c => st_ret c
        | Err e =>
          if negb (is_not_found e) then st_err e
          else
            let* fresh := ca_generate now tenantID trustDomain in
            let* ins := st_try (writing (Mem_InsertCA fresh)) in
            match ins with
            | Ok _ => st_ret fresh
            | Err e =>
              if is_conflict e then reading (Mem_CAByState tenantID trustDomain "active")
              else st_err e
            end
        end)
    end.

(** The signing key and the parent certificate of a CA row. *)
Definition ca_Signer (c : CA) : res (string * string) :=
  let? keyPEM := Open (ca_KeySealed c) (ADCA (ca_ID c)) in
  match pem_decode keyPEM with
  | None => Err ca_ErrParse
  | Some (_, der) =>
    match parse_key der with
    | None => Err ca_ErrParse
    | Some signer =>
      match pem_decode (ca_CertPEM c) with
      | None => Err ca_ErrParse
      | Some (_, cert) =>
        match parse_certificate cert with
        | Ok _ => Ok (signer, ca_CertPEM c)
        | Err _ => Err ca_ErrParse
        end
      end
    end
  end.

Definition ca_Bundle (tenantID trustDomain : string) (m : Mem) : res string :=
  let? cas := Mem_CAsForDomain tenantID trustDomain m in
  Ok (String.concat "" (ca_CertPEM <$>
        List.filter (fun c => (ca_State c =s "active") || (ca_State c =s "retiring")) cas)).

Definition SignLeaf (now : Z) (tenantID trustDomain spiffeID : string) (pub : PublicKey) (ttl : Z)
  : M (string * Z) :=
  if ttl <=? 0 then st_err ca_ErrInput
  else match ParseSPIFFEID spiffeID with
  | Err _ => st_err ca_ErrInput
  | Ok sid =>
    if sid_TrustDomain sid <>s trustDomain then st_err ca_ErrInput
    else
      let* caRow := EnsureCA now tenantID trustDomain in
      let* (signer, caCert) := st_lift (ca_Signer caRow) in
      let* serial := drawing randomSerial in
      match url_parse (SPIFFEID_String sid) with
      | None => st_err ca_ErrInput
      | Some _ =>
        let notAfter := now + ttl in
        let leaf := mkTemplate serial (SPIFFEID_String sid) now notAfter false
                      (SPIFFEID_String sid) [] in
        let* der := drawing (fun n => create_certificate n leaf (Some caCert) pub signer) in
        st_ret (der, notAfter)
      end
  end.
End ca.

(** ** The active CA of a trust domain *)
Section ca_props.
Context `{Env}.

(** In a store that keeps its constraints the active CA is the one found. *)
Lemma CAByState_active tid td m k x :
  wf m -> m_Fail m !! "CAByState" = None -> m_CAs m !! k = Some x ->
  ca_active_in tid td x = true -> Mem_CAByState tid td "active" m = Ok (cpCA x).
Proof.
  intros Hwf Hf Hk Ha. unfold Mem_CAByState, fail_read. rewrite Hf.
  rewrite (unique_row _ _ k x Hk Ha); [done|]. intros k' x' Hk' Ha'.
  apply (wf_ca_active _ Hwf k' k x' x Hk' Hk). unfold ca_active_in in *. bools.
  unfold both_active. split_and!; congruence.
Qed.
Lemma CAByState_ok tid td st m c :
  Mem_CAByState tid td st m = Ok c ->
  exists k x, m_CAs m !! k = Some x /\ c = cpCA x /\ ca_TenantID x = tid
    /\ ca_TrustDomain x = td /\ ca_State x = st.
Proof.
  unfold Mem_CAByState, fail_read. case_match; [done|].
  set (l := filter _ _). destruct (foldl newest_ca None l) as [x|] eqn:E; [|done].
  intros [= <-]. assert (Hx : x ∈ l).
  { assert (Hb : forall b r, foldl newest_ca b l = Some r -> b = Some r \/ r ∈ l).
    { clear. induction l as [|y l IH]; intros b r; simpl; [auto|]. intros [Hr|Hr]%IH; [|set_solver].
      unfold newest_ca in Hr. repeat case_match; simplify_eq; set_solver. }
    by destruct (Hb None x E). }
  apply list_elem_of_filter in Hx as [Hp Hx]. bools.
  apply list_elem_of_fmap in Hx as ([k y] & -> & Hk%elem_of_map_range). eauto 10.
Qed.

Lemma ca_generate_ok now tid td w c w' :
  ca_generate now tid td w = (Ok c, w') ->
  wd_mem w' = wd_mem w /\ wd_events w' = wd_events w /\ ca_ID c = new_id (wd_ids w)
  /\ ca_TenantID c = tid /\ ca_TrustDomain c = td /\ ca_State c = "active"
  /\ ca_NotBefore c = now /\ ca_NotAfter c = now + rootValidity.
Proof.
  unfold ca_generate. intros Hr. apply st_bind_ok in Hr as (id & w1 & [= <- <-] & Hr).
  apply st_bind_ok in Hr as ([priv pub] & w2 & [= _ <-] & Hr).
  apply st_bind_ok in Hr as (serial & w3 & [= _ <-] & Hr). destruct (url_parse _); [|done].
  apply st_bind_ok in Hr as (der & w4 & [= _ <-] & Hr). apply st_bind_ok in Hr as (kd & w5 & Hk & Hr).
  apply st_lift_ok in Hk as [_ ->]. apply st_bind_ok in Hr as (blob & w6 & [Hm He]%Seal_frame & Hr).
  apply st_ret_ok in Hr as [-> ->]. done.
Qed.
(** The root just generated is usable: its key opens and its certificate parses. *)
Lemma ca_generate_signs `{!EnvLaws} now tid td w c w' :
  ca_generate now tid td w = (Ok c, w') ->
  exists signer, ca_Signer c = Ok (signer, ca_CertPEM c).
Proof.
  unfold ca_generate. intros Hr. apply st_bind_ok in Hr as (id & w1 & [= <- <-] & Hr).
  apply st_bind_ok in Hr as ([priv pub] & w2 & [= Hg <-] & Hr).
  apply st_bind_ok in Hr as (serial & w3 & [= _ <-] & Hr). destruct (url_parse _); [|done].
  apply st_bind_ok in Hr as (der & w4 & [= Hc <-] & Hr). apply st_bind_ok in Hr as (kd & w5 & Hk & Hr).
  apply st_lift_ok in Hk as [Hk ->]. apply st_bind_ok in Hr as (blob & w6 & Hs%Seal_opens & Hr).
  apply st_ret_ok in Hr as [-> ->]. exists priv. unfold ca_Signer, pem_decode, parse_key. simpl.
  rewrite Hs. simpl. rewrite laws_pem by auto. simpl. rewrite (laws_key _ _ _ _ Hg Hk).
  unfold EncodeCertPEM. rewrite laws_pem by auto. simpl. by destruct (laws_cert _ _ _ _ _ _ Hc) as [x ->].
Qed.

(** The two outcomes of [EnsureCA]: the active CA there is, or a new one. *)
Lemma EnsureCA_cases now tid td w c w' :
  EnsureCA now tid td w = (Ok c, w') ->
  (w' = w /\ Mem_CAByState tid td "active" (wd_mem w) = Ok c)
  \/ (exists w1 e, Mem_CAByState tid td "active" (wd_mem w) = Err e
       /\ ca_generate now tid td w = (Ok c, w1)
       /\ writing (Mem_InsertCA c) w1 = (Ok tt, w'))
  \/ (wd_mem w' = wd_mem w /\ wd_events w' = wd_events w
       /\ exists e, Mem_CAByState tid td "active" (wd_mem w) = Err e
       /\ Mem_CAByState tid td "active" (wd_mem w') = Ok c).
Proof.
  unfold EnsureCA. case_match; [done|]. intros Hr.
  apply st_bind_ok in Hr as (r & w1 & [= Hc <-]%st_try_ok & Hr).
  destruct r as [c0|e]; [apply st_ret_ok in Hr as [-> ->]; auto|].
  destruct (is_not_found e) eqn:En; simpl in Hr; [|done]. apply Atomic_ok in Hr.
  apply st_bind_ok in Hr as (r & w1 & [= Hc' <-]%st_try_ok & Hr). rewrite Hc in Hc'. subst r.
  rewrite En in Hr. simpl in Hr. right.
  apply st_bind_ok in Hr as (fresh & w1 & Hg & Hr).
  apply st_bind_ok in Hr as (ins & w2 & Hi & Hr). apply (proj1 (st_try_ok _ _ _ _)) in Hi. destruct ins as [[]|e2].
  - apply st_ret_ok in Hr as [-> ->]. left. eauto 10.
  - right. destruct (is_conflict e2); [|done]. apply reading_ok in Hr as [Hr ->].
    apply ca_generate_ok in Hg as (Hm & He & _). unfold writing in Hi.
    destruct (Mem_InsertCA fresh (wd_mem w1)) as [r m] eqn:Hins. injection Hi as -> <-. simpl in *.
    assert (m = wd_mem w1) as ->.
    { unfold Mem_InsertCA, fail_write in Hins. repeat case_match; congruence. }
    split; [done|]. eauto.
Qed.


Lemma InsertCA_ok c m m' u :
  Mem_InsertCA c m = (Ok u, m') -> m_Fail m' = m_Fail m /\ exists x, m_CAs m' = <[ca_ID c := x]> (m_CAs m)
    /\ ca_TenantID x = ca_TenantID c /\ ca_TrustDomain x = ca_TrustDomain c /\ ca_ID x = ca_ID c
    /\ ca_State x = ca_State c /\ ca_CertPEM x = ca_CertPEM c.
Proof.
  unfold Mem_InsertCA, fail_write. case_match; [done|]. case_match; [done|].
  intros [= _ <-]. simpl. split; [done|]. case_match; eexists; split; done.
Qed.

(** [EnsureCA] touches the CAs only, and the CA it returns is stored and active. *)
Lemma EnsureCA_store now tid td w c w' :
  keyed ca_ID (m_CAs (wd_mem w)) -> EnsureCA now tid td w = (Ok c, w') ->
  m_Issuers (wd_mem w') = m_Issuers (wd_mem w) /\ wd_events w' = wd_events w
  /\ exists x, m_CAs (wd_mem w') !! ca_ID c = Some x /\ ca_active_in tid td x = true.
Proof.
  intros Hkey Hr.
  assert (Hfound : forall m, keyed ca_ID (m_CAs m) -> Mem_CAByState tid td "active" m = Ok c ->
            exists x, m_CAs m !! ca_ID c = Some x /\ ca_active_in tid td x = true).
  { intros m Hm (k & x & Hk & -> & Ht & Htd & Hs)%CAByState_ok. exists x. simpl.
    rewrite (Hm _ _ Hk). split; [done|]. unfold ca_active_in. by rewrite Ht, Htd, Hs, !str_eqb_refl. }
  apply EnsureCA_cases in Hr as [[-> Hc]|[(w1 & e & He & Hg & Hi)|(Hm & Hev & e & He & Hc)]].
  - auto.
  - apply ca_generate_ok in Hg as (Hm & Hev & _ & Ht & Htd & Hs & _).
    apply writing_ok in Hi as (m & Hi & ->). rewrite Hm in Hi. simpl.
    assert (Hiss : m_Issuers m = m_Issuers (wd_mem w))
      by (unfold Mem_InsertCA, fail_write in Hi; repeat case_match; simplify_eq/=; done).
    apply InsertCA_ok in Hi as (_ & x & Hx & E1 & E2 & _ & E4 & _). split_and!; [done..|].
    exists x. rewrite Hx, lookup_insert_eq. split; [done|].
    unfold ca_active_in. by rewrite E1, E2, E4, Ht, Htd, Hs, !str_eqb_refl.
  - rewrite Hm in *. auto.
Qed.

(** Concatenation keeps each part. *)
Lemma concat_elem x l : x ∈ l -> exists pre post, String.concat "" l = pre +:+ x +:+ post.
Proof.
  induction l as [|y l IH]; [by intros ?%elem_of_nil|].
  assert (Hc : String.concat "" (y :: l) = y +:+ String.concat "" l)
    by (destruct l; simpl; [by rewrite str_app_nil|done]).
  rewrite Hc. intros [->|(pre & post & Hl)%IH]%elem_of_cons.
  - exists "", (String.concat "" l). done.
  - exists (y +:+ pre), post. by rewrite Hl, str_app_assoc.
Qed.

(** Each trust domain of a tenant has one CA, made on demand: the CA that
    [EnsureCA] returns is stored and active, no other CA is touched, and every
    later call returns that same CA and changes nothing. *)
Theorem EnsureCA_idempotent now tid td w c w' :
  wf (wd_mem w) -> m_Fail (wd_mem w) !! "CAByState" = None ->
  m_CAs (wd_mem w) !! new_id (wd_ids w) = None -> EnsureCA now tid td w = (Ok c, w') ->
  (exists x, m_CAs (wd_mem w') !! ca_ID c = Some x /\ ca_active_in tid td x = true
     /\ ca_CertPEM x = ca_CertPEM c)
  /\ (forall k x, m_CAs (wd_mem w) !! k = Some x -> m_CAs (wd_mem w') !! k = Some x)
  /\ (forall later, exists c', EnsureCA later tid td w' = (Ok c', w') /\ ca_ID c' = ca_ID c).
Proof.
  intros Hwf Hfail Hfresh Hr.
  assert (Hin : (tid =s "") || negb (ca_validTrustDomain td) = false)
    by (unfold EnsureCA in Hr; by case_match).
  assert (Hagain : forall k x, wf (wd_mem w') -> m_Fail (wd_mem w') !! "CAByState" = None ->
            m_CAs (wd_mem w') !! k = Some x -> ca_active_in tid td x = true -> ca_ID x = ca_ID c ->
            forall later, exists c', EnsureCA later tid td w' = (Ok c', w') /\ ca_ID c' = ca_ID c).
  { intros k x Hwf' Hf' Hk Ha He later. exists (cpCA x). split; [|done]. unfold EnsureCA. rewrite Hin.
    unfold st_bind, st_try, reading. by rewrite (CAByState_active _ _ _ k x). }
  assert (Hact : forall k x, m_CAs (wd_mem w) !! k = Some x -> ca_active_in tid td x = true ->
            Mem_CAByState tid td "active" (wd_mem w) = Ok (cpCA x)) by (intros; by eapply CAByState_active).
  apply EnsureCA_cases in Hr as [[-> Hc]|[(w1 & e & He & Hg & Hi)|(Hm & _ & e & He & Hc)]].
  - apply CAByState_ok in Hc as (k & x & Hk & -> & Ht & Htd & Hs).
    assert (Ha : ca_active_in tid td x = true)
      by (unfold ca_active_in; by rewrite Ht, Htd, Hs, !str_eqb_refl).
    pose proof (wf_cas _ Hwf _ _ Hk) as <-. split_and!; [by eauto|done|].
    by eapply Hagain.
  - apply ca_generate_ok in Hg as (Hm & _ & Hid & Ht & Htd & Hs & _).
    apply writing_ok in Hi as (m & Hi & ->). rewrite Hm in Hi. simpl in *.
    pose proof (wf_InsertCA c _ Hwf) as Hwf'. rewrite Hid, Hi in Hwf'. specialize (Hwf' Hfresh).
    apply InsertCA_ok in Hi as (Hf & x & Hx & E1 & E2 & E3 & E4 & E5).
    assert (Ha : ca_active_in tid td x = true)
      by (unfold ca_active_in; by rewrite E1, E2, E4, Ht, Htd, Hs, !str_eqb_refl).
    assert (Hk : m_CAs m !! ca_ID c = Some x) by (by rewrite Hx, lookup_insert_eq).
    split_and!; [eauto| |].
    + intros k y Hy. rewrite Hx, lookup_insert_ne; [done|]. rewrite Hid. congruence.
    + eapply Hagain; simpl; eauto. congruence.
  - rewrite Hm, He in Hc. discriminate.
Qed.

(** A root generated for a trust domain signs: its sealed key opens under its
    own identifier and its certificate parses, it is valid for ten years from
    now, and it is in the trust bundle as soon as it is stored. *)
Theorem EnsureCA_signs `{!EnvLaws} now tid td w c w' :
  EnsureCA now tid td w = (Ok c, w') -> is_ok (Mem_CAByState tid td "active" (wd_mem w)) = false ->
  (exists signer, ca_Signer c = Ok (signer, ca_CertPEM c))
  /\ ca_NotBefore c = now /\ ca_NotAfter c = now + rootValidity
  /\ (forall bundle, ca_Bundle tid td (wd_mem w') = Ok bundle ->
       exists pre post, bundle = pre +:+ ca_CertPEM c +:+ post).
Proof.
  intros Hr Hno. apply EnsureCA_cases in Hr as [[_ Hc]|[(w1 & e & He & Hg & Hi)|(Hm & _ & e & He & Hc)]].
  - by rewrite Hc in Hno.
  - pose proof (ca_generate_ok _ _ _ _ _ _ Hg) as (_ & _ & _ & Ht & Htd & Hs & Hnb & Hna).
    split_and!; [by eapply ca_generate_signs|done..|].
    intros bundle Hb. unfold ca_Bundle, Mem_CAsForDomain, fail_read in Hb.
    apply writing_ok in Hi as (m & Hi & ->). simpl in Hb.
    apply InsertCA_ok in Hi as (_ & x & Hx & E1 & E2 & _ & E4 & E5). case_match; [done|].
    injection Hb as <-. apply concat_elem. rewrite <- E5.
    apply list_elem_of_fmap. exists (cpCA x). split; [done|].
    apply list_elem_of_In, filter_In. split; [|simpl; by rewrite E4, Hs].
    apply list_elem_of_In. unfold sortDesc. rewrite elem_of_sort_slice. apply list_elem_of_fmap_2.
    apply list_elem_of_filter. split; [by rewrite E1, E2, Ht, Htd, !str_eqb_refl|].
    apply list_elem_of_fmap. exists (ca_ID c, x). split; [done|]. apply elem_of_map_range.
    by rewrite Hx, lookup_insert_eq.
  - rewrite Hm, He in Hc. discriminate.
Qed.
End ca_props.

Module CaSample.
Import Toy.
#[local] Existing Instance toy_env.
Definition start : World := mkWorld (Mem_New 5) [] 0 0.
Definition made : CA * World :=
  match EnsureCA 7 "t1" "example.org" start with (Ok c, w) => (c, w) | (Err _, w) => (mkCA "" "" "" "" None "" 0 0 "" 0, w) end.
Lemma made_run : EnsureCA 7 "t1" "example.org" start = (Ok made.1, made.2).
Proof. vm_compute. reflexivity. Qed.
Lemma EnsureCA_idempotent_witness :
  size (m_CAs (wd_mem made.2)) = 1%nat
  /\ exists c, EnsureCA 99 "t1" "example.org" made.2 = (Ok c, made.2) /\ ca_ID c = "id0".
Proof.
  split; [vm_compute; reflexivity|].
  exact (proj2 (proj2 (EnsureCA_idempotent 7 "t1" "example.org" start made.1 made.2
           (wf_New 5) eq_refl eq_refl made_run)) 99).
Defined.
Lemma EnsureCA_signs_witness :
  ca_NotBefore made.1 = 7 /\ exists signer, ca_Signer made.1 = Ok (signer, ca_CertPEM made.1).
Proof.
  destruct (EnsureCA_signs (H0 := toy_env_laws) 7 "t1" "example.org" start made.1 made.2
              made_run eq_refl) as (Hs & Hn & _).
  exact (conj Hn Hs).
Defined.
End CaSample.
