(* ===== verification/IssueBase.v ===== *)
(** Issuance: the first half of internal/issue/issue.go and the certificate view
    of internal/issue/certificates.go. *)

From S2P Require Import Prelude Rows Memstore MemstoreInv Authz GoJson GoUrl AuditLog Csr Sealed World Ca.

Definition MinValiditySeconds : Z := 60.
Definition DefaultValiditySeconds : Z := 90 * 24 * 3600.
Definition MaxValiditySeconds : Z := 365 * 24 * 3600.
(** 30 days, in nanoseconds. *)
Definition expiringWindow : Z := 30 * 24 * 3600 * Second.

Definition invalid (field msg : string) : err := ValidationError "issue" field msg.
Definition ErrNoStoredKey : err := Sentinel "issue" "ErrNoStoredKey".

Record IssueInput := mkIssueInput {
  in_IssuerID : string; in_SpiffeID : string; in_CSRPEM : string; in_Subject : string;
  in_DNSSans : option (list string); in_ValiditySeconds : Z; in_DeliverKey : bool;
  in_RetainKey : bool;
}.

(** ** The certificate as clients see it *)
Record CertificateView := mkCertificateView {
  cv_ID : string; cv_IssuerID : string; cv_Kind : string; cv_Serial : string;
  cv_SpiffeID : string; cv_Subject : string; cv_SANs : option (list string); cv_NotBefore : Z;
  cv_NotAfter : Z; cv_FingerprintSHA256 : string; cv_Status : string; cv_KeyDelivered : bool;
  cv_HasKey : bool; cv_AutoRenew : bool; cv_SupersededBy : string; cv_Owner : string;
  cv_CreatedAt : Z; cv_UpdatedAt : Z; cv_Permissions : Permissions;
}.
Record Bundle := mkBundle {
  b_Certificate : CertificateView; b_CertPEM : string; b_ChainPEM : string; b_BundlePEM : string;
  b_KeyPEM : string;
}.
#[export] Instance bundle_eta : RecordEta Bundle := fun r =>
  mkBundle (b_Certificate r) (b_CertPEM r) (b_ChainPEM r) (b_BundlePEM r) (b_KeyPEM r).

(** [deriveStatus]: integer division truncates towards zero. *)
Definition deriveStatus (c : IssuedCertificate) (now : Z) : string :=
  if crt_Status c =s "revoked" then "revoked"
  else if negb (Before now (crt_NotAfter c)) then "expired"
  else
    let half := Z.quot (time_sub (crt_NotAfter c) (crt_NotBefore c)) 2 in
    let window := if half <? expiringWindow then half else expiringWindow in
    if negb (After (crt_NotAfter c) (now + window)) then "expiring" else "active".

(** [var sans []string; if len(raw) > 0 { _ = json.Unmarshal(raw, &sans) }]. *)
Definition stored_sans (raw : bytes) : option (list string) :=
  if 0 <? blen raw then unmarshal_strings (default "" raw) else None.

Definition certView (now : Z) (c : IssuedCertificate) (p : Permissions) : CertificateView :=
  {| cv_ID := crt_ID c; cv_IssuerID := crt_IssuerID c; cv_Kind := crt_Kind c;
     cv_Serial := crt_Serial c; cv_SpiffeID := crt_SpiffeID c; cv_Subject := crt_Subject c;
     cv_SANs := stored_sans (crt_SANs c); cv_NotBefore := crt_NotBefore c;
     cv_NotAfter := crt_NotAfter c; cv_FingerprintSHA256 := crt_FingerprintSHA256 c;
     cv_Status := deriveStatus c now; cv_KeyDelivered := crt_KeyDelivered c;
     cv_HasKey := 0 <? blen (crt_KeySealed c); cv_AutoRenew := crt_AutoRenew c;
     cv_SupersededBy := strp (crt_SupersededBy c); cv_Owner := crt_Owner c;
     cv_CreatedAt := crt_CreatedAt c; cv_UpdatedAt := crt_UpdatedAt c; cv_Permissions := p |}.

(** [clampValidity]: the result is a Duration, in int64 nanoseconds. *)
Definition clampValidity (seconds : Z) : Z :=
  let seconds := if seconds <=? 0 then DefaultValiditySeconds else seconds in
  let seconds := if seconds <? MinValiditySeconds then MinValiditySeconds else seconds in
  let seconds := if MaxValiditySeconds <? seconds then MaxValiditySeconds else seconds in
  wrap64 (seconds * Second).

Definition sansList (l : option (list string)) : option (list string) :=
  match l with None => Some [] | Some l => Some l end.

(** The inputs of one signing operation. *)
Record mintReq := mkMintReq {
  mr_subject : string; mr_csrPEM : string; mr_dnsSans : option (list string);
  mr_validitySeconds : Z; mr_deliverKey : bool; mr_retainKey : bool; mr_event : string;
  mr_logEvent : string;
}.

Section issue.
Context `{Env}.

Definition resolveIssuer (subj : Subjects) (inp : IssueInput) : M (Issuer * SPIFFEID) :=
  match ParseSPIFFEID (in_SpiffeID inp) with
  | Err _ => st_err (invalid "spiffe_id" "invalid SPIFFE ID")
  | Ok sid =>
    let* r := st_try (if in_IssuerID inp <>s ""
                      then reading (Mem_GetIssuer (sub_TenantID subj) (in_IssuerID inp))
                      else reading (Mem_DefaultIssuer (sub_TenantID subj) (sid_TrustDomain sid))) in
    match r with
    | Err e => if is_not_found e then st_err (invalid "issuer_id" "issuer not found") else st_err e
    | Ok issuer =>
      if iss_TrustDomain issuer <>s sid_TrustDomain sid
      then st_err (invalid "spiffe_id" "trust domain does not match the issuer")
      else st_ret (issuer, sid)
    end
  end.

(** The SPIFFE identity of a service caller, when it is the one asked for. *)
Definition own_identity (subj : Subjects) (sid : SPIFFEID) : bool :=
  if sub_Service subj <>s "" then
    match ParseSPIFFEID (sub_Service subj) with
    | Ok own => (sid_TrustDomain own =s sid_TrustDomain sid) && (sid_Path own =s sid_Path sid)
    | Err _ => false
    end
  else false.
Definition entitled (now : Z) (subj : Subjects) (issuer : Issuer) (sid : SPIFFEID) : M unit :=
  let* r := st_try (az_Check now subj IssuerType (iss_ID issuer) Use) in
  match r with
  | Ok _ => st_ret tt
  | Err e =>
    if negb (errors_is e "authz" "ErrForbidden") && negb (errors_is e "authz" "ErrNotFound")
    then st_err e
    else if own_identity subj sid then st_ret tt
    else st_err authz_ErrForbidden
  end.

(** The public key to sign, the sealed private key and the key to deliver: from
    the request, or generated. *)
Definition mint_key (certID : string) (req : mintReq) : M (PublicKey * bytes * string) :=
  if mr_csrPEM req <>s "" then
    match ParseCSR (mr_csrPEM req) with
    | Err _ => st_err (invalid "csr" "certificate request rejected")
    | Ok parsed =>
      match ValidateSANs (default [] (mr_dnsSans req)) (pc_DNSNames parsed) with
      | Err _ => st_err (invalid "dns_sans" "CSR SANs are not authorised")
      | Ok _ => st_ret (cr_PublicKey (pc_CSR parsed), None, "")
      end
    end
  else
    let* (priv, pub) := drawing generate_key in
    let* keyDER := st_lift (marshal_key priv) in
    let pemKey := pem_encode "PRIVATE KEY" keyDER in
    let* keySealed := Seal pemKey (ADCertKey certID) in
    st_ret (pub, Some keySealed, if mr_deliverKey req then pemKey else "").

(** The row of the certificate [mint] stores. *)
Definition mint_row (now : Z) (subj : Subjects) (issuer : Issuer) (sid : SPIFFEID) (req : mintReq)
  (certID cn der : string) (serial : Z) (keySealed : bytes) (chain : string) : IssuedCertificate :=
  {| crt_ID := certID; crt_TenantID := sub_TenantID subj; crt_IssuerID := iss_ID issuer;
     crt_Kind := ""; crt_RequestID := None; crt_Serial := FormatInt serial;
     crt_SpiffeID := SPIFFEID_String sid; crt_Subject := cn;
     crt_SANs := Some (marshal_strings (sansList (mr_dnsSans req)));
     crt_NotBefore := now; crt_NotAfter := now + clampValidity (mr_validitySeconds req);
     crt_FingerprintSHA256 := Fingerprint der; crt_Status := "active";
     crt_CertPEM := EncodeCertPEM der; crt_ChainPEM := chain; crt_KeySealed := keySealed;
     crt_KeyDelivered := false; crt_AutoRenew := true; crt_SupersededBy := None;
     crt_Owner := ActorID subj; crt_CreatedBy := userPtr subj; crt_UpdatedBy := userPtr subj;
     crt_CreatedAt := 0; crt_UpdatedAt := 0 |}.

(** The transaction that records a certificate: the row, its log entry and the
    creator's grant. *)
Definition record_certificate (row : IssuedCertificate) (log : CertLogRow) (grantee : string)
  : M unit :=
  Atomic (
    let* _ := writing (Mem_InsertCertificate row) in
    let* _ := writing (Mem_InsertCertLog [log]) in
    az_GrantOwner (crt_TenantID row) Certificate (crt_ID row) grantee).

(** An event of a service about one subject. *)
Definition service_event (subj : Subjects) (ty kind id outcome : string)
  (details : list (string * any)) : Event :=
  mkEvent (sub_TenantID subj) ty (ActorKind subj) (ActorID subj) kind id "" outcome "" "" details.

Definition mint (now : Z) (subj : Subjects) (issuer : Issuer) (sid : SPIFFEID) (req : mintReq)
  : M Bundle :=
  match iss_CAID issuer with
  | Some caid =>
    if iss_Type issuer <>s "self_signed"
    then st_err (invalid "issuer_id" "issuer cannot sign certificates")
    else
      let* caRow := reading (Mem_GetCA (sub_TenantID subj) caid) in
      let* (signer, caCert) := st_lift (ca_Signer caRow) in
      let* certID := newID in
      let* (pub, keySealed, keyPEM) := mint_key certID req in
      let notAfter := now + clampValidity (mr_validitySeconds req) in
      let* serial := drawing randomSerial in
      match url_parse (SPIFFEID_String sid) with
      | None => st_err (invalid "spiffe_id" "invalid SPIFFE ID")
      | Some _ =>
        let cn := if mr_subject req =s "" then SPIFFEID_String sid else mr_subject req in
        let leaf := mkTemplate serial cn now notAfter false (SPIFFEID_String sid)
                      (default [] (mr_dnsSans req)) in
        let* der := drawing (fun n => create_certificate n leaf (Some caCert) pub signer) in
        let* bundlePEM := reading (ca_Bundle (sub_TenantID subj) (sid_TrustDomain sid)) in
        let row := mint_row now subj issuer sid req certID cn der serial keySealed
                     (ca_CertPEM caRow) in
        let* _ := record_certificate row
                    (mkCertLogRow now (sub_TenantID subj) certID (mr_logEvent req) (iss_ID issuer)
                       (SPIFFEID_String sid) "") (sub_UserID subj) in
        let* _ := emit (service_event subj (mr_event req) "certificate" certID "ok"
                          [("spiffe_id", AStr (SPIFFEID_String sid));
                           ("issuer_id", AStr (iss_ID issuer)); ("serial", AStr (crt_Serial row))]) in
        let* row := (if (keyPEM <>s "") && negb (mr_retainKey req)
                     then let* _ := writing (Mem_MarkKeyDelivered (sub_TenantID subj) certID) in
                          st_ret (row <| crt_KeyDelivered := true |> <| crt_KeySealed := None |>)
                     else st_ret row) in
        let* eff := st_try (az_Effective now subj Certificate certID) in
        let perms := match eff with Ok (p, _, _) => p | Err _ => no_permissions end in
        st_ret (mkBundle (certView now row perms) (EncodeCertPEM der) (ca_CertPEM caRow) bundlePEM
                  keyPEM)
      end
  | None => st_err (invalid "issuer_id" "issuer cannot sign certificates")
  end.

Definition PrecheckIssue (now : Z) (subj : Subjects) (inp : IssueInput) : M unit :=
  let* (issuer, sid) := resolveIssuer subj inp in
  entitled now subj issuer sid.

Definition Issue (now : Z) (subj : Subjects) (inp : IssueInput) : M Bundle :=
  let* (issuer, sid) := resolveIssuer subj inp in
  let* _ := entitled now subj issuer sid in
  mint now subj issuer sid
    (mkMintReq (in_Subject inp) (in_CSRPEM inp) (in_DNSSans inp) (in_ValiditySeconds inp)
       (in_DeliverKey inp) (in_RetainKey inp) "certificate_issued" "issued").
End issue.

(** ** What the store does on success *)

(** The row as [InsertCertificate] keeps it. *)
Definition kept_cert (now : Z) (c : IssuedCertificate) : IssuedCertificate :=
  let c := c <| crt_CreatedAt := now |> <| crt_UpdatedAt := now |> in
  cpCertificate (match crt_SANs c with None => c <| crt_SANs := Some "[]" |> | Some _ => c end).
Lemma InsertCertificate_ok `{GoRuntime} c m m' u :
  Mem_InsertCertificate c m = (Ok u, m') ->
  m' = m <| m_Certificates := <[crt_ID c := kept_cert (m_Now m) c]> (m_Certificates m) |>
  /\ (exists i, m_Issuers m !! crt_IssuerID c = Some i /\ iss_TenantID i = crt_TenantID c)
  /\ (forall k x, m_Certificates m !! k = Some x -> ~ same_serial x c).
Proof.
  unfold Mem_InsertCertificate, fail_write. case_match; [done|].
  destruct (m_Issuers m !! crt_IssuerID c) as [i|] eqn:Hi; [|done].
  destruct (iss_TenantID i =s crt_TenantID c) eqn:Ht; [simpl|done]. bools.
  destruct (existsb _ _) eqn:Hn; [done|]. rewrite existsb_range_false in Hn.
  intros [= _ <-]. split_and!.
  - unfold kept_cert. simpl. by destruct (crt_SANs c) eqn:E; simpl; rewrite ?E.
  - eauto.
  - intros k x Hk [H1 H2]. specialize (Hn k x Hk). simpl in Hn.
    by rewrite H1, H2, !str_eqb_refl in Hn.
Qed.
Lemma InsertCertLog_ok r m m' u :
  Mem_InsertCertLog r m = (Ok u, m') -> m' = m <| m_CertLog := m_CertLog m ++ r |>.
Proof. unfold Mem_InsertCertLog, fail_write. case_match; [done|]. by intros [= _ <-]. Qed.
Lemma MarkKeyDelivered_ok tid id m m' u :
  Mem_MarkKeyDelivered tid id m = (Ok u, m') ->
  exists c, m_Certificates m !! id = Some c /\ crt_TenantID c = tid
    /\ m' = m <| m_Certificates := <[id := c <| crt_KeyDelivered := true |> <| crt_KeySealed := None |>
                                             <| crt_UpdatedAt := m_Now m |>]> (m_Certificates m) |>.
Proof.
  unfold Mem_MarkKeyDelivered, fail_write. case_match; [done|].
  destruct (m_Certificates m !! id) as [c|] eqn:E; [|done].
  destruct (crt_TenantID c =s tid) eqn:Ht; simpl; [|done]. bools. intros [= _ <-]. eauto.
Qed.
Lemma UpsertGrant_frame `{GoRuntime} g m m' r :
  Mem_UpsertGrant g m = (r, m') -> m' = m <| m_Grants := m_Grants m' |>.
Proof.
  unfold Mem_UpsertGrant, fail_write. case_match; [intros [= _ <-]; by destruct m|].
  case_match; [|case_match; simplify_eq/=]; intros [= _ <-]; done.
Qed.

Section issue_lemmas.
Context `{Env}.

(** [GrantOwner] touches the grants only. *)
Lemma az_GrantOwner_ok tid rt rid uid w w' u :
  az_GrantOwner tid rt rid uid w = (Ok u, w') ->
  wd_mem w' = (wd_mem w) <| m_Grants := m_Grants (wd_mem w') |> /\ wd_events w' = wd_events w
  /\ wd_rnd w' = wd_rnd w.
Proof.
  unfold az_GrantOwner. destruct (uid =s "") eqn:Eu.
  - intros Hr. run_step Hr. by destruct w as [[]].
  - intros Hr. run_step Hr. unfold newID in Hrun. injection Hrun as <- <-.
    apply writing_ok in Hr as (m & Hm & ->). simpl in *. unfold authz_GrantOwner in Hm.
    rewrite Eu in Hm. unfold st_bind, st_ret in Hm.
    destruct (as_UpsertGrant _ _) as [[g|e] m1] eqn:Hg; [|done]. injection Hm as <- <-.
    by apply UpsertGrant_frame in Hg.
Qed.

Lemma record_certificate_ok row log grantee w w' u :
  record_certificate row log grantee w = (Ok u, w') ->
  m_Certificates (wd_mem w')
    = <[crt_ID row := kept_cert (m_Now (wd_mem w)) row]> (m_Certificates (wd_mem w))
  /\ m_CertLog (wd_mem w') = m_CertLog (wd_mem w) ++ [log]
  /\ m_Issuers (wd_mem w') = m_Issuers (wd_mem w) /\ m_Now (wd_mem w') = m_Now (wd_mem w)
  /\ m_Fail (wd_mem w') = m_Fail (wd_mem w)
  /\ wd_events w' = wd_events w
  /\ (forall k x, m_Certificates (wd_mem w) !! k = Some x -> ~ same_serial x row).
Proof.
  unfold record_certificate. intros Hr%Atomic_ok. run_step Hr.
  apply writing_ok in Hrun as (m1 & Hi & ->). run_step Hr.
  apply writing_ok in Hrun as (m2 & Hl & ->). apply az_GrantOwner_ok in Hr as (Hg & He & _).
  apply InsertCertificate_ok in Hi as (-> & _ & Hn). apply InsertCertLog_ok in Hl as ->.
  simpl in *. rewrite Hg, He. done.
Qed.

(** The steps of a successful [mint]. *)
Lemma mint_ok now subj issuer sid req w b w' :
  mint now subj issuer sid req w = (Ok b, w') ->
  exists caid caRow signer caCert certID pub keySealed keyPEM serial der cn w1 w2,
    iss_CAID issuer = Some caid /\ iss_Type issuer = "self_signed"
    /\ Mem_GetCA (sub_TenantID subj) caid (wd_mem w) = Ok caRow
    /\ ca_Signer caRow = Ok (signer, caCert)
    /\ certID = new_id (wd_ids w)
    /\ mint_key certID req (w <| wd_ids := S (wd_ids w) |>) = (Ok (pub, keySealed, keyPEM), w1)
    /\ wd_mem w2 = wd_mem w1 /\ wd_events w2 = wd_events w1
    /\ (let row := mint_row now subj issuer sid req certID cn der serial keySealed (ca_CertPEM caRow) in
        exists w3, record_certificate row
          (mkCertLogRow now (sub_TenantID subj) certID (mr_logEvent req) (iss_ID issuer)
             (SPIFFEID_String sid) "") (sub_UserID subj) w2 = (Ok tt, w3)
        /\ wd_events w' = wd_events w3 ++ [service_event subj (mr_event req) "certificate" certID "ok"
                          [("spiffe_id", AStr (SPIFFEID_String sid));
                           ("issuer_id", AStr (iss_ID issuer)); ("serial", AStr (crt_Serial row))]]
        /\ (if (keyPEM <>s "") && negb (mr_retainKey req)
            then Mem_MarkKeyDelivered (sub_TenantID subj) certID (wd_mem w3) = (Ok tt, wd_mem w')
                 /\ exists perms, b_Certificate b = certView now (row <| crt_KeyDelivered := true |>
                                                        <| crt_KeySealed := None |>) perms
            else wd_mem w' = wd_mem w3 /\ exists perms, b_Certificate b = certView now row perms)
        /\ b_CertPEM b = EncodeCertPEM der /\ b_KeyPEM b = keyPEM).
Proof.
  unfold mint. intros Hr. destruct (iss_CAID issuer) as [caid|] eqn:Hca; [|done].
  destruct (iss_Type issuer =s "self_signed") eqn:Hty; simpl in Hr; [|done]. bools.
  apply st_bind_ok in Hr as (caRow & w0 & HCA & Hr). apply reading_ok in HCA as [HCA ->].
  apply st_bind_ok in Hr as ([signer caCert] & w0 & HSg & Hr). apply st_lift_ok in HSg as [HSg ->].
  apply st_bind_ok in Hr as (certID & w0 & HID & Hr). injection HID as HID <-.
  apply st_bind_ok in Hr as ([[pub keySealed] keyPEM] & w1 & HKey & Hr).
  apply st_bind_ok in Hr as (serial & w2 & HSer & Hr). injection HSer as _ <-.
  destruct (url_parse _) eqn:Hu; [|done].
  apply st_bind_ok in Hr as (der & w3 & HDer & Hr). injection HDer as _ <-.
  apply st_bind_ok in Hr as (bundlePEM & w3 & HB & Hr). apply reading_ok in HB as [_ ->].
  apply st_bind_ok in Hr as ([] & w3 & HRec & Hr).
  apply st_bind_ok in Hr as ([] & w4 & HEv & Hr). apply emit_ok in HEv as ->.
  apply st_bind_ok in Hr as (row & w5 & HMark & Hr).
  apply st_bind_ok in Hr as (eff & w6 & HEff & Hr). injection HEff as <- <-.
  apply st_ret_ok in Hr as [-> ->].
  match type of HRec with record_certificate _ _ _ ?w2 = _ =>
    eexists caid, caRow, signer, caCert, certID, pub, keySealed, keyPEM, serial, der, _, w1, w2
  end.
  split_and!; try done; [].
  exists w3. split; [exact HRec|].
  destruct ((keyPEM <>s "") && negb (mr_retainKey req)).
  - apply st_bind_ok in HMark as ([] & w6 & HM & HMark). apply writing_ok in HM as (m & HM & ->).
    apply st_ret_ok in HMark as [-> ->]. split; [reflexivity|].
    split; [split; [exact HM|eexists; reflexivity]|done].
  - apply st_ret_ok in HMark as [-> ->]. split; [reflexivity|]. split; [|done].
    split; [reflexivity|eexists; reflexivity].
Qed.

Lemma mint_key_frame certID req w pub ks k w' :
  mint_key certID req w = (Ok (pub, ks, k), w') ->
  wd_mem w' = wd_mem w /\ wd_events w' = wd_events w
  /\ (mr_csrPEM req <> "" -> ks = None /\ k = "") /\ (mr_deliverKey req = false -> k = "").
Proof.
  unfold mint_key. destruct (mr_csrPEM req =s "") eqn:Ec; simpl; bools.
  - intros Hr. apply st_bind_ok in Hr as ([priv pub'] & w1 & Hg & Hr). injection Hg as _ <-.
    apply st_bind_ok in Hr as (der & w2 & Hm & Hr). apply st_lift_ok in Hm as [_ ->].
    apply st_bind_ok in Hr as (sealed & w3 & Hs & Hr). apply Seal_frame in Hs as [Hs1 Hs2].
    apply st_ret_ok in Hr as [[= -> -> ->] ->]. split_and!; [done..|]. by intros ->.
  - destruct (ParseCSR _); [|done]. destruct (ValidateSANs _ _); [|done].
    by intros [[= -> -> ->] ->]%st_ret_ok.
Qed.

Lemma Mem_GetIssuer_ok tid id m i :
  Mem_GetIssuer tid id m = Ok i ->
  exists x, m_Issuers m !! id = Some x /\ iss_TenantID x = tid
    /\ i = (cpIssuer x) <| iss_CertificateCount := certCountForIssuer m id |>.
Proof.
  unfold Mem_GetIssuer, fail_read. case_match; [done|].
  destruct (m_Issuers m !! id) as [x|]; [|done]. case_match; [|done]. bools.
  intros [= <-]. eauto.
Qed.
Lemma Mem_DefaultIssuer_ok tid td m i :
  Mem_DefaultIssuer tid td m = Ok i ->
  exists k x, m_Issuers m !! k = Some x /\ iss_TenantID x = tid /\ iss_TrustDomain x = td
    /\ iss_IsDefault x = true /\ i = listedIssuer m x.
Proof.
  unfold Mem_DefaultIssuer, fail_read. case_match; [done|].
  destruct (filter _ _) as [|x l] eqn:E; [done|]. intros [= <-].
  assert (Hx : x ∈ x :: l) by left. rewrite <- E in Hx.
  apply list_elem_of_filter in Hx as [Hp Hx]. bools.
  apply list_elem_of_fmap in Hx as ([k y] & -> & Hk%elem_of_map_range). eauto 10.
Qed.
Lemma resolveIssuer_ok subj inp w issuer sid w' :
  resolveIssuer subj inp w = (Ok (issuer, sid), w') ->
  w' = w /\ ParseSPIFFEID (in_SpiffeID inp) = Ok sid
  /\ iss_TrustDomain issuer = sid_TrustDomain sid /\ iss_TenantID issuer = sub_TenantID subj
  /\ exists k x, m_Issuers (wd_mem w) !! k = Some x /\ iss_ID issuer = iss_ID x
       /\ iss_TenantID x = sub_TenantID subj /\ (in_IssuerID inp = "" -> iss_IsDefault x = true)
       /\ (in_IssuerID inp <> "" -> k = in_IssuerID inp) /\ iss_TrustDomain x = iss_TrustDomain issuer.
Proof.
  unfold resolveIssuer. destruct (ParseSPIFFEID _) as [sd|]; [|done]. intros Hr.
  apply st_bind_ok in Hr as (r & w1 & Ht & Hr). apply st_try_ok in Ht.
  assert (Hw : w1 = w /\ forall i, r = Ok i -> iss_TenantID i = sub_TenantID subj
    /\ exists k x, m_Issuers (wd_mem w) !! k = Some x /\ iss_ID i = iss_ID x
       /\ iss_TenantID x = sub_TenantID subj /\ (in_IssuerID inp = "" -> iss_IsDefault x = true)
       /\ (in_IssuerID inp <> "" -> k = in_IssuerID inp) /\ iss_TrustDomain x = iss_TrustDomain i).
  { destruct (in_IssuerID inp =s "") eqn:Ei; simpl in Ht; bools; injection Ht as <- <-;
      (split; [done|]); intros i Hi.
    - apply Mem_DefaultIssuer_ok in Hi as (k & x & Hk & Hx & _ & Hd & ->). split; [done|].
      exists k, x. split_and!; done.
    - apply Mem_GetIssuer_ok in Hi as (x & Hk & Hx & ->). split; [done|].
      eexists _, x. split_and!; done. }
  destruct Hw as [-> Hw]. destruct r as [i|e]; [|by destruct (is_not_found e)].
  destruct (_ =s _) eqn:Htd; simpl in Hr; [|done]. bools.
  apply st_ret_ok in Hr as [[= -> ->] ->]. destruct (Hw i eq_refl) as [? ?]. done.
Qed.
Lemma entitled_ok now subj issuer sid w u w' :
  entitled now subj issuer sid w = (Ok u, w') ->
  w' = w /\ (permitted now subj IssuerType (iss_ID issuer) Use (wd_mem w)
             \/ own_identity subj sid = true).
Proof.
  unfold entitled. intros Hr. apply st_bind_ok in Hr as (r & w1 & Ht & Hr).
  apply (proj1 (st_try_ok _ _ _ _)) in Ht. destruct r as [[]|e].
  - apply st_ret_ok in Hr as [_ ->]. apply az_Check_ok in Ht as [-> Ht]. auto.
  - injection Ht as _ <-. case_match; [done|]. destruct (own_identity subj sid); [|done].
    apply st_ret_ok in Hr as [_ ->]. auto.
Qed.
Lemma Issue_ok now subj inp w b w' :
  Issue now subj inp w = (Ok b, w') ->
  exists issuer sid, resolveIssuer subj inp w = (Ok (issuer, sid), w)
    /\ entitled now subj issuer sid w = (Ok tt, w)
    /\ mint now subj issuer sid
         (mkMintReq (in_Subject inp) (in_CSRPEM inp) (in_DNSSans inp) (in_ValiditySeconds inp)
            (in_DeliverKey inp) (in_RetainKey inp) "certificate_issued" "issued") w = (Ok b, w').
Proof.
  unfold Issue. intros Hr. apply st_bind_ok in Hr as ([issuer sid] & w1 & HR & Hr).
  apply st_bind_ok in Hr as ([] & w2 & HE & Hr).
  pose proof (resolveIssuer_ok _ _ _ _ _ _ HR) as (-> & _).
  pose proof (entitled_ok _ _ _ _ _ _ _ HE) as (-> & _). eauto 10.
Qed.
End issue_lemmas.

(** ** Validity and status *)

Lemma wrap64_id z : int64_min <= z <= int64_max -> wrap64 z = z.
Proof.
  unfold wrap64, int64_min, int64_max. intros Hz. rewrite Z.mod_small; lia.
Qed.

(** The validity period, without the machine integers. *)
Lemma clampValidity_eq s :
  clampValidity s
  = (if decide (s <= 0) then DefaultValiditySeconds
     else Z.max MinValiditySeconds (Z.min MaxValiditySeconds s)) * Second.
Proof.
  unfold clampValidity. rewrite wrap64_id.
  - f_equal. unfold MinValiditySeconds, MaxValiditySeconds, DefaultValiditySeconds.
    case_decide; repeat case_match; bools; lia.
  - unfold int64_min, int64_max, MinValiditySeconds, MaxValiditySeconds, DefaultValiditySeconds,
      Second. repeat case_match; bools; lia.
Qed.
Lemma clampValidity_range s :
  MinValiditySeconds * Second <= clampValidity s <= MaxValiditySeconds * Second.
Proof.
  rewrite clampValidity_eq.
  unfold MinValiditySeconds, MaxValiditySeconds, DefaultValiditySeconds, Second. case_decide; lia.
Qed.

(** A validity period never overflows its Duration, whatever is asked for:
    it is between one minute and one year, grows with the request, is the
    request when that is in range, and 90 days when the request is not
    positive. *)
Theorem clampValidity_bounds s :
  MinValiditySeconds * Second <= clampValidity s <= MaxValiditySeconds * Second
  /\ (MinValiditySeconds <= s <= MaxValiditySeconds -> clampValidity s = s * Second)
  /\ (s <= 0 -> clampValidity s = DefaultValiditySeconds * Second)
  /\ (forall s', 0 < s <= s' -> clampValidity s <= clampValidity s').
Proof.
  split; [apply clampValidity_range|]. split_and!; intros; rewrite ?clampValidity_eq;
    unfold MinValiditySeconds, MaxValiditySeconds, DefaultValiditySeconds, Second in *;
    repeat case_decide; lia.
Qed.

(** The order in which an unrevoked certificate passes through its states. *)
Definition status_age (st : string) : Z :=
  if st =s "active" then 0 else if st =s "expiring" then 1 else if st =s "expired" then 2 else 3.

(** The derived status is determined by the expiry: revoked exactly when
    stored so, expired from [NotAfter] on, expiring from half the lifetime (30
    days at most) before it; and time only moves it forward. *)
Theorem deriveStatus_spec c now :
  let window := Z.min expiringWindow (Z.quot (time_sub (crt_NotAfter c) (crt_NotBefore c)) 2) in
  (deriveStatus c now = "revoked" <-> crt_Status c = "revoked")
  /\ (crt_Status c <> "revoked" ->
      (deriveStatus c now = "expired" <-> crt_NotAfter c <= now)
      /\ (deriveStatus c now = "expiring" <-> crt_NotAfter c - window <= now < crt_NotAfter c)
      /\ (deriveStatus c now = "active" <-> now < crt_NotAfter c - Z.max 0 window))
  /\ (forall later, now <= later -> status_age (deriveStatus c now) <= status_age (deriveStatus c later)).
Proof.
  simpl. unfold deriveStatus, Before, After.
  set (half := Z.quot _ 2). assert (Hmin : (if half <? expiringWindow then half else expiringWindow)
    = Z.min expiringWindow half) by (destruct (half <? expiringWindow) eqn:E; bools; lia).
  rewrite Hmin. set (win := Z.min _ _). clearbody win half.
  destruct (crt_Status c =s "revoked") eqn:Es; bools; [by split_and!|].
  assert (Hd : forall t, (if negb (t <? crt_NotAfter c) then "expired"
                 else if negb (t + win <? crt_NotAfter c) then "expiring" else "active")
                = (if decide (crt_NotAfter c <= t) then "expired"
                   else if decide (crt_NotAfter c <= t + win) then "expiring" else "active")).
  { intros t. destruct (t <? _) eqn:E1; destruct (t + win <? _) eqn:E2; bools; simpl;
      repeat case_decide; done || lia. }
  rewrite (Hd now). split_and!.
  - split; [|done]. repeat case_decide; done.
  - intros _. split_and!; (split; [repeat case_decide; done || lia|]);
      intros; repeat case_decide; done || lia.
  - intros later Hl. rewrite (Hd later). repeat case_decide; vm_compute; done || lia.
Qed.

(** ** Issuance *)
Section issue_props.
Context `{Env}.

(** What a successful [mint] leaves behind. *)
Lemma mint_records now subj issuer sid req w b w' :
  mint now subj issuer sid req w = (Ok b, w') ->
  exists c ev, m_Certificates (wd_mem w') = <[new_id (wd_ids w) := c]> (m_Certificates (wd_mem w))
    /\ wd_events w' = wd_events w ++ [ev] /\ ev_EventType ev = mr_event req
    /\ ev_SubjectID ev = new_id (wd_ids w)
    /\ crt_ID c = new_id (wd_ids w) /\ crt_TenantID c = sub_TenantID subj
    /\ crt_IssuerID c = iss_ID issuer /\ crt_SpiffeID c = SPIFFEID_String sid
    /\ crt_Status c = "active" /\ crt_SupersededBy c = None /\ crt_Owner c = ActorID subj
    /\ crt_NotBefore c = now /\ crt_NotAfter c = now + clampValidity (mr_validitySeconds req)
    /\ (forall k x, m_Certificates (wd_mem w) !! k = Some x -> ~ same_serial x c)
    /\ (mr_csrPEM req <> "" -> crt_KeySealed c = None /\ b_KeyPEM b = "")
    /\ (b_KeyPEM b <> "" -> mr_retainKey req = false ->
        crt_KeySealed c = None /\ crt_KeyDelivered c = true)
    /\ cv_ID (b_Certificate b) = crt_ID c /\ cv_SpiffeID (b_Certificate b) = crt_SpiffeID c
    /\ cv_IssuerID (b_Certificate b) = crt_IssuerID c /\ b_CertPEM b = crt_CertPEM c
    /\ m_Issuers (wd_mem w') = m_Issuers (wd_mem w) /\ m_Fail (wd_mem w') = m_Fail (wd_mem w)
    /\ iss_Type issuer = "self_signed".
Proof.
  intros (caid & caRow & signer & caCert & certID & pub & ks & kp & serial & der & cn & w1 & w2 & _
    & Hty & _ & _ & -> & Hkey & Hm2 & He2 & w3 & Hrec & Hev & Hmark & Hcp & Hkp)%mint_ok.
  apply mint_key_frame in Hkey as (Hm1 & He1 & Hcsr & _). simpl in Hm1, He1.
  apply record_certificate_ok in Hrec as (Hc & _ & Hi & Hnow & Hfail & He & Hser).
  rewrite Hm2, Hm1 in *. rewrite He2, He1 in *. simpl crt_ID in *. rewrite He in Hev.
  destruct (_ && _) eqn:Eb.
  - destruct Hmark as [Hmk [perms Hb]]. apply MarkKeyDelivered_ok in Hmk as (c0 & Hc0 & Ht0 & Hw').
    rewrite Hc, lookup_insert_eq in Hc0. injection Hc0 as <-. rewrite Hw'. simpl.
    rewrite Hc, insert_insert_eq. eexists _, _. rewrite Hb. split_and!; try done.
    intros Hne. apply Hcsr in Hne as [-> ->]. discriminate Eb.
  - destruct Hmark as [Hw' [perms Hb]]. rewrite Hw', Hc. eexists _, _. rewrite Hb.
    split_and!; try done.
    + intros Hne. apply Hcsr in Hne as [-> ->]. done.
    + intros Hne Hret. rewrite Hkp in Hne. rewrite Hret in Eb. simpl in Eb.
      rewrite (proj2 (str_eqb_neq _ _) Hne) in Eb. done.
Qed.

(** A service's own identity is the one its SPIFFE name parses to. *)
Lemma own_identity_same subj sid :
  own_identity subj sid = true ->
  exists own, ParseSPIFFEID (sub_Service subj) = Ok own /\ SPIFFEID_String own = SPIFFEID_String sid.
Proof.
  unfold own_identity. case_match; [|done]. destruct (ParseSPIFFEID _) as [own|]; [|done].
  intros [H1 H2]%andb_true_iff. bools. exists own. unfold SPIFFEID_String. by rewrite H1, H2.
Qed.
(** C5. SR-002: a certificate is issued only for an identity the caller is
    entitled to, and by an issuer that is stored as one of the caller's tenant and of
    the identity's trust domain, the one asked for or else the default: the caller
    may use that issuer, or is a service asking for its own identity. *)
Theorem Issue_entitled now subj inp w b w' :
  Issue now subj inp w = (Ok b, w') ->
  exists k issuer sid, ParseSPIFFEID (in_SpiffeID inp) = Ok sid
    /\ cv_SpiffeID (b_Certificate b) = SPIFFEID_String sid
    /\ m_Issuers (wd_mem w) !! k = Some issuer /\ cv_IssuerID (b_Certificate b) = iss_ID issuer
    /\ (in_IssuerID inp <> "" -> k = in_IssuerID inp) /\ (in_IssuerID inp = "" -> iss_IsDefault issuer = true)
    /\ iss_TenantID issuer = sub_TenantID subj /\ iss_TrustDomain issuer = sid_TrustDomain sid
    /\ (permitted now subj IssuerType (iss_ID issuer) Use (wd_mem w)
        \/ exists own, ParseSPIFFEID (sub_Service subj) = Ok own /\ SPIFFEID_String own = SPIFFEID_String sid).
Proof.
  intros (issuer & sid & HR & HE & HM)%Issue_ok.
  apply resolveIssuer_ok in HR as (_ & Hp & Htd & _ & k & x & Hk & Hx & Ht & Hdef & Hkey & Hxtd). apply entitled_ok in HE as [_ HE].
  apply mint_records in HM as (c & ev & _ & _ & _ & _ & _ & _ & Hi & Hs & _ & _ & _ & _ & _ & _ & _
    & _ & _ & Hs' & Hi' & _). exists k, x, sid. rewrite <- Hx. split_and!; try (congruence || done).
  destruct HE as [HE|HE]; [by left|right]. by apply own_identity_same.
Qed.

(** What issuance records: exactly one new certificate, active, valid from
    now for at least a minute and at most a year, under a serial no other
    certificate of the tenant has, with one audit event naming it; a key handed
    over for good is not kept, and the key of a CSR is never held. *)
Theorem Issue_records now subj inp w b w' :
  Issue now subj inp w = (Ok b, w') ->
  exists c ev, m_Certificates (wd_mem w') = <[crt_ID c := c]> (m_Certificates (wd_mem w))
    /\ cv_ID (b_Certificate b) = crt_ID c /\ crt_TenantID c = sub_TenantID subj
    /\ crt_Status c = "active" /\ crt_NotBefore c = now
    /\ now + MinValiditySeconds * Second <= crt_NotAfter c <= now + MaxValiditySeconds * Second
    /\ (forall k x, m_Certificates (wd_mem w) !! k = Some x -> ~ same_serial x c)
    /\ wd_events w' = wd_events w ++ [ev] /\ ev_EventType ev = "certificate_issued"
    /\ ev_SubjectID ev = crt_ID c
    /\ (in_CSRPEM inp <> "" -> crt_KeySealed c = None /\ b_KeyPEM b = "")
    /\ (b_KeyPEM b <> "" -> in_RetainKey inp = false ->
        crt_KeySealed c = None /\ crt_KeyDelivered c = true).
Proof.
  intros (issuer & sid & _ & _ & HM)%Issue_ok.
  apply mint_records in HM as (c & ev & Hc & He & Het & Hes & Hid & Ht & Hi & Hs & Hst & _ & _ & Hnb
    & Hna & Hser & Hcsr & Hkey & Hcv & _). exists c, ev. simpl in *. rewrite Hid.
  pose proof (clampValidity_range (in_ValiditySeconds inp)) as Hb.
  split_and!; try done; try congruence; lia.
Qed.
End issue_props.

(** ** Witnesses: an operator of the tenant issues a certificate *)
Module IssueSample.
Import Toy.
#[local] Existing Instance toy_env.

Definition admin : Subjects := mkSubjects "t1" "root" ["admin"] "".
(** The CA is generated, then an issuer made for it. *)
Definition with_ca : World := (EnsureCA 5 "t1" "example.org" (mkWorld (Mem_New 5) [] 0 0)).2.
Definition corp_issuer : Issuer :=
  mkIssuer "i1" "t1" "Corp CA" "self_signed" "example.org" true (Some "id0") "" "" "" None None true
    (Some "root") (Some "root") 0 0 0.
Definition ready : World := (writing (Mem_InsertIssuer corp_issuer) with_ca).2.
Definition made_ca : CA := default (mkCA "" "" "" "" None "" 0 0 "" 0) (m_CAs (wd_mem with_ca) !! "id0").
Lemma ready_wf : wf (wd_mem ready) /\ m_Fail (wd_mem ready) = ∅.
Proof.
  split; [|vm_compute; reflexivity].
  replace (wd_mem ready)
    with (run_op (OpInsertIssuer corp_issuer) (run_op (OpInsertCA made_ca) (Mem_New 5)))
    by (vm_compute; reflexivity).
  repeat (apply run_op_wf || apply wf_New || reflexivity).
Qed.
Definition web_request : IssueInput :=
  mkIssueInput "" "spiffe://example.org/web" "" "" (Some ["web.example.org"]) 3600 true false.
Definition issued : Bundle * World :=
  match Issue 10 admin web_request ready with
  | (Ok b, w) => (b, w)
  | (Err _, w) => (mkBundle (certView 0 sample_cert no_permissions) "" "" "" "", w)
  end.
Lemma issued_run : Issue 10 admin web_request ready = (Ok issued.1, issued.2).
Proof. vm_compute. reflexivity. Qed.

Lemma Issue_entitled_witness :
  cv_SpiffeID (b_Certificate issued.1) = "spiffe://example.org/web"
  /\ exists k issuer, m_Issuers (wd_mem ready) !! k = Some issuer /\ cv_IssuerID (b_Certificate issued.1) = iss_ID issuer
    /\ iss_IsDefault issuer = true.
Proof.
  split; [vm_compute; reflexivity|].
  destruct (Issue_entitled 10 admin web_request ready issued.1 issued.2 issued_run)
    as (k & issuer & sid & _ & _ & Hk & Hi & _ & Hd & _).
  exists k, issuer. split; [exact Hk|]. split; [exact Hi|exact (Hd eq_refl)].
Defined.
Lemma Issue_records_witness :
  exists c, m_Certificates (wd_mem issued.2) !! crt_ID c = Some c
    /\ crt_KeyDelivered c = true /\ b_KeyPEM issued.1 = "PRIVATE KEY:key".
Proof.
  destruct (Issue_records 10 admin web_request ready issued.1 issued.2 issued_run)
    as (c & ev & Hc & _ & _ & _ & _ & _ & _ & _ & _ & _ & _ & Hk).
  assert (Hd : b_KeyPEM issued.1 = "PRIVATE KEY:key") by (vm_compute; reflexivity).
  exists c. rewrite Hc, lookup_insert_eq. split; [reflexivity|]. split; [|exact Hd].
  apply Hk; [rewrite Hd; discriminate|reflexivity].
Defined.
End IssueSample.
