(* ===== verification/Domains.v ===== *)
(** The DNS names of an ACME order: the checks of
    internal/issue/acmerequests.go and the normalisation of
    internal/issue/acme.go. *)

From S2P Require Import Prelude Rows Memstore GoJson GoUrl Csr World IssueBase.

(** [acme.MaxDomains]. *)
Definition MaxDomains : Z := 100.

(** ** String operations of package strings *)
Definition HasPrefix (p s : string) : bool := match strip_prefix p s with Some _ => true | None => false end.
Definition TrimPrefix (p s : string) : string := default s (strip_prefix p s).
(** [strings.Split] at a byte. *)
Fixpoint split_byte (b : Z) (s : string) : list string :=
  match s with
  | EmptyString => [EmptyString]
  | String c s' =>
    if byte_of c =? b then EmptyString :: split_byte b s'
    else match split_byte b s' with
         | x :: r => String c x :: r
         | [] => [String c EmptyString]
         end
  end.
Fixpoint find_byte (f : Ascii.ascii -> bool) (s : string) : option Ascii.ascii :=
  match s with
  | EmptyString => None
  | String c s' => if f c then Some c else find_byte f s'
  end.

(** ** One name *)
Definition ldh (c : Ascii.ascii) : bool :=
  ((97 <=? byte_of c) && (byte_of c <=? 122)) || ((48 <=? byte_of c) && (byte_of c <=? 57))
  || (byte_of c =? 45).
Definition wildcard_message : string :=
  "may only use a wildcard as its whole first label (*.example.org)".

Definition labelProblem (l : string) : string :=
  if l =s "" then "has an empty label"
  else if l =s "*" then wildcard_message
  else if 63 <? str_len l then "has a label longer than 63 characters"
  else if starts 45 l || ends_with 45 l then "has a label starting or ending with a hyphen"
  else match find_byte (fun c => negb (ldh c)) l with
       | Some c => if byte_of c =? 42 then wildcard_message
                   else "contains a character other than letters, digits and hyphens"
       | None => ""
       end.
(** The first problem of a list of labels. *)
Fixpoint labels_problem (ls : list string) : string :=
  match ls with
  | [] => ""
  | l :: ls' => if labelProblem l <>s "" then labelProblem l else labels_problem ls'
  end.
Definition domainProblem (d : string) : string :=
  if 253 <? str_len d then "is longer than 253 characters"
  else
    let labels := split_byte 46 (TrimPrefix "*." d) in
    if Z.of_nat (length labels) <? 2 then "needs at least two labels (e.g. example.org)"
    else labels_problem labels.

(** ** The names of an order *)
Section order.
Context `{GoRuntime}.

(** [strings.TrimSuffix(strings.ToLower(strings.TrimSpace(d)), ".")]. *)
Definition order_name (d : string) : string :=
  let d := ToLower (TrimSpace d) in if ends_with 46 d then drop_last d else d.
(** Distinct non-empty names in the order given; [seen] holds the names kept. *)
Definition keep_name (name : string -> string) (names : list string) (d : string) : list string :=
  let d := name d in if (d <>s "") && negb (contains names d) then names ++ [d] else names.
Definition distinct_names (name : string -> string) (inp : list string) : list string :=
  foldl (keep_name name) [] inp.

(** A wildcard of the same order that covers [d]. *)
Definition covered (names : list string) (d : string) : option string :=
  match cut 46 d with
  | (_, Some parent) =>
    if negb (HasPrefix "*." d) && contains names ("*." +:+ parent) then Some parent else None
  | (_, None) => None
  end.
Fixpoint malformed (names : list string) : res unit :=
  match names with
  | [] => Ok tt
  | d :: ds =>
    if domainProblem d <>s ""
    then Err (invalid "domains" ("domain " +:+ str1 quote +:+ d +:+ str1 quote +:+ " " +:+ domainProblem d))
    else malformed ds
  end.
Fixpoint overlapping (all names : list string) : res unit :=
  match names with
  | [] => Ok tt
  | d :: ds =>
    match covered all d with
    | Some parent =>
      Err (invalid "domains" ("domain " +:+ str1 quote +:+ d +:+ str1 quote
             +:+ " is already covered by the wildcard " +:+ str1 quote +:+ "*." +:+ parent +:+ str1 quote
             +:+ "; remove one of them"))
    | None => overlapping all ds
    end
  end.
Definition validateACMEDomains (inp : list string) : res (list string) :=
  let names := distinct_names order_name inp in
  if (length names =? 0)%nat then Err (invalid "domains" "at least one DNS domain is required")
  else if MaxDomains <? Z.of_nat (length names)
  then Err (invalid "domains" ("at most " +:+ FormatInt MaxDomains +:+ " domains per order"))
  else
    let? _ := malformed names in
    let? _ := overlapping names names in
    Ok names.

(** [normaliseDomains]: as above, but a trailing dot is kept. *)
Definition normaliseDomains (inp : list string) : list string :=
  distinct_names (fun d => ToLower (TrimSpace d)) inp.
End order.

(** ** What is accepted *)

(** A label of letters, digits and inner hyphens. *)
Definition valid_label (l : string) : Prop :=
  l <> "" /\ str_len l <= 63 /\ starts 45 l = false /\ ends_with 45 l = false
  /\ string_forallb ldh l = true.
Definition dotted (labels : list string) : string := String.concat "." labels.
(** A host name of two labels or more, or a wildcard for one. *)
Definition valid_name (d : string) : Prop :=
  str_len d <= 253 /\ exists labels, (2 <= length labels)%nat /\ Forall valid_label labels
    /\ (d = dotted labels \/ d = "*." +:+ dotted labels).
(** The names of an order that an ACME server accepts. *)
Definition acceptable (names : list string) : Prop :=
  names <> [] /\ Z.of_nat (length names) <= MaxDomains /\ Forall valid_name names
  /\ (forall first parent, lacks 46 first = true -> first <> "*" ->
        first +:+ "." +:+ parent ∈ names -> "*." +:+ parent ∉ names).

Lemma find_byte_none f s : find_byte f s = None <-> string_forallb (fun c => negb (f c)) s = true.
Proof. induction s as [|c s IH]; simpl; [done|]. destruct (f c); simpl; done. Qed.
Lemma forallb_ext f g s :
  (forall c, f c = g c) -> string_forallb f s = string_forallb g s.
Proof. intros He. induction s as [|c s IH]; simpl; [done|]. by rewrite He, IH. Qed.

Lemma labelProblem_ok l : labelProblem l = "" <-> valid_label l.
Proof.
  unfold labelProblem, valid_label. split.
  - destruct (l =s "") eqn:E1; [done|]. destruct (l =s "*") eqn:E2; [done|].
    destruct (63 <? str_len l) eqn:E3; [done|]. destruct (starts 45 l || ends_with 45 l) eqn:E4; [done|].
    destruct (find_byte _ l) eqn:E5; [by case_match|]. intros _. bools. split_and!; try done.
    apply find_byte_none in E5. rewrite <- E5. apply forallb_ext. intros c. by rewrite negb_involutive.
  - intros (H1 & H2 & H3 & H4 & H5). rewrite (proj2 (str_eqb_neq _ _) H1).
    rewrite (proj2 (str_eqb_neq l "*")) by (intros ->; discriminate H5).
    rewrite (proj2 (Z.ltb_ge _ _)) by done. rewrite H3, H4. simpl.
    rewrite (proj2 (find_byte_none _ _)); [done|]. rewrite <- H5. apply forallb_ext. intros c.
    by rewrite negb_involutive.
Qed.
Lemma labels_problem_ok ls : labels_problem ls = "" <-> Forall valid_label ls.
Proof.
  induction ls as [|l ls IH]; simpl; [by split|]. rewrite Forall_cons, <- labelProblem_ok, <- IH.
  destruct (labelProblem l =s "") eqn:E; simpl; bools; naive_solver.
Qed.

(** *** Splitting and joining at dots *)
Lemma byte_of_inj c d : byte_of c = byte_of d -> c = d.
Proof.
  unfold byte_of. intros Hb%N2Z.inj. rewrite <- (Ascii.ascii_N_embedding c), Hb.
  apply Ascii.ascii_N_embedding.
Qed.
Lemma split_byte_cons b s : exists x r, split_byte b s = x :: r.
Proof.
  induction s as [|c s (x & r & IH)]; simpl; [eauto|]. rewrite IH. case_match; eauto.
Qed.
Lemma dotted_split s : dotted (split_byte 46 s) = s.
Proof.
  unfold dotted. induction s as [|c s IH]; [done|]. simpl.
  destruct (split_byte_cons 46 s) as (x & r & E). rewrite E in *. destruct (byte_of c =? 46) eqn:Ec.
  - bools. change 46 with (byte_of (Ascii.ascii_of_N 46)) in Ec. apply byte_of_inj in Ec as ->.
    simpl in *. by rewrite IH.
  - rewrite <- IH. by destruct r.
Qed.
Lemma split_byte_lacks b s : Forall (fun l => lacks b l = true) (split_byte b s).
Proof.
  induction s as [|c s IH]; simpl; [by repeat constructor|].
  destruct (split_byte_cons b s) as (x & r & E). rewrite E in *. apply Forall_cons in IH as [Hx Hr].
  destruct (byte_of c =? b) eqn:Ec; constructor; try done; [by constructor|].
  unfold lacks in *. simpl. by rewrite Ec.
Qed.
Lemma split_byte_one b l : lacks b l = true -> split_byte b l = [l].
Proof.
  induction l as [|c l IH]; [done|]. unfold lacks in *. simpl. intros [Hc Hl]%andb_true_iff. bools.
  rewrite (IH Hl). by rewrite (proj2 (Z.eqb_neq _ _)).
Qed.
Lemma split_byte_app b l c s :
  lacks b l = true -> byte_of c = b -> split_byte b (l +:+ String c s) = l :: split_byte b s.
Proof.
  intros Hl Hc. induction l as [|d l IH]; simpl.
  - by rewrite (proj2 (Z.eqb_eq _ _) Hc).
  - unfold lacks in Hl. simpl in Hl. apply andb_true_iff in Hl as [Hd Hl]. bools.
    rewrite (IH Hl). by rewrite (proj2 (Z.eqb_neq _ _)).
Qed.
Lemma split_join c ls :
  ls <> [] -> Forall (fun l => lacks (byte_of c) l = true) ls ->
  split_byte (byte_of c) (String.concat (str1 c) ls) = ls.
Proof.
  induction ls as [|l ls IH]; [done|]. intros _ [Hl Hls]%Forall_cons.
  destruct ls as [|l2 ls]; [by apply split_byte_one|].
  change (String.concat (str1 c) (l :: l2 :: ls)) with (l +:+ String c (String.concat (str1 c) (l2 :: ls))).
  rewrite split_byte_app by done. by rewrite IH.
Qed.
Lemma split_dotted ls :
  ls <> [] -> Forall (fun l => lacks 46 l = true) ls -> split_byte 46 (dotted ls) = ls.
Proof. apply (split_join (Ascii.ascii_of_N 46)). Qed.
Lemma valid_label_lacks l : valid_label l -> lacks 46 l = true.
Proof.
  intros (_ & _ & _ & _ & Hl). eapply forallb_impl; [|exact Hl]. intros c Hc. unfold ldh in Hc.
  destruct (byte_of c =? 46) eqn:E; [|done]. bools. by rewrite E in Hc.
Qed.

(** *** Prefixes *)
Lemma strip_prefix_app p s : strip_prefix p (p +:+ s) = Some s.
Proof. induction p as [|c p IH]; [done|]. rewrite str_cons_app. simpl. by rewrite bool_decide_eq_true_2. Qed.
Lemma strip_prefix_some p s r : strip_prefix p s = Some r -> s = p +:+ r.
Proof.
  revert s. induction p as [|c p IH]; intros s; simpl; [by intros [= ->]|].
  destruct s as [|d s]; [done|]. case_bool_decide; [|done]. subst d. intros ->%IH.
  by rewrite str_cons_app.
Qed.

(** A dotted name starts with its first label, so it is not a wildcard. *)
Lemma dotted_no_wildcard ls :
  Forall valid_label ls -> ls <> [] -> strip_prefix "*." (dotted ls) = None.
Proof.
  intros Hl Hne. destruct ls as [|l ls]; [done|]. apply Forall_cons in Hl as [(Hn & _ & _ & _ & Hc) _].
  destruct l as [|c l]; [done|]. assert (Hd : exists t, dotted (String c l :: ls) = String c t).
  { unfold dotted. simpl. destruct ls; [by eexists|]. rewrite str_cons_app. by eexists. }
  destruct Hd as [t ->]. simpl in *. apply andb_true_iff in Hc as [Hc _].
  case_bool_decide; [|done]. by subst c.
Qed.

Lemma domainProblem_ok d : domainProblem d = "" <-> valid_name d.
Proof.
  unfold domainProblem, valid_name. set (base := TrimPrefix "*." d). split.
  - destruct (253 <? _) eqn:E1; [done|]. destruct (_ <? 2) eqn:E2; [done|].
    rewrite labels_problem_ok. bools. intros Hl. split; [done|]. exists (split_byte 46 base).
    split_and!; [lia|done|]. rewrite dotted_split. unfold base, TrimPrefix.
    destruct (strip_prefix "*." d) as [r|] eqn:E; simpl; [|auto]. right. by apply strip_prefix_some.
  - intros (Hlen & ls & H2 & Hls & Hd). rewrite (proj2 (Z.ltb_ge _ _)) by done.
    assert (Hne : ls <> []) by (intros ->; simpl in H2; lia).
    assert (Hb : base = dotted ls).
    { unfold base, TrimPrefix. destruct Hd as [-> | ->]; [by rewrite dotted_no_wildcard|].
      by rewrite strip_prefix_app. }
    rewrite Hb, split_dotted; [|done|eapply Forall_impl; [exact Hls|apply valid_label_lacks]].
    rewrite (proj2 (Z.ltb_ge _ _)) by lia. by apply labels_problem_ok.
Qed.

(** *** The loops over the names *)
Lemma keep_names_spec name inp acc :
  NoDup acc ->
  NoDup (foldl (keep_name name) acc inp)
  /\ (forall n, n ∈ foldl (keep_name name) acc inp
        <-> n ∈ acc \/ (n <> "" /\ exists d, d ∈ inp /\ name d = n)).
Proof.
  revert acc. induction inp as [|d inp IH]; intros acc Hn; simpl; [set_solver|].
  assert (Hk : NoDup (keep_name name acc d) /\ forall n, n ∈ keep_name name acc d
                <-> n ∈ acc \/ (n <> "" /\ name d = n)).
  { unfold keep_name. destruct (name d =s "") eqn:E1; simpl; bools; [split; [done|naive_solver]|].
    destruct (contains acc (name d)) eqn:E2; simpl.
    - apply contains_spec in E2. split; [done|]. set_solver.
    - assert (name d ∉ acc) by (rewrite <- contains_spec, E2; done).
      split; [|set_solver]. apply NoDup_app. split_and!; [done|set_solver|apply NoDup_singleton]. }
  destruct Hk as [Hk1 Hk2]. destruct (IH _ Hk1) as [H1 H2]. split; [done|]. intros n.
  rewrite H2, Hk2. set_solver.
Qed.
Lemma malformed_ok names : malformed names = Ok tt <-> Forall valid_name names.
Proof.
  induction names as [|d ds IH]; simpl; [by split|]. rewrite Forall_cons, <- IH, <- domainProblem_ok.
  destruct (domainProblem d =s "") eqn:E; simpl; bools; naive_solver.
Qed.
Lemma cut_dot first parent :
  lacks 46 first = true -> cut 46 (first +:+ "." +:+ parent) = (first, Some parent).
Proof. intros Hl. by apply (cut_app 46 first parent). Qed.
Lemma cut_some s x p : cut 46 s = (x, Some p) -> lacks 46 x = true /\ s = x +:+ "." +:+ p.
Proof.
  revert x. induction s as [|c s IH]; intros x; simpl; [done|].
  destruct (byte_of c =? 46) eqn:Ec.
  - intros [= <- <-]. bools. change 46 with (byte_of (Ascii.ascii_of_N 46)) in Ec.
    by apply byte_of_inj in Ec as ->.
  - destruct (cut 46 s) as [y r]. intros [= <- ->]. destruct (IH y eq_refl) as [Hl ->].
    split; [|done]. unfold lacks in *. simpl. by rewrite Ec.
Qed.
Lemma wildcard_first first parent :
  lacks 46 first = true -> HasPrefix "*." (first +:+ "." +:+ parent) = true <-> first = "*".
Proof.
  intros Hl. unfold HasPrefix. split; [|by intros ->].
  destruct (strip_prefix _ _) as [r|] eqn:E; [|done]. intros _. apply strip_prefix_some in E.
  pose proof (cut_dot first parent Hl) as H1. rewrite E in H1.
  change ("*." +:+ r) with ("*" +:+ "." +:+ r) in H1. rewrite cut_dot in H1 by done. by injection H1.
Qed.
Lemma covered_none all d :
  covered all d = None <->
  forall first parent, lacks 46 first = true -> first <> "*" -> d = first +:+ "." +:+ parent ->
    "*." +:+ parent ∉ all.
Proof.
  unfold covered. split.
  - intros Hc first parent Hl Hf ->. rewrite cut_dot in Hc by done.
    destruct (HasPrefix _ _) eqn:Hp; [by apply wildcard_first in Hp|]. simpl in Hc.
    rewrite <- contains_spec. by destruct (contains all _).
  - intros Hc. destruct (cut 46 d) as [x [p|]] eqn:Ec; [|done]. apply cut_some in Ec as [Hl ->].
    destruct (HasPrefix _ _) eqn:Hp; [done|]. simpl. destruct (contains all _) eqn:E; [|done].
    apply contains_spec in E. exfalso. apply (Hc x p); [done| |done|done].
    intros ->. by rewrite (proj2 (wildcard_first "*" p eq_refl) eq_refl) in Hp.
Qed.
Lemma overlapping_ok all names :
  overlapping all names = Ok tt <->
  forall first parent, lacks 46 first = true -> first <> "*" -> first +:+ "." +:+ parent ∈ names ->
    "*." +:+ parent ∉ all.
Proof.
  induction names as [|d ds IH]; simpl.
  - split; [|done]. by intros _ first parent _ _ ?%elem_of_nil.
  - destruct (covered all d) as [p|] eqn:Ec.
    + split; [done|]. intros Hall. assert (covered all d = None) as [=]; [|congruence].
      apply covered_none. intros first parent Hl Hf ->. apply (Hall first); [done..|left].
    + rewrite IH. pose proof (proj1 (covered_none _ _) Ec) as Hd. split.
      * intros Hall first parent Hl Hf [He|Hin]%elem_of_cons; [by apply (Hd first)|by apply (Hall first)].
      * intros Hall first parent Hl Hf Hin. apply (Hall first); [done..|by right].
Qed.

(** *** Accepted names are in normal form *)
Definition name_byte (c : Ascii.ascii) : bool :=
  ldh c || (byte_of c =? 46) || (byte_of c =? 42).
Lemma name_byte_plain c :
  name_byte c = true -> is_ascii_byte c = true /\ space_byte c = false /\ lower_byte c = c.
Proof.
  unfold name_byte, ldh, is_ascii_byte, space_byte, lower_byte. generalize (byte_of c). intros b Hb.
  destruct ((65 <=? b) && (b <=? 90)) eqn:E1, (b <? 128) eqn:E2,
    (((9 <=? b) && (b <=? 13)) || (b =? 32)) eqn:E3; try done; exfalso; lia.
Qed.
Lemma trim_plain s : string_forallb (fun c => negb (space_byte c)) s = true -> trim_right (trim_left s) = s.
Proof.
  assert (Hr : forall t, string_forallb (fun c => negb (space_byte c)) t = true -> trim_right t = t).
  { induction t as [|c t IH]; [done|]. simpl. intros [Hc Ht]%andb_true_iff. bools.
    rewrite IH, Hc by done. by destruct t. }
  intros Hs. rewrite <- (Hr s Hs) at 2. f_equal. destruct s as [|c s]; [done|]. simpl in *.
  apply andb_true_iff in Hs as [Hc _]. bools. by rewrite Hc.
Qed.
Lemma string_map_id f s : string_forallb (fun c => bool_decide (f c = c)) s = true -> string_map f s = s.
Proof.
  induction s as [|c s IH]; [done|]. simpl. intros [Hc Hs]%andb_true_iff. bools. by rewrite Hc, IH.
Qed.
Lemma normal_plain `{GoRuntime} s : string_forallb name_byte s = true -> ToLower (TrimSpace s) = s.
Proof.
  intros Hs. assert (Ha : string_forallb is_ascii_byte s = true)
    by (eapply forallb_impl; [|exact Hs]; intros c Hc; by apply name_byte_plain).
  unfold TrimSpace. rewrite Ha, trim_plain; [unfold ToLower; rewrite Ha; apply string_map_id|];
    (eapply forallb_impl; [|exact Hs]); intros c Hc;
    apply name_byte_plain in Hc as (_ & H1 & H2); [by apply bool_decide_eq_true|by rewrite H1].
Qed.
Lemma utf8_valid_ascii s : string_forallb is_ascii_byte s = true -> utf8_valid s = true.
Proof.
  unfold utf8_valid. induction s as [|c s IH]; [done|]. simpl. intros [Hc Hs]%andb_true_iff.
  unfold is_ascii_byte in Hc. rewrite Hc. by apply IH.
Qed.
Lemma ends_with_app b x y : y <> "" -> ends_with b (x +:+ y) = ends_with b y.
Proof.
  intros Hy. induction x as [|c x IH]; [done|]. rewrite str_cons_app. simpl.
  destruct (x +:+ y) as [|d t] eqn:E; [|done]. destruct x; [by destruct y|done].
Qed.
Lemma dotted_plain ls :
  ls <> [] -> Forall valid_label ls ->
  string_forallb name_byte (dotted ls) = true /\ dotted ls <> "" /\ ends_with 46 (dotted ls) = false.
Proof.
  intros Hne Hl. induction Hl as [|l ls Hv Hls IH]; [done|].
  assert (Hb : string_forallb name_byte l = true).
  { destruct Hv as (_ & _ & _ & _ & Hc). eapply forallb_impl; [|exact Hc].
    intros c Hcc. unfold name_byte. by rewrite Hcc. }
  destruct ls as [|l2 ls].
  - split_and!; [done|by destruct Hv|]. by apply ends_with_lacks, valid_label_lacks.
  - destruct IH as (I1 & I2 & I3); [done|].
    change (dotted (l :: l2 :: ls)) with (l +:+ "." +:+ dotted (l2 :: ls)).
    rewrite !forallb_app, Hb, I1. split_and!; [done| |].
    + intros He. by destruct l.
    + rewrite ends_with_app by done. change ("." +:+ ?t) with ("." +:+ t). by rewrite ends_with_app.
Qed.
Lemma valid_name_plain d :
  valid_name d -> string_forallb name_byte d = true /\ d <> "" /\ ends_with 46 d = false.
Proof.
  intros (_ & ls & H2 & Hl & Hd). assert (Hne : ls <> []) by (intros ->; simpl in H2; lia).
  destruct (dotted_plain ls Hne Hl) as (H1 & H3 & H4). destruct Hd as [-> | ->]; [done|].
  rewrite forallb_app, H1, ends_with_app by done. done.
Qed.
Lemma distinct_names_id name l :
  NoDup l -> Forall (fun n => name n = n /\ n <> "") l -> distinct_names name l = l.
Proof.
  intros Hn Hl. unfold distinct_names. change l with ([] ++ l) in Hn. change l with ([] ++ l) at 2.
  generalize dependent ([] : list string). induction Hl as [|d l [Hd Hne] Hl IH]; intros acc Hn; simpl.
  - by rewrite app_nil_r.
  - assert (Hk : keep_name name acc d = acc ++ [d]).
    { unfold keep_name. rewrite Hd, (proj2 (str_eqb_neq _ _) Hne). simpl.
      destruct (contains acc d) eqn:E; [|done]. apply contains_spec in E.
      apply NoDup_app in Hn as (_ & Hx & _). exfalso. apply (Hx d E). left. }
    rewrite Hk, IH; rewrite <- app_assoc; done.
Qed.

Section order_props.
Context `{GoRuntime}.

Lemma validate_ok inp names :
  validateACMEDomains inp = Ok names <->
  names = distinct_names order_name inp /\ acceptable names.
Proof.
  unfold validateACMEDomains, acceptable. set (l := distinct_names order_name inp). split.
  - destruct (length l =? 0)%nat eqn:E0; [done|]. destruct (MaxDomains <? _) eqn:E1; [done|].
    destruct (malformed l) as [[]|] eqn:E2; [|done]. destruct (overlapping l l) as [[]|] eqn:E3; [|done].
    intros [= <-]. apply malformed_ok in E2. pose proof (proj1 (overlapping_ok _ _) E3).
    apply Nat.eqb_neq in E0. bools. split_and!; try done. by intros ->.
  - intros (-> & Hne & Hlen & Hv & Ho). apply malformed_ok in Hv. apply overlapping_ok in Ho.
    rewrite (proj2 (Nat.eqb_neq _ _)) by (by destruct l). rewrite (proj2 (Z.ltb_ge _ _)) by done.
    by rewrite Hv; simpl; rewrite Ho.
Qed.
(** Acceptance does not depend on the order of the names. *)
#[local] Instance acceptable_proper : Proper (Permutation ==> impl) acceptable.
Proof.
  intros a b Hp (Hne & Hlen & Hv & Ho). split_and!.
  - intros ->. by apply Permutation_nil_r in Hp.
  - by rewrite <- (Permutation_length Hp).
  - by rewrite <- Hp.
  - intros first parent. rewrite <- Hp. apply Ho.
Qed.

(** C36. The names of an order, decided: [validateACMEDomains] returns the
    distinct normalised names when they are host names or wildcards of two
    labels or more, at most 100, none covered by a wildcard beside it; and it
    refuses the order only when they are not. *)
Theorem validateACMEDomains_spec inp :
  let names_of l := NoDup l
    /\ forall n, n ∈ l <-> n <> "" /\ exists d, d ∈ inp /\ order_name d = n in
  match validateACMEDomains inp with
  | Ok names => names_of names /\ acceptable names
  | Err _ => forall names, names_of names -> ~ acceptable names
  end.
Proof.
  simpl. destruct (keep_names_spec order_name inp [] (NoDup_nil_2)) as [Hn He].
  assert (Hin : forall n, n ∈ distinct_names order_name inp
            <-> n <> "" /\ exists d, d ∈ inp /\ order_name d = n) by set_solver.
  destruct (validateACMEDomains inp) as [names|e] eqn:Hv.
  - apply validate_ok in Hv as [-> Ha]. done.
  - intros names [Hn' He'] Ha. assert (Hok : validateACMEDomains inp = Ok (distinct_names order_name inp)).
    { apply validate_ok. split; [done|]. rewrite <- (NoDup_Permutation names); [exact Ha|done..|]. intros n. by rewrite He', Hin. }
    congruence.
Qed.

(** Renewal orders the names that were accepted: an accepted list is its own
    normal form, under the checks of a new order and under those of a renewal,
    and comes back unchanged from the column of the certificate it is stored
    in. *)
Theorem accepted_names_stable inp names :
  validateACMEDomains inp = Ok names ->
  validateACMEDomains names = Ok names /\ normaliseDomains names = names
  /\ stored_sans (Some (marshal_strings (Some names))) = Some names.
Proof.
  intros [Hn Ha]%validate_ok.
  destruct (keep_names_spec order_name inp [] (NoDup_nil_2)) as [Hnd _].
  change (foldl (keep_name order_name) [] inp) with (distinct_names order_name inp) in Hnd.
  rewrite <- Hn in Hnd. assert (Hp : Forall (fun d => string_forallb name_byte d = true /\ d <> ""
                                     /\ ends_with 46 d = false) names)
    by (eapply Forall_impl; [apply Ha|apply valid_name_plain]).
  split_and!.
  - apply validate_ok. split; [|done]. symmetry. apply distinct_names_id; [done|].
    eapply Forall_impl; [exact Hp|]. intros d (H1 & H2 & H3). unfold order_name.
    by rewrite normal_plain, H3 by done.
  - apply distinct_names_id; [done|]. eapply Forall_impl; [exact Hp|]. intros d (H1 & H2 & _).
    by rewrite normal_plain.
  - unfold stored_sans. rewrite (proj2 (Z.ltb_lt _ _)).
    + apply strings_roundtrip. eapply Forall_impl; [exact Hp|]. intros d (H1 & _).
      apply utf8_valid_ascii. eapply forallb_impl; [|exact H1]. intros c Hc. by apply name_byte_plain.
    + unfold blen, marshal_strings, str_len. simpl. lia.
Qed.
End order_props.

Module DomainSample.
#[local] Existing Instance std_runtime.
Definition asked : list string := [" WWW.Example.org. "; "*.example.com"; "www.example.org"].
Lemma accepted_names_stable_witness :
  validateACMEDomains asked = Ok ["www.example.org"; "*.example.com"]
  /\ stored_sans (Some (marshal_strings (Some ["www.example.org"; "*.example.com"])))
     = Some ["www.example.org"; "*.example.com"].
Proof.
  assert (Hv : validateACMEDomains asked = Ok ["www.example.org"; "*.example.com"])
    by (vm_compute; reflexivity).
  split; [exact Hv|]. exact (proj2 (proj2 (accepted_names_stable asked _ Hv))).
Defined.
(** A name beside the wildcard that covers it is refused. *)
Example covered_refused :
  is_ok (validateACMEDomains ["www.example.org"; "*.example.org"]) = false
  /\ is_ok (validateACMEDomains ["example.org"; "*.example.org"]) = true.
Proof. split; vm_compute; reflexivity. Qed.
End DomainSample.
