(* ===== verification/Providers.v ===== *)
(** The registry of DNS providers: internal/acme/dns.go. *)

From S2P Require Import Prelude GoJson.

Record ProviderField := mkField {
  fd_Key : string; fd_Label : string; fd_Secret : bool; fd_Required : bool;
}.
Record ProviderInfo := mkProvider {
  pv_Name : string; pv_DisplayName : string; pv_Fields : list ProviderField; pv_Supported : bool;
}.

Definition FreyaDNS : string := "freya-dns".
Definition supported : list string := ["cloudflare"; "manual"; FreyaDNS].
Definition IsSupported (name : string) : bool := contains supported name.

Definition registry : list ProviderInfo := [
  mkProvider "cloudflare" "Cloudflare"
    [mkField "api_token" "API Token" true true;
     mkField "zone_id" "Zone ID (optional)" false false] false;
  mkProvider "route53" "Amazon Route 53"
    [mkField "access_key_id" "Access Key ID" false true;
     mkField "secret_access_key" "Secret Access Key" true true;
     mkField "region" "Region (optional)" false false;
     mkField "hosted_zone_id" "Hosted Zone ID (optional)" false false] false;
  mkProvider "gcloud" "Google Cloud DNS"
    [mkField "project" "Project ID" false true;
     mkField "service_account_key" "Service Account Key (JSON)" true true] false;
  mkProvider "digitalocean" "DigitalOcean" [mkField "auth_token" "API Token" true true] false;
  mkProvider "acmedns" "ACME-DNS"
    [mkField "server_url" "Server URL" false true;
     mkField "username" "Username" false true;
     mkField "password" "Password" true true;
     mkField "subdomain" "Subdomain" false true] false;
  mkProvider "powerdns" "PowerDNS"
    [mkField "api_url" "API URL" false true;
     mkField "api_key" "API Key" true true;
     mkField "server_name" "Server Name (optional)" false false] false;
  mkProvider "hurricane" "Hurricane Electric" [mkField "api_token" "API Token" true true] false;
  mkProvider "httpreq" "HTTP Request"
    [mkField "endpoint" "Endpoint URL" false true;
     mkField "username" "Username (optional)" false false;
     mkField "password" "Password (optional)" true false] false;
  mkProvider "easydns" "easyDNS"
    [mkField "token" "API Token" false true;
     mkField "key" "API Key" true true] false;
  mkProvider "manual" "Manual / Out-of-band" [] false;
  mkProvider FreyaDNS "Tangra DNS" [] false
].

(** The registry with its [Supported] column filled in. *)
Definition Providers : list ProviderInfo :=
  (fun p => mkProvider (pv_Name p) (pv_DisplayName p) (pv_Fields p) (IsSupported (pv_Name p)))
  <$> registry.
Definition SupportedProviders : list ProviderInfo := List.filter pv_Supported Providers.

(** The secret keys of every provider, each once. *)
Definition SecretFieldKeys : list string :=
  foldl (fun out f => if fd_Secret f && negb (contains out (fd_Key f)) then out ++ [fd_Key f] else out)
        [] (registry ≫= pv_Fields).

(** ** Constructing a provider *)
Definition MaxCredValueBytes : Z := 8192.
Definition acme_ErrProvider : err := Sentinel "acme" "ErrProvider".
Definition acme_ErrUnsupportedProvider : err := Sentinel "acme" "ErrUnsupportedProvider".

(** The provider an issuer orders through, with what it holds. *)
Inductive DNSProvider :=
| ManualProvider
| CloudflareProvider (token zoneID : string)
| FreyaProvider (tenantID : string).
Section construct.
Context `{GoRuntime}.
Definition NewCloudflare (creds : gmap string string) : res DNSProvider :=
  let token := TrimSpace (default "" (creds !! "api_token")) in
  if token =s "" then Err (Wrapf "cloudflare: api_token is required" acme_ErrProvider)
  else Ok (CloudflareProvider token (TrimSpace (default "" (creds !! "zone_id")))).
(** [freya]: whether the deployment has the DNS module's client. *)
Definition NewProviderWith (name : string) (creds : gmap string string) (freya : bool)
  (tenantID : string) : res DNSProvider :=
  if existsb (fun e => MaxCredValueBytes <? str_len e.2) (map_range creds)
  then Err acme_ErrProvider
  else if name =s "manual" then Ok ManualProvider
  else if name =s "cloudflare" then NewCloudflare creds
  else if name =s FreyaDNS then
    if negb freya || (tenantID =s "") then Err acme_ErrUnsupportedProvider
    else Ok (FreyaProvider tenantID)
  else Err acme_ErrUnsupportedProvider.
End construct.

(** Only providers the API offers can be built. *)
Lemma NewProviderWith_supported `{GoRuntime} name creds freya tenantID p :
  NewProviderWith name creds freya tenantID = Ok p -> IsSupported name = true.
Proof.
  unfold NewProviderWith. case_match; [done|]. unfold IsSupported. rewrite contains_spec.
  destruct (name =s "manual") eqn:E1; [bools; set_solver|].
  destruct (name =s "cloudflare") eqn:E2; [bools; set_solver|].
  destruct (name =s FreyaDNS) eqn:E3; [bools; set_solver|done].
Qed.
