(* ===== verification/Issuers.v ===== *)
(** Issuers: internal/issue/issuers.go. *)

From S2P Require Import Prelude Rows Memstore MemstoreInv MemstoreList Paging Authz GoJson GoUrl AuditLog.
From S2P Require Import Csr Sealed World Ca IssueBase Providers.

(** The settings redacted on every read. *)
Definition issuerSecretFields : list string :=
  ["acme_account_key"; "dns_credential"; "eab_hmac_key"] ++ SecretFieldKeys.
#[global] Arguments issuerSecretFields : simpl never.

Record IssuerInput := mkIssuerInput {
  ii_Name : string; ii_Type : string; ii_TrustDomain : string; ii_IsDefault : bool;
  ii_Enabled : bool; ii_ACMEDirectoryURL : string; ii_ACMEEmail : string; ii_DNSProvider : string;
  ii_Settings : Settings;
}.
#[export] Instance issuer_input_eta : RecordEta IssuerInput := fun r =>
  mkIssuerInput (ii_Name r) (ii_Type r) (ii_TrustDomain r) (ii_IsDefault r) (ii_Enabled r)
    (ii_ACMEDirectoryURL r) (ii_ACMEEmail r) (ii_DNSProvider r) (ii_Settings r).

Record IssuerView := mkIssuerView {
  iv_ID : string; iv_Name : string; iv_Type : string; iv_TrustDomain : string; iv_IsDefault : bool;
  iv_CAID : string; iv_ACMEDirectoryURL : string; iv_ACMEEmail : string; iv_DNSProvider : string;
  iv_Settings : Settings; iv_Enabled : bool; iv_CertificateCount : Z; iv_CreatedBy : string;
  iv_UpdatedBy : string; iv_CreatedAt : Z; iv_UpdatedAt : Z; iv_Permissions : Permissions;
}.

Definition issuer_validate (inp : IssuerInput) : res unit :=
  let l := str_len (ii_Name inp) in
  if (l <? 1) || (100 <? l) then Err (invalid "name" "name must be 1-100 characters")
  else if (ii_Type inp <>s "self_signed") && (ii_Type inp <>s "acme")
  then Err (invalid "type" "type must be self_signed or acme")
  else if (ii_TrustDomain inp =s AnyTrustDomain) && (ii_Type inp <>s "acme")
  then Err (invalid "trust_domain" "* (any trust domain) is allowed for ACME issuers only")
  else if negb (ValidIssuerTrustDomain (ii_Type inp) (ii_TrustDomain inp))
  then Err (invalid "trust_domain" "trust domain is not a valid host")
  else if (ii_Type inp =s "acme") && (ii_DNSProvider inp <>s "")
          && negb (IsSupported (ii_DNSProvider inp))
  then Err (invalid "dns_provider" ("DNS provider " +:+ ii_DNSProvider inp +:+ " is not supported"))
  else Ok tt.

(** The redacted settings of a row; unreadable ones are empty. *)
Definition redacted (row : Issuer) : Settings :=
  match sealed_Decode (iss_SettingsPublic row) with Ok s => s | Err _ => ∅ end.

Definition issuerView (row : Issuer) (p : Permissions) : IssuerView :=
  {| iv_ID := iss_ID row; iv_Name := iss_Name row; iv_Type := iss_Type row;
     iv_TrustDomain := iss_TrustDomain row; iv_IsDefault := iss_IsDefault row;
     iv_CAID := strp (iss_CAID row); iv_ACMEDirectoryURL := iss_ACMEDirectoryURL row;
     iv_ACMEEmail := iss_ACMEEmail row; iv_DNSProvider := iss_DNSProvider row;
     iv_Settings := redacted row; iv_Enabled := iss_Enabled row;
     iv_CertificateCount := iss_CertificateCount row; iv_CreatedBy := strp (iss_CreatedBy row);
     iv_UpdatedBy := strp (iss_UpdatedBy row); iv_CreatedAt := iss_CreatedAt row;
     iv_UpdatedAt := iss_UpdatedAt row; iv_Permissions := p |}.

Section issuers.
Context `{Env}.

(** The sealed settings and their redacted projection. *)
Definition issuer_seal (id : string) (s : Settings) : M (string * string) :=
  match sealed_Encode s with
  | Err _ => st_err (invalid "settings" "settings exceed 8 KiB")
  | Ok clear =>
    let* blob := Seal clear (ADIssuer id) in
    let* public := st_lift (sealed_Encode (Redact s issuerSecretFields)) in
    st_ret (blob, public)
  end.

(** The settings with an account key, generated when there is none. *)
Definition ensureACMEAccountKey (s : Settings) : M Settings :=
  if match s !! "acme_account_key" with Some v => as_string v <>s "" | None => false end
  then st_ret s
  else
    let* (key, _) := drawing generate_key in
    let* der := st_lift (marshal_key key) in
    st_ret (<["acme_account_key" := AStr (pem_encode "PRIVATE KEY" der)]> s).

Definition GetIssuer (now : Z) (subj : Subjects) (id : string) : M IssuerView :=
  let* _ := az_Check now subj IssuerType id Read in
  let* row := reading (Mem_GetIssuer (sub_TenantID subj) id) in
  let* (perms, _, _) := az_Effective now subj IssuerType id in
  st_ret (issuerView row perms).

(** [if errors.Is(err, store.ErrConflict) { return invalid("name", ..) }]. *)
Definition name_conflict {A} (c : M A) : M A :=
  let* r := st_try c in
  match r with
  | Ok a => st_ret a
  | Err e => if is_conflict e then st_err (invalid "name" "an issuer with this name already exists")
             else st_err e
  end.

Definition issuer_row (subj : Subjects) (inp : IssuerInput) (id blob public : string)
  (caID : option string) : Issuer :=
  {| iss_ID := id; iss_TenantID := sub_TenantID subj; iss_Name := ii_Name inp;
     iss_Type := ii_Type inp; iss_TrustDomain := ii_TrustDomain inp;
     iss_IsDefault := ii_IsDefault inp; iss_CAID := caID;
     iss_ACMEDirectoryURL := ii_ACMEDirectoryURL inp; iss_ACMEEmail := ii_ACMEEmail inp;
     iss_DNSProvider := ii_DNSProvider inp; iss_SettingsPublic := Some public;
     iss_SettingsSealed := Some blob; iss_Enabled := ii_Enabled inp; iss_CreatedBy := userPtr subj;
     iss_UpdatedBy := userPtr subj; iss_CreatedAt := 0; iss_UpdatedAt := 0;
     iss_CertificateCount := 0 |}.

Definition CreateIssuer (now : Z) (subj : Subjects) (inp : IssuerInput) : M IssuerView :=
  let* _ := st_lift (issuer_validate inp) in
  let* settings := (if ii_Type inp =s "acme" then ensureACMEAccountKey (ii_Settings inp)
                    else st_ret (ii_Settings inp)) in
  let* id := newID in
  let* (blob, public) := issuer_seal id settings in
  let* caID := (if ii_Type inp =s "self_signed"
                then let* caRow := EnsureCA now (sub_TenantID subj) (ii_TrustDomain inp) in
                     st_ret (Some (ca_ID caRow))
                else st_ret None) in
  let row := issuer_row subj inp id blob public caID in
  let* _ := Atomic (
    let* _ := (if ii_IsDefault inp
               then writing (Mem_ClearDefaultIssuer (sub_TenantID subj) (ii_TrustDomain inp) id)
               else st_ret tt) in
    let* _ := name_conflict (writing (Mem_InsertIssuer row)) in
    az_GrantOwner (sub_TenantID subj) IssuerType id (sub_UserID subj)) in
  let* _ := emit (service_event subj "issuer_created" "issuer" id "ok"
                    [("name", AStr (ii_Name inp)); ("type", AStr (ii_Type inp));
                     ("trust_domain", AStr (ii_TrustDomain inp));
                     ("is_default", ABool (ii_IsDefault inp))]) in
  GetIssuer now subj id.

(** The view of a listed row, if the caller may read it. *)
Definition issuer_project (now : Z) (subj : Subjects) (ids : gset string) (all : bool) (m : Mem)
  (row : Issuer) : res (option IssuerView) :=
  if negb all && negb (bool_decide (iss_ID row ∈ ids)) then Ok None
  else
    let? (perms, _, _) := authz_Effective now subj IssuerType (iss_ID row) m in
    Ok (Some (issuerView row perms)).
Definition last_or {A} (f : A -> string) (l : list A) : string :=
  match list.last l with Some x => f x | None => "" end.
Definition ListIssuers (now : Z) (subj : Subjects) (after : string) (limit : Z)
  : M (list IssuerView * string) :=
  reading (fun m =>
    let? (ids, all) := authz_ListAccessibleIDs now subj IssuerType m in
    let limit := if (limit <=? 0) || (100 <? limit) then 50 else limit in
    let? out := page_loop (fun after => Mem_ListIssuers (sub_TenantID subj) after limit m) iss_Name
                  (issuer_project now subj ids all m) limit (S (size (m_Issuers m))) [] after in
    Ok (out, if Z.of_nat (length out) =? limit then last_or iv_Name out else "")).

(** The stored settings, empty when they cannot be opened or read. *)
Definition opened_settings (row : Issuer) (id : string) : Settings :=
  if 0 <? blen (iss_SettingsSealed row) then
    match Open (iss_SettingsSealed row) (ADIssuer id) with
    | Ok clear => match sealed_Decode (Some clear) with Ok s => s | Err _ => ∅ end
    | Err _ => ∅
    end
  else ∅.

Definition UpdateIssuer (now : Z) (subj : Subjects) (id : string) (inp : IssuerInput)
  : M IssuerView :=
  let* _ := az_Check now subj IssuerType id Write in
  let* row := reading (Mem_GetIssuer (sub_TenantID subj) id) in
  if (ii_Type inp <>s "") && (ii_Type inp <>s iss_Type row)
  then st_err (invalid "type" "the issuer type cannot change")
  else
    let inp := inp <| ii_Type := iss_Type row |> <| ii_TrustDomain := iss_TrustDomain row |> in
    let* _ := st_lift (issuer_validate inp) in
    let merged := Merge (opened_settings row id) (ii_Settings inp) issuerSecretFields in
    let* (blob, public) := issuer_seal id merged in
    let wasDefault := iss_IsDefault row in
    let row := row <| iss_Name := ii_Name inp |> <| iss_IsDefault := ii_IsDefault inp |>
                   <| iss_Enabled := ii_Enabled inp |>
                   <| iss_ACMEDirectoryURL := ii_ACMEDirectoryURL inp |>
                   <| iss_ACMEEmail := ii_ACMEEmail inp |> <| iss_DNSProvider := ii_DNSProvider inp |>
                   <| iss_SettingsSealed := Some blob |> <| iss_SettingsPublic := Some public |>
                   <| iss_UpdatedBy := userPtr subj |> in
    let* _ := Atomic (
      let* _ := (if ii_IsDefault inp && negb wasDefault
                 then writing (Mem_ClearDefaultIssuer (sub_TenantID subj) (iss_TrustDomain row) id)
                 else st_ret tt) in
      name_conflict (writing (Mem_UpdateIssuer row))) in
    let* _ := emit (service_event subj "issuer_updated" "issuer" id "ok"
                      [("name", AStr (ii_Name inp)); ("is_default", ABool (ii_IsDefault inp));
                       ("enabled", ABool (ii_Enabled inp))]) in
    GetIssuer now subj id.

Definition DeleteIssuer (now : Z) (subj : Subjects) (id : string) : M unit :=
  let* _ := az_Check now subj IssuerType id Delete in
  let* row := reading (Mem_GetIssuer (sub_TenantID subj) id) in
  if 0 <? iss_CertificateCount row
  then st_err (InUseError "certificates" (iss_CertificateCount row))
  else
    let* _ := Atomic (
      let* r := st_try (writing (Mem_DeleteIssuer (sub_TenantID subj) id)) in
      match r with
      | Err e => if is_conflict e then st_err (InUseError "certificates" 1) else st_err e
      | Ok _ => az_DropResource (sub_TenantID subj) IssuerType id
      end) in
    emit (service_event subj "issuer_deleted" "issuer" id "ok" [("name", AStr (iss_Name row))]).
End issuers.

(** ** What the operations leave behind *)
Section issuer_lemmas.
Context `{Env}.

Definition kept_issuer (now : Z) (i : Issuer) : Issuer :=
  let i := i <| iss_CreatedAt := now |> <| iss_UpdatedAt := now |> in
  cpIssuer (match iss_SettingsPublic i with
            | None => i <| iss_SettingsPublic := Some "{}" |>
            | Some _ => i
            end).
Lemma InsertIssuer_ok i m m' u :
  Mem_InsertIssuer i m = (Ok u, m') ->
  m' = m <| m_Issuers := <[iss_ID i := kept_issuer (m_Now m) i]> (m_Issuers m) |>
  /\ ca_reference_ok m i = true
  /\ (forall k x, m_Issuers m !! k = Some x -> issuer_clash i x = false).
Proof.
  unfold Mem_InsertIssuer, fail_write. case_match; [done|].
  destruct (ca_reference_ok m i) eqn:Hr; [simpl|done]. destruct (existsb _ _) eqn:Hn; [done|].
  rewrite existsb_range_false in Hn. intros [= _ <-]. split_and!; [|done|done].
  unfold kept_issuer. simpl. by destruct (iss_SettingsPublic i) eqn:E; simpl; rewrite ?E.
Qed.

Lemma name_conflict_ok {A} (c : M A) w w' a : name_conflict c w = (Ok a, w') -> c w = (Ok a, w').
Proof.
  unfold name_conflict. intros Hr. apply st_bind_ok in Hr as (r & w1 & Ht & Hr).
  apply (proj1 (st_try_ok _ _ _ _)) in Ht. destruct r as [x|e]; [|by case_match].
  by apply st_ret_ok in Hr as [-> ->].
Qed.
Lemma GetIssuer_ok now subj id w v w' :
  GetIssuer now subj id w = (Ok v, w') ->
  w' = w /\ exists row perms, Mem_GetIssuer (sub_TenantID subj) id (wd_mem w) = Ok row
    /\ v = issuerView row perms /\ (forall a, Has perms a = true <->
          permitted now subj IssuerType id a (wd_mem w)).
Proof.
  unfold GetIssuer. intros Hr. apply st_bind_ok in Hr as (u & w1 & Hc & Hr).
  apply reading_ok in Hc as [_ ->]. apply st_bind_ok in Hr as (row & w1 & Hg & Hr).
  apply reading_ok in Hg as [Hg ->]. apply st_bind_ok in Hr as ([[perms rel] src] & w1 & He & Hr).
  apply reading_ok in He as [He ->]. apply st_ret_ok in Hr as [-> ->]. split; [done|].
  exists row, perms. split_and!; [done..|]. intros a. unfold authz_Effective in He.
  case_match; [done|]. by eapply resolve_permitted.
Qed.

Lemma issuer_seal_ok id s w blob public w' :
  issuer_seal id s w = (Ok (blob, public), w') ->
  wd_mem w' = wd_mem w /\ wd_events w' = wd_events w
  /\ sealed_Encode (Redact s issuerSecretFields) = Ok public
  /\ exists clear w1, sealed_Encode s = Ok clear /\ Seal clear (ADIssuer id) w = (Ok blob, w1).
Proof.
  unfold issuer_seal. destruct (sealed_Encode s) as [clear|] eqn:Es; [|done]. intros Hr.
  apply st_bind_ok in Hr as (b & w1 & Hs & Hr). apply st_bind_ok in Hr as (p & w2 & Hp & Hr).
  apply st_lift_ok in Hp as [Hp ->]. apply st_ret_ok in Hr as [[= -> ->] ->].
  pose proof (Seal_frame _ _ _ _ _ Hs) as [? ?]. eauto 10.
Qed.
Lemma ensureACMEAccountKey_frame s w r w' :
  ensureACMEAccountKey s w = (r, w') -> wd_mem w' = wd_mem w /\ wd_events w' = wd_events w
    /\ wd_ids w' = wd_ids w.
Proof.
  unfold ensureACMEAccountKey. case_match; [by intros [= _ <-]|].
  unfold st_bind, drawing, st_lift, st_ret. intros Hr. invert_run Hr; done.
Qed.
(** The CA an issuer of this type signs with. *)
Lemma issuer_ca_ok now subj inp w caID w' :
  keyed ca_ID (m_CAs (wd_mem w)) ->
  (if ii_Type inp =s "self_signed"
   then let* caRow := EnsureCA now (sub_TenantID subj) (ii_TrustDomain inp) in
        st_ret (Some (ca_ID caRow))
   else st_ret None) w = (Ok caID, w') ->
  m_Issuers (wd_mem w') = m_Issuers (wd_mem w) /\ wd_events w' = wd_events w
  /\ (ii_Type inp = "self_signed" -> exists id ca, caID = Some id
        /\ m_CAs (wd_mem w') !! id = Some ca
        /\ ca_active_in (sub_TenantID subj) (ii_TrustDomain inp) ca = true).
Proof.
  intros Hk. destruct (ii_Type inp =s "self_signed") eqn:Et; bools; intros Hr.
  - apply st_bind_ok in Hr as (c & w1 & Hc & Hr). apply st_ret_ok in Hr as [-> ->].
    apply EnsureCA_store in Hc as (? & ? & x & ? & ?); [|done]. eauto 10.
  - by apply st_ret_ok in Hr as [-> ->].
Qed.

(** The transaction of [CreateIssuer]. *)
Lemma create_tx_ok subj inp (row : Issuer) w w' u :
  Atomic (
    let* _ := (if ii_IsDefault inp
               then writing (Mem_ClearDefaultIssuer (sub_TenantID subj) (ii_TrustDomain inp) (iss_ID row))
               else st_ret tt) in
    let* _ := name_conflict (writing (Mem_InsertIssuer row)) in
    az_GrantOwner (sub_TenantID subj) IssuerType (iss_ID row) (sub_UserID subj)) w = (Ok u, w') ->
  wd_events w' = wd_events w /\ m_CAs (wd_mem w') = m_CAs (wd_mem w)
  /\ exists t, m_Issuers (wd_mem w') = <[iss_ID row := t]> (m_Issuers (wd_mem w'))
       /\ m_Issuers (wd_mem w') !! iss_ID row = Some t
       /\ (exists n, t = kept_issuer n row)
       /\ (forall k x, k <> iss_ID row -> m_Issuers (wd_mem w') !! k = Some x ->
            issuer_clash row x = false).
Proof.
  intros Hr%Atomic_ok. apply st_bind_ok in Hr as ([] & w1 & Hd & Hr).
  assert (H1 : wd_events w1 = wd_events w /\ m_CAs (wd_mem w1) = m_CAs (wd_mem w)).
  { destruct (ii_IsDefault inp); [|by apply st_ret_ok in Hd as [_ ->]].
    apply writing_ok in Hd as (m & Hd & ->). unfold Mem_ClearDefaultIssuer, fail_write in Hd.
    case_match; [done|]. by injection Hd as <-. }
  apply st_bind_ok in Hr as ([] & w2 & Hi%name_conflict_ok & Hr).
  apply writing_ok in Hi as (m & Hi & ->). apply InsertIssuer_ok in Hi as (-> & _ & Hn).
  apply az_GrantOwner_ok in Hr as (Hg & He & _). simpl in *. rewrite Hg, He. simpl.
  destruct H1 as [-> ->]. split_and!; [done..|]. eexists. split_and!.
  - by rewrite insert_insert_eq.
  - by rewrite lookup_insert_eq.
  - eauto.
  - intros k x Hk. rewrite lookup_insert_ne by done. apply Hn.
Qed.
End issuer_lemmas.

Section issuer_props.
Context `{Env}.

(** A created issuer is stored under its own sealed settings: what clients
    can read of them is the redacted projection, in which no credential appears,
    and the sealed blob opens to the settings themselves.  A self-signed issuer
    signs with the active CA of its trust domain, a default issuer is the only
    default of its trust domain, and one audit event names it. *)
Theorem CreateIssuer_stores `{!EnvLaws} now subj inp w v w' :
  keyed ca_ID (m_CAs (wd_mem w)) -> CreateIssuer now subj inp w = (Ok v, w') ->
  exists row settings clear public,
    m_Issuers (wd_mem w') !! iv_ID v = Some row
    /\ iss_TenantID row = sub_TenantID subj /\ iss_Name row = ii_Name inp
    /\ iss_Type row = ii_Type inp /\ iss_TrustDomain row = ii_TrustDomain inp
    /\ issuer_validate inp = Ok tt
    /\ sealed_Encode settings = Ok clear
    /\ Open (iss_SettingsSealed row) (ADIssuer (iv_ID v)) = Ok clear
    /\ sealed_Encode (Redact settings issuerSecretFields) = Ok public
    /\ default "" (iss_SettingsPublic row) = public
    /\ (forall f, f ∈ issuerSecretFields ->
          Redact settings issuerSecretFields !! f = None
          \/ Redact settings issuerSecretFields !! f = Some (AStr Marker))
    /\ (ii_Type inp = "self_signed" -> exists caid ca, iss_CAID row = Some caid
          /\ m_CAs (wd_mem w') !! caid = Some ca
          /\ ca_active_in (sub_TenantID subj) (ii_TrustDomain inp) ca = true)
    /\ (ii_IsDefault inp = true -> forall k x, k <> iv_ID v -> m_Issuers (wd_mem w') !! k = Some x ->
          iss_TenantID x = sub_TenantID subj -> iss_TrustDomain x = ii_TrustDomain inp ->
          iss_IsDefault x = false)
    /\ exists ev, wd_events w' = wd_events w ++ [ev] /\ ev_EventType ev = "issuer_created"
         /\ ev_SubjectID ev = iv_ID v.
Proof.
  intros Hk Hr. unfold CreateIssuer in Hr. apply st_bind_ok in Hr as ([] & w0 & Hv & Hr).
  apply st_lift_ok in Hv as [Hv ->]. apply st_bind_ok in Hr as (settings & w1 & Hset & Hr).
  assert (H1 : wd_mem w1 = wd_mem w /\ wd_events w1 = wd_events w).
  { destruct (ii_Type inp =s "acme"); [by apply ensureACMEAccountKey_frame in Hset as (? & ? & _)|].
    by apply st_ret_ok in Hset as [_ ->]. }
  apply st_bind_ok in Hr as (id & w2 & [= <- <-] & Hr).
  apply st_bind_ok in Hr as ([blob public] & w3 & Hseal & Hr).
  apply issuer_seal_ok in Hseal as (Hm3 & He3 & Hpub & clear & w4 & Hclear & Hs%Seal_opens).
  apply st_bind_ok in Hr as (caID & w5 & Hca & Hr). simpl in Hm3, He3.
  apply issuer_ca_ok in Hca as (Hm5 & He5 & Hca); [|by rewrite Hm3, (proj1 H1)].
  apply st_bind_ok in Hr as ([] & w6 & Htx & Hr).
  apply (create_tx_ok subj inp (issuer_row subj inp (new_id (wd_ids w1)) blob public caID)) in Htx
    as (He6 & Hc6 & t & _ & Ht & [n ->] & Hn).
  apply st_bind_ok in Hr as ([] & w7 & Hev & Hr). apply emit_ok in Hev.
  assert (Hev7 : wd_mem w7 = wd_mem w6 /\ exists ev, wd_events w7 = wd_events w6 ++ [ev]
            /\ ev_EventType ev = "issuer_created" /\ ev_SubjectID ev = new_id (wd_ids w1))
    by (rewrite Hev; split; [done|by eexists]).
  clear Hev. destruct Hev7 as [Hm7 Hev7]. apply GetIssuer_ok in Hr as (-> & row & perms & Hget & Hvw & _).
  apply Mem_GetIssuer_ok in Hget as (x & Hx & _ & Hrow). rewrite Hm7 in Hx |- *.
  simpl iss_ID in Ht. rewrite Ht in Hx. apply (inj Some) in Hx as <-.
  assert (Hvid : iv_ID v = new_id (wd_ids w1)) by (by rewrite Hvw, Hrow).
  rewrite Hvid. clear Hvw Hrow. exists (kept_issuer n (issuer_row subj inp (new_id (wd_ids w1)) blob public caID)),
    settings, clear, public.
  split_and!; try done.
  - rewrite <- Hs. unfold Open. simpl. by destruct (blob =s "") eqn:E; bools; subst.
  - simpl. by destruct (public =s "") eqn:E; bools; subst.
  - intros f Hf. rewrite Redact_lookup, bool_decide_eq_true_2 by done. unfold redacted_value.
    repeat case_match; auto.
  - intros Hty. destruct (Hca Hty) as (cid & ca & -> & Hcx & Hact). rewrite Hc6. exists cid, ca. done.
  - intros Hd k y Hky Hy Hty Htd. specialize (Hn k y Hky Hy). unfold issuer_clash in Hn.
    simpl in Hn. rewrite Hty, Htd, Hd, !str_eqb_refl in Hn. simpl in Hn.
    apply orb_false_iff in Hn as [_ Hn]. by rewrite andb_true_r in Hn.
  - destruct Hev7 as (ev & He7 & ? & ?). exists ev. by rewrite He7, He6, He5, He3, (proj2 H1).
Qed.

(** The count of an issuer's certificates is positive exactly when one refers to it. *)
Lemma certCount_zero m id :
  certCountForIssuer m id <= 0 -> forall k c, m_Certificates m !! k = Some c -> crt_IssuerID c <> id.
Proof.
  unfold certCountForIssuer. intros Hc k c Hk He.
  assert (Hin : (k, c) ∈ filter (fun x : string * IssuedCertificate => crt_IssuerID x.2 = id)
                          (map_range (m_Certificates m)))
    by (apply list_elem_of_filter; by rewrite elem_of_map_range).
  destruct (filter _ _); [by apply elem_of_nil in Hin|simpl in Hc; lia].
Qed.

(** Deleting an issuer, decided: it succeeds only when the caller may delete
    it and no certificate refers to it, and then it is gone with every grant on
    it, nothing else of the issuers and certificates changes, and an audit event
    says so; while certificates refer to it the deletion is refused with their
    number; a refusal changes nothing. *)
Theorem DeleteIssuer_guarded now subj id w :
  wf (wd_mem w) -> m_Fail (wd_mem w) = ∅ ->
  match DeleteIssuer now subj id w with
  | (Ok _, w') =>
      permitted now subj IssuerType id Delete (wd_mem w)
      /\ (forall k c, m_Certificates (wd_mem w) !! k = Some c -> crt_IssuerID c <> id)
      /\ m_Issuers (wd_mem w') = delete id (m_Issuers (wd_mem w))
      /\ m_Certificates (wd_mem w') = m_Certificates (wd_mem w)
      /\ (forall g, mem_held (wd_mem w') g <->
            mem_held (wd_mem w) g /\ grant_on (sub_TenantID subj) IssuerType id g = false)
      /\ exists ev, wd_events w' = wd_events w ++ [ev] /\ ev_EventType ev = "issuer_deleted"
           /\ ev_SubjectID ev = id
  | (Err (InUseError _ n), w') => w' = w /\ n = certCountForIssuer (wd_mem w) id /\ 0 < n
  | (Err _, w') => w' = w
  end.
Proof.
  intros Hwf Hf. unfold DeleteIssuer. unfold st_bind at 1.
  destruct (az_Check now subj IssuerType id Delete w) as [[[]|e] w0] eqn:Hc;
    [|apply az_Check_err in Hc as (-> & pkg & n & ->); [exact eq_refl|exact Hf]].
  apply az_Check_ok in Hc as [-> Hp]. unfold st_bind at 1, reading.
  destruct (Mem_GetIssuer (sub_TenantID subj) id (wd_mem w)) as [row|e] eqn:Hg.
  2:{ unfold Mem_GetIssuer, fail_read in Hg. rewrite Hf, lookup_empty in Hg.
      repeat case_match; simplify_eq/=; done. }
  apply Mem_GetIssuer_ok in Hg as (x & Hx & Ht & Hrow).
  assert (Hcnt : iss_CertificateCount row = certCountForIssuer (wd_mem w) id) by (by rewrite Hrow).
  rewrite Hcnt. clear Hrow Hcnt.
  destruct (0 <? certCountForIssuer (wd_mem w) id) eqn:Hn; bools; [done|].
  unfold Atomic, st_bind, st_try, writing, az_DropResource. rewrite Hf, lookup_empty.
  unfold Mem_DeleteIssuer, fail_write. rewrite Hf, lookup_empty, Hx, Ht, str_eqb_refl. simpl.
  rewrite (proj2 (Z.ltb_ge _ _) Hn). simpl.
  unfold authz_DropResource, as_DeleteGrantsOfResource, mem_authz, writing. simpl.
  destruct (Mem_DeleteGrantsOfResource _ _ _ _) as [r m1] eqn:Hd.
  pose proof Hd as Hd'. unfold Mem_DeleteGrantsOfResource, fail_write in Hd'. simpl in Hd'.
  rewrite Hf, lookup_empty in Hd'. injection Hd' as <- Hm1.
  apply mem_drop_spec in Hd as [_ Hd]; [|split; [apply (wf_grants _ Hwf)|apply (wf_grant_key _ Hwf)]].
  simpl. split_and!; [done|by apply certCount_zero|by rewrite <- Hm1..| |].
  - intros g. rewrite Hd. done.
  - eexists. split; [reflexivity|done].
Qed.
End issuer_props.

(** ** Witnesses: an administrator creates an ACME issuer and deletes it *)
Module IssuerSample.
Import Toy IssueSample.
#[local] Existing Instance toy_env.
Definition le_input : IssuerInput :=
  mkIssuerInput "Let's Encrypt" "acme" "*" false true "https://acme.example/dir" "ops@example.org"
    "cloudflare" (<["api_token" := AStr "tok"]> (<["zone_id" := AStr "z1"]> ∅)).
Definition no_view : IssuerView := issuerView sample_issuer no_permissions.
Definition run {A} (d : A) (c : M A) (w : World) : A * World :=
  match c w with (Ok a, w') => (a, w') | (Err _, w') => (d, w') end.
Definition created : IssuerView * World := run no_view (CreateIssuer 10 admin le_input) ready.
Lemma created_run : CreateIssuer 10 admin le_input ready = (Ok created.1, created.2).
Proof. vm_compute. reflexivity. Qed.
Lemma CreateIssuer_stores_witness :
  iv_Settings created.1 !! "api_token" = Some (AStr Marker)
  /\ exists row, m_Issuers (wd_mem created.2) !! iv_ID created.1 = Some row
       /\ iss_Name row = "Let's Encrypt".
Proof.
  split; [vm_compute; reflexivity|].
  destruct (CreateIssuer_stores (H0 := toy_env_laws) 10 admin le_input ready created.1 created.2
              (wf_cas _ (proj1 ready_wf)) created_run) as (row & _ & _ & _ & Hr & _ & Hn & _).
  exists row. split; [exact Hr|exact Hn].
Defined.
Definition deleted : World := (DeleteIssuer 10 admin "i1" ready).2.
Lemma DeleteIssuer_guarded_witness :
  m_Issuers (wd_mem deleted) = delete "i1" (m_Issuers (wd_mem ready))
  /\ size (m_Issuers (wd_mem ready)) = 1%nat.
Proof.
  split; [|vm_compute; reflexivity].
  pose proof (DeleteIssuer_guarded 10 admin "i1" ready (proj1 ready_wf) (proj2 ready_wf)) as Hd.
  assert (Hr : DeleteIssuer 10 admin "i1" ready = (Ok tt, deleted)) by (vm_compute; reflexivity).
  rewrite Hr in Hd. destruct Hd as (_ & _ & Hi & _). exact Hi.
Defined.
(** A disabled issuer still signs: issuance never consults the flag. *)
Example disabled_issuer_signs :
  is_ok (Issue 10 admin web_request
           (writing (Mem_UpdateIssuer (corp_issuer <| iss_Enabled := false |>)) ready).2).1 = true.
Proof. vm_compute. reflexivity. Qed.
End IssuerSample.
