(* ===== verification/Acme.v ===== *)
(** Certificates obtained through ACME: internal/issue/acme.go, acmerequests.go
    and importcert.go.

    The order itself (internal/acme, over golang.org/x/crypto/acme) is a call to a
    server: the class [AcmeServer] answers it, and the answer may differ from
    call to call.  The flow of AcmeFlow.v is an instance of it. *)

From S2P Require Import Prelude Rows Memstore MemstoreInv MemstoreList Paging Authz GoJson GoUrl AuditLog.
From S2P Require Import Csr Sealed World Ca IssueBase Domains Providers Issuers.

(** [acme.Config], as the service fills it in. *)
Record AcmeConfig := mkAcmeConfig {
  ac_DirectoryURL : string; ac_AccountEmail : string; ac_AccountKey : string;
  ac_DNS : DNSProvider; ac_AllowInsecure : bool; ac_EABKeyID : string; ac_EABHMACKey : bytes;
}.

(** What the order runs against, and the parts of package net and encoding/base64
    it is configured with. *)
Class AcmeServer := {
  acme_register : nat -> AcmeConfig -> res unit;                          (* client.Register *)
  acme_obtain : nat -> AcmeConfig -> string -> list string -> res string; (* client.Obtain *)
  freya_client : bool;                          (* s.freyaDNS is wired *)
  split_host_port : string -> option string;    (* the host of net.SplitHostPort *)
  is_loopback_ip : string -> bool;              (* net.ParseIP(h).IsLoopback() *)
  base64_decode : bool -> bool -> string -> option string;  (* URL alphabet, padding *)
  error_text : err -> string;                   (* err.Error() *)
  unicode_fields : string -> list string;       (* strings.Fields on text that is not ASCII *)
}.

(** ** Failure reasons *)

(** [strings.ReplaceAll(s, "\n", "; ")]. *)
Fixpoint lines_joined (s : string) : string :=
  match s with
  | EmptyString => EmptyString
  | String c s' => if byte_of c =? 10 then "; " +:+ lines_joined s' else String c (lines_joined s')
  end.
(** [strings.Fields] on ASCII text; [word] is the field being read. *)
Fixpoint fields_from (word : string) (s : string) : list string :=
  match s with
  | EmptyString => if word =s "" then [] else [word]
  | String c s' =>
    if space_byte c then (if word =s "" then [] else [word]) ++ fields_from "" s'
    else fields_from (word +:+ str1 c) s'
  end.
(** [len([]rune(s))] and [string([]rune(s)[:n])]: a byte that is not the start of
    an encoding counts as one rune, and becomes U+FFFD. *)
Fixpoint rune_count (skip : nat) (s : string) : nat :=
  match s with
  | EmptyString => 0
  | String _ s' => match skip with
                   | S k => rune_count k s'
                   | O => S (rune_count (pred (utf8_size s)) s')
                   end
  end.
Fixpoint rune_prefix (n skip : nat) (s : string) : string :=
  match s with
  | EmptyString => EmptyString
  | String c s' =>
    match skip with
    | S k => String c (rune_prefix n k s')
    | O => match n with
           | O => EmptyString
           | S n' => match utf8_size s with
                     | O => encode_rune 65533 +:+ rune_prefix n' 0 s'
                     | S k => String c (rune_prefix n' k s')
                     end
           end
    end
  end.
Definition maxFailReason : nat := 500.
Definition Fields `{AcmeServer} (s : string) : list string :=
  if string_forallb is_ascii_byte s then fields_from "" s else unicode_fields s.
Definition FailReason `{AcmeServer} (e : err) : string :=
  let m := String.concat " " (Fields (lines_joined (error_text e))) in
  if (maxFailReason <? rune_count 0 m)%nat then rune_prefix maxFailReason 0 m else m.

(** ** The client of an issuer *)
Definition asString (v : option any) : string := match v with Some v => as_string v | None => "" end.
(** The credentials of a nested object. *)
Definition credsMap (v : option any) : gmap string string :=
  match v with Some (AMap l) => as_string <$> list_to_map l | _ => ∅ end.
Definition providerCreds (provider : string) (settings : Settings) : gmap string string :=
  let nested := credsMap (settings !! "dns_credential") in
  if bool_decide (nested = ∅) then
    foldl (fun out f => let v := asString (settings !! fd_Key f) in
                        if v <>s "" then <[fd_Key f := v]> out else out) ∅
      (List.filter (fun p => pv_Name p =s provider) Providers ≫= pv_Fields)
  else nested.

Fixpoint index_sub (sub s : string) : bool :=
  match strip_prefix sub s with
  | Some _ => true
  | None => match s with String _ s' => index_sub sub s' | EmptyString => false end
  end.
Definition isLoopbackURL (u : string) : bool :=
  index_sub "127.0.0.1" u || index_sub "localhost" u || index_sub "[::1]" u.
Fixpoint after_sub (sub s : string) : option string :=
  match strip_prefix sub s with
  | Some r => Some r
  | None => match s with String _ s' => after_sub sub s' | EmptyString => None end
  end.

Section acme.
Context `{Env} `{AcmeServer}.

Definition hostOf (rawURL : string) : string :=
  let s := default rawURL (after_sub "://" rawURL) in
  let s := (cut 47 s).1 in
  default s (split_host_port s).
Definition isLoopbackDirectory (rawURL : string) : bool :=
  if rawURL =s "" then false
  else (hostOf rawURL =s "localhost") || is_loopback_ip (hostOf rawURL).
Definition acme_ErrConfig : err := Sentinel "acme" "ErrConfig".
(** [acme.New]: the key and the provider are always there. *)
Definition acme_New (cfg : AcmeConfig) : res AcmeConfig :=
  if ac_AllowInsecure cfg && negb (isLoopbackDirectory (ac_DirectoryURL cfg))
  then Err acme_ErrConfig else Ok cfg.

Definition parseAccountKey (pemStr : string) : option string :=
  match pem_decode pemStr with
  | None => None
  | Some (_, der) => match parse_key der with Some k => Some k | None => parse_ec der end
  end.
(** Raw URL, URL, raw standard and standard base64, in this order. *)
Definition decodeEABKey (raw : string) : option string :=
  let raw := TrimSpace raw in
  match base64_decode true false raw with
  | Some b => Some b
  | None => match base64_decode true true raw with
            | Some b => Some b
            | None => match base64_decode false false raw with
                      | Some b => Some b
                      | None => base64_decode false true raw
                      end
            end
  end.
Definition dnsProvider (issuer : Issuer) (settings : Settings) : res DNSProvider :=
  NewProviderWith (iss_DNSProvider issuer) (providerCreds (iss_DNSProvider issuer) settings)
    freya_client (iss_TenantID issuer).
Definition acmeClientFor (issuer : Issuer) : res AcmeConfig :=
  let? settings := (if 0 <? blen (iss_SettingsSealed issuer)
                    then let? clear := Open (iss_SettingsSealed issuer) (ADIssuer (iss_ID issuer)) in
                         sealed_Decode (Some clear)
                    else Ok ∅) in
  match parseAccountKey (asString (settings !! "acme_account_key")) with
  | None => Err (invalid "acme_account_key" "issuer has no usable ACME account key")
  | Some accountKey =>
    match dnsProvider issuer settings with
    | Err _ => Err (invalid "dns_provider" "DNS provider could not be built")
    | Ok provider =>
      let raw := asString (settings !! "eab_hmac_key") in
      let? eabHMAC := (if raw <>s ""
                       then match decodeEABKey raw with
                            | Some b => Ok (Some b)
                            | None => Err (invalid "eab_hmac_key" "EAB HMAC key is not valid base64")
                            end
                       else Ok None) in
      acme_New (mkAcmeConfig (iss_ACMEDirectoryURL issuer) (iss_ACMEEmail issuer) accountKey provider
                  (isLoopbackURL (iss_ACMEDirectoryURL issuer)) (asString (settings !! "eab_kid"))
                  eabHMAC)
    end
  end.

(** The leaf of a chain, its PEM, and the rest. *)
Definition splitChain (chainPEM : string) : res (string * string * X509) :=
  match pem_next chainPEM with
  | None => Err (invalid "acme" "ACME returned no certificate")
  | Some (blk, rest) =>
    let? leaf := parse_certificate (blk_Bytes blk) in
    Ok (pem_encode "CERTIFICATE" (blk_Bytes blk), TrimSpace rest, leaf)
  end.

(** The row of a certificate an ACME server issued. *)
Definition generic_row (subj : Subjects) (issuerID certID : string) (requestID : option string)
  (domains : list string) (leaf : X509) (leafPEM restPEM : string) (keySealed : bytes)
  (autoRenew : bool) (owner : string) : IssuedCertificate :=
  {| crt_ID := certID; crt_TenantID := sub_TenantID subj; crt_IssuerID := issuerID;
     crt_Kind := "generic"; crt_RequestID := requestID;
     crt_Serial := FormatInt (x_SerialNumber leaf); crt_SpiffeID := "";
     crt_Subject := default "" (head domains); crt_SANs := Some (marshal_strings (Some domains));
     crt_NotBefore := x_NotBefore leaf; crt_NotAfter := x_NotAfter leaf;
     crt_FingerprintSHA256 := Fingerprint (x_Raw leaf); crt_Status := "active";
     crt_CertPEM := leafPEM; crt_ChainPEM := restPEM; crt_KeySealed := keySealed;
     crt_KeyDelivered := false; crt_AutoRenew := autoRenew; crt_SupersededBy := None;
     crt_Owner := owner; crt_CreatedBy := userPtr subj; crt_UpdatedBy := userPtr subj;
     crt_CreatedAt := 0; crt_UpdatedAt := 0 |}.

Definition PrecheckACME (now : Z) (subj : Subjects) (issuerID : string) : M unit :=
  let* r := st_try (reading (Mem_GetIssuer (sub_TenantID subj) issuerID)) in
  match r with
  | Err e => if is_not_found e then st_err (invalid "issuer_id" "issuer not found") else st_err e
  | Ok issuer =>
    if iss_Type issuer <>s "acme" then st_err (invalid "issuer_id" "issuer is not an ACME issuer")
    else
      let* c := st_try (az_Check now subj IssuerType (iss_ID issuer) Use) in
      match c with Ok _ => st_ret tt | Err _ => st_err authz_ErrForbidden end
  end.

(** The request to order with, the sealed key and the key to deliver. *)
Definition order_key (certID csrPEM : string) (domains : list string) (deliverKey : bool)
  : M (string * bytes * string) :=
  if csrPEM <>s "" then
    match ParseCSR csrPEM with
    | Err _ => st_err (invalid "csr" "certificate request rejected")
    | Ok parsed => st_ret (cr_Raw (pc_CSR parsed), None, "")
    end
  else
    let* (key, _) := drawing generate_key in
    let* der := drawing (fun n => create_csr n (default "" (head domains)) domains key) in
    let* keyDER := st_lift (marshal_key key) in
    let pemKey := pem_encode "PRIVATE KEY" keyDER in
    let* keySealed := Seal pemKey (ADCertKey certID) in
    st_ret (der, Some keySealed, if deliverKey then pemKey else "").

Definition effective_or_none (now : Z) (subj : Subjects) (id : string) : M Permissions :=
  let* eff := st_try (az_Effective now subj Certificate id) in
  st_ret (match eff with Ok (p, _, _) => p | Err _ => no_permissions end).

Definition obtainACME (now : Z) (subj : Subjects) (requestID issuerID : string)
  (domains : list string) (csrPEM : string) (deliverKey autoRenew : bool) : M Bundle :=
  let* domains := st_lift (validateACMEDomains domains) in
  let* r := st_try (reading (Mem_GetIssuer (sub_TenantID subj) issuerID)) in
  match r with
  | Err e => if is_not_found e then st_err (invalid "issuer_id" "issuer not found") else st_err e
  | Ok issuer =>
    if iss_Type issuer <>s "acme" then st_err (invalid "issuer_id" "issuer is not an ACME issuer")
    else
      let* c := st_try (az_Check now subj IssuerType (iss_ID issuer) Use) in
      match c with
      | Err _ => st_err authz_ErrForbidden
      | Ok _ =>
        let* client := st_lift (acmeClientFor issuer) in
        let* _ := drawing (fun n => acme_register n client) in
        let* certID := newID in
        let* (csrDER, keySealed, keyPEM) := order_key certID csrPEM domains deliverKey in
        let* chainPEM := drawing (fun n => acme_obtain n client csrDER domains) in
        let* (leafPEM, restPEM, leaf) := st_lift (splitChain chainPEM) in
        let row := generic_row subj (iss_ID issuer) certID (ptrOrNil requestID) domains leaf leafPEM
                     restPEM keySealed autoRenew (ActorID subj) in
        let* _ := record_certificate row
                    (mkCertLogRow now (sub_TenantID subj) certID "issued" (iss_ID issuer)
                       (default "" (head domains)) "") (sub_UserID subj) in
        let* _ := emit (service_event subj "certificate_issued" "certificate" certID "ok"
                          [("domains", AStr (String.concat "," domains));
                           ("issuer_id", AStr (iss_ID issuer)); ("serial", AStr (crt_Serial row));
                           ("kind", AStr "generic")]) in
        let* stored := reading (Mem_GetCertificate (sub_TenantID subj) certID) in
        let* perms := effective_or_none now subj certID in
        st_ret (mkBundle (certView now stored perms) leafPEM restPEM "" keyPEM)
      end
  end.

(** The order with its audit trail: a failure other than a refusal is recorded. *)
Definition ObtainACMEFor (now : Z) (subj : Subjects) (requestID issuerID : string)
  (domains : list string) (csrPEM : string) (deliverKey autoRenew : bool) : M Bundle :=
  let* r := st_try (obtainACME now subj requestID issuerID domains csrPEM deliverKey autoRenew) in
  match r with
  | Ok b => st_ret b
  | Err e =>
    if errors_is e "authz" "ErrForbidden" then st_err e
    else
      let names := normaliseDomains domains in
      let* _ := emit (mkEvent (sub_TenantID subj) "certificate_issued" (ActorKind subj) (ActorID subj)
                        "certificate" "" (default "" (head names)) "failed" (FailReason e) ""
                        [("domains", AStr (String.concat "," names)); ("issuer_id", AStr issuerID);
                         ("kind", AStr "generic")]) in
      st_err e
  end.
Definition ObtainACME (now : Z) (subj : Subjects) (issuerID : string) (domains : list string)
  (csrPEM : string) (deliverKey autoRenew : bool) : M Bundle :=
  ObtainACMEFor now subj "" issuerID domains csrPEM deliverKey autoRenew.

(** ** Orders recorded as requests *)
Record ACMEOrder := mkACMEOrder { ao_RequestID : string; ao_Domains : list string }.

Definition BeginACME (now : Z) (subj : Subjects) (issuerID : string) (domains : list string)
  : M ACMEOrder :=
  let* _ := PrecheckACME now subj issuerID in
  let* names := st_lift (validateACMEDomains domains) in
  let* id := newID in
  let row := mkCertificateRequest id (sub_TenantID subj) (Some issuerID) "generic" ""
               (Some (marshal_strings (Some names))) "" None 0 (ActorID subj) (ActorKind subj)
               "processing" None None None 0 0 in
  let* r := st_try (writing (Mem_InsertRequest row)) in
  match r with
  | Err e => if is_conflict e then st_err (invalid "issuer_id" "issuer not found") else st_err e
  | Ok _ =>
    let* _ := emit (mkEvent (sub_TenantID subj) "certificate_requested" (ActorKind subj) (ActorID subj)
                      "request" id (default "" (head names)) "ok" "" ""
                      [("domains", AStr (String.concat "," names)); ("issuer_id", AStr issuerID);
                       ("kind", AStr "generic"); ("requester_kind", AStr (ActorKind subj))]) in
    st_ret (mkACMEOrder id names)
  end.
Definition FinishACME (subj : Subjects) (requestID certificateID : string) (orderErr : option err)
  : M unit :=
  match orderErr with
  | Some e => writing (Mem_CompleteRequest (sub_TenantID subj) requestID "failed" None (Some (FailReason e)))
  | None => writing (Mem_CompleteRequest (sub_TenantID subj) requestID "issued" (Some certificateID) None)
  end.

(** ** Renewal *)

(** The names a certificate is renewed for. *)
Definition renewal_names (old : IssuedCertificate) : res (list string) :=
  match normaliseDomains (default [] (stored_sans (crt_SANs old))) with
  | [] => if crt_Subject old =s "" then Err (invalid "domains" "certificate has no domains to renew")
          else Ok [crt_Subject old]
  | l => Ok l
  end.
(** The stored key when it can be read, otherwise a new one. *)
Definition renewal_key (old : IssuedCertificate) : M string :=
  let stored := if 0 <? blen (crt_KeySealed old) then
                  match Open (crt_KeySealed old) (ADCertKey (crt_ID old)) with
                  | Ok clear => parseAccountKey clear
                  | Err _ => None
                  end
                else None in
  match stored with
  | Some k => st_ret k
  | None => let* (key, _) := drawing generate_key in st_ret key
  end.
Definition renewACME (now : Z) (subj : Subjects) (old : IssuedCertificate) : M Bundle :=
  let* domains := st_lift (renewal_names old) in
  let* issuer := reading (Mem_GetIssuer (sub_TenantID subj) (crt_IssuerID old)) in
  let* client := st_lift (acmeClientFor issuer) in
  let* _ := drawing (fun n => acme_register n client) in
  let* certID := newID in
  let* key := renewal_key old in
  let* csrDER := drawing (fun n => create_csr n (default "" (head domains)) domains key) in
  let* keyDER := st_lift (marshal_key key) in
  let* keySealed := Seal (pem_encode "PRIVATE KEY" keyDER) (ADCertKey certID) in
  let* chainPEM := drawing (fun n => acme_obtain n client csrDER domains) in
  let* (leafPEM, restPEM, leaf) := st_lift (splitChain chainPEM) in
  let row := generic_row subj (iss_ID issuer) certID None domains leaf leafPEM restPEM
               (Some keySealed) (crt_AutoRenew old) (crt_Owner old) in
  let grantee := if (crt_Owner old <>s "") && negb (HasPrefix "spiffe://" (crt_Owner old))
                 then crt_Owner old else "" in
  let* _ := record_certificate row
              (mkCertLogRow now (sub_TenantID subj) certID "renewed" (iss_ID issuer)
                 (default "" (head domains)) "") grantee in
  let* _ := writing (Mem_SetCertificateStatus (sub_TenantID subj) (crt_ID old) (crt_Status old)
                       (Some certID)) in
  let* _ := emit (service_event subj "certificate_renewed" "certificate" certID "ok"
                    [("domains", AStr (String.concat "," domains)); ("issuer_id", AStr (iss_ID issuer));
                     ("serial", AStr (crt_Serial row)); ("kind", AStr "generic");
                     ("renewed_from", AStr (crt_ID old))]) in
  let* stored := reading (Mem_GetCertificate (sub_TenantID subj) certID) in
  let* perms := effective_or_none now subj certID in
  st_ret (mkBundle (certView now stored perms) leafPEM restPEM "" "").
End acme.

(** A stand-in for the ACME server, for the witnesses. *)
Module AcmeSample.
Definition toy_server : AcmeServer := {|
  acme_register n cfg := Ok tt;
  acme_obtain n cfg csr domains := Ok "CERTIFICATE:leaf";
  freya_client := false;
  split_host_port s := None;
  is_loopback_ip s := false;
  base64_decode url padded s := Some s;
  error_text e := "failed";
  unicode_fields s := [s];
|}.
End AcmeSample.
