(* ===== verification/ImportCert.v ===== *)
(** Certificates issued outside lcm: internal/issue/importcert.go. *)

From S2P Require Import Prelude Rows Memstore MemstoreInv MemstoreList Paging Authz GoJson GoUrl AuditLog.
From S2P Require Import Csr Sealed World Ca IssueBase Domains Providers Issuers Acme.

Definition MaxImportPEMBytes : Z := 65536.
Definition maxImportChain : Z := 10.

Record ImportInput := mkImportInput {
  im_IssuerID : string; im_CertPEM : string; im_ChainPEM : string; im_KeyPEM : string;
  im_AutoRenew : bool;
}.

(** [strings.HasSuffix]. *)
Fixpoint HasSuffix (suffix s : string) : bool :=
  (s =s suffix) || match s with String _ s' => HasSuffix suffix s' | EmptyString => false end.

Section import.
Context `{Env}.

(** The certificates of one input, and what follows the last block.  Each block
    shortens the text, so its length bounds the number of rounds. *)
Fixpoint import_blocks (fuel : nat) (rest : string) (certs : list X509)
  : res (list X509 * string) :=
  match fuel with
  | O => Err ErrFuel
  | S fuel' =>
    match pem_next rest with
    | None => Ok (certs, rest)
    | Some (blk, rest') =>
      if blk_Type blk <>s "CERTIFICATE"
      then Err (invalid "certificate"
                  "only CERTIFICATE blocks are accepted (the private key goes in its own field)")
      else match parse_certificate (blk_Bytes blk) with
           | Err _ => Err (invalid "certificate" "a certificate could not be parsed")
           | Ok c => import_blocks fuel' rest' (certs ++ [c])
           end
    end
  end.
Definition import_source (src : string) (certs : list X509) : res (list X509) :=
  let? (certs, rest) := import_blocks (S (String.length src)) src certs in
  if TrimSpace rest <>s "" then Err (invalid "certificate" "the input contains text that is not PEM")
  else Ok certs.
(** The chain without the certificates already seen. *)
Fixpoint import_chain (seen : list string) (certs : list X509) : list string :=
  match certs with
  | [] => []
  | c :: cs => if contains seen (x_Raw c) then import_chain seen cs
               else TrimSpace (pem_encode "CERTIFICATE" (x_Raw c)) :: import_chain (x_Raw c :: seen) cs
  end.
Definition newline : string := str1 (chr 10).
Definition parseImportCerts (certPEM chainPEM : string) : res (X509 * string) :=
  if (MaxImportPEMBytes <? str_len certPEM) || (MaxImportPEMBytes <? str_len chainPEM)
  then Err (invalid "certificate" "certificate input is too large")
  else
    let? certs := import_source certPEM [] in
    let? certs := import_source chainPEM certs in
    match certs with
    | [] => Err (invalid "certificate" "no certificate found")
    | leaf :: rest =>
      if x_IsCA leaf
      then Err (invalid "certificate" "the first certificate must be the server certificate, not a CA")
      else
        let chain := import_chain [x_Raw leaf] rest in
        if maxImportChain <? Z.of_nat (length chain)
        then Err (invalid "chain" "the chain has too many certificates")
        else Ok (leaf, String.concat newline chain)
    end.

Definition importDomains (leaf : X509) : res (list string) :=
  if (0 <? length (x_IPAddresses leaf))%nat || (0 <? length (x_URIs leaf))%nat
     || (0 <? length (x_EmailAddresses leaf))%nat
  then Err (invalid "certificate" "only certificates for DNS names can be renewed through ACME")
  else
    let names := if (length (x_DNSNames leaf) =? 0)%nat && (x_CommonName leaf <>s "")
                 then [x_CommonName leaf] else x_DNSNames leaf in
    if (length names =? 0)%nat
    then Err (invalid "certificate" "the certificate names no DNS domain")
    else match validateACMEDomains names with
         | Ok domains => Ok domains
         | Err (ValidationError _ _ msg) => Err (invalid "certificate" ("certificate domains: " +:+ msg))
         | Err e => Err e
         end.

(** The first block of a private key. *)
Fixpoint key_block (fuel : nat) (rest : string) : res (option Block) :=
  match fuel with
  | O => Err ErrFuel
  | S fuel' =>
    match pem_next rest with
    | None => Ok None
    | Some (blk, rest') => if HasSuffix "PRIVATE KEY" (blk_Type blk) then Ok (Some blk)
                           else key_block fuel' rest'
    end
  end.
(** The key of a block, by the type of the block. *)
Definition block_key (blk : Block) : res string :=
  let unparsed := Err (invalid "key" "the private key could not be parsed") in
  if blk_Type blk =s "PRIVATE KEY" then
    match parse_pkcs8 (blk_Bytes blk) with
    | None => unparsed
    | Some None => Err (invalid "key" "unsupported private key type")
    | Some (Some k) => Ok k
    end
  else if blk_Type blk =s "RSA PRIVATE KEY" then
    match parse_pkcs1 (blk_Bytes blk) with Some k => Ok k | None => unparsed end
  else if blk_Type blk =s "EC PRIVATE KEY" then
    match parse_ec (blk_Bytes blk) with Some k => Ok k | None => unparsed end
  else Err (invalid "key" "unsupported private key type").
(** The keys an ACME server accepts; the parsers know the curves P-224, P-256,
    P-384 and P-521, told apart by their size. *)
Definition import_key_ok (pub : PublicKey) : res unit :=
  match pub with
  | RSAKey bits _ => if bits <? 2048 then Err (invalid "key" "RSA keys must have at least 2048 bits")
                     else Ok tt
  | ECDSAKey bits _ => if (bits =? 256) || (bits =? 384) then Ok tt
                       else Err (invalid "key" "ECDSA keys must use P-256 or P-384")
  | _ => Err (invalid "key" "only RSA and ECDSA keys can be renewed through ACME")
  end.
#[export] Instance public_key_eq_dec : EqDecision PublicKey.
Proof. solve_decision. Defined.
Definition parseImportKey (keyPEM : string) (leaf : X509) : res string :=
  if MaxImportPEMBytes <? str_len keyPEM then Err (invalid "key" "private key input is too large")
  else
    let? found := key_block (S (String.length keyPEM)) keyPEM in
    match found with
    | None => Err (invalid "key" "no private key found")
    | Some blk =>
      if (blk_Type blk =s "ENCRYPTED PRIVATE KEY") || (blk_ProcType blk <>s "")
      then Err (invalid "key"
                  "encrypted private keys are not supported; export it without a passphrase")
      else
        let? key := block_key blk in
        let? _ := import_key_ok (public_of key) in
        if negb (bool_decide (x_PublicKey leaf = public_of key))
        then Err (invalid "key" "the private key does not match the certificate")
        else
          let? der := marshal_key key in
          Ok (pem_encode "PRIVATE KEY" der)
    end.

Context `{AcmeServer}.
Definition ImportACME (now : Z) (subj : Subjects) (inp : ImportInput) : M CertificateView :=
  let* _ := PrecheckACME now subj (im_IssuerID inp) in
  let* (leaf, chain) := st_lift (parseImportCerts (im_CertPEM inp) (im_ChainPEM inp)) in
  let* domains := st_lift (importDomains leaf) in
  let* keyPKCS8 := st_lift (parseImportKey (im_KeyPEM inp) leaf) in
  let* certID := newID in
  let* keySealed := Seal keyPKCS8 (ADCertKey certID) in
  let row := generic_row subj (im_IssuerID inp) certID None domains leaf
               (pem_encode "CERTIFICATE" (x_Raw leaf)) chain (Some keySealed) (im_AutoRenew inp)
               (ActorID subj) in
  let* r := st_try (record_certificate row
              (mkCertLogRow now (sub_TenantID subj) certID "issued" (im_IssuerID inp)
                 (default "" (head domains)) "") (sub_UserID subj)) in
  match r with
  | Err e => if is_conflict e then st_err (invalid "certificate" "this certificate is already in lcm")
             else st_err e
  | Ok _ =>
    let* _ := emit (mkEvent (sub_TenantID subj) "certificate_imported" (ActorKind subj) (ActorID subj)
                      "certificate" certID (default "" (head domains)) "ok" "" ""
                      [("domains", AStr (String.concat "," domains));
                       ("issuer_id", AStr (im_IssuerID inp)); ("serial", AStr (crt_Serial row));
                       ("issuer_dn", AStr (x_IssuerDN leaf)); ("auto_renew", ABool (im_AutoRenew inp))]) in
    let* stored := reading (Mem_GetCertificate (sub_TenantID subj) certID) in
    let* perms := effective_or_none now subj certID in
    st_ret (certView now stored perms)
  end.
End import.

(** ** The loops end *)
Section import_fuel.
Context `{Env} `{!EnvLaws}.
Lemma import_blocks_fuel fuel rest certs :
  (String.length rest < fuel)%nat -> import_blocks fuel rest certs <> Err ErrFuel.
Proof.
  revert rest certs. induction fuel as [|fuel IH]; intros rest certs Hf; [lia|]. simpl.
  destruct (pem_next rest) as [[blk rest']|] eqn:E; [|done]. apply laws_pem_rest in E.
  case_match; [done|]. case_match; [|done]. apply IH. lia.
Qed.
Lemma key_block_fuel fuel rest :
  (String.length rest < fuel)%nat -> key_block fuel rest <> Err ErrFuel.
Proof.
  revert rest. induction fuel as [|fuel IH]; intros rest Hf; [lia|]. simpl.
  destruct (pem_next rest) as [[blk rest']|] eqn:E; [|done]. apply laws_pem_rest in E.
  case_match; [done|]. apply IH. lia.
Qed.
Lemma import_source_fuel src certs : import_source src certs <> Err ErrFuel.
Proof.
  unfold import_source. pose proof (import_blocks_fuel (S (String.length src)) src certs) as Hf.
  destruct (import_blocks _ _ _) as [[cs rest]|e]; simpl; [by case_match|].
  intros [= ->]. apply Hf; [lia|done].
Qed.
(** The parsers of an import decide every input. *)
Lemma parseImportCerts_total certPEM chainPEM : parseImportCerts certPEM chainPEM <> Err ErrFuel.
Proof.
  unfold parseImportCerts. case_match; [done|].
  pose proof (import_source_fuel certPEM []) as Hc.
  destruct (import_source certPEM []) as [cs|e]; simpl; [|congruence].
  pose proof (import_source_fuel chainPEM cs) as Hx.
  destruct (import_source chainPEM cs) as [cs'|e]; simpl; [|congruence]. by repeat case_match.
Qed.
End import_fuel.

(** ** What is imported *)
Section import_props.
Context `{Env} `{AcmeServer}.

Lemma PrecheckACME_ok now subj issuerID w w' u :
  PrecheckACME now subj issuerID w = (Ok u, w') ->
  w' = w /\ exists issuer, Mem_GetIssuer (sub_TenantID subj) issuerID (wd_mem w) = Ok issuer
    /\ iss_Type issuer = "acme" /\ permitted now subj IssuerType (iss_ID issuer) Use (wd_mem w).
Proof.
  unfold PrecheckACME. intros Hr. apply st_bind_ok in Hr as (r & w1 & Hg & Hr).
  injection Hg as <- <-. destruct (Mem_GetIssuer _ _ _) as [issuer|e]; [|by case_match].
  destruct (iss_Type issuer =s "acme") eqn:Ht; simpl in Hr; [|done]. bools.
  apply st_bind_ok in Hr as (c & w1 & Hc & Hr). apply (proj1 (st_try_ok _ _ _ _)) in Hc.
  destruct c as [[]|e]; [|done]. apply az_Check_ok in Hc as [-> Hc].
  apply st_ret_ok in Hr as [_ ->]. eauto.
Qed.
Lemma parseImportKey_ok keyPEM leaf out :
  parseImportKey keyPEM leaf = Ok out ->
  exists key der, import_key_ok (public_of key) = Ok tt /\ x_PublicKey leaf = public_of key
    /\ marshal_key key = Ok der /\ out = pem_encode "PRIVATE KEY" der.
Proof.
  unfold parseImportKey. case_match; [done|]. destruct (key_block _ _) as [[blk|]|]; simpl; [|done..].
  case_match; [done|]. destruct (block_key blk) as [key|]; simpl; [|done].
  destruct (import_key_ok (public_of key)) as [[]|] eqn:E1; simpl; [|done].
  case_bool_decide; simpl; [|done]. destruct (marshal_key key) as [der|] eqn:E2; simpl; [|done].
  intros [= <-]. eauto 10.
Qed.
Lemma parseImportCerts_ok certPEM chainPEM leaf chain :
  parseImportCerts certPEM chainPEM = Ok (leaf, chain) ->
  x_IsCA leaf = false /\ str_len certPEM <= MaxImportPEMBytes.
Proof.
  unfold parseImportCerts. case_match; [done|]. bools.
  destruct (import_source certPEM []); simpl; [|done]. destruct (import_source chainPEM _); simpl; [|done].
  destruct a0 as [|c cs]; [done|]. destruct (x_IsCA c) eqn:E; [done|]. case_match; [done|].
  by intros [= <- _].
Qed.
Lemma importDomains_ok leaf domains :
  importDomains leaf = Ok domains -> acceptable domains.
Proof.
  unfold importDomains. case_match; [done|]. case_match; [done|]. intros Hd.
  destruct (validateACMEDomains _) as [l|e] eqn:E; [injection Hd as <-; by apply validate_ok in E as [_ E]|].
  by destruct e.
Qed.

(** An imported certificate can be renewed: its issuer is an ACME issuer the
    caller may use, it is not a CA, its names form an order an ACME server
    accepts, and the key sealed with it is a key of the certificate, RSA of 2048
    bits at least or ECDSA on P-256 or P-384, stored in the format renewal
    reads. *)
Theorem ImportACME_renewable `{!EnvLaws} now subj inp w v w' :
  ImportACME now subj inp w = (Ok v, w') ->
  exists c leaf key der domains issuer,
    m_Certificates (wd_mem w') = <[crt_ID c := c]> (m_Certificates (wd_mem w))
    /\ cv_ID v = crt_ID c /\ crt_Kind c = "generic" /\ crt_TenantID c = sub_TenantID subj
    /\ crt_AutoRenew c = im_AutoRenew inp
    /\ Mem_GetIssuer (sub_TenantID subj) (im_IssuerID inp) (wd_mem w) = Ok issuer
    /\ iss_Type issuer = "acme" /\ permitted now subj IssuerType (iss_ID issuer) Use (wd_mem w)
    /\ x_IsCA leaf = false /\ crt_NotAfter c = x_NotAfter leaf
    /\ acceptable domains /\ default "" (crt_SANs c) = marshal_strings (Some domains)
    /\ import_key_ok (public_of key) = Ok tt /\ x_PublicKey leaf = public_of key
    /\ marshal_key key = Ok der
    /\ Open (crt_KeySealed c) (ADCertKey (crt_ID c)) = Ok (pem_encode "PRIVATE KEY" der).
Proof.
  unfold ImportACME. intros Hr. apply st_bind_ok in Hr as ([] & w0 & Hp & Hr).
  apply PrecheckACME_ok in Hp as (-> & issuer & Hi & Hty & Hperm).
  apply st_bind_ok in Hr as ([leaf chain] & w0 & Hl & Hr). apply st_lift_ok in Hl as [Hl ->].
  apply st_bind_ok in Hr as (domains & w0 & Hd & Hr). apply st_lift_ok in Hd as [Hd ->].
  apply st_bind_ok in Hr as (k8 & w0 & Hk & Hr). apply st_lift_ok in Hk as [Hk ->].
  apply st_bind_ok in Hr as (certID & w1 & [= <- <-] & Hr).
  apply st_bind_ok in Hr as (blob & w2 & Hs & Hr). pose proof (Seal_frame _ _ _ _ _ Hs) as [Hm2 _].
  apply Seal_opens in Hs. apply st_bind_ok in Hr as (r & w3 & Hrec & Hr).
  apply (proj1 (st_try_ok _ _ _ _)) in Hrec. destruct r as [[]|e]; [|by case_match].
  apply record_certificate_ok in Hrec as (Hc & _). simpl in Hm2. rewrite Hm2 in Hc.
  apply st_bind_ok in Hr as ([] & w4 & Hev & Hr). apply emit_ok in Hev.
  assert (Hm4 : wd_mem w4 = wd_mem w3) by (by rewrite Hev). clear Hev.
  apply st_bind_ok in Hr as (stored & w5 & Hg & Hr). apply reading_ok in Hg as [Hg ->].
  apply st_bind_ok in Hr as (perms & w6 & He & Hr).
  assert (w6 = w4) as -> by (by injection He as _ <-). apply st_ret_ok in Hr as [-> ->].
  rewrite Hm4 in Hg |- *. unfold Mem_GetCertificate, fail_read in Hg. case_match; [done|].
  rewrite Hc in Hg. simpl crt_ID in Hg. rewrite lookup_insert_eq in Hg.
  case_match; [|done]. injection Hg as <-.
  apply parseImportKey_ok in Hk as (key & der & K1 & K2 & K3 & ->).
  apply parseImportCerts_ok in Hl as [L1 _]. apply importDomains_ok in Hd.
  eexists _, leaf, key, der, domains, issuer. split; [exact Hc|].
  split_and!; try done.
  - rewrite <- Hs. unfold Open. simpl. by destruct (blob =s "") eqn:E; bools; subst.
Qed.
End import_props.

Module ImportSample.
Import Toy IssueSample IssuerSample AcmeSample.
#[local] Existing Instance toy_env.
#[local] Existing Instance toy_server.
Definition pems : ImportInput :=
  mkImportInput (iv_ID created.1) "CERTIFICATE:abc" "CERTIFICATE:ca" "PRIVATE KEY:k" true.
Definition imported : CertificateView * World :=
  run (certView 0 sample_cert no_permissions) (ImportACME 20 admin pems) created.2.
Lemma imported_run : ImportACME 20 admin pems created.2 = (Ok imported.1, imported.2).
Proof. vm_compute. reflexivity. Qed.
Lemma ImportACME_renewable_witness :
  cv_Kind imported.1 = "generic"
  /\ exists c, m_Certificates (wd_mem imported.2) !! crt_ID c = Some c /\ crt_AutoRenew c = true.
Proof.
  split; [vm_compute; reflexivity|].
  destruct (ImportACME_renewable (H1 := toy_env_laws) 20 admin pems created.2 imported.1 imported.2
              imported_run) as (c & _ & _ & _ & _ & _ & Hc & _ & _ & _ & Ha & _).
  exists c. rewrite Hc, lookup_insert_eq. split; [reflexivity|exact Ha].
Defined.
End ImportSample.
