(* ===== verification/Lifecycle.v ===== *)
(** The life of a certificate after issuance: internal/issue/certificates.go. *)

From S2P Require Import Prelude Rows Memstore MemstoreInv MemstoreList Paging Authz GoJson GoUrl AuditLog.
From S2P Require Import Csr Sealed World Ca IssueBase Domains Providers Issuers Acme.

Record CertificateUpdate := mkCertificateUpdate { cu_Owner : string; cu_AutoRenew : option bool }.
Definition RenewSystemID : string := "spiffe://system/lcm/renew".

Section lifecycle.
Context `{Env}.

Definition GetCertificate (now : Z) (subj : Subjects) (id : string) : M CertificateView :=
  let* _ := az_Check now subj Certificate id Read in
  let* row := reading (Mem_GetCertificate (sub_TenantID subj) id) in
  let* (perms, _, _) := az_Effective now subj Certificate id in
  st_ret (certView now row perms).

(** *** Listing *)

(** The view of a listed row, if the caller may read it. *)
Definition cert_project (now : Z) (subj : Subjects) (ids : gset string) (all : bool) (m : Mem)
  (row : IssuedCertificate) : res (option CertificateView) :=
  if negb all && negb (bool_decide (crt_ID row ∈ ids)) then Ok None
  else
    let? (perms, _, _) := authz_Effective now subj Certificate (crt_ID row) m in
    Ok (Some (certView now row perms)).
(** The cursor a call starts from: the time of an identifier given alone is looked
    up; [None] for one that is not there for the caller. *)
Definition start_cursor (subj : Subjects) (ids : gset string) (all : bool) (f : CertificateFilter)
  (m : Mem) : res (option (Z * string)) :=
  if (crf_CursorID f <>s "") && IsZero (crf_CursorTS f) then
    if negb (IsUUID (crf_CursorID f)) then Ok None
    else match Mem_GetCertificate (sub_TenantID subj) (crf_CursorID f) m with
         | Err e => if is_not_found e then Ok None else Err e
         | Ok cur => if negb all && negb (bool_decide (crt_ID cur ∈ ids)) then Ok None
                     else Ok (Some (crt_CreatedAt cur, crf_CursorID f))
         end
  else Ok (Some (crf_CursorTS f, crf_CursorID f)).
Definition page_limit (limit : Z) : Z := if (limit <=? 0) || (100 <? limit) then 50 else limit.
(** The rows of the store from a cursor. *)
Definition cert_page (subj : Subjects) (f : CertificateFilter) (limit : Z) (m : Mem)
  (cur : Z * string) : res (list IssuedCertificate) :=
  Mem_ListCertificates (sub_TenantID subj)
    (f <| crf_CursorTS := cur.1 |> <| crf_CursorID := cur.2 |> <| crf_Limit := limit |>) m.
Definition cert_cursor (row : IssuedCertificate) : Z * string := (crt_CreatedAt row, crt_ID row).
Definition ListCertificates (now : Z) (subj : Subjects) (f : CertificateFilter)
  : M (list CertificateView * string) :=
  reading (fun m =>
    let? (ids, all) := authz_ListAccessibleIDs now subj Certificate m in
    let limit := page_limit (crf_Limit f) in
    let? start := start_cursor subj ids all f m in
    match start with
    | None => Ok ([], "")
    | Some cur =>
      let? out := page_loop (cert_page subj f limit m) cert_cursor (cert_project now subj ids all m)
                    limit (S (size (m_Certificates m))) [] cur in
      Ok (out, if Z.of_nat (length out) =? limit then last_or cv_ID out else "")
    end).

(** *** Updates *)
Definition UpdateCertificate (now : Z) (subj : Subjects) (id : string) (inp : CertificateUpdate)
  : M CertificateView :=
  let* _ := az_Check now subj Certificate id Write in
  let* row := reading (Mem_GetCertificate (sub_TenantID subj) id) in
  let row := if cu_Owner inp <>s "" then row <| crt_Owner := cu_Owner inp |> else row in
  let row := match cu_AutoRenew inp with Some b => row <| crt_AutoRenew := b |> | None => row end in
  let row := row <| crt_UpdatedBy := userPtr subj |> in
  let* _ := writing (Mem_UpdateCertificate row) in
  GetCertificate now subj id.

Definition DeleteCertificate (now : Z) (subj : Subjects) (id : string) : M unit :=
  let* _ := az_Check now subj Certificate id Delete in
  let* row := reading (Mem_GetCertificate (sub_TenantID subj) id) in
  let* _ := Atomic (
    let* _ := writing (Mem_DeleteCertificate (sub_TenantID subj) id) in
    az_DropResource (sub_TenantID subj) Certificate id) in
  emit (service_event subj "certificate_deleted" "certificate" id "ok"
          [("spiffe_id", AStr (crt_SpiffeID row)); ("serial", AStr (crt_Serial row))]).

Definition MarkKeyDelivered (now : Z) (subj : Subjects) (certID : string) : M unit :=
  let* _ := az_Check now subj Certificate certID Use in
  writing (Mem_MarkKeyDelivered (sub_TenantID subj) certID).

(** *** Keys and bundles *)
Definition no_stored_key : err :=
  CausedValidationError "issue" "key" "no stored private key for this certificate" ErrNoStoredKey.
Definition DownloadKey (now : Z) (subj : Subjects) (certID : string) : M string :=
  let* _ := az_Check now subj Certificate certID Use in
  let* c := reading (Mem_GetCertificate (sub_TenantID subj) certID) in
  if blen (crt_KeySealed c) =? 0 then st_err no_stored_key
  else st_lift (Open (crt_KeySealed c) (ADCertKey (crt_ID c))).

Definition Download (now : Z) (subj : Subjects) (certID : string) : M Bundle :=
  let* _ := az_Check now subj Certificate certID Read in
  let* row := reading (Mem_GetCertificate (sub_TenantID subj) certID) in
  let* (perms, _, _) := az_Effective now subj Certificate certID in
  let* bundlePEM := (match ParseSPIFFEID (crt_SpiffeID row) with
                     | Ok sid => reading (ca_Bundle (sub_TenantID subj) (sid_TrustDomain sid))
                     | Err _ => st_ret ""
                     end) in
  st_ret (mkBundle (certView now row perms) (crt_CertPEM row) (crt_ChainPEM row) bundlePEM "").

(** Acts for a platform module with the rights of an administrator. *)
Definition DownloadForService (now : Z) (tenantID callerSPIFFE certID : string) (includeKey : bool)
  : M Bundle :=
  let subj := mkSubjects tenantID "" ["admin"] callerSPIFFE in
  let* b := Download now subj certID in
  if includeKey then let* key := DownloadKey now subj certID in st_ret (b <| b_KeyPEM := key |>)
  else st_ret b.

(** *** Revocation *)
Definition Revoke (now : Z) (subj : Subjects) (certID reason : string) : M unit :=
  let* _ := az_Check now subj Certificate certID Delete in
  let* row := reading (Mem_GetCertificate (sub_TenantID subj) certID) in
  let reason := if reason =s "" then "unspecified" else reason in
  let* _ := Atomic (
    let* _ := writing (Mem_SetCertificateStatus (sub_TenantID subj) certID "revoked" None) in
    let* id := newID in
    let* _ := writing (Mem_InsertRevocation (mkRevocation id (sub_TenantID subj) certID
                         (crt_Serial row) reason now (userPtr subj))) in
    writing (Mem_InsertCertLog [mkCertLogRow now (sub_TenantID subj) certID "revoked"
                                  (crt_IssuerID row) (crt_SpiffeID row) ""])) in
  emit (service_event subj "certificate_revoked" "certificate" certID "ok"
          [("spiffe_id", AStr (crt_SpiffeID row)); ("serial", AStr (crt_Serial row));
           ("reason", AStr reason)]).

(** *** Renewal *)
Context `{AcmeServer}.

Definition renewCert (now : Z) (subj : Subjects) (old : IssuedCertificate) : M Bundle :=
  if crt_Kind old =s "generic" then renewACME now subj old
  else match ParseSPIFFEID (crt_SpiffeID old) with
  | Err _ => st_err (invalid "spiffe_id" "stored SPIFFE ID is invalid")
  | Ok sid =>
    let* issuer := reading (Mem_GetIssuer (sub_TenantID subj) (crt_IssuerID old)) in
    let validity := Z.quot (time_sub (crt_NotAfter old) (crt_NotBefore old)) Second in
    let* b := mint now subj issuer sid
                (mkMintReq (crt_Subject old) "" (stored_sans (crt_SANs old)) validity false false
                   "certificate_renewed" "renewed") in
    let* _ := writing (Mem_SetCertificateStatus (sub_TenantID subj) (crt_ID old) (crt_Status old)
                         (Some (cv_ID (b_Certificate b)))) in
    st_ret b
  end.
Definition Renew (now : Z) (subj : Subjects) (certID : string) : M Bundle :=
  let* _ := az_Check now subj Certificate certID Use in
  let* old := reading (Mem_GetCertificate (sub_TenantID subj) certID) in
  renewCert now subj old.
Definition RenewSystem (now : Z) (tenantID certID : string) : M Bundle :=
  let subj := mkSubjects tenantID "" ["admin"] RenewSystemID in
  let* old := reading (Mem_GetCertificate tenantID certID) in
  renewCert now subj old.
End lifecycle.

(** ** What the operations leave behind *)
Lemma SetCertificateStatus_ok tid id status sup m m' u :
  Mem_SetCertificateStatus tid id status sup m = (Ok u, m') ->
  exists c, m_Certificates m !! id = Some c /\ crt_TenantID c = tid
    /\ m' = m <| m_Certificates :=
         <[id := c <| crt_Status := status |>
                   <| crt_SupersededBy := match sup with Some s => Some s | None => crt_SupersededBy c end |>
                   <| crt_UpdatedAt := m_Now m |>]> (m_Certificates m) |>.
Proof.
  unfold Mem_SetCertificateStatus, fail_write. case_match; [done|].
  destruct (m_Certificates m !! id) as [c|] eqn:E; [|done].
  destruct (crt_TenantID c =s tid) eqn:Ht; simpl; [|done]. bools. intros [= _ <-].
  exists c. split_and!; [done..|]. by destruct sup.
Qed.
Lemma Mem_GetCertificate_ok tid id m c :
  Mem_GetCertificate tid id m = Ok c ->
  exists x, m_Certificates m !! id = Some x /\ crt_TenantID x = tid /\ c = cpCertificate x.
Proof.
  unfold Mem_GetCertificate, fail_read. case_match; [done|].
  destruct (m_Certificates m !! id) as [x|]; [|done]. case_match; [|done]. bools.
  intros [= <-]. eauto.
Qed.

(** What is due for renewal is live: neither superseded nor revoked. *)
Lemma due_live `{Env} now before limit m l id c :
  keyed crt_ID (m_Certificates m) -> m_Certificates m !! id = Some c ->
  Mem_DueForRenewal now before limit m = Ok l -> id ∈ crt_ID <$> l ->
  expires_within now before c = true.
Proof.
  intros Hk Hc. unfold Mem_DueForRenewal, fail_read. case_match; [done|].
  set (all := sortAsc crt_NotAfter crt_ID _). intros [= <-] Hin.
  apply list_elem_of_fmap in Hin as (y & -> & Hy). destruct (sqlLimit_prefix all limit) as [rest Hrest].
  assert (Hy' : y ∈ all) by (rewrite Hrest; set_solver). unfold all, sortAsc in Hy'.
  rewrite elem_of_sort_slice in Hy'. apply list_elem_of_fmap in Hy' as (x & -> & [He Hx]%list_elem_of_filter).
  apply list_elem_of_fmap in Hx as ([k z] & -> & Hz%elem_of_map_range). simpl in *.
  rewrite (Hk _ _ Hz), Hz in Hc. injection Hc as <-. done.
Qed.

Section lifecycle_lemmas.
Context `{Env} `{AcmeServer}.

(** What both kinds of renewal have in common: [c] is stored, then the old
    certificate is marked. *)
Record renewed (now : Z) (subj : Subjects) (old : IssuedCertificate) (w : World) (b : Bundle)
  (w' : World) (c : IssuedCertificate) : Prop := {
  rn_marked : exists m1, m_Certificates m1 = <[crt_ID c := c]> (m_Certificates (wd_mem w))
    /\ Mem_SetCertificateStatus (sub_TenantID subj) (crt_ID old) (crt_Status old) (Some (crt_ID c)) m1
       = (Ok tt, wd_mem w');
  rn_id : crt_ID c = new_id (wd_ids w) /\ cv_ID (b_Certificate b) = crt_ID c;
  rn_tenant : crt_TenantID c = sub_TenantID subj;
  rn_issuer : exists i, Mem_GetIssuer (sub_TenantID subj) (crt_IssuerID old) (wd_mem w) = Ok i
    /\ crt_IssuerID c = iss_ID i;
  rn_live : crt_Status c = "active" /\ crt_SupersededBy c = None;
  rn_event : exists ev, wd_events w' = wd_events w ++ [ev] /\ ev_EventType ev = "certificate_renewed"
    /\ ev_SubjectID ev = crt_ID c;
  rn_svid : crt_Kind old <> "generic" -> exists sid, ParseSPIFFEID (crt_SpiffeID old) = Ok sid
    /\ crt_SpiffeID c = SPIFFEID_String sid /\ crt_NotBefore c = now
    /\ crt_NotAfter c
       = now + clampValidity (Z.quot (time_sub (crt_NotAfter old) (crt_NotBefore old)) Second);
  rn_generic : crt_Kind old = "generic" -> crt_Kind c = "generic" /\ crt_AutoRenew c = crt_AutoRenew old
    /\ crt_Owner c = crt_Owner old;
}.

Lemma renew_svid_ok now subj old w b w' :
  crt_Kind old <> "generic" -> renewCert now subj old w = (Ok b, w') ->
  exists c, renewed now subj old w b w' c.
Proof.
  intros Hg. unfold renewCert. rewrite (proj2 (str_eqb_neq _ _) Hg). intros Hr.
  destruct (ParseSPIFFEID _) as [sid|] eqn:Hsid; [|done].
  apply st_bind_ok in Hr as (issuer & w1 & Hi & Hr). apply reading_ok in Hi as [Hi ->].
  apply st_bind_ok in Hr as (b0 & w1 & Hm & Hr). apply st_bind_ok in Hr as ([] & w2 & Hs & Hr).
  apply st_ret_ok in Hr as [-> ->]. apply writing_ok in Hs as (m2 & Hs & ->).
  apply mint_records in Hm as (c & ev & Hc & He & Het & Hes & Hid & Ht & Hii & Hsp & Hst & Hsup & _
    & Hnb & Hna & _ & _ & _ & Hcv & _).
  exists c. rewrite Hcv in Hs. split; simpl; try done.
  - exists (wd_mem w1). split; [by rewrite Hid|exact Hs].
  - eauto.
  - exists ev. by rewrite Hid.
  - intros _. eauto 10.
Qed.
Lemma renewal_key_frame old w r w' :
  renewal_key old w = (r, w') -> wd_mem w' = wd_mem w /\ wd_events w' = wd_events w.
Proof.
  unfold renewal_key. case_match; [by intros [= _ <-]|].
  unfold st_bind, drawing, st_ret. intros Hr. invert_run Hr; done.
Qed.
Lemma renew_generic_ok now subj old w b w' :
  renewACME now subj old w = (Ok b, w') -> crt_Kind old = "generic" ->
  exists c, renewed now subj old w b w' c.
Proof.
  unfold renewACME. intros Hr Hg. apply st_bind_ok in Hr as (domains & w1 & Hd & Hr).
  apply st_lift_ok in Hd as [Hd ->]. apply st_bind_ok in Hr as (issuer & w1 & Hi & Hr).
  apply reading_ok in Hi as [Hi ->]. apply st_bind_ok in Hr as (client & w1 & Hcl & Hr).
  apply st_lift_ok in Hcl as [_ ->]. apply st_bind_ok in Hr as ([] & w1 & [= _ <-] & Hr).
  apply st_bind_ok in Hr as (certID & w2 & [= <- <-] & Hr). simpl in Hr.
  apply st_bind_ok in Hr as (k & w3 & [Hm3 He3]%renewal_key_frame & Hr).
  apply st_bind_ok in Hr as (csr & w4 & [= _ <-] & Hr).
  apply st_bind_ok in Hr as (der & w5 & Hder & Hr). apply st_lift_ok in Hder as [_ ->].
  apply st_bind_ok in Hr as (blob & w6 & [Hm6 He6]%Seal_frame & Hr).
  apply st_bind_ok in Hr as (chain & w7 & [= _ <-] & Hr).
  apply st_bind_ok in Hr as ([[leafPEM restPEM] leaf] & w8 & Hsp & Hr).
  apply st_lift_ok in Hsp as [_ ->].
  apply st_bind_ok in Hr as ([] & w9 & Hrec & Hr).
  apply record_certificate_ok in Hrec as (Hc & _ & _ & _ & _ & He9 & _).
  apply st_bind_ok in Hr as ([] & w10 & Hs & Hr). apply writing_ok in Hs as (m10 & Hs & ->).
  apply st_bind_ok in Hr as ([] & w11 & Hev & Hr). apply emit_ok in Hev.
  apply st_bind_ok in Hr as (stored & w12 & Hst & Hr). apply reading_ok in Hst as [Hst ->].
  apply st_bind_ok in Hr as (perms & w12 & Hp & Hr).
  assert (w12 = w11) as -> by (by injection Hp as _ <-). apply st_ret_ok in Hr as [-> ->].
  simpl in Hm3, He3, Hm6, He6, Hc, He9, Hev. rewrite Hm6, Hm3 in Hc. rewrite He9, He6, He3 in Hev.
  assert (Hmem : wd_mem w11 = m10) by (by rewrite Hev). rewrite Hmem in Hst.
  apply Mem_GetCertificate_ok in Hst as (x & Hx & _ & ->).
  assert (Hxid : crt_ID x = new_id (wd_ids w)).
  { apply SetCertificateStatus_ok in Hs as (y & Hy & _ & ->). simpl in Hx. rewrite Hc in Hx, Hy.
    destruct (decide (crt_ID old = new_id (wd_ids w))) as [He|He].
    - rewrite He, lookup_insert_eq in *. injection Hy as <-. injection Hx as <-. done.
    - rewrite lookup_insert_ne, lookup_insert_eq in Hx by done. by injection Hx as <-. }
  match type of Hc with _ = <[_ := ?c]> _ => exists c end. split; simpl; try done.
  - exists (wd_mem w9). rewrite Hmem. split; [exact Hc|exact Hs].
  - eauto.
  - eexists. rewrite Hev. split; [reflexivity|done].
Qed.
Lemma renewCert_ok now subj old w b w' :
  renewCert now subj old w = (Ok b, w') -> exists c, renewed now subj old w b w' c.
Proof.
  intros Hr. destruct (decide (crt_Kind old = "generic")) as [Hg|Hg]; [|by apply renew_svid_ok].
  unfold renewCert in Hr. rewrite (proj2 (str_eqb_eq _ _) Hg) in Hr. by apply renew_generic_ok.
Qed.
Lemma Renew_ok now subj id w b w' :
  Renew now subj id w = (Ok b, w') ->
  permitted now subj Certificate id Use (wd_mem w)
  /\ exists x, m_Certificates (wd_mem w) !! id = Some x /\ crt_TenantID x = sub_TenantID subj
       /\ renewCert now subj (cpCertificate x) w = (Ok b, w').
Proof.
  unfold Renew. intros Hr. apply st_bind_ok in Hr as ([] & w0 & Hc & Hr).
  apply az_Check_ok in Hc as [-> Hp]. apply st_bind_ok in Hr as (old & w0 & Hg & Hr).
  apply reading_ok in Hg as [Hg ->]. apply Mem_GetCertificate_ok in Hg as (x & Hx & Ht & ->). eauto.
Qed.

(** The certificates after a renewal: one added, one marked. *)
Lemma renewed_certs now subj old w b w' c id :
  renewed now subj (cpCertificate old) w b w' c ->
  m_Certificates (wd_mem w) !! id = Some old -> crt_ID old = id ->
  m_Certificates (wd_mem w) !! new_id (wd_ids w) = None ->
  exists t, m_Certificates (wd_mem w')
    = <[id := old <| crt_SupersededBy := Some (crt_ID c) |> <| crt_UpdatedAt := t |>]>
        (<[crt_ID c := c]> (m_Certificates (wd_mem w))) /\ crt_ID c <> id.
Proof.
  intros [(m1 & Hm1 & Hs) [Hid _] _ _ _ _ _ _] Ho Hoid Hfresh.
  assert (Hne : crt_ID c <> id) by (rewrite Hid; intros He; rewrite He in Hfresh; congruence).
  apply SetCertificateStatus_ok in Hs as (x & Hx & _ & Hw'). simpl in Hx, Hw'. rewrite Hoid in Hx, Hw'.
  rewrite Hm1, lookup_insert_ne in Hx by done. rewrite Ho in Hx. injection Hx as <-.
  exists (m_Now m1). split; [|done]. rewrite Hw'. simpl. by rewrite Hm1.
Qed.

(** C22. Renewal replaces: a new active certificate from the same issuer and for the
    same tenant is stored, the old one is marked superseded by it and is never
    due for renewal again, no other certificate is touched, and one audit event
    names the new one.  A SPIFFE certificate keeps its identity and, when it is
    one a request could ask for, its lifetime; a generic one keeps its owner and
    its renewal setting. *)
Theorem Renew_supersedes now subj id w b w' :
  wf (wd_mem w) -> m_Certificates (wd_mem w) !! new_id (wd_ids w) = None ->
  Renew now subj id w = (Ok b, w') ->
  exists old new t, m_Certificates (wd_mem w) !! id = Some old
    /\ permitted now subj Certificate id Use (wd_mem w)
    /\ cv_ID (b_Certificate b) = crt_ID new
    /\ m_Certificates (wd_mem w')
       = <[id := old <| crt_SupersededBy := Some (crt_ID new) |> <| crt_UpdatedAt := t |>]>
           (<[crt_ID new := new]> (m_Certificates (wd_mem w)))
    /\ crt_ID new <> id /\ crt_TenantID new = sub_TenantID subj
    /\ crt_IssuerID new = crt_IssuerID old
    /\ crt_Status new = "active" /\ crt_SupersededBy new = None
    /\ (crt_Kind old <> "generic" -> exists sid, ParseSPIFFEID (crt_SpiffeID old) = Ok sid
         /\ crt_SpiffeID new = SPIFFEID_String sid /\ crt_NotBefore new = now
         /\ (forall s, crt_NotAfter old - crt_NotBefore old = s * Second ->
              MinValiditySeconds <= s <= MaxValiditySeconds ->
              crt_NotAfter new - crt_NotBefore new = crt_NotAfter old - crt_NotBefore old))
    /\ (crt_Kind old = "generic" -> crt_Kind new = "generic"
         /\ crt_AutoRenew new = crt_AutoRenew old /\ crt_Owner new = crt_Owner old)
    /\ (forall at_ before limit l, Mem_DueForRenewal at_ before limit (wd_mem w') = Ok l ->
         id ∉ crt_ID <$> l)
    /\ exists ev, wd_events w' = wd_events w ++ [ev] /\ ev_EventType ev = "certificate_renewed"
         /\ ev_SubjectID ev = crt_ID new.
Proof.
  intros Hwf Hfresh (Hp & old & Ho & Ht & Hr)%Renew_ok. apply renewCert_ok in Hr as [c Hren].
  pose proof (wf_certs _ Hwf _ _ Ho) as Hoid.
  destruct (renewed_certs _ _ _ _ _ _ _ _ Hren Ho Hoid Hfresh) as (t & Hcerts & Hne).
  destruct Hren as [_ [Hid Hcv] Hten (i & Hi & Hiss) [Hst Hsup] Hev Hsvid Hgen]. simpl in Hsvid, Hgen.
  apply Mem_GetIssuer_ok in Hi as (y & Hy & _ & ->).
  exists old, c, t. split_and!; try done.
  - rewrite Hiss. exact (wf_issuers _ Hwf _ _ Hy).
  - intros Hk. destruct (Hsvid Hk) as (sid & Hsid & Hsp & Hnb & Hna). exists sid.
    split_and!; [done..|]. intros s Hlife Hrange. rewrite Hna, Hnb, Hlife.
    assert (Hq : Z.quot (time_sub (crt_NotAfter old) (crt_NotBefore old)) Second = s).
    { unfold time_sub. rewrite Hlife.
      unfold MinValiditySeconds, MaxValiditySeconds, Second, int64_min, int64_max in *.
      rewrite Z.min_r, Z.max_r by lia. by apply Z.quot_mul. }
    rewrite Hq, clampValidity_eq. unfold MinValiditySeconds, MaxValiditySeconds in *.
    rewrite decide_False, Z.min_r, Z.max_r by lia. ring.
  - intros a before limit l Hl Hin. assert (Hk : keyed crt_ID (m_Certificates (wd_mem w')))
      by (rewrite Hcerts; repeat (apply keyed_insert; [|done]); apply (wf_certs _ Hwf)).
    eapply due_live in Hin; [|exact Hk|by rewrite Hcerts, lookup_insert_eq|exact Hl].
    unfold expires_within in Hin. bools. done.
Qed.
End lifecycle_lemmas.

(** ** Revocation *)
Section revocation.
Context `{Env}.

Lemma InsertRevocation_ok r m m' u :
  Mem_InsertRevocation r m = (Ok u, m') ->
  (forall k x, m_Revocations m !! k = Some x -> ~ same_revoked x r)
  /\ exists t, m' = m <| m_Revocations := <[rev_ID r := r <| rev_RevokedAt := t |>]> (m_Revocations m) |>
       /\ (rev_RevokedAt r <> 0 -> t = rev_RevokedAt r).
Proof.
  unfold Mem_InsertRevocation, fail_write. case_match; [done|].
  destruct (existsb _ _) eqn:Hn; [done|]. rewrite existsb_range_false in Hn. intros [= _ <-]. split.
  - intros k x Hk [H1 H2]. specialize (Hn k x Hk). simpl in Hn. by rewrite H1, H2, !str_eqb_refl in Hn.
  - unfold IsZero. case_match; bools.
    + exists (m_Now m). done.
    + exists (rev_RevokedAt r). split; [|done]. by destruct r.
Qed.

(** The steps of a successful revocation. *)
Lemma Revoke_ok now subj id reason w w' u :
  Revoke now subj id reason w = (Ok u, w') ->
  permitted now subj Certificate id Delete (wd_mem w)
  /\ exists c t r, m_Certificates (wd_mem w) !! id = Some c /\ crt_TenantID c = sub_TenantID subj
    /\ m_Certificates (wd_mem w')
       = <[id := c <| crt_Status := "revoked" |> <| crt_UpdatedAt := t |>]> (m_Certificates (wd_mem w))
    /\ m_Revocations (wd_mem w') = <[rev_ID r := r]> (m_Revocations (wd_mem w))
    /\ rev_TenantID r = sub_TenantID subj /\ rev_CertificateID r = id /\ rev_Serial r = crt_Serial c
    /\ rev_Reason r = (if reason =s "" then "unspecified" else reason)
    /\ (now <> 0 -> rev_RevokedAt r = now)
    /\ (forall k x, m_Revocations (wd_mem w) !! k = Some x -> ~ same_revoked x r)
    /\ exists ev, wd_events w' = wd_events w ++ [ev] /\ ev_EventType ev = "certificate_revoked"
         /\ ev_SubjectID ev = id.
Proof.
  unfold Revoke. intros Hr. apply st_bind_ok in Hr as ([] & w0 & Hc & Hr).
  apply az_Check_ok in Hc as [-> Hp]. apply st_bind_ok in Hr as (row & w0 & Hg & Hr).
  apply reading_ok in Hg as [Hg ->]. apply Mem_GetCertificate_ok in Hg as (x & Hx & Ht & ->).
  apply st_bind_ok in Hr as ([] & w1 & Htx%Atomic_ok & Hev). apply emit_ok in Hev.
  apply st_bind_ok in Htx as ([] & w2 & Hs & Htx). apply writing_ok in Hs as (m2 & Hs & ->).
  apply st_bind_ok in Htx as (rid & w3 & [= <- <-] & Htx).
  apply st_bind_ok in Htx as ([] & w4 & Hi & Htx). apply writing_ok in Hi as (m4 & Hi & ->).
  apply writing_ok in Htx as (m5 & Hl & ->). simpl in *.
  apply SetCertificateStatus_ok in Hs as (y & Hy & _ & ->). rewrite Hx in Hy. injection Hy as <-.
  apply InsertRevocation_ok in Hi as (Hn & t & -> & Hat). apply InsertCertLog_ok in Hl as ->.
  split; [done|]. rewrite Hev. exists x, (m_Now (wd_mem w)).
  exists (mkRevocation (new_id (wd_ids w)) (sub_TenantID subj) id (crt_Serial x)
            (if reason =s "" then "unspecified" else reason) t (userPtr subj)).
  split_and!; try done. eexists. split; [reflexivity|done].
Qed.

(** Revocation is final and recorded once: the certificate shows as revoked at
    every time from then on and is no longer due for renewal, exactly one
    revocation with its serial and reason is added for it, and no one revokes it
    a second time. *)
Theorem Revoke_final now subj id reason w w' :
  keyed crt_ID (m_Certificates (wd_mem w)) -> Revoke now subj id reason w = (Ok tt, w') ->
  permitted now subj Certificate id Delete (wd_mem w)
  /\ (exists c, m_Certificates (wd_mem w') !! id = Some c /\ forall later, deriveStatus c later = "revoked")
  /\ (forall k, k <> id -> m_Certificates (wd_mem w') !! k = m_Certificates (wd_mem w) !! k)
  /\ (exists r c, m_Revocations (wd_mem w') = <[rev_ID r := r]> (m_Revocations (wd_mem w))
        /\ m_Certificates (wd_mem w) !! id = Some c
        /\ rev_CertificateID r = id /\ rev_Serial r = crt_Serial c /\ rev_Reason r <> "")
  /\ (forall at_ before limit l, Mem_DueForRenewal at_ before limit (wd_mem w') = Ok l ->
        id ∉ crt_ID <$> l)
  /\ (forall later subj' reason', sub_TenantID subj' = sub_TenantID subj ->
        is_ok (Revoke later subj' id reason' w').1 = false).
Proof.
  intros Hk (Hp & c & t & r & Hc & Ht & Hcs & Hrs & Hrt & Hrc & Hrs' & Hre & _ & Hn & _)%Revoke_ok.
  split_and!; [done| | | | |].
  - eexists. rewrite Hcs, lookup_insert_eq. split; [done|]. intros later. reflexivity.
  - intros k Hne. by rewrite Hcs, lookup_insert_ne.
  - exists r, c. split_and!; try done. rewrite Hre. by destruct (reason =s "") eqn:E; bools.
  - intros a before limit l Hl Hin. assert (Hk' : keyed crt_ID (m_Certificates (wd_mem w')))
      by (rewrite Hcs; apply keyed_insert; [done|by apply (Hk _ _ Hc)]).
    eapply due_live in Hin; [|exact Hk'|by rewrite Hcs, lookup_insert_eq|exact Hl].
    unfold expires_within in Hin. bools. done.
  - intros later subj' reason' Hten.
    destruct (Revoke later subj' id reason' w') as [[[]|e] w2] eqn:E; [exfalso|done].
    apply Revoke_ok in E as (_ & c2 & t2 & r2 & _ & _ & _ & _ & Hrt2 & Hrc2 & _ & _ & _ & Hn2 & _).
    apply (Hn2 (rev_ID r) r); [by rewrite Hrs, lookup_insert_eq|]. split; congruence.
Qed.
End revocation.

(** ** Custody of the private key *)
Section custody.
Context `{Env}.

(** A generated key is sealed under the identifier of its certificate. *)
Lemma mint_key_opens `{!EnvLaws} certID req w pub ks k w' :
  mint_key certID req w = (Ok (pub, ks, k), w') -> mr_csrPEM req = "" ->
  exists pemKey, Open ks (ADCertKey certID) = Ok pemKey /\ blen ks <> 0
    /\ (k = pemKey \/ k = "").
Proof.
  unfold mint_key. intros Hr Hc. rewrite Hc in Hr. simpl in Hr.
  apply st_bind_ok in Hr as ([priv pub'] & w1 & [= _ <-] & Hr).
  apply st_bind_ok in Hr as (der & w2 & Hm & Hr). apply st_lift_ok in Hm as [_ ->].
  apply st_bind_ok in Hr as (blob & w3 & Hs & Hr). apply st_ret_ok in Hr as [[= -> -> ->] ->].
  apply Seal_opens in Hs. exists (pem_encode "PRIVATE KEY" der). split_and!; [done| |].
  - intros Hb. assert (blob = "") as ->.
    { destruct blob; [done|]. unfold blen, str_len in Hb. simpl in Hb. lia. }
    unfold Open in Hs. simpl in Hs. discriminate Hs.
  - destruct (mr_deliverKey req); auto.
Qed.

(** A key retained at issuance is stored sealed, and opens to the key delivered. *)
Lemma mint_retained `{!EnvLaws} now subj issuer sid req w b w' :
  mint now subj issuer sid req w = (Ok b, w') -> mr_retainKey req = true -> b_KeyPEM b <> "" ->
  exists x, m_Certificates (wd_mem w') !! new_id (wd_ids w) = Some x
    /\ blen (cloneBytes (crt_KeySealed x)) <> 0
    /\ Open (cloneBytes (crt_KeySealed x)) (ADCertKey (new_id (wd_ids w))) = Ok (b_KeyPEM b).
Proof.
  intros (caid & caRow & signer & caCert & certID & pub & ks & kp & serial & der & cn & w1 & w2 & _
    & _ & _ & _ & -> & Hkey & Hm2 & _ & w3 & Hrec & _ & Hmark & _ & Hkp)%mint_ok Hret Hne.
  rewrite Hret, andb_false_r in Hmark. destruct Hmark as [Hw' _]. rewrite Hkp in Hne |- *.
  pose proof (mint_key_frame _ _ _ _ _ _ _ Hkey) as (_ & _ & Hcsr & _).
  assert (Hc : mr_csrPEM req = "") by (destruct (decide (mr_csrPEM req = "")); [done|naive_solver]).
  destruct (mint_key_opens _ _ _ _ _ _ _ Hkey Hc) as (pemKey & Ho & Hb & [-> | ->]); [|done].
  apply record_certificate_ok in Hrec as (Hcs & _). rewrite Hw', Hcs. simpl crt_ID.
  rewrite lookup_insert_eq. eexists. split; [reflexivity|]. simpl.
  destruct ks as [blob|]; [|done]. simpl. destruct (blob =s "") eqn:E; bools; [by subst|].
  simpl. by rewrite (proj2 (str_eqb_neq _ _) E).
Qed.

(** On a store without injected failures a caller who may use the certificate is
    let through to its row. *)
Lemma DownloadKey_row now subj id w x :
  m_Fail (wd_mem w) = ∅ -> m_Certificates (wd_mem w) !! id = Some x ->
  crt_TenantID x = sub_TenantID subj -> permitted now subj Certificate id Use (wd_mem w) ->
  DownloadKey now subj id w
  = (if blen (cloneBytes (crt_KeySealed x)) =? 0 then Err no_stored_key
     else Open (cloneBytes (crt_KeySealed x)) (ADCertKey (crt_ID x)), w).
Proof.
  intros Hf Hx Ht Hp. assert (Hc : az_Check now subj Certificate id Use w = (Ok tt, w)).
  { unfold az_Check, reading. f_equal. unfold authz_Check. simpl.
    destruct (resolve now subj Certificate id (wd_mem w)) as [[[p rel] src]|e] eqn:Hres; simpl.
    - apply (resolve_permitted _ _ _ _ _ _ _ _ Use Hres) in Hp. by rewrite Hp.
    - unfold resolve, locate, notFound, as_GetCertificate, as_GrantsOnResource, mem_authz,
        Mem_GetCertificate, Mem_GrantsOnResource, fail_read in Hres.
      rewrite Hf, !lookup_empty, Hx, Ht in Hres. simpl in Hres. rewrite str_eqb_refl in Hres. done. }
  unfold DownloadKey, st_bind. rewrite Hc. unfold reading, Mem_GetCertificate, fail_read.
  rewrite Hf, lookup_empty, Hx, Ht, str_eqb_refl. simpl. by case_match.
Qed.
Lemma DownloadKey_absent now subj id w :
  (forall x, m_Certificates (wd_mem w) !! id = Some x -> crt_KeySealed x = None) ->
  exists e, DownloadKey now subj id w = (Err e, w).
Proof.
  intros Hk. unfold DownloadKey, st_bind, az_Check, reading.
  destruct (authz_Check _ _ _ _ _ _) as [[]|e]; [|eauto].
  destruct (Mem_GetCertificate _ _ _) as [c|e] eqn:Hg; [|eauto].
  apply Mem_GetCertificate_ok in Hg as (x & Hx & _ & ->). simpl. rewrite (Hk x Hx). simpl.
  unfold st_err. eauto.
Qed.

End custody.

(** ** Witnesses: the certificate of the issuance sample, renewed and revoked *)
Module LifeSample.
Import Toy IssueSample IssuerSample AcmeSample.
#[local] Existing Instance toy_env.
#[local] Existing Instance toy_server.
Definition web : string := cv_ID (b_Certificate issued.1).
Definition web_row : IssuedCertificate := default sample_cert (m_Certificates (wd_mem issued.2) !! web).
Definition web_grant : Grant :=
  default (mkGrant "" "" "" "" "" "" "" None 0 None)
    (snd <$> head (map_to_list (m_Grants (wd_mem issued.2)))).
Lemma issued_wf : wf (wd_mem issued.2).
Proof.
  replace (wd_mem issued.2)
    with (run_op (OpMarkKeyDelivered "t1" web) (run_op (OpUpsertGrant web_grant)
            (run_op (OpInsertCertLog (m_CertLog (wd_mem issued.2)))
              (run_op (OpInsertCertificate (web_row <| crt_KeySealed := Some "x" |> <| crt_KeyDelivered := false |>))
                 (wd_mem ready)))))
    by (vm_compute; reflexivity).
  repeat (apply run_op_wf || apply (proj1 ready_wf) || reflexivity).
Qed.

Definition no_bundle : Bundle := mkBundle (certView 0 sample_cert no_permissions) "" "" "" "".
Definition renewed_web : Bundle * World := run no_bundle (Renew 1000 admin web) issued.2.
Lemma renewed_run : Renew 1000 admin web issued.2 = (Ok renewed_web.1, renewed_web.2).
Proof. vm_compute. reflexivity. Qed.
Lemma Renew_supersedes_witness :
  exists new, cv_ID (b_Certificate renewed_web.1) = crt_ID new /\ crt_ID new <> web
    /\ crt_Status new = "active" /\ crt_SupersededBy new = None.
Proof.
  destruct (Renew_supersedes 1000 admin web issued.2 renewed_web.1 renewed_web.2 issued_wf eq_refl
              renewed_run) as (old & new & t & _ & _ & Hb & _ & Hne & _ & _ & Hs & Hsup & _).
  exists new. split; [exact Hb|]. split; [exact Hne|]. split; [exact Hs|exact Hsup].
Defined.

Definition revoked_web : World := (Revoke 2000 admin web "" issued.2).2.
Lemma revoked_run : Revoke 2000 admin web "" issued.2 = (Ok tt, revoked_web).
Proof. vm_compute. reflexivity. Qed.
Lemma Revoke_final_witness :
  is_ok (Revoke 3000 admin web "again" revoked_web).1 = false
  /\ exists c, m_Certificates (wd_mem revoked_web) !! web = Some c
       /\ forall later, deriveStatus c later = "revoked".
Proof.
  destruct (Revoke_final 2000 admin web "" issued.2 revoked_web (wf_certs _ issued_wf) revoked_run)
    as (_ & Hc & _ & _ & _ & Ht).
  split; [exact (Ht 3000 admin "again" eq_refl)|exact Hc].
Defined.
(** A revoked certificate can still be renewed: the stored status is not consulted. *)
Example revoked_renews : is_ok (Renew 3000 admin web revoked_web).1 = true.
Proof. vm_compute. reflexivity. Qed.
(** The in-memory store drops a change of the renewal setting. *)
Example auto_renew_dropped :
  (run (certView 0 sample_cert no_permissions)
     (UpdateCertificate 20 admin web (mkCertificateUpdate "" (Some false))) issued.2).1
  = (run (certView 0 sample_cert no_permissions) (GetCertificate 20 admin web) issued.2).1
  /\ cv_AutoRenew (run (certView 0 sample_cert no_permissions)
       (UpdateCertificate 20 admin web (mkCertificateUpdate "" (Some false))) issued.2).1 = true.
Proof. split; vm_compute; reflexivity. Qed.

End LifeSample.
