(* ===== verification/Renew.v ===== *)
(** The renewal scheduler: internal/renew/renew.go, with the adapter of
    internal/app/adapters.go that runs it over the issuance service.

    The workers of a pass call [Renew] on distinct certificates; a call is one step
    and the order in which the calls take effect is arbitrary. *)

From Stdlib Require Import SpecFloat.
From S2P Require Import Prelude Rows Memstore MemstoreInv MemstoreList Authz GoJson GoUrl AuditLog.
From S2P Require Import Csr Sealed World Footprint Ca IssueBase Domains Providers Acme ImportCert Lifecycle.

(** ** float64 *)
Definition f64 : Type := spec_float.
Definition f64_of_Z (z : Z) : f64 := binary_normalize 53 1024 z 0 false.
Definition f64_mul : f64 -> f64 -> f64 := SFmul 53 1024.
Definition f64_sub : f64 -> f64 -> f64 := SFsub 53 1024.
Definition half : f64 := binary_normalize 53 1024 1 (-1) false.
(** [int64(x)]: truncated; what does not fit gives the value amd64 gives. *)
Definition f64_trunc (x : f64) : Z :=
  match x with
  | S754_zero _ => 0
  | S754_finite s m e =>
    let v := if 0 <=? e then Z.pos m * 2 ^ e else Z.pos m / 2 ^ (- e) in
    let v := if s then - v else v in
    if (int64_min <=? v) && (v <=? int64_max) then v else int64_min
  | _ => int64_min
  end.

(** ** The scheduler *)
Definition systemSpiffe : string := "spiffe://system/lcm/renew".
Definition maxBatch : Z := 256.
Record RenewConfig := mkRenewConfig {
  rc_Interval : Z; rc_Workers : Z; rc_ShortLivedFraction : f64; rc_LongLivedWindow : Z;
}.
Definition NewRenewScheduler (c : RenewConfig) : RenewConfig :=
  mkRenewConfig (if rc_Interval c <=? 0 then 15 * Second else rc_Interval c)
    (if rc_Workers c <=? 0 then 1 else rc_Workers c)
    (if SFleb (rc_ShortLivedFraction c) (f64_of_Z 0) || SFleb (f64_of_Z 1) (rc_ShortLivedFraction c)
     then half else rc_ShortLivedFraction c)
    (if rc_LongLivedWindow c <=? 0 then 30 * 24 * 3600 * Second else rc_LongLivedWindow c).

Definition long_window (cfg : RenewConfig) (ttl : Z) : Z :=
  let w := f64_trunc (f64_mul (f64_of_Z ttl) (f64_sub (f64_of_Z 1) (rc_ShortLivedFraction cfg))) in
  if w <? rc_LongLivedWindow cfg then rc_LongLivedWindow cfg else w.
Definition window (cfg : RenewConfig) (cert : IssuedCertificate) : Z :=
  let totalTTL := time_sub (crt_NotAfter cert) (crt_NotBefore cert) in
  if totalTTL <=? 0 then rc_LongLivedWindow cfg
  else if totalTTL <=? rc_LongLivedWindow cfg
  then f64_trunc (f64_mul (f64_of_Z totalTTL) (rc_ShortLivedFraction cfg))
  else long_window cfg totalTTL.
Definition Due (cfg : RenewConfig) (cert : IssuedCertificate) (now : Z) : bool :=
  negb (Before now (crt_NotAfter cert + - window cfg cert)).
Definition maxWindow (cfg : RenewConfig) : Z := long_window cfg (MaxValiditySeconds * Second).

(** The event of a success. *)
Record Renewal := mkRenewal {
  rw_Tenant : string; rw_Type : string; rw_CertificateID : string; rw_SpiffeID : string; rw_NotAfter : Z;
}.

(** What the scheduler calls: a renewal of one certificate for the subjects. *)
Class Renewer `{Env} := renewer_Renew : Subjects -> string -> M Bundle.

Section renew.
Context `{Env} `{!Renewer}.
Context (cfg : RenewConfig) (publisher : bool).

Definition renewOne (cert : IssuedCertificate) : M (bool * list Renewal) :=
  let subj := mkSubjects (crt_TenantID cert) "" [] systemSpiffe in
  let* r := st_try (renewer_Renew subj (crt_ID cert)) in
  match r with
  | Err _ => st_ret (false, [])
  | Ok b =>
    let v := b_Certificate b in
    st_ret (true, if publisher
                  then [mkRenewal (crt_TenantID cert) "renewed" (cv_ID v) (cv_SpiffeID v) (cv_NotAfter v)]
                  else [])
  end.
(** The workers, in the order their renewals take effect. *)
Fixpoint renew_all (certs : list IssuedCertificate) (n : Z) (pubs : list Renewal) : M (Z * list Renewal) :=
  match certs with
  | [] => st_ret (n, pubs)
  | cert :: certs =>
    let* (ok, evs) := renewOne cert in
    renew_all certs (if ok then n + 1 else n) (pubs ++ evs)
  end.
(** A pass; [stop] certificates are handed out before the context ends, and [order]
    is the order in which the workers serve them. *)
Definition RunOnce (now : Z) (stop : nat) (order : list IssuedCertificate -> list IssuedCertificate)
  : M (Z * list Renewal) :=
  let* rows := reading (Mem_DueForRenewal now (now + maxWindow cfg) maxBatch) in
  let due := List.filter (fun c => Due cfg c now) rows in
  renew_all (order (take stop due)) 0 [].
End renew.

(** [sysRenewer]: the issuance service acting for the system. *)
Definition sysRenewer `{Env} `{AcmeServer} (now : Z) : Renewer :=
  fun subj certID => RenewSystem now (sub_TenantID subj) certID.
(** The issuance service itself, for the subjects given. *)
Definition serviceRenewer `{Env} `{AcmeServer} (now : Z) : Renewer := Renew now.

(** ** What a renewal may change

    Certificates are added only under identifiers the call itself draws, and of the
    existing ones only the one renewed is changed. *)
Notation cert_changes old := (changes m_Certificates crt_ID (fun id => id = old)).
Section renewal_footprint.
Context `{Env}.
Lemma changes_GrantOwner old n0 n t rt rid u : cert_changes old n0 n (az_GrantOwner t rt rid u).
Proof.
  unfold az_GrantOwner. case_match; [apply changes_ret|]. apply changes_newID. intros j Hj.
  apply changes_elsewhere. intros m. unfold authz_GrantOwner, st_bind, st_ret.
  case_match; [done|]. destruct (as_UpsertGrant _ _) as [[]?] eqn:Hg; apply UpsertGrant_frame in Hg;
    simpl; by rewrite Hg.
Qed.
Lemma changes_InsertCertLog old n0 n l : cert_changes old n0 n (writing (Mem_InsertCertLog l)).
Proof. apply changes_elsewhere. intros m. unfold Mem_InsertCertLog, fail_write. by case_match. Qed.
Lemma changes_MarkKeyDelivered old n0 n t id :
  drawn n0 n id -> cert_changes old n0 n (writing (Mem_MarkKeyDelivered t id)).
Proof.
  intros Hd. eapply (changes_row _ _ _ _ _ _ id); [|by right]. intros m.
  unfold Mem_MarkKeyDelivered, fail_write. one_row.
Qed.
Lemma changes_SetCertificateStatus n0 n t id st sup :
  cert_changes id n0 n (writing (Mem_SetCertificateStatus t id st sup)).
Proof.
  eapply (changes_row _ _ _ _ _ _ id); [|by left]. intros m.
  unfold Mem_SetCertificateStatus, fail_write. one_row.
Qed.
Lemma changes_record old n0 n row log u :
  drawn n0 n (crt_ID row) -> cert_changes old n0 n (record_certificate row log u).
Proof.
  intros Hd. unfold record_certificate. apply changes_Atomic, changes_bind.
  - eapply (changes_row _ _ _ _ _ _ (crt_ID row)); [|by right]. intros m.
    unfold Mem_InsertCertificate, fail_write. one_row.
  - intros _. apply changes_bind; [apply changes_InsertCertLog|intros _; apply changes_GrantOwner].
Qed.
End renewal_footprint.
#[export] Hint Resolve changes_GrantOwner changes_InsertCertLog changes_MarkKeyDelivered changes_SetCertificateStatus
  changes_record : footprint.

Section renewals.
Context `{Env} `{AcmeServer}.
Lemma changes_mint old n0 n now subj issuer sid req : (n0 <= n)%nat -> cert_changes old n0 n (mint now subj issuer sid req).
Proof.
  intros Hn. unfold mint, mint_key, az_Effective. follow;
    (first [apply changes_record|apply changes_MarkKeyDelivered]; apply drawn_now; lia).
Qed.
Lemma changes_renewACME n0 n now subj old : (n0 <= n)%nat -> cert_changes (crt_ID old) n0 n (renewACME now subj old).
Proof.
  intros Hn. unfold renewACME, renewal_key, effective_or_none, az_Effective. follow.
  apply changes_record. apply drawn_now. lia.
Qed.
Lemma changes_renewCert n0 n now subj old : (n0 <= n)%nat -> cert_changes (crt_ID old) n0 n (renewCert now subj old).
Proof.
  intros Hn. unfold renewCert. case_match; [by apply changes_renewACME|]. case_match; [|apply changes_err].
  apply changes_bind; [apply changes_reading|intros issuer].
  apply changes_bind; [by apply changes_mint|intros b]. follow.
Qed.
End renewals.

(** ** The contract of a renewer, and the pass proved against it *)

(** The certificate [id] has been replaced by [new]. *)
Definition replaces (tenant id : string) (new : IssuedCertificate) (before after : gmap string IssuedCertificate) : Prop :=
  exists old t, before !! id = Some old
    /\ after !! id = Some (old <| crt_SupersededBy := Some (crt_ID new) |> <| crt_UpdatedAt := t |>)
    /\ after !! crt_ID new = Some new /\ crt_TenantID new = tenant
    /\ crt_Status new = "active" /\ crt_SupersededBy new = None.
Definition certs (w : World) : gmap string IssuedCertificate := m_Certificates (wd_mem w).
Class RenewerLaws `{Env} `{!Renewer} : Prop := {
  renewer_frame subj id w :
    keyed crt_ID (certs w) ->
    let w' := (renewer_Renew subj id w).2 in
    (wd_ids w <= wd_ids w')%nat /\ grows crt_ID (certs w) (certs w')
    /\ forall id', id' <> id -> ~ drawn (wd_ids w) (wd_ids w') id' -> certs w' !! id' = certs w !! id';
  renewer_ok subj id w b w' :
    keyed crt_ID (certs w) -> certs w !! new_id (wd_ids w) = None -> renewer_Renew subj id w = (Ok b, w') ->
    exists new, replaces (sub_TenantID subj) id new (certs w) (certs w')
      /\ crt_ID new = new_id (wd_ids w) /\ cv_ID (b_Certificate b) = crt_ID new;
}.

Section discharged.
Context `{Env} `{AcmeServer}.
Lemma renewCert_frame now subj id w old :
  keyed crt_ID (certs w) -> certs w !! id = Some old ->
  let w' := (renewCert now subj (cpCertificate old) w).2 in
  (wd_ids w <= wd_ids w')%nat /\ grows crt_ID (certs w) (certs w')
  /\ forall id', id' <> id -> ~ drawn (wd_ids w) (wd_ids w') id' -> certs w' !! id' = certs w !! id'.
Proof.
  intros Hk Ho w'. destruct (changes_renewCert (wd_ids w) (wd_ids w) now subj (cpCertificate old) (le_n _) w (le_n _))
    as (H1 & H2 & H3).
  split_and!; [done|exact H2|]. intros id' Hne. apply H3. simpl. by rewrite (Hk _ _ Ho).
Qed.
Lemma renewCert_replaces now subj id w old b w' :
  keyed crt_ID (certs w) -> certs w !! new_id (wd_ids w) = None -> certs w !! id = Some old ->
  renewCert now subj (cpCertificate old) w = (Ok b, w') ->
  exists new, replaces (sub_TenantID subj) id new (certs w) (certs w')
    /\ crt_ID new = new_id (wd_ids w) /\ cv_ID (b_Certificate b) = crt_ID new.
Proof.
  intros Hk Hf Ho Hr. apply renewCert_ok in Hr as [c Hren]. exists c.
  destruct (renewed_certs _ _ _ _ _ _ _ _ Hren Ho (Hk _ _ Ho) Hf) as (t & Hc & Hne).
  destruct Hren as [_ [Hid Hcv] Hten _ [Hst Hsup] _ _ _]. split; [|done]. exists old, t. unfold certs. rewrite Hc.
  split_and!; try done; [apply lookup_insert_eq|]. rewrite lookup_insert_ne by congruence. apply lookup_insert_eq.
Qed.
(** Both ways of renewing through the issuance service keep the contract. *)
Lemma sysRenewer_laws now : @RenewerLaws _ (sysRenewer now).
Proof.
  split; unfold renewer_Renew, sysRenewer, RenewSystem.
  - intros subj id w Hk. unfold st_bind, reading.
    destruct (Mem_GetCertificate _ _ _) as [old|e] eqn:Hg; [|by split_and!].
    apply Mem_GetCertificate_ok in Hg as (x & Hx & _ & ->). by apply (renewCert_frame now _ id w x).
  - intros subj id w b w' Hk Hf Hr. apply st_bind_ok in Hr as (old & w0 & Hg & Hr). apply reading_ok in Hg as [Hg ->].
    apply Mem_GetCertificate_ok in Hg as (x & Hx & _ & ->).
    exact (renewCert_replaces now (mkSubjects (sub_TenantID subj) "" ["admin"] RenewSystemID) id w x b w' Hk Hf Hx Hr).
Qed.
Lemma serviceRenewer_laws now : @RenewerLaws _ (serviceRenewer now).
Proof.
  split; unfold renewer_Renew, serviceRenewer.
  - intros subj id w Hk. unfold Renew, st_bind, reading. destruct (az_Check _ _ _ _ _ w) as [[]w0] eqn:Hc;
      injection Hc as _ <-; [|by split_and!].
    destruct (Mem_GetCertificate _ _ _) as [old|e] eqn:Hg; [|by split_and!].
    apply Mem_GetCertificate_ok in Hg as (x & Hx & _ & ->). by apply (renewCert_frame now _ id w x).
  - intros subj id w b w' Hk Hf (_ & x & Hx & _ & Hr)%Renew_ok. by eapply renewCert_replaces.
Qed.
End discharged.

Section pass.
Context `{Env} `{!Renewer} {laws : RenewerLaws} (cfg : RenewConfig) (publisher : bool).
(** Identifiers not drawn yet are unused. *)
Definition unused (w : World) : Prop := forall k, (wd_ids w <= k)%nat -> certs w !! new_id k = None.
Context (ids_distinct : forall j k, new_id j = new_id k -> j = k).

(** The renewal [p] of certificate [c], between two states. *)
Definition renewal_of (c : IssuedCertificate) (p : Renewal) (before after : gmap string IssuedCertificate) : Prop :=
  rw_Tenant p = crt_TenantID c /\ rw_Type p = "renewed"
  /\ exists new, rw_CertificateID p = crt_ID new /\ before !! crt_ID new = None
       /\ replaces (crt_TenantID c) (crt_ID c) new before after.
(** The renewals [ds] of certificates of [l], and nothing else of what was there. *)
Record outcome (l : list IssuedCertificate) (w : World) (ds : list (IssuedCertificate * Renewal)) (w' : World) : Prop := {
  oc_keyed : keyed crt_ID (certs w');
  oc_unused : unused w';
  oc_kept id : is_Some (certs w !! id) -> id ∉ crt_ID <$> l -> certs w' !! id = certs w !! id;
  oc_there id : is_Some (certs w !! id) -> is_Some (certs w' !! id);
  oc_of : sublist (fst <$> ds) l;
  oc_renewed c p : (c, p) ∈ ds -> renewal_of c p (certs w) (certs w');
}.
(** The calls of a pass: every certificate is served once, one after the other, whatever
    the calls before it returned. *)
Definition renewal_subject (c : IssuedCertificate) : Subjects := mkSubjects (crt_TenantID c) "" [] systemSpiffe.
Inductive serves : list IssuedCertificate -> World -> list (res Bundle) -> World -> Prop :=
| serves_nil w : serves [] w [] w
| serves_cons c l w r w1 rs w' :
    renewer_Renew (renewal_subject c) (crt_ID c) w = (r, w1) -> serves l w1 rs w' -> serves (c :: l) w (r :: rs) w'.
(** The renewals that succeeded. *)
Definition succeeded (l : list IssuedCertificate) (rs : list (res Bundle)) : list (IssuedCertificate * Renewal) :=
  omap (fun x : IssuedCertificate * res Bundle =>
    match x.2 with
    | Ok b => Some (x.1, mkRenewal (crt_TenantID x.1) "renewed" (cv_ID (b_Certificate b)) (cv_SpiffeID (b_Certificate b))
                           (cv_NotAfter (b_Certificate b)))
    | Err _ => None
    end) (zip l rs).
Lemma outcome_nil w : keyed crt_ID (certs w) -> unused w -> outcome [] w [] w.
Proof. intros Hk Hu. split; try done. intros c p Hcp. by apply elem_of_nil in Hcp. Qed.
Lemma outcome_app l1 l2 w ds1 w1 ds2 w2 :
  outcome l1 w ds1 w1 -> outcome l2 w1 ds2 w2 -> NoDup (crt_ID <$> l1 ++ l2) ->
  (forall c, c ∈ l2 -> is_Some (certs w !! crt_ID c)) -> outcome (l1 ++ l2) w (ds1 ++ ds2) w2.
Proof.
  intros [K1 U1 P1 T1 S1 R1] [K2 U2 P2 T2 S2 R2] Hnd Hin. rewrite fmap_app in Hnd.
  apply NoDup_app in Hnd as (_ & Hdis & _). split; try done.
  - intros id Hs Hni. rewrite fmap_app, not_elem_of_app in Hni. destruct Hni as [H1 H2].
    rewrite P2; [by apply P1|by apply T1|done].
  - eauto.
  - rewrite fmap_app. by apply sublist_app.
  - intros c p [Hcp|Hcp]%elem_of_app.
    + destruct (R1 c p Hcp) as (E1 & E2 & new & E3 & Hf & old & t & H1 & H2 & H3 & H4).
      split_and!; [done|done|]. exists new. split_and!; [done|done|]. exists old, t. split_and!; [done| | |tauto..].
      * rewrite P2; [done|by rewrite H2|]. intros Hx. apply (Hdis (crt_ID c)); [|done].
        apply list_elem_of_fmap_2. eapply elem_of_sublist; [|exact S1]. apply list_elem_of_fmap. by exists (c, p).
      * rewrite P2; [done|by rewrite H3|]. intros (x & Ex & Hx)%list_elem_of_fmap.
        destruct (Hin x Hx) as [y Hy]. congruence.
    + destruct (R2 c p Hcp) as (E1 & E2 & new & E3 & Hf & old & t & H1 & H2).
      split_and!; [done|done|]. exists new. split_and!; [done| |].
      * apply eq_None_not_Some. intros Hs. apply T1 in Hs. by apply eq_None_not_Some in Hf.
      * exists old, t. rewrite <- P1; [done| |].
        -- apply Hin. eapply elem_of_sublist; [|exact S2]. apply list_elem_of_fmap. by exists (c, p).
        -- intros Hx. apply (Hdis (crt_ID c) Hx). apply list_elem_of_fmap_2.
           eapply elem_of_sublist; [|exact S2]. apply list_elem_of_fmap. by exists (c, p).
Qed.
Lemma renewOne_outcome c w :
  keyed crt_ID (certs w) -> unused w -> is_Some (certs w !! crt_ID c) ->
  exists r w', renewer_Renew (renewal_subject c) (crt_ID c) w = (r, w')
    /\ let ds := succeeded [c] [r] in
       renewOne publisher c w = (Ok (bool_decide (ds <> []), if publisher then snd <$> ds else []), w')
       /\ (length ds <= 1)%nat /\ outcome [c] w ds w'.
Proof using ids_distinct laws.
  intros Hk Hu Hc. set (subj := renewal_subject c).
  pose proof (renewer_frame subj (crt_ID c) w Hk) as Hfr. unfold renewOne. change (mkSubjects _ _ _ _) with subj. unfold st_bind, st_try.
  destruct (renewer_Renew subj (crt_ID c) w) as [r w'] eqn:Hr. simpl in Hfr. destruct Hfr as (Hle & [Hk' Ht'] & Hfr).
  assert (Hold : forall id, is_Some (certs w !! id) -> id <> crt_ID c -> certs w' !! id = certs w !! id).
  { intros id Hs Hne. apply Hfr; [done|]. intros (j & Hj & ->). rewrite Hu in Hs by lia. by destruct Hs. }
  assert (Hu' : unused w').
  { intros k Hw'. rewrite Hfr; [apply Hu; lia| |intros (j & Hj & E%ids_distinct); lia].
    intros He. rewrite <- He, Hu in Hc by lia. by destruct Hc. }
  assert (Hrest : forall ds, sublist (fst <$> ds) [c] -> (forall c p, (c, p) ∈ ds -> renewal_of c p (certs w) (certs w')) ->
    outcome [c] w ds w').
  { intros ds Hs Hd. split; auto. intros id Hid Hni. apply Hold; [done|]. set_solver. }
  exists r, w'. split; [done|]. destruct r as [b|e]; cbv zeta; unfold succeeded; cbn [zip zip_with omap list_omap snd fst].
  - destruct (renewer_ok subj (crt_ID c) w b w' Hk (Hu _ (le_n _)) Hr) as (new & Hrep & Hnew & Hcv).
    split_and!; [by destruct publisher|simpl; lia|]. apply Hrest; [done|].
    intros c' p' [= -> ->]%list_elem_of_singleton. split_and!; [done|done|]. exists new.
    split_and!; [done|rewrite Hnew; apply Hu; lia|done].
  - split_and!; [by destruct publisher|simpl; lia|]. apply Hrest; [by repeat constructor|].
    intros c' p' Hcp. by apply elem_of_nil in Hcp.
Qed.
Lemma renew_all_outcome l : forall n pubs w,
  keyed crt_ID (certs w) -> unused w -> NoDup (crt_ID <$> l) ->
  (forall c, c ∈ l -> is_Some (certs w !! crt_ID c)) ->
  exists rs w', serves l w rs w' /\ let ds := succeeded l rs in
    renew_all publisher l n pubs w = (Ok (n + Z.of_nat (length ds), pubs ++ if publisher then snd <$> ds else []), w')
    /\ outcome l w ds w'.
Proof using ids_distinct laws.
  induction l as [|c l IH]; intros n pubs w Hk Hu Hnd Hin.
  { exists [], w. split; [constructor|]. split; [|by apply outcome_nil]. simpl. rewrite Z.add_0_r. by destruct publisher; rewrite app_nil_r. }
  destruct (renewOne_outcome c w Hk Hu (Hin c ltac:(set_solver))) as (r1 & w1 & Hr1 & H1 & Hlen & Ho1). set (ds1 := succeeded [c] [r1]) in *.
  pose proof (fun x (Hx : x ∈ l) => Hin x ltac:(set_solver)) as Hin'.
  destruct (IH (if bool_decide (ds1 <> []) then n + 1 else n) (pubs ++ if publisher then snd <$> ds1 else []) w1
              (oc_keyed _ _ _ _ Ho1) (oc_unused _ _ _ _ Ho1)) as (rs & w2 & Hsv & H2 & Ho2).
  { rewrite fmap_cons in Hnd. by apply NoDup_cons in Hnd as [_ ?]. }
  { intros x Hx. apply (oc_there _ _ _ _ Ho1). by apply Hin'. }
  set (ds2 := succeeded l rs) in *. exists (r1 :: rs), w2. split; [by econstructor|]. assert (Hds : succeeded (c :: l) (r1 :: rs) = ds1 ++ ds2) by (by destruct r1).
  cbv zeta. rewrite Hds. split; [|by apply (outcome_app [c] l w ds1 w1)].
  simpl. unfold st_bind. rewrite H1, H2. f_equal. f_equal. f_equal.
  - rewrite length_app. destruct r1; simpl; lia.
  - rewrite <- app_assoc. by destruct publisher; rewrite ?fmap_app.
Qed.

(** The rows a scan returns: live, expiring certificates, each once. *)
Lemma DueForRenewal_rows at_ before limit w l :
  keyed crt_ID (certs w) -> 0 < limit -> Mem_DueForRenewal at_ before limit (wd_mem w) = Ok l ->
  NoDup (crt_ID <$> l) /\ Z.of_nat (length l) <= limit
  /\ forall c, c ∈ l -> exists x, certs w !! crt_ID c = Some x /\ c = cpCertificate x
       /\ expires_within at_ before x = true.
Proof.
  intros Hk Hl. unfold Mem_DueForRenewal, fail_read. case_match; [done|]. intros [= <-].
  set (rows := filter _ _). set (all := sortAsc crt_NotAfter crt_ID (cpCertificate <$> rows)).
  destruct (sqlLimit_prefix all limit) as [rest Hrest]. split_and!.
  - eapply (sublist_NoDup _ (crt_ID <$> all)).
    + unfold all, sortAsc. rewrite sort_slice_perm, <- list_fmap_compose.
      apply (NoDup_fmap_filter crt_ID). by apply map_range_ids.
    + apply fmap_sublist. rewrite Hrest at 2. by apply sublist_inserts_r.
  - unfold sqlLimit. rewrite (proj2 (Z.leb_gt limit 0)) by lia. case_match; bools; [rewrite length_take; lia|lia].
  - intros c Hc. assert (Hc' : c ∈ all) by (rewrite Hrest; set_solver). unfold all, sortAsc in Hc'.
    rewrite elem_of_sort_slice in Hc'. apply list_elem_of_fmap in Hc' as (x & -> & [He Hx]%list_elem_of_filter).
    apply list_elem_of_fmap in Hx as ([k z] & -> & Hz%elem_of_map_range). simpl in *. exists z.
    unfold certs in *. by rewrite (Hk _ _ Hz).
Qed.

(** C29. A pass renews every certificate at most once and only certificates that are
    due, whatever order its workers serve them in: it reports exactly the renewals
    it made, at most 256; each certificate renewed is superseded by an active
    replacement of its tenant and no later scan returns it.  Every due certificate of the
    scan that is handed out before the context ends is served, also after one whose
    renewal failed, and what is reported are exactly the renewals that succeeded.  What
    is not due keeps its row. *)
Theorem RunOnce_renews now stop order w r w' :
  (forall l, order l ≡ₚ l) -> keyed crt_ID (certs w) -> unused w ->
  RunOnce cfg publisher now stop order w = (r, w') ->
  match r with
  | Err e => w' = w /\ Mem_DueForRenewal now (now + maxWindow cfg) maxBatch (wd_mem w) = Err e
  | Ok (n, pubs) => exists rows rs, Mem_DueForRenewal now (now + maxWindow cfg) maxBatch (wd_mem w) = Ok rows
      /\ let served := order (take stop (List.filter (fun c => Due cfg c now) rows)) in let ds := succeeded served rs in
      serves served w rs w' /\ n = Z.of_nat (length ds) /\ n <= maxBatch /\ NoDup (crt_ID <$> ds.*1)
      /\ (publisher = true -> pubs = ds.*2)
      /\ (forall c p, (c, p) ∈ ds ->
            Due cfg c now = true /\ renewal_of c p (certs w) (certs w')
            /\ (exists x, certs w !! crt_ID c = Some x /\ c = cpCertificate x
                 /\ expires_within now (now + maxWindow cfg) x = true)
            /\ forall at_ before limit l, Mem_DueForRenewal at_ before limit (wd_mem w') = Ok l ->
                 crt_ID c ∉ crt_ID <$> l)
      /\ (forall id x, certs w !! id = Some x -> Due cfg (cpCertificate x) now = false -> certs w' !! id = Some x)
  end.
Proof using ids_distinct laws.
  intros Hord Hk Hu. unfold RunOnce, st_bind, reading.
  destruct (Mem_DueForRenewal _ _ _ _) as [rows|e] eqn:Hrows; [|by intros [= <- <-]].
  destruct (DueForRenewal_rows _ _ maxBatch w rows Hk eq_refl Hrows) as (Hnd & Hlen & Hin).
  set (due := order _). assert (Hdue : exists rest, due ++ rest ≡ₚ List.filter (fun c => Due cfg c now) rows).
  { eexists. unfold due. rewrite Hord. by rewrite take_drop. }
  destruct Hdue as [rest Hdue].
  assert (Hsub : forall c, c ∈ due -> c ∈ rows /\ Due cfg c now = true).
  { intros c Hc. assert (Hc' : c ∈ due ++ rest) by set_solver. rewrite Hdue in Hc'.
    apply list_elem_of_In, filter_In in Hc' as [Hc1 Hc2]. by apply list_elem_of_In in Hc1. }
  assert (Hnd' : NoDup (crt_ID <$> due)).
  { assert (Hn : NoDup (crt_ID <$> due ++ rest)).
    { rewrite Hdue. eapply sublist_NoDup; [exact Hnd|]. apply fmap_sublist.
      clear. induction rows as [|c rows IH]; simpl; [done|]. destruct (Due cfg c now); by constructor. }
    rewrite fmap_app in Hn. by apply NoDup_app in Hn as [? _]. }
  assert (Hlen' : (length due <= length rows)%nat).
  { etrans; [|apply (List.filter_length_le (fun c => Due cfg c now))]. rewrite <- Hdue, length_app. lia. }
  destruct (renew_all_outcome due 0 [] w Hk Hu Hnd') as (rs & w1 & Hsv & Hrun & Ho).
  { intros c Hc. destruct (Hin c (proj1 (Hsub c Hc))) as (x & Hx & _). eauto. }
  cbv zeta in Hrun, Ho. set (ds := succeeded due rs) in *. rewrite Hrun. intros [= <- <-]. destruct Ho as [Hk' _ Hkept _ Hof Hren].
  assert (Hmem : forall c p, (c, p) ∈ ds -> c ∈ due).
  { intros c p Hcp. eapply elem_of_sublist; [|exact Hof]. apply list_elem_of_fmap. by exists (c, p). }
  exists rows, rs. split; [done|]. cbv zeta. fold due. fold ds. split_and!.
  - exact Hsv.
  - lia.
  - apply sublist_length in Hof. rewrite length_fmap in Hof. unfold maxBatch in *. lia.
  - eapply sublist_NoDup; [exact Hnd'|]. by apply fmap_sublist.
  - by intros ->.
  - intros c p Hcp. destruct (Hsub c (Hmem c p Hcp)) as [Hr Hd]. split_and!; [done|by apply Hren|by apply Hin|].
    intros a before limit l Hl Hx. destruct (Hren c p Hcp) as (_ & _ & new & _ & _ & old & t & _ & Hm & _).
    eapply due_live in Hx; [|exact Hk'|exact Hm|exact Hl]. unfold expires_within in Hx. bools. done.
  - intros id x Hx Hnot. rewrite Hkept; [done|by eexists|]. intros (c & -> & Hc)%list_elem_of_fmap.
    destruct (Hsub c Hc) as [Hc1 Hc2]. destruct (Hin c Hc1) as (y & Hy & -> & _). congruence.
Qed.
End pass.

(** A renewal that read the certificate before a revocation and goes on after it
    writes the status it read: the certificate is shown as it was, not as revoked. *)
Theorem renewal_undoes_revocation `{Env} `{AcmeServer} now subj other id reason w0 w1 b w2 old :
  keyed crt_ID (certs w0) -> certs w0 !! id = Some old ->
  Revoke now other id reason w0 = (Ok tt, w1) ->
  certs w1 !! new_id (wd_ids w1) = None ->
  renewCert now subj (cpCertificate old) w1 = (Ok b, w2) ->
  (exists r, certs w1 !! id = Some r /\ crt_Status r = "revoked")
  /\ exists c, certs w2 !! id = Some c /\ crt_Status c = crt_Status old.
Proof.
  intros Hk Ho (_ & r & t & _ & _ & _ & Hc & _)%Revoke_ok Hf Hr.
  split; [unfold certs; rewrite Hc, lookup_insert_eq; by eexists|]. apply renewCert_ok in Hr as [c [(m1 & Hm1 & Hs) [Hid _] _ _ _ _ _ _]].
  apply SetCertificateStatus_ok in Hs as (x & Hx & _ & Hw). simpl in Hx, Hw. rewrite (Hk _ _ Ho) in Hx, Hw.
  unfold certs. rewrite Hw. simpl. rewrite lookup_insert_eq. eexists. split; [reflexivity|done].
Qed.

(** ** Witnesses *)
Module RenewSample.
Import Toy IssueSample AcmeSample.
(** The identifiers of the sample are told apart by their length. *)
Definition counted (n : nat) : string := Nat.iter n (String (Ascii.ascii_of_nat 120)) "id".
Lemma counted_distinct j k : counted j = counted k -> j = k.
Proof.
  intros E. apply (f_equal String.length) in E. revert E.
  assert (Hl : forall n, String.length (counted n) = (n + 2)%nat)
    by (induction n as [|n IH]; [done|]; unfold counted in *; simpl; by rewrite IH).
  rewrite !Hl. lia.
Qed.
Definition counted_env : Env := {|
  env_runtime := @env_runtime toy_env; env_crypto := @env_crypto toy_env; env_aead := @env_aead toy_env;
  env_ids := counted; env_kek := "kek"; random_bytes := @random_bytes toy_env; tx_rollback := false;
|}.
#[local] Existing Instance counted_env.
#[local] Existing Instance toy_server.
Definition config : RenewConfig := NewRenewScheduler (mkRenewConfig 0 0 (f64_of_Z 0) 0).
Definition ready : World :=
  (writing (Mem_InsertIssuer (corp_issuer <| iss_CAID := Some "id" |>))
     (EnsureCA 5 "t1" "example.org" (mkWorld (Mem_New 5) [] 0 0)).2).2.
Definition start : World := (Issue 10 admin web_request ready).2.
Definition web : string := "xid".
Definition web_row : IssuedCertificate := default sample_cert (certs start !! web).
Lemma start_certs : certs start = {[web := web_row]}.
Proof. vm_compute. reflexivity. Qed.
Lemma start_keyed : keyed crt_ID (certs start).
Proof.
  rewrite start_certs. intros k x [<- <-]%lookup_singleton_Some. vm_compute. reflexivity.
Qed.
Lemma start_unused : unused start.
Proof.
  intros k Hk. rewrite start_certs. apply lookup_singleton_ne. intros E.
  assert (Hd : new_id k = counted 1) by exact (eq_sym E). apply counted_distinct in Hd. subst k.
  revert Hk. vm_compute. lia.
Qed.
(** 3000 seconds into its 3600 the certificate is renewed. *)
Definition later : Z := 10 + 3000 * Second.
#[local] Instance system : Renewer := sysRenewer later.
Definition pass : res (Z * list Renewal) * World := RunOnce config true later 10 (fun l => l) start.
Lemma RunOnce_renews_witness :
  pass.1 = Ok (1, [mkRenewal "t1" "renewed" "xxxid" "spiffe://example.org/web" (later + 3600 * Second)])
  /\ exists new t, certs pass.2 !! web = Some (web_row <| crt_SupersededBy := Some (crt_ID new) |> <| crt_UpdatedAt := t |>)
       /\ crt_Status new = "active".
Proof.
  assert (Hp : pass.1 = Ok (1, [mkRenewal "t1" "renewed" "xxxid" "spiffe://example.org/web" (later + 3600 * Second)]))
    by (vm_compute; reflexivity).
  split; [exact Hp|].
  pose proof (RunOnce_renews (laws := sysRenewer_laws later) config true counted_distinct later 10 (fun l => l) start
                pass.1 pass.2 (fun l => Permutation_refl l) start_keyed start_unused
                (surjective_pairing pass)) as H.
  rewrite Hp in H. destruct H as (rows & rs & _ & _ & Hn & _ & _ & Hpub & Hds & _). specialize (Hpub eq_refl).
  revert Hn Hpub Hds. generalize (succeeded (take 10 (List.filter (fun c => Due config c later) rows)) rs). intros ds Hn Hpub Hds.
  destruct ds as [|[c p] ds]; [discriminate Hpub|].
  destruct (Hds c p (list_elem_of_here _ _)) as (_ & (_ & _ & new & _ & _ & old & t & Ho & Hm & _ & _ & Hs & _)
    & (x & Hx & Hcx & _) & _).
  rewrite start_certs in Ho, Hx. apply lookup_singleton_Some in Ho as [Ek Eo].
  exists new, t. split; [|exact Hs]. rewrite Ek, Eo. exact Hm.
Defined.

(** The certificate is read for renewal, revoked, and then renewed. *)
Definition revoked : World := (Revoke later admin web "" start).2.
Definition no_bundle : Bundle := mkBundle (certView 0 sample_cert no_permissions) "" "" "" "".
Definition overwritten : Bundle * World :=
  match renewCert later admin (cpCertificate web_row) revoked with (Ok b, w) => (b, w) | (Err _, w) => (no_bundle, w) end.
Lemma renewal_undoes_revocation_witness :
  (crt_Status <$> certs revoked !! web) = Some "revoked"
  /\ exists c, certs overwritten.2 !! web = Some c /\ crt_Status c = "active".
Proof.
  split; [vm_compute; reflexivity|].
  assert (Hst : crt_Status web_row = "active") by (vm_compute; reflexivity). rewrite <- Hst.
  assert (Ho : certs start !! web = Some web_row) by (rewrite start_certs; apply lookup_singleton_eq).
  assert (Hv : Revoke later admin web "" start = (Ok tt, revoked)) by (vm_compute; reflexivity).
  assert (Hf : certs revoked !! new_id (wd_ids revoked) = None) by (vm_compute; reflexivity).
  assert (Hr : renewCert later admin (cpCertificate web_row) revoked = (Ok overwritten.1, overwritten.2))
    by (vm_compute; reflexivity).
  exact (proj2 (renewal_undoes_revocation later admin admin web "" start revoked overwritten.1 overwritten.2 web_row
                  start_keyed Ho Hv Hf Hr)).
Defined.
(** A certificate of 825 days, such as an imported one, is due 412 days before it
    expires; the scan looks 182 days ahead. *)
Definition long_lived : IssuedCertificate :=
  sample_cert <| crt_Status := "active" |> <| crt_SupersededBy := None |>
              <| crt_NotBefore := 0 |> <| crt_NotAfter := 825 * 24 * 3600 * Second |>.
End RenewSample.

(** [maxWindow] is no upper bound on [window]: a live certificate whose lifetime
    exceeds what the service itself issues can be due and outside the scan. *)
Theorem maxWindow_misses :
  exists c now, Due RenewSample.config c now = true /\ now < crt_NotAfter c
    /\ crt_Status c = "active" /\ crt_SupersededBy c = None
    /\ maxWindow RenewSample.config < window RenewSample.config c
    /\ expires_within now (now + maxWindow RenewSample.config) c = false.
Proof.
  exists RenewSample.long_lived, (425 * 24 * 3600 * Second). split_and!; vm_compute; reflexivity.
Qed.
