(* ===== verification/Crl.v ===== *)
(** The distribution of revocations: internal/revoke/revoke.go. *)

From S2P Require Import Prelude Rows Memstore MemstoreInv MemstoreList Paging Authz GoJson GoUrl AuditLog.
From S2P Require Import Csr Sealed World Ca.

(** ** [new(big.Int).SetString(s, 10)] *)
Fixpoint big_digits (s : string) (n : Z) : option Z :=
  match s with
  | EmptyString => Some n
  | String c s' => if is_digit c then big_digits s' (n * 10 + (byte_of c - 48)) else None
  end.
Definition big_SetString (s : string) : option Z :=
  let '(neg, body) := match s with
                      | String c s' => if byte_of c =? 45 then (true, s')
                                       else if byte_of c =? 43 then (false, s') else (false, s)
                      | EmptyString => (false, s)
                      end in
  if body =s "" then None
  else (fun n => if neg then - n else n) <$> big_digits body 0.

Record RevocationView := mkRevocationView { rvw_Serial : string; rvw_Reason : string; rvw_RevokedAt : Z }.
Record RevocationListEntry := mkRLEntry { rle_SerialNumber : Z; rle_RevocationTime : Z }.
Record RevocationList := mkRevocationList {
  rl_Number : Z; rl_ThisUpdate : Z; rl_NextUpdate : Z; rl_Entries : list RevocationListEntry;
}.
(** x509.CreateRevocationList: randomness, template, issuer certificate, signer. *)
Class CrlSigner := create_revocation_list : nat -> RevocationList -> string -> string -> res string.

Definition Unix (t : Z) : Z := (t - 62135596800 * Second) / Second.

Section revoke.
Context `{Env} `{CrlSigner}.

Definition TrustBundle (tenantID trustDomain : string) : M string := reading (ca_Bundle tenantID trustDomain).

Definition Feed (now : Z) (tenantID : string) (cursor limit : Z) (m : Mem) : res (list RevocationView) :=
  let limit := if (limit <=? 0) || (1000 <? limit) then 500 else limit in
  let cursor := if IsZero cursor then now else cursor in
  let? rows := Mem_ListRevocations tenantID cursor limit m in
  Ok ((fun r => mkRevocationView (rev_Serial r) (rev_Reason r) (rev_RevokedAt r)) <$> rows).

(** One page: a serial that is no number is skipped, and leaves the cursor. *)
Fixpoint crl_rows (rows : list Revocation) (entries : list RevocationListEntry) (cursor : Z)
  : list RevocationListEntry * Z :=
  match rows with
  | [] => (entries, cursor)
  | r :: rows =>
    match big_SetString (rev_Serial r) with
    | None => crl_rows rows entries cursor
    | Some serial => crl_rows rows (entries ++ [mkRLEntry serial (rev_RevokedAt r)]) (rev_RevokedAt r)
    end
  end.
Fixpoint crl_pages (fuel : nat) (tenantID : string) (cursor : Z) (entries : list RevocationListEntry) (m : Mem)
  : res (list RevocationListEntry) :=
  match fuel with
  | O => Err ErrFuel
  | S fuel =>
    let? rows := Mem_ListRevocations tenantID cursor 1000 m in
    if (length rows =? 0)%nat then Ok entries
    else
      let '(entries, cursor) := crl_rows rows entries cursor in
      if (length rows <? 1000)%nat then Ok entries else crl_pages fuel tenantID cursor entries m
  end.
Definition crl_fuel (m : Mem) : nat := S (size (m_Revocations m)).
(** The template and its signature. *)
Definition crl_sign (now : Z) (signer caCert : string) (entries : list RevocationListEntry) : M string :=
  let tmpl := mkRevocationList (Unix now) now (now + 24 * 3600 * Second) entries in
  let* der := drawing (fun n => create_revocation_list n tmpl caCert signer) in
  st_ret (pem_encode "X509 CRL" der).
(** [now] and [later]: the clock is read before the revocations and again after them. *)
Definition CRL (now later : Z) (tenantID trustDomain : string) : M string :=
  let* caRow := reading (Mem_CAByState tenantID trustDomain "active") in
  let* (signer, caCert) := st_lift (ca_Signer caRow) in
  let* entries := reading (fun m => crl_pages (crl_fuel m) tenantID now [] m) in
  crl_sign later signer caCert entries.
End revoke.

(** ** Parts of sorted lists *)
Lemma sorted_part {A} (R : A -> A -> Prop) l l' : sublist l' l -> StronglySorted R l -> StronglySorted R l'.
Proof.
  induction 1 as [|x l1 l2 Hs IH|x l1 l2 _ IH]; intros Hl; [done|..]; apply StronglySorted_inv in Hl as [Hl Hx]; [|by apply IH].
  constructor; [by apply IH|]. apply Forall_forall. intros y Hy. eapply Forall_forall in Hx; [done|]. by eapply elem_of_sublist.
Qed.
Lemma filter_part {A} (f : A -> bool) l : sublist (List.filter f l) l.
Proof. induction l as [|x l IH]; [done|]. cbn. destruct (f x); by constructor. Qed.
Lemma filter_empty {A} (f : A -> bool) l : (forall x, x ∈ l -> f x = false) -> List.filter f l = [].
Proof. induction l as [|x l IH]; intros Hf; [done|]. cbn. rewrite Hf by set_solver. apply IH. set_solver. Qed.
Lemma filter_bools {A} (f : A -> bool) l : List.filter f l = filter (fun x => f x = true) l.
Proof. induction l as [|x l IH]; [done|]. rewrite filter_cons. cbn. destruct (f x) eqn:E; [by rewrite decide_True, IH|by rewrite decide_False, IH by congruence]. Qed.

(** ** The list holds every revocation *)
Section complete.
Context `{Env} (tid : string) (m : Mem).
Definition rev_rows : list Revocation := (map_range (m_Revocations m)).*2.
(** The revocations before a moment, newest first. *)
Definition revoked_before (cursor : Z) : list Revocation :=
  sortDesc rev_RevokedAt rev_ID (filter (fun r => revocation_selected tid cursor r = true) rev_rows).
Definition entry_of (r : Revocation) : option RevocationListEntry :=
  (fun serial => mkRLEntry serial (rev_RevokedAt r)) <$> big_SetString (rev_Serial r).

Lemma ListRevocations_eq cursor limit :
  m_Fail m !! "ListRevocations" = None ->
  Mem_ListRevocations tid cursor limit m = Ok (sqlLimit (revoked_before cursor) limit).
Proof. intros Hf. unfold Mem_ListRevocations, fail_read. by rewrite Hf. Qed.
Lemma revoked_before_elem cursor r :
  cursor <> 0 -> r ∈ revoked_before cursor
  <-> rev_TenantID r = tid /\ rev_RevokedAt r < cursor /\ exists k, m_Revocations m !! k = Some r.
Proof.
  intros Hc. unfold revoked_before, sortDesc. rewrite elem_of_sort_slice, list_elem_of_filter.
  unfold revocation_selected, IsZero, Before. rewrite (proj2 (Z.eqb_neq _ _) Hc). simpl.
  rewrite andb_true_iff, str_eqb_eq, Z.ltb_lt. split.
  - intros [[Ht Hb] ([k x] & -> & Hx%elem_of_map_range)%list_elem_of_fmap]. eauto.
  - intros (Ht & Hb & k & Hk). split; [done|]. apply list_elem_of_fmap. exists (k, r).
    by rewrite elem_of_map_range.
Qed.
Lemma revoked_before_length cursor : (length (revoked_before cursor) <= size (m_Revocations m))%nat.
Proof.
  unfold revoked_before, sortDesc. rewrite sort_slice_perm. etrans; [apply length_filter|].
  unfold rev_rows. rewrite length_fmap, map_range_perm. by rewrite length_map_to_list.
Qed.

(** Every revocation has a moment, and a serial that is a number. *)
Context (keys : keyed rev_ID (m_Revocations m)).
Context (dated_revs : forall k r, m_Revocations m !! k = Some r -> rev_TenantID r = tid ->
  rev_RevokedAt r <> 0 /\ is_Some (big_SetString (rev_Serial r))).
Lemma revoked_before_sorted cursor : StronglySorted (fun x y => rev_RevokedAt y <= rev_RevokedAt x) (revoked_before cursor)
  /\ NoDup (revoked_before cursor).
Proof using keys.
  unfold revoked_before. rewrite sortDesc_desc. split.
  - eapply sorted_weaken; [|apply sort_slice_sorted].
    + intros x y. unfold leq, desc, key_ltb. cbn. intros Hl. apply orb_false_iff in Hl as [Hl _]. by apply Z.ltb_ge in Hl.
    + unfold desc. intros x y. apply key_ltb_asym.
    + unfold leq, desc. intros x y z Hxy Hyz. eapply key_leb_trans; eauto.
  - rewrite sort_slice_perm. apply NoDup_filter. eapply NoDup_fmap_1. by apply (map_range_ids rev_ID).
Qed.
(** The rows before an earlier moment. *)
Lemma revoked_earlier cursor at_ :
  cursor <> 0 -> at_ <> 0 -> at_ <= cursor ->
  revoked_before at_ = List.filter (fun r => rev_RevokedAt r <? at_) (revoked_before cursor).
Proof using keys.
  intros Hc Ha Hle. unfold revoked_before. rewrite !sortDesc_desc. apply sort_slice_unique.
  - unfold desc. intros x y. apply key_ltb_asym.
  - unfold leq, desc. intros x y z Hxy Hyz. eapply key_leb_trans; eauto.
  - intros x y [_ Hx]%list_elem_of_filter [_ Hy]%list_elem_of_filter Hxy Hyx. unfold leq, desc in *.
    assert (He : (rev_RevokedAt x, rev_ID x) = (rev_RevokedAt y, rev_ID y)) by (by apply key_leb_antisym). injection He as _ He.
    apply list_elem_of_fmap in Hx as ([k1 a] & -> & Hka%elem_of_map_range).
    apply list_elem_of_fmap in Hy as ([k2 b] & -> & Hkb%elem_of_map_range).
    simpl in *. rewrite (keys _ _ Hka), (keys _ _ Hkb) in He. congruence.
  - rewrite filter_bools, sort_slice_perm, list_filter_filter. apply reflexive_eq.
    apply list_filter_iff. intros r. unfold revocation_selected, IsZero, Before.
    rewrite (proj2 (Z.eqb_neq _ _) Hc), (proj2 (Z.eqb_neq _ _) Ha). cbn. rewrite !andb_true_iff, !Z.ltb_lt. intuition lia.
  - apply (sorted_part _ _ _ (filter_part _ _)), sort_slice_sorted; unfold leq, desc; [intros x y; apply key_ltb_asym|intros x y z Hxy Hyz; eapply key_leb_trans; eauto].
Qed.
Lemma crl_rows_spec rows : forall entries cursor,
  Forall (fun r => is_Some (big_SetString (rev_Serial r))) rows ->
  crl_rows rows entries cursor
  = (entries ++ omap entry_of rows, match list.last rows with Some r => rev_RevokedAt r | None => cursor end).
Proof.
  induction rows as [|r rows IH]; intros entries cursor Hp; simpl; [by rewrite app_nil_r|].
  apply Forall_cons in Hp as [[z Hz] Hp]. unfold entry_of at 1. rewrite Hz. simpl. rewrite IH by done.
  change (list_omap Revocation RevocationListEntry entry_of rows) with (omap entry_of rows).
  rewrite <- app_assoc, last_cons. by destruct (list.last rows).
Qed.
(** What the pages collect, of the revocations before the cursor: each at most once, in
    order, and all but some that share their moment with one collected. *)
Definition collects (cursor : Z) (rows : list Revocation) : Prop :=
  sublist rows (revoked_before cursor)
  /\ (forall r, r ∈ revoked_before cursor -> r ∈ rows \/ exists r', r' ∈ rows /\ r' <> r /\ rev_RevokedAt r' = rev_RevokedAt r)
  /\ ((length (revoked_before cursor) <= 1000)%nat -> rows = revoked_before cursor).
Lemma collects_page cursor page r rest rows :
  cursor <> 0 -> revoked_before cursor = page ++ r :: rest -> rev_RevokedAt r <> 0 -> length (page ++ [r]) = 1000%nat ->
  collects (rev_RevokedAt r) rows -> collects cursor (page ++ r :: rows) /\ (length (revoked_before (rev_RevokedAt r)) <= length rest)%nat.
Proof using keys dated_revs.
  intros Hc Hs Hr0 Hlen (Hsub & Hall & _). destruct (revoked_before_sorted cursor) as [Hsort Hnd]. rewrite Hs in Hsort, Hnd.
  assert (Hrc : rev_RevokedAt r <= cursor).
  { assert (Hr : r ∈ revoked_before cursor) by (rewrite Hs; set_solver). apply (revoked_before_elem _ _ Hc) in Hr as (_ & ? & _). lia. }
  assert (Hge : forall x, x ∈ page -> rev_RevokedAt r <= rev_RevokedAt x)
    by (intros x Hx; eapply (StronglySorted_app_1_elem_of _ page (r :: rest) x r Hsort Hx); left).
  apply StronglySorted_app_1_r in Hsort. apply StronglySorted_inv in Hsort as [_ Hle]. rewrite Forall_forall in Hle.
  assert (Hnext : revoked_before (rev_RevokedAt r) = List.filter (fun x => rev_RevokedAt x <? rev_RevokedAt r) rest).
  { rewrite (revoked_earlier cursor), Hs, List.filter_app by done. cbn. rewrite Z.ltb_irrefl.
    replace (List.filter _ page) with (@nil Revocation); [done|]. symmetry. apply filter_empty. intros x Hx. apply Z.ltb_ge. by apply Hge. }
  assert (Hsubr : sublist (revoked_before (rev_RevokedAt r)) rest) by (rewrite Hnext; apply filter_part).
  split; [|by apply sublist_length in Hsubr]. split_and!.
  - rewrite Hs. apply sublist_app; [done|]. apply sublist_skip. by etrans.
  - intros x. rewrite Hs, elem_of_app, elem_of_cons. intros [Hx|[->|Hx]]; [left; set_solver..|].
    destruct (decide (rev_RevokedAt x = rev_RevokedAt r)) as [He|He].
    + right. exists r. split_and!; [set_solver| |done]. intros ->. apply NoDup_app in Hnd as (_ & _ & Hnd).
      by apply NoDup_cons in Hnd as [? _].
    + destruct (Hall x) as [?|(y & ? & ? & ?)]; [|left; set_solver|right; exists y; split_and!; [set_solver|done..]].
      rewrite Hnext. apply list_elem_of_In, filter_In. split; [by apply list_elem_of_In|]. apply Z.ltb_lt. specialize (Hle x Hx). cbn in Hle. lia.
  - intros Hl. rewrite Hs in Hl |- *. rewrite length_app in Hl, Hlen. cbn in Hl, Hlen.
    assert (rest = []) as -> by (apply nil_length_inv; lia). apply sublist_nil_r in Hsubr. rewrite Hsubr in Hsub.
    apply sublist_nil_r in Hsub as ->. done.
Qed.
Lemma crl_pages_all fuel : forall cursor entries,
  m_Fail m !! "ListRevocations" = None -> cursor <> 0 -> (length (revoked_before cursor) < fuel)%nat ->
  exists rows, crl_pages fuel tid cursor entries m = Ok (entries ++ omap entry_of rows) /\ collects cursor rows.
Proof using keys dated_revs.
  induction fuel as [|fuel IH]; intros cursor entries Hf Hc Hlen; [lia|]. simpl.
  rewrite (ListRevocations_eq _ _ Hf). simpl.
  destruct (sqlLimit_prefix (revoked_before cursor) 1000) as [rest Hrest].
  set (rows := sqlLimit (revoked_before cursor) 1000) in *.
  assert (Hmost : (length rows <= 1000)%nat) by (unfold rows, sqlLimit; cbn; case_match; bools; rewrite ?length_take; lia).
  assert (Hdone : rows = revoked_before cursor -> collects cursor rows) by (intros ->; split_and!; [done|by left|done]).
  assert (Hall : (length rows < 1000)%nat -> rows = revoked_before cursor)
    by (intros Hl; apply sqlLimit_all; fold rows; lia).
  assert (Hgood : Forall (fun r => rev_RevokedAt r <> 0 /\ is_Some (big_SetString (rev_Serial r))) rows).
  { apply Forall_forall. intros r Hr. assert (Hr' : r ∈ revoked_before cursor) by (rewrite Hrest; set_solver).
    apply (revoked_before_elem _ _ Hc) in Hr' as (Ht & _ & k & Hk). by eapply dated_revs. }
  destruct (length rows =? 0)%nat eqn:E0.
  { apply Nat.eqb_eq in E0. exists rows. split; [|apply Hdone, Hall; lia]. rewrite (nil_length_inv _ E0). simpl. by rewrite app_nil_r. }
  apply Nat.eqb_neq in E0.
  rewrite crl_rows_spec by (eapply Forall_impl; [exact Hgood|]; by intros ? [_ ?]).
  destruct (length rows <? 1000)%nat eqn:E1.
  { apply Nat.ltb_lt in E1. exists rows. split; [done|]. by apply Hdone, Hall. }
  apply Nat.ltb_ge in E1. destruct rows as [|r rows' _] eqn:Er using rev_ind; [done|]. rewrite last_snoc.
  rewrite <- app_assoc in Hrest. cbn in Hrest.
  assert (Hr0 : rev_RevokedAt r <> 0) by (apply Forall_app in Hgood as [_ Hg]; by apply Forall_singleton in Hg as [? _]).
  assert (Hshort : (length (revoked_before (rev_RevokedAt r)) <= length rest)%nat).
  { eapply (collects_page cursor rows' r rest (revoked_before (rev_RevokedAt r))); [done..|lia|]. split_and!; [done|by left|done]. }
  destruct (IH (rev_RevokedAt r) (entries ++ omap entry_of (rows' ++ [r])) Hf Hr0) as (more & -> & Hmore).
  { rewrite Hrest, length_app in Hlen. simpl in Hlen. lia. }
  exists (rows' ++ r :: more). split; [|by eapply collects_page; [..|lia|]].
  change (r :: more) with ([r] ++ more). by rewrite !omap_app, <- !app_assoc.
Qed.
End complete.


(** The cursor of the paging is the moment alone: when more than a thousand
    revocations of a tenant carry the same moment, the list has a thousand of them
    and leaves out the rest. *)
Theorem CRL_bulk_loss `{Env} now tid t m :
  m_Fail m !! "ListRevocations" = None -> t <> 0 -> t < now -> now <> 0 ->
  (forall k r, m_Revocations m !! k = Some r -> rev_TenantID r = tid ->
     rev_RevokedAt r = t /\ is_Some (big_SetString (rev_Serial r))) ->
  (1000 < length (revoked_before tid m now))%nat ->
  exists entries, crl_pages (crl_fuel m) tid now [] m = Ok entries /\ length entries = 1000%nat.
Proof.
  intros Hf Ht Hlt Hn Hall Hmany. pose proof (revoked_before_length tid m now) as Hsize.
  unfold crl_fuel. destruct (size (m_Revocations m)) as [|n] eqn:En; [lia|]. cbn [crl_pages].
  rewrite (ListRevocations_eq tid m now 1000 Hf). cbn [res_bind].
  assert (Hrows : sqlLimit (revoked_before tid m now) 1000 = take 1000 (revoked_before tid m now)).
  { unfold sqlLimit. simpl (1000 <=? 0). cbn iota. by rewrite (proj2 (Z.ltb_lt _ _)) by lia. }
  rewrite Hrows. set (rows := take 1000 (revoked_before tid m now)).
  assert (Hlen : length rows = 1000%nat) by (unfold rows; rewrite length_take; lia).
  assert (Hgood : Forall (fun r => rev_RevokedAt r = t /\ is_Some (big_SetString (rev_Serial r))) rows).
  { apply Forall_forall. intros r Hr. apply elem_of_take in Hr as (i & Hi & _). apply list_elem_of_lookup_2 in Hi.
    apply revoked_before_elem in Hi as (Hrt & _ & k & Hk); [|done]. by eapply Hall. }
  rewrite Hlen. rewrite crl_rows_spec by (eapply Forall_impl; [exact Hgood|]; by intros ? [_ ?]).
  assert (Hlast : match list.last rows with Some r => rev_RevokedAt r | None => now end = t).
  { destruct (list.last rows) as [r|] eqn:El.
    - apply last_Some_elem_of in El. eapply Forall_forall in Hgood; [|exact El]. tauto.
    - apply last_None in El. by rewrite El in Hlen. }
  rewrite Hlast. change (1000 =? 0)%nat with false. change (1000 <? 1000)%nat with false. cbn iota.
  cbn [crl_pages]. rewrite (ListRevocations_eq tid m t 1000 Hf). cbn [res_bind].
  assert (Hnone : revoked_before tid m t = []).
  { destruct (revoked_before tid m t) as [|r l] eqn:El; [done|]. exfalso.
    assert (Hr : r ∈ revoked_before tid m t) by (rewrite El; set_solver).
    apply revoked_before_elem in Hr as (Hrt & Hb & k & Hk); [|done]. destruct (Hall k r Hk Hrt). lia. }
  rewrite Hnone. eexists. split; [reflexivity|]. simpl. rewrite <- Hlen. clear -Hgood.
  induction Hgood as [|r rows [_ [z Hz]] _ IH]; [done|]. simpl. unfold entry_of at 1. rewrite Hz. simpl.
  f_equal. exact IH.
Qed.

(** ** Witnesses *)
Module CrlSample.
Import Toy CaSample.
#[local] Existing Instance toy_env.
(** The stand-in signer prints what it signs. *)
#[local] Instance toy_crl : CrlSigner := fun n tmpl caCert signer =>
  Ok (String.concat "," ((fun e => FormatInt (rle_SerialNumber e)) <$> rl_Entries tmpl)).
Definition rev (id tenant serial : string) (at_ : Z) : Revocation := mkRevocation id tenant ("c" +:+ id) serial "" at_ None.
Definition revs : gmap string Revocation :=
  <["r1" := rev "r1" "t1" "11" 20]> (<["r2" := rev "r2" "t2" "12" 30]> {["r3" := rev "r3" "t1" "13" 40]}).
Definition world : World := made.2 <| wd_mem := (wd_mem made.2) <| m_Revocations := revs |> |>.
Lemma revs_in (P : string -> Revocation -> Prop) :
  P "r1" (rev "r1" "t1" "11" 20) -> P "r2" (rev "r2" "t2" "12" 30) -> P "r3" (rev "r3" "t1" "13" 40) ->
  forall k r, revs !! k = Some r -> P k r.
Proof.
  intros H1 H2 H3 k r. unfold revs. rewrite !lookup_insert. repeat case_decide; subst; try by intros [= <-].
  by intros [<- <-]%lookup_singleton_Some.
Qed.
Definition ca_row : CA := default (mkCA "" "" "" "" None "" 0 0 "" 0) (m_CAs (wd_mem world) !! "id0").
Definition signing : string * string := match ca_Signer ca_row with Ok p => p | Err _ => ("", "") end.

(** Any number of revocations at one moment. *)
Definition bulk_id (n : nat) : string := Nat.iter n (String (Ascii.ascii_of_nat 120)) "r".
Lemma bulk_id_length n : String.length (bulk_id n) = S n.
Proof. induction n as [|n IH]; [done|]. unfold bulk_id in *. simpl. by rewrite IH. Qed.
Definition bulk (n : nat) : Mem :=
  (Mem_New 5) <| m_Revocations := list_to_map ((fun i => (bulk_id i, rev (bulk_id i) "t1" "7" 20)) <$> seq 0 n) |>.
Lemma bulk_nodup n : NoDup ((fun i => (bulk_id i, rev (bulk_id i) "t1" "7" 20)) <$> seq 0 n).*1.
Proof.
  rewrite <- list_fmap_compose. apply NoDup_fmap_2_strong; [|apply NoDup_seq].
  intros x y _ _ E. simpl in E. apply (f_equal String.length) in E. rewrite !bulk_id_length in E. lia.
Qed.
Lemma bulk_row n k r : m_Revocations (bulk n) !! k = Some r -> rev_TenantID r = "t1" /\ rev_RevokedAt r = 20 /\ rev_Serial r = "7".
Proof.
  simpl. intros Hr. apply elem_of_list_to_map_2 in Hr. by apply list_elem_of_fmap in Hr as (i & [= -> ->] & _).
Qed.
Lemma filter_everything {A} (P : A -> bool) (l : list A) :
  Forall (fun x => P x = true) l -> filter (fun x => P x = true) l = l.
Proof. induction 1 as [|x l Hx _ IH]; [done|]. by rewrite filter_cons, decide_True, IH. Qed.
Lemma bulk_count n : length (revoked_before "t1" (bulk n) 100) = n.
Proof.
  unfold revoked_before, sortDesc. rewrite sort_slice_perm.
  assert (Hall : filter (fun r => revocation_selected "t1" 100 r = true) (rev_rows (bulk n)) = rev_rows (bulk n)).
  { apply filter_everything. apply Forall_forall. intros r ([k x] & -> & Hx%elem_of_map_range)%list_elem_of_fmap.
    apply bulk_row in Hx as (Ht & Ha & _). unfold revocation_selected. simpl. rewrite Ht, Ha. done. }
  rewrite Hall. unfold rev_rows. rewrite length_fmap, map_range_perm.
  change (m_Revocations (bulk n)) with (list_to_map (M := gmap string Revocation) ((fun i => (bulk_id i, rev (bulk_id i) "t1" "7" 20)) <$> seq 0 n)).
  rewrite map_to_list_to_map by apply bulk_nodup. rewrite length_fmap. apply length_seq.
Qed.
Lemma CRL_bulk_loss_witness :
  length (revoked_before "t1" (bulk 1500) 100) = 1500%nat
  /\ exists entries, crl_pages (crl_fuel (bulk 1500)) "t1" 100 [] (bulk 1500) = Ok entries /\ length entries = 1000%nat.
Proof.
  split; [apply bulk_count|]. apply (CRL_bulk_loss 100 "t1" 20 (bulk 1500)).
  - apply lookup_empty.
  - discriminate.
  - reflexivity.
  - discriminate.
  - intros k r Hk _. destruct (bulk_row _ _ _ Hk) as (_ & Ha & Hs). split; [exact Ha|].
    rewrite Hs. eexists. vm_compute. reflexivity.
  - rewrite bulk_count. apply Nat.ltb_lt. reflexivity.
Defined.
End CrlSample.
