(* ===== verification/CertList.v ===== *)
(** The certificate listing of internal/issue/certificates.go against a reference:
    what it pages through is what the caller may read, newest first. *)

From S2P Require Import Prelude Rows Memstore MemstoreInv MemstoreList Paging Authz GoJson GoUrl AuditLog.
From S2P Require Import Csr Sealed World Ca IssueBase Domains Providers Issuers Acme Lifecycle.

Section listing.
Context `{Env}.

(** The certificates of the tenant a filter selects from a cursor on, newest first. *)
Definition selected_certs (tid : string) (f : CertificateFilter) (m : Mem) (cur : Z * string)
  : list IssuedCertificate :=
  sortDesc crt_CreatedAt crt_ID (cpCertificate <$>
    filter (fun c => certificate_selected tid
                       (f <| crf_CursorTS := cur.1 |> <| crf_CursorID := cur.2 |>) c = true)
           (map_range (m_Certificates m)).*2).
Definition may_read (now : Z) (subj : Subjects) (m : Mem) (c : IssuedCertificate) : bool :=
  is_ok (authz_Check now subj Certificate (crt_ID c) Read m).
(** The reference: those among them the access check lets the caller read. *)
Definition cert_listing (now : Z) (subj : Subjects) (f : CertificateFilter) (m : Mem)
  (cur : Z * string) : list IssuedCertificate :=
  filter (fun c => may_read now subj m c = true) (selected_certs (sub_TenantID subj) f m cur).

Definition cert_key (c : IssuedCertificate) : key := (crt_CreatedAt c, crt_ID c).
(** Every certificate has a time of creation, as the store gives it on insertion. *)
Definition dated (m : Mem) : Prop :=
  forall k c, m_Certificates m !! k = Some c -> crt_CreatedAt c <> 0.

Lemma beforeCursor_key ts id cts cid :
  cts <> 0 -> beforeCursor ts id cts cid = key_ltb (ts, id) (cts, cid).
Proof.
  intros Hz. unfold beforeCursor, IsZero, key_ltb, Before, TimeEqual. simpl.
  by rewrite (proj2 (Z.eqb_neq _ _) Hz).
Qed.
Lemma key_ltb_trans a b c : key_ltb a b = true -> key_ltb b c = true -> key_ltb a c = true.
Proof.
  intros H1 H2. destruct (key_ltb a c) eqn:E; [done|]. exfalso.
  pose proof (key_ltb_asym _ _ H1) as H3. pose proof (key_leb_trans _ _ _ E H3) as H4. congruence.
Qed.

Lemma selected_row tid f m cur c :
  keyed crt_ID (m_Certificates m) -> c ∈ selected_certs tid f m cur ->
  exists x, m_Certificates m !! crt_ID c = Some x /\ c = cpCertificate x /\ crt_TenantID x = tid.
Proof.
  intros Hk Hc. unfold selected_certs, sortDesc in Hc. rewrite elem_of_sort_slice in Hc.
  apply list_elem_of_fmap in Hc as (x & -> & Hx). apply list_elem_of_filter in Hx as [Hs Hx].
  apply list_elem_of_fmap in Hx as ([k y] & -> & Hy%elem_of_map_range). simpl in *.
  exists y. rewrite (Hk _ _ Hy). unfold certificate_selected in Hs. bools. done.
Qed.

(** The cursor of a row is the place just after it. *)
Lemma selected_next tid f m cur pre r post :
  keyed crt_ID (m_Certificates m) -> dated m ->
  selected_certs tid f m cur = pre ++ r :: post ->
  selected_certs tid f m (cert_cursor r) = post.
Proof.
  intros Hk Hd Hs. set (rows := cpCertificate <$> (map_range (m_Certificates m)).*2).
  set (sel := fun cur c => certificate_selected tid
                (f <| crf_CursorTS := cur.1 |> <| crf_CursorID := cur.2 |>) c).
  assert (Heq : forall cur, selected_certs tid f m cur
            = sort_slice (desc cert_key) (filter (fun c => sel cur c = true) rows)).
  { intros c. unfold selected_certs. rewrite sortDesc_desc.
    by rewrite (fmap_filter cpCertificate (sel c) (sel c)). }
  assert (Hr : exists x, m_Certificates m !! crt_ID r = Some x /\ r = cpCertificate x
                 /\ crt_TenantID x = tid)
    by (eapply selected_row; [done|rewrite Hs; set_solver]).
  destruct Hr as (xr & Hxr & -> & _).
  assert (Hrc : crt_CreatedAt (cpCertificate xr) <> 0) by (by apply (Hd _ _ Hxr)).
  assert (Hsr : sel cur (cpCertificate xr) = true).
  { assert (Hin : cpCertificate xr ∈ pre ++ cpCertificate xr :: post) by set_solver.
    rewrite <- Hs, Heq, elem_of_sort_slice in Hin. by apply list_elem_of_filter in Hin as [? _]. }
  rewrite Heq in Hs |- *. eapply sorted_next; [..|exact Hs].
  - unfold desc. intros x y. apply key_ltb_asym.
  - unfold leq, desc. intros x y z Hxy Hyz. eapply key_leb_trans; eauto.
  - apply (NoDup_fmap_1 crt_ID). unfold rows. rewrite <- list_fmap_compose.
    by apply (map_range_ids crt_ID).
  - intros x y Hx Hy Hxy Hyx. unfold leq, desc in *. assert (He : cert_key x = cert_key y)
      by (by apply key_leb_antisym). injection He as _ He.
    apply list_elem_of_fmap in Hx as (x' & -> & ([k1 a] & -> & Ha%elem_of_map_range)%list_elem_of_fmap).
    apply list_elem_of_fmap in Hy as (y' & -> & ([k2 b] & -> & Hb%elem_of_map_range)%list_elem_of_fmap).
    simpl in *. rewrite (Hk _ _ Ha), (Hk _ _ Hb) in He. congruence.
  - intros x _. unfold sel, certificate_selected, desc in *. simpl in *.
    rewrite (beforeCursor_key _ _ (crt_CreatedAt xr)) by done.
    rewrite !andb_true_iff in *. destruct Hsr as [_ Hsr]. split; [|naive_solver].
    intros [[Hf Hi] Hb]. split_and!; try naive_solver.
    unfold beforeCursor in *. destruct (IsZero cur.1) eqn:Hz; [done|].
    unfold IsZero in Hz. bools.
    pose proof (beforeCursor_key (crt_CreatedAt x) (crt_ID x) cur.1 cur.2 Hz) as E1.
    pose proof (beforeCursor_key (crt_CreatedAt xr) (crt_ID xr) cur.1 cur.2 Hz) as E2.
    unfold beforeCursor, IsZero in E1, E2. rewrite (proj2 (Z.eqb_neq _ _) Hz) in E1, E2.
    rewrite E2 in Hsr. rewrite E1. by eapply key_ltb_trans.
Qed.

(** On a store without injected failures the decisions on a stored certificate are
    made, and agree. *)
Definition perms_on (now : Z) (subj : Subjects) (m : Mem) (id : string) : Permissions :=
  match authz_Effective now subj Certificate id m with Ok (p, _, _) => p | Err _ => no_permissions end.
Lemma cert_decided now subj m id x :
  m_Fail m = ∅ -> m_Certificates m !! id = Some x -> crt_TenantID x = sub_TenantID subj ->
  exists rel src, authz_Effective now subj Certificate id m = Ok (perms_on now subj m id, rel, src)
    /\ is_ok (authz_Check now subj Certificate id Read m) = Has (perms_on now subj m id) Read
    /\ (Has (perms_on now subj m id) Read = true <-> permitted now subj Certificate id Read m).
Proof.
  intros Hf Hx Ht. assert (Hres : exists p rel src, resolve now subj Certificate id m = Ok (p, rel, src)).
  { unfold resolve, locate, notFound, as_GetCertificate, as_GrantsOnResource, mem_authz,
      Mem_GetCertificate, Mem_GrantsOnResource, fail_read. rewrite Hf, !lookup_empty, Hx, Ht. simpl.
    rewrite str_eqb_refl. simpl. destruct (authz_decide _ _ _) as [[p rel] src]. eauto. }
  destruct Hres as (p & rel & src & Hres). unfold perms_on.
  assert (He : authz_Effective now subj Certificate id m = Ok (p, rel, src)) by exact Hres.
  rewrite He. exists rel, src. split_and!; [done| |by eapply resolve_permitted].
  unfold authz_Check. simpl. rewrite Hres. simpl. by destruct (Has p Read).
Qed.
Lemma accessible_ok now subj m :
  m_Fail m = ∅ -> exists ids all, authz_ListAccessibleIDs now subj Certificate m = Ok (ids, all).
Proof.
  intros Hf. unfold authz_ListAccessibleIDs. simpl. destruct (IsAdmin subj); [eauto|].
  unfold as_GrantsForSubjects, mem_authz, Mem_GrantsForSubjects, fail_read. rewrite Hf, lookup_empty.
  simpl. eauto.
Qed.
Definition shown (now : Z) (subj : Subjects) (m : Mem) (c : IssuedCertificate) : option CertificateView :=
  if may_read now subj m c then Some (certView now c (perms_on now subj m (crt_ID c))) else None.
Lemma cert_project_ok now subj m ids all c x :
  m_Fail m = ∅ -> authz_ListAccessibleIDs now subj Certificate m = Ok (ids, all) ->
  m_Certificates m !! crt_ID c = Some x -> crt_TenantID x = sub_TenantID subj ->
  cert_project now subj ids all m c = Ok (shown now subj m c)
  /\ all || bool_decide (crt_ID c ∈ ids) = may_read now subj m c.
Proof.
  intros Hf Hl Hx Ht. apply accessible_permitted in Hl as [_ Hl]. specialize (Hl (crt_ID c)).
  destruct (cert_decided now subj m _ x Hf Hx Ht) as (rel & src & He & Hc & Hp).
  unfold cert_project, shown, may_read. rewrite Hc.
  assert (Hv : all || bool_decide (crt_ID c ∈ ids) = Has (perms_on now subj m (crt_ID c)) Read)
    by (apply eq_bool_prop_intro; rewrite !Is_true_true, Hl; by symmetry).
  split; [|done]. rewrite <- negb_orb, Hv. destruct (Has _ Read); simpl; [|done]. by rewrite He.
Qed.

Lemma omap_shown now subj m (l : list IssuedCertificate) :
  cv_ID <$> omap (shown now subj m) l = crt_ID <$> filter (fun c => may_read now subj m c = true) l.
Proof.
  induction l as [|c l IH]; [done|]. rewrite filter_cons.
  change (omap (shown now subj m) (c :: l))
    with (match shown now subj m c with Some v => v :: omap (shown now subj m) l
          | None => omap (shown now subj m) l end).
  unfold shown at 1. destruct (may_read now subj m c).
  - rewrite decide_True, !fmap_cons by done. by f_equal.
  - by rewrite decide_False.
Qed.
Lemma length_selected tid f m cur : (length (selected_certs tid f m cur) <= size (m_Certificates m))%nat.
Proof.
  unfold selected_certs, sortDesc. rewrite sort_slice_perm, length_fmap.
  etrans; [apply length_filter|]. rewrite length_fmap, map_range_perm. by rewrite length_map_to_list.
Qed.

(** From its cursor the loop collects the first rows of the reference listing. *)
Lemma page_loop_certs now subj f m ids all cur :
  wf m -> m_Fail m = ∅ -> dated m -> authz_ListAccessibleIDs now subj Certificate m = Ok (ids, all) ->
  let limit := page_limit (crf_Limit f) in
  exists views, page_loop (cert_page subj f limit m) cert_cursor (cert_project now subj ids all m)
                  limit (S (size (m_Certificates m))) [] cur = Ok views
    /\ cv_ID <$> views = crt_ID <$> take (Z.to_nat limit) (cert_listing now subj f m cur).
Proof.
  intros Hwf Hf Hd Hl limit. pose proof (wf_certs _ Hwf) as Hk.
  assert (Hlim : 0 < limit) by (unfold limit, page_limit; case_match; bools; lia).
  eexists. split.
  - apply (page_loop_spec _ _ _ _ (selected_certs (sub_TenantID subj) f m) (shown now subj m)).
    + done.
    + intros c. unfold cert_page, Mem_ListCertificates, fail_read. by rewrite Hf, lookup_empty.
    + intros c pre r post. by apply selected_next.
    + apply Forall_forall. intros c Hc. eapply selected_row in Hc as (x & Hx & _ & Ht); [|done].
      by eapply cert_project_ok.
    + simpl. lia.
    + pose proof (length_selected (sub_TenantID subj) f m cur). lia.
  - rewrite app_nil_l, !fmap_take. by rewrite omap_shown.
Qed.

Lemma filter_split {A} (P : A -> Prop) `{!forall x, Decision (P x)} (l : list A) pre r post :
  filter P l = pre ++ r :: post ->
  exists a b, l = a ++ r :: b /\ filter P b = post /\ P r.
Proof.
  revert pre. induction l as [|x l IH]; intros pre; [by destruct pre|]. rewrite filter_cons.
  case_decide as Hx.
  - destruct pre as [|y pre]; simpl; intros [= -> Hf]; [by exists [], l|].
    destruct (IH _ Hf) as (a & b & -> & ? & ?). by exists (y :: a), b.
  - intros Hf. destruct (IH _ Hf) as (a & b & -> & ? & ?). by exists (x :: a), b.
Qed.
(** A full page splits the listing at its last row. *)
Lemma full_page {A} (l : list A) n : (0 < n)%nat -> length (take n l) = n ->
  exists pre r, l = pre ++ r :: drop n l /\ list.last (take n l) = Some r.
Proof.
  intros Hn Hl. destruct (take n l) as [|x t] eqn:E using rev_ind; [simpl in Hl; lia|].
  exists t, x. rewrite last_snoc. split; [|done].
  rewrite <- (take_drop n l) at 1. by rewrite E, <- app_assoc.
Qed.

(** One page from a cursor, and the cursor of the next. *)
Lemma ListCertificates_from now subj f w ids all cur :
  wf (wd_mem w) -> m_Fail (wd_mem w) = ∅ -> dated (wd_mem w) ->
  (forall k c, m_Certificates (wd_mem w) !! k = Some c -> IsUUID k = true) ->
  authz_ListAccessibleIDs now subj Certificate (wd_mem w) = Ok (ids, all) ->
  start_cursor subj ids all f (wd_mem w) = Ok (Some cur) ->
  let limit := Z.to_nat (page_limit (crf_Limit f)) in
  let listing := cert_listing now subj f (wd_mem w) in
  exists views next, ListCertificates now subj f w = (Ok (views, next), w)
    /\ cv_ID <$> views = crt_ID <$> take limit (listing cur)
    /\ ((next = "" /\ drop limit (listing cur) = [])
        \/ exists r, next <> "" /\ listing (cert_cursor r) = drop limit (listing cur)
             /\ start_cursor subj ids all (f <| crf_CursorTS := 0 |> <| crf_CursorID := next |>) (wd_mem w)
                = Ok (Some (cert_cursor r))).
Proof.
  intros Hwf Hf Hd Hu Hl Hs limit listing. set (m := wd_mem w) in *. pose proof (wf_certs _ Hwf) as Hk.
  destruct (page_loop_certs now subj f m ids all cur Hwf Hf Hd Hl) as (views & Hv & Hids).
  unfold ListCertificates, reading. fold m. rewrite Hl. cbn [res_bind]. rewrite Hs. cbn [res_bind].
  rewrite Hv. cbn [res_bind].
  eexists _, _. split; [reflexivity|]. split; [exact Hids|].
  assert (Hlim : 0 < page_limit (crf_Limit f)) by (unfold page_limit; case_match; bools; lia).
  assert (Hlen : length views = length (take limit (listing cur)))
    by (rewrite <- (length_fmap cv_ID views), Hids; apply length_fmap).
  destruct (Z.of_nat (length views) =? page_limit (crf_Limit f)) eqn:Efull; bools.
  - right. destruct (full_page (listing cur) limit) as (pre & r & Hsplit & Hlast); [lia|lia|].
    destruct (filter_split _ _ _ _ _ Hsplit) as (a & b & Hab & Hb & Hr).
    assert (Hrow : exists x, m_Certificates m !! crt_ID r = Some x /\ r = cpCertificate x
                     /\ crt_TenantID x = sub_TenantID subj)
      by (eapply selected_row; [done|rewrite Hab; set_solver]).
    destruct Hrow as (x & Hx & Hrx & Ht).
    assert (Hnext : last_or cv_ID views = crt_ID r).
    { unfold last_or. assert (Hll : cv_ID <$> list.last views = crt_ID <$> list.last (take limit (listing cur)))
        by (by rewrite <- !fmap_last, Hids).
      rewrite Hlast in Hll. destruct (list.last views); simpl in *; congruence. }
    exists r. rewrite Hnext. pose proof (Hu _ _ Hx) as Huu. split_and!.
    + intros He. rewrite He in Huu. discriminate Huu.
    + rewrite <- Hb. unfold listing, cert_listing. f_equal. by eapply selected_next.
    + unfold start_cursor. simpl. destruct (crt_ID r =s "") eqn:Ee;
        [bools; rewrite Ee in Huu; discriminate Huu|]. simpl. rewrite Huu. simpl.
      unfold Mem_GetCertificate, fail_read. rewrite Hf, lookup_empty, Hx, Ht, str_eqb_refl.
      destruct (cert_project_ok now subj m ids all r x Hf Hl Hx Ht) as [_ Hvis].
      rewrite Hr in Hvis. rewrite <- negb_orb.
      assert (Hid : crt_ID (cpCertificate x) = crt_ID r) by (by rewrite Hrx).
      rewrite Hid, Hvis. simpl. by rewrite Hrx.
  - left. split; [done|]. apply drop_ge. rewrite length_take in Hlen. lia.
Qed.

(** A client that follows the cursors: the [n]th page after the first. *)
Fixpoint follow (now : Z) (subj : Subjects) (n : nat) (f : CertificateFilter)
  : M (list CertificateView * string) :=
  match n with
  | O => ListCertificates now subj f
  | S n' =>
    let* (_, next) := ListCertificates now subj f in
    if next =s "" then st_ret ([], "")
    else follow now subj n' (f <| crf_CursorTS := 0 |> <| crf_CursorID := next |>)
  end.
Lemma follow_from now subj n f w ids all cur :
  wf (wd_mem w) -> m_Fail (wd_mem w) = ∅ -> dated (wd_mem w) ->
  (forall k c, m_Certificates (wd_mem w) !! k = Some c -> IsUUID k = true) ->
  authz_ListAccessibleIDs now subj Certificate (wd_mem w) = Ok (ids, all) ->
  start_cursor subj ids all f (wd_mem w) = Ok (Some cur) ->
  let limit := Z.to_nat (page_limit (crf_Limit f)) in
  exists views next, follow now subj n f w = (Ok (views, next), w)
    /\ cv_ID <$> views
       = crt_ID <$> take limit (drop (n * limit) (cert_listing now subj f (wd_mem w) cur)).
Proof.
  intros Hwf Hf Hd Hu Hl. revert f cur. induction n as [|n IH]; intros f cur Hs limit;
    destruct (ListCertificates_from now subj f w ids all cur Hwf Hf Hd Hu Hl Hs)
      as (views & next & Hr & Hids & Hnext).
  - exists views, next. by rewrite drop_0.
  - simpl follow. unfold st_bind. rewrite Hr. fold limit in Hnext, Hids.
    replace (S n * limit)%nat with (limit + n * limit)%nat by lia. rewrite <- drop_drop.
    destruct Hnext as [[-> Hdrop]|(r & Hne & Hlist & Hst)].
    + rewrite str_eqb_refl. exists [], "". split; [done|]. by rewrite Hdrop, drop_nil, take_nil.
    + rewrite (proj2 (str_eqb_neq _ _) Hne). destruct (IH _ _ Hst) as (v & nx & Hv & Hvi).
      exists v, nx. split; [exact Hv|]. rewrite <- Hlist. exact Hvi.
Qed.

(** C34. Paging is complete: a client that follows the cursors sees, page by page,
    exactly the certificates the access check lets it read among those the
    filter selects, newest first, each once; every page ends, whatever number of
    rows the caller may not see lies between. *)
Theorem ListCertificates_pages now subj f w n :
  wf (wd_mem w) -> m_Fail (wd_mem w) = ∅ -> dated (wd_mem w) ->
  (forall k c, m_Certificates (wd_mem w) !! k = Some c -> IsUUID k = true) ->
  crf_CursorID f = "" \/ crf_CursorTS f <> 0 ->
  let limit := Z.to_nat (page_limit (crf_Limit f)) in
  let listing := cert_listing now subj f (wd_mem w) (crf_CursorTS f, crf_CursorID f) in
  exists views next, follow now subj n f w = (Ok (views, next), w)
    /\ cv_ID <$> views = crt_ID <$> take limit (drop (n * limit) listing).
Proof.
  intros Hwf Hf Hd Hu Hc limit listing.
  destruct (accessible_ok now subj (wd_mem w) Hf) as (ids & all & Hl).
  apply (follow_from now subj n f w ids all); try done. unfold start_cursor, IsZero.
  destruct Hc as [-> | Hc]; [done|]. rewrite (proj2 (Z.eqb_neq _ _) Hc). by rewrite andb_false_r.
Qed.
End listing.

(** ** Witness: three certificates, two to a page *)
Module ListSample.
Import Toy IssueSample.
#[local] Existing Instance toy_env.
Definition cert (n : string) : IssuedCertificate :=
  sample_cert <| crt_ID := "00000000-0000-7000-8000-00000000000" +:+ n |> <| crt_Serial := n |>.
Definition shelf : World :=
  mkWorld (run_op (OpInsertCertificate (cert "3")) (run_op (OpInsertCertificate (cert "2"))
            (run_op (OpInsertCertificate (cert "1")) sample_store))) [] 0 0.
Lemma shelf_wf : wf (wd_mem shelf).
Proof.
  change (wd_mem shelf)
    with (run_op (OpInsertCertificate (cert "3")) (run_op (OpInsertCertificate (cert "2"))
            (run_op (OpInsertCertificate (cert "1"))
               (run_op (OpInsertIssuer sample_issuer) (Mem_New 100))))).
  repeat (apply run_op_wf || apply wf_New || reflexivity).
Qed.
Definition by_two : CertificateFilter := mkCertificateFilter "" "" "" 0 "" 2.
Lemma shelf_rows :
  map_Forall (fun k c => crt_CreatedAt c <> 0 /\ IsUUID k = true) (m_Certificates (wd_mem shelf)).
Proof. apply (bool_decide_unpack _). vm_compute. exact I. Qed.
Lemma ListCertificates_pages_witness :
  exists views next, follow 200 admin 1 by_two shelf = (Ok (views, next), shelf)
    /\ cv_ID <$> views = ["00000000-0000-7000-8000-000000000001"].
Proof.
  destruct (ListCertificates_pages 200 admin by_two shelf 1 shelf_wf eq_refl
              (fun k c Hk => proj1 (shelf_rows k c Hk)) (fun k c Hk => proj2 (shelf_rows k c Hk))
              (or_introl eq_refl)) as (views & next & Hr & Hv).
  exists views, next. split; [exact Hr|]. rewrite Hv. vm_compute. reflexivity.
Defined.
End ListSample.
