(* ===== verification/Enroll.v ===== *)
(** Enrollment: internal/enroll/enroll.go, requests.go and jobs.go. *)

From S2P Require Import Prelude Rows Memstore MemstoreInv MemstoreList Paging Authz GoJson GoUrl AuditLog.
From S2P Require Import Csr Sealed World Ca IssueBase Domains Providers Issuers Acme Lifecycle.

Definition enroll_invalid (field msg : string) : err := ValidationError "enroll" field msg.
Definition ErrVerifierUnavailable : err := Sentinel "enroll" "ErrVerifierUnavailable".

(** ** Refusals *)
Definition ReasonTokenExpired : string := "enrollment_token_expired".
Definition ReasonTokenNotYetValid : string := "enrollment_token_not_yet_valid".
Definition ReasonTokenUsed : string := "enrollment_token_used".
Definition ReasonTokenInvalid : string := "enrollment_token_invalid".
Definition ReasonSpiffeIDNotAllowed : string := "enrollment_spiffe_id_not_allowed".
Definition ReasonTrustDomainMismatch : string := "enrollment_trust_domain_mismatch".
Definition TokenRefused (reason : string) : bool :=
  contains [ReasonTokenExpired; ReasonTokenNotYetValid; ReasonTokenUsed; ReasonTokenInvalid] reason.
(** [errors.As(err, &re)] for a [*RefusalError]. *)
Fixpoint as_refusal (e : err) : option err :=
  match e with
  | RefusalError _ _ => Some e
  | Wrapf _ w => as_refusal w
  | CausedValidationError _ _ _ c => as_refusal c
  | _ => None
  end.

(** What a verified token authorises. *)
Record EnrollGrant := mkEnrollGrant { eg_TenantID : string; eg_SpiffePaths : list string }.
Definition authorises (g : EnrollGrant) (spiffeID : string) : bool :=
  existsb (fun p => p =s spiffeID) (eg_SpiffePaths g).
(** Why a grant does not authorise an identity of a trust domain. *)
Fixpoint refusal_domains `{GoRuntime} (trustDomain : string) (paths domains : list string)
  : option (list string) :=
  match paths with
  | [] => Some domains
  | p :: ps =>
    match ParseSPIFFEID p with
    | Err _ => refusal_domains trustDomain ps domains
    | Ok id =>
      if sid_TrustDomain id =s trustDomain then None
      else refusal_domains trustDomain ps
             (if contains domains (sid_TrustDomain id) then domains
              else domains ++ [sid_TrustDomain id])
    end
  end.
Definition refusal `{GoRuntime} (g : EnrollGrant) (trustDomain : string) : err :=
  match refusal_domains trustDomain (eg_SpiffePaths g) [] with
  | None | Some [] => RefusalError ReasonSpiffeIDNotAllowed []
  | Some [d] => RefusalError ReasonTrustDomainMismatch [("expected_trust_domain", [d])]
  | Some ds => RefusalError ReasonTrustDomainMismatch [("expected_trust_domains", ds)]
  end.
Definition refusal_reason (e : err) : string := match e with RefusalError r _ => r | _ => "" end.

(** ** Deployment: the verifier of the auth service, the configuration, and the
    formats of package time. *)
Class Enrolling := {
  verify_enrollment : nat -> string -> res EnrollGrant;   (* tok.VerifyEnrollment *)
  cfg_AutoApprove : bool;
  cfg_MaxAttempts : Z;
  format_time : Z -> string;                              (* RFC 3339 with nanoseconds, UTC *)
  parse_time : string -> option Z;
}.
(** [New] replaces a number of attempts that is not positive. *)
Definition max_attempts `{Enrolling} : Z := if cfg_MaxAttempts <=? 0 then 5 else cfg_MaxAttempts.

Record EnrollInput := mkEnrollInput { en_SpiffeID : string; en_CSRPEM : string; en_EnrollmentToken : string }.
Record EnrollResult := mkEnrollResult {
  er_Status : string; er_RequestID : string; er_Bundle : option Bundle;
}.
Record RequestInput := mkRequestInput {
  ri_IssuerID : string; ri_SpiffeID : string; ri_CSRPEM : string; ri_ValiditySeconds : Z;
  ri_DNSSans : option (list string);
}.
Record RequestView := mkRequestView {
  rv_ID : string; rv_Kind : string; rv_SpiffeID : string; rv_IssuerID : string; rv_Status : string;
  rv_SANs : list string; rv_ValiditySeconds : Z; rv_RequestedBy : string; rv_RequesterKind : string;
  rv_Approver : string; rv_Reason : string; rv_HasCSR : bool; rv_CertificateID : string;
  rv_CreatedAt : string; rv_UpdatedAt : string;
}.
Record JobView := mkJobView {
  jv_ID : string; jv_RequestID : string; jv_Type : string; jv_Status : string; jv_Attempts : Z;
  jv_MaxAttempts : Z; jv_ResultCertificateID : string; jv_Error : string; jv_RunAfter : string;
  jv_CreatedAt : string; jv_UpdatedAt : string;
}.

(** [actorKind]: the kind an audit event records for a requester. *)
Definition actorKind (requesterKind : string) : string :=
  if (requesterKind =s "token") || (requesterKind =s "service") then "service" else "user".
Definition orTenant (a b : string) : string := if a <>s "" then a else b.

Section enroll.
Context `{Env} `{Enrolling}.

Definition requestView (r : CertificateRequest) : RequestView :=
  {| rv_ID := req_ID r; rv_Kind := if req_Kind r =s "" then "svid" else req_Kind r;
     rv_SpiffeID := req_SpiffeID r; rv_IssuerID := strp (req_IssuerID r); rv_Status := req_Status r;
     rv_SANs := default [] (stored_sans (req_SANs r)); rv_ValiditySeconds := req_ValiditySeconds r;
     rv_RequestedBy := req_RequestedBy r; rv_RequesterKind := req_RequesterKind r;
     rv_Approver := strp (req_Approver r); rv_Reason := strp (req_Reason r);
     rv_HasCSR := bool_decide (req_CSRPEM r <> None); rv_CertificateID := strp (req_CertificateID r);
     rv_CreatedAt := format_time (req_CreatedAt r); rv_UpdatedAt := format_time (req_UpdatedAt r) |}.
Definition jobView (j : CertificateJob) : JobView :=
  {| jv_ID := job_ID j; jv_RequestID := job_RequestID j; jv_Type := job_Type j;
     jv_Status := job_Status j; jv_Attempts := job_Attempts j; jv_MaxAttempts := job_MaxAttempts j;
     jv_ResultCertificateID := strp (job_ResultCertificateID j); jv_Error := strp (job_Error j);
     jv_RunAfter := format_time (job_RunAfter j); jv_CreatedAt := format_time (job_CreatedAt j);
     jv_UpdatedAt := format_time (job_UpdatedAt j) |}.

(** *** Cursors *)
Definition encodeCursor (ts : Z) (id : string) : string := format_time ts +:+ "|" +:+ id.
(** The first bar that has something before it and a time there; a bar at the
    start is skipped, and a text before the bar that is no time ends the search. *)
Definition decodeCursor (c : string) : res (Z * string) :=
  if c =s "" then Ok (0, "")
  else
    let '(lead, body) := if starts 124 c then ("|", tail c) else ("", c) in
    match cut 124 body with
    | (ts, Some id) => match parse_time (lead +:+ ts) with
                       | Some t => Ok (t, id)
                       | None => Err (enroll_invalid "cursor" "bad cursor")
                       end
    | (_, None) => Err (enroll_invalid "cursor" "bad cursor")
    end.

(** *** Requests *)
Definition createRequest (tenant requestedBy requesterKind : string) (inp : RequestInput)
  : M RequestView :=
  match ParseSPIFFEID (ri_SpiffeID inp) with
  | Err _ => st_err (enroll_invalid "spiffe_id" "invalid SPIFFE ID")
  | Ok sid =>
    if (ri_CSRPEM inp <>s "") && negb (is_ok (ParseCSR (ri_CSRPEM inp)))
    then st_err (enroll_invalid "csr" "certificate request rejected")
    else
      let* issuerID := (if ri_IssuerID inp =s "" then
                          let* def := st_try (reading (Mem_DefaultIssuer tenant (sid_TrustDomain sid))) in
                          st_ret (match def with Ok i => iss_ID i | Err _ => "" end)
                        else st_ret (ri_IssuerID inp)) in
      let* id := newID in
      let row := mkCertificateRequest id tenant (ptrOrNil issuerID) "" (ri_SpiffeID inp)
                   (Some (marshal_strings (sansList (ri_DNSSans inp)))) "" (ptrOrNil (ri_CSRPEM inp))
                   (ri_ValiditySeconds inp) requestedBy requesterKind "pending" None None None 0 0 in
      let* r := st_try (writing (Mem_InsertRequest row)) in
      match r with
      | Err e => if is_conflict e then st_err (enroll_invalid "issuer_id" "unknown issuer") else st_err e
      | Ok _ =>
        let* _ := emit (mkEvent tenant "certificate_requested" (actorKind requesterKind) requestedBy
                          "request" id "" "ok" "" ""
                          [("spiffe_id", AStr (ri_SpiffeID inp)); ("requester_kind", AStr requesterKind)]) in
        let* got := reading (Mem_GetRequest tenant id) in
        st_ret (requestView got)
      end
  end.
Definition CreateRequest (subj : Subjects) (inp : RequestInput) : M RequestView :=
  createRequest (sub_TenantID subj) (ActorID subj) (ActorKind subj) inp.

(** The issuer a request is or would be issued from. *)
Definition requestIssuerID (tenant : string) (r : CertificateRequest) (m : Mem) : res string :=
  if strp (req_IssuerID r) <>s "" then Ok (strp (req_IssuerID r))
  else match ParseSPIFFEID (req_SpiffeID r) with
  | Err _ => Err store_ErrNotFound
  | Ok sid => let? def := Mem_DefaultIssuer tenant (sid_TrustDomain sid) m in Ok (iss_ID def)
  end.
Definition authorizeReadRequest (now : Z) (subj : Subjects) (r : CertificateRequest) (m : Mem)
  : res unit :=
  if (ActorID subj <>s "") && (req_RequestedBy r =s ActorID subj) then Ok tt
  else match requestIssuerID (sub_TenantID subj) r m with
       | Err _ => Err authz_ErrForbidden
       | Ok issuerID => authz_Check now subj IssuerType issuerID Read m
       end.
Definition GetRequest (now : Z) (subj : Subjects) (id : string) : M RequestView :=
  let* r := reading (Mem_GetRequest (sub_TenantID subj) id) in
  let* _ := reading (authorizeReadRequest now subj r) in
  st_ret (requestView r).

Definition page_size (limit : Z) : Z := if (limit <=? 0) || (100 <? limit) then 50 else limit.
Definition ListRequests (now : Z) (subj : Subjects) (status cursor : string) (limit : Z)
  : M (list RequestView * string) :=
  let* (ts, id) := st_lift (decodeCursor cursor) in
  let limit := page_size limit in
  let* rows := reading (Mem_ListRequests (sub_TenantID subj) (mkRequestFilter status ts id limit)) in
  let* out := reading (fun m => Ok (requestView <$>
                List.filter (fun r => is_ok (authorizeReadRequest now subj r m)) rows)) in
  st_ret (out, match list.last rows with
               | Some r => if Z.of_nat (length rows) =? limit then encodeCursor (req_CreatedAt r) (req_ID r)
                           else ""
               | None => ""
               end).

Definition ApproveRequest (now : Z) (subj : Subjects) (id reason : string) : M RequestView :=
  let* r := reading (Mem_GetRequest (sub_TenantID subj) id) in
  let* issuerID := reading (requestIssuerID (sub_TenantID subj) r) in
  let* _ := az_Check now subj IssuerType issuerID Write in
  if req_Status r <>s "pending" then st_err (TransitionError id (req_Status r) "approved")
  else
    let approver := ActorID subj in
    let* jobID := newID in
    let* _ := Atomic (
      let* _ := writing (Mem_SetRequestStatus (sub_TenantID subj) id "approved" (ptrOrNil approver)
                           (ptrOrNil reason)) in
      writing (Mem_InsertJob (mkCertificateJob jobID (sub_TenantID subj) id "issue" "queued" None 0
                                max_attempts None None now 0 0))) in
    let* _ := emit (service_event subj "request_approved" "request" id "ok"
                      [("spiffe_id", AStr (req_SpiffeID r)); ("job_id", AStr jobID)]) in
    let* got := reading (Mem_GetRequest (sub_TenantID subj) id) in
    st_ret (requestView got).

Definition RejectRequest (now : Z) (subj : Subjects) (id reason : string) : M RequestView :=
  let* r := reading (Mem_GetRequest (sub_TenantID subj) id) in
  let* issuerID := reading (requestIssuerID (sub_TenantID subj) r) in
  let* _ := az_Check now subj IssuerType issuerID Write in
  if req_Status r <>s "pending" then st_err (TransitionError id (req_Status r) "rejected")
  else
    let* _ := writing (Mem_SetRequestStatus (sub_TenantID subj) id "rejected" (ptrOrNil (ActorID subj))
                         (ptrOrNil reason)) in
    let* _ := emit (service_event subj "request_rejected" "request" id "ok"
                      [("spiffe_id", AStr (req_SpiffeID r))]) in
    let* got := reading (Mem_GetRequest (sub_TenantID subj) id) in
    st_ret (requestView got).

(** *** Enrollment *)
Definition refuse (tenant kind actorID spiffeID reason : string) : M unit :=
  if tenant =s "" then st_ret tt
  else emit (mkEvent tenant "enrollment_refused" kind actorID "request" "" "" "refused" reason ""
               [("spiffe_id", AStr spiffeID)]).

(** Who enrolls: the caller, or the identity the token authorises.  The tenant, the
    subject issuance acts for, and the name and kind the request records. *)
Definition enrolling_as (subj : Subjects) (inp : EnrollInput) (sid : SPIFFEID)
  : M (string * Subjects * string * string) :=
  if en_EnrollmentToken inp =s ""
  then st_ret (sub_TenantID subj, subj, ActorID subj, ActorKind subj)
  else
    let* r := st_try (drawing (fun n => verify_enrollment n (en_EnrollmentToken inp))) in
    match r with
    | Err verr =>
      if errors_is verr "enroll" "ErrVerifierUnavailable"
      then st_err (Wrapf "enroll: verify enrollment token" verr)
      else
        let re := match as_refusal verr with
                  | Some re => if TokenRefused (refusal_reason re) then re
                               else RefusalError ReasonTokenInvalid []
                  | None => RefusalError ReasonTokenInvalid []
                  end in
        let* _ := refuse (sub_TenantID subj) (ActorKind subj) (ActorID subj) (en_SpiffeID inp)
                    ("enrollment token rejected: " +:+ refusal_reason re) in
        st_err re
    | Ok grant =>
      if negb (authorises grant (en_SpiffeID inp)) then
        let re := refusal grant (sid_TrustDomain sid) in
        let* _ := refuse (orTenant (eg_TenantID grant) (sub_TenantID subj)) "service" (en_SpiffeID inp)
                    (en_SpiffeID inp)
                    ("token does not authorise the requested identity: " +:+ refusal_reason re) in
        st_err re
      else st_ret (eg_TenantID grant, ServiceSubjects (eg_TenantID grant) (en_SpiffeID inp),
                   en_SpiffeID inp, "token")
    end.
Definition Enroll (now : Z) (subj : Subjects) (inp : EnrollInput) : M EnrollResult :=
  match ParseSPIFFEID (en_SpiffeID inp) with
  | Err _ => st_err (enroll_invalid "spiffe_id" "invalid SPIFFE ID")
  | Ok sid =>
    let* (tenant, actor, actorID, requesterKind) := enrolling_as subj inp sid in
    if (en_CSRPEM inp <>s "") && negb (is_ok (ParseCSR (en_CSRPEM inp)))
    then st_err (enroll_invalid "csr" "certificate request rejected")
    else if cfg_AutoApprove then
      let* r := st_try (Issue now actor (mkIssueInput "" (en_SpiffeID inp) (en_CSRPEM inp) "" None 0
                                           (en_CSRPEM inp =s "") false)) in
      match r with
      | Err e =>
        let* _ := refuse tenant (ActorKind actor) actorID (en_SpiffeID inp) "issuance refused" in
        st_err e
      | Ok b =>
        let* _ := emit (mkEvent tenant "enrollment_issued" (ActorKind actor) actorID "certificate"
                          (cv_ID (b_Certificate b)) "" "ok" "" ""
                          [("spiffe_id", AStr (en_SpiffeID inp));
                           ("issuer_id", AStr (cv_IssuerID (b_Certificate b)))]) in
        st_ret (mkEnrollResult "issued" "" (Some b))
      end
    else
      let* rv := createRequest tenant actorID requesterKind
                   (mkRequestInput "" (en_SpiffeID inp) (en_CSRPEM inp) 0 None) in
      st_ret (mkEnrollResult "pending" (rv_ID rv) None)
  end.

(** *** Jobs *)
(** Administrators pass even when the request or the issuer is gone. *)
Definition authorizeJob (now : Z) (subj : Subjects) (j : CertificateJob) (action : string) (m : Mem)
  : res unit :=
  let gone := if IsAdmin subj then Ok tt else Err authz_ErrForbidden in
  match Mem_GetRequest (sub_TenantID subj) (job_RequestID j) m with
  | Err _ => gone
  | Ok r => match requestIssuerID (sub_TenantID subj) r m with
            | Err _ => gone
            | Ok issuerID => authz_Check now subj IssuerType issuerID action m
            end
  end.
Definition GetJob (now : Z) (subj : Subjects) (id : string) : M JobView :=
  let* j := reading (Mem_GetJob (sub_TenantID subj) id) in
  let* _ := reading (authorizeJob now subj j Read) in
  st_ret (jobView j).
Definition ListJobs (now : Z) (subj : Subjects) (status cursor : string) (limit : Z)
  : M (list JobView * string) :=
  let* (ts, id) := st_lift (decodeCursor cursor) in
  let limit := page_size limit in
  let* rows := reading (Mem_ListJobs (sub_TenantID subj) (mkJobFilter status ts id limit)) in
  let* out := reading (fun m => Ok (jobView <$>
                List.filter (fun j => is_ok (authorizeJob now subj j Read m)) rows)) in
  st_ret (out, match list.last rows with
               | Some j => if Z.of_nat (length rows) =? limit then encodeCursor (job_CreatedAt j) (job_ID j)
                           else ""
               | None => ""
               end).

Definition CancelJob (now : Z) (subj : Subjects) (id : string) : M JobView :=
  let* j := reading (Mem_GetJob (sub_TenantID subj) id) in
  let* _ := reading (authorizeJob now subj j Write) in
  if (job_Status j <>s "queued") && (job_Status j <>s "processing")
  then st_err (TransitionError id (job_Status j) "failed")
  else
    let* _ := writing (Mem_UpdateJob (j <| job_Status := "failed" |> <| job_LeaseUntil := None |>
                                        <| job_Error := ptrOrNil "cancelled" |>)) in
    let* _ := emit (mkEvent (sub_TenantID subj) "enrollment_refused" (ActorKind subj) (ActorID subj) "job"
                      id "" "refused" "job cancelled" "" []) in
    let* got := reading (Mem_GetJob (sub_TenantID subj) id) in
    st_ret (jobView got).

Definition RetryJob (now : Z) (subj : Subjects) (id : string) : M JobView :=
  let* j := reading (Mem_GetJob (sub_TenantID subj) id) in
  let* _ := reading (authorizeJob now subj j Write) in
  if job_Status j <>s "failed" then st_err (TransitionError id (job_Status j) "queued")
  else if job_MaxAttempts j <=? job_Attempts j
  then st_err (TransitionError id "attempts_exhausted" "queued")
  else
    let* _ := writing (Mem_UpdateJob (j <| job_Status := "queued" |> <| job_Error := None |>
                                        <| job_LeaseUntil := None |> <| job_RunAfter := now |>)) in
    let* got := reading (Mem_GetJob (sub_TenantID subj) id) in
    st_ret (jobView got).

(** [scrub] looks for enroll's own validation error. *)
Fixpoint enroll_field (e : err) : option string :=
  match e with
  | ValidationError pkg field _ => if pkg =s "enroll" then Some field else None
  | CausedValidationError pkg field _ c => if pkg =s "enroll" then Some field else enroll_field c
  | Wrapf _ w => enroll_field w
  | _ => None
  end.
Definition scrub (e : err) : string :=
  match enroll_field e with Some f => "invalid " +:+ f | None => "issuance failed" end.

Definition failJob (job : CertificateJob) (msg : string) : M unit :=
  let* _ := st_try (writing (Mem_UpdateJob (job <| job_Status := "failed" |> <| job_LeaseUntil := None |>
                                               <| job_Error := ptrOrNil msg |>))) in
  emit (mkEvent (job_TenantID job) "enrollment_refused" "system" "system" "job" (job_ID job) "" "failed"
          msg "" [("request_id", AStr (job_RequestID job)); ("attempts", AInt (job_Attempts job))]).
Definition completed_job (job : CertificateJob) (certID : string) : CertificateJob :=
  job <| job_Status := "completed" |> <| job_ResultCertificateID := Some certID |>
      <| job_Error := None |> <| job_LeaseUntil := None |>.
(** The transaction assigns the fields of [job] before it writes, so the job that is
    failed afterwards carries them unless the transaction never began. *)
Definition ProcessJob (now : Z) (job : CertificateJob) : M unit :=
  let* got := st_try (reading (Mem_GetRequest (job_TenantID job) (job_RequestID job))) in
  match got with
  | Err _ => failJob job "request unavailable"
  | Ok r =>
    let subj := ServiceSubjects (job_TenantID job) (req_SpiffeID r) in
    let* issued := st_try (Issue now subj
      (mkIssueInput (strp (req_IssuerID r)) (req_SpiffeID r) (strp (req_CSRPEM r)) ""
         (stored_sans (req_SANs r)) (req_ValiditySeconds r) false false)) in
    match issued with
    | Err e => failJob job (scrub e)
    | Ok b =>
      let certID := cv_ID (b_Certificate b) in
      let* began := reading (fun m => Ok (bool_decide (m_Fail m !! "Atomic" = None))) in
      let* r' := st_try (Atomic (
        let* _ := writing (Mem_UpdateJob (completed_job job certID)) in
        let* _ := writing (Mem_SetRequestStatus (job_TenantID job) (req_ID r) "issued" None None) in
        if (req_RequesterKind r =s "user") && (req_RequestedBy r <>s "")
        then az_GrantOwner (job_TenantID job) Certificate certID (req_RequestedBy r)
        else st_ret tt)) in
      match r' with
      | Err _ => failJob (if began then completed_job job certID else job) "persisting result failed"
      | Ok _ =>
        emit (mkEvent (job_TenantID job) "enrollment_issued" "system" "system" "certificate" certID "" "ok"
                "" "" [("spiffe_id", AStr (req_SpiffeID r)); ("request_id", AStr (req_ID r));
                       ("job_id", AStr (job_ID job))])
      end
    end
  end.

(** *** The scheduler *)
Record SchedulerConfig := mkSchedulerConfig { sc_Lease : Z; sc_Batch : Z }.
Definition NewScheduler (cfg : SchedulerConfig) : SchedulerConfig :=
  mkSchedulerConfig (if sc_Lease cfg <=? 0 then 60 * Second else sc_Lease cfg)
                    (if sc_Batch cfg <=? 0 then 50 else sc_Batch cfg).
Fixpoint process_all (now : Z) (due : list CertificateJob) (n : Z) : M Z :=
  match due with
  | [] => st_ret n
  | j :: js =>
    let* r := st_try (ProcessJob now j) in
    process_all now js (match r with Ok _ => n + 1 | Err _ => n end)
  end.
Definition Once (now : Z) (cfg : SchedulerConfig) : M Z :=
  let* due := writing (Mem_ClaimDueJobs now (sc_Lease cfg) (sc_Batch cfg)) in
  process_all now due 0.
End enroll.

(** ** Frames of issuance *)

(** What issuance never touches: the requests, the queue and the issuers. *)
Definition queue_view (m : Mem)
  : gmap string CertificateRequest * gmap string CertificateJob * gmap string Issuer * gmap string err :=
  (m_Requests m, m_Jobs m, m_Issuers m, m_Fail m).

Section frames.
Context `{Env}.

(** An operation of the store on other tables. *)
Ltac other_table := intros m; unfold queue_view, fail_write; repeat (case_match; simplify_eq/=); done.

Lemma keeps_InsertCertificate c : keeps queue_view (writing (Mem_InsertCertificate c)).
Proof. apply keeps_writing. unfold Mem_InsertCertificate. other_table. Qed.
Lemma keeps_InsertCertLog l : keeps queue_view (writing (Mem_InsertCertLog l)).
Proof. apply keeps_writing. unfold Mem_InsertCertLog. other_table. Qed.
Lemma keeps_MarkKeyDelivered t id : keeps queue_view (writing (Mem_MarkKeyDelivered t id)).
Proof. apply keeps_writing. unfold Mem_MarkKeyDelivered. other_table. Qed.
Lemma keeps_GrantOwner t rt rid u : keeps queue_view (az_GrantOwner t rt rid u).
Proof.
  unfold az_GrantOwner. keep. apply keeps_writing. intros m. unfold authz_GrantOwner, st_bind, st_ret.
  case_match; [done|]. destruct (as_UpsertGrant _ _) as [[]?] eqn:Hg; apply UpsertGrant_frame in Hg;
    simpl; by rewrite Hg.
Qed.
Lemma keeps_Seal p ad : keeps queue_view (Seal p ad).
Proof. unfold Seal. keep. Qed.
#[local] Hint Resolve keeps_InsertCertificate keeps_InsertCertLog keeps_MarkKeyDelivered
  keeps_GrantOwner keeps_Seal : frames.
Lemma keeps_Issue now subj inp : keeps queue_view (Issue now subj inp).
Proof.
  unfold Issue, resolveIssuer, entitled, mint, mint_key, record_certificate, az_Check, az_Effective. keep.
Qed.
(** The certificate a successful issuance adds. *)
Lemma Issue_adds now subj inp w b w' :
  Issue now subj inp w = (Ok b, w') ->
  exists sid c, ParseSPIFFEID (in_SpiffeID inp) = Ok sid
    /\ m_Certificates (wd_mem w') = <[crt_ID c := c]> (m_Certificates (wd_mem w))
    /\ crt_ID c = cv_ID (b_Certificate b) /\ crt_TenantID c = sub_TenantID subj
    /\ crt_SpiffeID c = SPIFFEID_String sid /\ crt_Status c = "active".
Proof.
  intros (issuer & sid & HR & _ & HM)%Issue_ok. apply resolveIssuer_ok in HR as (_ & Hp & _).
  apply mint_records in HM as (c & ev & Hc & _ & _ & _ & Hid & Ht & _ & Hs & Hst & _ & _ & _ & _ & _
    & _ & _ & Hcv & _). exists sid, c. rewrite Hid. split_and!; congruence || done.
Qed.
End frames.
#[export] Hint Resolve keeps_GrantOwner keeps_Issue : frames.

(** ** Enrollment *)
Section enroll_props.
Context `{Env} `{Enrolling}.

(** A refusal is recorded, and that is all. *)
Lemma refuse_err {A} tenant kind actorID spiffeID reason e w (r : res A) w' :
  (let* _ := refuse tenant kind actorID spiffeID reason in st_err e) w = (r, w') ->
  r = Err e /\ wd_mem w' = wd_mem w /\ wd_ids w' = wd_ids w.
Proof. unfold refuse, st_bind, st_err. by destruct (_ =s _); intros [= <- <-]. Qed.

(** The row a request is stored as. *)
Lemma createRequest_ok tenant by_ kind inp w rv w' :
  createRequest tenant by_ kind inp w = (Ok rv, w') ->
  exists q, m_Requests (wd_mem w') = <[req_ID q := q]> (m_Requests (wd_mem w))
    /\ rv_ID rv = req_ID q /\ req_ID q = new_id (wd_ids w) /\ req_TenantID q = tenant
    /\ req_SpiffeID q = ri_SpiffeID inp /\ req_Status q = "pending" /\ req_RequestedBy q = by_
    /\ req_RequesterKind q = kind
    /\ m_Certificates (wd_mem w') = m_Certificates (wd_mem w) /\ m_Jobs (wd_mem w') = m_Jobs (wd_mem w).
Proof.
  unfold createRequest. intros Hr. destruct (ParseSPIFFEID _) as [sid|]; [|done].
  destruct (_ && _); [done|].
  apply st_bind_ok in Hr as (iid & w1 & Hi & Hr).
  assert (w1 = w) as ->.
  { destruct (_ =s _); [|by apply st_ret_ok in Hi as [_ ->]].
    apply st_bind_ok in Hi as (def & w2 & [= _ <-] & Hi). by apply st_ret_ok in Hi as [_ ->]. }
  apply st_bind_ok in Hr as (id & w1 & [= <- <-] & Hr).
  apply st_bind_ok in Hr as (r & w1 & Hw & Hr). apply (proj1 (st_try_ok _ _ _ _)) in Hw.
  destruct r as [[]|e]; [|by destruct (is_conflict e)].
  apply writing_ok in Hw as (m & Hm & ->). run_step Hr. apply emit_ok in Hrun as ->.
  run_step Hr. apply reading_ok in Hrun as [Hg ->]. apply st_ret_ok in Hr as [-> ->]. simpl in *.
  unfold Mem_InsertRequest, fail_write in Hm. destruct (m_Fail _ !! _); [done|].
  destruct (negb _); [done|]. injection Hm as <-. simpl in *.
  unfold Mem_GetRequest, fail_read in Hg. destruct (m_Fail _ !! _); [done|]. simpl in Hg.
  rewrite lookup_insert_eq, str_eqb_refl in Hg. injection Hg as <-.
  match goal with |- context [<[_ := ?q]> _] => exists q end. split_and!; reflexivity.
Qed.

Lemma authorises_spec g id : authorises g id = bool_decide (id ∈ eg_SpiffePaths g).
Proof.
  unfold authorises. apply eq_true_iff_eq. rewrite existsb_exists, bool_decide_eq_true.
  rewrite list_elem_of_In. split; [by intros (p & Hp & <-%str_eqb_eq)|].
  intros Hi. exists id. by rewrite str_eqb_refl.
Qed.

(** What [enrolling_as] decides from a token. *)
Lemma enrolling_as_token subj inp sid w r w' :
  enrolling_as subj inp sid w = (r, w') -> en_EnrollmentToken inp <> "" ->
  wd_mem w' = wd_mem w /\ wd_ids w' = wd_ids w
  /\ match verify_enrollment (wd_rnd w) (en_EnrollmentToken inp) with
     | Ok g => if authorises g (en_SpiffeID inp)
               then r = Ok (eg_TenantID g, ServiceSubjects (eg_TenantID g) (en_SpiffeID inp),
                            en_SpiffeID inp, "token")
               else r = Err (refusal g (sid_TrustDomain sid))
     | Err _ => is_ok r = false
     end.
Proof.
  unfold enrolling_as. intros Hr Hne. rewrite (proj2 (str_eqb_neq _ _) Hne) in Hr.
  unfold st_bind at 1, st_try, drawing in Hr. simpl in Hr.
  destruct (verify_enrollment _ _) as [g|e].
  - destruct (authorises g _); simpl in Hr; [by injection Hr as <- <-|].
    by apply refuse_err in Hr as (-> & -> & ->).
  - destruct (errors_is _ _ _); [by injection Hr as <- <-|].
    by apply refuse_err in Hr as (-> & -> & ->).
Qed.

(** What enrolling with a token does, by the verdict on the token. *)
Lemma Enroll_with_token now subj inp w r w' :
  Enroll now subj inp w = (r, w') -> en_EnrollmentToken inp <> "" ->
  match verify_enrollment (wd_rnd w) (en_EnrollmentToken inp) with
  | Err _ => is_ok r = false /\ wd_mem w' = wd_mem w
  | Ok g =>
    if decide (en_SpiffeID inp ∈ eg_SpiffePaths g) then
      forall er, r = Ok er ->
      if cfg_AutoApprove then
        er_Status er = "issued"
        /\ exists b c sid, er_Bundle er = Some b /\ cv_ID (b_Certificate b) = crt_ID c
           /\ ParseSPIFFEID (en_SpiffeID inp) = Ok sid /\ crt_SpiffeID c = SPIFFEID_String sid
           /\ crt_TenantID c = eg_TenantID g /\ crt_Status c = "active"
           /\ m_Certificates (wd_mem w') = <[crt_ID c := c]> (m_Certificates (wd_mem w))
      else
        er_Status er = "pending" /\ er_Bundle er = None
        /\ m_Certificates (wd_mem w') = m_Certificates (wd_mem w)
        /\ exists q, er_RequestID er = req_ID q /\ req_TenantID q = eg_TenantID g
           /\ req_Status q = "pending" /\ req_SpiffeID q = en_SpiffeID inp
           /\ req_RequestedBy q = en_SpiffeID inp /\ req_RequesterKind q = "token"
           /\ m_Requests (wd_mem w') = <[req_ID q := q]> (m_Requests (wd_mem w))
    else is_ok r = false /\ wd_mem w' = wd_mem w
  end.
Proof.
  unfold Enroll. intros Hr Hne. destruct (ParseSPIFFEID (en_SpiffeID inp)) as [sid|e] eqn:Hp.
  2: { injection Hr as <- <-. destruct (verify_enrollment _ _) as [g|]; [case_decide|]; done. }
  unfold st_bind at 1 in Hr. destruct (enrolling_as subj inp sid w) as [a w1] eqn:Ha.
  apply enrolling_as_token in Ha as (Hm & Hids & Ha); [|done].
  destruct (verify_enrollment _ _) as [g|].
  2: { destruct a; [done|]. by injection Hr as <- <-. }
  rewrite authorises_spec in Ha. unfold bool_decide in Ha. case_decide as Hin.
  2: { rewrite Ha in Hr. by injection Hr as <- <-. }
  rewrite Ha in Hr. intros er ->. destruct (_ && _); [done|]. destruct cfg_AutoApprove.
  - apply st_bind_ok in Hr as (ri & w2 & Hi & Hr). apply (proj1 (st_try_ok _ _ _ _)) in Hi. destruct ri as [b|e].
    2: { apply st_bind_ok in Hr as (? & ? & _ & Hr). done. }
    apply st_bind_ok in Hr as ([] & w3 & He & Hr). apply emit_ok in He as ->.
    apply st_ret_ok in Hr as [-> ->]. split; [done|].
    apply Issue_adds in Hi as (sid' & c & Hs & Hc & Hid & Ht & Hsp & Hst). simpl in Hs.
    rewrite Hm in Hc. exists b, c, sid'. split_and!; congruence || done.
  - apply st_bind_ok in Hr as (rv & w2 & Hc & Hr). apply st_ret_ok in Hr as [-> ->].
    apply createRequest_ok in Hc as (q & Hq & Hv & _ & Ht & Hs & Hst & Hby & Hk & Hcs & _).
    rewrite Hm in *. split_and!; try done. exists q. split_and!; done.
Qed.

(** C8. Enrolling with a token: the identity must be one of those the verified
    token names, and everything happens in the token's tenant, whatever the
    caller says of itself.  With automatic approval an active certificate for the
    identity is added; without, a pending request is, in the identity's own name,
    and no certificate.  A token that is refused, or does not name the identity,
    changes nothing in the store. *)
Theorem Enroll_token now subj inp w r w' :
  Enroll now subj inp w = (r, w') -> en_EnrollmentToken inp <> "" ->
  match verify_enrollment (wd_rnd w) (en_EnrollmentToken inp) with
  | Err _ => is_ok r = false /\ wd_mem w' = wd_mem w
  | Ok g =>
    if decide (en_SpiffeID inp ∈ eg_SpiffePaths g) then
      forall er, r = Ok er ->
      if cfg_AutoApprove then
        er_Status er = "issued"
        /\ exists b c sid, er_Bundle er = Some b /\ cv_ID (b_Certificate b) = crt_ID c
           /\ ParseSPIFFEID (en_SpiffeID inp) = Ok sid /\ crt_SpiffeID c = SPIFFEID_String sid
           /\ crt_TenantID c = eg_TenantID g /\ crt_Status c = "active"
           /\ m_Certificates (wd_mem w') = <[crt_ID c := c]> (m_Certificates (wd_mem w))
      else
        er_Status er = "pending" /\ er_Bundle er = None
        /\ m_Certificates (wd_mem w') = m_Certificates (wd_mem w)
        /\ exists q, er_RequestID er = req_ID q /\ req_TenantID q = eg_TenantID g
           /\ req_Status q = "pending" /\ req_SpiffeID q = en_SpiffeID inp
           /\ req_RequestedBy q = en_SpiffeID inp /\ req_RequesterKind q = "token"
           /\ m_Requests (wd_mem w') = <[req_ID q := q]> (m_Requests (wd_mem w))
    else is_ok r = false /\ wd_mem w' = wd_mem w
  end.
Proof. exact (Enroll_with_token now subj inp w r w'). Qed.
End enroll_props.

(** ** Decisions on requests *)
Section decisions.
Context `{Env} `{Enrolling}.

Lemma GetRequest_row tid id m r :
  Mem_GetRequest tid id m = Ok r ->
  exists q, m_Requests m !! id = Some q /\ req_TenantID q = tid /\ r = cpRequest q.
Proof.
  unfold Mem_GetRequest, fail_read. case_match; [done|]. destruct (m_Requests m !! id) as [q|]; [|done].
  case_match; [|done]. bools. intros [= <-]. eauto.
Qed.
Lemma SetRequestStatus_ok tid id status a reason m m' u :
  Mem_SetRequestStatus tid id status a reason m = (Ok u, m') ->
  exists q q', m_Requests m !! id = Some q /\ req_TenantID q = tid
    /\ m' = m <| m_Requests := <[id := q']> (m_Requests m) |> /\ req_Status q' = status
    /\ req_TenantID q' = tid /\ req_SpiffeID q' = req_SpiffeID q /\ req_ID q' = req_ID q.
Proof.
  unfold Mem_SetRequestStatus, fail_write. case_match; [done|].
  destruct (m_Requests m !! id) as [q|] eqn:Hq; [|done].
  destruct (req_TenantID q =s tid) eqn:Ht; simpl; [|done]. bools. intros [= _ <-].
  eexists _, _. split_and!; [done|done|reflexivity|..]; destruct a, reason; done.
Qed.
Lemma InsertJob_ok j m m' u :
  Mem_InsertJob j m = (Ok u, m') ->
  exists after, m' = m <| m_Jobs := <[job_ID j := j <| job_CreatedAt := m_Now m |>
                             <| job_UpdatedAt := m_Now m |> <| job_RunAfter := after |>]> (m_Jobs m) |>.
Proof.
  unfold Mem_InsertJob, fail_write. case_match; [done|]. intros [= _ <-].
  destruct j. simpl. destruct (IsZero _); by eexists.
Qed.

(** A request that is not pending is not decided again. *)
Lemma decided_request now subj id reason w q :
  m_Requests (wd_mem w) !! id = Some q -> req_Status q <> "pending" ->
  (exists e, ApproveRequest now subj id reason w = (Err e, w))
  /\ (exists e, RejectRequest now subj id reason w = (Err e, w)).
Proof.
  intros Hq Hs. unfold ApproveRequest, RejectRequest.
  split; unfold st_bind at 1, reading at 1;
    (destruct (Mem_GetRequest _ _ _) as [r|e] eqn:Hr; [|eauto]);
    apply GetRequest_row in Hr as (q' & Hq' & _ & ->);
    assert (q' = q) as -> by congruence;
    unfold st_bind at 1, reading at 1; (destruct (requestIssuerID _ _ _); [|eauto]);
    unfold st_bind at 1, az_Check, reading at 1; (destruct (authz_Check _ _ _ _ _ _); [|eauto]);
    rewrite (proj2 (str_eqb_neq (req_Status (cpRequest q)) "pending") Hs); simpl; unfold st_err; eauto.
Qed.

(** A request is approved at most once, by a caller who may write its issuer,
    while it is pending; approval queues exactly one job for it, with all its
    attempts left, and issues nothing itself; afterwards nobody can approve or
    reject the request again, and trying changes nothing. *)
Theorem ApproveRequest_once now subj id reason w rv w' :
  ApproveRequest now subj id reason w = (Ok rv, w') ->
  exists q q' issuerID j,
    m_Requests (wd_mem w) !! id = Some q /\ req_TenantID q = sub_TenantID subj
    /\ req_Status q = "pending" /\ requestIssuerID (sub_TenantID subj) (cpRequest q) (wd_mem w) = Ok issuerID
    /\ permitted now subj IssuerType issuerID Write (wd_mem w)
    /\ m_Requests (wd_mem w') = <[id := q']> (m_Requests (wd_mem w)) /\ req_Status q' = "approved"
    /\ m_Jobs (wd_mem w') = <[job_ID j := j]> (m_Jobs (wd_mem w))
    /\ job_TenantID j = sub_TenantID subj /\ job_RequestID j = id /\ job_Status j = "queued"
    /\ job_Attempts j = 0 /\ job_MaxAttempts j = max_attempts
    /\ m_Certificates (wd_mem w') = m_Certificates (wd_mem w)
    /\ forall now2 subj2 reason2,
         (exists e, ApproveRequest now2 subj2 id reason2 w' = (Err e, w'))
         /\ (exists e, RejectRequest now2 subj2 id reason2 w' = (Err e, w')).
Proof.
  unfold ApproveRequest at 1. intros Hr. apply st_bind_ok in Hr as (r & w0 & Hg & Hr).
  apply reading_ok in Hg as [Hg ->]. apply GetRequest_row in Hg as (q & Hq & Hqt & ->).
  apply st_bind_ok in Hr as (iid & w0 & Hi & Hr). apply reading_ok in Hi as [Hi ->].
  apply st_bind_ok in Hr as ([] & w0 & Hc & Hr). apply az_Check_ok in Hc as [-> Hc].
  destruct (req_Status (cpRequest q) =s "pending") eqn:Hs; simpl in Hr; [|done]. bools.
  apply st_bind_ok in Hr as (jid & w0 & [= <- <-] & Hr).
  apply st_bind_ok in Hr as ([] & w1 & Ha & Hr). apply Atomic_ok in Ha.
  apply st_bind_ok in Ha as ([] & w2 & H1 & H2). apply writing_ok in H1 as (m1 & H1 & ->).
  apply writing_ok in H2 as (m2 & H2 & ->).
  apply SetRequestStatus_ok in H1 as (q0 & q' & _ & _ & -> & Hst & Ht' & _).
  apply InsertJob_ok in H2 as (after & ->).
  apply st_bind_ok in Hr as ([] & w2 & Hev & Hr). apply emit_ok in Hev as ->.
  apply st_bind_ok in Hr as (got & w2 & Hgot & Hr). apply reading_ok in Hgot as [_ ->].
  apply st_ret_ok in Hr as [_ ->]. simpl.
  exists q, q', iid. match goal with |- context [<[_ := ?j]> (m_Jobs _)] => exists j end.
  split_and!; try done. intros. apply (decided_request _ _ _ _ _ q'); simpl.
  - apply lookup_insert_eq.
  - by rewrite Hst.
Qed.
End decisions.
