(* ===== verification/EnrollJobs.v ===== *)
(** The queue of enrollment jobs: internal/enroll/jobs.go.

    Several workers and callers share the queue, and an operation makes several calls on
    the store.  The queue is a transition system in which a step is one call, or one
    transaction of the store; what carries from one call of an operation to the next are
    the copies of jobs it has read or claimed, which may be stale when they are written
    back.  [calls] says which calls an operation is made of. *)

From S2P Require Import Prelude Rows Memstore MemstoreInv MemstoreList Authz GoJson GoUrl AuditLog.
From S2P Require Import Csr Sealed World IssueBase Issuers Enroll.

(** ** The invariant of a job *)
Definition job_states : list string := ["queued"; "processing"; "completed"; "failed"].
Record job_ok (j : CertificateJob) : Prop := {
  ok_status : job_Status j ∈ job_states;
  ok_attempts : 0 <= job_Attempts j <= job_MaxAttempts j;
  ok_queued : job_Status j = "queued" -> job_Attempts j < job_MaxAttempts j;
  ok_started : job_Status j = "processing" \/ job_Status j = "completed" -> 1 <= job_Attempts j;
  ok_lease : job_LeaseUntil j <> None <-> job_Status j = "processing";
  ok_result : job_Status j = "completed" -> job_ResultCertificateID j <> None;
}.
Definition jobs_ok (m : Mem) : Prop :=
  keyed job_ID (m_Jobs m) /\ forall k j, m_Jobs m !! k = Some j -> job_ok j.

(** A computation that keeps the queue well-formed however it ends. *)
Definition safe {A} (c : M A) : Prop := forall w, jobs_ok (wd_mem w) -> jobs_ok (wd_mem (c w).2).

Section safety.
Context `{Env} `{Enrolling}.

Lemma safe_keeps {A} (c : M A) : keeps m_Jobs c -> safe c.
Proof. intros Hc w Hw. unfold jobs_ok. by rewrite (Hc w). Qed.
Lemma safe_bind {A B} (c : M A) (k : A -> M B) : safe c -> (forall a, safe (k a)) -> safe (st_bind c k).
Proof.
  intros Hc Hk w Hw. unfold st_bind. specialize (Hc w Hw). destruct (c w) as [[a|e] w1]; [|done].
  by apply Hk.
Qed.
Lemma safe_try {A} (c : M A) : safe c -> safe (st_try c).
Proof. intros Hc w Hw. unfold st_try. specialize (Hc w Hw). by destruct (c w). Qed.
Lemma safe_Atomic {A} (c : M A) : safe c -> safe (Atomic c).
Proof.
  intros Hc w Hw. unfold Atomic. case_match; [done|]. specialize (Hc w Hw).
  destruct (c w) as [[a|e] w1]; [done|]. by destruct tx_rollback.
Qed.
Lemma safe_InsertJob j : job_ok j -> safe (writing (Mem_InsertJob j)).
Proof.
  intros Hj w [Hk Hw]. unfold writing. destruct (Mem_InsertJob j (wd_mem w)) as [[u|e] m] eqn:Hi.
  - apply InsertJob_ok in Hi as [after ->]. split; [by apply keyed_insert|]. simpl.
    intros k x [[<- <-]|[_ Hx]]%lookup_insert_Some; [|by eapply Hw]. by destruct Hj.
  - unfold Mem_InsertJob, fail_write in Hi. case_match; [|done]. by injection Hi as _ <-.
Qed.
(** Writing a well-formed copy back keeps the row well-formed, whatever it was. *)
Lemma safe_UpdateJob j : job_ok j -> safe (writing (Mem_UpdateJob j)).
Proof.
  intros Hj w [Hk Hw]. unfold writing, Mem_UpdateJob, fail_write. destruct (m_Fail _ !! _); [done|].
  destruct (m_Jobs (wd_mem w) !! job_ID j) as [old|] eqn:Ho; [|done].
  destruct (job_TenantID old =s job_TenantID j); [|done]. simpl. split; simpl.
  - apply keyed_insert; [done|]. by apply Hk in Ho.
  - intros k x [[<- <-]|[_ Hx]]%lookup_insert_Some; [|by eapply Hw]. by destruct Hj.
Qed.
(** *** The rows that are written *)
Lemma max_attempts_pos : 1 <= max_attempts.
Proof. unfold max_attempts. destruct (_ <=? _) eqn:E; bools; lia. Qed.
Lemma failed_ok j f : job_ok j ->
  job_ok (j <| job_Status := "failed" |> <| job_LeaseUntil := None |> <| job_Error := f |>).
Proof. intros [_ ? _ _ _ _]. split; simpl; [set_solver|lia|done|by intros [[=]|[=]]|done|done]. Qed.
Lemma completed_ok j id : job_ok j -> job_Status j = "processing" -> job_ok (completed_job j id).
Proof.
  intros [_ ? _ Hst _ _] Hs. specialize (Hst (or_introl Hs)).
  split; simpl; [set_solver|lia|done|lia|done|done].
Qed.

(** *** Claims *)
Lemma ClaimDueJobs_safe now lease limit w r w' :
  jobs_ok (wd_mem w) -> writing (Mem_ClaimDueJobs now lease limit) w = (r, w') ->
  jobs_ok (wd_mem w')
  /\ forall out, r = Ok out -> Forall (fun j => job_ok j /\ job_Status j = "processing") out.
Proof.
  intros [Hk Hw] Hc. unfold writing in Hc.
  destruct (Mem_ClaimDueJobs now lease limit (wd_mem w)) as [[out|e] m] eqn:Hm;
    injection Hc as <- <-; simpl.
  2: { unfold Mem_ClaimDueJobs, fail_write in Hm. case_match; [|by destruct (foldl _ _ _)].
       injection Hm as _ <-. done. }
  apply ClaimDueJobs_ok in Hm as (-> & Hm & Hin & Hout); [|done].
  set (l := sqlLimit (due_sorted now (wd_mem w)) limit) in *.
  assert (Hl : forall j, j ∈ l -> job_ok (claimed now (now + lease) j)).
  { intros j Hj. destruct (sqlLimit_prefix (due_sorted now (wd_mem w)) limit) as [rest Hrest].
    assert (Hd : j ∈ due_sorted now (wd_mem w)) by (rewrite Hrest; fold l; set_solver).
    apply elem_of_due_sorted in Hd as [Hd [k Hjm]]. apply Hw in Hjm as [].
    unfold job_due in Hd. bools. assert (job_Attempts j < job_MaxAttempts j) by auto.
    split; simpl; [set_solver|lia|done|lia|done|done]. }
  split; [|intros ? [= <-]; apply Forall_forall; intros ? (j & -> & Hj)%list_elem_of_fmap; eauto].
  assert (Hcase : forall k x, m_Jobs m !! k = Some x -> job_ID x = k /\ job_ok x).
  { intros k x Hx. destruct (decide (k ∈ job_ID <$> l)) as [(j & -> & Hj)%list_elem_of_fmap|Hn].
    - rewrite (Hin j Hj) in Hx. injection Hx as <-. split; [done|by apply Hl].
    - rewrite (Hout k Hn) in Hx. split; [by apply Hk|by eapply Hw]. }
  split; [intros k x Hx|intros k x Hx]; by apply Hcase in Hx as [].
Qed.

(** ** The queue as a transition system *)

(** The copies callers have read, and those workers have claimed. *)
Implicit Types (seen held : list CertificateJob).
(** What is written back of a copy: by CancelJob and RetryJob of one that was read and
    passed their tests, by ProcessJob of one that was claimed. *)
Inductive writes seen held : CertificateJob -> Prop :=
| wr_cancel j : j ∈ seen -> job_Status j = "queued" \/ job_Status j = "processing" ->
    writes seen held (j <| job_Status := "failed" |> <| job_LeaseUntil := None |> <| job_Error := ptrOrNil "cancelled" |>)
| wr_retry now j : j ∈ seen -> job_Status j = "failed" -> job_Attempts j < job_MaxAttempts j ->
    writes seen held (j <| job_Status := "queued" |> <| job_Error := None |> <| job_LeaseUntil := None |> <| job_RunAfter := now |>)
| wr_complete j certID : j ∈ held -> writes seen held (completed_job j certID)
| wr_fail j j0 msg : j ∈ held -> j0 = j \/ (exists certID, j0 = completed_job j certID) ->
    writes seen held (j0 <| job_Status := "failed" |> <| job_LeaseUntil := None |> <| job_Error := ptrOrNil msg |>).
(** The job ApproveRequest adds. *)
Definition new_job (j : CertificateJob) : Prop :=
  job_Status j = "queued" /\ job_LeaseUntil j = None /\ job_Attempts j = 0 /\ job_MaxAttempts j = max_attempts.
(** The operations made of calls on the queue, and of anything elsewhere. *)
Inductive calls : forall A, list CertificateJob -> list CertificateJob -> M A -> Prop :=
| cs_elsewhere A seen held (c : M A) : keeps m_Jobs c -> calls A seen held c
| cs_write seen held j : writes seen held j -> calls unit seen held (writing (Mem_UpdateJob j))
| cs_insert seen held j : new_job j -> calls unit seen held (writing (Mem_InsertJob j))
| cs_read A seen held tid id (k : CertificateJob -> M A) :
    (forall j, calls A (seen ++ [j]) held (k j)) -> calls A seen held (st_bind (reading (Mem_GetJob tid id)) k)
| cs_claim A seen held now lease limit (k : list CertificateJob -> M A) :
    (forall out, calls A seen (held ++ out) (k out)) -> calls A seen held (st_bind (writing (Mem_ClaimDueJobs now lease limit)) k)
| cs_bind A B seen held (c : M A) (k : A -> M B) : calls A seen held c -> (forall a, calls B seen held (k a)) -> calls B seen held (st_bind c k)
| cs_try A seen held (c : M A) : calls A seen held c -> calls (res A) seen held (st_try c)
| cs_atomic A seen held (c : M A) : calls A seen held c -> calls A seen held (Atomic c).

(** The store, and the copies. *)
Definition QState : Type := World * list CertificateJob * list CertificateJob.
Inductive qstep : QState -> QState -> Prop :=
| q_read tid id j w seen held : Mem_GetJob tid id (wd_mem w) = Ok j -> qstep (w, seen, held) (w, seen ++ [j], held)
| q_write j w seen held r w' : writes seen held j -> writing (Mem_UpdateJob j) w = (r, w') -> qstep (w, seen, held) (w', seen, held)
| q_insert j w seen held r w' : new_job j -> writing (Mem_InsertJob j) w = (r, w') -> qstep (w, seen, held) (w', seen, held)
| q_claim now lease limit w seen held out w' :
    writing (Mem_ClaimDueJobs now lease limit) w = (Ok out, w') -> qstep (w, seen, held) (w', seen, held ++ out)
| q_atomic A (c : M A) w seen held r w' : calls A seen held c -> Atomic c w = (r, w') -> qstep (w, seen, held) (w', seen, held)
| q_other w w' seen held : m_Jobs (wd_mem w') = m_Jobs (wd_mem w) -> qstep (w, seen, held) (w', seen, held).

Definition qinv (s : QState) : Prop :=
  jobs_ok (wd_mem s.1.1) /\ Forall job_ok s.1.2 /\ Forall (fun j => job_ok j /\ job_Status j = "processing") s.2.
Lemma safe_run {A} (c : M A) w r w' : safe c -> jobs_ok (wd_mem w) -> c w = (r, w') -> jobs_ok (wd_mem w').
Proof. intros Hc Hw Hr. specialize (Hc w Hw). by rewrite Hr in Hc. Qed.
Lemma writes_ok seen held j :
  Forall job_ok seen -> Forall (fun j => job_ok j /\ job_Status j = "processing") held -> writes seen held j -> job_ok j.
Proof.
  intros Hs Hh [x Hx _|now x Hx Hf Ha|x id Hx|x x0 msg Hx H0x].
  - eapply failed_ok, Forall_forall; done.
  - eapply Forall_forall in Hs; [|exact Hx]. destruct Hs as [_ ? _ _ _ _]. split; simpl; [set_solver|lia|lia|by intros [[=]|[=]]|done|done].
  - eapply Forall_forall in Hh as [? ?]; [|exact Hx]. by apply completed_ok.
  - eapply Forall_forall in Hh as [? ?]; [|exact Hx]. apply failed_ok. destruct H0x as [->|[id ->]]; [done|by apply completed_ok].
Qed.
Lemma new_job_ok j : new_job j -> job_ok j.
Proof.
  intros (Hs & Hl & Ha & Hm). pose proof max_attempts_pos.
  split; rewrite ?Hs, ?Hl, ?Ha, ?Hm; [set_solver|lia|lia|by intros [[=]|[=]]|done|done].
Qed.
Lemma GetJob_ok tid id m j : jobs_ok m -> Mem_GetJob tid id m = Ok j -> job_ok j.
Proof.
  intros Hm Hj. unfold Mem_GetJob, fail_read in Hj. case_match; [done|].
  destruct (m_Jobs _ !! id) as [x|] eqn:Hx; [|done]. case_match; [|done]. injection Hj as <-. by eapply Hm.
Qed.
Lemma calls_safe A seen held (c : M A) :
  calls A seen held c -> Forall job_ok seen -> Forall (fun j => job_ok j /\ job_Status j = "processing") held -> safe c.
Proof.
  induction 1 as [A s h c Hc|s h j Hj|s h j Hj|A s h tid id k _ IH|A s h now lease limit k _ IH|A B s h c k _ IHc _ IHk|A s h c _ IH|A s h c _ IH];
    intros Hs Hh.
  - by apply safe_keeps.
  - by eapply safe_UpdateJob, writes_ok.
  - by apply safe_InsertJob, new_job_ok.
  - intros w Hw. unfold st_bind, reading. destruct (Mem_GetJob tid id (wd_mem w)) as [j|] eqn:Hj; [|done].
    apply IH; [|done|done]. apply Forall_app_2; [done|]. apply Forall_singleton. by eapply GetJob_ok.
  - intros w Hw. unfold st_bind. destruct (writing _ w) as [r w1] eqn:Hc. destruct (ClaimDueJobs_safe _ _ _ _ _ _ Hw Hc) as [Hw1 Ho].
    destruct r as [out|e]; [|done]. apply IH; [done| |done]. apply Forall_app_2; auto.
  - apply safe_bind; auto.
  - by apply safe_try, IH.
  - by apply safe_Atomic, IH.
Qed.
Lemma qstep_inv s s' : qstep s s' -> qinv s -> qinv s'.
Proof.
  intros Hst (Hw & Hs & Hh). destruct Hst as [tid id j w seen held Hr|j w seen held r w' Hj Hr|j w seen held r w' Hj Hr
    |now lease limit w seen held out w' Hr|A c w seen held r w' Hc Hr|w w' seen held Hr]; simpl in *.
  - split_and!; [done| |done]. apply Forall_app_2; [done|]. apply Forall_singleton. by eapply GetJob_ok.
  - split_and!; [|done..]. eapply safe_run; [|exact Hw|exact Hr]. by eapply safe_UpdateJob, writes_ok.
  - split_and!; [|done..]. eapply safe_run; [|exact Hw|exact Hr]. by apply safe_InsertJob, new_job_ok.
  - destruct (ClaimDueJobs_safe _ _ _ _ _ _ Hw Hr) as [? Ho]. split_and!; [done|done|]. apply Forall_app_2; auto.
  - split_and!; [|done..]. eapply safe_run; [|exact Hw|exact Hr]. by eapply safe_Atomic, calls_safe.
  - split_and!; [|done..]. unfold jobs_ok in *. simpl. by rewrite Hr.
Qed.
Lemma reach_qinv s s' : rtc qstep s s' -> qinv s -> qinv s'.
Proof. induction 1; eauto using qstep_inv. Qed.

(** *** The operations of the service are made of such calls *)
Lemma writes_more seen held seen' held' j : seen ⊆ seen' -> held ⊆ held' -> writes seen held j -> writes seen' held' j.
Proof. intros Hs Hh [| | |]; econstructor; eauto. Qed.
Lemma calls_more A seen held (c : M A) : calls A seen held c -> forall seen' held', seen ⊆ seen' -> held ⊆ held' -> calls A seen' held' c.
Proof.
  induction 1 as [A s h c Hc|s h j Hj|s h j Hj|A s h tid id k _ IH|A s h now lease limit k _ IH|A B s h c k _ IHc _ IHk|A s h c _ IH|A s h c _ IH];
    intros s' h' Hs Hh.
  - by apply cs_elsewhere.
  - apply cs_write. by eapply writes_more.
  - by apply cs_insert.
  - apply cs_read. intros j. apply IH; set_solver.
  - apply cs_claim. intros out. apply IH; set_solver.
  - apply (cs_bind A); auto.
  - by apply cs_try, IH.
  - by apply cs_atomic, IH.
Qed.
(** Run to its end without others, an operation is a run of the system. *)
Lemma calls_steps A seen0 held0 (c : M A) : calls A seen0 held0 c -> forall seen held w, seen0 ⊆ seen -> held0 ⊆ held ->
  exists seen' held', seen ⊆ seen' /\ held ⊆ held' /\ rtc qstep (w, seen, held) ((c w).2, seen', held').
Proof.
  induction 1 as [A s0 h0 c Hc|s0 h0 j Hj|s0 h0 j Hj|A s0 h0 tid id k _ IH|A s0 h0 now lease limit k _ IH|A B s0 h0 c k _ IHc _ IHk
    |A s0 h0 c _ IH|A s0 h0 c Hc IH]; intros s h w Hs Hh.
  - exists s, h. split_and!; [done..|]. apply rtc_once, q_other, Hc.
  - exists s, h. split_and!; [done..|]. apply rtc_once. eapply q_write; [by eapply writes_more|apply surjective_pairing].
  - exists s, h. split_and!; [done..|]. apply rtc_once. eapply q_insert; [done|apply surjective_pairing].
  - unfold st_bind, reading. destruct (Mem_GetJob tid id (wd_mem w)) as [j|e] eqn:Hj; [|exists s, h; split_and!; [done..|apply rtc_refl]].
    destruct (IH j (s ++ [j]) h w) as (s' & h' & ? & ? & Hr); [set_solver|done|]. exists s', h'. split_and!; [set_solver|done|].
    eapply rtc_l; [by eapply q_read|done].
  - unfold st_bind. destruct (writing _ w) as [[out|e] w1] eqn:Hc.
    + destruct (IH out s (h ++ out) w1) as (s' & h' & ? & ? & Hr); [done|set_solver|]. exists s', h'. split_and!; [done|set_solver|].
      eapply rtc_l; [by eapply q_claim|done].
    + exists s, h. split_and!; [done..|]. apply rtc_once, q_other. unfold writing, Mem_ClaimDueJobs, fail_write in Hc.
      destruct (m_Fail _ !! _); [|by destruct (foldl _ _ _)]. by injection Hc as _ <-.
  - destruct (IHc s h w Hs Hh) as (s1 & h1 & Hs1 & Hh1 & Hr1). unfold st_bind. destruct (c w) as [[a|e] w1]; simpl in Hr1; [|by exists s1, h1].
    destruct (IHk a s1 h1 w1) as (s' & h' & ? & ? & Hr2); [by etrans..|]. exists s', h'. split_and!; [by etrans..|by etrans].
  - destruct (IH s h w Hs Hh) as (s' & h' & ? & ? & Hr). exists s', h'. unfold st_try. by destruct (c w).
  - exists s, h. split_and!; [done..|]. apply rtc_once. eapply q_atomic; [by eapply calls_more|apply surjective_pairing].
Qed.
(** Calls that leave the jobs alone. *)
Lemma elsewhere_view {A} (c : M A) seen held : keeps queue_view c -> calls A seen held c.
Proof. intros Hc. apply cs_elsewhere. intros w. by injection (Hc w). Qed.
Lemma elsewhere_SetRequestStatus t id s a r seen held : calls _ seen held (writing (Mem_SetRequestStatus t id s a r)).
Proof.
  apply cs_elsewhere, keeps_writing. intros m. unfold Mem_SetRequestStatus, fail_write.
  repeat (case_match; simplify_eq/=); done.
Qed.
Create HintDb queue.
Hint Resolve elsewhere_SetRequestStatus cs_write cs_insert : queue.
Hint Extern 2 (calls _ _ _ (_ _)) => by apply cs_elsewhere : queue.
Hint Extern 3 (calls _ _ _ _) => apply elsewhere_view; eauto 2 with frames : queue.
Ltac call_by_call :=
  repeat first
    [ progress (eauto 2 with queue)
    | lazymatch goal with
      | |- calls _ _ _ (st_bind (reading (Mem_GetJob _ _)) _) => apply cs_read; intros ?
      | |- calls _ _ _ (st_bind (writing (Mem_ClaimDueJobs _ _ _)) _) => apply cs_claim; intros ?
      | |- calls _ _ _ (st_bind (A := ?T) _ _) => apply (cs_bind T); [|intros ?]
      | |- calls _ _ _ (st_try _) => apply cs_try
      | |- calls _ _ _ (Atomic _) => apply cs_atomic
      | |- calls _ _ _ (match ?x with _ => _ end) => destruct x eqn:?
      end ].
Lemma ApproveRequest_calls now subj id reason seen held : calls _ seen held (ApproveRequest now subj id reason).
Proof. unfold ApproveRequest, az_Check. call_by_call. by apply cs_insert. Qed.
Lemma CancelJob_calls now subj id seen held : calls _ seen held (CancelJob now subj id).
Proof.
  unfold CancelJob. call_by_call. apply cs_write, wr_cancel; [set_solver|].
  match goal with E : _ && _ = false |- _ => apply andb_false_iff in E as [E|E]; bools; auto end.
Qed.
Lemma RetryJob_calls now subj id seen held : calls _ seen held (RetryJob now subj id).
Proof. unfold RetryJob. call_by_call. bools. apply cs_write, wr_retry; [set_solver|done|lia]. Qed.
Lemma failJob_calls j j0 msg seen held :
  j ∈ held -> j0 = j \/ (exists certID, j0 = completed_job j certID) -> calls _ seen held (failJob j0 msg).
Proof. intros Hj Hc. unfold failJob. call_by_call. apply cs_write. by eapply wr_fail. Qed.
Lemma ProcessJob_calls now j seen held : j ∈ held -> calls _ seen held (ProcessJob now j).
Proof.
  intros Hj. unfold ProcessJob. call_by_call; try (by eapply failJob_calls; [done|auto]).
  - by apply cs_write, wr_complete.
  - eapply failJob_calls; [done|]. case_match; eauto.
Qed.
Lemma process_all_calls now due n seen held : due ⊆ held -> calls _ seen held (process_all now due n).
Proof.
  revert n. induction due as [|j due IH]; intros n Hd; simpl; [by apply cs_elsewhere|].
  apply (cs_bind _); [apply cs_try, ProcessJob_calls; set_solver|]. intros r. apply IH. set_solver.
Qed.
Lemma Once_calls now cfg seen held : calls _ seen held (Once now cfg).
Proof. unfold Once. apply cs_claim. intros out. apply process_all_calls. set_solver. Qed.

(** C6. However the calls of approvals, cancellations, retries, claims and workers
    interleave, stopped wherever they crash, and whatever stale copies of jobs they write
    back, the rows of the queue stay well-formed: the counter of attempts of a job stays
    within its maximum, a queued job is below it, a lease belongs exactly to a job in
    processing, a job in processing or completed counts an attempt, and a completed one
    names its certificate; so does any further run of an operation leave them.  It is
    the counter that is bounded: a stale copy sets it back, so that a job can be claimed
    more often ([EnrollSample.claimed_too_often]). *)
Theorem jobs_bounded w0 w seen held :
  m_Jobs (wd_mem w0) = ∅ -> rtc qstep (w0, [], []) (w, seen, held) ->
  (forall k j, m_Jobs (wd_mem w) !! k = Some j -> job_ID j = k /\ job_ok j)
  /\ (forall j, j ∈ held -> job_ok j /\ job_Status j = "processing")
  /\ (forall now subj id reason cfg w',
        w' ∈ [(ApproveRequest now subj id reason w).2; (CancelJob now subj id w).2; (RetryJob now subj id w).2; (Once now cfg w).2] ->
        forall k j, m_Jobs (wd_mem w') !! k = Some j -> job_ID j = k /\ job_ok j).
Proof.
  intros H0' Hr. assert (Hi : qinv (w, seen, held)).
  { apply (reach_qinv _ _ Hr). split_and!; [|done..]. split; simpl; rewrite H0'; intros k j Hj; by rewrite lookup_empty in Hj. }
  assert (Hrows : forall s, qinv s -> forall k j, m_Jobs (wd_mem s.1.1) !! k = Some j -> job_ID j = k /\ job_ok j).
  { intros s' [[Hk Hw] _] k j Hj. split; [by apply Hk|by eapply Hw]. }
  assert (Hrun : forall A (c : M A), calls A seen held c -> forall k j, m_Jobs (wd_mem (c w).2) !! k = Some j -> job_ID j = k /\ job_ok j).
  { intros A c Hc. destruct (calls_steps _ _ _ _ Hc seen held w) as (s' & h' & _ & _ & Hst); [done..|].
    apply (Hrows _ (reach_qinv _ _ Hst Hi)). }
  split_and!; [exact (Hrows _ Hi)| |].
  - intros j Hj. destruct Hi as (_ & _ & Hh). by eapply Forall_forall in Hh.
  - intros now subj id reason cfg w'. rewrite !elem_of_cons, elem_of_nil.
    intros [->|[->|[->|[->|[]]]]]; apply Hrun; eauto using ApproveRequest_calls, CancelJob_calls, RetryJob_calls, Once_calls.
Qed.
End safety.

(** ** What becomes of a job that is processed *)
Section outcome.
Context `{Env} `{Enrolling}.

(** The row [UpdateJob] leaves. *)
Definition written (now : Z) (old j : CertificateJob) : CertificateJob :=
  old <| job_Status := job_Status j |> <| job_LeaseUntil := job_LeaseUntil j |>
    <| job_Attempts := job_Attempts j |> <| job_MaxAttempts := job_MaxAttempts j |>
    <| job_ResultCertificateID := job_ResultCertificateID j |>
    <| job_Error := job_Error j |> <| job_RunAfter := job_RunAfter j |> <| job_UpdatedAt := now |>.
(** The job is stored for the tenant of the worker's copy, and can be written. *)
Definition stored (j : CertificateJob) (m : Mem) : Prop :=
  m_Fail m !! "UpdateJob" = None
  /\ exists old, m_Jobs m !! job_ID j = Some old /\ job_TenantID old = job_TenantID j.
Lemma stored_view j m m' : queue_view m' = queue_view m -> stored j m -> stored j m'.
Proof. intros [= _ Hj _ Hf]. unfold stored. by rewrite Hj, Hf. Qed.
Lemma UpdateJob_stored j j0 m :
  stored j m -> job_ID j0 = job_ID j -> job_TenantID j0 = job_TenantID j ->
  exists old m', Mem_UpdateJob j0 m = (Ok tt, m')
    /\ m' = m <| m_Jobs := <[job_ID j := written (m_Now m) old j0]> (m_Jobs m) |> /\ stored j m'.
Proof.
  intros (Hf & old & Ho & Ht) Hid Hte. exists old. eexists.
  unfold Mem_UpdateJob, fail_write. rewrite Hf, Hid, Ho, Ht, Hte, str_eqb_refl. simpl. split; [done|].
  split; [done|]. split; [done|]. simpl. eexists. split; [apply lookup_insert_eq|done].
Qed.
Definition settled (status : string) (j : CertificateJob) (w w' : World) (j' : CertificateJob) : Prop :=
  m_Jobs (wd_mem w') = <[job_ID j := j']> (m_Jobs (wd_mem w)) /\ job_Status j' = status
  /\ job_LeaseUntil j' = None /\ job_Attempts j' = job_Attempts j.
Lemma failJob_settles j j0 msg w r w' :
  stored j (wd_mem w) -> job_ID j0 = job_ID j -> job_TenantID j0 = job_TenantID j ->
  job_Attempts j0 = job_Attempts j -> failJob j0 msg w = (r, w') ->
  r = Ok tt /\ exists j', settled "failed" j w w' j' /\ job_Error j' = ptrOrNil msg.
Proof.
  intros Hs Hid Hte Ha. unfold failJob, st_bind, st_try, writing.
  edestruct (UpdateJob_stored j (j0 <| job_Status := "failed" |> <| job_LeaseUntil := None |>
               <| job_Error := ptrOrNil msg |>) (wd_mem w) Hs) as (old & m' & -> & -> & _); [done..|].
  simpl. intros [= <- <-]. split; [done|]. eexists. split; [split_and!; try reflexivity; apply Ha|done].
Qed.

Lemma scrub_text e : scrub e <> "".
Proof. unfold scrub. by case_match. Qed.

(** The transaction that completes a job. *)
Definition complete (j : CertificateJob) (q : CertificateRequest) (certID : string) : M unit :=
  Atomic (
    let* _ := writing (Mem_UpdateJob (completed_job j certID)) in
    let* _ := writing (Mem_SetRequestStatus (job_TenantID j) (req_ID q) "issued" None None) in
    if (req_RequesterKind q =s "user") && (req_RequestedBy q <>s "")
    then az_GrantOwner (job_TenantID j) Certificate certID (req_RequestedBy q)
    else st_ret tt).
Lemma keeps_rest {T} (f : Mem -> T) t rt rid u :
  (forall m g, f (m <| m_Grants := g |>) = f m) -> keeps f (az_GrantOwner t rt rid u).
Proof.
  intros Hf. unfold az_GrantOwner. keep. apply keeps_writing. intros m.
  unfold authz_GrantOwner, st_bind, st_ret. case_match; [done|].
  destruct (as_UpsertGrant _ _) as [[]?] eqn:Hg; apply UpsertGrant_frame in Hg; simpl; by rewrite Hg.
Qed.
Lemma complete_ok j q certID w w' :
  stored j (wd_mem w) -> complete j q certID w = (Ok tt, w') ->
  m_Certificates (wd_mem w') = m_Certificates (wd_mem w)
  /\ (exists j', settled "completed" j w w' j' /\ job_ResultCertificateID j' = Some certID)
  /\ exists q', m_Requests (wd_mem w') !! req_ID q = Some q' /\ req_Status q' = "issued".
Proof.
  intros Hs Hr%Atomic_ok. apply st_bind_ok in Hr as ([] & w1 & H1 & Hr).
  apply writing_ok in H1 as (m1 & H1 & ->).
  edestruct (UpdateJob_stored j (completed_job j certID) (wd_mem w) Hs) as (old & m' & H2 & -> & _);
    [done..|]. rewrite H2 in H1. injection H1 as <-.
  apply st_bind_ok in Hr as ([] & w1 & H1 & Hr). apply writing_ok in H1 as (m1 & H1 & ->).
  apply SetRequestStatus_ok in H1 as (q0 & q' & _ & _ & -> & Hst & _).
  set (f := fun m => (m_Certificates m, m_Jobs m, m_Requests m)).
  assert (Hk : keeps f (if (req_RequesterKind q =s "user") && (req_RequestedBy q <>s "")
                        then az_GrantOwner (job_TenantID j) Certificate certID (req_RequestedBy q)
                        else st_ret tt)) by (destruct (_ && _); [by apply keeps_rest|done]).
  apply (keeps_run _ _ _ _ _ Hk) in Hr. injection Hr as Hc Hj Hq. simpl in *.
  rewrite Hc, Hq. split; [done|]. split.
  - eexists. split; [split_and!; [exact Hj|done..]|done].
  - exists q'. by rewrite lookup_insert_eq.
Qed.
(** A transaction that fails has changed no other job. *)
Lemma complete_err j q certID w e w' :
  stored j (wd_mem w) -> complete j q certID w = (Err e, w') ->
  stored j (wd_mem w')
  /\ forall x, <[job_ID j := x]> (m_Jobs (wd_mem w')) = <[job_ID j := x]> (m_Jobs (wd_mem w)).
Proof.
  intros Hs. unfold complete, Atomic. case_match; [by intros [= _ <-]|].
  unfold st_bind at 1, writing at 1.
  edestruct (UpdateJob_stored j (completed_job j certID) (wd_mem w) Hs) as (old & m' & -> & -> & Hs');
    [done..|].
  match goal with |- context [st_bind ?c ?k ?w1] =>
    assert (Hk : keeps (fun m => (m_Jobs m, m_Fail m)) (st_bind c k)); [|specialize (Hk w1);
      destruct (st_bind c k w1) as [[]w2]; [done|]] end.
  - apply keeps_bind; [|intros ?].
    + apply keeps_writing. intros m. unfold Mem_SetRequestStatus, fail_write.
      repeat (case_match; simplify_eq/=); done.
    + destruct (_ && _); [by apply keeps_rest|done].
  - injection Hk as Hj Hf. simpl in *. destruct tx_rollback; intros [= _ <-]; simpl; [done|].
    split; [unfold stored; rewrite Hf, Hj; exact Hs'|]. intros x. rewrite Hj. apply insert_insert_eq.
Qed.

Lemma fail_outcome (P : CertificateJob -> Prop) j j0 msg w w1 r w' :
  msg <> "" -> stored j (wd_mem w1) ->
  (forall x, <[job_ID j := x]> (m_Jobs (wd_mem w1)) = <[job_ID j := x]> (m_Jobs (wd_mem w))) ->
  job_ID j0 = job_ID j -> job_TenantID j0 = job_TenantID j -> job_Attempts j0 = job_Attempts j ->
  failJob j0 msg w1 = (r, w') ->
  r = Ok tt /\ exists j', m_Jobs (wd_mem w') = <[job_ID j := j']> (m_Jobs (wd_mem w))
    /\ job_LeaseUntil j' = None /\ job_Attempts j' = job_Attempts j
    /\ ((job_Status j' = "failed" /\ job_Error j' <> None) \/ P j').
Proof.
  intros Hmsg Hs1 Hj Hid Ht Ha Hf.
  destruct (failJob_settles j j0 msg w1 r w' Hs1 Hid Ht Ha Hf) as [-> (j' & (Hm & ? & ? & ?) & He)].
  split; [done|]. exists j'. rewrite Hm, Hj, He. split_and!; try done. left. split; [done|].
  unfold ptrOrNil. by rewrite (proj2 (str_eqb_neq _ _) Hmsg).
Qed.

(** What becomes of a job that is processed and can be written. *)
Definition processed (j : CertificateJob) (w w' : World) : Prop :=
  exists j', m_Jobs (wd_mem w') = <[job_ID j := j']> (m_Jobs (wd_mem w))
     /\ job_LeaseUntil j' = None /\ job_Attempts j' = job_Attempts j
     /\ ((job_Status j' = "failed" /\ job_Error j' <> None)
         \/ (job_Status j' = "completed"
             /\ exists q q' sid c, m_Requests (wd_mem w) !! job_RequestID j = Some q
                /\ m_Requests (wd_mem w') !! job_RequestID j = Some q' /\ req_Status q' = "issued"
                /\ ParseSPIFFEID (req_SpiffeID q) = Ok sid
                /\ m_Certificates (wd_mem w') = <[crt_ID c := c]> (m_Certificates (wd_mem w))
                /\ job_ResultCertificateID j' = Some (crt_ID c) /\ crt_TenantID c = job_TenantID j
                /\ crt_SpiffeID c = SPIFFEID_String sid /\ crt_Status c = "active")).
Lemma stored_or_not j m : stored j m \/ ~ stored j m.
Proof.
  unfold stored. destruct (m_Fail m !! "UpdateJob"); [by right; intros [? _]|].
  destruct (m_Jobs m !! job_ID j) as [old|]; [|by right; intros (_ & ? & ? & _)].
  destruct (decide (job_TenantID old = job_TenantID j)); [left; eauto|right]. intros (_ & x & [= <-] & ?). done.
Qed.
Lemma ProcessJob_stored now j w r w' :
  wf (wd_mem w) -> stored j (wd_mem w) -> ProcessJob now j w = (r, w') -> r = Ok tt /\ processed j w w'.
Proof.
  intros Hwf Hs Hr.
  unfold ProcessJob in Hr. unfold st_bind at 1, st_try at 1, reading at 1 in Hr.
  destruct (Mem_GetRequest _ _ _) as [q0|e] eqn:Hq; [|by refine (fail_outcome _ _ _ _ _ _ _ _ _ _ _ _ _ _ Hr)].
  apply GetRequest_row in Hq as (q & Hq & Hqt & ->). pose proof (wf_requests _ Hwf _ _ Hq) as Hqid.
  unfold st_bind at 1, st_try at 1 in Hr. destruct (Issue _ _ _ _) as [ri w1] eqn:Hi.
  pose proof (keeps_run _ _ _ _ _ (keeps_Issue _ _ _) Hi) as Hv.
  pose proof (stored_view _ _ _ Hv Hs) as Hs1. injection Hv as Hvq Hvj _ _.
  destruct ri as [b|e].
  2: { refine (fail_outcome _ _ _ _ _ _ _ _ _ _ _ _ _ _ Hr); try done; [apply scrub_text|].
       by rewrite Hvj. }
  unfold st_bind at 1, reading at 1 in Hr. unfold st_bind at 1, st_try at 1 in Hr.
  fold (complete j (cpRequest q) (cv_ID (b_Certificate b))) in Hr.
  destruct (complete _ _ _ w1) as [[[]|e] w2] eqn:Hc.
  - injection Hr as <- <-. split; [done|].
    apply complete_ok in Hc as (Hcc & (j' & (Hm & Hst & Hl & Ha) & Hres) & q' & Hq' & Hqs); [|done].
    apply Issue_adds in Hi as (sid & c & Hp & Hcs & Hcid & Hct & Hsp & Hact).
    exists j'. simpl. rewrite Hm, Hvj. split_and!; try done. right. split; [done|].
    exists q, q', sid, c. rewrite <- Hqid, Hcc. split_and!; try done; by rewrite ?Hqid, ?Hcid.
  - apply complete_err in Hc as [Hs2 Hx]; [|done].
    refine (fail_outcome _ _ _ _ _ _ _ _ _ _ _ _ _ _ Hr); try done; try by case_match.
    intros x. by rewrite Hx, Hvj.
Qed.
(** *** A job that cannot be written *)
Lemma UpdateJob_refused j j0 m :
  ~ stored j m -> job_ID j0 = job_ID j -> job_TenantID j0 = job_TenantID j -> exists e, Mem_UpdateJob j0 m = (Err e, m).
Proof.
  intros Hs Hid Ht. unfold Mem_UpdateJob, fail_write. destruct (m_Fail m !! "UpdateJob") as [e|] eqn:Hf; [by eexists|].
  rewrite Hid. destruct (m_Jobs m !! job_ID j) as [old|] eqn:Ho; [|by eexists].
  destruct (job_TenantID old =s job_TenantID j0) eqn:Et; [|by eexists]. bools. exfalso. apply Hs. split; [done|]. exists old. split; [done|congruence].
Qed.
Lemma failJob_refused j j0 msg w r w' :
  ~ stored j (wd_mem w) -> job_ID j0 = job_ID j -> job_TenantID j0 = job_TenantID j -> failJob j0 msg w = (r, w') ->
  r = Ok tt /\ m_Jobs (wd_mem w') = m_Jobs (wd_mem w).
Proof.
  intros Hs Hid Ht. unfold failJob, st_bind, st_try, writing.
  edestruct (UpdateJob_refused j (j0 <| job_Status := "failed" |> <| job_LeaseUntil := None |> <| job_Error := ptrOrNil msg |>)
               (wd_mem w) Hs) as [e ->]; [done..|]. unfold emit. simpl. by intros [= <- <-].
Qed.
Lemma complete_refused j q certID w r w' :
  ~ stored j (wd_mem w) -> complete j q certID w = (r, w') -> is_ok r = false /\ m_Jobs (wd_mem w') = m_Jobs (wd_mem w) /\ ~ stored j (wd_mem w').
Proof.
  intros Hs. unfold complete, Atomic. case_match; [by intros [= <- <-]|]. unfold st_bind at 1, writing at 1.
  edestruct (UpdateJob_refused j (completed_job j certID) (wd_mem w) Hs) as [e ->]; [done..|]. by destruct tx_rollback; intros [= <- <-].
Qed.
Lemma ProcessJob_refused now j w r w' :
  ~ stored j (wd_mem w) -> ProcessJob now j w = (r, w') -> r = Ok tt /\ m_Jobs (wd_mem w') = m_Jobs (wd_mem w).
Proof.
  intros Hs Hr. unfold ProcessJob in Hr. unfold st_bind at 1, st_try at 1, reading at 1 in Hr.
  destruct (Mem_GetRequest _ _ _) as [q|e]; [|by eapply failJob_refused].
  unfold st_bind at 1, st_try at 1 in Hr. destruct (Issue _ _ _ _) as [ri w1] eqn:Hi.
  pose proof (keeps_run _ _ _ _ _ (keeps_Issue _ _ _) Hi) as Hv.
  assert (Hs1 : ~ stored j (wd_mem w1)) by (intros Hx; apply Hs; by eapply stored_view; [symmetry|]). injection Hv as _ Hvj _ _. rewrite <- Hvj.
  destruct ri as [b|e]; [|by eapply failJob_refused].
  unfold st_bind at 1, reading at 1 in Hr. unfold st_bind at 1, st_try at 1 in Hr.
  fold (complete j q (cv_ID (b_Certificate b))) in Hr. destruct (complete _ _ _ w1) as [rc w2] eqn:Hc.
  apply complete_refused in Hc as (He & Hj2 & Hs2); [|done]. destruct rc as [[]|e]; [done|]. rewrite <- Hj2.
  eapply failJob_refused; [exact Hs2|..|exact Hr]; by case_match.
Qed.
(** C7. Processing a claimed job.  No error escapes the worker.  When the job is still
    stored for the tenant and can be written, it is settled: the lease is given up, the
    attempts are those of the claim and no other job changes; the job is either completed,
    naming an active certificate of its tenant for the identity its request asked for,
    with the request marked issued, or failed with a reason.  When the store refuses the
    write, the refusal is dropped: the jobs stay as they were, this one in processing, and
    the worker counts it as processed all the same. *)
Theorem ProcessJob_settles now j w r w' :
  wf (wd_mem w) -> ProcessJob now j w = (r, w') ->
  r = Ok tt /\ (stored j (wd_mem w) -> processed j w w') /\ (~ stored j (wd_mem w) -> m_Jobs (wd_mem w') = m_Jobs (wd_mem w)).
Proof.
  intros Hwf Hr. split_and!.
  - destruct (stored_or_not j (wd_mem w)) as [Hs|Hs]; [by eapply ProcessJob_stored|by eapply ProcessJob_refused].
  - intros Hs. by eapply ProcessJob_stored.
  - intros Hs. by eapply ProcessJob_refused.
Qed.
End outcome.

(** ** Witnesses: a service enrolls with a token, an operator approves, a worker
    issues *)
Module EnrollSample.
Import Toy IssueSample IssuerSample.
#[local] Existing Instance toy_env.
#[local] Instance toy_enrolling : Enrolling := {|
  verify_enrollment n tok := if tok =s "token" then Ok (mkEnrollGrant "t1" ["spiffe://example.org/web"])
                             else Err (RefusalError ReasonTokenUsed []);
  cfg_AutoApprove := false;
  cfg_MaxAttempts := 3;
  format_time := FormatInt;
  parse_time _ := None;
|}.

Definition stranger : Subjects := mkSubjects "t9" "" [] "spiffe://elsewhere/x".
Definition asks : EnrollInput := mkEnrollInput "spiffe://example.org/web" "" "token".
Definition nothing : EnrollResult := mkEnrollResult "" "" None.
Definition asked : EnrollResult * World := run nothing (Enroll 10 stranger asks) ready.
Lemma asked_run : Enroll 10 stranger asks ready = (Ok asked.1, asked.2).
Proof. vm_compute. reflexivity. Qed.
Lemma Enroll_token_witness :
  exists q, er_RequestID asked.1 = req_ID q /\ req_TenantID q = "t1"
    /\ m_Requests (wd_mem asked.2) !! req_ID q = Some q.
Proof.
  pose proof (Enroll_token 10 stranger asks ready (Ok asked.1) asked.2 asked_run
                ltac:(discriminate) asked.1 eq_refl) as (_ & _ & _ & q & Hid & Ht & _ & _ & _ & _ & Hq).
  exists q. rewrite Hq. split; [exact Hid|]. split; [exact Ht|apply lookup_insert_eq].
Defined.

Definition request_id : string := er_RequestID asked.1.
Definition approve : M RequestView := ApproveRequest 20 admin request_id "ok".
Definition no_view : RequestView := mkRequestView "" "" "" "" "" [] 0 "" "" "" "" false "" "" "".
Definition approved : RequestView * World := run no_view approve asked.2.
Lemma approved_run : approve asked.2 = (Ok approved.1, approved.2).
Proof. vm_compute. reflexivity. Qed.
Lemma ApproveRequest_once_witness :
  rv_Status approved.1 = "approved"
  /\ exists e, ApproveRequest 30 admin request_id "again" approved.2 = (Err e, approved.2).
Proof.
  split; [vm_compute; reflexivity|].
  destruct (ApproveRequest_once 20 admin request_id "ok" asked.2 approved.1 approved.2 approved_run)
    as (q & q' & iid & j & _ & _ & _ & _ & _ & _ & _ & _ & _ & _ & _ & _ & _ & _ & Hagain).
  exact (proj1 (Hagain 30 admin "again")).
Defined.

Definition the_claim : M (list CertificateJob) := writing (Mem_ClaimDueJobs 40 60 10).
Definition claimed_jobs : list CertificateJob * World := run [] the_claim approved.2.
Lemma claim_run : the_claim approved.2 = (Ok claimed_jobs.1, claimed_jobs.2).
Proof. vm_compute. reflexivity. Qed.
(** An operation, then a claim. *)
Lemma then_claimed {A} (c : M A) w0 a w1 now lease limit l w2 :
  calls A [] [] c -> c w0 = (Ok a, w1) -> writing (Mem_ClaimDueJobs now lease limit) w1 = (Ok l, w2) ->
  exists seen held, rtc qstep (w0, [], []) (w2, seen, held ++ l).
Proof.
  intros Hc Hr Hl. destruct (calls_steps _ _ _ _ Hc [] [] w0) as (seen & held & _ & _ & Ha); [done..|].
  rewrite Hr in Ha. exists seen, held. eapply rtc_r; [exact Ha|]. by eapply q_claim.
Qed.
Lemma approved_then_claimed :
  exists seen held, rtc qstep (asked.2, [], []) (claimed_jobs.2, seen, held ++ claimed_jobs.1).
Proof.
  exact (then_claimed approve asked.2 approved.1 approved.2 40 60 10 claimed_jobs.1 claimed_jobs.2
           (ApproveRequest_calls 20 admin request_id "ok" [] []) approved_run claim_run).
Qed.
Lemma no_jobs_asked : m_Jobs (wd_mem asked.2) = ∅.
Proof. vm_compute. reflexivity. Qed.
Lemma one_claimed : length claimed_jobs.1 = 1%nat.
Proof. vm_compute. reflexivity. Qed.
(** The request is approved and its job claimed. *)
Lemma jobs_bounded_witness :
  length claimed_jobs.1 = 1%nat /\ forall j, j ∈ claimed_jobs.1 -> job_ok j /\ job_Status j = "processing".
Proof.
  split; [exact one_claimed|]. destruct approved_then_claimed as (seen & held & Hr).
  destruct (jobs_bounded asked.2 claimed_jobs.2 seen (held ++ claimed_jobs.1) no_jobs_asked Hr) as (_ & Hheld & _).
  intros j Hj. apply Hheld. apply elem_of_app. right. exact Hj.
Defined.
(** Three attempts are allowed and four are made.  The first worker is slow: its job is
    cancelled, retried and claimed again; then the first worker fails its copy, which
    counts one attempt, over the row, which counts two. *)
Definition again (at_ : Z) (w : World) : list CertificateJob * World :=
  run [] (writing (Mem_ClaimDueJobs at_ 60 10)) (RetryJob at_ admin (job_ID (nth 0 claimed_jobs.1 zero_job)) w).2.
Definition second_claim : list CertificateJob * World :=
  again 50 (CancelJob 45 admin (job_ID (nth 0 claimed_jobs.1 zero_job)) claimed_jobs.2).2.
Definition third_claim : list CertificateJob * World := again 60 (failJob (nth 0 claimed_jobs.1 zero_job) "slow" second_claim.2).2.
Definition fourth_claim : list CertificateJob * World := again 70 (failJob (nth 0 third_claim.1 zero_job) "failed" third_claim.2).2.
Example claimed_too_often :
  (job_MaxAttempts <$> claimed_jobs.1) = [3]
  /\ (fun l : list CertificateJob => (job_ID <$> l, job_Attempts <$> l)) <$> [claimed_jobs.1; second_claim.1; third_claim.1; fourth_claim.1]
     = let id := job_ID (nth 0 claimed_jobs.1 zero_job) in [([id], [1]); ([id], [2]); ([id], [2]); ([id], [3])].
Proof. split; vm_compute; reflexivity. Qed.

Definition the_job : CertificateJob := nth 0 claimed_jobs.1 zero_job.
Definition worked : World := (ProcessJob 50 the_job claimed_jobs.2).2.
Lemma worked_run : ProcessJob 50 the_job claimed_jobs.2 = (Ok tt, worked).
Proof. vm_compute. reflexivity. Qed.
Definition asked_row : CertificateRequest :=
  default (mkCertificateRequest "" "" None "" "" None "" None 0 "" "" "" None None None 0 0)
    (m_Requests (wd_mem asked.2) !! request_id).
Lemma claimed_wf : wf (wd_mem claimed_jobs.2).
Proof.
  replace (wd_mem claimed_jobs.2)
    with (run_op (OpClaimDueJobs 40 60 10)
            (run_op (OpInsertJob (the_job <| job_Status := "queued" |> <| job_LeaseUntil := None |>
                                          <| job_Attempts := 0 |>))
              (run_op (OpSetRequestStatus "t1" request_id "approved" (Some "root") (Some "ok"))
                (run_op (OpInsertRequest asked_row) (wd_mem ready)))))
    by (vm_compute; reflexivity).
  repeat (apply run_op_wf || apply (proj1 ready_wf) || reflexivity).
Qed.
Lemma ProcessJob_settles_witness :
  (job_Status <$> (m_Jobs (wd_mem worked)) !! job_ID the_job) = Some "completed"
  /\ exists j', m_Jobs (wd_mem worked) = <[job_ID the_job := j']> (m_Jobs (wd_mem claimed_jobs.2))
       /\ job_LeaseUntil j' = None.
Proof.
  split; [vm_compute; reflexivity|].
  destruct (ProcessJob_settles 50 the_job claimed_jobs.2 (Ok tt) worked claimed_wf worked_run) as (_ & Hdone & _).
  destruct Hdone as (j' & Hm & Hl & _).
  - split; [vm_compute; reflexivity|]. exists the_job. split; vm_compute; reflexivity.
  - exists j'. split; [exact Hm|exact Hl].
Defined.
(** The store fails while the worker writes: the job is left in processing. *)
Definition failing : World := claimed_jobs.2 <| wd_mem := Mem_FailOn "UpdateJob" (Some (Opaque "down")) (wd_mem claimed_jobs.2) |>.
Example left_in_processing :
  (ProcessJob 50 the_job failing).1 = Ok tt
  /\ (job_Status <$> m_Jobs (wd_mem (ProcessJob 50 the_job failing).2) !! job_ID the_job) = Some "processing".
Proof. split; vm_compute; reflexivity. Qed.
End EnrollSample.
