(* ===== verification/Stream.v ===== *)
(** Live events: internal/stream/client.go and sse.go, and the publishing side of
    internal/stream/hub.go.  The client is the in-process [Memory]; the one over Valkey is
    in Valkey.v. *)

From S2P Require Import Prelude Rows GoJson GoUrl Csr Domains.

Definition Millisecond : Z := 1000000.
(** From the zero time to 1970. *)
Definition unix_epoch : Z := 62135596800 * Second.
(** [t.UnixMilli()] and [time.UnixMilli(ms)]. *)
Definition UnixMilli (t : Z) : Z := (t - unix_epoch) / Millisecond.
Definition of_UnixMilli (ms : Z) : Z := unix_epoch + ms * Millisecond.

(** ** [strconv.ParseInt(s, 10, 64)] *)
Definition uint64_max : Z := 2 ^ 64 - 1.
Inductive parsed : Type := PSyntax | PRange | PNum (z : Z).
(** The digits are read from the left; a number that no longer fits ends the scan. *)
Fixpoint parse_uint (s : string) (n : Z) : parsed :=
  match s with
  | EmptyString => PNum n
  | String c s' =>
    if is_digit c then
      let n := n * 10 + (byte_of c - 48) in
      if uint64_max <? n then PRange else parse_uint s' n
    else PSyntax
  end.
(** The value is the nearest bound when the number is out of range, and 0 when the
    text is no number. *)
Definition ParseInt (s : string) : Z * bool :=
  let '(neg, body) := match s with
                      | String c s' => if byte_of c =? 45 then (true, s')
                                       else if byte_of c =? 43 then (false, s') else (false, s)
                      | EmptyString => (false, s)
                      end in
  match (if body =s "" then PSyntax else parse_uint body 0) with
  | PSyntax => (0, false)
  | PRange => if neg then (int64_min, false) else (int64_max, false)
  | PNum n => if neg then (if 2 ^ 63 <? n then (int64_min, false) else (- n, true))
              else (if 2 ^ 63 <=? n then (int64_max, false) else (n, true))
  end.

(** ** Stream identifiers *)
Definition ID (at_ seq : Z) : string := FormatInt (UnixMilli at_) +:+ "-" +:+ FormatInt seq.
Definition ParseID (id : string) : Z * Z * bool :=
  match cut 45 id with
  | (a, Some b) => let '(ms, ok1) := ParseInt a in
                   let '(seq, ok2) := ParseInt b in (ms, seq, ok1 && ok2)
  | (_, None) => (0, 0, false)
  end.
Definition Less (a b : string) : bool :=
  let '(am, as_, _) := ParseID a in
  let '(bm, bs, _) := ParseID b in
  if negb (am =? bm) then am <? bm else as_ <? bs.

(** ** The in-process client *)
Record Entry := mkEntry { e_ID : string; e_Fields : gmap string string }.
Record Memory := mkMemory {
  mm_streams : gmap string (list Entry);
  mm_counters : gmap string (Z * Z);       (* count, expiry *)
  mm_seq : Z;
  mm_Err : option err;
}.
#[export] Instance memory_eta : RecordEta Memory := fun r =>
  mkMemory (mm_streams r) (mm_counters r) (mm_seq r) (mm_Err r).
Definition NewMemory : Memory := mkMemory ∅ ∅ 0 None.
Definition SetErr (e : option err) (m : Memory) : Memory := m <| mm_Err := e |>.
(** The entries of a stream, oldest first. *)
Definition entries (key : string) (m : Memory) : list Entry := default [] (mm_streams m !! key).

(** Every call fails during an outage. *)
Definition client_read {A} (f : Memory -> A) (m : Memory) : res A :=
  match mm_Err m with Some e => Err e | None => Ok (f m) end.
Definition client_write {A} (f : Memory -> A * Memory) (m : Memory) : res A * Memory :=
  match mm_Err m with Some e => (Err e, m) | None => let '(a, m') := f m in (Ok a, m') end.

Definition XAdd (now : Z) (key : string) (fields : gmap string string) (maxLen : Z)
  : Memory -> res string * Memory :=
  client_write (fun m =>
    let seq := wrap64 (mm_seq m + 1) in
    let id := ID now seq in
    let l := entries key m ++ [mkEntry id fields] in
    let l := if (0 <? maxLen) && (maxLen <? Z.of_nat (length l))
             then drop (length l - Z.to_nat maxLen) l else l in
    (id, m <| mm_seq := seq |> <| mm_streams := <[key := l]> (mm_streams m) |>)).

(** [after]: the entries past an identifier, [count] at most when that is positive. *)
Fixpoint after_from (afterID : string) (count : Z) (l out : list Entry) : list Entry :=
  match l with
  | [] => out
  | e :: l' =>
    if (afterID =s "") || Less afterID (e_ID e) then
      let out := out ++ [e] in
      if (0 <? count) && (Z.of_nat (length out) =? count) then out else after_from afterID count l' out
    else after_from afterID count l' out
  end.
Definition after (key afterID : string) (count : Z) (m : Memory) : list Entry :=
  after_from afterID count (entries key m) [].
Definition newest (key : string) (m : Memory) : option Entry := list.last (entries key m).

(** One look at the stream: a call that blocks looks a second time when woken. *)
Definition XRead (key afterID : string) (count : Z) : Memory -> res (list Entry) :=
  client_read (fun m =>
    let afterID := if (afterID =s "") || (afterID =s "$")
                   then match newest key m with Some e => e_ID e | None => "0-0" end
                   else afterID in
    after key afterID count m).
Definition XRange (key afterID : string) (count : Z) : Memory -> res (list Entry) :=
  client_read (after key afterID count).
Definition XLast (key : string) : Memory -> res string :=
  client_read (fun m => match newest key m with Some e => e_ID e | None => "" end).
Definition XTrimMinID (key minID : string) : Memory -> res unit * Memory :=
  client_write (fun m =>
    (tt, m <| mm_streams := <[key := List.filter (fun e => negb (Less (e_ID e) minID)) (entries key m)]>
                              (mm_streams m) |>)).
Definition Incr (now : Z) (key : string) (ttl : Z) : Memory -> res Z * Memory :=
  client_write (fun m =>
    let '(n, exp) := default (0, 0) (mm_counters m !! key) in
    let '(n, exp) := if (n =? 0) || (negb (IsZero exp) && negb (Before now exp))
                     then (0, if 0 <? ttl then now + ttl else 0) else (n, exp) in
    (n + 1, m <| mm_counters := <[key := (n + 1, exp)]> (mm_counters m) |>)).
Definition Ping (m : Memory) : res unit := client_read (fun _ => tt) m.
Definition CloseMemory (m : Memory) : Memory := m <| mm_streams := ∅ |> <| mm_counters := ∅ |>.

(** ** Rate limits *)
Definition Minute : Z := 60 * Second.
(** [at.Unix()/60]: division truncates towards zero. *)
Definition RateKey (kind subject : string) (at_ : Z) : string :=
  "lcm:rl:" +:+ kind +:+ ":" +:+ subject +:+ ":" +:+ FormatInt (Z.quot ((at_ - unix_epoch) / Second) 60).
(** The verdict comes with the error: a counter failure counts as limited. *)
Definition Limited (kind subject : string) (limit at_ now : Z) (m : Memory)
  : bool * option err * Memory :=
  if limit <=? 0 then (false, None, m)
  else match Incr now (RateKey kind subject at_) (2 * Minute) m with
       | (Err e, m') => (true, Some e, m')
       | (Ok n, m') => (limit <? n, None, m')
       end.

(** ** Publishing *)
Definition MaxPayload : Z := 16384.
Definition MaxTargets : Z := 1000.
Definition DefaultMaxLen : Z := 10000.
Definition stream_ErrType : err := Sentinel "stream" "ErrType".
Definition stream_ErrPayload : err := Sentinel "stream" "ErrPayload".
Definition stream_ErrTargets : err := Sentinel "stream" "ErrTargets".
Definition stream_ErrReserved : err := Sentinel "stream" "ErrReserved".
Definition stream_ErrTooMany : err := Sentinel "stream" "ErrTooMany".

Definition type_first (c : Ascii.ascii) : bool := between 97 122 c.
Definition type_byte (c : Ascii.ascii) : bool :=
  type_first c || is_digit c || (byte_of c =? 46) || (byte_of c =? 95) || (byte_of c =? 45).
(** [typeRE]: ^[a-z][a-z0-9._-]{0,63}$. *)
Definition typeRE (s : string) : bool :=
  match s with
  | String c s' => type_first c && string_forallb type_byte s' && (str_len s' <=? 63)
  | EmptyString => false
  end.
Definition Reserved (typ : string) : bool :=
  contains ["issued"; "renewed"; "revoked"; "reset"; "bye"] typ.
Definition ValidateType (typ : string) (module_ : bool) : res unit :=
  if negb (typeRE typ) then Err stream_ErrType
  else if module_ && Reserved typ then Err stream_ErrReserved
  else Ok tt.

(** The dynamic type of the data: nil, bytes or text as they are, or a value to
    marshal. *)
Inductive Payload : Type := PNil | PText (raw : string) | PValue (v : any).
Definition payload_text (data : Payload) : option string :=
  match data with
  | PNil => Some "{}"
  | PText s => Some s
  | PValue v => json_marshal v
  end.
(** [json.Valid]; 16 KiB cannot nest past the decoder's limit. *)
Definition json_Valid (raw : string) : bool := bool_decide (json_unmarshal raw <> None).
Definition has_break (s : string) : bool := has_byte 10 s || has_byte 13 s.
Definition Key (tenantID : string) : string := "platform:events:" +:+ tenantID.
Definition bad_target (u : string) : bool := (u =s "") || has_byte 44 u || has_byte 32 u || has_byte 10 u.
(** The recipients of an entry: everyone, or a list of users. *)
Definition target_of (to : list string) (all : bool) : res string :=
  if all then Ok "*"
  else if existsb bad_target to then Err stream_ErrTargets
  else Ok (String.concat "," to).
Definition PublishID (now maxLen : Z) (tenantID : string) (to : list string) (all : bool) (typ : string)
  (data : Payload) (module_ : bool) (m : Memory) : res string * Memory :=
  match ValidateType typ module_ with
  | Err e => (Err e, m)
  | Ok _ =>
    if Bool.eqb all (0 <? Z.of_nat (length to)) || (MaxTargets <? Z.of_nat (length to))
    then (Err stream_ErrTargets, m)
    else match payload_text data with
    | None => (Err stream_ErrPayload, m)
    | Some raw =>
      if (MaxPayload <? str_len raw) || negb (json_Valid raw) || has_break raw
      then (Err stream_ErrPayload, m)
      else match target_of to all with
      | Err e => (Err e, m)
      | Ok target =>
        XAdd now (Key tenantID)
          (list_to_map [("to", target); ("type", typ); ("data", raw); ("at", FormatInt (UnixMilli now))])
          maxLen m
      end
    end
  end.
Definition Publish (now maxLen : Z) (tenantID : string) (to : list string) (all : bool) (typ : string)
  (data : Payload) (m : Memory) : res unit * Memory :=
  let '(r, m') := PublishID now maxLen tenantID to all typ data false m in
  (res_map (fun _ => tt) r, m').

(** [targets]: whether an entry's recipients include the user. *)
Definition targets (to user : string) : bool :=
  (to =s "*") || contains (split_byte 44 to) user.

(** ** Server-sent events *)
Record SEvent := mkSEvent { ev_ID : string; ev_Type : string; ev_Data : string }.
Definition field (e : Entry) (k : string) : string := default "" (e_Fields e !! k).
Definition event_of (e : Entry) : SEvent := mkSEvent (e_ID e) (field e "type") (field e "data").
Fixpoint drop_breaks (s : string) : string :=
  match s with
  | EmptyString => EmptyString
  | String c s' => if (byte_of c =? 13) || (byte_of c =? 10) then drop_breaks s' else String c (drop_breaks s')
  end.
Definition nl : string := String (chr 10) "".
Definition Frame (ev : SEvent) : string :=
  (if ev_ID ev <>s "" then "id: " +:+ ev_ID ev +:+ nl else "")
  +:+ "event: " +:+ ev_Type ev +:+ nl +:+ "data: " +:+ drop_breaks (ev_Data ev) +:+ nl +:+ nl.

(** ** Identifiers are read back *)

Lemma byte_of_chr z : 0 <= z < 256 -> byte_of (chr z) = z.
Proof.
  intros Hz. unfold byte_of, chr. rewrite Ascii.N_ascii_embedding; lia.
Qed.
Lemma digit_chr z : 0 <= z -> is_digit (chr (48 + z mod 10)) = true /\ byte_of (chr (48 + z mod 10)) = 48 + z mod 10.
Proof.
  intros Hz. assert (0 <= z mod 10 < 10) by (apply Z.mod_pos_bound; lia).
  assert (Hb : byte_of (chr (48 + z mod 10)) = 48 + z mod 10) by (apply byte_of_chr; lia).
  split; [|done]. unfold is_digit, between. rewrite Hb. apply andb_true_iff. split; apply Z.leb_le; lia.
Qed.
(** Reading digits back gives the number. *)
Lemma parse_digits fuel z s :
  0 <= z < 10 ^ Z.of_nat fuel -> z <= uint64_max ->
  parse_uint (digits fuel z s) 0 = parse_uint s z.
Proof.
  revert z s. induction fuel as [|n IH]; intros z s Hz Hm.
  - simpl in *. assert (z = 0) as -> by lia. done.
  - destruct (digit_chr z) as [Hd Hb]; [lia|].
    assert (Hstep : parse_uint (String (chr (48 + z mod 10)) s) (z / 10) = parse_uint s z).
    { simpl. rewrite Hd, Hb. replace (z / 10 * 10 + (48 + z mod 10 - 48)) with z.
      - destruct (uint64_max <? z) eqn:E; [bools; lia|done].
      - pose proof (Z.div_mod z 10). lia. }
    simpl. destruct (z <? 10) eqn:E; bools.
    + rewrite <- Hstep. rewrite Z.div_small by lia. done.
    + rewrite IH; [exact Hstep| |].
      * rewrite Nat2Z.inj_succ, Z.pow_succ_r in Hz by lia. split; [apply Z.div_pos; lia|].
        apply Z.div_lt_upper_bound; lia.
      * pose proof (Z.div_le_upper_bound z 10 z). lia.
Qed.
Lemma digits_forallb (f : Ascii.ascii -> bool) fuel z s :
  (forall c, is_digit c = true -> f c = true) -> 0 <= z -> string_forallb f s = true ->
  string_forallb f (digits fuel z s) = true.
Proof.
  intros Hf. revert z s. induction fuel as [|n IH]; intros z s Hz Hs; [done|]. simpl.
  assert (Hc : string_forallb f (String (chr (48 + z mod 10)) s) = true)
    by (simpl; by rewrite (Hf _ (proj1 (digit_chr z Hz))), Hs).
  destruct (z <? 10); [done|]. apply IH; [apply Z.div_pos; lia|done].
Qed.
Lemma digits_nonempty fuel z s : (0 < fuel)%nat -> exists c r, digits fuel z s = String c r.
Proof.
  revert z s. induction fuel as [|n IH]; intros z s Hn; [lia|]. simpl.
  destruct (z <? 10); [eauto|]. destruct n; [simpl; eauto|]. apply IH. lia.
Qed.
Lemma is_digit_range c : is_digit c = true -> 48 <= byte_of c <= 57.
Proof. unfold is_digit, between. intros H. bools. lia. Qed.
Lemma ParseInt_FormatInt z : 0 <= z <= int64_max -> ParseInt (FormatInt z) = (z, true).
Proof.
  intros Hz. unfold FormatInt. destruct (z <? 0) eqn:E; bools; [lia|].
  assert (Hmax : int64_max < uint64_max /\ int64_max < 10 ^ Z.of_nat 40 /\ int64_max < 2 ^ 63)
    by (vm_compute; done).
  pose proof (digits_forallb is_digit 40 z "" ltac:(done) ltac:(lia) eq_refl) as Hd.
  pose proof (parse_digits 40 z "" ltac:(lia) ltac:(lia)) as Hp.
  destruct (digits_nonempty 40 z "" ltac:(lia)) as (c & r & Hc). rewrite Hc in *.
  unfold ParseInt. simpl in Hd. apply andb_true_iff in Hd as [Hd _]. apply is_digit_range in Hd.
  destruct (byte_of c =? 45) eqn:E1; bools; [lia|]. destruct (byte_of c =? 43) eqn:E2; bools; [lia|].
  replace (String c r =s "") with false by done. rewrite Hp. cbn [parse_uint]. cbv iota.
  destruct (2 ^ 63 <=? z) eqn:E3; bools; [lia|done].
Qed.
Lemma FormatInt_lacks z : 0 <= z -> lacks 45 (FormatInt z) = true.
Proof.
  intros Hz. unfold FormatInt. destruct (z <? 0) eqn:E; bools; [lia|].
  apply digits_forallb; [|done|done]. intros c Hc%is_digit_range.
  apply negb_true_iff, Z.eqb_neq. lia.
Qed.
(** Times since 1970 and sequence numbers come back from their identifier. *)
Lemma ParseID_ID at_ seq :
  0 <= UnixMilli at_ <= int64_max -> 0 <= seq <= int64_max ->
  ParseID (ID at_ seq) = (UnixMilli at_, seq, true).
Proof.
  intros Ht Hs. unfold ParseID, ID.
  rewrite (cut_app 45 _ (FormatInt seq)) by (apply FormatInt_lacks; lia) || done.
  by rewrite !ParseInt_FormatInt by lia.
Qed.

(** An identifier is not one of the names [XRead] treats apart. *)
Lemma ID_plain a b : 0 <= UnixMilli a -> ID a b <> "" /\ ID a b <> "$".
Proof.
  intros Ha. unfold ID. generalize ("-" +:+ FormatInt b). intros rest.
  destruct (digits_nonempty 40 (UnixMilli a) "" ltac:(lia)) as (c & r & Hc).
  pose proof (digits_forallb is_digit 40 (UnixMilli a) "" ltac:(done) ltac:(lia) eq_refl) as Hd.
  unfold FormatInt. destruct (UnixMilli a <? 0) eqn:E; bools; [lia|]. rewrite Hc in *.
  simpl in Hd. apply andb_true_iff in Hd as [Hd%is_digit_range _]. rewrite str_cons_app.
  split; [done|]. intros [= -> _]. change (byte_of _) with 36 in Hd. lia.
Qed.

(** *** The order of identifiers *)
Definition pos (id : string) : Z * Z := (ParseID id).1.
Definition pos_lt (a b : Z * Z) : Prop := a.1 < b.1 \/ (a.1 = b.1 /\ a.2 < b.2).
Lemma Less_pos a b : Less a b = true <-> pos_lt (pos a) (pos b).
Proof.
  unfold Less, pos, pos_lt. destruct (ParseID a) as [[am s1] ?], (ParseID b) as [[bm s2] ?]. simpl.
  destruct (am =? bm) eqn:E; bools; simpl; rewrite Z.ltb_lt; lia.
Qed.
Lemma Less_false a b : Less a b = false <-> ~ pos_lt (pos a) (pos b).
Proof. rewrite <- Less_pos. by destruct (Less a b). Qed.
Lemma Less_irrefl a : Less a a = false.
Proof. apply Less_false. unfold pos_lt. lia. Qed.
Lemma Less_trans a b c : Less a b = true -> Less b c = true -> Less a c = true.
Proof. rewrite !Less_pos. unfold pos_lt. lia. Qed.

(** ** A stream is a log *)

(** An entry is added at the end; the oldest ones may go. *)
Lemma XAdd_entries now key f maxLen m id m' :
  XAdd now key f maxLen m = (Ok id, m') ->
  (exists n, entries key m' = drop n (entries key m) ++ [mkEntry id f])
  /\ forall k, k <> key -> entries k m' = entries k m.
Proof.
  unfold XAdd, client_write. case_match; [done|]. intros [= <- <-]. split.
  - unfold entries at 1. simpl. rewrite lookup_insert_eq. simpl. set (l := entries key m).
    destruct (_ && _) eqn:Ed; [|by exists 0%nat]. bools. rewrite length_app in *. simpl in *.
    exists (length l + 1 - Z.to_nat maxLen)%nat. apply drop_app_le. lia.
  - intros k Hk. unfold entries. simpl. by rewrite lookup_insert_ne by congruence.
Qed.
Lemma XAdd_err now key f maxLen m e m' : XAdd now key f maxLen m = (Err e, m') -> m' = m.
Proof. unfold XAdd, client_write. case_match; by intros [=]. Qed.

(** The clients a service can produce, by a clock that does not go back; fewer than
    2^63 entries are ever added. *)
Inductive log_run : Z -> Memory -> Prop :=
| lr_new t : 0 <= UnixMilli t -> log_run t NewMemory
| lr_add t now key f maxLen m r m' :
    log_run t m -> t <= now -> UnixMilli now <= int64_max -> mm_seq m < int64_max ->
    XAdd now key f maxLen m = (r, m') -> log_run now m'
| lr_trim t key id m r m' : log_run t m -> XTrimMinID key id m = (r, m') -> log_run t m'
| lr_incr t now key ttl m r m' : log_run t m -> Incr now key ttl m = (r, m') -> log_run t m'
| lr_outage t e m : log_run t m -> log_run t (SetErr e m)
| lr_close t m : log_run t m -> log_run t (CloseMemory m).

Definition older (a b : Entry) : Prop := Less (e_ID a) (e_ID b) = true.
(** An identifier given out by [now]. *)
Definition given (t seq : Z) (e : Entry) : Prop :=
  exists t' s', e_ID e = ID t' s' /\ 0 <= UnixMilli t' <= UnixMilli t /\ 1 <= s' <= seq
    /\ UnixMilli t' <= int64_max /\ s' <= int64_max.
Record log_inv (t : Z) (m : Memory) : Prop := {
  li_time : 0 <= UnixMilli t;
  li_seq : 0 <= mm_seq m <= int64_max;
  li_given key : Forall (given t (mm_seq m)) (entries key m);
  li_sorted key : StronglySorted older (entries key m);
}.

Lemma given_mono t t' s s' e : UnixMilli t <= UnixMilli t' -> s <= s' -> given t s e -> given t' s' e.
Proof. intros Ht Hs (a & b & He & ? & ? & ? & ?). exists a, b. split_and!; done || lia. Qed.
Lemma given_older t seq now e :
  0 <= UnixMilli t <= UnixMilli now -> UnixMilli now <= int64_max -> seq < int64_max ->
  given t seq e -> Less (e_ID e) (ID now (seq + 1)) = true.
Proof.
  intros Ht Hn Hs (a & b & -> & ? & ? & ? & ?). apply Less_pos. unfold pos, pos_lt.
  rewrite !ParseID_ID by lia. simpl. lia.
Qed.
Lemma sorted_drop {A} (R : A -> A -> Prop) n l : StronglySorted R l -> StronglySorted R (drop n l).
Proof.
  revert l. induction n as [|n IH]; intros [|x l] Hs; simpl; try done. apply IH. by inversion Hs.
Qed.
Lemma sorted_filter {A} (R : A -> A -> Prop) f l : StronglySorted R l -> StronglySorted R (List.filter f l).
Proof.
  induction 1 as [|x l Hs IH Hx]; simpl; [constructor|]. destruct (f x); [|done]. constructor; [done|].
  apply Forall_forall. intros y Hy. rewrite list_elem_of_In, filter_In, <- list_elem_of_In in Hy.
  eapply Forall_forall in Hx; [done|tauto].
Qed.
Lemma sorted_snoc {A} (R : A -> A -> Prop) l x :
  StronglySorted R l -> Forall (fun y => R y x) l -> StronglySorted R (l ++ [x]).
Proof.
  induction 1 as [|y l Hs IH Hy]; intros Hx; simpl; [repeat constructor|].
  apply Forall_cons in Hx as [? ?]. constructor; [by apply IH|]. apply Forall_app; auto.
Qed.
Lemma XAdd_inv t now key f maxLen m r m' :
  log_inv t m -> t <= now -> UnixMilli now <= int64_max -> mm_seq m < int64_max ->
  XAdd now key f maxLen m = (r, m') -> log_inv now m'.
Proof.
  intros [Ht [Hq0 Hq1] Hg Hs] Hle Hn Hlt. assert (Hmono : UnixMilli t <= UnixMilli now).
  { unfold UnixMilli. apply Z.div_le_mono; unfold Millisecond; lia. }
  assert (Hkeep : log_inv now m).
  { split; [lia|lia| |done]. intros k. eapply Forall_impl; [apply (Hg k)|].
    intros e. by apply given_mono. }
  unfold XAdd, client_write. case_match; [by intros [= _ <-]|].
  assert (Hw : wrap64 (mm_seq m + 1) = mm_seq m + 1)
    by (unfold wrap64, int64_max in *; rewrite Z.mod_small; lia).
  rewrite Hw. intros [= _ <-]. set (e := mkEntry _ _).
  assert (Hl : Forall (given now (mm_seq m + 1)) (entries key m ++ [e])
               /\ StronglySorted older (entries key m ++ [e])).
  { split.
    - apply Forall_app. split; [|apply Forall_singleton; exists now, (mm_seq m + 1); split_and!; done || lia].
      eapply Forall_impl; [apply (Hg key)|]. intros x. apply given_mono; lia.
    - apply sorted_snoc; [done|]. eapply Forall_impl; [apply (Hg key)|]. intros x.
      apply given_older; lia. }
  destruct Hl as [Hl1 Hl2]. split; [simpl; lia|simpl; lia| |];
    [intros k; unfold entries; simpl; rewrite lookup_insert; case_decide; simpl|].
  - destruct (_ && _); [by apply Forall_drop|done].
  - eapply Forall_impl; [apply (Hg k)|]. intros x. apply given_mono; lia.
  - intros k. unfold entries. simpl. rewrite lookup_insert. case_decide; simpl; [|apply (Hs k)].
    destruct (_ && _); [by apply sorted_drop|done].
Qed.
Lemma log_run_inv t m : log_run t m -> log_inv t m.
Proof.
  induction 1 as [t Ht|t now key f maxLen m r m' Hr IH Hle Hn Hlt Ha|t key id m r m' Hr IH Ha
                 |t now key ttl m r m' Hr IH Ha|t e m Hr IH|t m Hr IH].
  - split; [done|done|intros; apply Forall_nil_2|intros; constructor].
  - by eapply XAdd_inv.
  - unfold XTrimMinID, client_write in Ha. case_match; [by injection Ha as _ <-|]. injection Ha as _ <-.
    destruct IH as [? ? Hg Hs].
    split; try done; intros k; unfold entries; simpl; rewrite lookup_insert; case_decide; simpl;
      try apply (Hg k); try apply (Hs k).
    + apply Forall_forall. intros x Hx. rewrite list_elem_of_In, filter_In, <- list_elem_of_In in Hx.
      destruct Hx as [Hx _]. pose proof (Hg key) as Hk. by eapply Forall_forall in Hk.
    + apply sorted_filter, (Hs key).
  - unfold Incr, client_write in Ha. case_match; [by injection Ha as _ <-|]. destruct (default _ _) as [n x].
    destruct (_ || _); simpl in Ha; by injection Ha as _ <-; destruct IH.
  - by destruct IH.
  - destruct IH as [? ? Hg Hs]. split; [done|done|intros; apply Forall_nil_2|intros; constructor].
Qed.

Lemma after_skip a count l1 l out :
  a <> "" -> Forall (fun x => Less a (e_ID x) = false) l1 ->
  after_from a count (l1 ++ l) out = after_from a count l out.
Proof.
  intros Ha. induction 1 as [|x l1 Hx _ IH]; [done|]. simpl.
  by rewrite (proj2 (str_eqb_neq _ _) Ha), Hx.
Qed.
Lemma after_all a count l out :
  Forall (fun x => Less a (e_ID x) = true) l -> (0 < count -> Z.of_nat (length out) < count) ->
  after_from a count l out = out ++ (if 0 <? count then take (Z.to_nat count - length out) l else l).
Proof.
  intros Hl. revert out. induction Hl as [|x l Hx _ IH]; intros out Ho; simpl.
  - by destruct (0 <? count); rewrite ?take_nil, app_nil_r.
  - rewrite Hx, orb_true_r, length_app. simpl. destruct (0 <? count) eqn:Ec; simpl; bools.
    + destruct (Z.to_nat count - length out)%nat as [|k] eqn:Ek; [lia|]. simpl.
      destruct (_ =? count) eqn:Ef; bools.
      * replace k with 0%nat by lia. by rewrite take_0.
      * rewrite IH by (rewrite length_app; simpl; lia). rewrite length_app. simpl.
        replace (Z.to_nat count - (length out + 1))%nat with k by lia. by rewrite <- app_assoc.
    + rewrite IH by lia. by rewrite <- app_assoc.
Qed.

(** A stream is a log that readers follow without gaps: reading past the
    identifier of an entry gives exactly the entries added after it, oldest first,
    cut at the count; so a reader that goes on from the last identifier it saw
    misses nothing and sees nothing twice. *)
Theorem log_reads t m key l1 e l2 count :
  log_run t m -> mm_Err m = None -> entries key m = l1 ++ e :: l2 ->
  let next := if 0 <? count then take (Z.to_nat count) l2 else l2 in
  XRead key (e_ID e) count m = Ok next /\ XRange key (e_ID e) count m = Ok next
  /\ (XLast key m = Ok (e_ID e) <-> l2 = []).
Proof.
  intros Hr He Hl. apply log_run_inv in Hr as [_ _ Hg Hs]. specialize (Hg key). specialize (Hs key).
  rewrite Hl in Hg, Hs. simpl.
  assert (Hid : forall x, x ∈ l1 ++ e :: l2 -> e_ID x <> "" /\ e_ID x <> "$").
  { intros x Hx. eapply Forall_forall in Hg as (a & b & -> & ? & _); [|done]. apply ID_plain. lia. }
  assert (Hbefore : Forall (fun x => Less (e_ID e) (e_ID x) = false) (l1 ++ [e])).
  { apply Forall_app. split; [|apply Forall_singleton, Less_irrefl]. apply Forall_forall. intros x Hx.
    destruct (Less (e_ID e) (e_ID x)) eqn:E; [|done].
    assert (Hxe : older x e) by (eapply (StronglySorted_app_1_elem_of _ l1 (e :: l2)); [done..|left]).
    pose proof (Less_trans _ _ _ Hxe E) as Hxx. by rewrite Less_irrefl in Hxx. }
  assert (Hafter : Forall (fun x => Less (e_ID e) (e_ID x) = true) l2).
  { pose proof (sorted_drop _ (length l1) _ Hs) as Hd. rewrite drop_app_length in Hd. by inversion Hd. }
  assert (Hn : after key (e_ID e) count m = if 0 <? count then take (Z.to_nat count) l2 else l2).
  { unfold after. rewrite Hl. change (e :: l2) with ([e] ++ l2). rewrite app_assoc, after_skip;
      [|apply Hid; set_solver|done]. rewrite after_all by (done || simpl; lia). simpl.
    by rewrite Nat.sub_0_r. }
  destruct (Hid e) as [Hi1 Hi2]; [set_solver|].
  unfold XRead, XRange, XLast, client_read. rewrite He, !(proj2 (str_eqb_neq _ _)) by done. simpl.
  rewrite Hn. split_and!; [done|done|]. unfold newest. rewrite Hl.
  destruct l2 as [|x l2 _] using rev_ind; [by rewrite last_snoc|].
  rewrite (app_assoc l1 (e :: l2) [x] : l1 ++ e :: l2 ++ [x] = (l1 ++ e :: l2) ++ [x]), last_snoc.
  split; [|by destruct l2]. intros [= Hx]. exfalso.
  assert (Hlt : Less (e_ID e) (e_ID x) = true) by (eapply Forall_forall in Hafter; [exact Hafter|set_solver]).
  by rewrite Hx, Less_irrefl in Hlt.
Qed.

(** ** Witness: three events of a tenant *)
Module StreamSample.
Definition at_noon : Z := unix_epoch + 1700000000 * Second.
Definition say (m : Memory) (text : string) : Memory :=
  (PublishID at_noon 10000 "t1" [] true "note" (PText text) false m).2.
Definition m1 : Memory := say NewMemory "1".
Definition m2 : Memory := say m1 "2".
Definition m3 : Memory := say m2 "3".
Lemma said : log_run at_noon m3.
Proof.
  assert (H0 : log_run at_noon NewMemory) by (apply lr_new; vm_compute; discriminate).
  assert (Hs : forall m text, log_run at_noon m -> mm_seq m < int64_max -> typeRE "note" = true ->
                 json_Valid text = true -> (MaxPayload <? str_len text) = false -> has_break text = false ->
                 log_run at_noon (say m text)).
  { intros m text Hm Hq Ht Hv Hl Hb. unfold say, PublishID, ValidateType. rewrite Ht. simpl.
    rewrite Hl, Hv, Hb. simpl.
    destruct (XAdd _ _ _ _ m) as [r m'] eqn:Ha. simpl.
    eapply lr_add; [exact Hm| | |exact Hq|exact Ha]; [lia|vm_compute; discriminate]. }
  apply Hs; [|vm_compute; reflexivity..]. apply Hs; [|vm_compute; reflexivity..].
  apply Hs; [exact H0|vm_compute; reflexivity..].
Qed.
Definition entry (i : nat) : Entry := default (mkEntry "" ∅) (entries (Key "t1") m3 !! i).
Lemma log_reads_witness :
  (e_ID <$> entries (Key "t1") m3) = ["1700000000000-1"; "1700000000000-2"; "1700000000000-3"]
  /\ XRead (Key "t1") "1700000000000-1" 1 m3 = Ok [entry 1].
Proof.
  split; [vm_compute; reflexivity|].
  exact (proj1 (log_reads at_noon m3 (Key "t1") [] (entry 0) [entry 1; entry 2] 1 said eq_refl
                  ltac:(vm_compute; reflexivity))).
Defined.
End StreamSample.
