(* ===== verification/Sse.v ===== *)
(** Server-sent events: internal/stream/sse.go.

    The handler is a function of what its [select] sees, one signal per round; what
    it writes is read back by a reader of the event-stream format. *)

From S2P Require Import Prelude Rows GoJson GoUrl Csr Domains Stream.

(** ** The handler *)
Definition Retry : Z := 3000.
Inductive Signal : Type :=
| Gone                     (* the request's context is done *)
| Deadline                 (* the stream is maxAge old *)
| Tick                     (* heartbeat *)
| Got (ev : SEvent)
| Ended.                   (* the subscription's channel is closed *)
Definition bye : SEvent := mkSEvent "" "bye" "{}".
(** The loop: what it writes, and whether it has returned. *)
Fixpoint sse_loop (l : list Signal) : string * bool :=
  match l with
  | [] => ("", false)
  | Gone :: _ => ("", true)
  | Deadline :: _ => ("event: bye" +:+ nl +:+ "data: {}" +:+ nl +:+ nl, true)
  | Tick :: l => let '(out, fin) := sse_loop l in (": ping" +:+ nl +:+ nl +:+ out, fin)
  | Got ev :: l => let '(out, fin) := sse_loop l in (Frame ev +:+ out, fin)
  | Ended :: _ => ("", true)
  end.
Record Response := mkResponse {
  rs_Status : Z; rs_Header : list (string * string); rs_Body : string;
  rs_done : bool; rs_closed : bool;     (* sub.Close has run *)
}.
(** The deferred [sub.Close] is not yet set when the writer cannot flush. *)
Definition ServeSSE (flusher : bool) (instance : string) (l : list Signal) : Response :=
  if negb flusher then
    mkResponse 500 [("Content-Type", "text/plain; charset=utf-8"); ("X-Content-Type-Options", "nosniff")]
      ("streaming unsupported" +:+ nl) true false
  else
    let '(out, fin) := sse_loop l in
    mkResponse 200
      [("Content-Type", "text/event-stream"); ("Cache-Control", "no-store"); ("X-Accel-Buffering", "no")]
      ("retry: " +:+ FormatInt Retry +:+ nl +:+ ": connected " +:+ instance +:+ nl +:+ nl +:+ out) fin fin.

(** ** A reader of the format *)

(** The fields of the event being read, the last identifier, and the events so far. *)
Record Reader := mkReader {
  rd_type : string; rd_data : option string; rd_lastID : string; rd_events : list SEvent;
}.
Definition reader0 : Reader := mkReader "" None "" [].
Definition read_line (line : string) (r : Reader) : Reader :=
  let '(mkReader typ data lastID evs) := r in
  if line =s "" then
    match data with
    | Some d => mkReader "" None lastID (evs ++ [mkSEvent lastID typ d])
    | None => mkReader "" None lastID evs
    end
  else match strip_prefix "id: " line with
  | Some v => mkReader typ data v evs
  | None =>
    match strip_prefix "event: " line with
    | Some v => mkReader v data lastID evs
    | None =>
      match strip_prefix "data: " line with
      | Some v => mkReader typ (Some (match data with Some d => d +:+ nl +:+ v | None => v end)) lastID evs
      | None => r                            (* a comment or another field *)
      end
    end
  end.
Definition is_break (c : Ascii.ascii) : bool := (byte_of c =? 10) || (byte_of c =? 13).
Fixpoint read_stream (s line : string) (r : Reader) : Reader :=
  match s with
  | EmptyString => r
  | String c s' => if is_break c then read_stream s' "" (read_line line r)
                   else read_stream s' (line +:+ String c "") r
  end.

(** ** The reader gets the events the handler took *)

(** What the loop delivers: the events before it returns, and the farewell. *)
Fixpoint delivered (l : list Signal) : list SEvent :=
  match l with
  | [] | Gone :: _ | Ended :: _ => []
  | Deadline :: _ => [bye]
  | Tick :: l => delivered l
  | Got ev :: l => ev :: delivered l
  end.
(** The reader keeps the last identifier it saw. *)
Fixpoint with_ids (lastID : string) (evs : list SEvent) : list SEvent :=
  match evs with
  | [] => []
  | ev :: evs =>
    let id := if ev_ID ev =s "" then lastID else ev_ID ev in
    mkSEvent id (ev_Type ev) (ev_Data ev) :: with_ids id evs
  end.
(** One line each: what [PublishID] accepts. *)
Definition one_line (ev : SEvent) : Prop :=
  has_break (ev_ID ev) = false /\ has_break (ev_Type ev) = false /\ has_break (ev_Data ev) = false.

Lemma has_break_cons c s : has_break (String c s) = is_break c || has_break s.
Proof.
  unfold has_break, has_byte, string_existsb, is_break. simpl.
  rewrite !negb_andb, !negb_involutive. by destruct (byte_of c =? 10), (byte_of c =? 13); simpl; rewrite ?orb_true_r.
Qed.
Lemma has_break_app s s' : has_break (s +:+ s') = has_break s || has_break s'.
Proof.
  induction s as [|c s IH]; [done|]. change (String c s +:+ s') with (String c (s +:+ s')).
  by rewrite !has_break_cons, IH, orb_assoc.
Qed.
Lemma read_stream_line l rest line r :
  has_break l = false -> read_stream (l +:+ nl +:+ rest) line r = read_stream rest "" (read_line (line +:+ l) r).
Proof.
  revert line. induction l as [|c l IH]; intros line Hl.
  - simpl. by rewrite str_app_nil.
  - rewrite has_break_cons in Hl. apply orb_false_iff in Hl as [Hc Hl].
    change (String c l +:+ nl +:+ rest) with (String c (l +:+ nl +:+ rest)). cbn [read_stream]. rewrite Hc, IH by done.
    by rewrite str_app_assoc.
Qed.
Lemma read_stream_nl rest r : read_stream (nl +:+ rest) "" r = read_stream rest "" (read_line "" r).
Proof. exact (read_stream_line "" rest "" r eq_refl). Qed.
Lemma drop_breaks_id s : has_break s = false -> drop_breaks s = s.
Proof.
  induction s as [|c s IH]; [done|]. rewrite has_break_cons. intros [Hc Hs]%orb_false_iff. simpl.
  unfold is_break in Hc. rewrite orb_comm, Hc. by rewrite IH.
Qed.

Definition read_event (ev : SEvent) (r : Reader) : Reader :=
  let id := if ev_ID ev =s "" then rd_lastID r else ev_ID ev in
  mkReader "" None id (rd_events r ++ [mkSEvent id (ev_Type ev) (ev_Data ev)]).
Definition between_events (r : Reader) : Prop := rd_type r = "" /\ rd_data r = None.
Lemma read_frame ev rest r :
  one_line ev -> between_events r -> read_stream (Frame ev +:+ rest) "" r = read_stream rest "" (read_event ev r).
Proof.
  intros (Hi & Ht & Hd) [Hr1 Hr2]. destruct r as [typ data lastID evs]. simpl in Hr1, Hr2. subst.
  unfold Frame. rewrite drop_breaks_id by done.
  assert (Hrest : forall id, read_stream (("event: " +:+ ev_Type ev +:+ nl +:+ "data: " +:+ ev_Data ev +:+ nl +:+ nl) +:+ rest)
                               "" (mkReader "" None id evs)
            = read_stream rest "" (mkReader "" None id (evs ++ [mkSEvent id (ev_Type ev) (ev_Data ev)]))).
  { intros id. rewrite !str_app_assoc. rewrite <- (str_app_assoc "event: "), read_stream_line by (by rewrite has_break_app).
    rewrite <- (str_app_assoc "data: "), read_stream_line by (by rewrite has_break_app).
    rewrite read_stream_nl. simpl read_line at 3. done. }
  unfold read_event. destruct (ev_ID ev =s "") eqn:E; simpl negb; cbn iota.
  - apply Hrest.
  - rewrite !str_app_assoc in *. rewrite <- (str_app_assoc "id: "), read_stream_line by (by rewrite has_break_app).
    rewrite <- Hrest. done.
Qed.
Lemma read_comment l rest r :
  has_break l = false -> between_events r -> read_stream ((": " +:+ l) +:+ nl +:+ nl +:+ rest) "" r = read_stream rest "" r.
Proof.
  intros Hl [H1 H2]. rewrite read_stream_line by (by rewrite has_break_app). rewrite read_stream_nl.
  destruct r; simpl in *; by subst.
Qed.
Lemma read_loop l : forall r,
  Forall one_line (delivered l) -> between_events r ->
  let r' := read_stream (sse_loop l).1 "" r in
  rd_events r' = rd_events r ++ with_ids (rd_lastID r) (delivered l) /\ between_events r'.
Proof.
  induction l as [|[| | |ev|] l IH]; intros r Hev Hr; cbn [sse_loop delivered] in *.
  - simpl. by rewrite app_nil_r.
  - simpl. by rewrite app_nil_r.
  - destruct r as [typ data lastID evs], Hr as [Hr1 Hr2]. simpl in Hr1, Hr2. by subst.
  - destruct (sse_loop l) as [out fin]. specialize (IH r Hev Hr). cbn [fst] in *.
    change (": ping" +:+ nl +:+ nl +:+ out) with ((": " +:+ "ping") +:+ nl +:+ nl +:+ out).
    by rewrite read_comment.
  - destruct (sse_loop l) as [out fin]. apply Forall_cons in Hev as [H1 Hev].
    specialize (IH (read_event ev r) Hev ltac:(done)). cbn [fst] in *. rewrite read_frame by done.
    destruct IH as [-> IH]. split; [|done]. unfold read_event. simpl. by rewrite <- app_assoc.
  - simpl. by rewrite app_nil_r.
Qed.

(** C25. A reader of the event-stream format gets from the response body exactly the
    events the handler took from the subscription before it returned, in order,
    each with its type, data and identifier, and a farewell when the stream's age
    ends it; heartbeats and the preamble are no events. *)
Theorem ServeSSE_delivers instance l :
  has_break instance = false -> Forall one_line (delivered l) ->
  rd_events (read_stream (rs_Body (ServeSSE true instance l)) "" reader0) = with_ids "" (delivered l).
Proof.
  intros Hi Hl. unfold ServeSSE. simpl negb. cbn iota. destruct (sse_loop l) as [out fin] eqn:E. cbn [rs_Body].
  rewrite <- (str_app_assoc "retry: "), read_stream_line by done.
  change (": connected " +:+ instance +:+ nl +:+ nl +:+ out)
    with (": " +:+ ("connected " +:+ (instance +:+ nl +:+ nl +:+ out))).
  rewrite <- (str_app_assoc "connected "), <- (str_app_assoc ": ").
  rewrite read_comment; [|by rewrite has_break_app|done].
  pose proof (read_loop l reader0 Hl ltac:(done)) as [Hr _]. by rewrite E in Hr.
Qed.

Module SseSample.
Definition e1 : SEvent := mkSEvent "1700000000000-1" "issued" "{}".
Definition e2 : SEvent := mkSEvent "" "reset" "[1]".
Lemma ServeSSE_delivers_witness :
  rd_events (read_stream (rs_Body (ServeSSE true "lcm-1" [Got e1; Tick; Got e2; Deadline; Got e1])) "" reader0)
  = [e1; mkSEvent "1700000000000-1" "reset" "[1]"; mkSEvent "1700000000000-1" "bye" "{}"].
Proof.
  rewrite (ServeSSE_delivers "lcm-1" [Got e1; Tick; Got e2; Deadline; Got e1]); [reflexivity|reflexivity|].
  repeat constructor.
Defined.
End SseSample.
