(* ===== verification/Hub.v ===== *)
(** The event hub: internal/stream/hub.go.

    The hub's goroutines (subscribers replaying, one reading loop per tenant,
    closers) share the hub under [h.mu] and each subscription under [s.mu].  A
    critical section is one step, and so is a send to, a receive from or a close of
    a channel; [push] checks under the lock and sends after it, so it is two steps. *)

From S2P Require Import Prelude Rows GoJson GoUrl Csr Domains Stream.

Definition connBuffer : nat := 32.
Record HubConfig := mkHubConfig {
  hc_ReplayWindow : Z; hc_StreamsPerUser : Z; hc_StreamsPerTenant : Z; hc_MaxLen : Z;
}.
Definition positive_or (v d : Z) : Z := if v <=? 0 then d else v.
(** The defaults of [NewHub]. *)
Definition NewHub_config (c : HubConfig) : HubConfig :=
  mkHubConfig (positive_or (hc_ReplayWindow c) (5 * Minute)) (positive_or (hc_StreamsPerUser c) 5)
    (positive_or (hc_StreamsPerTenant c) 2000) (positive_or (hc_MaxLen c) DefaultMaxLen).

Record Subscription := mkSubscription {
  s_tenant : string; s_user : string;
  s_ch : list SEvent;          (* the buffered channel *)
  s_last : string; s_closed : bool;
  s_once : bool;               (* s.once has been used *)
  s_ended : bool;              (* close(s.ch) has run *)
  s_seen : list SEvent;        (* what the reader has received *)
}.
#[export] Instance subscription_eta : RecordEta Subscription := fun r =>
  mkSubscription (s_tenant r) (s_user r) (s_ch r) (s_last r) (s_closed r) (s_once r) (s_ended r) (s_seen r).
Record tenantSub := mkTenantSub {
  ts_tenant : string;          (* the tenant its loop reads *)
  ts_conns : gset nat; ts_byUser : gmap string Z; ts_cancelled : bool;
}.
#[export] Instance tenantSub_eta : RecordEta tenantSub := fun r =>
  mkTenantSub (ts_tenant r) (ts_conns r) (ts_byUser r) (ts_cancelled r).
(** Subscriptions and tenant records live on the heap: loops and closers keep
    pointers to them. *)
Record Hub := mkHub {
  h_tenants : gmap string nat; h_tsubs : gmap nat tenantSub; h_subs : gmap nat Subscription;
  h_next : nat; h_closed : bool; h_panicked : bool;
}.
#[export] Instance hub_eta : RecordEta Hub := fun r =>
  mkHub (h_tenants r) (h_tsubs r) (h_subs r) (h_next r) (h_closed r) (h_panicked r).
Definition NewHub : Hub := mkHub ∅ ∅ ∅ 0 false false.
Definition set_sub (s : nat) (x : Subscription) (h : Hub) : Hub :=
  h <| h_subs := <[s := x]> (h_subs h) |>.
Definition set_tsub (t : nat) (x : tenantSub) (h : Hub) : Hub :=
  h <| h_tsubs := <[t := x]> (h_tsubs h) |>.

(** ** The critical sections *)

(** The tenant's record, made on first use; a loop is then started after the newest
    entry. *)
Definition ensure_tenant (tenantID : string) (h : Hub) (m : Memory)
  : res (nat * Hub * option string) :=
  match h_tenants h !! tenantID with
  | Some t => Ok (t, h, None)
  | None =>
    let? start := XLast (Key tenantID) m in
    let t := h_next h in
    Ok (t, h <| h_next := S t |> <| h_tenants := <[tenantID := t]> (h_tenants h) |>
             <| h_tsubs := <[t := mkTenantSub tenantID ∅ ∅ false]> (h_tsubs h) |>,
        Some (if start =s "" then "0-0" else start))
  end.
(** [Subscribe] up to the unlock: the subscription, and the loop to start. *)
Definition Subscribe_locked (cfg : HubConfig) (tenantID userID : string) (m : Memory) (h : Hub)
  : res nat * Hub * option (nat * string) :=
  if h_closed h then (Err (Opaque "stream: hub closed"), h, None)
  else match ensure_tenant tenantID h m with
  | Err e => (Err e, h, None)
  | Ok (t, h, start) =>
    let loop := (fun last => (t, last)) <$> start in
    match h_tsubs h !! t with
    | None => (Err (Opaque ""), h, loop)        (* [t] is allocated *)
    | Some ts =>
      let n := default 0 (ts_byUser ts !! userID) in
      if (hc_StreamsPerUser cfg <=? n) || (hc_StreamsPerTenant cfg <=? Z.of_nat (size (ts_conns ts)))
      then (Err stream_ErrTooMany, h, loop)
      else
        let s := h_next h in
        (Ok s,
         set_sub s (mkSubscription tenantID userID [] "" false false false [])
           (set_tsub t (ts <| ts_conns := {[s]} ∪ ts_conns ts |>
                           <| ts_byUser := <[userID := n + 1]> (ts_byUser ts) |>)
              (h <| h_next := S s |>)), loop)
    end
  end.

(** [push] up to the unlock: whether the event is to be sent. *)
Definition push_check (ev : SEvent) (x : Subscription) : Subscription * bool :=
  if s_closed x || ((ev_ID ev <>s "") && (s_last x <>s "") && negb (Less (s_last x) (ev_ID ev)))
  then (x, false)
  else (if ev_ID ev <>s "" then x <| s_last := ev_ID ev |> else x, true).
(** The select of [push]: a send on a closed channel panics. *)
Inductive sent := Sent (x : Subscription) | Stalled | Panic.
Definition send (ev : SEvent) (x : Subscription) : sent :=
  if s_ended x then Panic
  else if (length (s_ch x) <? connBuffer)%nat then Sent (x <| s_ch := s_ch x ++ [ev] |>)
  else Stalled.

(** [Close] up to the unlock, the first time. *)
Definition detach (s : nat) (x : Subscription) (h : Hub) : Hub :=
  let h := set_sub s (x <| s_closed := true |> <| s_once := true |>) h in
  match h_tenants h !! s_tenant x with
  | None => h
  | Some t =>
    match h_tsubs h !! t with
    | None => h                                  (* [t] is allocated *)
    | Some ts =>
      let conns := ts_conns ts ∖ {[s]} in
      let n := default 0 (ts_byUser ts !! s_user x) - 1 in
      let byUser := if n <=? 0 then delete (s_user x) (ts_byUser ts) else <[s_user x := n]> (ts_byUser ts) in
      let ts := ts <| ts_conns := conns |> <| ts_byUser := byUser |> in
      if decide (conns = ∅)
      then set_tsub t (ts <| ts_cancelled := true |>)
             (h <| h_tenants := delete (s_tenant x) (h_tenants h) |>)
      else set_tsub t ts h
    end
  end.

(** The snapshot of [dispatch]. *)
Definition dispatch_subs (h : Hub) (ts : tenantSub) (e : Entry) : list nat :=
  List.filter (fun s => match h_subs h !! s with
                        | Some x => targets (field e "to") (s_user x)
                        | None => false
                        end) (elements (ts_conns ts)).
(** [replay]: the events to push. *)
Definition reset_event (reason : string) : SEvent := mkSEvent "" "reset" reason.
Definition replay_events (cfg : HubConfig) (now : Z) (m : Memory) (x : Subscription) (lastID : string)
  : list SEvent :=
  let '(ms, _, ok) := ParseID lastID in
  if negb ok || Before (of_UnixMilli ms) (now + - hc_ReplayWindow cfg)
  then [reset_event ("{" +:+ json_string "reason" +:+ ":" +:+ json_string "replay_window" +:+ "}")]
  else match XRange (Key (s_tenant x)) lastID (hc_MaxLen cfg) m with
  | Err _ => [reset_event ("{" +:+ json_string "reason" +:+ ":" +:+ json_string "replay_unavailable" +:+ "}")]
  | Ok es => event_of <$> List.filter (fun e => targets (field e "to") (s_user x)) es
  end.
Definition OpenStreams (h : Hub) : Z :=
  foldr Z.add 0 ((fun kt => match h_tsubs h !! kt.2 with
                            | Some ts => Z.of_nat (size (ts_conns ts))
                            | None => 0
                            end) <$> map_to_list (h_tenants h)).

(** The subscriptions [Close] of the hub closes. *)
Definition all_conns (h : Hub) : list nat :=
  concat ((fun kt => match h_tsubs h !! kt.2 with
                     | Some ts => elements (ts_conns ts)
                     | None => []
                     end) <$> map_to_list (h_tenants h)).

(** ** What a goroutine still has to do *)
Inductive Task : Type :=
| Replay (s : nat) (lastID : string)
| Dispatch (t : nat) (e : Entry)
| Push (s : nat) (ev : SEvent) (evict : bool)      (* [evict]: close a stalled subscription *)
| Send (s : nat) (ev : SEvent) (evict : bool)
| CloseSub (s : nat)
| CloseChan (s : nat).
(** One step of a goroutine and what it has to do next; [order] is the order in
    which the runtime visits the connections. *)
Definition do_task (cfg : HubConfig) (now : Z) (m : Memory) (order : list nat -> list nat) (k : Task)
  (h : Hub) : Hub * list Task :=
  match k with
  | Replay s lastID =>
    match h_subs h !! s with
    | Some x => (h, (fun ev => Push s ev false) <$> replay_events cfg now m x lastID)
    | None => (h, [])
    end
  | Dispatch t e =>
    match h_tsubs h !! t with
    | Some ts => (h, (fun s => Push s (event_of e) true) <$> order (dispatch_subs h ts e))
    | None => (h, [])
    end
  | Push s ev evict =>
    match h_subs h !! s with
    | Some x => let '(x, go) := push_check ev x in (set_sub s x h, if go then [Send s ev evict] else [])
    | None => (h, [])
    end
  | Send s ev evict =>
    match h_subs h !! s with
    | Some x => match send ev x with
                | Sent x => (set_sub s x h, [])
                | Stalled => (h, if evict then [CloseSub s] else [])
                | Panic => (h <| h_panicked := true |>, [])
                end
    | None => (h, [])
    end
  | CloseSub s =>
    match h_subs h !! s with
    | Some x => if s_once x then (h, []) else (detach s x h, [CloseChan s])
    | None => (h, [])
    end
  | CloseChan s =>
    match h_subs h !! s with
    | Some x => (set_sub s (x <| s_ended := true |>) h, [])
    | None => (h, [])
    end
  end.
(** A goroutine run to its end with no other in between. *)
Fixpoint run_tasks (cfg : HubConfig) (now : Z) (m : Memory) (order : list nat -> list nat) (fuel : nat)
  (ks : list Task) (h : Hub) : option Hub :=
  match fuel, ks with
  | _, [] => Some h
  | O, _ => None
  | S n, k :: ks => let '(h, ks') := do_task cfg now m order k h in run_tasks cfg now m order n (ks' ++ ks) h
  end.

(** ** The system: hub, client, goroutines *)
(** [th_reading]: the loop has found its context live and is in [XRead]. *)
Record Thread := mkThread { th_tasks : list Task; th_loop : option (nat * string); th_reading : bool }.
Record System := mkSystem {
  y_hub : Hub; y_mem : Memory; y_threads : list Thread;
  y_log : list (string * Entry);       (* every entry ever added, with its stream *)
}.
Definition spawn (ks : list Task) : Thread := mkThread ks None false.
Definition boot : System := mkSystem NewHub NewMemory [] [].

Inductive hstep (cfg : HubConfig) : System -> System -> Prop :=
| y_publish now tenant to all typ data module_ h m ths log r m' :
    PublishID now (hc_MaxLen cfg) tenant to all typ data module_ m = (r, m') ->
    hstep cfg (mkSystem h m ths log)
      (mkSystem h m' ths (log ++ (if is_ok r then (fun e => (Key tenant, e)) <$> option_list (newest (Key tenant) m')
                                  else [])))
| y_trim key id h m ths log r m' :
    XTrimMinID key id m = (r, m') -> hstep cfg (mkSystem h m ths log) (mkSystem h m' ths log)
| y_outage e h m ths log : hstep cfg (mkSystem h m ths log) (mkSystem h (SetErr e m) ths log)
| y_subscribe tenant user lastID h m ths log r h' loop :
    Subscribe_locked cfg tenant user m h = (r, h', loop) ->
    hstep cfg (mkSystem h m ths log)
      (mkSystem h' m
         (ths ++ [mkThread [] loop false]
              ++ [spawn (match r with Ok s => if lastID =s "" then [] else [Replay s lastID] | Err _ => [] end)])
         log)
| y_check i t last ts h m ths log :
    ths !! i = Some (mkThread [] (Some (t, last)) false) -> h_tsubs h !! t = Some ts ->
    ts_cancelled ts = false -> h_closed h = false ->
    hstep cfg (mkSystem h m ths log) (mkSystem h m (<[i := mkThread [] (Some (t, last)) true]> ths) log)
| y_retry i loop h m ths log :       (* the read failed *)
    ths !! i = Some (mkThread [] loop true) ->
    hstep cfg (mkSystem h m ths log) (mkSystem h m (<[i := mkThread [] loop false]> ths) log)
| y_read i t last ts es h m ths log :
    ths !! i = Some (mkThread [] (Some (t, last)) true) -> h_tsubs h !! t = Some ts -> XRead (Key (ts_tenant ts)) last 100 m = Ok es ->
    hstep cfg (mkSystem h m ths log)
      (mkSystem h m (<[i := mkThread (Dispatch t <$> es)
                              (Some (t, match list.last es with Some e => e_ID e | None => last end)) false]> ths) log)
| y_run i now order k ks loop h m ths log h' ks' :
    ths !! i = Some (mkThread (k :: ks) loop false) -> (forall l, order l ≡ₚ l) ->
    do_task cfg now m order k h = (h', ks') ->
    hstep cfg (mkSystem h m ths log) (mkSystem h' m (<[i := mkThread (ks' ++ ks) loop false]> ths) log)
| y_receive s x ev rest h m ths log :
    h_subs h !! s = Some x -> s_ch x = ev :: rest ->
    hstep cfg (mkSystem h m ths log)
      (mkSystem (set_sub s (x <| s_ch := rest |> <| s_seen := s_seen x ++ [ev] |>) h) m ths log)
| y_leave s x h m ths log :
    h_subs h !! s = Some x ->
    hstep cfg (mkSystem h m ths log) (mkSystem h m (ths ++ [spawn [CloseSub s]]) log)
| y_close subs h m ths log :
    subs ≡ₚ all_conns h ->
    hstep cfg (mkSystem h m ths log)
      (mkSystem (h <| h_closed := true |>) m (ths ++ [spawn (CloseSub <$> subs)]) log).
(** A panic ends the process. *)
Definition sys_step (cfg : HubConfig) (a b : System) : Prop :=
  h_panicked (y_hub a) = false /\ hstep cfg a b.

(** ** Subscriptions are isolated *)

(** An event the subscription may get: one of the hub's own, or one that was
    published to its tenant for its user. *)
Definition meant_for (log : list (string * Entry)) (tenant user : string) (ev : SEvent) : Prop :=
  ev_ID ev = "" \/ exists e, (Key tenant, e) ∈ log /\ event_of e = ev /\ targets (field e "to") user = true.
Definition task_ok (h : Hub) (log : list (string * Entry)) (k : Task) : Prop :=
  match k with
  | Dispatch t e => exists ts, h_tsubs h !! t = Some ts /\ (Key (ts_tenant ts), e) ∈ log
  | Push s ev _ | Send s ev _ =>
    exists x, h_subs h !! s = Some x /\ meant_for log (s_tenant x) (s_user x) ev
  | Replay s _ | CloseSub s | CloseChan s => is_Some (h_subs h !! s)
  end.
(** The hub only grows, and nothing changes whose it is. *)
Record hub_le (h h' : Hub) : Prop := {
  le_subs s x : h_subs h !! s = Some x ->
    exists x', h_subs h' !! s = Some x' /\ s_tenant x' = s_tenant x /\ s_user x' = s_user x;
  le_tsubs t ts : h_tsubs h !! t = Some ts ->
    exists ts', h_tsubs h' !! t = Some ts' /\ ts_tenant ts' = ts_tenant ts;
}.
Lemma hub_le_refl h : hub_le h h.
Proof. split; eauto. Qed.
Lemma task_ok_mono h h' log log' k :
  hub_le h h' -> log ⊆ log' -> task_ok h log k -> task_ok h' log' k.
Proof.
  intros [Hs Ht] Hlog. destruct k; simpl.
  - intros [x Hx]. apply Hs in Hx as (x' & Hx' & _). by exists x'.
  - intros (ts & Hts & He). apply Ht in Hts as (ts' & Hts' & E). exists ts'. rewrite E. auto.
  - intros (x & Hx & He). apply Hs in Hx as (x' & Hx' & E1 & E2). exists x'. rewrite E1, E2.
    split; [done|]. destruct He as [He|(e & ? & ?)]; [by left|right; eauto].
  - intros (x & Hx & He). apply Hs in Hx as (x' & Hx' & E1 & E2). exists x'. rewrite E1, E2.
    split; [done|]. destruct He as [He|(e & ? & ?)]; [by left|right; eauto].
  - intros [x Hx]. apply Hs in Hx as (x' & Hx' & _). by exists x'.
  - intros [x Hx]. apply Hs in Hx as (x' & Hx' & _). by exists x'.
Qed.
Lemma hub_le_sub s x x' h :
  h_subs h !! s = Some x -> s_tenant x' = s_tenant x -> s_user x' = s_user x -> hub_le h (set_sub s x' h).
Proof.
  intros Hx H1 H2. split; simpl; [|eauto]. intros s' y Hy. rewrite lookup_insert. case_decide; [|eauto].
  subst. simplify_eq. eauto.
Qed.
Lemma hub_le_tsub t ts ts' h :
  h_tsubs h !! t = Some ts -> ts_tenant ts' = ts_tenant ts -> hub_le h (set_tsub t ts' h).
Proof.
  intros Hx H1. split; simpl; [eauto|]. intros s' y Hy. rewrite lookup_insert. case_decide; [|eauto].
  subst. simplify_eq. eauto.
Qed.
Lemma hub_le_trans a b c : hub_le a b -> hub_le b c -> hub_le a c.
Proof.
  intros [S1 T1] [S2 T2]. split.
  - intros s x (y & Hy & E1 & E2)%S1. apply S2 in Hy as (z & Hz & E3 & E4). exists z. by rewrite E3, E4.
  - intros t x (y & Hy & E1)%T1. apply T2 in Hy as (z & Hz & E3). exists z. by rewrite E3.
Qed.

(** What every subscription, tenant record and stream satisfies. *)
Record hub_ok (h : Hub) (m : Memory) (log : list (string * Entry)) : Prop := {
  ok_queued s x : h_subs h !! s = Some x ->
    Forall (meant_for log (s_tenant x) (s_user x)) (s_ch x ++ s_seen x);
  ok_streams key e : e ∈ entries key m -> (key, e) ∈ log;
  ok_conns t ts s : h_tsubs h !! t = Some ts -> s ∈ ts_conns ts ->
    exists x, h_subs h !! s = Some x /\ s_tenant x = ts_tenant ts;
  ok_tenants tenant t : h_tenants h !! tenant = Some t ->
    exists ts, h_tsubs h !! t = Some ts /\ ts_tenant ts = tenant;
  ok_fresh n : is_Some (h_subs h !! n) \/ is_Some (h_tsubs h !! n) -> (n < h_next h)%nat;
}.
Definition tasks_ok (h : Hub) (log : list (string * Entry)) (th : Thread) : Prop :=
  Forall (task_ok h log) (th_tasks th).
Definition iso (y : System) : Prop :=
  hub_ok (y_hub y) (y_mem y) (y_log y) /\ Forall (tasks_ok (y_hub y) (y_log y)) (y_threads y).

Section isolation.
Context (cfg : HubConfig).

Lemma hub_ok_sub h m log s x x' :
  hub_ok h m log -> h_subs h !! s = Some x -> s_tenant x' = s_tenant x -> s_user x' = s_user x ->
  Forall (meant_for log (s_tenant x) (s_user x)) (s_ch x' ++ s_seen x') -> hub_ok (set_sub s x' h) m log.
Proof.
  intros [Hq Hst Hc Ht Hf] Hx E1 E2 Hev. split; simpl.
  - intros n y. rewrite lookup_insert. case_decide; [|eauto]. intros [= <-]. by rewrite E1, E2.
  - done.
  - intros t ts n Hts Hn. destruct (Hc t ts n Hts Hn) as (y & Hy & E). rewrite lookup_insert.
    case_decide; [|eauto]. subst. simplify_eq. exists x'. by rewrite E1.
  - done.
  - intros n Hn. apply Hf. rewrite lookup_insert in Hn. case_decide; [subst; left; eauto|done].
Qed.
Lemma hub_ok_tsub h m log t ts ts' :
  hub_ok h m log -> h_tsubs h !! t = Some ts -> ts_tenant ts' = ts_tenant ts ->
  (forall s, s ∈ ts_conns ts' -> exists x, h_subs h !! s = Some x /\ s_tenant x = ts_tenant ts) ->
  hub_ok (set_tsub t ts' h) m log.
Proof.
  intros [Hq Hst Hc Ht Hf] Hts E Hn. split; simpl.
  - done.
  - done.
  - intros t' y s. rewrite lookup_insert. case_decide; [|eauto]. intros [= <-]. rewrite E. auto.
  - intros tenant t' H'. apply Ht in H' as (y & Hy & <-). rewrite lookup_insert. case_decide; [|eauto].
    subst. simplify_eq. eauto.
  - intros n Hn'. apply Hf. rewrite lookup_insert in Hn'. case_decide; [subst; right; eauto|done].
Qed.
Lemma hub_ok_tenants h m log tn :
  hub_ok h m log -> tn ⊆ h_tenants h -> hub_ok (h <| h_tenants := tn |>) m log.
Proof.
  intros [Hq Hst Hc Ht Hf] Hsub. split; simpl; try done. intros tenant t H'. eapply Ht, lookup_weaken; eauto.
Qed.
Lemma hub_ok_flags h m log c p :
  hub_ok h m log -> hub_ok (mkHub (h_tenants h) (h_tsubs h) (h_subs h) (h_next h) c p) m log.
Proof. by intros []. Qed.

Lemma detach_ok h m log s x :
  hub_ok h m log -> h_subs h !! s = Some x -> hub_ok (detach s x h) m log /\ hub_le h (detach s x h).
Proof.
  intros Hok Hx. unfold detach.
  set (h1 := set_sub s _ h).
  assert (Hok1 : hub_ok h1 m log) by (apply (hub_ok_sub h m log s x _ Hok Hx); [done|done|exact (ok_queued _ _ _ Hok s x Hx)]).
  assert (Hle1 : hub_le h h1) by (by eapply hub_le_sub).
  clearbody h1. destruct (h_tenants h1 !! s_tenant x) as [t|]; [|done].
  destruct (h_tsubs h1 !! t) as [ts|] eqn:Hts; [|done].
  assert (Hsub : forall n, n ∈ ts_conns ts ∖ {[s]} -> exists x, h_subs h1 !! n = Some x /\ s_tenant x = ts_tenant ts).
  { intros n Hn. eapply ok_conns; [done..|set_solver]. }
  case_decide.
  - split.
    + eapply hub_ok_tsub; [|done|done|done]. apply hub_ok_tenants; [done|]. apply delete_subseteq.
    + eapply hub_le_trans; [done|]. eapply hub_le_trans; [|by eapply hub_le_tsub]. by split; eauto.
  - split; [by eapply hub_ok_tsub|]. eapply hub_le_trans; [done|]. by eapply hub_le_tsub.
Qed.

Lemma after_elem key a n m e : e ∈ after key a n m -> e ∈ entries key m.
Proof.
  unfold after. generalize (entries key m). intros l.
  enough (Hg : forall out, e ∈ after_from a n l out -> e ∈ out \/ e ∈ l).
  { intros He. apply Hg in He as [He|He]; [by apply elem_of_nil in He|done]. }
  induction l as [|x l IH]; intros out; simpl; [tauto|].
  destruct (_ || Less _ _); [destruct (_ && _)|]; intros He; try apply IH in He;
    rewrite ?elem_of_app, ?list_elem_of_singleton, ?elem_of_cons in *; tauto.
Qed.

(** One step of a goroutine. *)
Lemma do_task_ok now m order k h h' ks log :
  hub_ok h m log -> task_ok h log k -> (forall l, order l ≡ₚ l) -> do_task cfg now m order k h = (h', ks) ->
  hub_ok h' m log /\ hub_le h h' /\ Forall (task_ok h' log) ks.
Proof.
  intros Hok Hk Hord Hd. pose proof (hub_le_refl h) as Hle0. destruct k as [s id|t e|s ev b|s ev b|s|s]; simpl in *.
  - destruct Hk as [x Hx]. rewrite Hx in Hd. injection Hd as <- <-. split_and!; [done|done|].
    apply Forall_fmap, Forall_forall. intros ev Hev. simpl. exists x. split; [done|].
    unfold replay_events in Hev. destruct (ParseID id) as [[ms sq] ok]. destruct (_ || _).
    { apply list_elem_of_singleton in Hev as ->. by left. }
    unfold XRange, client_read in Hev. destruct (mm_Err m).
    { apply list_elem_of_singleton in Hev as ->. by left. }
    apply list_elem_of_fmap in Hev as (e & -> & He). right. exists e.
    rewrite list_elem_of_In, filter_In, <- list_elem_of_In in He. destruct He as [He Ht].
    split_and!; [|done|done]. eapply ok_streams, after_elem; [done|exact He].
  - destruct Hk as (ts & Hts & He). rewrite Hts in Hd. injection Hd as <- <-. split_and!; [done|done|].
    apply Forall_fmap, Forall_forall. intros s Hs. rewrite Hord in Hs. simpl.
    unfold dispatch_subs in Hs. rewrite list_elem_of_In, filter_In, <- list_elem_of_In in Hs.
    destruct Hs as [Hs Ht]. apply elem_of_elements in Hs.
    destruct (ok_conns _ _ _ Hok t ts s Hts Hs) as (x & Hx & E). rewrite Hx in Ht. exists x.
    split; [done|]. right. exists e. rewrite E. done.
  - destruct Hk as (x & Hx & Hm). rewrite Hx in Hd. unfold push_check in Hd.
    assert (Hq : Forall (meant_for log (s_tenant x) (s_user x)) (s_ch x ++ s_seen x)) by by eapply ok_queued.
    destruct (_ || _); simpl in Hd; injection Hd as <- <-.
    + split_and!; [by eapply hub_ok_sub|by eapply hub_le_sub|done].
    + split_and!; [eapply hub_ok_sub; [done|done|by destruct (_ =s _)..|]|eapply hub_le_sub; [done|by destruct (_ =s _)..]|].
      * by destruct (_ =s _).
      * apply Forall_singleton. simpl. eexists. rewrite lookup_insert_eq. split; [done|].
        by destruct (_ =s _).
  - destruct Hk as (x & Hx & Hm). rewrite Hx in Hd. unfold send in Hd.
    assert (Hq : Forall (meant_for log (s_tenant x) (s_user x)) (s_ch x ++ s_seen x)) by by eapply ok_queued.
    destruct (s_ended x); [|destruct (_ <? _)%nat]; injection Hd as <- <-.
    + split_and!; [by apply hub_ok_flags|by split; eauto|done].
    + apply Forall_app in Hq as [Hq1 Hq2].
      split_and!; [eapply hub_ok_sub; [done..|]|by eapply hub_le_sub|done]. simpl.
      apply Forall_app. split; [|done]. apply Forall_app. split; [done|by apply Forall_singleton].
    + split_and!; [done|done|]. destruct b; [|done]. apply Forall_singleton. simpl. eauto.
  - destruct Hk as [x Hx]. rewrite Hx in Hd. destruct (s_once x); injection Hd as <- <-; [done|].
    destruct (detach_ok h m log s x Hok Hx) as [Hok' Hle]. split_and!; [done|done|].
    apply Forall_singleton. simpl. destruct (le_subs _ _ Hle s x Hx) as (x' & Hx' & _). eauto.
  - destruct Hk as [x Hx]. rewrite Hx in Hd. injection Hd as <- <-.
    split_and!; [|by eapply hub_le_sub|done].
    apply (hub_ok_sub h m log s x _ Hok Hx); [done|done|exact (ok_queued _ _ _ Hok s x Hx)].
Qed.
Lemma tasks_ok_mono h h' log log' ths :
  hub_le h h' -> log ⊆ log' -> Forall (tasks_ok h log) ths -> Forall (tasks_ok h' log') ths.
Proof.
  intros Hh Hl Hths. eapply Forall_impl; [exact Hths|]. intros th Hth. eapply Forall_impl; [exact Hth|].
  intros k. by apply task_ok_mono.
Qed.
Lemma alloc_tsub_ok h m log tenant :
  hub_ok h m log ->
  let h' := h <| h_next := S (h_next h) |> <| h_tenants := <[tenant := h_next h]> (h_tenants h) |>
              <| h_tsubs := <[h_next h := mkTenantSub tenant ∅ ∅ false]> (h_tsubs h) |> in
  hub_ok h' m log /\ hub_le h h'.
Proof.
  intros [Hq Hst Hc Ht Hf]. assert (Hnew : h_tsubs h !! h_next h = None).
  { apply eq_None_not_Some. intros Hs. specialize (Hf (h_next h) (or_intror Hs)). lia. }
  split; [split|split]; simpl.
  - done.
  - done.
  - intros t ts s. rewrite lookup_insert. case_decide; [|eauto]. intros [= <-]. set_solver.
  - intros tn t. rewrite lookup_insert. case_decide as E; [|intros Hx; apply Ht in Hx as (ts & Hts & Htn)].
    + subst. intros [= <-]. rewrite lookup_insert_eq. eauto.
    + exists ts. rewrite lookup_insert_ne by congruence. done.
  - intros n Hn. rewrite lookup_insert in Hn. case_decide; [lia|]. apply Hf in Hn. lia.
  - eauto.
  - intros t ts Hts. exists ts. rewrite lookup_insert_ne by congruence. done.
Qed.
Lemma ensure_tenant_ok h m log tenant t h' start :
  hub_ok h m log -> ensure_tenant tenant h m = Ok (t, h', start) ->
  hub_ok h' m log /\ hub_le h h' /\ exists ts, h_tsubs h' !! t = Some ts /\ ts_tenant ts = tenant.
Proof.
  intros Hok. unfold ensure_tenant. destruct (h_tenants h !! tenant) as [t0|] eqn:E.
  - intros [= <- <- _]. split_and!; [done|apply hub_le_refl|]. by eapply ok_tenants.
  - destruct (XLast _ m); simpl; [|done]. intros [= <- <- _].
    destruct (alloc_tsub_ok h m log tenant Hok) as [H1 H2]. split_and!; [exact H1|exact H2|].
    simpl. rewrite lookup_insert_eq. eauto.
Qed.
Lemma Subscribe_ok h m log tenant user r h' loop :
  hub_ok h m log -> Subscribe_locked cfg tenant user m h = (r, h', loop) ->
  hub_ok h' m log /\ hub_le h h'
  /\ match r with
     | Ok s => h_subs h !! s = None
       /\ h_subs h' = <[s := mkSubscription tenant user [] "" false false false []]> (h_subs h)
     | Err _ => h_subs h' = h_subs h
     end.
Proof.
  intros Hok. unfold Subscribe_locked. pose proof (hub_le_refl h).
  destruct (h_closed h); [by intros [= <- <- _]|].
  destruct (ensure_tenant tenant h m) as [[[t h1] start]|e] eqn:He; [|by intros [= <- <- _]].
  assert (Hsubs : h_subs h1 = h_subs h).
  { unfold ensure_tenant in He. destruct (h_tenants h !! tenant); [by injection He as _ <- _|].
    destruct (XLast _ m); simpl in He; [|done]. by injection He as _ <- _. }
  apply (ensure_tenant_ok _ _ log) in He as (Hok1 & Hle1 & ts & Hts & Htn); [|done]. rewrite Hts.
  destruct (_ || _); [by intros [= <- <- _]|]. intros [= <- <- _].
  assert (Hnew : h_subs h1 !! h_next h1 = None).
  { apply eq_None_not_Some. intros Hs. pose proof (ok_fresh _ _ _ Hok1 (h_next h1) (or_introl Hs)). lia. }
  destruct Hok1 as [Hq Hst Hc Ht Hf]. split_and!.
  - split; simpl.
    + intros n y. rewrite lookup_insert. case_decide; [|eauto]. intros [= <-]. apply Forall_nil_2.
    + done.
    + intros t' ts' n. rewrite lookup_insert. case_decide; [|].
      * intros [= <-]. simpl. rewrite elem_of_union, elem_of_singleton. intros [->|Hn].
        -- eexists. rewrite lookup_insert_eq. by subst.
        -- destruct (Hc t ts n Hts Hn) as (x & Hx & E). exists x. rewrite lookup_insert_ne by congruence. done.
      * intros Hts' Hn. destruct (Hc t' ts' n Hts' Hn) as (x & Hx & E). exists x.
        rewrite lookup_insert_ne by congruence. done.
    + intros tn t' Hx. apply Ht in Hx as (y & Hy & <-). rewrite lookup_insert. case_decide; [|eauto].
      subst. simplify_eq. eauto.
    + intros n. rewrite !lookup_insert. repeat case_decide; intros Hn; try lia.
      * assert (n < h_next h1)%nat; [|lia]. apply Hf. right. subst. eauto.
      * apply Hf in Hn. lia.
  - eapply hub_le_trans; [exact Hle1|]. split; simpl.
    + intros n x Hx. exists x. rewrite lookup_insert_ne by congruence. done.
    + intros t' y Hy. rewrite lookup_insert. case_decide; [|eauto]. subst. simplify_eq. eauto.
  - by rewrite <- Hsubs.
  - simpl. by rewrite Hsubs.
Qed.
(** Publishing and trimming. *)
Lemma publish_ok h m log now tenant to all typ data module_ r m' :
  hub_ok h m log -> PublishID now (hc_MaxLen cfg) tenant to all typ data module_ m = (r, m') ->
  let log' := log ++ (if is_ok r then (fun e => (Key tenant, e)) <$> option_list (newest (Key tenant) m')
                      else []) in
  hub_ok h m' log'.
Proof.
  intros [Hq Hst Hc Ht Hf] Hp. simpl. set (new := if is_ok r then _ else _).
  assert (Hnew : forall key e, e ∈ entries key m' -> (key, e) ∈ log ++ new).
  { assert (Hsame : m' = m -> forall key e, e ∈ entries key m' -> (key, e) ∈ log ++ new)
      by (intros -> ? ? He; apply elem_of_app; left; by apply Hst).
    unfold PublishID in Hp. destruct (ValidateType _ _); [|apply Hsame; congruence].
    destruct (_ || _); [apply Hsame; congruence|]. destruct (payload_text _); [|apply Hsame; congruence].
    destruct (_ || _); [apply Hsame; congruence|]. destruct (target_of _ _); [|apply Hsame; congruence].
    destruct r as [id|e]; [|apply XAdd_err in Hp; auto].
    apply XAdd_entries in Hp as [[n Hn] Ho]. intros key e He. apply elem_of_app.
    destruct (decide (key = Key tenant)) as [->|Hk]; [|left; apply Hst; by rewrite <- Ho].
    subst new. unfold newest. simpl. rewrite Hn, last_snoc. rewrite Hn in He. simpl.
    apply elem_of_app in He as [He|He%list_elem_of_singleton]; [left|right; subst; set_solver].
    apply Hst. rewrite <- (take_drop n). by apply elem_of_app; right. }
  split; try done. intros s x Hx. eapply Forall_impl; [by eapply Hq|].
  intros ev [Hev|(e & He & ?)]; [by left|right]. exists e. split; [set_solver|done].
Qed.
Lemma hstep_iso y y' : hstep cfg y y' -> iso y -> iso y'.
Proof.
  intros Hs [Hok Hth]. unfold iso. destruct Hs as
    [??????????? r m' Hp|?????? r m' Hp|?????|? user lastID ???? r h' loop Hp|i t last ts ???? Hi Ht _ _|i loop ???? Hi
    |i t last ts es ???? Hi Ht Hr
    |i ?? k ks loop ???? h' ks' Hi Hord Hd|s x ev rest ???? Hx Hch|s x ???? Hx|subs ???? Hsub]; simpl in *.
  - split; [by eapply publish_ok|]. eapply tasks_ok_mono; [apply hub_le_refl| |exact Hth]. set_solver.
  - split; [|done]. unfold XTrimMinID, client_write in Hp. case_match; [by injection Hp as _ <-|].
    injection Hp as _ <-. destruct Hok as [? Hst ? ? ?]. split; try done. intros k e He. apply Hst.
    unfold entries in *. simpl in He. rewrite lookup_insert in He. case_decide; [subst|done]. simpl in He.
    rewrite list_elem_of_In, filter_In, <- list_elem_of_In in He. tauto.
  - split; [|done]. by destruct Hok.
  - apply (Subscribe_ok _ _ _ _ _ _ _ _ Hok) in Hp as (Hok' & Hle & Hnew). split; [done|].
    apply Forall_app. split; [by eapply tasks_ok_mono|]. repeat constructor.
    destruct r as [s|]; [|constructor]. destruct Hnew as (_ & Hx).
    destruct (lastID =s ""); constructor; [|done]. simpl. rewrite Hx, lookup_insert_eq. eauto.
  - split; [done|]. apply Forall_insert; [done|]. constructor.
  - split; [done|]. apply Forall_insert; [done|]. constructor.
  - split; [done|]. apply Forall_insert; [done|]. apply Forall_fmap, Forall_forall. intros e He. simpl.
    exists ts. split; [done|]. eapply ok_streams; [done|]. unfold XRead, client_read in Hr.
    case_match; [done|]. injection Hr as <-. by eapply after_elem.
  - pose proof (Forall_lookup_1 _ _ _ _ Hth Hi) as Hk. apply Forall_cons in Hk as [Hk Hks].
    destruct (do_task_ok _ _ _ _ _ _ _ _ Hok Hk Hord Hd) as (Hok' & Hle & Hks'). split; [done|].
    apply Forall_insert; [by eapply tasks_ok_mono|]. apply Forall_app. split; [done|].
    eapply Forall_impl; [exact Hks|]. intros k'. by apply task_ok_mono.
  - pose proof (ok_queued _ _ _ Hok s x Hx) as Hq. split.
    + eapply (hub_ok_sub _ _ _ _ _ _ Hok Hx); [done|done|]. simpl. rewrite Hch in Hq.
      rewrite app_assoc. apply Forall_app in Hq as [Hq1 Hq2]. apply Forall_cons in Hq1 as [? ?].
      rewrite <- app_assoc, !Forall_app, Forall_singleton. done.
    + eapply tasks_ok_mono; [by eapply hub_le_sub|done|done].
  - split; [done|]. apply Forall_app. split; [done|]. repeat constructor. simpl. eauto.
  - split; [by apply hub_ok_flags|]. apply Forall_app. split; [eapply tasks_ok_mono; [|done|done]; by split; eauto|].
    apply Forall_singleton. apply Forall_fmap, Forall_forall. intros s Hs. rewrite Hsub in Hs. simpl.
    unfold all_conns in Hs. rewrite list_elem_of_In, in_concat in Hs. destruct Hs as (l & Hl & Hs).
    apply list_elem_of_In in Hs. apply list_elem_of_In in Hl.
    apply list_elem_of_fmap in Hl as ([tn t] & -> & _). simpl in Hs.
    destruct (h_tsubs h !! t) as [ts|] eqn:Hts; [|by apply elem_of_nil in Hs].
    apply elem_of_elements in Hs. destruct (ok_conns _ _ _ Hok t ts s Hts Hs) as (x & Hx & _). eauto.
Qed.
End isolation.

(** ** No event is delivered twice *)

(** The events of a subscription that goroutines have accepted and not yet sent. *)
Definition sends (s : nat) (ks : list Task) : list SEvent :=
  omap (fun k => match k with
                 | Send s' ev _ => if decide (s' = s) then Some ev else None
                 | _ => None
                 end) ks.
Definition inflight (s : nat) (ths : list Thread) : list SEvent :=
  concat ((fun th => sends s (th_tasks th)) <$> ths).
Definition ids (l : list SEvent) : list string := List.filter (fun i => i <>s "") (ev_ID <$> l).
(** Everything accepted so far: received, queued and on its way. *)
Definition accepted (ths : list Thread) (s : nat) (x : Subscription) : list string :=
  ids (s_seen x ++ s_ch x ++ inflight s ths).
Definition once_each (last : string) (l : list string) : Prop :=
  NoDup l /\ Forall (fun i => Less last i = false) l /\ (last = "" -> l = []).

Lemma once_each_perm last l l' : l ≡ₚ l' -> once_each last l -> once_each last l'.
Proof.
  intros Hp (H1 & H2 & H3). split_and!; [by rewrite <- Hp|by rewrite <- Hp|].
  intros Hl. specialize (H3 Hl). subst l. by apply Permutation_nil in Hp.
Qed.
Lemma once_each_sub last l r l' : l ≡ₚ r ++ l' -> once_each last l -> once_each last l'.
Proof.
  intros Hp Ho. apply (once_each_perm _ _ _ Hp) in Ho as (H1 & H2 & H3). apply NoDup_app in H1 as (_ & _ & H1).
  apply Forall_app in H2 as [_ H2]. split_and!; [done|done|]. intros Hl. by apply app_eq_nil in H3 as [_ ?].
Qed.
Lemma once_each_new last l i :
  i <> "" -> last = "" \/ Less last i = true -> once_each last l -> once_each i (i :: l).
Proof.
  intros Hi Hlt (H1 & H2 & H3). destruct Hlt as [Hl|Hlt].
  { rewrite (H3 Hl). split_and!; [by apply NoDup_singleton|apply Forall_singleton, Less_irrefl|done]. }
  split_and!; [|constructor; [apply Less_irrefl|]|done].
  - constructor; [|done]. intros Hin. eapply Forall_forall in H2; [|done]. congruence.
  - eapply Forall_impl; [exact H2|]. intros j Hj. simpl in Hj. destruct (Less i j) eqn:E; [|done].
    by rewrite (Less_trans _ _ _ Hlt E) in Hj.
Qed.
Lemma ids_app l l' : ids (l ++ l') = ids l ++ ids l'.
Proof. unfold ids. by rewrite fmap_app, List.filter_app. Qed.
#[export] Instance ids_perm : Proper (Permutation ==> Permutation) ids.
Proof.
  intros l l' Hp. unfold ids. apply (fmap_Permutation ev_ID) in Hp.
  induction Hp; simpl; repeat case_match; try done.
  - by constructor.
  - by constructor.
  - etrans; eauto.
Qed.
Lemma sends_app s ks ks' : sends s (ks ++ ks') = sends s ks ++ sends s ks'.
Proof. apply omap_app. Qed.
Lemma sends_none s (ks : list Task) :
  (forall k, k ∈ ks -> match k with Send s' _ _ => s' <> s | _ => True end) -> sends s ks = [].
Proof.
  induction ks as [|k ks IH]; intros Hk; [done|]. simpl. rewrite IH by (intros; apply Hk; set_solver).
  specialize (Hk k ltac:(set_solver)). destruct k; try done. by case_decide.
Qed.
Lemma inflight_app s ths ths' : inflight s (ths ++ ths') = inflight s ths ++ inflight s ths'.
Proof. unfold inflight. by rewrite fmap_app, concat_app. Qed.
Lemma inflight_perm s ths ths' : ths ≡ₚ ths' -> inflight s ths ≡ₚ inflight s ths'.
Proof.
  unfold inflight. induction 1; simpl; [done|by apply Permutation_app_head| |by etrans].
  rewrite !app_assoc. apply Permutation_app_tail, Permutation_app_comm.
Qed.
(** One goroutine apart from the others. *)
Lemma delete_set {A} (i : nat) (x : A) (l : list A) : delete i (<[i := x]> l) = delete i l.
Proof. revert i. induction l as [|y l IH]; intros [|i]; simpl; try done. f_equal. apply IH. Qed.
Lemma inflight_at s ths i th :
  ths !! i = Some th -> inflight s ths ≡ₚ sends s (th_tasks th) ++ inflight s (delete i ths).
Proof. intros Hi. rewrite (inflight_perm s _ _ (delete_Permutation _ _ _ Hi)). done. Qed.
Lemma inflight_set s ths i th th' :
  ths !! i = Some th -> inflight s (<[i := th']> ths) ≡ₚ sends s (th_tasks th') ++ inflight s (delete i ths).
Proof.
  intros Hi. rewrite (inflight_at s _ i th') by (apply list_lookup_insert_eq; by eapply lookup_lt_Some).
  by rewrite delete_set.
Qed.

Section once.
Context (cfg : HubConfig).
Definition uniq_events (y : System) : Prop :=
  forall s x, h_subs (y_hub y) !! s = Some x -> once_each (s_last x) (accepted (y_threads y) s x).

Lemma detach_subs s x h n :
  h_subs (detach s x h) !! n
  = if decide (n = s) then Some (x <| s_closed := true |> <| s_once := true |>) else h_subs h !! n.
Proof.
  assert (He : h_subs (detach s x h) = <[s := x <| s_closed := true |> <| s_once := true |>]> (h_subs h))
    by (unfold detach; repeat case_match; done).
  rewrite He, lookup_insert. by repeat case_decide.
Qed.

(** How the accepted events of a subscription change in a step: some are lost, or
    one with a later identifier comes in. *)
Definition evolves (x : Subscription) (before : list SEvent) (x' : Subscription) (after : list SEvent) : Prop :=
  (s_last x' = s_last x
   /\ exists lost, ids (s_seen x ++ s_ch x ++ before) ≡ₚ lost ++ ids (s_seen x' ++ s_ch x' ++ after))
  \/ (s_last x' <> "" /\ (s_last x = "" \/ Less (s_last x) (s_last x') = true)
      /\ ids (s_seen x' ++ s_ch x' ++ after) ≡ₚ s_last x' :: ids (s_seen x ++ s_ch x ++ before)).
Lemma evolves_same x x' l :
  s_last x' = s_last x -> s_seen x' = s_seen x -> s_ch x' = s_ch x -> evolves x l x' l.
Proof. intros E1 E2 E3. left. split; [done|]. exists []. by rewrite E2, E3. Qed.
Lemma evolves_once x before x' after rest :
  evolves x before x' after -> once_each (s_last x) (ids (s_seen x ++ s_ch x ++ before ++ rest)) ->
  once_each (s_last x') (ids (s_seen x' ++ s_ch x' ++ after ++ rest)).
Proof.
  rewrite !app_assoc. rewrite !(ids_app _ rest). rewrite <- !app_assoc. intros [[E (lost & Hl)]|(Hne & Hlt & Hp)].
  - rewrite E. apply (once_each_sub _ _ lost). by rewrite Hl, <- app_assoc.
  - intros Ho. eapply once_each_perm; [|by eapply once_each_new]. by rewrite Hp.
Qed.
(** One step of a goroutine. *)
Lemma do_task_events now m order k h h' ks s x :
  do_task cfg now m order k h = (h', ks) -> h_subs h !! s = Some x ->
  exists x', h_subs h' !! s = Some x' /\ evolves x (sends s [k]) x' (sends s ks).
Proof.
  intros Hd Hx. destruct k as [s0 id|t e|s0 ev b|s0 ev b|s0|s0]; simpl in Hd.
  - exists x. destruct (h_subs h !! s0); injection Hd as <- <-; (split; [done|]); [|by apply evolves_same].
    rewrite (sends_none s (_ <$> _)); [by apply evolves_same|].
    intros k Hk. by apply list_elem_of_fmap in Hk as (a & -> & _).
  - exists x. destruct (h_tsubs h !! t); injection Hd as <- <-; (split; [done|]); [|by apply evolves_same].
    rewrite (sends_none s (_ <$> _)); [by apply evolves_same|].
    intros k Hk. by apply list_elem_of_fmap in Hk as (a & -> & _).
  - destruct (decide (s0 = s)) as [->|Hne].
    + rewrite Hx in Hd. unfold push_check in Hd. destruct (_ || _) eqn:Ec; simpl in Hd; injection Hd as <- <-;
        simpl; rewrite lookup_insert_eq; (eexists; split; [done|]); [by apply evolves_same|].
      bools. rewrite decide_True by done. destruct (ev_ID ev =s "") eqn:Ei; bools; simpl.
      * left. split; [done|]. exists []. simpl. rewrite !app_assoc, (ids_app _ [ev]), app_nil_r.
        unfold ids at 3. simpl. rewrite Ei. by rewrite app_nil_r.
      * right. simpl. split; [done|]. split.
        { destruct (s_last x =s "") eqn:El; bools; [by left|right]. simpl in *.
          destruct (Less _ _) eqn:E; [done|]. naive_solver. }
        rewrite app_nil_r, !app_assoc, (ids_app _ [ev]). unfold ids at 2. simpl.
        rewrite (proj2 (str_eqb_neq _ _) Ei). simpl. by rewrite Permutation_app_comm.
    + destruct (h_subs h !! s0) as [x0|]; [destruct (push_check ev x0) as [x1 go]|]; injection Hd as <- <-;
        exists x; simpl; rewrite ?lookup_insert_ne by done; (split; [done|]); [|by apply evolves_same].
      destruct go; simpl; rewrite ?decide_False by done; by apply evolves_same.
  - destruct (decide (s0 = s)) as [->|Hne]; simpl sends.
    + rewrite Hx in Hd. rewrite decide_True by done. unfold send in Hd.
      assert (Hlose : evolves x [ev] x []).
      { left. split; [done|]. exists (ids [ev]). rewrite !app_assoc, (ids_app _ [ev]), app_nil_r.
        by rewrite Permutation_app_comm. }
      destruct (s_ended x); [|destruct (_ <? _)%nat]; injection Hd as <- <-.
      * exists x. done.
      * eexists. simpl. rewrite lookup_insert_eq. split; [done|]. left. split; [done|]. exists []. simpl.
        by rewrite !app_assoc, app_nil_r.
      * exists x. split; [done|]. by destruct b.
    + rewrite decide_False by done. exists x.
      destruct (h_subs h !! s0) as [x0|]; [destruct (send ev x0)|]; injection Hd as <- <-; simpl;
        rewrite ?lookup_insert_ne by done; (split; [done|]); try by apply evolves_same.
      destruct b; by apply evolves_same.
  - destruct (h_subs h !! s0) as [x0|] eqn:E0; [destruct (s_once x0)|]; injection Hd as <- <-;
      [by exists x; split; [|apply evolves_same]| |by exists x; split; [|apply evolves_same]].
    rewrite detach_subs. case_decide; [subst; simplify_eq; eexists; split; [done|by apply evolves_same]|].
    exists x. split; [done|by apply evolves_same].
  - destruct (h_subs h !! s0) as [x0|] eqn:E0; injection Hd as <- <-; [|by exists x; split; [|apply evolves_same]].
    simpl. rewrite lookup_insert. case_decide; [subst; simplify_eq; eexists; split; [done|by apply evolves_same]|].
    exists x. split; [done|by apply evolves_same].
Qed.
(** A goroutine makes no subscriptions. *)
Lemma do_task_subs now m order k h h' ks s :
  do_task cfg now m order k h = (h', ks) -> h_subs h !! s = None -> h_subs h' !! s = None.
Proof.
  intros Hd Hs. destruct k as [s0 id|t e|s0 ev b|s0 ev b|s0|s0]; simpl in Hd.
  - destruct (h_subs h !! s0); by injection Hd as <- _.
  - destruct (h_tsubs h !! t); by injection Hd as <- _.
  - destruct (h_subs h !! s0) as [x|] eqn:E; [destruct (push_check ev x)|]; injection Hd as <- _; [|done].
    simpl. rewrite lookup_insert_ne by congruence. done.
  - destruct (h_subs h !! s0) as [x|] eqn:E; [destruct (send ev x)|]; injection Hd as <- _; try done.
    simpl. rewrite lookup_insert_ne by congruence. done.
  - destruct (h_subs h !! s0) as [x|] eqn:E; [destruct (s_once x)|]; injection Hd as <- _; try done.
    rewrite detach_subs. case_decide; [congruence|done].
  - destruct (h_subs h !! s0) as [x|] eqn:E; injection Hd as <- _; [|done].
    simpl. rewrite lookup_insert_ne by congruence. done.
Qed.
(** New goroutines that have nothing to send change nothing. *)
Lemma accepted_spawn ths new s x :
  (forall th, th ∈ new -> sends s (th_tasks th) = []) -> accepted (ths ++ new) s x = accepted ths s x.
Proof.
  intros Hn. unfold accepted. rewrite inflight_app.
  replace (inflight s new) with (@nil SEvent); [by rewrite app_nil_r|].
  unfold inflight. induction new as [|th new IH]; [done|]. simpl. rewrite (Hn th) by set_solver.
  apply IH. intros; apply Hn; set_solver.
Qed.
(** Nothing is on its way to a subscription that does not exist. *)
Lemma inflight_fresh y s : iso y -> h_subs (y_hub y) !! s = None -> inflight s (y_threads y) = [].
Proof.
  intros [_ Hth] Hs. induction Hth as [|th ths Ht _ IH]; [done|].
  change (sends s (th_tasks th) ++ inflight s ths = []). rewrite IH, app_nil_r.
  apply sends_none. intros k Hk. unfold tasks_ok in Ht. eapply Forall_forall in Ht; [|done].
  destruct k; try done. destruct Ht as (x & Hx & _). congruence.
Qed.
Lemma hstep_uniq y y' : hstep cfg y y' -> iso y -> uniq_events y -> uniq_events y'.
Proof.
  intros Hs Hiso Hu. pose proof Hiso as [Hok Hth]. unfold uniq_events in *. destruct Hs as
    [??????????? r m' Hp|?????? r m' Hp|?????|? user lastID ???? r h' loop Hp|i t last ts ???? Hi Ht _ _|i loop ???? Hi
    |i t last ts es ???? Hi Ht Hr
    |i ?? k ks loop ???? h' ks' Hi Hord Hd|s0 x0 ev rest ???? Hx0 Hch|s0 x0 ???? Hx0|subs ???? Hsub]; simpl in *;
    try done.
  - intros s x Hx. apply (Subscribe_ok cfg _ _ _ _ _ _ _ _ Hok) in Hp as (_ & _ & Hnew).
    rewrite accepted_spawn.
    2: { intros th Hin. apply elem_of_cons in Hin as [->|Hin]; [done|].
         apply list_elem_of_singleton in Hin as ->. by destruct r; [destruct (_ =s _)|]. }
    destruct r as [s1|e]; [|rewrite Hnew in Hx; by apply Hu]. destruct Hnew as [Hnone Hnew].
    rewrite Hnew, lookup_insert in Hx. case_decide; [subst|by apply Hu]. injection Hx as <-.
    unfold accepted. simpl. pose proof (inflight_fresh _ _ Hiso Hnone) as Hin. simpl in Hin. rewrite Hin.
    split_and!; [constructor|constructor|done].
  - intros s x Hx. specialize (Hu s x Hx). eapply once_each_perm; [|exact Hu]. unfold accepted.
    by rewrite (inflight_set _ _ _ _ _ Hi), (inflight_at _ _ _ _ Hi).
  - intros s x Hx. specialize (Hu s x Hx). eapply once_each_perm; [|exact Hu]. unfold accepted.
    by rewrite (inflight_set _ _ _ _ _ Hi), (inflight_at _ _ _ _ Hi).
  - intros s x Hx. specialize (Hu s x Hx). eapply once_each_perm; [|exact Hu]. unfold accepted.
    rewrite (inflight_set _ _ _ _ _ Hi), (inflight_at _ _ _ _ Hi). simpl.
    by rewrite (sends_none s (_ <$> _)); [|intros k Hk; by apply list_elem_of_fmap in Hk as (a & -> & _)].
  - intros s x' Hx'. destruct (h_subs h !! s) as [x|] eqn:Hx.
    + destruct (do_task_events _ _ _ _ _ _ _ s x Hd Hx) as (x1 & Hx1 & Hev).
      rewrite Hx1 in Hx'. injection Hx' as ->. specialize (Hu s x Hx). unfold accepted in *.
      eapply once_each_perm; [|eapply (evolves_once _ _ _ _ (sends s ks ++ inflight s (delete i ths)) Hev)].
      * rewrite (inflight_set _ _ _ _ _ Hi). simpl. by rewrite sends_app, <- app_assoc.
      * eapply once_each_perm; [|exact Hu]. rewrite (inflight_at _ _ _ _ Hi). simpl th_tasks.
        change (k :: ks) with ([k] ++ ks). by rewrite sends_app, <- app_assoc.
    + exfalso. pose proof (do_task_subs _ _ _ _ _ _ _ s Hd Hx). congruence.
  - intros s x. rewrite lookup_insert. case_decide; [|by apply Hu]. subst. intros [= <-].
    specialize (Hu s x0 Hx0). eapply once_each_perm; [|exact Hu]. unfold accepted. simpl. rewrite Hch.
    by rewrite <- !app_assoc.
  - intros s x Hx. rewrite accepted_spawn by (intros th ->%list_elem_of_singleton; done). by apply Hu.
  - intros s x Hx. rewrite accepted_spawn; [by apply Hu|]. intros th ->%list_elem_of_singleton. simpl.
    apply sends_none. intros k Hk. by apply list_elem_of_fmap in Hk as (a & -> & _).
Qed.
End once.

(** C23. However subscribers, loops, closers and publishers interleave, a stream
    delivers to its reader only events that were published to its tenant and meant
    for its user (or the hub's own notices), and no event twice. *)
Theorem streams_isolated cfg y s x :
  rtc (sys_step cfg) boot y -> h_subs (y_hub y) !! s = Some x ->
  (forall ev, ev ∈ s_seen x ++ s_ch x -> meant_for (y_log y) (s_tenant x) (s_user x) ev)
  /\ NoDup (ids (s_seen x ++ s_ch x)).
Proof.
  intros Hr Hx. assert (Hinv : iso y /\ uniq_events y).
  { clear Hx. refine (rtc_ind_r (fun y => iso y /\ uniq_events y) boot _ _ y Hr).
    - split; [split|]; [split| |]; simpl; try (by intros); try (by constructor).
      + intros key e He. by apply elem_of_nil in He.
      + by intros n [[? ?]|[? ?]].
    - intros y1 y2 _ [_ Hs] [Hi Hu]. split; [by eapply hstep_iso|by eapply hstep_uniq]. }
  destruct Hinv as [[Hok _] Hu]. split.
  - intros ev Hev. eapply Forall_forall; [exact (ok_queued _ _ _ Hok s x Hx)|]. set_solver.
  - destruct (Hu s x Hx) as [Hn _]. unfold accepted in Hn. rewrite app_assoc, ids_app in Hn.
    by apply NoDup_app in Hn as [Hn _].
Qed.
