(* ===== verification/HubLimits.v ===== *)
(** The limits of the event hub, and two schedules in which it goes wrong
    (internal/stream/hub.go). *)

From S2P Require Import Prelude Rows GoJson GoUrl Csr Domains Stream Hub.

Definition user_of (h : Hub) (s : nat) : option string := s_user <$> h_subs h !! s.
Definition of_user (h : Hub) (u : string) (conns : gset nat) : gset nat :=
  filter (fun s => user_of h s = Some u) conns.
(** The books of the hub: a live tenant's record counts its open streams, and the
    open streams are exactly the members of live records. *)
Record books (cfg : HubConfig) (h : Hub) : Prop := {
  bk_live tenant t : h_tenants h !! tenant = Some t ->
    exists ts, h_tsubs h !! t = Some ts /\ ts_tenant ts = tenant
      /\ Z.of_nat (size (ts_conns ts)) <= hc_StreamsPerTenant cfg
      /\ (forall u, default 0 (ts_byUser ts !! u) = Z.of_nat (size (of_user h u (ts_conns ts))))
      /\ (forall u, default 0 (ts_byUser ts !! u) <= hc_StreamsPerUser cfg);
  bk_member t ts s : h_tsubs h !! t = Some ts -> s ∈ ts_conns ts ->
    exists x, h_subs h !! s = Some x /\ s_once x = false /\ s_tenant x = ts_tenant ts
      /\ h_tenants h !! ts_tenant ts = Some t;
  bk_open s x : h_subs h !! s = Some x -> s_once x = false ->
    exists t ts, h_tenants h !! s_tenant x = Some t /\ h_tsubs h !! t = Some ts /\ s ∈ ts_conns ts;
  bk_buffer s x : h_subs h !! s = Some x -> (length (s_ch x) <= connBuffer)%nat;
  bk_fresh n : is_Some (h_subs h !! n) \/ is_Some (h_tsubs h !! n) -> (n < h_next h)%nat;
}.

Section books.
Context (cfg : HubConfig).

Lemma of_user_ext h h' u conns :
  (forall s, s ∈ conns -> user_of h' s = user_of h s) -> of_user h' u conns = of_user h u conns.
Proof.
  intros He. apply set_eq. intros s. unfold of_user. rewrite !elem_of_filter.
  split; intros [Hu Hs]; (split; [|done]); by rewrite He in *.
Qed.
(** Changes to a subscription that the books do not record. *)
Lemma books_sub h s x x' :
  books cfg h -> h_subs h !! s = Some x -> s_tenant x' = s_tenant x -> s_user x' = s_user x ->
  s_once x' = s_once x -> (length (s_ch x') <= connBuffer)%nat -> books cfg (set_sub s x' h).
Proof.
  intros [Hl Hm Ho Hb Hf] Hx E1 E2 E3 Hlen. split; simpl.
  - intros tenant t Ht. apply Hl in Ht as (ts & Hts & Htn & Hsz & Hcnt & Hlim). exists ts.
    split_and!; try done. intros u. rewrite Hcnt. do 2 f_equal. symmetry. apply of_user_ext. intros n _.
    unfold user_of. simpl. rewrite lookup_insert. case_decide; [subst|done]. rewrite Hx. simpl. by rewrite E2.
  - intros t ts n Hts Hn. destruct (Hm t ts n Hts Hn) as (y & Hy & ? & ? & ?). rewrite lookup_insert.
    case_decide; [subst|eauto]. simplify_eq. exists x'. by rewrite E1, E3.
  - intros n y. rewrite lookup_insert. case_decide; [subst|apply Ho]. intros [= <-]. rewrite E1, E3. by apply Ho.
  - intros n y. rewrite lookup_insert. case_decide; [|apply Hb]. by intros [= <-].
  - intros n Hn. apply Hf. rewrite lookup_insert in Hn. case_decide; [subst; left; eauto|done].
Qed.
Lemma books_flags h c p : books cfg h -> books cfg (mkHub (h_tenants h) (h_tsubs h) (h_subs h) (h_next h) c p).
Proof. by intros []. Qed.

Lemma size_remove (X : gset nat) s : s ∈ X -> size X = S (size (X ∖ {[s]})).
Proof.
  intros Hs. rewrite (union_difference_L {[s]} X) at 1 by set_solver.
  rewrite size_union by set_solver. by rewrite size_singleton.
Qed.
Lemma of_user_remove h x x' s u conns :
  h_subs h !! s = Some x -> s_user x' = s_user x -> s ∈ conns ->
  Z.of_nat (size (of_user (set_sub s x' h) u (conns ∖ {[s]})))
  = Z.of_nat (size (of_user h u conns)) - (if decide (u = s_user x) then 1 else 0).
Proof.
  intros Hx E Hs.
  assert (Heq : of_user (set_sub s x' h) u (conns ∖ {[s]}) = of_user h u conns ∖ {[s]}).
  { rewrite (of_user_ext h) by (intros n Hn; unfold user_of; simpl; rewrite lookup_insert_ne by set_solver; done).
    apply set_eq. intros n. unfold of_user. rewrite !elem_of_filter, !elem_of_difference, elem_of_filter. tauto. }
  rewrite Heq. assert (Hin : s ∈ of_user h u conns <-> u = s_user x).
  { unfold of_user, user_of. rewrite elem_of_filter, Hx. simpl. naive_solver. }
  case_decide as Hu.
  - rewrite (size_remove (of_user h u conns) s) by tauto. lia.
  - replace (of_user h u conns ∖ {[s]}) with (of_user h u conns) by set_solver. lia.
Qed.

(** The counter of a user after one of its streams closed. *)
Definition byUser_after (ts : tenantSub) (u : string) : gmap string Z :=
  let n := default 0 (ts_byUser ts !! u) - 1 in
  if n <=? 0 then delete u (ts_byUser ts) else <[u := n]> (ts_byUser ts).
Definition gone (x : Subscription) : Subscription := x <| s_closed := true |> <| s_once := true |>.
Lemma byUser_after_counts h s x ts u :
  h_subs h !! s = Some x -> s ∈ ts_conns ts ->
  (forall v, default 0 (ts_byUser ts !! v) = Z.of_nat (size (of_user h v (ts_conns ts)))) ->
  default 0 (byUser_after ts (s_user x) !! u)
    = Z.of_nat (size (of_user (set_sub s (gone x) h) u (ts_conns ts ∖ {[s]})))
  /\ default 0 (byUser_after ts (s_user x) !! u) <= default 0 (ts_byUser ts !! u).
Proof.
  intros Hx Hin Hcnt. rewrite (of_user_remove h x) by done. rewrite <- Hcnt.
  pose proof (of_user_remove h x (gone x) s (s_user x) _ Hx eq_refl Hin) as Hpos.
  rewrite decide_True, <- Hcnt in Hpos by done. unfold byUser_after.
  destruct (_ <=? 0) eqn:E; bools; [rewrite lookup_delete|rewrite lookup_insert];
    repeat case_decide; subst; simpl; try congruence; lia.
Qed.
(** The records of other tenants do not notice. *)
Lemma books_elsewhere h s x tenant t' ts' :
  books cfg h -> h_subs h !! s = Some x -> h_tenants h !! tenant = Some t' -> tenant <> s_tenant x ->
  h_tsubs h !! t' = Some ts' ->
  (forall u, of_user (set_sub s (gone x) h) u (ts_conns ts') = of_user h u (ts_conns ts')) .
Proof.
  intros Hbk Hx Ht' Hne Hts' u. apply of_user_ext. intros n Hn. unfold user_of. simpl.
  rewrite lookup_insert_ne; [done|]. intros ->.
  destruct (bk_member _ _ Hbk _ _ _ Hts' Hn) as (y & Hy & _ & Hyt & _).
  destruct (bk_live _ _ Hbk _ _ Ht') as (ts & Hts & E & _). congruence.
Qed.

Section closing.
Context (h : Hub) (s t : nat) (x : Subscription) (ts : tenantSub).
Hypothesis Hbk : books cfg h.
Hypothesis Hx : h_subs h !! s = Some x.
Hypothesis Hop : s_once x = false.
Hypothesis Htn : h_tenants h !! s_tenant x = Some t.
Hypothesis Hts : h_tsubs h !! t = Some ts.
Hypothesis Hin : s ∈ ts_conns ts.
Let ts' : tenantSub := ts <| ts_conns := ts_conns ts ∖ {[s]} |> <| ts_byUser := byUser_after ts (s_user x) |>.

(** The last stream of a tenant takes the record with it. *)
Lemma close_last :
  ts_conns ts ∖ {[s]} = ∅ ->
  books cfg (set_tsub t (ts' <| ts_cancelled := true |>)
               ((set_sub s (gone x) h) <| h_tenants := delete (s_tenant x) (h_tenants h) |>)).
Proof using Hbk Hx Hop Htn Hts Hin.
  intros Hempty. pose proof Hbk as [Hl Hm Ho Hb Hf].
  assert (Hothers : forall n y, h_subs h !! n = Some y -> n <> s -> s_once y = false -> s_tenant y <> s_tenant x).
  { intros n y Hy Hn Hyo Hyt. destruct (Ho n y Hy Hyo) as (t' & u' & Ht' & Hu' & Hin').
    rewrite Hyt, Htn in Ht'. simplify_eq. set_solver. }
  split; simpl.
  - intros tenant t'. rewrite lookup_delete. case_decide; [done|]. intros Ht'.
    destruct (Hl _ _ Ht') as (u & Hu & E' & Hsz' & Hc' & Hlm'). exists u.
    destruct (Hl _ _ Htn) as (u0 & Hu0 & E0 & _). rewrite Hts in Hu0. injection Hu0 as <-.
    rewrite lookup_insert_ne by (intros ->; congruence). split_and!; try done.
    intros v. rewrite Hc'. do 2 f_equal. symmetry. by eapply books_elsewhere.
  - intros t' u n. rewrite lookup_insert. case_decide; [intros [= <-]; simpl; set_solver|]. intros Hu Hn.
    destruct (Hm _ _ _ Hu Hn) as (y & Hy & Hyo & Hyt & Hyl). assert (Hns : n <> s).
    { intros ->. assert (y = x) as -> by congruence. rewrite <- Hyt in Hyl. congruence. }
    exists y. rewrite lookup_insert_ne by done. split_and!; try done. rewrite lookup_delete_ne; [done|].
    intros He. by apply (Hothers n y Hy Hns Hyo); congruence.
  - intros n y. rewrite lookup_insert. case_decide; [by intros [= <-]|]. intros Hy Hyo.
    destruct (Ho n y Hy Hyo) as (t' & u & Ht' & Hu & Hn). exists t', u.
    assert (Hnt : s_tenant y <> s_tenant x) by (apply (Hothers n); congruence).
    rewrite lookup_delete_ne by done. rewrite lookup_insert_ne; [done|]. intros <-.
    destruct (Hl _ _ Htn) as (u0 & Hu0 & E0 & _). destruct (Hl _ _ Ht') as (u1 & Hu1 & E1 & _). congruence.
  - intros n y. rewrite lookup_insert. case_decide; [intros [= <-]; exact (Hb s x Hx)|apply Hb].
  - intros n. rewrite !lookup_insert. repeat case_decide; intros Hn; apply Hf; subst; eauto.
Qed.
(** Any other stream only leaves it. *)
Lemma close_other :
  ts_conns ts ∖ {[s]} <> ∅ -> books cfg (set_tsub t ts' (set_sub s (gone x) h)).
Proof using Hbk Hx Hop Htn Hts Hin.
  intros Hmore. pose proof Hbk as [Hl Hm Ho Hb Hf].
  destruct (Hl _ _ Htn) as (u & Hu & Etn & Hsz & Hcnt & Hlim). rewrite Hts in Hu. injection Hu as <-.
  split; simpl.
  - intros tenant t' Ht'. destruct (Hl _ _ Ht') as (u & Hu & E' & Hsz' & Hc' & Hlm').
    rewrite lookup_insert. case_decide; [subst t'|].
    + assert (u = ts) as -> by congruence. eexists. split; [done|]. simpl. pose proof (size_remove _ _ Hin).
      split_and!; try done; [lia|..]; intros v; destruct (byUser_after_counts h s x ts v Hx Hin Hcnt); [done|].
      specialize (Hlim v). lia.
    + exists u. split_and!; try done. intros v. rewrite Hc'. do 2 f_equal. symmetry.
      eapply books_elsewhere; [done..|congruence|done].
  - intros t' u n. rewrite lookup_insert. case_decide; [intros [= <-]; simpl; intros Hn; subst|intros Hu Hn].
    + destruct (Hm _ _ n Hts ltac:(set_solver)) as (y & Hy & ? & ? & ?). exists y.
      rewrite lookup_insert_ne by set_solver. done.
    + destruct (Hm _ _ _ Hu Hn) as (y & Hy & Hyo & Hyt & Hyl). exists y. rewrite lookup_insert_ne; [done|].
      intros ->. assert (y = x) as -> by congruence. rewrite <- Hyt in Hyl. congruence.
  - intros n y. rewrite lookup_insert. case_decide; [by intros [= <-]|]. intros Hy Hyo.
    destruct (Ho n y Hy Hyo) as (t' & u & Ht' & Hu & Hn). exists t'. rewrite lookup_insert.
    case_decide; [|eauto]. subst t'. assert (u = ts) as -> by congruence. eexists. split_and!; [done|done|].
    simpl. set_solver.
  - intros n y. rewrite lookup_insert. case_decide; [intros [= <-]; exact (Hb s x Hx)|apply Hb].
  - intros n. rewrite !lookup_insert. repeat case_decide; intros Hn; apply Hf; subst; eauto.
Qed.
(** Closing a stream takes it off the books. *)
Lemma detach_books : books cfg (detach s x h).
Proof using Hbk Hx Hop Htn Hts Hin.
  unfold detach. simpl. rewrite Htn, Hts. fold (gone x) (byUser_after ts (s_user x)).
  case_decide; [by apply close_last|by apply close_other].
Qed.
End closing.

Lemma do_task_books now m order k h h' ks :
  books cfg h -> do_task cfg now m order k h = (h', ks) -> books cfg h'.
Proof.
  intros Hbk Hd. destruct k as [s id|t e|s ev b|s ev b|s|s]; simpl in Hd.
  - destruct (h_subs h !! s); by injection Hd as <- _.
  - destruct (h_tsubs h !! t); by injection Hd as <- _.
  - destruct (h_subs h !! s) as [x|] eqn:Hx; [|by injection Hd as <- _]. pose proof (bk_buffer _ _ Hbk s x Hx).
    unfold push_check in Hd. destruct (_ || _); injection Hd as <- _; (eapply books_sub; [done|done|..]);
      first [done|by destruct (ev_ID ev =s "")].
  - destruct (h_subs h !! s) as [x|] eqn:Hx; [|by injection Hd as <- _]. unfold send in Hd.
    destruct (s_ended x); [|destruct (_ <? _)%nat eqn:Hlt]; injection Hd as <- _;
      [by apply books_flags| |done].
    apply Nat.ltb_lt in Hlt. eapply books_sub; [done..|]. simpl. rewrite length_app. simpl. lia.
  - destruct (h_subs h !! s) as [x|] eqn:Hx; [|by injection Hd as <- _].
    destruct (s_once x) eqn:Ho; injection Hd as <- _; [done|].
    destruct (bk_open _ _ Hbk s x Hx Ho) as (t & ts & Htn & Hts & Hin). by eapply detach_books.
  - destruct (h_subs h !! s) as [x|] eqn:Hx; injection Hd as <- _; [|done].
    eapply books_sub; [done..|]. exact (bk_buffer _ _ Hbk s x Hx).
Qed.

Lemma of_user_add h s x u conns :
  s ∉ conns ->
  Z.of_nat (size (of_user (set_sub s x h) u ({[s]} ∪ conns)))
  = Z.of_nat (size (of_user h u conns)) + (if decide (s_user x = u) then 1 else 0).
Proof.
  intros Hs. assert (Heq : of_user (set_sub s x h) u ({[s]} ∪ conns)
    = (if decide (s_user x = u) then {[s]} else ∅) ∪ of_user h u conns).
  { apply set_eq. intros n. unfold of_user. rewrite elem_of_filter, !elem_of_union, elem_of_filter, elem_of_singleton.
    unfold user_of. simpl. destruct (decide (n = s)) as [->|Hns].
    - rewrite lookup_insert_eq. simpl. case_decide as E; [subst; set_solver|].
      split; [intros [[= ?] _]; done|]. intros [?|[_ ?]]; set_solver.
    - rewrite lookup_insert_ne by done. case_decide; set_solver. }
  assert (Hdis : s ∉ of_user h u conns) by (unfold of_user; rewrite elem_of_filter; tauto).
  rewrite Heq. case_decide.
  - rewrite size_union, size_singleton by set_solver. lia.
  - rewrite union_empty_l_L. lia.
Qed.
(** Opening a stream in the record of its tenant. *)
Lemma open_books h t ts user :
  books cfg h -> h_tenants h !! ts_tenant ts = Some t -> h_tsubs h !! t = Some ts ->
  default 0 (ts_byUser ts !! user) < hc_StreamsPerUser cfg ->
  Z.of_nat (size (ts_conns ts)) < hc_StreamsPerTenant cfg ->
  let s := h_next h in
  books cfg (set_sub s (mkSubscription (ts_tenant ts) user [] "" false false false [])
    (set_tsub t (ts <| ts_conns := {[s]} ∪ ts_conns ts |>
                    <| ts_byUser := <[user := default 0 (ts_byUser ts !! user) + 1]> (ts_byUser ts) |>)
       (h <| h_next := S s |>))).
Proof.
  intros [Hl Hm Ho Hb Hf] Htn Hts Hu Hn s.
  assert (Hnew : h_subs h !! s = None).
  { apply eq_None_not_Some. intros Hs. specialize (Hf s (or_introl Hs)). subst s. lia. }
  assert (Hfresh : forall t' u, h_tsubs h !! t' = Some u -> s ∉ ts_conns u).
  { intros t' u Hu' Hin. destruct (Hm _ _ _ Hu' Hin) as (y & Hy & _). congruence. }
  split; simpl.
  - intros tenant t' Ht'. destruct (Hl _ _ Ht') as (u & Hu' & E & Hsz & Hcnt & Hlim).
    rewrite lookup_insert. case_decide; [subst t'|].
    + assert (u = ts) as -> by congruence. eexists. split; [done|]. simpl. split_and!; try done.
      * rewrite size_union, size_singleton by (specialize (Hfresh _ _ Hts); set_solver). lia.
      * intros v. rewrite lookup_insert.
        change (of_user (set_sub s ?y _) v) with (of_user (set_sub s y h) v).
        rewrite of_user_add by (by eapply Hfresh). simpl. rewrite <- Hcnt. case_decide; subst; simpl; lia.
      * intros v. rewrite lookup_insert. case_decide; subst; simpl; [lia|apply Hlim].
    + exists u. split_and!; try done. intros v. rewrite Hcnt. do 2 f_equal. symmetry. apply of_user_ext.
      intros n Hin. unfold user_of. simpl. rewrite lookup_insert_ne; [done|]. intros <-. by eapply Hfresh.
  - intros t' u n. rewrite lookup_insert. case_decide; [subst t'; intros [= <-]; simpl|].
    + rewrite elem_of_union, elem_of_singleton. intros [->|Hin].
      * eexists. rewrite lookup_insert_eq. done.
      * destruct (Hm _ _ _ Hts Hin) as (y & Hy & ? & ? & ?). exists y. rewrite lookup_insert_ne; [done|congruence].
    + intros Hu' Hin. destruct (Hm _ _ _ Hu' Hin) as (y & Hy & ? & ? & ?). exists y.
      rewrite lookup_insert_ne; [done|congruence].
  - intros n y. rewrite lookup_insert. case_decide; [subst n; intros [= <-] _; simpl|intros Hy Hyo].
    + exists t. rewrite lookup_insert_eq. eexists. split_and!; [done|done|]. simpl. set_solver.
    + destruct (Ho n y Hy Hyo) as (t' & u & Ht' & Hu' & Hin). exists t'. rewrite lookup_insert.
      case_decide; [subst t'|eauto]. assert (u = ts) as -> by congruence. eexists. split_and!; [done|done|].
      simpl. set_solver.
  - intros n y. rewrite lookup_insert. case_decide; [intros [= <-]; simpl; lia|apply Hb].
  - intros n. rewrite !lookup_insert. repeat case_decide; intros Hn'; subst s; try lia.
    + assert (t < h_next h)%nat by (apply Hf; eauto). lia.
    + apply Hf in Hn'. lia.
Qed.

Hypothesis positive : 0 < hc_StreamsPerUser cfg /\ 0 < hc_StreamsPerTenant cfg.
Lemma ensure_tenant_books h m tenant t h' start :
  books cfg h -> ensure_tenant tenant h m = Ok (t, h', start) ->
  books cfg h' /\ h_tenants h' !! tenant = Some t /\ exists ts, h_tsubs h' !! t = Some ts /\ ts_tenant ts = tenant.
Proof using positive.
  intros Hbk. unfold ensure_tenant. destruct (h_tenants h !! tenant) as [t0|] eqn:E.
  { intros [= <- <- _]. split_and!; [done|done|]. destruct (bk_live _ _ Hbk _ _ E) as (ts & ? & ? & _). eauto. }
  destruct (XLast _ m); simpl; [|done]. intros [= <- <- _]. destruct Hbk as [Hl Hm Ho Hb Hf].
  assert (Hnew : h_tsubs h !! h_next h = None).
  { apply eq_None_not_Some. intros Hs. specialize (Hf _ (or_intror Hs)). lia. }
  simpl. rewrite !lookup_insert_eq. split_and!; [|done|eauto]. split; simpl.
  - intros tn t'. rewrite lookup_insert. case_decide as Et; [intros [= <-]; subst|intros Ht'].
    + rewrite lookup_insert_eq. eexists. split_and!; [done|done|..].
      * change (size (ts_conns _)) with (size (∅ : gset nat)). rewrite size_empty. lia.
      * intros v. unfold of_user. change (ts_conns _) with (∅ : gset nat).
        rewrite filter_empty_L, size_empty; [done|apply _].
      * intros v. change (0 <= hc_StreamsPerUser cfg). lia.
    + destruct (Hl _ _ Ht') as (u & Hu & ?). exists u. rewrite lookup_insert_ne by congruence. done.
  - intros t' u n. rewrite lookup_insert. case_decide; [intros [= <-]; simpl; set_solver|]. intros Hu Hn.
    destruct (Hm _ _ _ Hu Hn) as (y & Hy & ? & ? & Hyl). exists y. rewrite lookup_insert_ne by congruence. done.
  - intros n y Hy Hyo. destruct (Ho n y Hy Hyo) as (t' & u & Ht' & Hu & Hn). exists t', u.
    rewrite !lookup_insert_ne by congruence. done.
  - apply Hb.
  - intros n. rewrite lookup_insert. case_decide; intros Hn; [lia|]. apply Hf in Hn. lia.
Qed.
Lemma Subscribe_books h m tenant user r h' loop :
  books cfg h -> Subscribe_locked cfg tenant user m h = (r, h', loop) -> books cfg h'.
Proof using positive.
  intros Hbk. unfold Subscribe_locked. destruct (h_closed h); [by intros [= _ <- _]|].
  destruct (ensure_tenant tenant h m) as [[[t h1] start]|e] eqn:He; [|by intros [= _ <- _]].
  apply ensure_tenant_books in He as (Hbk1 & Ht & ts & Hts & <-); [|done]. rewrite Hts.
  destruct (_ || _) eqn:El; [by intros [= _ <- _]|]. bools. intros [= _ <- _].
  apply (open_books h1 t ts user); done || lia.
Qed.
Lemma hstep_books y y' : hstep cfg y y' -> books cfg (y_hub y) -> books cfg (y_hub y').
Proof using positive.
  intros Hs Hbk. destruct Hs; simpl in *; try done.
  - by eapply Subscribe_books.
  - by eapply do_task_books.
  - eapply books_sub; [done|done|..]; try done. simpl.
    match goal with Hx : h_subs _ !! s = Some x, Hc : s_ch x = _ |- _ =>
      pose proof (bk_buffer _ _ Hbk s x Hx) as Hl; rewrite Hc in Hl; simpl in Hl end. lia.
  - by apply books_flags.
Qed.
End books.

(** The streams a user has open in a tenant. *)
Definition open_for (y : System) (tenant : string) (user : option string) (s : nat) : Prop :=
  exists x, h_subs (y_hub y) !! s = Some x /\ s_once x = false /\ s_tenant x = tenant
    /\ (forall u, user = Some u -> s_user x = u).

(** C24. The hub keeps its limits under every interleaving: a user never has more
    open streams than [StreamsPerUser], a tenant never more than
    [StreamsPerTenant] (5 and 2000 unless configured), and no stream buffers more
    than 32 events. *)
Theorem streams_bounded config y :
  let cfg := NewHub_config config in
  rtc (sys_step cfg) boot y ->
  (forall tenant l, NoDup l -> (forall s, s ∈ l -> open_for y tenant None s) ->
     Z.of_nat (length l) <= hc_StreamsPerTenant cfg)
  /\ (forall tenant u l, NoDup l -> (forall s, s ∈ l -> open_for y tenant (Some u) s) ->
     Z.of_nat (length l) <= hc_StreamsPerUser cfg)
  /\ (forall s x, h_subs (y_hub y) !! s = Some x -> (length (s_ch x) <= connBuffer)%nat).
Proof.
  intros cfg Hr. assert (Hpos : 0 < hc_StreamsPerUser cfg /\ 0 < hc_StreamsPerTenant cfg).
  { subst cfg. unfold NewHub_config, positive_or. simpl. split; case_match; bools; lia. }
  clearbody cfg.
  assert (Hbk : books cfg (y_hub y)).
  { refine (rtc_ind_r (fun y => books cfg (y_hub y)) boot _ _ y Hr).
    - split; simpl; try (by intros). by intros n [[? ?]|[? ?]].
    - intros y1 y2 _ [_ Hs]. by apply hstep_books. }
  assert (Hmem : forall tenant user l, NoDup l -> (forall s, s ∈ l -> open_for y tenant user s) -> l <> [] ->
    exists t ts, h_tenants (y_hub y) !! tenant = Some t /\ h_tsubs (y_hub y) !! t = Some ts
      /\ forall s, s ∈ l -> s ∈ ts_conns ts).
  { intros tenant user [|s0 l] _ Hl Hne; [done|]. destruct (Hl s0) as (x0 & Hx0 & Ho0 & Ht0 & _); [set_solver|].
    destruct (bk_open _ _ Hbk s0 x0 Hx0 Ho0) as (t & ts & Ht & Hts & _). exists t, ts. rewrite Ht0 in Ht.
    split_and!; [done|done|]. intros s Hs. destruct (Hl s Hs) as (x & Hx & Ho & Hxt & _).
    destruct (bk_open _ _ Hbk s x Hx Ho) as (t' & ts' & Ht' & Hts' & Hin). congruence. }
  assert (Hsize : forall (l : list nat) (X : gset nat), NoDup l -> (forall s, s ∈ l -> s ∈ X) ->
    Z.of_nat (length l) <= Z.of_nat (size X)).
  { intros l X Hnd Hl. rewrite <- (size_list_to_set (C := gset nat) l Hnd). apply inj_le, subseteq_size. set_solver. }
  split_and!.
  - intros tenant l Hnd Hl. destruct (decide (l = [])) as [->|Hne]; [simpl; lia|].
    destruct (Hmem tenant None l Hnd Hl Hne) as (t & ts & Ht & Hts & Hin).
    destruct (bk_live _ _ Hbk _ _ Ht) as (u & Hu & _ & Hsz & _). assert (u = ts) as -> by congruence.
    specialize (Hsize l (ts_conns ts) Hnd Hin). lia.
  - intros tenant v l Hnd Hl. destruct (decide (l = [])) as [->|Hne]; [simpl; lia|].
    destruct (Hmem tenant (Some v) l Hnd Hl Hne) as (t & ts & Ht & Hts & Hin).
    destruct (bk_live _ _ Hbk _ _ Ht) as (u & Hu & _ & _ & Hcnt & Hlim). assert (u = ts) as -> by congruence.
    specialize (Hlim v). rewrite Hcnt in Hlim.
    assert (Z.of_nat (length l) <= Z.of_nat (size (of_user (y_hub y) v (ts_conns ts)))); [|lia].
    apply Hsize; [done|]. intros s Hs. unfold of_user. rewrite elem_of_filter. split; [|by apply Hin].
    destruct (Hl s Hs) as (x & Hx & _ & _ & Hxu). unfold user_of. rewrite Hx. simpl. by rewrite (Hxu v eq_refl).
  - intros s x. apply (bk_buffer _ _ Hbk).
Qed.
