(* ===== verification/HubRuns.v ===== *)
(** Runs of the event hub, computed: schedules of its goroutines, and what they
    show of internal/stream/hub.go. *)

From S2P Require Import Prelude Rows GoJson GoUrl Csr Domains Stream Hub HubLimits.

(** What a scheduler picks next. *)
Inductive Act : Type :=
| Publishes (now : Z) (tenant : string) (to : list string) (all : bool) (typ : string) (data : Payload)
| Subscribes (tenant user lastID : string)
| Checks (i : nat) | Reads (i : nat) | Runs (i : nat) (now : Z)
| Receives (s : nat) | Leaves (s : nat).
Definition act (cfg : HubConfig) (a : Act) (y : System) : option System :=
  let '(mkSystem h m ths log) := y in
  if h_panicked h then None
  else match a with
  | Publishes now tenant to all typ data =>
    let '(r, m') := PublishID now (hc_MaxLen cfg) tenant to all typ data false m in
    Some (mkSystem h m' ths (log ++ (if is_ok r then (fun e => (Key tenant, e)) <$> option_list (newest (Key tenant) m')
                                     else [])))
  | Subscribes tenant user lastID =>
    let '(r, h', loop) := Subscribe_locked cfg tenant user m h in
    Some (mkSystem h' m
            (ths ++ [mkThread [] loop false]
                 ++ [spawn (match r with Ok s => if lastID =s "" then [] else [Replay s lastID] | Err _ => [] end)])
            log)
  | Checks i =>
    match ths !! i with
    | Some (mkThread [] (Some (t, last)) false) =>
      match h_tsubs h !! t with
      | Some ts => if ts_cancelled ts || h_closed h then None
                   else Some (mkSystem h m (<[i := mkThread [] (Some (t, last)) true]> ths) log)
      | None => None
      end
    | _ => None
    end
  | Reads i =>
    match ths !! i with
    | Some (mkThread [] (Some (t, last)) true) =>
      match h_tsubs h !! t with
      | Some ts =>
        match XRead (Key (ts_tenant ts)) last 100 m with
        | Ok es =>
          Some (mkSystem h m (<[i := mkThread (Dispatch t <$> es)
                  (Some (t, match list.last es with Some e => e_ID e | None => last end)) false]> ths) log)
        | Err _ => None
        end
      | None => None
      end
    | _ => None
    end
  | Runs i now =>
    match ths !! i with
    | Some (mkThread (k :: ks) loop false) =>
      let '(h', ks') := do_task cfg now m (fun l => l) k h in
      Some (mkSystem h' m (<[i := mkThread (ks' ++ ks) loop false]> ths) log)
    | _ => None
    end
  | Receives s =>
    match h_subs h !! s with
    | Some x => match s_ch x with
                | ev :: rest =>
                  Some (mkSystem (set_sub s (x <| s_ch := rest |> <| s_seen := s_seen x ++ [ev] |>) h) m ths log)
                | [] => None
                end
    | None => None
    end
  | Leaves s =>
    match h_subs h !! s with
    | Some _ => Some (mkSystem h m (ths ++ [spawn [CloseSub s]]) log)
    | None => None
    end
  end.
Fixpoint acts (cfg : HubConfig) (l : list Act) (y : System) : option System :=
  match l with
  | [] => Some y
  | a :: l => match act cfg a y with Some y => acts cfg l y | None => None end
  end.

Lemma act_step cfg a y y' : act cfg a y = Some y' -> sys_step cfg y y'.
Proof.
  destruct y as [h m ths log]. unfold act, sys_step. simpl. destruct (h_panicked h); [done|].
  intros Ha. split; [done|]. destruct a; simpl in Ha.
  - destruct (PublishID _ _ _ _ _ _ _ _ m) as [r m'] eqn:E. injection Ha as <-. by eapply y_publish.
  - destruct (Subscribe_locked _ _ _ _ _) as [[r h'] loop] eqn:E. injection Ha as <-. by eapply y_subscribe.
  - destruct (ths !! i) as [[[|] [[t last]|] []]|] eqn:Ei; try done.
    destruct (h_tsubs h !! t) as [ts|] eqn:Et; [|done]. destruct (_ || _) eqn:Ec; [done|].
    injection Ha as <-. apply orb_false_iff in Ec as [? ?]. by eapply y_check.
  - destruct (ths !! i) as [[[|] [[t last]|] []]|] eqn:Ei; try done.
    destruct (h_tsubs h !! t) as [ts|] eqn:Et; [|done]. destruct (XRead _ _ _ _) as [es|] eqn:Er; [|done].
    injection Ha as <-. by eapply y_read.
  - destruct (ths !! i) as [[[|k ks] loop []]|] eqn:Ei; try done.
    destruct (do_task _ _ _ _ _ _) as [h' ks'] eqn:Ed. injection Ha as <-. by eapply y_run; [exact Ei| |exact Ed].
  - destruct (h_subs h !! s) as [x|] eqn:Ex; [|done]. destruct (s_ch x) as [|ev rest] eqn:Ec; [done|].
    injection Ha as <-. by eapply y_receive.
  - destruct (h_subs h !! s) as [x|] eqn:Ex; [|done]. injection Ha as <-. by eapply y_leave.
Qed.
Lemma acts_run cfg l y y' : acts cfg l y = Some y' -> rtc (sys_step cfg) y y'.
Proof.
  revert y. induction l as [|a l IH]; intros y Hl; simpl in Hl; [by injection Hl as ->|].
  destruct (act cfg a y) as [y1|] eqn:E; [|done]. eapply rtc_l; [by eapply act_step|by apply IH].
Qed.

(** ** What [Subscribe] leaves of a long replay *)

Definition last_id (d : string) (evs : list SEvent) : string := default d (ev_ID <$> list.last evs).
Definition ascending (evs : list SEvent) : Prop :=
  Forall (fun ev => ev_ID ev <> "") evs /\ StronglySorted (fun a b => Less (ev_ID a) (ev_ID b) = true) evs.
Fixpoint sorted_check (evs : list SEvent) : bool :=
  match evs with
  | [] => true
  | ev :: evs => forallb (fun e => Less (ev_ID ev) (ev_ID e)) evs && sorted_check evs
  end.
Lemma sorted_by_check evs :
  sorted_check evs = true -> StronglySorted (fun a b => Less (ev_ID a) (ev_ID b) = true) evs.
Proof.
  induction evs as [|ev evs IH]; simpl; [constructor|]. intros [H1 H2]%andb_true_iff. constructor; [auto|].
  by apply Forall_forall; intros e He; eapply forallb_forall in H1; [|by apply list_elem_of_In].
Qed.
Lemma take_again {A} n (l k : list A) : take n (take n l ++ k) = take n (l ++ k).
Proof.
  rewrite !take_app, take_take, Nat.min_id. f_equal. rewrite length_take. f_equal. lia.
Qed.
(** A push the stalled reader does not take is dropped all the same. *)
Lemma push_one cfg now m order n s ev ks x h :
  h_subs h !! s = Some x -> s_closed x = false -> s_ended x = false -> ev_ID ev <> "" ->
  s_last x = "" \/ Less (s_last x) (ev_ID ev) = true ->
  (length (s_ch x) <= connBuffer)%nat ->
  exists h', run_tasks cfg now m order (S (S n)) (Push s ev false :: ks) h = run_tasks cfg now m order n ks h'
    /\ h_subs h' !! s = Some (x <| s_last := ev_ID ev |> <| s_ch := take connBuffer (s_ch x ++ [ev]) |>).
Proof.
  intros Hx Hc He Hid Hlt Hlen. set (x1 := x <| s_last := ev_ID ev |>).
  assert (Hgo : push_check ev x = (x1, true)).
  { unfold push_check. rewrite Hc. rewrite (proj2 (str_eqb_neq _ _) Hid). simpl.
    destruct Hlt as [->|Hlt]; [done|]. rewrite Hlt, andb_false_r. done. }
  simpl. rewrite Hx, Hgo. simpl. rewrite lookup_insert_eq. unfold send.
  replace (s_ended x1) with false by done. replace (s_ch x1) with (s_ch x) by done.
  destruct (_ <? _)%nat eqn:El.
  - apply Nat.ltb_lt in El. eexists. split; [reflexivity|]. simpl. rewrite lookup_insert_eq, take_ge; [done|].
    rewrite length_app. simpl. lia.
  - apply Nat.ltb_ge in El. eexists. split; [reflexivity|]. simpl. rewrite lookup_insert_eq. unfold x1.
    rewrite take_app_le, take_ge by lia. by destruct x.
Qed.
Lemma push_all cfg now m order s evs : forall x h,
  h_subs h !! s = Some x -> s_closed x = false -> s_ended x = false -> ascending evs ->
  s_last x = "" \/ Forall (fun ev => Less (s_last x) (ev_ID ev) = true) evs ->
  (length (s_ch x) <= connBuffer)%nat ->
  exists h', run_tasks cfg now m order (2 * length evs) ((fun ev => Push s ev false) <$> evs) h = Some h'
    /\ h_subs h' !! s = Some (x <| s_last := last_id (s_last x) evs |> <| s_ch := take connBuffer (s_ch x ++ evs) |>).
Proof.
  induction evs as [|ev evs IH]; intros x h Hx Hc He [Hid Hs] Hlt Hlen.
  - exists h. split; [done|]. rewrite app_nil_r, take_ge by done. by destruct x.
  - apply Forall_cons in Hid as [Hi Hid]. apply StronglySorted_inv in Hs as [Hs Hall].
    replace (2 * length (ev :: evs))%nat with (S (S (2 * length evs))) by (simpl; lia).
    rewrite fmap_cons. destruct (push_one cfg now m order (2 * length evs) s ev ((fun e => Push s e false) <$> evs) x h)
      as (h1 & -> & Hx1); try done.
    { destruct Hlt as [->|Hlt]; [by left|right]. by apply Forall_cons in Hlt as [? _]. }
    destruct (IH _ h1 Hx1) as (h' & Hr & Hx'); try done.
    { right. eapply Forall_impl; [exact Hall|]. done. }
    { simpl. rewrite length_take. lia. }
    exists h'. split; [done|]. rewrite Hx'.
    assert (E1 : take connBuffer (take connBuffer (s_ch x ++ [ev]) ++ evs) = take connBuffer (s_ch x ++ ev :: evs))
      by (rewrite take_again; by rewrite <- app_assoc).
    assert (E2 : last_id (ev_ID ev) evs = last_id (s_last x) (ev :: evs))
      by (unfold last_id; rewrite last_cons; by destruct (list.last evs)).
    rewrite <- E1, <- E2. done.
Qed.

(** The replay of [Subscribe] ends before the reader can receive, and ignores
    that a push found the buffer full: of the missed events only the first 32 are
    kept, with no reset notice, while the stream's position moves to the last one,
    so the others never reach the reader. *)
Theorem replay_truncated cfg now m s lastID h tenant user x missed :
  x = mkSubscription tenant user [] "" false false false [] ->
  missed = replay_events cfg now m x lastID ->
  h_subs h !! s = Some x -> ascending missed ->
  exists h', run_tasks cfg now m (fun l => l) (1 + 2 * length missed) [Replay s lastID] h = Some h'
    /\ h_subs h' !! s = Some (x <| s_last := last_id "" missed |> <| s_ch := take 32 missed |>).
Proof.
  intros -> -> Hx Ha. simpl run_tasks. rewrite Hx, app_nil_r.
  apply (push_all cfg now m (fun l => l) s _ _ h Hx); auto; simpl; lia.
Qed.

Lemma open_at y tenant user s x :
  h_subs (y_hub y) !! s = Some x -> s_once x = false -> s_tenant x = tenant ->
  match user with Some u => s_user x = u | None => True end -> open_for y tenant user s.
Proof. intros Hx Ho Ht Hu. exists x. split_and!; [done..|]. by intros u ->. Qed.

Module HubSample.
Definition noon : Z := unix_epoch + 1700000000 * Second.
Definition config : HubConfig := mkHubConfig 0 0 0 0.
Definition cfg : HubConfig := NewHub_config config.
Definition note (tenant : string) (text : string) : Act := Publishes noon tenant [] true "note" (PText text).

(** Alice and Bob of t1 and Carol of t2; one event for everyone of t1, one for
    Alice, one for t2.  Thread 0 is t1's loop. *)
Definition busy : list Act :=
  [Subscribes "t1" "alice" ""; Subscribes "t1" "bob" ""; Subscribes "t2" "carol" "";
   note "t1" "1"; Publishes noon "t1" ["alice"] false "note" (PText "2"); note "t2" "3";
   Checks 0; Reads 0; Runs 0 noon; Runs 0 noon; Runs 0 noon; Runs 0 noon; Runs 0 noon; Runs 0 noon; Runs 0 noon;
   Runs 0 noon; Receives 1].
Definition busy_end : System := default boot (acts cfg busy boot).
Definition alice : Subscription :=
  default (mkSubscription "" "" [] "" false false false []) (h_subs (y_hub busy_end) !! 1%nat).
Lemma busy_run : rtc (sys_step cfg) boot busy_end.
Proof.
  destruct (acts cfg busy boot) as [y|] eqn:E; [|exfalso; revert E; vm_compute; discriminate].
  unfold busy_end. rewrite E. by eapply acts_run.
Qed.
Lemma streams_isolated_witness :
  map ev_Data (s_seen alice ++ s_ch alice) = ["1"; "2"]
  /\ NoDup (ids (s_seen alice ++ s_ch alice))
  /\ meant_for (y_log busy_end) "t1" "alice" (mkSEvent "1700000000000-2" "note" "2").
Proof.
  assert (Hx : h_subs (y_hub busy_end) !! 1%nat = Some alice) by (vm_compute; reflexivity).
  destruct (streams_isolated cfg busy_end 1 alice busy_run Hx) as [Hm Hn].
  split; [vm_compute; reflexivity|]. split; [exact Hn|].
  assert (Ht : s_tenant alice = "t1" /\ s_user alice = "alice") by (vm_compute; split; reflexivity).
  destruct Ht as [E1 E2]. rewrite E1, E2 in Hm. apply Hm.
  assert (E : s_seen alice ++ s_ch alice
              = [mkSEvent "1700000000000-1" "note" "1"; mkSEvent "1700000000000-2" "note" "2"])
    by (vm_compute; reflexivity).
  rewrite E. apply elem_of_cons. right. by apply list_elem_of_singleton.
Defined.
(** Alice and Bob are the two streams of t1; the tenant's limit is 2000, a user's 5. *)
Lemma streams_bounded_witness :
  OpenStreams (y_hub busy_end) = 3 /\ 2 <= hc_StreamsPerTenant cfg /\ 1 <= hc_StreamsPerUser cfg
  /\ (length (s_ch alice) <= connBuffer)%nat.
Proof.
  assert (Hx : h_subs (y_hub busy_end) !! 1%nat = Some alice) by (vm_compute; reflexivity).
  assert (Hb : exists bob, h_subs (y_hub busy_end) !! 2%nat = Some bob /\ s_once bob = false /\ s_tenant bob = "t1")
    by (eexists; split; [vm_compute; reflexivity|split; vm_compute; reflexivity]).
  destruct Hb as (bob & Hb & Ho & Ht).
  assert (Ha : s_once alice = false /\ s_tenant alice = "t1" /\ s_user alice = "alice")
    by (split_and!; vm_compute; reflexivity).
  destruct Ha as (Ha1 & Ha2 & Ha3).
  destruct (streams_bounded config busy_end busy_run) as (H1 & H2 & H3).
  split; [vm_compute; reflexivity|]. split; [|split; [|exact (H3 1%nat alice Hx)]].
  - apply (H1 "t1" [1%nat; 2%nat]); [apply (bool_decide_unpack _); vm_compute; exact I|].
    intros s Hs. apply elem_of_cons in Hs as [->|Hs]; [exact (open_at _ _ None _ alice Hx Ha1 Ha2 I)|].
    apply list_elem_of_singleton in Hs as ->. exact (open_at _ _ None _ bob Hb Ho Ht I).
  - apply (H2 "t1" "alice" [1%nat]); [apply (bool_decide_unpack _); vm_compute; exact I|].
    intros s ->%list_elem_of_singleton. exact (open_at _ _ (Some "alice") _ alice Hx Ha1 Ha2 Ha3).
Defined.

(** Forty events are published while Alice is away. *)
Definition seen0 : string := "1700000000000-1".
Definition away : list Act := replicate 41 (note "t1" "1") ++ [Subscribes "t1" "alice" seen0].
Definition away_end : System := default boot (acts cfg away boot).
Definition fresh_alice : Subscription := mkSubscription "t1" "alice" [] "" false false false [].
Definition missed40 : list SEvent := replay_events cfg noon (y_mem away_end) fresh_alice seen0.
Lemma replay_truncated_witness :
  length missed40 = 40%nat
  /\ exists h', run_tasks cfg noon (y_mem away_end) (fun l => l) 81 [Replay 1 seen0] (y_hub away_end) = Some h'
    /\ h_subs h' !! 1%nat
       = Some (fresh_alice <| s_last := "1700000000000-41" |> <| s_ch := take 32 missed40 |>).
Proof.
  assert (Hn : length missed40 = 40%nat) by (vm_compute; reflexivity). split; [exact Hn|].
  assert (Hl : last_id "" missed40 = "1700000000000-41") by (vm_compute; reflexivity).
  assert (Hx : h_subs (y_hub away_end) !! 1%nat = Some fresh_alice) by (vm_compute; reflexivity).
  assert (Hm : missed40 = replay_events cfg noon (y_mem away_end) fresh_alice seen0) by (unfold missed40; reflexivity).
  assert (Ha : ascending missed40).
  { split; [|apply sorted_by_check; vm_compute; reflexivity].
    apply (Forall_impl (fun ev => ev_ID ev <>s "" = true)); [|by intros ev E; bools].
    apply Forall_forall. intros ev Hev. apply list_elem_of_In in Hev. revert ev Hev.
    apply forallb_forall. vm_compute. reflexivity. }
  destruct (replay_truncated cfg noon (y_mem away_end) 1 seen0 (y_hub away_end) "t1" "alice" fresh_alice missed40
              eq_refl Hm Hx Ha) as (h' & Hr & Hs).
  rewrite Hn in Hr. rewrite Hl in Hs. exists h'. exact (conj Hr Hs).
Defined.
End HubSample.

(** [push] sends after it has released the lock, so a subscription can be closed
    in between: the send then finds the channel closed and the process panics. *)
Theorem push_after_close : exists y, rtc (sys_step HubSample.cfg) boot y /\ h_panicked (y_hub y) = true.
Proof.
  set (l := [Subscribes "t1" "alice" ""; HubSample.note "t1" "1"; Checks 0; Reads 0;
             Runs 0 HubSample.noon; Runs 0 HubSample.noon; Leaves 1; Runs 2 HubSample.noon;
             Runs 2 HubSample.noon; Runs 0 HubSample.noon]).
  destruct (acts HubSample.cfg l boot) as [y|] eqn:E; [|exfalso; revert E; vm_compute; discriminate].
  exists y. split; [by eapply acts_run|].
  assert (Hp : ((fun y => h_panicked (y_hub y)) <$> acts HubSample.cfg l boot) = Some true) by (vm_compute; reflexivity).
  rewrite E in Hp. by injection Hp.
Qed.
