(* ===== verification/Secrets.v ===== *)
(** Tenant secrets: internal/secrets/secrets.go.  The value of a secret is sealed at
    rest, never part of a view, and opened for server-side callers only. *)

From S2P Require Import Prelude Rows Memstore MemstoreInv Authz GoJson GoUrl AuditLog Csr Sealed World.

Definition KindACMEAccount : string := "acme_account".
Definition KindDNSCredential : string := "dns_credential".
Definition validKind (k : string) : bool := (k =s KindACMEAccount) || (k =s KindDNSCredential).
Definition secret_invalid (field msg : string) : err := ValidationError "secrets" field msg.
Definition secret_conflict (msg : string) : err := ConflictError "secrets" msg.

Record SecretInput := mkSecretInput { si_Name : string; si_Kind : string; si_Value : Settings }.
Record SecretView := mkSecretView {
  sv_ID : string; sv_Name : string; sv_Kind : string; sv_CreatedBy : string; sv_UpdatedBy : string;
  sv_CreatedAt : Z; sv_UpdatedAt : Z;
}.
Definition secret_view (r : TenantSecret) : SecretView :=
  mkSecretView (sec_ID r) (sec_Name r) (sec_Kind r) (strp (sec_CreatedBy r)) (strp (sec_UpdatedBy r))
    (sec_CreatedAt r) (sec_UpdatedAt r).
Definition mapConflict (e : err) : err :=
  if is_conflict e then secret_conflict "a secret with that name already exists" else e.
(** Every key of either map, in the order the runtime visits them. *)
Definition keysUnion `{GoRuntime} (a b : Settings) : list string :=
  (map_range a).*1 ++ List.filter (fun k => negb (bool_decide (is_Some (a !! k)))) (map_range b).*1.
Definition bad_name (name : string) : bool := (str_len name <? 1) || (100 <? str_len name).

Section secrets.
Context `{Env}.

Definition secret_seal (id : string) (value : Settings) : M string :=
  match sealed_Encode value with
  | Err _ => st_err (secret_invalid "value" "value exceeds 8 KiB")
  | Ok clear =>
    let* r := st_try (Seal clear (ADSecret id)) in
    match r with
    | Ok blob => st_ret blob
    | Err e => if errors_is e "sealed" "ErrTooLarge" then st_err (secret_invalid "value" "value exceeds 8 KiB")
               else st_err e
    end
  end.
Definition secret_open (row : TenantSecret) : res Settings :=
  let? clear := Open (sec_ValueSealed row) (ADSecret (sec_ID row)) in
  sealed_Decode (Some clear).
Definition secret_record (subj : Subjects) (ty id name : string) : M unit :=
  emit (mkEvent (sub_TenantID subj) ty (ActorKind subj) (ActorID subj) "secret" id name "ok" "" "" []).
(** A write of the store whose conflict is a taken name. *)
Definition name_taken (c : M unit) : M unit :=
  let* r := st_try c in
  match r with Ok _ => st_ret tt | Err e => st_err (mapConflict e) end.

Definition secret_Get (subj : Subjects) (id : string) : M SecretView :=
  let* row := reading (Mem_GetSecret (sub_TenantID subj) id) in
  st_ret (secret_view row).
Definition secret_List (subj : Subjects) : M (list SecretView) :=
  let* rows := reading (Mem_ListSecrets (sub_TenantID subj)) in
  st_ret (secret_view <$> rows).
Definition secret_Create (subj : Subjects) (inp : SecretInput) : M SecretView :=
  if bad_name (si_Name inp) then st_err (secret_invalid "name" "name must be 1..100 chars")
  else if negb (validKind (si_Kind inp))
  then st_err (secret_invalid "kind" "kind must be acme_account or dns_credential")
  else if decide (si_Value inp = ∅) then st_err (secret_invalid "value" "value is required")
  else
    let* found := st_try (reading (Mem_SecretByName (sub_TenantID subj) (si_Name inp))) in
    match found with
    | Ok _ => st_err (secret_conflict "a secret with that name already exists")
    | Err e =>
      if negb (is_not_found e) then st_err e
      else
        let* id := newID in
        let* blob := secret_seal id (si_Value inp) in
        let actor := Some (ActorID subj) in
        let* _ := name_taken (writing (Mem_InsertSecret
                    (mkTenantSecret id (sub_TenantID subj) (si_Name inp) (si_Kind inp) (Some blob) actor actor 0 0))) in
        let* _ := secret_record subj "secret_created" id (si_Name inp) in
        secret_Get subj id
    end.
Definition secret_Update (subj : Subjects) (id : string) (inp : SecretInput) : M SecretView :=
  if bad_name (si_Name inp) then st_err (secret_invalid "name" "name must be 1..100 chars")
  else
    let* row := reading (Mem_GetSecret (sub_TenantID subj) id) in
    let* stored := st_lift (secret_open row) in
    let merged := Merge stored (si_Value inp) (keysUnion stored (si_Value inp)) in
    if decide (merged = ∅) then st_err (secret_invalid "value" "value cannot be emptied")
    else
      let* blob := secret_seal id merged in
      let* _ := name_taken (writing (Mem_UpdateSecret
                  (row <| sec_Name := si_Name inp |> <| sec_ValueSealed := Some blob |>
                       <| sec_UpdatedBy := Some (ActorID subj) |>))) in
      let* _ := secret_record subj "secret_updated" id (si_Name inp) in
      secret_Get subj id.
Definition secret_Rotate (subj : Subjects) (id : string) (value : Settings) : M SecretView :=
  if decide (value = ∅) then st_err (secret_invalid "value" "value is required")
  else
    let* row := reading (Mem_GetSecret (sub_TenantID subj) id) in
    let* blob := secret_seal id value in
    let* _ := name_taken (writing (Mem_UpdateSecret
                (row <| sec_ValueSealed := Some blob |> <| sec_UpdatedBy := Some (ActorID subj) |>))) in
    let* _ := secret_record subj "secret_rotated" id (sec_Name row) in
    secret_Get subj id.
Definition secret_Delete (subj : Subjects) (id : string) : M unit :=
  let* row := reading (Mem_GetSecret (sub_TenantID subj) id) in
  let* r := st_try (writing (Mem_DeleteSecret (sub_TenantID subj) id)) in
  match r with
  | Ok _ => secret_record subj "secret_deleted" id (sec_Name row)
  | Err e => if is_conflict e then st_err (secret_conflict "secret is still referenced by an issuer") else st_err e
  end.
Definition OpenValue (tenantID id : string) : M Settings :=
  let* row := reading (Mem_GetSecret tenantID id) in
  st_lift (secret_open row).
End secrets.

(** ** Settings of texts are read back as they were written *)
Definition text_member (kv : string * string) : string := json_string kv.1 +:+ ":" +:+ json_string kv.2.
Definition as_text (kv : string * string) : string * any := (kv.1, AStr kv.2).
Definition plain_member (kv : string * string) : Prop := utf8_valid kv.1 = true /\ utf8_valid kv.2 = true.

Lemma set_entry_new acc k v : k ∉ acc.*1 -> set_entry acc k v = acc ++ [(k, v)].
Proof.
  intros Hk. unfold set_entry. f_equal. induction acc as [|[k' v'] acc IH]; [done|].
  rewrite fmap_cons, not_elem_of_cons in Hk. destruct Hk as [Hne Hk]. simpl in Hne |- *.
  rewrite (proj2 (str_eqb_neq _ _)) by done. simpl. by rewrite IH.
Qed.
Lemma json_members_S n acc s :
  json_members (S n) acc s =
  (let s := skip_space s in
   if negb (head_byte s =? 34) then None
   else match json_unquote 0 (tail s) with
        | None => None
        | Some (k, r) =>
          let r := skip_space r in
          if negb (head_byte r =? 58) then None
          else match json_value n (tail r) with
               | None => None
               | Some (v, r) =>
                 let r := skip_space r in
                 if head_byte r =? 44 then json_members n (set_entry acc k v) (tail r)
                 else if head_byte r =? 125 then Some (AMap (set_entry acc k v), tail r)
                 else None
               end
        end).
Proof. reflexivity. Qed.
(** One member, and what follows it. *)
Lemma json_member_text n acc k t rest :
  utf8_valid k = true -> utf8_valid t = true -> k ∉ acc.*1 ->
  json_members (S (S n)) acc (text_member (k, t) +:+ rest)
  = (let r := skip_space rest in
     if head_byte r =? 44 then json_members (S n) (acc ++ [(k, AStr t)]) (tail r)
     else if head_byte r =? 125 then Some (AMap (acc ++ [(k, AStr t)]), tail r)
     else None).
Proof.
  intros Hk Ht Hnew. unfold text_member. simpl fst. simpl snd. rewrite !str_app_assoc.
  destruct (unquote_json_string k (":" +:+ json_string t +:+ rest) Hk) as (q & Hq & Hu).
  rewrite json_members_S, Hq. change (skip_space (String quote q)) with (String quote q).
  cbv zeta. change (head_byte (String quote q) =? 34) with true. cbn [negb tail]. rewrite Hu.
  change (skip_space (":" +:+ json_string t +:+ rest)) with (String (chr 58) (json_string t +:+ rest)).
  change (head_byte (String (chr 58) (json_string t +:+ rest)) =? 58) with true. cbn [negb tail].
  rewrite (json_value_string n t rest Ht). by rewrite set_entry_new.
Qed.
Lemma json_members_texts n l acc :
  l <> [] -> (2 * length l <= n)%nat -> Forall plain_member l -> NoDup (acc.*1 ++ l.*1) ->
  json_members n acc (json_join (text_member <$> l) +:+ "}") = Some (AMap (acc ++ (as_text <$> l)), "").
Proof.
  revert n acc. induction l as [|[k t] l IH]; intros n acc Hne Hn Hv Hnd; [done|].
  apply Forall_cons in Hv as [[Hk Ht] Hv]. simpl in Hn, Hk, Ht. destruct n as [|[|n]]; [lia..|].
  assert (Hnew : k ∉ acc.*1).
  { apply NoDup_app in Hnd as (_ & Hd & _). intros Hin. apply (Hd k Hin). simpl. set_solver. }
  destruct l as [|m l].
  - change (json_join (text_member <$> [(k, t)])) with (text_member (k, t)). by rewrite json_member_text.
  - change (json_join (text_member <$> (k, t) :: m :: l))
      with (text_member (k, t) +:+ ("," +:+ json_join (text_member <$> m :: l))).
    rewrite str_app_assoc, json_member_text by done.
    change (skip_space (("," +:+ json_join (text_member <$> m :: l)) +:+ "}"))
      with (String (chr 44) (json_join (text_member <$> m :: l) +:+ "}")).
    cbv zeta. replace (head_byte (String (chr 44) _) =? 44) with true by reflexivity. cbn [tail].
    rewrite IH; [|done|simpl in *; lia|done|].
    + by rewrite <- app_assoc.
    + rewrite fmap_app, <- app_assoc. exact Hnd.
Qed.
Lemma text_join_length l : (2 * length l <= String.length (json_join (text_member <$> l)))%nat.
Proof.
  assert (H1 : forall kv, (2 <= String.length (text_member kv))%nat).
  { intros kv. unfold text_member, json_string. simpl. rewrite !str_length_app. simpl. lia. }
  induction l as [|s [|s2 l] IH]; [simpl; lia| |].
  - change (json_join (text_member <$> [s])) with (text_member s). specialize (H1 s). cbn [length]. lia.
  - change (json_join (text_member <$> s :: s2 :: l))
      with (text_member s +:+ ("," +:+ json_join (text_member <$> s2 :: l))).
    rewrite !str_length_app. specialize (H1 s). cbn [length] in *. lia.
Qed.
Lemma object_unmarshal l :
  Forall plain_member l -> NoDup l.*1 ->
  json_unmarshal ("{" +:+ json_join (text_member <$> l) +:+ "}") = Some (AMap (as_text <$> l)).
Proof.
  intros Hv Hnd. destruct (decide (l = [])) as [->|Hne]; [reflexivity|]. unfold json_unmarshal.
  set (body := json_join (text_member <$> l)).
  assert (Hb : (2 * length l <= String.length body)%nat) by apply text_join_length.
  assert (Hq : exists t, body = String quote t).
  { destruct l as [|s [|s2 l]]; [done|unfold body; eexists; reflexivity..]. }
  change ("{" +:+ body +:+ "}") with (String (chr 123) (body +:+ "}")).
  remember (2 * String.length (String (chr 123) (body +:+ "}")) + 1)%nat as n eqn:Hn.
  replace (2 * _ + 2)%nat with (S n) by lia. simpl in Hn. rewrite str_length_app in Hn.
  assert (Hsk : skip_space (body +:+ "}") = body +:+ "}" /\ (head_byte (body +:+ "}") =? 125) = false).
  { destruct Hq as [t ->]. done. }
  cbn [json_value]. change (skip_space (String (chr 123) (body +:+ "}"))) with (String (chr 123) (body +:+ "}")).
  change (head_byte (String (chr 123) (body +:+ "}"))) with 123. cbn [tail Z.eqb Pos.eqb].
  rewrite (proj1 Hsk), (proj2 Hsk). unfold body. by rewrite (json_members_texts n l []); [|done|lia|done|done].
Qed.
(** A marshalled object of texts lists its members in some order. *)
Lemma object_marshal l :
  exists l', l' ≡ₚ l /\ json_marshal (AMap (as_text <$> l)) = Some ("{" +:+ json_join (text_member <$> l') +:+ "}").
Proof.
  set (quoted := fun kv : string * string => (kv.1, json_string kv.2)).
  assert (Hgo : forall k acc,
    (fix go (l : list (string * any)) (acc : list (string * string)) : option string :=
       match l with
       | [] => Some ("{" +:+ json_join ((fun kv => json_string kv.1 +:+ ":" +:+ kv.2) <$>
                 sort_slice (fun a b => str_ltb a.1 b.1) acc) +:+ "}")
       | (k, x) :: l' => match json_marshal x with
                         | Some t => go l' (acc ++ [(k, t)])
                         | None => None
                         end
       end) (as_text <$> k) acc
    = Some ("{" +:+ json_join ((fun kv => json_string kv.1 +:+ ":" +:+ kv.2) <$>
              sort_slice (fun a b => str_ltb a.1 b.1) (acc ++ (quoted <$> k))) +:+ "}")).
  { induction k as [|[a t] k IH]; intros acc; simpl; [by rewrite app_nil_r|]. by rewrite IH, <- app_assoc. }
  assert (Hp : quoted <$> l ≡ₚ sort_slice (fun a b => str_ltb a.1 b.1) (quoted <$> l)) by (by rewrite sort_slice_perm).
  destruct (Permutation_map_inv _ _ (symmetry Hp)) as (l' & Hl' & Hl). exists l'. split; [done|].
  cbn [json_marshal]. rewrite Hgo. simpl app. change (map quoted l') with (quoted <$> l') in Hl'. rewrite Hl'.
  by rewrite <- list_fmap_compose.
Qed.

(** Values that are texts, as credentials are. *)
Definition texts (s : Settings) : Prop :=
  forall k v, s !! k = Some v -> utf8_valid k = true /\ exists t, v = AStr t /\ utf8_valid t = true.
Lemma texts_list `{GoRuntime} s :
  texts s -> exists l, map_range s = as_text <$> l /\ Forall plain_member l /\ NoDup l.*1.
Proof.
  intros Ht. assert (Hall : Forall (fun kv => s !! kv.1 = Some kv.2) (map_range s)).
  { apply Forall_forall. intros [k v] Hkv. by apply elem_of_map_range. }
  pose proof (NoDup_map_range_fst s) as Hnd. revert Hall Hnd. generalize (map_range s) as m.
  induction m as [|[k v] m IH]; intros Hall Hnd; [by exists []; repeat constructor|].
  apply Forall_cons in Hall as [Hkv Hall]. rewrite fmap_cons in Hnd. apply NoDup_cons in Hnd as [Hk Hnd].
  destruct (IH Hall Hnd) as (l & -> & Hp & Hn). simpl in Hkv. destruct (Ht k v Hkv) as (Hu & t & -> & Hut).
  exists ((k, t) :: l). split_and!; [done|by constructor|]. rewrite fmap_cons. constructor; [|done].
  rewrite <- list_fmap_compose in Hk. exact Hk.
Qed.
(** A copied column is read as the column. *)
Lemma Decode_clone b : sealed_Decode (cloneBytes b) = sealed_Decode b.
Proof. destruct b as [s|]; [|done]. simpl. by destruct (s =s "") eqn:E; bools; subst. Qed.
(** What is encoded is decoded to the same settings. *)
Lemma settings_roundtrip `{GoRuntime} s raw :
  texts s -> sealed_Encode s = Ok raw -> sealed_Decode (Some raw) = Ok s.
Proof.
  intros (l & Hl & Hp & Hn)%texts_list. unfold sealed_Encode, sealed_Decode. rewrite Hl.
  destruct (object_marshal l) as (l' & Hperm & ->). case_match eqn:Hsize; [done|]. intros [= <-].
  change (blen (Some ?x)) with (str_len x). rewrite Hsize. simpl default.
  rewrite object_unmarshal; [|by rewrite Hperm|by rewrite Hperm]. f_equal.
  transitivity (list_to_map (M := Settings) (map_range s)).
  - rewrite Hl. apply list_to_map_proper; [|by rewrite Hperm]. rewrite <- list_fmap_compose.
    change (NoDup (fst <$> l')). by rewrite Hperm.
  - etrans; [apply (list_to_map_proper (map_range s) (map_to_list s))|apply list_to_map_to_list].
    + apply NoDup_map_range_fst.
    + apply map_range_perm.
Qed.

(** ** The value of a secret *)
Section values.
Context `{Env} {laws : EnvLaws}.

Lemma keysUnion_spec (a b : Settings) k : k ∈ keysUnion a b <-> is_Some (a !! k) \/ is_Some (b !! k).
Proof.
  assert (Hr : forall (m : Settings) k, k ∈ (map_range m).*1 <-> is_Some (m !! k)).
  { intros m j. rewrite list_elem_of_fmap. split.
    - intros ([j' v] & -> & Hv%elem_of_map_range). by eexists.
    - intros [v Hv]. exists (j, v). by rewrite elem_of_map_range. }
  unfold keysUnion. rewrite elem_of_app, Hr, list_elem_of_In, filter_In, <- list_elem_of_In, Hr, negb_true_iff,
    bool_decide_eq_false. destruct (decide (is_Some (a !! k))); tauto.
Qed.
(** An update merges field by field. *)
Lemma merged_fields (a b : Settings) k : Merge a b (keysUnion a b) !! k = merged_value (a !! k) (b !! k).
Proof.
  rewrite Merge_lookup. case_bool_decide as Hk; [done|]. rewrite keysUnion_spec in Hk.
  destruct (a !! k) eqn:Ea, (b !! k) eqn:Eb; try done; exfalso; apply Hk; (left; by eexists) || (right; by eexists).
Qed.
Lemma merged_texts (a b : Settings) : texts a -> texts b -> texts (Merge a b (keysUnion a b)).
Proof.
  intros Ha Hb k v. rewrite merged_fields. unfold merged_value. destruct (b !! k) as [x|] eqn:Eb; [|apply Ha].
  case_match; [apply Ha|]. case_match; [done|]. intros [= <-]. by apply Hb.
Qed.

Lemma secret_seal_ok id v w blob w' :
  secret_seal id v w = (Ok blob, w') -> texts v ->
  wd_mem w' = wd_mem w /\ wd_ids w' = wd_ids w
  /\ exists clear, Open (Some blob) (ADSecret id) = Ok clear /\ sealed_Decode (Some clear) = Ok v.
Proof.
  unfold secret_seal. intros Hr Ht. destruct (sealed_Encode v) as [clear|] eqn:He; [|done].
  apply st_bind_ok in Hr as (r & w1 & Hs & Hr). apply (proj1 (st_try_ok _ _ _ _)) in Hs.
  destruct r as [b|e]; [|by case_match]. apply st_ret_ok in Hr as [-> ->].
  pose proof (Seal_frame _ _ _ _ _ Hs) as [Hm _]. split_and!; [done| |].
  - revert Hs. unfold Seal, st_bind, drawing, st_lift, st_err. intros Hs. invert_run Hs; done.
  - exists clear. split; [by eapply Seal_opens|by eapply settings_roundtrip].
Qed.
Lemma name_taken_ok (c : M unit) w u w' : name_taken c w = (Ok u, w') -> c w = (Ok tt, w').
Proof.
  unfold name_taken. intros Hr. apply st_bind_ok in Hr as (r & w1 & Hs & Hr).
  apply (proj1 (st_try_ok _ _ _ _)) in Hs. destruct r as [[]|e]; [|done]. by apply st_ret_ok in Hr as [_ ->].
Qed.
Lemma GetSecret_ok tid id m r :
  Mem_GetSecret tid id m = Ok r ->
  exists x, m_Secrets m !! id = Some x /\ sec_TenantID x = tid /\ r = cpSecret x /\ m_Fail m !! "GetSecret" = None.
Proof.
  unfold Mem_GetSecret, fail_read. destruct (m_Fail m !! "GetSecret"); [done|].
  destruct (m_Secrets m !! id) as [x|]; [|done]. case_match; [|done]. bools. intros [= <-]. eauto.
Qed.
(** What the last steps of a write return: a view of the row just written. *)
Lemma written_view subj ty id name w v w' :
  (let* _ := secret_record subj ty id name in secret_Get subj id) w = (Ok v, w') ->
  wd_mem w' = wd_mem w /\ exists x, m_Secrets (wd_mem w) !! id = Some x /\ sec_TenantID x = sub_TenantID subj
    /\ v = secret_view (cpSecret x) /\ m_Fail (wd_mem w) !! "GetSecret" = None
    /\ wd_events w' = wd_events w ++ [mkEvent (sub_TenantID subj) ty (ActorKind subj) (ActorID subj) "secret" id
                                        name "ok" "" "" []].
Proof.
  intros Hr. apply st_bind_ok in Hr as ([] & w1 & He & Hr). apply emit_ok in He as ->.
  unfold secret_Get in Hr. apply st_bind_ok in Hr as (row & w2 & Hg & Hr). apply reading_ok in Hg as [Hg ->].
  apply st_ret_ok in Hr as [-> ->]. apply GetSecret_ok in Hg as (x & Hx & Ht & -> & Hf). eauto 10.
Qed.
Lemma Open_clone b ad : Open (cloneBytes b) ad = Open b ad.
Proof. destruct b as [t|]; [|done]. unfold cloneBytes. destruct (t =s "") eqn:E; [|done]. bools. by subst. Qed.
(** A stored value that opens is what [OpenValue] returns. *)
Lemma OpenValue_row tid id x w clear v :
  m_Secrets (wd_mem w) !! id = Some x -> sec_TenantID x = tid -> m_Fail (wd_mem w) !! "GetSecret" = None ->
  sec_ID x = id -> Open (sec_ValueSealed x) (ADSecret id) = Ok clear -> sealed_Decode (Some clear) = Ok v ->
  OpenValue tid id w = (Ok v, w).
Proof.
  intros Hx Ht Hf Hid Ho Hd. unfold OpenValue, st_bind, reading, Mem_GetSecret, fail_read.
  rewrite Hf, Hx, Ht, str_eqb_refl. unfold st_lift, secret_open. simpl sec_ID. simpl sec_ValueSealed.
  rewrite Hid, Open_clone, Ho. simpl. by rewrite Hd.
Qed.
Lemma Create_keeps subj inp w v w' :
  texts (si_Value inp) -> secret_Create subj inp w = (Ok v, w') ->
  OpenValue (sub_TenantID subj) (sv_ID v) w' = (Ok (si_Value inp), w')
  /\ (forall id, id <> sv_ID v -> m_Secrets (wd_mem w') !! id = m_Secrets (wd_mem w) !! id).
Proof using laws.
  intros Hv. unfold secret_Create. case_match; [done|]. case_match; [done|]. case_decide; [done|]. intros Hr.
  apply st_bind_ok in Hr as (found & w1 & Hs & Hr). apply (proj1 (st_try_ok _ _ _ _)) in Hs. injection Hs as Hs <-.
  destruct found as [|e]; [done|]. case_match; [done|].
  apply st_bind_ok in Hr as (id & w1 & [= <- <-] & Hr).
  apply st_bind_ok in Hr as (blob & w2 & Hseal & Hr).
  apply secret_seal_ok in Hseal as (Hm2 & _ & clear & Hop & Hdec); [|done]. simpl in Hm2.
  apply st_bind_ok in Hr as (u & w3 & Hn & Hr). apply name_taken_ok in Hn. apply writing_ok in Hn as (m3 & Hi & ->).
  apply written_view in Hr as (Hm' & x & Hx & Ht & -> & Hf & _). simpl in Hx, Hf, Hm'.
  unfold Mem_InsertSecret, fail_write in Hi. case_match; [done|]. case_match; [done|]. injection Hi as <-.
  simpl in Hx, Hf, Hm'. rewrite lookup_insert_eq in Hx. injection Hx as <-. simpl in Ht.
  split.
  - eapply OpenValue_row; [rewrite Hm'; simpl; apply lookup_insert_eq|done|by rewrite Hm'|done| |exact Hdec].
    exact (eq_trans (Open_clone (Some blob) _) Hop).
  - intros id Hne. rewrite Hm'. simpl. rewrite lookup_insert_ne by (intros E; by apply Hne). by rewrite Hm2.
Qed.
(** The writes of [Update] and [Rotate]: the stored row with another value. *)
Lemma UpdateSecret_value row x blob name m m' u :
  Mem_UpdateSecret ((cpSecret row) <| sec_Name := name |> <| sec_ValueSealed := Some blob |> <| sec_UpdatedBy := x |>) m
  = (Ok u, m') -> m_Secrets m !! sec_ID row = Some row ->
  exists row', m' = m <| m_Secrets := <[sec_ID row := row']> (m_Secrets m) |> /\ sec_ID row' = sec_ID row
    /\ sec_TenantID row' = sec_TenantID row /\ sec_ValueSealed row' = cloneBytes (Some blob).
Proof.
  unfold Mem_UpdateSecret, fail_write. intros Hu Hrow. case_match; [done|]. simpl in Hu. rewrite Hrow in Hu.
  case_match; [done|]. case_match; [done|]. injection Hu as _ <-. eexists. split; [reflexivity|done].
Qed.
Lemma rewrite_keeps subj id value row x blob name ty ename w w1 v w' :
  keyed sec_ID (m_Secrets (wd_mem w)) -> m_Secrets (wd_mem w) !! id = Some row -> texts value ->
  wd_mem w1 = wd_mem w ->
  (exists clear, Open (Some blob) (ADSecret id) = Ok clear /\ sealed_Decode (Some clear) = Ok value) ->
  (let* _ := name_taken (writing (Mem_UpdateSecret
       ((cpSecret row) <| sec_Name := name |> <| sec_ValueSealed := Some blob |> <| sec_UpdatedBy := x |>))) in
   let* _ := secret_record subj ty id ename in secret_Get subj id) w1 = (Ok v, w') ->
  OpenValue (sub_TenantID subj) id w' = (Ok value, w') /\ sv_ID v = id
  /\ (forall id', id' <> id -> m_Secrets (wd_mem w') !! id' = m_Secrets (wd_mem w) !! id').
Proof.
  intros Hk Hrow Ht Hw1 (clear & Hop & Hdec) Hr. pose proof (Hk _ _ Hrow) as Hid.
  apply st_bind_ok in Hr as ([] & w2 & Hn & Hr). apply name_taken_ok in Hn. apply writing_ok in Hn as (m2 & Hu & ->).
  rewrite Hw1 in Hu. apply UpdateSecret_value in Hu as (row' & -> & Hid' & Hten & Hval); [|by rewrite Hid].
  apply written_view in Hr as (Hm' & y & Hy & Hty & -> & Hf & _). simpl in Hy, Hf, Hm'. rewrite Hid in Hy, Hm'.
  rewrite lookup_insert_eq in Hy. injection Hy as <-. split_and!.
  - eapply OpenValue_row; [rewrite Hm'; simpl; apply lookup_insert_eq|done|by rewrite Hm'|congruence| |exact Hdec].
    by rewrite Hval, Open_clone.
  - simpl. congruence.
  - intros id' Hne. rewrite Hm'. simpl. by rewrite lookup_insert_ne.
Qed.

(** C32. The value of a secret, made of texts as credentials are, is what was stored:
    after [Create] and [Rotate] it opens to the value given, after [Update] to the
    stored value merged with the given one field by field (the marker or nothing
    keeps, the empty string clears, anything else replaces); no other secret
    changes. *)
Theorem secret_values subj :
  (forall inp w v w', texts (si_Value inp) -> secret_Create subj inp w = (Ok v, w') ->
     OpenValue (sub_TenantID subj) (sv_ID v) w' = (Ok (si_Value inp), w')
     /\ (forall id, id <> sv_ID v -> m_Secrets (wd_mem w') !! id = m_Secrets (wd_mem w) !! id))
  /\ (forall id value w v w', texts value -> keyed sec_ID (m_Secrets (wd_mem w)) ->
     secret_Rotate subj id value w = (Ok v, w') ->
     OpenValue (sub_TenantID subj) id w' = (Ok value, w') /\ sv_ID v = id
     /\ (forall id', id' <> id -> m_Secrets (wd_mem w') !! id' = m_Secrets (wd_mem w) !! id'))
  /\ (forall id inp w v w' stored, texts stored -> texts (si_Value inp) -> keyed sec_ID (m_Secrets (wd_mem w)) ->
     OpenValue (sub_TenantID subj) id w = (Ok stored, w) -> secret_Update subj id inp w = (Ok v, w') ->
     exists merged, OpenValue (sub_TenantID subj) id w' = (Ok merged, w') /\ sv_ID v = id /\ merged <> ∅
       /\ (forall k, merged !! k = merged_value (stored !! k) (si_Value inp !! k))
       /\ (forall id', id' <> id -> m_Secrets (wd_mem w') !! id' = m_Secrets (wd_mem w) !! id')).
Proof using laws.
  split_and!.
  - intros inp w v w'. apply Create_keeps.
  - intros id value w v w' Hv Hk. unfold secret_Rotate. case_decide; [done|]. intros Hr.
    apply st_bind_ok in Hr as (row & w1 & Hg & Hr). apply reading_ok in Hg as [Hg ->].
    apply GetSecret_ok in Hg as (x & Hx & _ & -> & _).
    apply st_bind_ok in Hr as (blob & w2 & Hseal & Hr). apply secret_seal_ok in Hseal as (Hm & _ & Hc); [|done].
    by eapply (rewrite_keeps subj id value x (Some (ActorID subj)) blob (sec_Name x)).
  - intros id inp w v w' stored Hs Hv Hk Hopen. unfold secret_Update. case_match; [done|]. intros Hr.
    apply st_bind_ok in Hr as (row & w1 & Hg & Hr). apply reading_ok in Hg as [Hg ->].
    unfold OpenValue, st_bind, reading in Hopen. rewrite Hg in Hopen. injection Hopen as Hopen.
    apply GetSecret_ok in Hg as (x & Hx & _ & -> & _).
    apply st_bind_ok in Hr as (stored' & w1 & Hso & Hr). apply st_lift_ok in Hso as [Hso ->].
    rewrite Hopen in Hso. injection Hso as <-. case_decide as Hne; [done|].
    apply st_bind_ok in Hr as (blob & w2 & Hseal & Hr).
    apply secret_seal_ok in Hseal as (Hm & _ & Hc); [|by apply merged_texts].
    destruct (rewrite_keeps subj id (Merge stored (si_Value inp) (keysUnion stored (si_Value inp))) x
                (Some (ActorID subj)) blob (si_Name inp) "secret_updated" (si_Name inp) w w2 v w')
      as (H1 & H2 & H3); try done; [by apply merged_texts|].
    eexists. split_and!; [exact H1|done|exact Hne|apply merged_fields|exact H3].
Qed.
End values.

Module SecretSample.
Import Toy.
#[local] Existing Instance toy_env.
Definition subj : Subjects := mkSubjects "t1" "root" ["admin"] "".
Definition cf : Settings := {["token" := AStr "abc"]}.
Definition input (value : Settings) : SecretInput := mkSecretInput "cf" KindDNSCredential value.
Definition w0 : World := mkWorld (Mem_New 5) [] 0 0.
Definition no_secret : SecretView := mkSecretView "" "" "" "" "" 0 0.
Definition ran {A} (d : A) (r : res A * World) : A * World := (match r.1 with Ok a => a | Err _ => d end, r.2).
Definition created := ran no_secret (secret_Create subj (input cf) w0).
Definition extra : Settings := {["zone" := AStr "example.org"]}.
Definition updated := ran no_secret (secret_Update subj (sv_ID created.1) (input extra) created.2).
Lemma texts_one k t : utf8_valid k = true -> utf8_valid t = true -> texts {[k := AStr t]}.
Proof. intros Hk Ht j v [<- <-]%lookup_singleton_Some. eauto. Qed.
Lemma secret_values_witness :
  OpenValue "t1" (sv_ID created.1) created.2 = (Ok cf, created.2)
  /\ exists merged, OpenValue "t1" (sv_ID created.1) updated.2 = (Ok merged, updated.2)
      /\ merged !! "token" = Some (AStr "abc") /\ merged !! "zone" = Some (AStr "example.org").
Proof.
  assert (Hcf : texts cf) by (apply texts_one; reflexivity).
  assert (Hex : texts extra) by (apply texts_one; reflexivity).
  assert (Hc : secret_Create subj (input cf) w0 = (Ok created.1, created.2)) by (vm_compute; reflexivity).
  assert (Hu : secret_Update subj (sv_ID created.1) (input extra) created.2 = (Ok updated.1, updated.2))
    by (vm_compute; reflexivity).
  destruct (secret_values (laws := toy_env_laws) subj) as (H1 & _ & H3).
  destruct (H1 (input cf) w0 created.1 created.2 Hcf Hc) as [Ho _]. split; [exact Ho|].
  assert (Hk : keyed sec_ID (m_Secrets (wd_mem created.2))).
  { assert (E : exists r, m_Secrets (wd_mem created.2) = {[sv_ID created.1 := r]} /\ sec_ID r = sv_ID created.1)
      by (eexists; split; [vm_compute; reflexivity|vm_compute; reflexivity]).
    destruct E as (r & -> & Er). intros k x [<- <-]%lookup_singleton_Some. exact Er. }
  destruct (H3 (sv_ID created.1) (input extra) created.2 updated.1 updated.2 cf Hcf Hex Hk Ho Hu) as (merged & Hm & _ & _ & Hf & _).
  exists merged. split; [exact Hm|]. rewrite !Hf. split; vm_compute; reflexivity.
Defined.
End SecretSample.
