(* ===== verification/Backup.v ===== *)
(** Backup and restore of a tenant: internal/transfer/backup.go. *)

From S2P Require Import Prelude Rows Memstore MemstoreInv MemstoreList Paging Authz GoJson GoUrl AuditLog.
From S2P Require Import Csr Sealed World Footprint Ca IssueBase Domains Providers Issuers Acme Lifecycle CertList.

Definition maxIssuers : Z := 1000.
Definition maxCerts : Z := 100000.
Definition maxSecrets : Z := 1000.
Definition maxGrants : Z := 100000.
Definition pageSize : Z := 1000.
Definition transfer_ErrInvalid : err := Sentinel "transfer" "ErrInvalid".
Definition transfer_ErrMode : err := Sentinel "transfer" "ErrMode".

Record BIssuer := mkBIssuer {
  bi_Name : string; bi_Type : string; bi_TrustDomain : string; bi_IsDefault : bool;
  bi_Settings : Settings; bi_Credentials : Settings;
}.
Record BCertificate := mkBCertificate {
  bc_Serial : string; bc_SpiffeID : string; bc_Issuer : string; bc_Subject : string;
  bc_SANs : option (list string); bc_NotBefore : Z; bc_NotAfter : Z; bc_FingerprintSHA256 : string;
  bc_Status : string; bc_CertPEM : string; bc_ChainPEM : string;
}.
Record BPermission := mkBPermission {
  bp_ResourceType : string; bp_ResourceRef : string; bp_SubjectType : string; bp_SubjectID : string;
  bp_Relation : string; bp_ExpiresAt : option Z;
}.
Record BSecret := mkBSecret { bs_Name : string; bs_Kind : string; bs_Value : string }.
Record Document := mkDocument {
  doc_Version : Z; doc_ExportedAt : Z; doc_Tenant : string; doc_IncludesCredentials : bool;
  doc_Issuers : list BIssuer; doc_Certificates : list BCertificate; doc_Permissions : list BPermission;
  doc_Secrets : list BSecret;
}.
Record Report := mkReport {
  rp_IssuersCreated : Z; rp_IssuersSkipped : Z; rp_CertificatesCreated : Z; rp_CertificatesSkipped : Z;
  rp_GrantsCreated : Z; rp_SecretsCreated : Z;
}.
#[export] Instance report_eta : RecordEta Report := fun r =>
  mkReport (rp_IssuersCreated r) (rp_IssuersSkipped r) (rp_CertificatesCreated r) (rp_CertificatesSkipped r)
    (rp_GrantsCreated r) (rp_SecretsCreated r).
Definition report0 : Report := mkReport 0 0 0 0 0 0.

(** ** Pure helpers *)
Definition permissionOf (g : Grant) (ref : string) : BPermission :=
  mkBPermission (grt_ResourceType g) ref (grt_SubjectType g) (grt_SubjectID g) (grt_Relation g) (grt_ExpiresAt g).
Definition publicIssuerSettings (row : Issuer) : Settings :=
  match sealed_Decode (iss_SettingsPublic row) with
  | Ok p => Public p issuerSecretFields
  | Err _ => ∅
  end.
(** The present fields, without empty strings. *)
Definition onlyFields (s : Settings) (fields : list string) : Settings :=
  foldl (fun out f => match s !! f with
                      | Some (AStr t) => if t =s "" then out else <[f := AStr t]> out
                      | Some v => <[f := v]> out
                      | None => out
                      end) ∅ fields.
(** [json.Unmarshal] into a [[]string]: null elements are left empty, any other
    value that is no string is an error. *)
Definition decodeSANs (b : bytes) : option (list string) :=
  if blen b =? 0 then None
  else match json_unmarshal (default "" b) with
  | Some (AList l) =>
    if forallb (fun v => match v with AStr _ | ANil => true | _ => false end) l
    then Some (as_string <$> l) else None
  | _ => None
  end.
Definition nonNilStrings (l : option (list string)) : list string := default [] l.

(** ** Reads *)
(** Every certificate of the tenant, page by page. *)
Fixpoint pageCertificates (fuel : nat) (list_ : CertificateFilter -> res (list IssuedCertificate))
  (f : CertificateFilter) (out : list IssuedCertificate) : res (list IssuedCertificate) :=
  match fuel with
  | O => Err ErrFuel
  | S fuel =>
    let? batch := list_ f in
    let out := out ++ batch in
    if (Z.of_nat (length batch) <? crf_Limit f) || (maxCerts <=? Z.of_nat (length out)) then Ok out
    else match list.last batch with
    | None => Ok out                               (* [batch] is a full page *)
    | Some c => pageCertificates fuel list_ (f <| crf_CursorTS := crt_CreatedAt c |> <| crf_CursorID := crt_ID c |>) out
    end
  end.

Section backup.
Context `{Env}.

Definition listAllCertificates (tenantID : string) (m : Mem) : res (list IssuedCertificate) :=
  pageCertificates (S (size (m_Certificates m))) (fun f => Mem_ListCertificates tenantID f m)
    (mkCertificateFilter "" "" "" 0 "" pageSize) [].

(** ** Credentials *)
Definition openIssuer (row : Issuer) : res Settings :=
  if blen (iss_SettingsSealed row) =? 0 then Ok ∅
  else let? clear := Open (iss_SettingsSealed row) (ADIssuer (iss_ID row)) in sealed_Decode (Some clear).
Definition openSecret (row : TenantSecret) : res string :=
  let? clear := Open (sec_ValueSealed row) (ADSecret (sec_ID row)) in
  let? value := sealed_Decode (Some clear) in
  match json_marshal (AMap (map_range value)) with Some b => Ok b | None => Err (Opaque "json: unsupported value") end.
Definition sealIssuer (id : string) (settings creds : Settings) : M (string * string) :=
  let full := creds ∪ settings in
  match sealed_Encode full with
  | Err _ => st_err (Wrapf "issuer settings" transfer_ErrInvalid)
  | Ok clear =>
    let* blob := Seal clear (ADIssuer id) in
    let* public := st_lift (sealed_Encode (Redact full issuerSecretFields)) in
    st_ret (blob, public)
  end.
Definition sealSecretValue (id value : string) : M string :=
  match sealed_Decode (Some value) with
  | Err _ => st_err (Wrapf "secret value" transfer_ErrInvalid)
  | Ok settings =>
    match sealed_Encode settings with
    | Err _ => st_err (Wrapf "secret value" transfer_ErrInvalid)
    | Ok clear => Seal clear (ADSecret id)
    end
  end.
Definition transfer_record (subj : Subjects) (evt : string) (details : list (string * any)) : M unit :=
  emit (mkEvent (sub_TenantID subj) evt (ActorKind subj) (ActorID subj) "backup" (sub_TenantID subj) "" "ok" "" "" details).

(** ** Export *)
Definition export_issuer (includeCredentials : bool) (i : Issuer) : res BIssuer :=
  let item := mkBIssuer (iss_Name i) (iss_Type i) (iss_TrustDomain i) (iss_IsDefault i) (publicIssuerSettings i) in
  if includeCredentials then
    let? full := openIssuer i in
    Ok (item (onlyFields full issuerSecretFields))
  else Ok (item ∅).
Definition export_certificate (names : gmap string string) (c : IssuedCertificate) : BCertificate :=
  mkBCertificate (crt_Serial c) (crt_SpiffeID c) (default "" (names !! crt_IssuerID c)) (crt_Subject c)
    (decodeSANs (crt_SANs c)) (crt_NotBefore c) (crt_NotAfter c) (crt_FingerprintSHA256 c) (crt_Status c)
    (crt_CertPEM c) (crt_ChainPEM c).
Definition export_grants (tenantID rt : string) (refs : list (string * string)) (m : Mem) : res (list BPermission) :=
  foldl (fun acc r => let? out := acc in
                      let? grants := Mem_GrantsOnResource tenantID rt r.1 m in
                      Ok (out ++ ((fun g => permissionOf g r.2) <$> grants))) (Ok []) refs.
Definition export_secret (row : TenantSecret) : res BSecret :=
  let? value := openSecret row in Ok (mkBSecret (sec_Name row) (sec_Kind row) value).
Fixpoint export_all {A B} (f : A -> res B) (l : list A) : res (list B) :=
  match l with
  | [] => Ok []
  | x :: l => let? y := f x in let? ys := export_all f l in Ok (y :: ys)
  end.
Definition Export (now : Z) (subj : Subjects) (includeCredentials : bool) : M Document :=
  let tenant := sub_TenantID subj in
  let* issuers := reading (Mem_ListIssuers tenant "" maxIssuers) in
  let* items := st_lift (export_all (export_issuer includeCredentials) issuers) in
  let* certs := reading (listAllCertificates tenant) in
  let names : gmap string string := list_to_map ((fun i => (iss_ID i, iss_Name i)) <$> reverse issuers) in
  let* p1 := reading (export_grants tenant IssuerType ((fun i => (iss_ID i, iss_Name i)) <$> issuers)) in
  let* p2 := reading (export_grants tenant Certificate ((fun c => (crt_ID c, crt_Serial c)) <$> certs)) in
  let* secrets := (if includeCredentials
                   then let* rows := reading (Mem_ListSecrets tenant) in st_lift (export_all export_secret rows)
                   else st_ret []) in
  let doc := mkDocument 1 now tenant includeCredentials items (export_certificate names <$> certs) (p1 ++ p2) secrets in
  let* _ := transfer_record subj (if includeCredentials then "backup_exported_with_credentials" else "backup_exported")
              [("issuers", AInt (Z.of_nat (length items))); ("certificates", AInt (Z.of_nat (length certs)));
               ("permissions", AInt (Z.of_nat (length (p1 ++ p2)))); ("credentials", ABool includeCredentials)] in
  st_ret doc.

(** ** Import *)
Definition actorPtr (subj : Subjects) : option string :=
  if ActorID subj =s "" then None else Some (ActorID subj).
Definition import_row (subj : Subjects) (di : BIssuer) (id blob public : string) : Issuer :=
  mkIssuer id (sub_TenantID subj) (bi_Name di) (bi_Type di) (bi_TrustDomain di) (bi_IsDefault di) None "" "" ""
    (Some public) (Some blob) true (actorPtr subj) (actorPtr subj) 0 0 0.
(** One issuer of the document. *)
Definition importIssuer (subj : Subjects) (mode : string) (di : BIssuer) (idByName : gmap string string) (rep : Report)
  : M (gmap string string * Report) :=
  match idByName !! ToLower (bi_Name di) with
  | Some existingID =>
    if mode =s "skip" then st_ret (idByName, rep <| rp_IssuersSkipped := rp_IssuersSkipped rep + 1 |>)
    else
      let* row := reading (Mem_GetIssuer (sub_TenantID subj) existingID) in
      let creds := if decide (bi_Credentials di = ∅)
                   then match openIssuer row with Ok full => onlyFields full issuerSecretFields | Err _ => ∅ end
                   else bi_Credentials di in
      let* (blob, public) := sealIssuer existingID (bi_Settings di) creds in
      let* _ := writing (Mem_UpdateIssuer
                  (row <| iss_Type := bi_Type di |> <| iss_TrustDomain := bi_TrustDomain di |>
                       <| iss_IsDefault := bi_IsDefault di |> <| iss_SettingsSealed := Some blob |>
                       <| iss_SettingsPublic := Some public |> <| iss_UpdatedBy := actorPtr subj |>)) in
      st_ret (idByName, rep <| rp_IssuersCreated := rp_IssuersCreated rep + 1 |>)
  | None =>
    let* id := newID in
    let* (blob, public) := sealIssuer id (bi_Settings di) (bi_Credentials di) in
    let* r := st_try (writing (Mem_InsertIssuer (import_row subj di id blob public))) in
    match r with
    | Ok _ => st_ret (<[ToLower (bi_Name di) := id]> idByName, rep <| rp_IssuersCreated := rp_IssuersCreated rep + 1 |>)
    | Err e => if is_conflict e then st_ret (idByName, rep <| rp_IssuersSkipped := rp_IssuersSkipped rep + 1 |>)
               else st_err e
    end
  end.
(** Steps a loop of an import over its items. *)
Fixpoint import_loop {A S} (step : A -> S -> Report -> M (S * Report)) (l : list A) (s : S) (rep : Report) : M (S * Report) :=
  match l with
  | [] => st_ret (s, rep)
  | x :: l => let* (s, rep) := step x s rep in import_loop step l s rep
  end.
Definition importIssuers (subj : Subjects) (doc : Document) (mode : string) (rep : Report)
  : M (gmap string string * Report) :=
  let* existing := reading (Mem_ListIssuers (sub_TenantID subj) "" maxIssuers) in
  import_loop (importIssuer subj mode) (doc_Issuers doc)
    (list_to_map ((fun i => (ToLower (iss_Name i), iss_ID i)) <$> reverse existing)) rep.

Definition import_certificate_row (subj : Subjects) (dc : BCertificate) (id issuerID : string) : IssuedCertificate :=
  {| crt_ID := id; crt_TenantID := sub_TenantID subj; crt_IssuerID := issuerID; crt_Kind := "";
     crt_RequestID := None; crt_Serial := bc_Serial dc; crt_SpiffeID := bc_SpiffeID dc; crt_Subject := bc_Subject dc;
     crt_SANs := Some (marshal_strings (Some (nonNilStrings (bc_SANs dc)))); crt_NotBefore := bc_NotBefore dc;
     crt_NotAfter := bc_NotAfter dc; crt_FingerprintSHA256 := bc_FingerprintSHA256 dc; crt_Status := bc_Status dc;
     crt_CertPEM := bc_CertPEM dc; crt_ChainPEM := bc_ChainPEM dc; crt_KeySealed := None; crt_KeyDelivered := false;
     crt_AutoRenew := false; crt_SupersededBy := None;
     crt_Owner := if bc_SpiffeID dc =s "" then ActorID subj else bc_SpiffeID dc;
     crt_CreatedBy := actorPtr subj; crt_UpdatedBy := actorPtr subj; crt_CreatedAt := 0; crt_UpdatedAt := 0 |}.
Definition importCertificate (subj : Subjects) (mode : string) (issuers : gmap string string) (dc : BCertificate)
  (idBySerial : gmap string string) (rep : Report) : M (gmap string string * Report) :=
  let skipped := (idBySerial, rep <| rp_CertificatesSkipped := rp_CertificatesSkipped rep + 1 |>) in
  match issuers !! ToLower (bc_Issuer dc) with
  | None => st_ret skipped
  | Some issuerID =>
    match idBySerial !! bc_Serial dc with
    | Some existingID =>
      if mode =s "skip" then st_ret skipped
      else
        let* row := reading (Mem_GetCertificate (sub_TenantID subj) existingID) in
        let* _ := writing (Mem_UpdateCertificate (row <| crt_Status := bc_Status dc |> <| crt_ChainPEM := bc_ChainPEM dc |>
                                                      <| crt_UpdatedBy := actorPtr subj |>)) in
        st_ret (idBySerial, rep <| rp_CertificatesCreated := rp_CertificatesCreated rep + 1 |>)
    | None =>
      let* id := newID in
      let* r := st_try (writing (Mem_InsertCertificate (import_certificate_row subj dc id issuerID))) in
      match r with
      | Ok _ => st_ret (<[bc_Serial dc := id]> idBySerial,
                        rep <| rp_CertificatesCreated := rp_CertificatesCreated rep + 1 |>)
      | Err e => if is_conflict e then st_ret skipped else st_err e
      end
    end
  end.
Definition importCertificates (subj : Subjects) (doc : Document) (mode : string) (issuers : gmap string string)
  (rep : Report) : M (gmap string string * Report) :=
  let* existing := reading (listAllCertificates (sub_TenantID subj)) in
  import_loop (importCertificate subj mode issuers) (doc_Certificates doc)
    (list_to_map ((fun c => (crt_Serial c, crt_ID c)) <$> reverse existing)) rep.

Definition importGrant (subj : Subjects) (issuers certs : gmap string string) (dp : BPermission) (u : unit) (rep : Report)
  : M (unit * Report) :=
  let resourceID := if bp_ResourceType dp =s IssuerType then default "" (issuers !! ToLower (bp_ResourceRef dp))
                    else if bp_ResourceType dp =s Certificate then default "" (certs !! bp_ResourceRef dp)
                    else "" in
  if resourceID =s "" then st_ret (tt, rep)
  else
    let* id := newID in
    let* _ := writing (Mem_UpsertGrant (mkGrant id (sub_TenantID subj) (bp_ResourceType dp) resourceID
                         (bp_SubjectType dp) (bp_SubjectID dp) (bp_Relation dp) (actorPtr subj) 0 (bp_ExpiresAt dp))) in
    st_ret (tt, rep <| rp_GrantsCreated := rp_GrantsCreated rep + 1 |>).
Definition importSecret (subj : Subjects) (mode : string) (ds : BSecret) (u : unit) (rep : Report) : M (unit * Report) :=
  let* found := st_try (reading (Mem_SecretByName (sub_TenantID subj) (bs_Name ds))) in
  match found with
  | Ok existing =>
    if mode =s "skip" then st_ret (tt, rep)
    else
      let* blob := sealSecretValue (sec_ID existing) (bs_Value ds) in
      let* _ := writing (Mem_UpdateSecret (existing <| sec_Kind := bs_Kind ds |> <| sec_ValueSealed := Some blob |>
                                                    <| sec_UpdatedBy := actorPtr subj |>)) in
      st_ret (tt, rep)
  | Err e =>
    if negb (is_not_found e) then st_err e
    else
      let* id := newID in
      let* blob := sealSecretValue id (bs_Value ds) in
      let* r := st_try (writing (Mem_InsertSecret (mkTenantSecret id (sub_TenantID subj) (bs_Name ds) (bs_Kind ds)
                                                     (Some blob) (actorPtr subj) (actorPtr subj) 0 0))) in
      match r with
      | Ok _ => st_ret (tt, rep <| rp_SecretsCreated := rp_SecretsCreated rep + 1 |>)
      | Err e => if is_conflict e then st_ret (tt, rep) else st_err e
      end
  end.
Definition import_all (subj : Subjects) (doc : Document) (mode : string) : M Report :=
  let* (issuers, rep) := importIssuers subj doc mode report0 in
  let* (certs, rep) := importCertificates subj doc mode issuers rep in
  let* (_, rep) := import_loop (importGrant subj issuers certs) (doc_Permissions doc) tt rep in
  let* (_, rep) := import_loop (importSecret subj mode) (doc_Secrets doc) tt rep in
  st_ret rep.
Definition too_many (doc : Document) : bool :=
  (maxIssuers <? Z.of_nat (length (doc_Issuers doc))) || (maxCerts <? Z.of_nat (length (doc_Certificates doc)))
  || (maxSecrets <? Z.of_nat (length (doc_Secrets doc))) || (maxGrants <? Z.of_nat (length (doc_Permissions doc))).
Definition Import (subj : Subjects) (doc : Document) (mode : string) : M Report :=
  if (mode <>s "skip") && (mode <>s "overwrite") then st_err transfer_ErrMode
  else if too_many doc then st_err (Wrapf "too many items" transfer_ErrInvalid)
  else
    let* rep := Atomic (import_all subj doc mode) in
    let* _ := transfer_record subj "backup_imported"
                [("mode", AStr mode); ("issuers_created", AInt (rp_IssuersCreated rep));
                 ("certificates_created", AInt (rp_CertificatesCreated rep)); ("grants_created", AInt (rp_GrantsCreated rep))] in
    st_ret rep.
End backup.

(** ** What an import may change *)
(** A table an import adds rows to: a row is written under the identifier it carries. *)
Class Imported `{Env} {X} (table : Mem -> gmap string X) (id_of : X -> string) : Prop := {
  imp_issuer free n0 n i : drawn n0 n (iss_ID i) -> changes table id_of free n0 n (writing (Mem_InsertIssuer i));
  imp_certificate free n0 n c :
    drawn n0 n (crt_ID c) -> changes table id_of free n0 n (writing (Mem_InsertCertificate c));
  imp_grant free n0 n g : changes table id_of free n0 n (writing (Mem_UpsertGrant g));
  imp_secret free n0 n s : drawn n0 n (sec_ID s) -> changes table id_of free n0 n (writing (Mem_InsertSecret s));
}.
(** The writes to other tables, and the one to this. *)
Ltac one_table :=
  intros; first
    [ apply changes_elsewhere; intros m; unfold fail_write; repeat case_match; simplify_eq/=; reflexivity
    | eapply changes_row; [|right; eassumption]; intros m; unfold fail_write; one_row ].
#[export] Instance imported_issuers `{Env} : Imported m_Issuers iss_ID.
Proof. split; unfold Mem_InsertIssuer, Mem_InsertCertificate, Mem_UpsertGrant, Mem_InsertSecret; one_table. Qed.
#[export] Instance imported_certificates `{Env} : Imported m_Certificates crt_ID.
Proof. split; unfold Mem_InsertIssuer, Mem_InsertCertificate, Mem_UpsertGrant, Mem_InsertSecret; one_table. Qed.
#[export] Instance imported_secrets `{Env} : Imported m_Secrets sec_ID.
Proof. split; unfold Mem_InsertIssuer, Mem_InsertCertificate, Mem_UpsertGrant, Mem_InsertSecret; one_table. Qed.

Section import_footprint.
Context `{Env} {X} (table : Mem -> gmap string X) (id_of : X -> string) `{!Imported table id_of}.
Context (free : string -> Prop) (n0 n : nat) (Hn : (n0 <= n)%nat).
Abbreviation untouched := (changes table id_of free n0 n).
Lemma changes_loop {A S} (step : A -> S -> Report -> M (S * Report)) l s rep :
  (forall x s rep, untouched (step x s rep)) -> untouched (import_loop step l s rep).
Proof.
  intros Hs. revert s rep. induction l as [|x l IH]; intros s rep; simpl; [apply changes_ret|].
  apply changes_bind; [apply Hs|]. intros [s' rep']. apply IH.
Qed.
Lemma changes_importIssuer subj di ids rep : untouched (importIssuer subj "skip" di ids rep).
Proof using All.
  unfold importIssuer, sealIssuer. case_match; [apply changes_ret|]. follow. apply imp_issuer. apply drawn_now. lia.
Qed.
Lemma changes_importCertificate subj issuers dc ids rep : untouched (importCertificate subj "skip" issuers dc ids rep).
Proof using All.
  unfold importCertificate. case_match; [|apply changes_ret]. case_match; [apply changes_ret|].
  follow. apply imp_certificate. apply drawn_now. lia.
Qed.
Lemma changes_importGrant subj issuers certs dp u rep : untouched (importGrant subj issuers certs dp u rep).
Proof using All. unfold importGrant. follow. apply imp_grant. Qed.
Lemma changes_importSecret subj ds u rep : untouched (importSecret subj "skip" ds u rep).
Proof using All.
  unfold importSecret, sealSecretValue. apply changes_bind; [follow|]. intros [existing|e]; [apply changes_ret|].
  follow. apply imp_secret. apply drawn_now. lia.
Qed.
Lemma changes_Import subj doc : untouched (Import subj doc "skip").
Proof using All.
  unfold Import. simpl. case_match; [apply changes_err|]. apply changes_bind; [|intros rep; unfold transfer_record; follow].
  apply changes_Atomic. unfold import_all, importIssuers, importCertificates. follow; apply changes_loop; intros;
    auto using changes_importIssuer, changes_importCertificate, changes_importGrant, changes_importSecret.
Qed.
End import_footprint.

(** ** The report *)
Section report.
Context `{Env}.
(** How many issuers and certificates of a document a report accounts for. *)
Definition seen (r : Report) : Z * Z :=
  (rp_IssuersCreated r + rp_IssuersSkipped r, rp_CertificatesCreated r + rp_CertificatesSkipped r).
Definition counts {S} (rep : Report) (ki kc : Z) (c : M (S * Report)) : Prop :=
  forall w s rep' w', c w = (Ok (s, rep'), w') -> seen rep' = ((seen rep).1 + ki, (seen rep).2 + kc).
Lemma counts_ret {S} rep ki kc (s : S) rep' :
  seen rep' = ((seen rep).1 + ki, (seen rep).2 + kc) -> counts rep ki kc (st_ret (s, rep')).
Proof. by intros Hr w s' r w' [= <- <- <-]. Qed.
Lemma counts_err {S} rep ki kc e : counts rep ki kc (st_err e : M (S * Report)).
Proof. by intros w s r w'. Qed.
Lemma counts_bind {A S} rep ki kc (c : M A) (k : A -> M (S * Report)) :
  (forall a, counts rep ki kc (k a)) -> counts rep ki kc (st_bind c k).
Proof. intros Hk w s r w' (a & w1 & _ & Hr)%st_bind_ok. by eapply Hk. Qed.
Ltac count :=
  repeat first
    [ apply counts_err | apply counts_ret; unfold seen; simpl; f_equal; lia | apply counts_bind; intros ?
    | lazymatch goal with |- counts _ _ _ (match ?x with _ => _ end) => destruct x end ].
Lemma counts_loop {A S} (step : A -> S -> Report -> M (S * Report)) ki kc l s rep :
  (forall x s rep, counts rep ki kc (step x s rep)) ->
  counts rep (ki * Z.of_nat (length l)) (kc * Z.of_nat (length l)) (import_loop step l s rep).
Proof.
  intros Hs. revert s rep. induction l as [|x l IH]; intros s rep.
  - apply counts_ret. simpl. rewrite !Z.mul_0_r, !Z.add_0_r. done.
  - intros w s' rep' w' ([s1 rep1] & w1 & H1 & H2)%st_bind_ok.
    rewrite (IH _ _ _ _ _ _ H2), (Hs _ _ _ _ _ _ _ H1). simpl. f_equal; lia.
Qed.
Lemma counts_importIssuer subj mode di ids rep : counts rep 1 0 (importIssuer subj mode di ids rep).
Proof. unfold importIssuer. count. Qed.
Lemma counts_importCertificate subj mode issuers dc ids rep :
  counts rep 0 1 (importCertificate subj mode issuers dc ids rep).
Proof. unfold importCertificate. count. Qed.
Lemma counts_importGrant subj issuers certs dp u rep : counts rep 0 0 (importGrant subj issuers certs dp u rep).
Proof. unfold importGrant. count. Qed.
Lemma counts_importSecret subj mode ds u rep : counts rep 0 0 (importSecret subj mode ds u rep).
Proof. unfold importSecret. count. Qed.
Lemma import_all_counts subj doc mode w rep w' :
  import_all subj doc mode w = (Ok rep, w') ->
  seen rep = (Z.of_nat (length (doc_Issuers doc)), Z.of_nat (length (doc_Certificates doc))).
Proof.
  unfold import_all, importIssuers, importCertificates. intros Hr.
  apply st_bind_ok in Hr as ([issuers r1] & w1 & (? & ? & _ & H1)%st_bind_ok & Hr).
  apply st_bind_ok in Hr as ([certs r2] & w2 & (? & ? & _ & H2)%st_bind_ok & Hr).
  apply st_bind_ok in Hr as ([[] r3] & w3 & H3 & Hr). apply st_bind_ok in Hr as ([[] r4] & w4 & H4 & Hr).
  apply st_ret_ok in Hr as [-> ->].
  apply (counts_loop _ 1 0) in H1; [|intros; apply counts_importIssuer].
  apply (counts_loop _ 0 1) in H2; [|intros; apply counts_importCertificate].
  apply (counts_loop _ 0 0) in H3; [|intros; apply counts_importGrant].
  apply (counts_loop _ 0 0) in H4; [|intros; apply counts_importSecret].
  rewrite H4, H3, H2, H1. simpl. f_equal; lia.
Qed.
End report.

Section import_claims.
Context `{Env}.
Lemma Atomic_undone {A} (fn : M A) w e w' : Atomic fn w = (Err e, w') -> tx_rollback = true -> wd_mem w' = wd_mem w.
Proof.
  unfold Atomic. intros Ha Ht. rewrite Ht in Ha. case_match; [by injection Ha as _ <-|].
  destruct (fn w) as [[] w1]; [done|]. by injection Ha as _ <-.
Qed.
(** Importing in skip mode never changes what is already there: whether the import
    succeeds or fails, every issuer, certificate and secret of the store except those under
    the identifiers the import itself draws stays exactly as it was.  When it succeeds,
    each issuer and each certificate of the document is counted exactly once, as created
    or as skipped, and when it fails and the store has transactions, the store is as
    before. *)
Theorem Import_skip_keeps subj doc w r w' :
  Import subj doc "skip" w = (r, w') ->
  (forall id, ~ drawn (wd_ids w) (wd_ids w') id ->
     m_Issuers (wd_mem w') !! id = m_Issuers (wd_mem w) !! id
     /\ m_Certificates (wd_mem w') !! id = m_Certificates (wd_mem w) !! id
     /\ m_Secrets (wd_mem w') !! id = m_Secrets (wd_mem w) !! id)
  /\ match r with
     | Ok rep => rp_IssuersCreated rep + rp_IssuersSkipped rep = Z.of_nat (length (doc_Issuers doc))
                 /\ rp_CertificatesCreated rep + rp_CertificatesSkipped rep = Z.of_nat (length (doc_Certificates doc))
     | Err _ => tx_rollback = true -> wd_mem w' = wd_mem w
     end.
Proof.
  intros Hr. split.
  - intros id Hd. assert (Hw : w' = (Import subj doc "skip" w).2) by (by rewrite Hr). rewrite Hw in *.
    pose proof (Nat.le_refl (wd_ids w)) as Hle.
    split_and!; (eapply (changes_Import _ _ (fun _ => False)); [exact Hle|exact Hle|by intros ?|exact Hd]).
  - destruct r as [rep|e].
    + unfold Import in Hr. simpl in Hr. destruct (too_many doc); [done|].
      apply st_bind_ok in Hr as (rep1 & w1 & Ha & Hr). repeat run_step Hr.
      apply Atomic_ok in Ha. apply import_all_counts in Ha. by injection Ha.
    + unfold Import in Hr. simpl in Hr. destruct (too_many doc); [by injection Hr as _ <-|].
      unfold st_bind in Hr. destruct (Atomic _ w) as [[rep|e'] w1] eqn:Ha; [done|].
      injection Hr as _ <-. by eapply Atomic_undone.
Qed.
End import_claims.

(** ** What an export holds *)
Section export_claims.
Context `{Env}.
(** The certificates of a tenant, newest first. *)
Definition tenant_certs (tid : string) (m : Mem) : list IssuedCertificate :=
  sortDesc crt_CreatedAt crt_ID (cpCertificate <$> filter (fun c => crt_TenantID c = tid) (map_range (m_Certificates m)).*2).
Definition every : CertificateFilter := mkCertificateFilter "" "" "" 0 "" pageSize.
Lemma selected_every tid m : selected_certs tid every m (0, "") = tenant_certs tid m.
Proof.
  unfold selected_certs, tenant_certs. f_equal. f_equal. apply list_filter_iff. intros c.
  unfold certificate_selected, beforeCursor, IsZero. simpl. rewrite !andb_true_r. split; intros; bools; [done|].
  by apply bool_decide_true.
Qed.
(** The loop over the pages collects every row from its cursor on. *)
Lemma pages_all tid f m fuel cur out :
  keyed crt_ID (m_Certificates m) -> dated m -> m_Fail m = ∅ -> 0 < crf_Limit f ->
  (length (selected_certs tid f m cur) < fuel)%nat ->
  Z.of_nat (length out + length (selected_certs tid f m cur)) <= maxCerts ->
  pageCertificates fuel (fun f => Mem_ListCertificates tid f m)
    (f <| crf_CursorTS := cur.1 |> <| crf_CursorID := cur.2 |>) out
  = Ok (out ++ selected_certs tid f m cur).
Proof.
  intros Hk Hd Hf Hlim. revert cur out. induction fuel as [|fuel IH]; intros cur out Hfuel Hmax; [lia|].
  cbn [pageCertificates]. unfold Mem_ListCertificates at 1, fail_read. rewrite Hf, lookup_empty.
  change (sortDesc crt_CreatedAt crt_ID _) with (selected_certs tid f m cur).
  change (crf_Limit (f <| crf_CursorTS := _ |> <| crf_CursorID := _ |>)) with (crf_Limit f). simpl.
  set (l := selected_certs tid f m cur) in *. set (n := crf_Limit f) in *.
  destruct (decide (Z.of_nat (length l) < n)) as [Hs|Hs].
  - assert (Hl : sqlLimit l n = l) by (unfold sqlLimit; repeat case_match; bools; [lia|lia|done]).
    rewrite Hl. by rewrite (proj2 (Z.ltb_lt _ _)) by lia.
  - assert (Hl : sqlLimit l n = take (Z.to_nat n) l).
    { unfold sqlLimit. repeat case_match; bools; [lia|done|]. by rewrite take_ge by lia. }
    rewrite Hl. rewrite length_app, length_take, Nat.min_l by lia.
    rewrite (proj2 (Z.ltb_ge _ _)) by lia.
    destruct (full_page l (Z.to_nat n)) as (pre & r & Hpre & Hlast); [lia|rewrite length_take; lia|].
    rewrite Hlast.
    assert (Hnext : selected_certs tid f m (cert_cursor r) = drop (Z.to_nat n) l) by (by eapply selected_next).
    assert (Hrest : length (drop (Z.to_nat n) l) = (length l - Z.to_nat n)%nat) by (by rewrite length_drop).
    cbn [orb]. case_match; bools.
    + assert (Hnil : drop (Z.to_nat n) l = []) by (apply nil_length_inv; lia).
      rewrite <- (take_drop (Z.to_nat n) l) at 2. by rewrite Hnil, app_nil_r.
    + etrans; [|rewrite <- (take_drop (Z.to_nat n) l), app_assoc, <- Hnext; apply (IH (cert_cursor r))].
      * done.
      * rewrite Hnext. lia.
      * rewrite Hnext, length_app, length_take. lia.
Qed.
Lemma listAllCertificates_all tid m :
  wf m -> dated m -> m_Fail m = ∅ -> Z.of_nat (length (tenant_certs tid m)) <= maxCerts ->
  listAllCertificates tid m = Ok (tenant_certs tid m).
Proof.
  intros Hwf Hd Hf Hm. unfold listAllCertificates. rewrite <- selected_every in *.
  apply (pages_all tid every m _ (0, "") []); [apply Hwf|done|done|done| |exact Hm].
  pose proof (length_selected tid every m (0, "")). lia.
Qed.
Lemma export_all_ok {A B} (f : A -> res B) g l : (forall x, f x = Ok (g x)) -> export_all f l = Ok (g <$> l).
Proof. intros Hf. induction l as [|x l IH]; simpl; [done|]. by rewrite Hf, IH. Qed.
Lemma export_grants_ok tid rt refs m : m_Fail m = ∅ -> exists ps, export_grants tid rt refs m = Ok ps.
Proof.
  intros Hf. unfold export_grants. generalize (@nil BPermission). induction refs as [|r refs IH]; intros out; [by exists out|].
  cbn [foldl]. unfold Mem_GrantsOnResource at 2, fail_read. rewrite Hf, lookup_empty. simpl. apply IH.
Qed.
(** The export of an issuer without its credentials. *)
Definition bare (i : Issuer) : BIssuer :=
  mkBIssuer (iss_Name i) (iss_Type i) (iss_TrustDomain i) (iss_IsDefault i) (publicIssuerSettings i) ∅.
Lemma publicIssuerSettings_clean i f : f ∈ issuerSecretFields -> publicIssuerSettings i !! f = None.
Proof.
  intros Hf. unfold publicIssuerSettings. case_match; [|apply lookup_empty].
  rewrite Public_lookup. by case_bool_decide.
Qed.

(** C33. A backup taken without credentials always succeeds on a store that answers, changes
    nothing, and discloses no secret: no secrets, no credentials and no secret field in
    any issuer's settings.  It is complete in certificates, whatever their number of
    pages: the certificates of the tenant, each once, newest first, up to the limit of a
    backup. *)
Theorem Export_clean now subj w :
  let m := wd_mem w in
  wf m -> dated m -> m_Fail m = ∅ -> Z.of_nat (length (tenant_certs (sub_TenantID subj) m)) <= maxCerts ->
  exists doc w', Export now subj false w = (Ok doc, w') /\ wd_mem w' = m
    /\ doc_Secrets doc = []
    /\ Forall (fun i => bi_Credentials i = ∅ /\ forall f, f ∈ issuerSecretFields -> bi_Settings i !! f = None)
         (doc_Issuers doc)
    /\ (fun c => (bc_Serial c, bc_CertPEM c, bc_Status c)) <$> doc_Certificates doc
       = (fun c => (crt_Serial c, crt_CertPEM c, crt_Status c)) <$> tenant_certs (sub_TenantID subj) m.
Proof.
  intros m Hwf Hd Hf Hmax. unfold Export, st_bind, reading. fold m.
  unfold Mem_ListIssuers, fail_read. rewrite Hf, lookup_empty.
  set (issuers := sqlLimit _ maxIssuers). unfold st_lift. rewrite (export_all_ok _ bare) by done.
  cbv beta iota zeta. fold m. rewrite (listAllCertificates_all _ _ Hwf Hd Hf Hmax). cbv beta iota zeta. fold m.
  edestruct (export_grants_ok (sub_TenantID subj) IssuerType) as [p1 Hp1]; [exact Hf|]. rewrite Hp1. cbv beta iota zeta.
  edestruct (export_grants_ok (sub_TenantID subj) Certificate) as [p2 Hp2]; [exact Hf|]. fold m. rewrite Hp2. cbv beta iota zeta.
  cbn [st_ret transfer_record emit]. eexists _, _. split; [reflexivity|]. simpl. split_and!; [done|done| |].
  - apply Forall_fmap, Forall_true. intros i. split; [done|]. by apply publicIssuerSettings_clean.
  - by rewrite <- list_fmap_compose.
Qed.
End export_claims.

(** ** Backups of a small tenant *)
Module BackupSample.
Import Toy IssueSample.
#[local] Existing Instance toy_env.
Definition ran {A} (d : A) (r : res A * World) : A * World := (match r.1 with Ok a => a | Err _ => d end, r.2).
Definition doc0 : Document := mkDocument 0 0 "" false [] [] [] [].
(** A tenant with a CA, an issuer and a certificate; its backup; an empty deployment. *)
Definition taken := ran doc0 (Export 20 admin true issued.2).
Definition bare_store : World := mkWorld (Mem_New 30) [] 0 0.
Definition restored := ran report0 (Import admin taken.1 "skip" bare_store).
Definition again := ran report0 (Import admin taken.1 "skip" restored.2).
Lemma Import_skip_keeps_witness :
  m_Issuers (wd_mem again.2) !! "id0" = m_Issuers (wd_mem restored.2) !! "id0"
  /\ rp_IssuersSkipped again.1 = 1 /\ rp_CertificatesSkipped again.1 = 1.
Proof.
  assert (Hr : Import admin taken.1 "skip" restored.2 = (Ok again.1, again.2)) by (vm_compute; reflexivity).
  destruct (Import_skip_keeps admin taken.1 restored.2 (Ok again.1) again.2 Hr) as [Hk [Hi Hc]].
  assert (Hn : ~ drawn (wd_ids restored.2) (wd_ids again.2) "id0").
  { intros (k & Hb & Hid). replace (wd_ids restored.2) with 3%nat in Hb by (vm_compute; reflexivity).
    replace (wd_ids again.2) with 4%nat in Hb by (vm_compute; reflexivity).
    assert (k = 3%nat) as -> by lia. vm_compute in Hid. discriminate. }
  split; [exact (proj1 (Hk _ Hn))|]. clear Hk Hn.
  assert (C1 : rp_IssuersCreated again.1 = 0) by (vm_compute; reflexivity).
  assert (C2 : rp_CertificatesCreated again.1 = 0) by (vm_compute; reflexivity).
  assert (L1 : length (doc_Issuers taken.1) = 1%nat) by (vm_compute; reflexivity).
  assert (L2 : length (doc_Certificates taken.1) = 1%nat) by (vm_compute; reflexivity).
  rewrite C1, L1 in Hi. rewrite C2, L2 in Hc. split; [exact Hi|exact Hc].
Defined.
Lemma Export_clean_witness :
  exists doc w', Export 200 admin false ListSample.shelf = (Ok doc, w') /\ doc_Secrets doc = []
    /\ bc_Serial <$> doc_Certificates doc = ["3"; "2"; "1"].
Proof.
  assert (Hl : Z.of_nat (length (tenant_certs (sub_TenantID admin) (wd_mem ListSample.shelf))) <= maxCerts)
    by (vm_compute; discriminate).
  destruct (Export_clean 200 admin ListSample.shelf ListSample.shelf_wf
              (fun k c Hk => proj1 (ListSample.shelf_rows k c Hk)) eq_refl Hl)
    as (doc & w' & Hr & _ & Hs & _ & Hc).
  exists doc, w'. split; [exact Hr|]. split; [exact Hs|]. apply (f_equal (fmap (fun t => t.1.1))) in Hc.
  rewrite <- !list_fmap_compose in Hc. etransitivity; [exact Hc|]. vm_compute. reflexivity.
Defined.

(** A restored signing authority has no CA: the backup names none and the import creates
    none, so the tenant's issuer accepts no issuance after a restore. *)
Example restored_cannot_sign :
  (Issue 10 admin web_request issued.2).1 <> Err (ValidationError "issue" "issuer_id" "issuer cannot sign certificates")
  /\ (Issue 40 admin web_request restored.2).1
     = Err (ValidationError "issue" "issuer_id" "issuer cannot sign certificates").
Proof. split; [vm_compute; discriminate|vm_compute; reflexivity]. Qed.
End BackupSample.
