(* ===== verification/Lists.v ===== *)
(** The pages of the console: internal/store/lists.go, internal/memstore/pages.go,
    internal/issue/lists.go, internal/enroll/lists.go and the pages of
    internal/secrets.  Sorting and cutting are those of the library listquery. *)

From S2P Require Import Prelude Rows Memstore MemstoreInv MemstoreList Paging Authz GoJson GoUrl AuditLog.
From S2P Require Import Csr Sealed World Ca IssueBase Domains Providers Issuers Acme Lifecycle CertList Enroll Secrets.

(** ** The library listquery *)
Record Field := mkField { fd_Expr : string; fd_Text : bool; fd_DefaultDir : string; fd_NotNull : bool }.
Record Spec := mkSpec {
  spc_Fields : list (string * Field); spc_Default : string; spc_TieBreak : string; spc_DefaultSize : Z;
}.
Record ListReq := mkListReq { lr_Page : Z; lr_PageSize : Z; lr_Sort : string; lr_Order : string }.
(** What a row is sorted by: the values the sort functions return as [any]. *)
Inductive SortKey := KNil | KText (s : string) | KTime (t : Z) | KInt (n : Z).
Class ListQuery := {
  Desc : string;
  listquery_New : Z -> Z -> string -> string -> Spec -> res ListReq;
  SortSlice {A} : list A -> ListReq -> (A -> string -> SortKey) -> (A -> string) -> list A;
  Window {A} : list A -> ListReq -> list A * Z * ListReq;
  ListPage : Type -> Type;
  NewPage {A} : list A -> Z -> ListReq -> ListPage A;
}.
(** Sorting permutes; a window is a consecutive piece, given with the number of rows. *)
Class ListQueryLaws `{ListQuery} : Prop := {
  SortSlice_perm {A} (l : list A) req key tie : SortSlice l req key tie ≡ₚ l;
  Window_piece {A} (l : list A) req page total applied :
    Window l req = (page, total, applied) ->
    total = Z.of_nat (length l) /\ exists pre post, l = pre ++ page ++ post;
}.

(** ** internal/store/lists.go *)
Definition field (expr : string) : Field := mkField expr false "" true.
Definition text_field (expr : string) (notnull : bool) : Field := mkField expr true "" notnull.
Definition AuditWindow : Z := 7 * 24 * 3600000000000.
Definition MaxAuditSpan : Z := 90 * 24 * 3600000000000.
Definition CertIdentityExpr : string := "COALESCE(c.spiffe_id, c.sans->>0, NULLIF(c.subject, ''))".
Definition CertificateIssuerJoin : string :=
  " LEFT JOIN issuers i ON i.tenant_id = c.tenant_id AND i.id = c.issuer_id".
Record CertificatePageFilter := mkCertificatePageFilter {
  cpf_IssuerID : string; cpf_SpiffeID : string; cpf_Status : string; cpf_Visible : Visible;
}.
Record AuditPageFilter := mkAuditPageFilter {
  apf_EventType : string; apf_ActorID : string; apf_From : Z; apf_To : Z;
}.

Section specs.
Context `{ListQuery}.
Definition desc_field (expr : string) : Field := mkField expr false Desc true.
Definition certificateList (issuerExpr : string) (byName : bool) : Spec :=
  mkSpec [("identity", text_field CertIdentityExpr false);
          ("issuer", mkField issuerExpr byName "" (negb byName));
          ("kind", field "c.kind"); ("status", field "c.status");
          ("not_before", desc_field "c.not_before"); ("not_after", field "c.not_after");
          ("created_at", desc_field "c.created_at")] "created_at" "c.id" 0.
Definition CertificateList : Spec := certificateList "i.name" true.
Definition CertificateListRestricted : Spec := certificateList "c.issuer_id" false.
Definition CertificateListFor (v : Visible) : Spec :=
  if vis_All v then CertificateList else CertificateListRestricted.
Definition IssuerList : Spec :=
  mkSpec [("name", text_field "i.name" true); ("type", field "i.type"); ("trust_domain", field "i.trust_domain");
          ("created_at", desc_field "i.created_at")] "name" "i.id" 0.
Definition RequestList : Spec :=
  mkSpec [("identity", text_field "COALESCE(r.spiffe_id, r.sans->>0)" false); ("kind", field "r.kind");
          ("status", field "r.status"); ("created_at", desc_field "r.created_at")] "created_at" "r.id" 0.
Definition JobList : Spec :=
  mkSpec [("type", field "j.type"); ("status", field "j.status"); ("attempts", desc_field "j.attempts");
          ("run_after", desc_field "j.run_after"); ("created_at", desc_field "j.created_at")] "created_at" "j.id" 0.
Definition SecretList : Spec :=
  mkSpec [("name", text_field "s.name" true); ("kind", field "s.kind");
          ("created_at", desc_field "s.created_at")] "name" "s.id" 0.
Definition WebhookList : Spec :=
  mkSpec [("name", text_field "w.name" true); ("created_at", desc_field "w.created_at")] "name" "w.id" 0.
Definition AuditList : Spec := mkSpec [("ts", desc_field "a.ts")] "ts" "a.id" 50.

(** The error of the second call is ignored: its result is then the zero request. *)
Definition ListRequest (r : ListReq) (s : Spec) : ListReq :=
  match listquery_New (lr_Page r) (lr_PageSize r) (lr_Sort r) (lr_Order r) s with
  | Ok out => out
  | Err _ => match listquery_New 0 0 "" "" s with Ok out => out | Err _ => mkListReq 0 0 "" "" end
  end.
End specs.

(** ** internal/memstore/pages.go *)
Definition visible (v : Visible) (id : string) : bool := vis_All v || contains (vis_IDs v) id.
(** [json.Unmarshal] leaves elements that are no strings empty. *)
Definition firstSAN (raw : bytes) : string :=
  if 0 <? blen raw then default "" (unmarshal_strings (default "" raw) ≫= head) else "".
Definition textOrNil (v : string) : SortKey := if v =s "" then KNil else KText v.
(** The expression ^spiffe://[a-z0-9.-]+/[^?#]+$. *)
Definition spiffeShape (s : string) : bool :=
  match strip_prefix "spiffe://" s with
  | None => false
  | Some rest =>
    match cut 47 rest with
    | (host, Some path) => (host <>s "") && string_forallb trust_domain_byte host
                           && (path <>s "") && lacks 63 path && lacks 35 path
    | (_, None) => false
    end
  end.
Definition requestIssuerReadable (s : RequestScope) (r : CertificateRequest) : bool :=
  if strp (req_IssuerID r) <>s "" then rsc_AllPinned s || contains (rsc_Issuers s) (strp (req_IssuerID r))
  else if negb (spiffeShape (req_SpiffeID r)) then false
  else match split_byte 47 (req_SpiffeID r) !! 2%nat with
       | Some td => contains (rsc_DefaultDomains s) td
       | None => false
       end.

Section pages.
Context `{Env} `{ListQuery} `{Enrolling}.
Definition window {A} (items : list A) (spec : Spec) (req : ListReq) (key : A -> string -> SortKey) (tie : A -> string)
  : list A * Z * ListReq :=
  let req := ListRequest req spec in
  Window (SortSlice items req key tie) req.

Definition first_text (l : list string) : SortKey :=
  match filter (fun v => v <>s "" = true) l with v :: _ => KText v | [] => KNil end.
Definition certificate_key (m : Mem) (tid : string) (all : bool) (c : IssuedCertificate) (field : string) : SortKey :=
  if field =s "identity" then first_text [crt_SpiffeID c; firstSAN (crt_SANs c); crt_Subject c]
  else if field =s "issuer" then
    if negb all then KText (crt_IssuerID c)
    else match m_Issuers m !! crt_IssuerID c with
         | Some i => if iss_TenantID i =s tid then KText (iss_Name i) else KNil
         | None => KNil
         end
  else if field =s "kind" then KText (crt_Kind c)
  else if field =s "status" then KText (crt_Status c)
  else if field =s "not_before" then KTime (crt_NotBefore c)
  else if field =s "not_after" then KTime (crt_NotAfter c)
  else KTime (crt_CreatedAt c).
Definition certificate_on_page (tid : string) (f : CertificatePageFilter) (c : IssuedCertificate) : bool :=
  negb ((crt_TenantID c <>s tid) || ((cpf_IssuerID f <>s "") && negb (EqualFold (crt_IssuerID c) (cpf_IssuerID f)))
        || ((cpf_SpiffeID f <>s "") && (crt_SpiffeID c <>s cpf_SpiffeID f))
        || ((cpf_Status f <>s "") && (crt_Status c <>s cpf_Status f)) || negb (visible (cpf_Visible f) (crt_ID c))).
Definition Mem_PageCertificates (tid : string) (f : CertificatePageFilter) (req : ListReq) (m : Mem)
  : res (list IssuedCertificate * Z * ListReq) :=
  fail_read "PageCertificates" m
  (let out := cpCertificate <$> filter (fun c => certificate_on_page tid f c = true) (map_range (m_Certificates m)).*2 in
   Ok (window out (CertificateListFor (cpf_Visible f)) req (certificate_key m tid (vis_All (cpf_Visible f))) crt_ID)).

Definition issuer_key (i : Issuer) (field : string) : SortKey :=
  if field =s "type" then KText (iss_Type i)
  else if field =s "trust_domain" then KText (iss_TrustDomain i)
  else if field =s "created_at" then KTime (iss_CreatedAt i)
  else KText (iss_Name i).
Definition Mem_PageIssuers (tid : string) (v : Visible) (req : ListReq) (m : Mem) : res (list Issuer * Z * ListReq) :=
  fail_read "PageIssuers" m
  (let out := listedIssuer m <$> filter (fun i => (iss_TenantID i =s tid) && visible v (iss_ID i) = true)
                                        (map_range (m_Issuers m)).*2 in
   Ok (window out IssuerList req issuer_key iss_ID)).

Definition request_key (r : CertificateRequest) (field : string) : SortKey :=
  if field =s "identity" then
    if req_SpiffeID r <>s "" then KText (req_SpiffeID r) else textOrNil (firstSAN (req_SANs r))
  else if field =s "kind" then KText (req_Kind r)
  else if field =s "status" then KText (req_Status r)
  else KTime (req_CreatedAt r).
Definition request_on_page (tid status : string) (s : RequestScope) (r : CertificateRequest) : bool :=
  (req_TenantID r =s tid) && ((status =s "") || (req_Status r =s status))
  && (((rsc_Actor s <>s "") && (req_RequestedBy r =s rsc_Actor s)) || requestIssuerReadable s r).
Definition Mem_PageRequests (tid status : string) (s : RequestScope) (req : ListReq) (m : Mem)
  : res (list CertificateRequest * Z * ListReq) :=
  fail_read "PageRequests" m
  (let out := cpRequest <$> filter (fun r => request_on_page tid status s r = true) (map_range (m_Requests m)).*2 in
   Ok (window out RequestList req request_key req_ID)).

Definition job_key (j : CertificateJob) (field : string) : SortKey :=
  if field =s "type" then KText (job_Type j)
  else if field =s "status" then KText (job_Status j)
  else if field =s "attempts" then KInt (job_Attempts j)
  else if field =s "run_after" then KTime (job_RunAfter j)
  else KTime (job_CreatedAt j).
Definition job_on_page (m : Mem) (tid status : string) (s : RequestScope) (j : CertificateJob) : bool :=
  (job_TenantID j =s tid) && ((status =s "") || (job_Status j =s status))
  && (rsc_AllJobs s
      || match m_Requests m !! job_RequestID j with
         | Some r => (req_TenantID r =s tid)
                     && requestIssuerReadable (mkRequestScope "" false (rsc_Issuers s) (rsc_DefaultDomains s) false) r
         | None => false
         end).
Definition Mem_PageJobs (tid status : string) (s : RequestScope) (req : ListReq) (m : Mem)
  : res (list CertificateJob * Z * ListReq) :=
  fail_read "PageJobs" m
  (Ok (window (filter (fun j => job_on_page m tid status s j = true) (map_range (m_Jobs m)).*2) JobList req job_key job_ID)).

(** A listing never reads the sealed value. *)
Definition secret_key (s : TenantSecret) (field : string) : SortKey :=
  if field =s "kind" then KText (sec_Kind s)
  else if field =s "created_at" then KTime (sec_CreatedAt s)
  else KText (sec_Name s).
Definition Mem_PageSecrets (tid : string) (req : ListReq) (m : Mem) : res (list TenantSecret * Z * ListReq) :=
  fail_read "PageSecrets" m
  (let out := (fun s => s <| sec_ValueSealed := None |>)
                <$> filter (fun s => sec_TenantID s =s tid = true) (map_range (m_Secrets m)).*2 in
   Ok (window out SecretList req secret_key sec_ID)).

Definition webhook_key (w : WebhookEndpoint) (field : string) : SortKey :=
  if field =s "created_at" then KTime (whk_CreatedAt w) else KText (whk_Name w).
Definition Mem_PageWebhooks (tid : string) (req : ListReq) (m : Mem) : res (list WebhookEndpoint * Z * ListReq) :=
  fail_read "PageWebhooks" m
  (let out := cpWebhook <$> filter (fun w => whk_TenantID w =s tid = true) (map_range (m_Webhooks m)).*2 in
   Ok (window out WebhookList req webhook_key whk_ID)).

(** [fmt.Sprintf("%020d", id)] of a row number, which is positive. *)
Definition padded (n : Z) : string :=
  let d := FormatInt n in foldr (fun _ s => "0" +:+ s) d (seq 0 (20 - String.length d)).
Definition audit_on_page (tid : string) (f : AuditPageFilter) (r : AuditRow) : bool :=
  negb ((aud_TenantID r <>s tid) || ((apf_EventType f <>s "") && (aud_EventType r <>s apf_EventType f))
        || ((apf_ActorID f <>s "") && (aud_ActorID r <>s apf_ActorID f))
        || Before (aud_TS r) (apf_From f) || After (aud_TS r) (apf_To f)).
Definition Mem_PageAudit (tid : string) (f : AuditPageFilter) (req : ListReq) (m : Mem) : res (list AuditRow * Z * ListReq) :=
  fail_read "PageAudit" m
  (let out := (fun r => cpAudit r <| aud_SubjectName := subjectName m tid r |>)
                <$> filter (fun r => audit_on_page tid f r = true) (m_Audit m) in
   Ok (window out AuditList req (fun r _ => KTime (aud_TS r)) (fun r => padded (aud_ID r)))).

(** ** internal/issue/lists.go *)
Definition sort_Strings (l : list string) : list string := sort_slice str_ltb l.
Definition Readable (now : Z) (subj : Subjects) (resourceType : string) (m : Mem) : res Visible :=
  let? (ids, all) := authz_ListAccessibleIDs now subj resourceType m in
  if all then Ok (mkVisible true []) else Ok (mkVisible false (sort_Strings (elements ids))).
(** The views of the rows of a page, with the caller's permissions on each. *)
Fixpoint page_views {A B} (now : Z) (subj : Subjects) (rt : string) (id : A -> string) (view : A -> Permissions -> B)
  (m : Mem) (rows : list A) : res (list B) :=
  match rows with
  | [] => Ok []
  | row :: rows =>
    let? (perms, _, _) := authz_Effective now subj rt (id row) m in
    let? out := page_views now subj rt id view m rows in
    Ok (view row perms :: out)
  end.
Definition PageCertificates (now : Z) (subj : Subjects) (issuerID spiffeID status : string) (req : ListReq)
  : M (ListPage CertificateView) :=
  let* vis := reading (Readable now subj Certificate) in
  let* (rows, total, applied) := reading (Mem_PageCertificates (sub_TenantID subj)
                                    (mkCertificatePageFilter issuerID spiffeID status vis) req) in
  let* out := reading (fun m => page_views now subj Certificate crt_ID (certView now) m rows) in
  st_ret (NewPage out total applied).
Definition PageIssuers (now : Z) (subj : Subjects) (req : ListReq) : M (ListPage IssuerView) :=
  let* vis := reading (Readable now subj IssuerType) in
  let* (rows, total, applied) := reading (Mem_PageIssuers (sub_TenantID subj) vis req) in
  let* out := reading (fun m => page_views now subj IssuerType iss_ID issuerView m rows) in
  st_ret (NewPage out total applied).

(** ** internal/enroll/lists.go *)
Definition issuerPageSize : Z := 200.
(** The trust domains whose default issuer the caller may read, page by page. *)
Fixpoint default_domains (fuel : nat) (tid : string) (ids : gset string) (all : bool) (m : Mem) (after : string)
  (out : list string) : res (list string) :=
  match fuel with
  | O => Err ErrFuel
  | S fuel =>
    let? page := Mem_ListIssuers tid after issuerPageSize m in
    let out := out ++ (iss_TrustDomain <$> filter (fun i => iss_IsDefault i && (all || bool_decide (iss_ID i ∈ ids)) = true) page) in
    if Z.of_nat (length page) <? issuerPageSize then Ok out
    else default_domains fuel tid ids all m (last_or iss_Name page) out
  end.
Definition scope (now : Z) (subj : Subjects) (m : Mem) : res RequestScope :=
  let? (ids, all) := authz_ListAccessibleIDs now subj IssuerType m in
  let? domains := default_domains (S (size (m_Issuers m))) (sub_TenantID subj) ids all m "" [] in
  Ok (mkRequestScope (ActorID subj) all (if all then [] else sort_Strings (elements ids)) (sort_Strings domains) all).
Definition PageRequests (now : Z) (subj : Subjects) (status : string) (req : ListReq) : M (ListPage RequestView) :=
  let* sc := reading (scope now subj) in
  let* (rows, total, applied) := reading (Mem_PageRequests (sub_TenantID subj) status sc req) in
  st_ret (NewPage (requestView <$> rows) total applied).
Definition PageJobs (now : Z) (subj : Subjects) (status : string) (req : ListReq) : M (ListPage JobView) :=
  let* sc := reading (scope now subj) in
  let sc := mkRequestScope "" (rsc_AllPinned sc) (rsc_Issuers sc) (rsc_DefaultDomains sc) (rsc_AllJobs sc) in
  let* (rows, total, applied) := reading (Mem_PageJobs (sub_TenantID subj) status sc req) in
  st_ret (NewPage (jobView <$> rows) total applied).

(** ** The page of internal/secrets *)
Definition secret_Page (subj : Subjects) (req : ListReq) : M (ListPage SecretView) :=
  let* (rows, total, applied) := reading (Mem_PageSecrets (sub_TenantID subj) req) in
  st_ret (NewPage (secret_view <$> rows) total applied).
End pages.
