(* ===== verification/ListScope.v ===== *)
(** What the pages of Lists.v hold: exactly what the caller may read one by one. *)

From S2P Require Import Prelude Rows Memstore MemstoreInv MemstoreList Paging Authz GoJson GoUrl AuditLog.
From S2P Require Import Csr Sealed World Ca IssueBase Domains Providers Issuers Acme Lifecycle CertList Enroll Secrets Lists.

(** ** Sorting by name *)
Lemma str_ltb_asym a b : str_ltb a b = true -> str_ltb b a = false.
Proof. rewrite !str_ltb_leb. destruct (String.leb_total a b) as [->| ->]; [by intros _|done]. Qed.
Lemma str_ltb_trans a b c : str_ltb a b = true -> str_ltb b c = true -> str_ltb a c = true.
Proof.
  rewrite !str_ltb_leb, !negb_true_iff. intros H1 H2. destruct (String.leb c a) eqn:E; [|done].
  destruct (String.leb_total b c) as [Hb|Hb]; [|congruence]. by rewrite (str_leb_trans b c a Hb E) in H1.
Qed.
Lemma str_ltb_empty s : s <> "" -> str_ltb "" s = true.
Proof. by destruct s. Qed.
Section by_name.
Context `{GoRuntime} {A : Type} (name id : A -> string).
Definition name_less (a b : A) : bool :=
  if ToLower (name a) <>s ToLower (name b) then str_ltb (ToLower (name a)) (ToLower (name b)) else str_ltb (id a) (id b).
Lemma name_less_spec x y :
  name_less y x = false <-> (ToLower (name x) <> ToLower (name y) /\ String.leb (ToLower (name x)) (ToLower (name y)) = true)
                            \/ (ToLower (name x) = ToLower (name y) /\ String.leb (id x) (id y) = true).
Proof.
  unfold name_less. destruct (_ <>s _) eqn:E; bools; rewrite str_leb_ltb_false; [naive_solver|].
  rewrite E. naive_solver.
Qed.
Lemma name_less_asym x y : name_less x y = true -> name_less y x = false.
Proof.
  unfold name_less. destruct (ToLower (name x) <>s ToLower (name y)) eqn:E; bools.
  - rewrite (proj2 (negb_true_iff _)) by (by apply str_eqb_neq). apply str_ltb_asym.
  - rewrite E, str_eqb_refl. apply str_ltb_asym.
Qed.
Lemma name_leq_trans x y z : leq name_less x y -> leq name_less y z -> leq name_less x z.
Proof.
  unfold leq. rewrite !name_less_spec. intros [[N1 L1]|[N1 L1]] [[N2 L2]|[N2 L2]].
  - left. split; [|by eapply str_leb_trans]. intros E. apply N1. rewrite E in *. by apply String.leb_antisym.
  - left. by rewrite <- N2.
  - left. by rewrite N1.
  - right. split; [congruence|]. by eapply str_leb_trans.
Qed.
End by_name.

(** ** The scan of the issuers *)
Section scan.
Context `{GoRuntime}.
(** The issuers of a tenant after a name, in the order of their names. *)
Definition issuers_after (tid : string) (m : Mem) (after : string) : list Issuer :=
  sortByNameID iss_Name iss_ID (listedIssuer m <$>
    filter (fun i => (iss_TenantID i =s tid) && str_ltb (ToLower after) (ToLower (iss_Name i)) = true)
           (map_range (m_Issuers m)).*2).
Lemma issuers_after_elem tid m after i :
  i ∈ issuers_after tid m after <->
  exists k x, m_Issuers m !! k = Some x /\ i = listedIssuer m x /\ iss_TenantID x = tid
    /\ str_ltb (ToLower after) (ToLower (iss_Name x)) = true.
Proof.
  unfold issuers_after, sortByNameID. rewrite elem_of_sort_slice, list_elem_of_fmap.
  setoid_rewrite list_elem_of_filter. setoid_rewrite list_elem_of_fmap. split.
  - intros (x & -> & Hs & ([k y] & -> & Hy%elem_of_map_range)). bools. naive_solver.
  - intros (k & x & Hx & -> & Ht & Hs). exists x. split; [done|]. split.
    + rewrite Hs, andb_true_r. by apply str_eqb_eq.
    + exists (k, x). split; [done|]. by apply elem_of_map_range.
Qed.
Lemma issuers_next tid m after pre r post :
  keyed iss_ID (m_Issuers m) -> uniq (same_name iss_TenantID iss_Name) (m_Issuers m) ->
  issuers_after tid m after = pre ++ r :: post -> issuers_after tid m (iss_Name r) = post.
Proof.
  intros Hk Hu Hs. set (rows := listedIssuer m <$> filter (fun i => iss_TenantID i = tid) (map_range (m_Issuers m)).*2).
  set (sel := fun after i => str_ltb (ToLower after) (ToLower (iss_Name i))).
  assert (Heq : forall after, issuers_after tid m after
            = sort_slice (name_less iss_Name iss_ID) (filter (fun i => sel after i = true) rows)).
  { intros a. unfold issuers_after, rows. rewrite <- (fmap_filter (listedIssuer m) (sel a) (sel a)) by done.
    rewrite list_filter_filter. unfold sortByNameID. f_equal. f_equal. apply list_filter_iff. intros i.
    unfold sel. rewrite andb_true_iff, str_eqb_eq. naive_solver. }
  assert (Hrow : forall i, i ∈ rows -> exists k x, m_Issuers m !! k = Some x /\ i = listedIssuer m x /\ iss_TenantID x = tid).
  { intros i Hi. apply list_elem_of_fmap in Hi as (x & -> & Hx). apply list_elem_of_filter in Hx as [Ht Hx].
    apply list_elem_of_fmap in Hx as ([k y] & -> & Hy%elem_of_map_range). eauto. }
  assert (Hsame : forall x y, x ∈ rows -> y ∈ rows -> ToLower (iss_Name x) = ToLower (iss_Name y) -> x = y).
  { intros x y (k1 & x1 & H1 & -> & T1)%Hrow (k2 & y1 & H2 & -> & T2)%Hrow Hn.
    assert (k1 = k2) as -> by (apply (Hu k1 k2 x1 y1 H1 H2); split; [congruence|done]). congruence. }
  rewrite Heq in Hs |- *. eapply sorted_next; [apply name_less_asym|apply name_leq_trans|..|exact Hs].
  - apply (NoDup_fmap_1 iss_ID). unfold rows. rewrite <- list_fmap_compose.
    apply (NoDup_fmap_filter iss_ID). by apply (map_range_ids iss_ID).
  - intros x y Hx Hy. unfold leq. rewrite !name_less_spec. intros Hxy Hyx. apply Hsame; [done|done|].
    destruct Hxy as [[_ Hxy]|[? _]]; [|done]. destruct Hyx as [[_ Hyx]|[? _]]; [|done]. by apply String.leb_antisym.
  - assert (Hin : r ∈ pre ++ r :: post) by set_solver.
    rewrite <- Hs, elem_of_sort_slice in Hin. apply list_elem_of_filter in Hin as [Hra Hr].
    intros x Hx. unfold sel, name_less in *. split.
    + intros Hrx. rewrite Hrx. assert (Hne : ToLower (iss_Name r) <> ToLower (iss_Name x))
        by (intros E; by rewrite E, str_ltb_irrefl in Hrx).
      rewrite (proj2 (str_eqb_neq _ _) Hne). split; [by eapply str_ltb_trans|done].
    + intros [_ Hless]. destruct (_ <>s _) eqn:E; [done|]. bools. rewrite (Hsame r x Hr Hx E) in Hless.
      by rewrite str_ltb_irrefl in Hless.
Qed.
(** Every issuer of the tenant has a name, as the service demands on creation. *)
Definition named (m : Mem) : Prop := forall k i, m_Issuers m !! k = Some i -> ToLower (iss_Name i) <> "".
Lemma length_issuers_after tid m after : (length (issuers_after tid m after) <= size (m_Issuers m))%nat.
Proof.
  unfold issuers_after, sortByNameID. rewrite sort_slice_perm, length_fmap.
  etrans; [apply length_filter|]. rewrite length_fmap, map_range_perm. by rewrite length_map_to_list.
Qed.
End scan.

Section scope_proofs.
Context `{Env}.
(** Which default issuers count. *)
Definition counted (ids : gset string) (all : bool) (i : Issuer) : bool :=
  iss_IsDefault i && (all || bool_decide (iss_ID i ∈ ids)).
Lemma default_domains_all tid ids all m fuel after out :
  wf m -> m_Fail m = ∅ -> (length (issuers_after tid m after) < fuel)%nat ->
  default_domains fuel tid ids all m after out
  = Ok (out ++ (iss_TrustDomain <$> filter (fun i => counted ids all i = true) (issuers_after tid m after))).
Proof.
  intros Hwf Hf. revert after out. induction fuel as [|fuel IH]; intros after out Hfuel; [lia|].
  cbn [default_domains]. unfold Mem_ListIssuers, fail_read. rewrite Hf, lookup_empty.
  change (sortByNameID iss_Name iss_ID _) with (issuers_after tid m after). simpl.
  set (l := issuers_after tid m after) in *. set (n := issuerPageSize) in *.
  assert (Hn : 0 < n) by done.
  destruct (decide (Z.of_nat (length l) < n)) as [Hs|Hs].
  - assert (Hl : sqlLimit l n = l) by (unfold sqlLimit; repeat case_match; bools; [lia|lia|done]).
    rewrite Hl. by rewrite (proj2 (Z.ltb_lt _ _)) by lia.
  - assert (Hl : sqlLimit l n = take (Z.to_nat n) l).
    { unfold sqlLimit. repeat case_match; bools; [lia|done|]. by rewrite take_ge by lia. }
    rewrite Hl. rewrite length_take, Nat.min_l by lia. rewrite (proj2 (Z.ltb_ge _ _)) by lia.
    destruct (full_page l (Z.to_nat n)) as (pre & r & Hpre & Hlast); [lia|rewrite length_take; lia|].
    unfold last_or. rewrite Hlast.
    assert (Hnext : issuers_after tid m (iss_Name r) = drop (Z.to_nat n) l)
      by (eapply issuers_next; [apply Hwf|apply Hwf|exact Hpre]).
    rewrite IH by (rewrite Hnext, length_drop; lia). rewrite Hnext, <- app_assoc, <- fmap_app, <- filter_app.
    by rewrite take_drop.
Qed.
Lemma default_domains_elem tid ids all m td :
  wf m -> m_Fail m = ∅ -> named m ->
  exists domains, default_domains (S (size (m_Issuers m))) tid ids all m "" [] = Ok domains
    /\ (td ∈ domains <-> exists k x, m_Issuers m !! k = Some x /\ iss_TenantID x = tid /\ iss_TrustDomain x = td
                         /\ iss_IsDefault x = true /\ all || bool_decide (k ∈ ids) = true).
Proof.
  intros Hwf Hf Hnm. eexists. split.
  { apply default_domains_all; [done|done|]. pose proof (length_issuers_after tid m ""). lia. }
  rewrite app_nil_l, list_elem_of_fmap. setoid_rewrite list_elem_of_filter. setoid_rewrite issuers_after_elem.
  unfold counted. setoid_rewrite andb_true_iff. split.
  - intros (i & -> & [Hd Ha] & (k & x & Hx & -> & Ht & _)). exists k, x. simpl in *.
    by rewrite (wf_issuers _ Hwf _ _ Hx) in Ha.
  - intros (k & x & Hx & Ht & <- & Hd & Ha). exists (listedIssuer m x). simpl.
    rewrite (wf_issuers _ Hwf _ _ Hx). split_and!; [done|done|done|]. exists k, x. split_and!; [done..|].
    apply str_ltb_empty. by eapply Hnm.
Qed.

(** On a store that answers, the listing of identifiers and the check agree on an issuer. *)
Lemma issuer_read now subj m ids all id x :
  m_Fail m = ∅ -> authz_ListAccessibleIDs now subj IssuerType m = Ok (ids, all) ->
  m_Issuers m !! id = Some x -> iss_TenantID x = sub_TenantID subj ->
  is_ok (authz_Check now subj IssuerType id Read m) = all || bool_decide (id ∈ ids).
Proof.
  intros Hf Hl Hx Ht. apply accessible_permitted in Hl as [_ Hl]. specialize (Hl id).
  assert (Hres : exists p rel src, resolve now subj IssuerType id m = Ok (p, rel, src)).
  { unfold resolve, locate, notFound, as_GetIssuer, as_GrantsOnResource, mem_authz,
      Mem_GetIssuer, Mem_GrantsOnResource, fail_read. rewrite Hf, !lookup_empty, Hx, Ht. simpl.
    rewrite str_eqb_refl. simpl. destruct (authz_decide _ _ _) as [[p rel] src]. eauto. }
  destruct Hres as (p & rel & src & Hres). apply eq_bool_prop_intro. rewrite !Is_true_true, Hl.
  rewrite <- (resolve_permitted _ _ _ _ _ _ _ _ Read Hres).
  unfold authz_Check. simpl. rewrite Hres. simpl. by destruct (Has p Read).
Qed.
(** Identities written in the plain form of a SPIFFE ID, or none. *)
Definition plain_id (s : string) : Prop :=
  s = "" \/ exists td path, s = "spiffe://" +:+ td +:+ "/" +:+ path /\ ValidTrustDomain td = true /\ path <> ""
    /\ hasControl path = false /\ lacks 37 path = true /\ lacks 63 path = true /\ lacks 35 path = true
    /\ str_len s <= MaxSPIFFEIDBytes.
(** A pinned issuer is one of the tenant's, as the store demands on insertion. *)
Definition pinned_here (m : Mem) (r : CertificateRequest) : Prop :=
  strp (req_IssuerID r) <> "" ->
  exists i, m_Issuers m !! strp (req_IssuerID r) = Some i /\ iss_TenantID i = req_TenantID r.
Lemma plain_shape td path :
  ValidTrustDomain td = true -> path <> "" -> lacks 63 path = true -> lacks 35 path = true ->
  let s := "spiffe://" +:+ td +:+ "/" +:+ path in
  spiffeShape s = true /\ split_byte 47 s !! 2%nat = Some td.
Proof.
  intros Ht Hp H63 H35 s. unfold ValidTrustDomain in Ht. destruct (_ || _) eqn:El; [done|]. bools.
  assert (H47 : lacks 47 td = true) by (by apply trust_lacks).
  split.
  - unfold spiffeShape, s. rewrite strip_prefix_app.
    change (td +:+ "/" +:+ path) with (td +:+ String (Ascii.ascii_of_N (Z.to_N 47)) path).
    rewrite cut_app by done. rewrite Ht, H63, H35.
    by rewrite (proj2 (str_eqb_neq td "")), (proj2 (str_eqb_neq path "")) by done.
  - change (split_byte 47 s) with ("spiffe:" :: "" :: split_byte 47 (td +:+ String (Ascii.ascii_of_N (Z.to_N 47)) path)).
    by rewrite (split_byte_app 47 td) by done.
Qed.
Definition default_of (tid td : string) (x : Issuer) : Prop :=
  iss_TenantID x = tid /\ iss_TrustDomain x = td /\ iss_IsDefault x = true.
Lemma DefaultIssuer_spec tid td m :
  wf m -> m_Fail m = ∅ ->
  match Mem_DefaultIssuer tid td m with
  | Ok def => exists x, m_Issuers m !! iss_ID def = Some x /\ iss_TenantID x = tid
                /\ forall k y, m_Issuers m !! k = Some y /\ default_of tid td y <-> k = iss_ID def /\ y = x
  | Err _ => forall k y, m_Issuers m !! k = Some y -> ~ default_of tid td y
  end.
Proof.
  intros Hwf Hf. unfold Mem_DefaultIssuer, fail_read. rewrite Hf, lookup_empty.
  destruct (filter _ _) as [|x l] eqn:E.
  - intros k y Hy (Ht & Hd & Hdef). assert (Hin : y ∈ @nil Issuer); [|by apply not_elem_of_nil in Hin].
    rewrite <- E. apply list_elem_of_filter. split; [by rewrite Ht, Hd, Hdef, !str_eqb_refl|].
    apply list_elem_of_fmap. exists (k, y). split; [done|]. by apply elem_of_map_range.
  - assert (Hin : x ∈ x :: l) by set_solver. rewrite <- E in Hin.
    apply list_elem_of_filter in Hin as [Hs Hin]. bools.
    apply list_elem_of_fmap in Hin as ([k0 x0] & -> & Hx%elem_of_map_range). simpl in *.
    rewrite (wf_issuers _ Hwf _ _ Hx). exists x0. split; [done|]. split; [done|]. intros k y. split.
    + intros [Hy (Ht & Hd & Hdef)]. assert (k = k0) as -> by
        (apply (wf_issuer_default _ Hwf k k0 y x0 Hy Hx); unfold both_default; split_and!; congruence).
      split; congruence.
    + intros [-> ->]. by split_and!.
Qed.
(** The issuer a request is read through, as the check of a single request finds it. *)
Definition issuer_reads (now : Z) (subj : Subjects) (r : CertificateRequest) (m : Mem) : bool :=
  match requestIssuerID (sub_TenantID subj) r m with
  | Ok id => is_ok (authz_Check now subj IssuerType id Read m)
  | Err _ => false
  end.
Lemma scope_ok now subj m :
  wf m -> m_Fail m = ∅ -> named m ->
  exists ids domains, authz_ListAccessibleIDs now subj IssuerType m = Ok (ids, IsAdmin subj)
    /\ (forall td, td ∈ domains <-> exists k x, m_Issuers m !! k = Some x /\ default_of (sub_TenantID subj) td x
                                  /\ IsAdmin subj || bool_decide (k ∈ ids) = true)
    /\ scope now subj m = Ok (mkRequestScope (ActorID subj) (IsAdmin subj)
                                (if IsAdmin subj then [] else sort_Strings (elements ids)) domains (IsAdmin subj)).
Proof.
  intros Hwf Hf Hnm. destruct (authz_ListAccessibleIDs now subj IssuerType m) as [[ids all]|e] eqn:Hl.
  - pose proof Hl as Hall. apply accessible_permitted in Hall as [-> _].
    unfold scope. rewrite Hl. cbn [res_bind].
    destruct (default_domains_elem (sub_TenantID subj) ids (IsAdmin subj) m "" Hwf Hf Hnm) as (domains & Hd & _).
    rewrite Hd. exists ids, (sort_Strings domains). split; [done|]. split; [|done]. intros td.
    unfold sort_Strings. rewrite elem_of_sort_slice.
    destruct (default_domains_elem (sub_TenantID subj) ids (IsAdmin subj) m td Hwf Hf Hnm) as (d & Hd' & Hel).
    rewrite Hd in Hd'. injection Hd' as <-. rewrite Hel. unfold default_of. naive_solver.
  - exfalso. unfold authz_ListAccessibleIDs in Hl. simpl in Hl. destruct (IsAdmin subj); [done|].
    unfold as_GrantsForSubjects, mem_authz, Mem_GrantsForSubjects, fail_read in Hl.
    by rewrite Hf, lookup_empty in Hl.
Qed.
Lemma requestIssuerID_here tid r m id :
  wf m -> m_Fail m = ∅ -> req_TenantID r = tid -> pinned_here m r -> requestIssuerID tid r m = Ok id ->
  exists x, m_Issuers m !! id = Some x /\ iss_TenantID x = tid.
Proof.
  intros Hwf Hf Ht Hpin. unfold requestIssuerID. destruct (_ <>s _) eqn:E; bools.
  - intros [= <-]. destruct (Hpin E) as (i & Hi & Hti). exists i. split; [done|congruence].
  - destruct (ParseSPIFFEID _) as [sid|]; [|done].
    pose proof (DefaultIssuer_spec tid (sid_TrustDomain sid) m Hwf Hf) as Hd.
    destruct (Mem_DefaultIssuer _ _ _) as [def|]; [|done]. intros [= <-].
    destruct Hd as (x & Hx & Htx & _). eauto.
Qed.
(** The scope of the pages is the check of a single request. *)
Lemma scope_reads now subj m ids domains actor jobs r :
  wf m -> m_Fail m = ∅ -> authz_ListAccessibleIDs now subj IssuerType m = Ok (ids, IsAdmin subj) ->
  (forall td, td ∈ domains <-> exists k x, m_Issuers m !! k = Some x /\ default_of (sub_TenantID subj) td x
                                /\ IsAdmin subj || bool_decide (k ∈ ids) = true) ->
  req_TenantID r = sub_TenantID subj -> plain_id (req_SpiffeID r) -> pinned_here m r ->
  requestIssuerReadable (mkRequestScope actor (IsAdmin subj) (if IsAdmin subj then [] else sort_Strings (elements ids))
                           domains jobs) r = issuer_reads now subj r m.
Proof.
  intros Hwf Hf Hl Hdom Ht Hid Hpin.
  unfold requestIssuerReadable, issuer_reads, requestIssuerID. simpl.
  destruct (strp (req_IssuerID r) <>s "") eqn:Hp; bools.
  - destruct (Hpin Hp) as (i & Hi & Hti). rewrite (issuer_read _ _ _ _ _ _ _ Hf Hl Hi) by congruence.
    destruct (IsAdmin subj); [done|]. apply eq_bool_prop_intro. rewrite !Is_true_true. simpl.
    rewrite contains_spec, bool_decide_eq_true. unfold sort_Strings. by rewrite elem_of_sort_slice, elem_of_elements.
  - destruct Hid as [Hid|(td & path & Hid & Hv & Hpa & Hc & H37 & H63 & H35 & Hlen)]; rewrite Hid; [done|].
    destruct (plain_shape td path Hv Hpa H63 H35) as [-> ->]. rewrite Hid in Hlen.
    rewrite ParseSPIFFEID_complete by done. simpl.
    pose proof (DefaultIssuer_spec (sub_TenantID subj) td m Hwf Hf) as Hdef.
    specialize (Hdom td). rewrite <- contains_spec in Hdom.
    destruct (Mem_DefaultIssuer _ _ _) as [def|e]; simpl.
    + destruct Hdef as (x & Hx & Htx & Hall). rewrite (issuer_read _ _ _ _ _ _ _ Hf Hl Hx Htx).
      apply eq_bool_prop_intro. rewrite !Is_true_true, Hdom. split.
      * intros (k & y & Hy & Hd & Ha). by destruct (proj1 (Hall k y) (conj Hy Hd)) as [-> ->].
      * intros Ha. destruct (proj2 (Hall (iss_ID def) x) (conj eq_refl eq_refl)) as [_ Hd]. eauto.
    + destruct (contains _ _) eqn:E; [|done]. destruct (proj1 Hdom eq_refl) as (k & x & Hx & Hd & _).
      by destruct (Hdef k x Hx).
Qed.
End scope_proofs.

(** ** Pages *)
Section page_theorems.
Context `{Env} `{ListQuery} {laws : ListQueryLaws} `{Enrolling}.
(** A page of the given rows: a consecutive piece of some order of them, shown, with
    their number. *)
Definition page_of {A B} (show : A -> B) (rows : list A) (r : res (ListPage B)) : Prop :=
  exists sorted pre page post applied,
    r = Ok (NewPage (show <$> page) (Z.of_nat (length rows)) applied)
    /\ sorted ≡ₚ rows /\ sorted = pre ++ page ++ post.
Lemma window_piece {A} (items : list A) spec req key tie :
  exists sorted pre page post applied,
    window items spec req key tie = (page, Z.of_nat (length items), applied)
    /\ sorted ≡ₚ items /\ sorted = pre ++ page ++ post.
Proof using laws.
  unfold window. pose proof (SortSlice_perm items (ListRequest req spec) key tie) as Hp.
  destruct (Window _ _) as [[page total] applied] eqn:E. apply Window_piece in E as (-> & pre & post & Hs).
  exists (SortSlice items (ListRequest req spec) key tie), pre, page, post, applied.
  split_and!; [|done|done]. do 3 f_equal. by apply Permutation_length.
Qed.
Lemma page_of_window {A B} (show : A -> B) (items : list A) spec req key tie (w : World) :
  page_of show items
    (let (r, w') := (Ok (window items spec req key tie), w) in
     match r with
     | Ok a => (let '(rows, total, applied) := a in st_ret (NewPage (show <$> rows) total applied)) w'
     | Err e => (Err e, w')
     end).1.
Proof using laws.
  destruct (window_piece items spec req key tie) as (sorted & pre & page & post & applied & -> & Hperm & Hcut).
  by exists sorted, pre, page, post, applied.
Qed.
(** The rows of a table a predicate selects. *)
Definition rows_where {A} (P : A -> bool) (t : gmap string A) : list A :=
  filter (fun x => P x = true) (map_range t).*2.
Lemma rows_where_ext {A} (P Q : A -> bool) (t : gmap string A) :
  (forall k x, t !! k = Some x -> P x = Q x) -> rows_where P t = rows_where Q t.
Proof.
  intros He. unfold rows_where. assert (Hall : forall kx, kx ∈ map_range t -> P kx.2 = Q kx.2)
    by (intros [k x] Hx%elem_of_map_range; by eapply He).
  induction (map_range t) as [|kx l IH]; [done|]. rewrite fmap_cons, !filter_cons.
  rewrite (Hall kx), IH by set_solver. done.
Qed.

(** The pages of requests and jobs hold exactly what the caller may read one by one.
    The total counts, and the pages run through, in some order and each once, the
    tenant's requests with the status asked for that a read of the single request
    allows; and likewise the jobs.  Issuers are named, requests name issuers of
    the tenant and identities are written plainly. *)
Theorem enroll_pages_exact now subj status req w :
  let m := wd_mem w in
  wf m -> m_Fail m = ∅ -> named m ->
  (forall k r, m_Requests m !! k = Some r -> plain_id (req_SpiffeID r) /\ pinned_here m r) ->
  page_of requestView
    (cpRequest <$> rows_where (fun r => (req_TenantID r =s sub_TenantID subj) && ((status =s "") || (req_Status r =s status))
                                        && is_ok (authorizeReadRequest now subj r m)) (m_Requests m))
    (PageRequests now subj status req w).1
  /\ page_of jobView
    (rows_where (fun j => (job_TenantID j =s sub_TenantID subj) && ((status =s "") || (job_Status j =s status))
                          && is_ok (authorizeJob now subj j Read m)) (m_Jobs m))
    (PageJobs now subj status req w).1.
Proof using laws.
  intros m Hwf Hf Hnm Hreq. destruct (scope_ok now subj m Hwf Hf Hnm) as (ids & domains & Hl & Hdom & Hsc).
  unfold PageRequests, PageJobs, st_bind, reading. fold m. rewrite Hsc.
  unfold Mem_PageRequests, Mem_PageJobs, fail_read. rewrite Hf, !lookup_empty. split.
  - set (sc := mkRequestScope _ _ _ _ _).
    change (filter _ (map_range (m_Requests m)).*2) with (rows_where (request_on_page (sub_TenantID subj) status sc) (m_Requests m)).
    rewrite (rows_where_ext (request_on_page (sub_TenantID subj) status sc) (fun r => (req_TenantID r =s sub_TenantID subj) && ((status =s "") || (req_Status r =s status))
                                        && is_ok (authorizeReadRequest now subj r m))).
    { by apply page_of_window. }
    intros k r Hr. unfold request_on_page. destruct (req_TenantID r =s sub_TenantID subj) eqn:Ht; [|done]. bools.
    f_equal. destruct (Hreq k r Hr) as [Hid Hpin]. unfold sc.
    rewrite (scope_reads now subj m ids domains (ActorID subj) (IsAdmin subj) r) by done. simpl.
    unfold authorizeReadRequest, issuer_reads. destruct (_ && _); [done|]. by destruct (requestIssuerID _ _ _).
  - set (sc := mkRequestScope _ _ _ _ _).
    change (filter _ (map_range (m_Jobs m)).*2) with (rows_where (job_on_page m (sub_TenantID subj) status sc) (m_Jobs m)).
    rewrite (rows_where_ext (job_on_page m (sub_TenantID subj) status sc) (fun j => (job_TenantID j =s sub_TenantID subj) && ((status =s "") || (job_Status j =s status))
                                        && is_ok (authorizeJob now subj j Read m))).
    { by apply page_of_window. }
    intros k j Hj. unfold job_on_page. f_equal. unfold authorizeJob, Mem_GetRequest, fail_read. rewrite Hf, lookup_empty.
    unfold sc. simpl. destruct (m_Requests m !! job_RequestID j) as [r|] eqn:Hr; [|by destruct (IsAdmin subj)].
    destruct (req_TenantID r =s sub_TenantID subj) eqn:Ht; [|by destruct (IsAdmin subj)]. bools.
    destruct (Hreq _ r Hr) as [Hid Hpin].
    pose proof (scope_reads now subj m ids domains "" false r Hwf Hf Hl Hdom Ht Hid Hpin) as Hrd.
    unfold issuer_reads in Hrd. change (requestIssuerID (sub_TenantID subj) (cpRequest r) m) with (requestIssuerID (sub_TenantID subj) r m).
    pose proof (requestIssuerID_here (sub_TenantID subj) r m) as Hhere.
    destruct (IsAdmin subj) eqn:Ha.
    + destruct (requestIssuerID _ r m) as [id|]; [|done]. destruct (Hhere id) as (x & Hx & Htx); [done..|].
      by rewrite (issuer_read _ _ _ _ _ _ _ Hf Hl Hx Htx).
    + etrans; [exact Hrd|]. by destruct (requestIssuerID _ r m).
Qed.

Lemma page_views_ok {A B} now subj rt (id : A -> string) (view : A -> Permissions -> B) m (perms : A -> Permissions) rows :
  (forall x, x ∈ rows -> exists rel src, authz_Effective now subj rt (id x) m = Ok (perms x, rel, src)) ->
  page_views now subj rt id view m rows = Ok ((fun x => view x (perms x)) <$> rows).
Proof.
  induction rows as [|x rows IH]; intros Hx; [done|]. cbn [page_views].
  destruct (Hx x) as (rel & src & ->); [set_solver|]. simpl. rewrite IH by set_solver. done.
Qed.
Lemma Readable_reads now subj m :
  m_Fail m = ∅ -> exists vis, Readable now subj Certificate m = Ok vis
    /\ forall k c, m_Certificates m !! k = Some c -> crt_TenantID c = sub_TenantID subj -> crt_ID c = k ->
       visible vis (crt_ID c) = may_read now subj m c.
Proof.
  intros Hf. destruct (accessible_ok now subj m Hf) as (ids & all & Hl). unfold Readable. rewrite Hl. simpl.
  exists (mkVisible all (if all then [] else sort_Strings (elements ids))). split; [by destruct all|].
  intros k c Hc Ht <-. destruct (cert_project_ok now subj m ids all c c Hf Hl Hc Ht) as [_ <-].
  unfold visible. simpl. destruct all; [done|]. simpl. apply eq_bool_prop_intro. rewrite !Is_true_true.
  rewrite contains_spec, bool_decide_eq_true. unfold sort_Strings. by rewrite elem_of_sort_slice, elem_of_elements.
Qed.

(** A page of certificates never counts or shows one the caller may not read, and
    misses none: the total counts, and the pages run through, exactly the
    tenant's certificates that match the filter and that a read of the single
    certificate allows, each shown with the caller's permissions on it. *)
Theorem PageCertificates_exact now subj issuerID spiffeID status req w :
  let m := wd_mem w in
  wf m -> m_Fail m = ∅ ->
  page_of (fun c => certView now c (perms_on now subj m (crt_ID c)))
    (cpCertificate <$> rows_where (fun c =>
       (crt_TenantID c =s sub_TenantID subj) && ((issuerID =s "") || EqualFold (crt_IssuerID c) issuerID)
       && ((spiffeID =s "") || (crt_SpiffeID c =s spiffeID)) && ((status =s "") || (crt_Status c =s status))
       && may_read now subj m c) (m_Certificates m))
    (PageCertificates now subj issuerID spiffeID status req w).1.
Proof using laws.
  intros m Hwf Hf. destruct (Readable_reads now subj m Hf) as (vis & Hvis & Hrd).
  unfold PageCertificates, st_bind, reading. fold m. rewrite Hvis.
  unfold Mem_PageCertificates, fail_read. rewrite Hf, lookup_empty. cbn [cpf_Visible].
  set (f := mkCertificatePageFilter _ _ _ _).
  change (filter _ (map_range (m_Certificates m)).*2)
    with (rows_where (certificate_on_page (sub_TenantID subj) f) (m_Certificates m)).
  rewrite (rows_where_ext (certificate_on_page (sub_TenantID subj) f) (fun c =>
       (crt_TenantID c =s sub_TenantID subj) && ((issuerID =s "") || EqualFold (crt_IssuerID c) issuerID)
       && ((spiffeID =s "") || (crt_SpiffeID c =s spiffeID)) && ((status =s "") || (crt_Status c =s status))
       && may_read now subj m c)).
  - match goal with |- context [window ?o ?sp ?rq ?k ?t] => destruct (window_piece o sp rq k t)
      as (sorted & pre & page & post & applied & -> & Hperm & Hcut) end. cbv beta iota zeta. fold m.
    rewrite (page_views_ok now subj Certificate crt_ID (certView now) m (fun c => perms_on now subj m (crt_ID c))).
    { by exists sorted, pre, page, post, applied. }
    intros c Hc. assert (Hin : c ∈ sorted) by (rewrite Hcut; set_solver). rewrite Hperm in Hin.
    apply list_elem_of_fmap in Hin as (x & -> & Hx). apply list_elem_of_filter in Hx as [Hp Hx].
    apply list_elem_of_fmap in Hx as ([k y] & -> & Hy%elem_of_map_range). simpl in *. bools.
    rewrite (wf_certs _ Hwf _ _ Hy).
    destruct (cert_decided now subj m k y Hf Hy ltac:(done)) as (rel & src & He & _). eauto.
  - intros k c Hc. unfold certificate_on_page, f. simpl.
    rewrite !negb_orb, !negb_andb, !negb_involutive.
    destruct (crt_TenantID c =s sub_TenantID subj) eqn:Ht; [|done]. bools. simpl.
    f_equal. apply (Hrd k); [done..|]. by apply (wf_certs _ Hwf).
Qed.
End page_theorems.

(** ** A small tenant *)
Module ListSamples.
Import Toy IssueSample.
#[local] Existing Instance toy_env.
#[local] Instance toy_enrolling : Enrolling := {|
  verify_enrollment n tok := Err (Opaque "no verifier"); cfg_AutoApprove := false; cfg_MaxAttempts := 3;
  format_time := FormatInt; parse_time _ := None |}.
(** A listquery that keeps the order and gives everything on one page. *)
#[local] Instance toy_listquery : ListQuery := {|
  Desc := "desc"; listquery_New p n s o _ := Ok (mkListReq p n s o);
  SortSlice A l _ _ _ := l; Window A l req := (l, Z.of_nat (length l), req);
  ListPage A := (list A * Z * ListReq)%type; NewPage A l t r := (l, t, r) |}.
Lemma toy_listquery_laws : ListQueryLaws.
Proof. split; [done|]. intros A l req page total applied [= <- <- <-]. split; [done|]. exists [], []. by rewrite app_nil_r. Qed.
Definition any_page : ListReq := mkListReq 1 20 "" "".
Definition other_admin : Subjects := mkSubjects "t1" "ops" ["admin"] "".
Definition request_for (sid : string) : RequestInput := mkRequestInput "" sid "" 3600 None.
(** Two requests made before the trust domain has an issuer, then the issuer. *)
Definition before : World := mkWorld (Mem_New 5) [] 0 0.
Definition asked (sid : string) : World :=
  (writing (Mem_InsertIssuer (corp_issuer <| iss_CAID := None |>)) (CreateRequest admin (request_for sid) before).2).2.
Definition web : World := asked "spiffe://example.org/web".
Definition web_request : CertificateRequest :=
  default (mkCertificateRequest "" "" None "" "" None "" None 0 "" "" "" None None None 0 0) (m_Requests (wd_mem web) !! "id0").
Lemma web_store : wf (wd_mem web) /\ m_Requests (wd_mem web) = {["id0" := web_request]}
  /\ m_Issuers (wd_mem web) = {["i1" := default sample_issuer (m_Issuers (wd_mem web) !! "i1")]}.
Proof.
  split; [|split; vm_compute; reflexivity].
  replace (wd_mem web) with (run_op (OpInsertIssuer (corp_issuer <| iss_CAID := None |>))
                               (run_op (OpInsertRequest web_request) (Mem_New 5))) by (vm_compute; reflexivity).
  repeat (apply run_op_wf || apply wf_New || reflexivity).
Qed.
Lemma enroll_pages_exact_witness :
  exists views applied,
    (PageRequests 50 other_admin "pending" any_page web).1 = Ok (views, 1, applied).
Proof.
  destruct web_store as (Hwf & Hreq & Hiss).
  assert (Hn : named (wd_mem web)).
  { intros k i. rewrite Hiss. intros [_ <-]%lookup_singleton_Some. vm_compute. discriminate. }
  assert (Hp : plain_id (req_SpiffeID web_request)).
  { right. exists "example.org", "web". vm_compute. repeat split; discriminate. }
  assert (Hi : strp (req_IssuerID web_request) = "") by (vm_compute; reflexivity).
  destruct (enroll_pages_exact (laws := toy_listquery_laws) 50 other_admin "pending" any_page web Hwf eq_refl Hn)
    as [(sorted & pre & page & post & applied & Hr & _) _].
  { intros k r. rewrite Hreq. intros [_ <-]%lookup_singleton_Some. split; [exact Hp|].
    intros Hne. rewrite Hi in Hne. by destruct Hne. }
  eexists _, applied. rewrite Hr. reflexivity.
Defined.
(** A request whose identity is written with an upper-case scheme is accepted and can be
    read by itself, and yet is on no page. *)
Example hidden_request :
  let w := asked "SPIFFE://example.org/web" in
  is_ok (GetRequest 50 other_admin "id0" w).1 = true
  /\ (PageRequests 50 other_admin "" any_page w).1 = Ok ([], 0, any_page).
Proof. split; vm_compute; reflexivity. Qed.
Lemma PageCertificates_exact_witness :
  exists views applied,
    (PageCertificates 200 admin "" "" "active" any_page ListSample.shelf).1 = Ok (views, 3, applied).
Proof.
  destruct (PageCertificates_exact (laws := toy_listquery_laws) 200 admin "" "" "active" any_page ListSample.shelf
              ListSample.shelf_wf eq_refl) as (sorted & pre & page & post & applied & Hr & _).
  eexists _, applied. rewrite Hr. reflexivity.
Defined.
End ListSamples.
