(* ===== verification/PageSql.v ===== *)
(** The queries behind the pages: the text and the arguments that
    internal/store/pages.go sends to the database. *)

From S2P Require Import Prelude Rows Memstore MemstoreInv MemstoreList Paging Authz GoJson GoUrl AuditLog.
From S2P Require Import Csr Sealed World Ca IssueBase Domains Providers Issuers Acme Lifecycle CertList Enroll Secrets Lists.

(** What the queries use of the library listquery. *)
Class ListSql := {
  OrderBy : ListReq -> Spec -> string;
  Clamp : ListReq -> Z -> ListReq;
  Limit : ListReq -> Z;
  Offset : ListReq -> Z;
}.
(** The values passed beside the text. *)
Inductive sql_arg := ArgText (s : string) | ArgTexts (l : list string) | ArgTime (t : Z).
Definition sql_args := list sql_arg.
(** [a.add(v)]: the placeholder of the new argument. *)
Definition add (v : sql_arg) (a : sql_args) : string * sql_args :=
  ("$" +:+ FormatInt (Z.of_nat (S (length a))), a ++ [v]).

Record pageQuery := mkPageQuery { pq_cols : string; pq_from : string; pq_join : string; pq_where : string; pq_key : string }.
Definition pageSQL (q : pageQuery) (orderBy : string) (limit offset : Z) : string :=
  if pq_key q =s "" then
    "SELECT " +:+ pq_cols q +:+ " FROM " +:+ pq_from q +:+ pq_join q +:+ " WHERE " +:+ pq_where q +:+ " ORDER BY "
    +:+ orderBy +:+ " LIMIT " +:+ FormatInt limit +:+ " OFFSET " +:+ FormatInt offset
  else
    "SELECT " +:+ pq_cols q +:+ " FROM unnest(ARRAY(SELECT " +:+ pq_key q +:+ " FROM " +:+ pq_from q +:+ pq_join q
    +:+ " WHERE " +:+ pq_where q +:+ " ORDER BY " +:+ orderBy +:+ " LIMIT " +:+ FormatInt limit +:+ " OFFSET "
    +:+ FormatInt offset +:+ ")) WITH ORDINALITY AS page_ids(pid, pos) JOIN " +:+ pq_from q +:+ " ON " +:+ pq_key q
    +:+ " = page_ids.pid ORDER BY page_ids.pos".
(** The two queries of a page: the count, and the page when it counted [total] rows. *)
Definition runPage `{ListQuery} `{ListSql} (q : pageQuery) (spec : Spec) (req : ListReq) (total : Z) : string * string :=
  let req := ListRequest req spec in
  let clamped := Clamp req total in
  ("SELECT count(*) FROM " +:+ pq_from q +:+ " WHERE " +:+ pq_where q,
   pageSQL q (OrderBy clamped spec) (Limit clamped) (Offset clamped)).

(** ** Conditions *)
Definition visibleCond (v : Visible) (col : string) (a : sql_args) : string * sql_args :=
  if vis_All v then ("", a)
  else let '(p, a) := add (ArgTexts (vis_IDs v)) a in (" AND " +:+ col +:+ " = ANY(" +:+ p +:+ "::uuid[])", a).
Definition uuidCond (col v : string) (a : sql_args) : string * sql_args :=
  if v =s "" then ("", a)
  else if negb (IsUUID v) then (" AND false", a)
  else let '(p, a) := add (ArgText v) a in (" AND " +:+ col +:+ " = " +:+ p +:+ "::uuid", a).
Definition eqCond (col v : string) (a : sql_args) : string * sql_args :=
  if v =s "" then ("", a) else let '(p, a) := add (ArgText v) a in (" AND " +:+ col +:+ " = " +:+ p, a).
Definition SpiffeShape : string := "^spiffe://[a-z0-9.-]+/[^?#]+$".
Definition sql_requestIssuerReadable (s : RequestScope) (a : sql_args) : string * sql_args :=
  let '(pinned, a) := (if rsc_AllPinned s then ("r.issuer_id IS NOT NULL", a)
                       else let '(p, a) := add (ArgTexts (rsc_Issuers s)) a in
                            ("r.issuer_id = ANY(" +:+ p +:+ "::uuid[])", a)) in
  let '(p, a) := add (ArgTexts (rsc_DefaultDomains s)) a in
  let byDefault := "(r.issuer_id IS NULL AND r.spiffe_id ~ '" +:+ SpiffeShape
                   +:+ "' AND split_part(r.spiffe_id, '/', 3) = ANY(" +:+ p +:+ "::text[]))" in
  ("(" +:+ pinned +:+ " OR " +:+ byDefault +:+ ")", a).

(** ** Columns *)
(** [strings.Replace(s, old, new, 1)]. *)
Fixpoint replace_first (old new s : string) : string :=
  match strip_prefix old s with
  | Some rest => new +:+ rest
  | None => match s with EmptyString => "" | String c s' => String c (replace_first old new s') end
  end.
Definition certCols : string :=
  "id, tenant_id, issuer_id, request_id, serial, COALESCE(spiffe_id,'') AS spiffe_id, subject, sans, not_before, not_after, fingerprint_sha256, status, cert_pem, chain_pem, key_sealed, key_delivered, superseded_by, owner, created_by, updated_by, created_at, updated_at, kind, auto_renew".
Definition issuerCols : string :=
  "i.id, i.tenant_id, i.name, i.type, i.trust_domain, i.is_default, i.ca_id, i.acme_directory_url, i.acme_email, i.dns_provider, i.settings_public, i.settings_sealed, i.enabled, i.created_by, i.updated_by, i.created_at, i.updated_at, (SELECT count(*) FROM issued_certificates c WHERE c.issuer_id = i.id)".
Definition requestCols : string :=
  "id, tenant_id, issuer_id, kind, COALESCE(spiffe_id, ''), sans, key_type, csr_pem, validity_seconds, requested_by, requester_kind, status, approver, reason, certificate_id, created_at, updated_at".
Definition jobCols : string :=
  "j.id, j.tenant_id, j.request_id, j.type, j.status, j.lease_until, j.attempts, j.max_attempts, j.result_certificate_id, j.error, j.run_after, j.created_at, j.updated_at".
Definition certPageCols : string :=
  replace_first "key_sealed" "CASE WHEN key_sealed IS NULL THEN NULL ELSE '\x01'::bytea END" certCols.
Definition issuerPageCols : string := replace_first "i.settings_sealed" "NULL::bytea" issuerCols.
Definition secretPageCols : string :=
  "id, tenant_id, name, kind, NULL::bytea, created_by, updated_by, created_at, updated_at".
Definition webhookPageCols : string :=
  "id, tenant_id, name, url, event_types, NULL::bytea, enabled, created_by, updated_by, created_at, updated_at".
Definition uuidRE : string := "^[0-9a-fA-F]{8}-[0-9a-fA-F]{4}-[0-9a-fA-F]{4}-[0-9a-fA-F]{4}-[0-9a-fA-F]{12}$".
Definition auditCols : string :=
  "a.id, a.ts, a.tenant_id, a.event_type, a.actor_kind, a.actor_id, a.subject_kind, a.subject_id, a.outcome, a.reason, a.correlation_id, a.details,
		COALESCE(CASE WHEN a.subject_id !~ '" +:+ uuidRE +:+ "' THEN NULL
			WHEN a.subject_kind = 'issuer' THEN (SELECT s.name FROM issuers s WHERE s.tenant_id = a.tenant_id AND s.id = a.subject_id::uuid)
			WHEN a.subject_kind = 'certificate' THEN (SELECT s.spiffe_id FROM issued_certificates s WHERE s.tenant_id = a.tenant_id AND s.id = a.subject_id::uuid)
			WHEN a.subject_kind = 'secret' THEN (SELECT s.name FROM tenant_secrets s WHERE s.tenant_id = a.tenant_id AND s.id = a.subject_id::uuid)
			WHEN a.subject_kind = 'webhook' THEN (SELECT s.name FROM webhook_endpoints s WHERE s.tenant_id = a.tenant_id AND s.id = a.subject_id::uuid) END, '')".

(** ** The queries of the pages *)
Section queries.
Context `{ListQuery}.
Definition certificatePage (tenantID : string) (f : CertificatePageFilter) (req : ListReq) : pageQuery * sql_args * Spec :=
  let '(t, a) := add (ArgText tenantID) [] in
  let '(c1, a) := uuidCond "c.issuer_id" (cpf_IssuerID f) a in
  let '(c2, a) := eqCond "c.spiffe_id" (cpf_SpiffeID f) a in
  let '(c3, a) := eqCond "c.status" (cpf_Status f) a in
  let '(c4, a) := visibleCond (cpf_Visible f) "c.id" a in
  let spec := CertificateListFor (cpf_Visible f) in
  (mkPageQuery certPageCols "issued_certificates c"
     (if vis_All (cpf_Visible f) && (lr_Sort (ListRequest req spec) =s "issuer") then CertificateIssuerJoin else "")
     ("c.tenant_id = " +:+ t +:+ c1 +:+ c2 +:+ c3 +:+ c4) "c.id", a, spec).
Definition CertificatePageSQL `{ListSql} (tenantID : string) (f : CertificatePageFilter) (req : ListReq) : string * sql_args :=
  let '(q, a, spec) := certificatePage tenantID f req in
  let req := ListRequest req spec in (pageSQL q (OrderBy req spec) (Limit req) (Offset req), a).
Definition issuerPage (tenantID : string) (v : Visible) : pageQuery * sql_args * Spec :=
  let '(t, a) := add (ArgText tenantID) [] in
  let '(c, a) := visibleCond v "i.id" a in
  (mkPageQuery issuerPageCols "issuers i" "" ("i.tenant_id = " +:+ t +:+ c) "i.id", a, IssuerList).
Definition requestPage (tenantID status : string) (s : RequestScope) : pageQuery * sql_args * Spec :=
  let '(t, a) := add (ArgText tenantID) [] in
  let '(c, a) := eqCond "r.status" status a in
  let '(readable, a) := sql_requestIssuerReadable s a in
  let '(readable, a) := (if rsc_Actor s <>s "" then
                           let '(p, a) := add (ArgText (rsc_Actor s)) a in
                           ("(r.requested_by = " +:+ p +:+ " OR " +:+ readable +:+ ")", a)
                         else (readable, a)) in
  (mkPageQuery requestCols "certificate_requests r" "" ("r.tenant_id = " +:+ t +:+ c +:+ " AND " +:+ readable) "r.id",
   a, RequestList).
Definition jobPage (tenantID status : string) (s : RequestScope) : pageQuery * sql_args * Spec :=
  let '(t, a) := add (ArgText tenantID) [] in
  let '(c, a) := eqCond "j.status" status a in
  let '(r, a) := (if negb (rsc_AllJobs s) then
                    let '(readable, a) := sql_requestIssuerReadable
                                            (mkRequestScope "" false (rsc_Issuers s) (rsc_DefaultDomains s) false) a in
                    (" AND EXISTS (SELECT 1 FROM certificate_requests r WHERE r.tenant_id = j.tenant_id AND r.id = j.request_id AND "
                     +:+ readable +:+ ")", a)
                  else ("", a)) in
  (mkPageQuery jobCols "certificate_jobs j" "" ("j.tenant_id = " +:+ t +:+ c +:+ r) "j.id", a, JobList).
Definition secretPage (tenantID : string) : pageQuery * sql_args * Spec :=
  let '(t, a) := add (ArgText tenantID) [] in
  (mkPageQuery secretPageCols "tenant_secrets s" "" ("s.tenant_id = " +:+ t) "s.id", a, SecretList).
Definition webhookPage (tenantID : string) : pageQuery * sql_args * Spec :=
  let '(t, a) := add (ArgText tenantID) [] in
  (mkPageQuery webhookPageCols "webhook_endpoints w" "" ("w.tenant_id = " +:+ t) "w.id", a, WebhookList).
Definition auditPage (tenantID : string) (f : AuditPageFilter) : pageQuery * sql_args * Spec :=
  let '(t, a) := add (ArgText tenantID) [] in
  let '(c1, a) := eqCond "a.event_type" (apf_EventType f) a in
  let '(c2, a) := eqCond "a.actor_id" (apf_ActorID f) a in
  let '(from, a) := add (ArgTime (apf_From f)) a in
  let '(to_, a) := add (ArgTime (apf_To f)) a in
  (mkPageQuery auditCols "lcm_audit_events a" "" ("a.tenant_id = " +:+ t +:+ c1 +:+ c2 +:+ " AND a.ts >= " +:+ from
                                                  +:+ " AND a.ts <= " +:+ to_) "", a, AuditList).
End queries.

(** ** What reaches the database *)
(** The numbers of the placeholders of a text, in order: a dollar sign and digits. *)
Fixpoint scan_placeholders (cur : option (option Z)) (s : string) : list Z :=
  match s with
  | EmptyString => match cur with Some (Some n) => [n] | _ => [] end
  | String c s' =>
    let d := byte_of c - 48 in
    if (0 <=? d) && (d <=? 9) then
      match cur with
      | Some n => scan_placeholders (Some (Some (10 * default 0 n + d))) s'
      | None => scan_placeholders None s'
      end
    else match cur with Some (Some n) => cons n | _ => id end
           (scan_placeholders (if byte_of c =? 36 then Some None else None) s')
  end.
Definition placeholders (s : string) : list Z := scan_placeholders None s.

(** A page asked of the database, with everything its caller chooses. *)
Inductive PageCall :=
| CallCertificates (tenant : string) (f : CertificatePageFilter) (req : ListReq)
| CallIssuers (tenant : string) (v : Visible)
| CallRequests (tenant status : string) (s : RequestScope)
| CallJobs (tenant status : string) (s : RequestScope)
| CallSecrets (tenant : string)
| CallWebhooks (tenant : string)
| CallAudit (tenant : string) (f : AuditPageFilter).
Definition call_tenant (c : PageCall) : string :=
  match c with
  | CallCertificates t _ _ | CallIssuers t _ | CallRequests t _ _ | CallJobs t _ _ | CallSecrets t | CallWebhooks t
  | CallAudit t _ => t
  end.
Definition query_of `{ListQuery} (c : PageCall) : pageQuery * sql_args * Spec :=
  match c with
  | CallCertificates t f req => certificatePage t f req
  | CallIssuers t v => issuerPage t v
  | CallRequests t st s => requestPage t st s
  | CallJobs t st s => jobPage t st s
  | CallSecrets t => secretPage t
  | CallWebhooks t => webhookPage t
  | CallAudit t f => auditPage t f
  end.
(** The same call with every value replaced: texts by a letter, unless empty, identifiers
    by one identifier, lists and times by nothing. *)
Definition mask (s : string) : string := if s =s "" then "" else "x".
Definition mask_id (s : string) : string :=
  if s =s "" then "" else if IsUUID s then "00000000-0000-0000-0000-000000000000" else "x".
Definition mask_scope (s : RequestScope) : RequestScope :=
  mkRequestScope (mask (rsc_Actor s)) (rsc_AllPinned s) [] [] (rsc_AllJobs s).
Definition masked (c : PageCall) : PageCall :=
  match c with
  | CallCertificates _ f req =>
      CallCertificates "" (mkCertificatePageFilter (mask_id (cpf_IssuerID f)) (mask (cpf_SpiffeID f)) (mask (cpf_Status f))
                             (mkVisible (vis_All (cpf_Visible f)) [])) req
  | CallIssuers _ v => CallIssuers "" (mkVisible (vis_All v) [])
  | CallRequests _ st s => CallRequests "" (mask st) (mask_scope s)
  | CallJobs _ st s => CallJobs "" (mask st) (mask_scope s)
  | CallSecrets _ => CallSecrets ""
  | CallWebhooks _ => CallWebhooks ""
  | CallAudit _ f => CallAudit "" (mkAuditPageFilter (mask (apf_EventType f)) (mask (apf_ActorID f)) 0 0)
  end.

(** Splits on a condition of a query. *)
Ltac case_query :=
  match goal with
  | |- context [if ?b then _ else _] =>
    lazymatch b with
    | context [if _ then _ else _] => fail
    | _ => let E := fresh "E" in destruct b eqn:E; simpl; rewrite ?E
    end
  end.
(** The claims of a query whose conditions are decided. *)
Ltac decided :=
  split_and!; [reflexivity|etransitivity; [symmetry; apply (sort_slice_perm Z.ltb)|vm_compute; reflexivity]|reflexivity|];
  lazymatch goal with
  | |- exists alias rest, String ?c _ +:+ _ = _ /\ _ => eexists (String c ""), _; split; reflexivity
  end.
(** No value a caller chooses becomes part of the text of a page query: the query is the one
    of the same call with every value replaced.  Its placeholders are the
    numbers 1 up to the number of arguments, each used once, and the first
    condition restricts the rows to the tenant, which is the first argument. *)
Theorem page_queries_parameterised `{ListQuery} c :
  let '(q, a, _) := query_of c in
  q = (query_of (masked c)).1.1
  /\ placeholders (pq_where q) ≡ₚ Z.of_nat <$> seq 1 (length a)
  /\ head a = Some (ArgText (call_tenant c))
  /\ exists alias rest, pq_where q = alias +:+ ".tenant_id = $1" +:+ rest /\ String.length alias = 1%nat.
Proof.
  destruct c as [t [i sp st [[] ids]] req|t v|t st s|t st s|t|t|t f];
    unfold query_of, masked, certificatePage, issuerPage, requestPage, jobPage, secretPage, webhookPage, auditPage,
      sql_requestIssuerReadable, visibleCond, uuidCond, eqCond, mask_scope, mask, mask_id, CertificateListFor; simpl;
    repeat case_query; try discriminate; decided.
Qed.
