(* ===== verification/Webhook.v ===== *)
(** Outbound callbacks: internal/webhook/webhook.go.  The network is an oracle that
    answers a request from those made before it. *)

From S2P Require Import Prelude Rows Memstore MemstoreInv MemstoreList Paging Authz GoJson GoUrl AuditLog.
From S2P Require Import Csr Sealed World Ca IssueBase Domains Providers Issuers Acme Lifecycle CertList Enroll Secrets Lists.

Definition EventIssued : string := "certificate.issued".
Definition EventRenewed : string := "certificate.renewed".
Definition EventRevoked : string := "certificate.revoked".
Definition EventFailed : string := "certificate.failed".
Definition MaxPayloadBytes : Z := 65536.
Definition maxURLBytes : Z := 2048.
Definition baseBackoff : Z := 50000000.
Definition maxBackoff : Z := 2000000000.
Definition defaultTries : Z := 3.
Definition webhook_ErrTooLarge : err := Sentinel "webhook" "ErrTooLarge".
Definition webhook_invalid (field msg : string) : err := ValidationError "webhook" field msg.
Definition webhook_conflict (msg : string) : err := ConflictError "webhook" msg.

Definition validEvent (t : string) : bool :=
  (t =s EventIssued) || (t =s EventRenewed) || (t =s EventRevoked) || (t =s EventFailed).

(** What is sent: the target, the headers X-LCM-Event and X-LCM-Signature, the body. *)
Record HttpRequest := mkHttpRequest { hr_URL : string; hr_Event : string; hr_Signature : string; hr_Body : string }.
#[export] Instance HttpRequest_eq_dec : EqDecision HttpRequest.
Proof. solve_decision. Defined.

(** What a delivery does: it posts and it sleeps (in nanoseconds). *)
Inductive NetStep := Posted (r : HttpRequest) | Slept (d : Z).
(** HMAC-SHA256, and the network: the answer to a request, a status or a transport
    error, and whether the caller's context is done when a delivery is about to wait.
    Both may depend on what was done before. *)
Class Outbound := {
  hmac_sha256 : string -> string -> string;
  http_do : list NetStep -> HttpRequest -> res Z;
  ctx_done : list NetStep -> option err;
}.

(** ** Signing *)
Definition bytes_of (s : string) : list Z := byte_of <$> String.list_ascii_of_string s.
Definition Sign `{Outbound} (secret payload : string) : string :=
  "sha256=" +:+ hex_encode (bytes_of (hmac_sha256 secret payload)).

Section input.
Context `{GoRuntime}.
Definition validateURL (raw : string) : res unit :=
  if raw =s "" then Err (webhook_invalid "url" "url is required")
  else if maxURLBytes <? str_len raw then Err (webhook_invalid "url" "url must be at most 2048 chars")
  else
    let bad := Err (webhook_invalid "url" "url must be an absolute http(s) URL") in
    match url_parse raw with
    | None => bad
    | Some u => if (u_Host u =s "") || ((u_Scheme u <>s "http") && (u_Scheme u <>s "https")) then bad else Ok tt
    end.
(** The event types, each once; an unknown one is refused. *)
Fixpoint known_events (l : list string) (events : list string) : res (list string) :=
  match l with
  | [] => Ok events
  | e :: l =>
    if negb (validEvent e) then Err (webhook_invalid "event_types" ("unknown event type " +:+ e))
    else known_events l (if contains events e then events else events ++ [e])
  end.
End input.

(** ** Management *)
Record WebhookInput := mkWebhookInput {
  wi_Name : string; wi_URL : string; wi_EventTypes : list string; wi_Secret : string;
}.
Record WebhookView := mkWebhookView {
  wv_ID : string; wv_Name : string; wv_URL : string; wv_EventTypes : list string; wv_Enabled : bool;
  wv_CreatedAt : Z; wv_UpdatedAt : Z;
}.
Definition webhook_view (r : WebhookEndpoint) : WebhookView :=
  mkWebhookView (whk_ID r) (whk_Name r) (whk_URL r) (default [] (whk_EventTypes r)) (whk_Enabled r)
    (whk_CreatedAt r) (whk_UpdatedAt r).

Section management.
Context `{Env}.
(** A failed read leaves the buffer as it was made. *)
Definition generateSecret : M string :=
  drawing (fun n => Ok (hex_encode (match random_bytes n 32 with Ok b => bytes_of b | Err _ => replicate 32 0 end))).
Definition webhook_record (subj : Subjects) (t id name : string) : M unit :=
  emit (mkEvent (sub_TenantID subj) t (ActorKind subj) (ActorID subj) "webhook" id name "ok" "" "" []).
Definition webhook_Create (subj : Subjects) (inp : WebhookInput) : M WebhookView :=
  if bad_name (wi_Name inp) then st_err (webhook_invalid "name" "name must be 1..100 chars")
  else
    let* _ := st_lift (validateURL (wi_URL inp)) in
    if (length (wi_EventTypes inp) =? 0)%nat
    then st_err (webhook_invalid "event_types" "at least one event type is required")
    else
      let* events := st_lift (known_events (wi_EventTypes inp) []) in
      let* secret := (if wi_Secret inp =s "" then generateSecret else st_ret (wi_Secret inp)) in
      let* id := newID in
      let* blob := Seal secret (ADWebhook id) in
      let actor := Some (ActorID subj) in
      let* r := st_try (writing (Mem_InsertWebhook (mkWebhookEndpoint id (sub_TenantID subj) (wi_Name inp) (wi_URL inp)
                                   (Some events) (Some blob) true actor actor 0 0))) in
      match r with
      | Err e => if is_conflict e then st_err (webhook_conflict "a webhook with that name already exists") else st_err e
      | Ok _ =>
        let* _ := webhook_record subj "webhook_created" id (wi_Name inp) in
        let* row := reading (Mem_GetWebhook (sub_TenantID subj) id) in
        st_ret (webhook_view row)
      end.
Definition webhook_List (subj : Subjects) : M (list WebhookView) :=
  let* rows := reading (Mem_ListWebhooks (sub_TenantID subj)) in st_ret (webhook_view <$> rows).
Definition webhook_Delete (subj : Subjects) (id : string) : M unit :=
  let* row := reading (Mem_GetWebhook (sub_TenantID subj) id) in
  let* _ := writing (Mem_DeleteWebhook (sub_TenantID subj) id) in
  webhook_record subj "webhook_deleted" id (whk_Name row).
Definition webhook_Page `{ListQuery} (subj : Subjects) (req : ListReq) : M (ListPage WebhookView) :=
  let* (rows, total, applied) := reading (Mem_PageWebhooks (sub_TenantID subj) req) in
  st_ret (NewPage (webhook_view <$> rows) total applied).
End management.

(** ** Delivery *)
Record WebhookService := mkWebhookService { ws_tries : Z; ws_backoff : Z }.
Definition webhook_New : WebhookService := mkWebhookService defaultTries baseBackoff.
Definition Net (A : Type) : Type := ST (list NetStep) A.

(** The capped exponential backoff before an attempt, counted from 1. *)
Fixpoint doubled (n : nat) (d : Z) : Z :=
  match n with
  | O => d
  | S n => let d := 2 * d in if maxBackoff <=? d then maxBackoff else doubled n d
  end.
Definition wait_delay (svc : WebhookService) (attempt : nat) : Z := doubled (attempt - 1) (ws_backoff svc).

Section delivery.
Context `{Env} `{Outbound}.
Definition wait (svc : WebhookService) (attempt : nat) : Net unit :=
  fun log => match ctx_done log with
             | Some e => (Err e, log)
             | None => (Ok tt, log ++ [Slept (wait_delay svc attempt)])
             end.
(** A target that is no URL is refused before anything is sent. *)
Definition post (target eventType sig payload : string) : Net Z :=
  fun log => match url_parse target with
             | None => (Err (Opaque "invalid URL"), log)
             | Some _ => let r := mkHttpRequest target eventType sig payload in (http_do log r, log ++ [Posted r])
             end.
Definition delivery_failed (ep : WebhookEndpoint) (e : err) : err := Wrapf ("webhook " +:+ whk_ID ep +:+ ": delivery failed: ") e.
Definition bad_status (ep : WebhookEndpoint) (status : Z) : err :=
  Opaque ("webhook " +:+ whk_ID ep +:+ ": endpoint returned status " +:+ FormatInt status).
(** The attempts that remain; with none left the last error is the result. *)
Fixpoint attempts (svc : WebhookService) (ep : WebhookEndpoint) (eventType sig payload : string) (more : nat)
  (attempt : nat) (lastErr : option err) : Net unit :=
  match more with
  | O => match lastErr with Some e => st_err e | None => st_ret tt end
  | S more =>
    let* _ := (if (0 <? attempt)%nat then wait svc attempt else st_ret tt) in
    let* r := st_try (post (whk_URL ep) eventType sig payload) in
    match r with
    | Err e => attempts svc ep eventType sig payload more (S attempt) (Some (delivery_failed ep e))
    | Ok status =>
      if status <? 300 then st_ret tt
      else if (400 <=? status) && (status <? 500) then st_err (bad_status ep status)
      else attempts svc ep eventType sig payload more (S attempt) (Some (bad_status ep status))
    end
  end.
Definition deliverOne (svc : WebhookService) (ep : WebhookEndpoint) (eventType payload : string) : Net unit :=
  match Open (whk_SecretSealed ep) (ADWebhook (whk_ID ep)) with
  | Err _ => st_err (Opaque ("webhook " +:+ whk_ID ep +:+ ": signing secret could not be opened"))
  | Ok secret =>
    attempts svc ep eventType (Sign secret payload) payload (Z.to_nat (Z.max 1 (ws_tries svc))) 0 None
  end.
(** The failures of the endpoints, joined; none when the list is empty. *)
Fixpoint deliver_all (svc : WebhookService) (eps : list WebhookEndpoint) (eventType payload : string) : Net (list err) :=
  match eps with
  | [] => st_ret []
  | ep :: eps =>
    let* r := st_try (deliverOne svc ep eventType payload) in
    let* errs := deliver_all svc eps eventType payload in
    st_ret (match r with Ok _ => errs | Err e => e :: errs end)
  end.
Definition Deliver (svc : WebhookService) (tenantID eventType payload : string) (m : Mem) : Net (list err) :=
  if MaxPayloadBytes <? str_len payload then st_err webhook_ErrTooLarge
  else
    let* endpoints := st_lift (Mem_WebhooksForEvent tenantID eventType m) in
    deliver_all svc endpoints eventType payload.
End delivery.

(** ** What is delivered *)
Section delivered.
Context `{Env} `{Outbound}.
Definition retryable (a : res Z) : Prop :=
  match a with Err _ => True | Ok s => 300 <= s /\ ~ (400 <= s < 500) end.
(** Posts of one request, at most so many. *)
Definition posted (acts : list NetStep) : list HttpRequest := omap (fun x => match x with Posted q => Some q | Slept _ => None end) acts.
Definition only (req : HttpRequest) (n : nat) (acts : list NetStep) : Prop :=
  (forall q, Posted q ∈ acts -> q = req) /\ (length (posted acts) <= n)%nat.
Lemma only_nil req n : only req n [].
Proof. split; [set_solver|simpl; lia]. Qed.
Lemma only_one req : only req 1 [Posted req].
Proof. split; [set_solver|simpl; lia]. Qed.
Lemma only_mono req n n' acts : (n <= n')%nat -> only req n acts -> only req n' acts.
Proof. intros Hn [? ?]. split; [done|lia]. Qed.
Lemma only_app req n1 n2 n l1 l2 : (n1 + n2 <= n)%nat -> only req n1 l1 -> only req n2 l2 -> only req n (l1 ++ l2).
Proof.
  intros Hn [H1 L1] [H2 L2]. split; [intros q; rewrite elem_of_app; naive_solver|].
  unfold posted in *. rewrite omap_app, length_app. lia.
Qed.
Section endpoint.
Context (svc : WebhookService) (req : HttpRequest).
(** [k] posts from an attempt on, each but the first after its pause. *)
Definition pause (a : nat) : list NetStep := if (0 <? a)%nat then [Slept (wait_delay svc a)] else [].
Lemma pause_slept a d : Slept d ∈ pause a -> exists i, (0 < i)%nat /\ d = wait_delay svc i.
Proof.
  unfold pause. destruct (0 <? a)%nat eqn:E; [|set_solver]. apply Nat.ltb_lt in E.
  intros [= ->]%list_elem_of_singleton. eauto.
Qed.
Lemma only_pause a : only req 0 (pause a).
Proof. unfold pause. case_match; (split; [set_solver|simpl; lia]). Qed.
Fixpoint posts (a k : nat) : list NetStep :=
  match k with O => [] | S k => pause a ++ Posted req :: posts (S a) k end.
Lemma posts_posted a k q : Posted q ∈ posts a k <-> q = req /\ (0 < k)%nat.
Proof.
  revert a. induction k as [|k IH]; intros a; simpl; [set_solver by lia|].
  rewrite elem_of_app, elem_of_cons, IH. unfold pause.
  assert (Posted q ∉ (if (0 <? a)%nat then [Slept (wait_delay svc a)] else [])) by (case_match; set_solver).
  split; [|intros [-> _]; auto]. intros [?|[[= ->]|[-> _]]]; [done|split; [done|lia]..].
Qed.
Lemma wait_step a log r log1 :
  (if (0 <? a)%nat then wait svc a else st_ret tt) log = (r, log1) ->
  match r with Ok _ => log1 = log ++ pause a | Err _ => (0 < a)%nat /\ log1 = log end.
Proof.
  unfold pause. destruct (0 <? a)%nat eqn:E; [|intros Hw; injection Hw as <- <-; by rewrite app_nil_r].
  apply Nat.ltb_lt in E. unfold wait. destruct (ctx_done log); intros Hw; injection Hw as <- <-; done.
Qed.
(** A further attempt after one that is to be retried. *)
Lemma retried more a log log1 r log' (e : err) (lastErr : option err) :
  log ++ posts a 0 ++ pause (a + 0) = log1 -> log1 ++ [Posted req] = log ++ posts a 1 ->
  (forall j, log ++ posts a (S j) ++ pause (a + S j) = (log1 ++ [Posted req]) ++ posts (S a) j ++ pause (S a + j)) ->
  retryable (http_do log1 req) ->
  (exists k, (k <= more)%nat /\ log' = (log1 ++ [Posted req]) ++ posts (S a) k
    /\ (forall i, (S i < k)%nat -> retryable (http_do ((log1 ++ [Posted req]) ++ posts (S a) i ++ pause (S a + i)) req))
    /\ (0 < more -> S a = 0 -> 0 < k)%nat
    /\ (r = Ok tt -> k = 0%nat /\ Some e = None
         \/ exists s, (0 < k)%nat
             /\ http_do ((log1 ++ [Posted req]) ++ posts (S a) (k - 1) ++ pause (S a + (k - 1))) req = Ok s /\ s < 300)) ->
  exists k, (k <= S more)%nat /\ log' = log ++ posts a k
    /\ (forall i, (S i < k)%nat -> retryable (http_do (log ++ posts a i ++ pause (a + i)) req))
    /\ (0 < S more -> a = 0 -> 0 < k)%nat
    /\ (r = Ok tt -> k = 0%nat /\ lastErr = None
         \/ exists s, (0 < k)%nat /\ http_do (log ++ posts a (k - 1) ++ pause (a + (k - 1))) req = Ok s /\ s < 300).
Proof.
  intros Hfirst Hone Hshift Hre (k & Hk & -> & Hall & _ & Hok). exists (S k). split_and!; [lia| | |lia|].
  - rewrite Hone, <- app_assoc. f_equal. simpl. by rewrite <- app_assoc.
  - intros [|i] Hi; [by rewrite Hfirst|]. rewrite Hshift. apply Hall. lia.
  - intros ->. destruct (Hok eq_refl) as [[_ ?]|(s & Hpos & Hs & Hlt)]; [done|]. right. exists s.
    split_and!; [lia| |done]. rewrite Nat.sub_succ, Nat.sub_0_r.
    destruct k as [|k]; [lia|]. rewrite Hshift, <- Hs. simpl. by rewrite Nat.sub_0_r.
Qed.
(** The attempts: as many posts as it takes, all the same; each answered so that a further
    one is due, except the last. *)
Lemma attempts_posts ep eventType sig payload more a lastErr log r log' :
  url_parse (whk_URL ep) <> None -> req = mkHttpRequest (whk_URL ep) eventType sig payload ->
  attempts svc ep eventType sig payload more a lastErr log = (r, log') ->
  exists k, (k <= more)%nat /\ log' = log ++ posts a k
    /\ (forall i, (S i < k)%nat -> retryable (http_do (log ++ posts a i ++ pause (a + i)) req))
    /\ (0 < more -> a = 0 -> 0 < k)%nat
    /\ (r = Ok tt -> k = 0%nat /\ lastErr = None
                     \/ exists s, (0 < k)%nat /\ http_do (log ++ posts a (k - 1) ++ pause (a + (k - 1))) req = Ok s /\ s < 300).
Proof.
  intros Hurl Hreq. revert a lastErr log. induction more as [|more IH]; intros a lastErr log; cbn [attempts].
  - intros Hr. exists 0%nat. simpl. destruct lastErr; injection Hr as <- <-; rewrite app_nil_r;
      (split_and!; [lia|done|lia|lia|intros ?; first [discriminate|auto]]).
  - intros Hr. unfold st_bind in Hr. match type of Hr with (let (_, _) := ?c in _) = _ => destruct c as [rw log1] eqn:Hw end.
    apply wait_step in Hw. destruct rw as [[]|e].
    2:{ destruct Hw as [Ha ->]. injection Hr as <- <-. exists 0%nat. rewrite app_nil_r. split_and!; [lia|done|lia|lia|done]. }
    unfold st_try, post in Hr. destruct (url_parse (whk_URL ep)) as [u|]; [|done]. cbv beta iota zeta in Hr. rewrite <- Hreq in Hr.
    assert (Hfirst : log ++ posts a 0 ++ pause (a + 0) = log1) by (by rewrite Nat.add_0_r).
    assert (Hone : log1 ++ [Posted req] = log ++ posts a 1) by (by rewrite Hw, <- app_assoc).
    assert (Hshift : forall j, log ++ posts a (S j) ++ pause (a + S j)
              = (log1 ++ [Posted req]) ++ posts (S a) j ++ pause (S a + j)).
    { intros j. rewrite Hw, Nat.add_succ_r. simpl. by rewrite <- !app_assoc. }
    destruct (http_do log1 req) as [s|e] eqn:Hans.
    + destruct (s <? 300) eqn:H300; bools.
      { unfold st_ret, st_err in Hr; injection Hr as <- <-. exists 1%nat. split_and!; [lia|done|lia|lia|]. intros _. right. exists s.
        rewrite Nat.sub_diag, Hfirst. split_and!; [lia|done|lia]. }
      destruct (_ && _) eqn:H4; bools.
      { unfold st_ret, st_err in Hr; injection Hr as <- <-. exists 1%nat. split_and!; [lia|done|lia|lia|done]. }
      apply IH in Hr. eapply retried; [exact Hfirst|exact Hone|exact Hshift|rewrite Hans; simpl; lia|exact Hr].
    + apply IH in Hr. eapply retried; [exact Hfirst|exact Hone|exact Hshift|by rewrite Hans|exact Hr].
Qed.
(** Whatever the target, nothing but this request is posted, at most once per attempt. *)
Lemma attempts_steps ep eventType sig payload more a lastErr log :
  req = mkHttpRequest (whk_URL ep) eventType sig payload ->
  exists acts, (attempts svc ep eventType sig payload more a lastErr log).2 = log ++ acts
    /\ only req more acts /\ (forall d, Slept d ∈ acts -> exists i, (0 < i)%nat /\ d = wait_delay svc i).
Proof.
  intros Hreq. revert a lastErr log. induction more as [|more IH]; intros a lastErr log; cbn [attempts].
  - exists []. rewrite app_nil_r. split_and!; [by destruct lastErr|by apply only_nil|set_solver].
  - unfold st_bind. match goal with |- context [let (_, _) := ?c in _] => destruct c as [rw log1] eqn:Hw end.
    apply wait_step in Hw. destruct rw as [[]|e]; [|exists []; rewrite app_nil_r; destruct Hw as [_ ->]; split_and!; [done|apply only_nil|set_solver]].
    unfold st_try. destruct (post _ _ _ _ _) as [rp log2] eqn:Hp.
    assert (H2 : exists l2, log2 = log ++ pause a ++ l2 /\ only req 1 l2 /\ forall d, Slept d ∉ l2).
    { unfold post in Hp. destruct (url_parse _); injection Hp as _ <-; rewrite Hw; [exists [Posted req]|exists []].
      - rewrite <- app_assoc, Hreq. split_and!; [done|by apply only_one|set_solver].
      - rewrite app_nil_r. split_and!; [done|by apply only_nil|set_solver]. }
    destruct H2 as (l2 & -> & Ho & Hd).
    assert (Hstop : forall A (x : A), exists acts, (x, log ++ pause a ++ l2).2 = log ++ acts /\ only req (S more) acts
              /\ forall d, Slept d ∈ acts -> exists i, (0 < i)%nat /\ d = wait_delay svc i).
    { intros A x. exists (pause a ++ l2). split_and!; [done| |].
      - eapply (only_app _ 0 (S more) (S more)); [lia|apply only_pause|]. eapply only_mono; [|exact Ho]. lia.
      - intros d. rewrite elem_of_app. intros [Hin|Hin]; [by apply pause_slept in Hin|by destruct (Hd d)]. }
    assert (Hagain : forall e, exists acts, (attempts svc ep eventType sig payload more (S a) (Some e) (log ++ pause a ++ l2)).2 = log ++ acts
              /\ only req (S more) acts /\ forall d, Slept d ∈ acts -> exists i, (0 < i)%nat /\ d = wait_delay svc i).
    { intros e. destruct (IH (S a) (Some e) (log ++ pause a ++ l2)) as (acts & -> & Ha & Hs).
      exists (pause a ++ l2 ++ acts). rewrite <- !app_assoc. split_and!; [done| |].
      - eapply (only_app _ 0 (S more) (S more)); [lia|apply only_pause|]. eapply (only_app _ 1 more (S more)); [lia|done..].
      - intros d. rewrite !elem_of_app. intros [Hin|[Hin|Hin]]; [by apply pause_slept in Hin|by destruct (Hd d)|auto]. }
    destruct rp as [s|e]; [|apply Hagain]. destruct (s <? 300); [apply Hstop|].
    destruct (_ && _); [apply Hstop|apply Hagain].
Qed.
End endpoint.

(** The request an endpoint is sent, signed with its own secret. *)
Definition signed_for (ep : WebhookEndpoint) (eventType payload : string) (q : HttpRequest) : Prop :=
  exists secret, Open (whk_SecretSealed ep) (ADWebhook (whk_ID ep)) = Ok secret
    /\ q = mkHttpRequest (whk_URL ep) eventType (Sign secret payload) payload.
Definition tries_of (svc : WebhookService) : nat := Z.to_nat (Z.max 1 (ws_tries svc)).
Definition slept_well (svc : WebhookService) (acts : list NetStep) : Prop :=
  forall d, Slept d ∈ acts -> exists i, (0 < i)%nat /\ d = wait_delay svc i.
Lemma deliverOne_steps svc ep eventType payload log :
  exists r acts, deliverOne svc ep eventType payload log = (r, log ++ acts)
    /\ (forall q, Posted q ∈ acts -> signed_for ep eventType payload q)
    /\ (length (posted acts) <= tries_of svc)%nat /\ slept_well svc acts
    /\ (url_parse (whk_URL ep) <> None -> forall q, signed_for ep eventType payload q -> Posted q ∈ acts).
Proof.
  unfold deliverOne, signed_for. destruct (Open _ _) as [secret|e].
  - set (req := mkHttpRequest (whk_URL ep) eventType (Sign secret payload) payload).
    destruct (attempts_steps svc req ep eventType (Sign secret payload) payload (tries_of svc) 0 None log eq_refl)
      as (acts & Ha & [Ho Hl] & Hs).
    unfold tries_of in *. destruct (attempts _ _ _ _ _ _ _ _ log) as [r log'] eqn:Hr. simpl in Ha. subst log'.
    exists r, acts. split_and!; [done| |done|done|].
    + intros q ->%Ho. eauto.
    + intros Hu q (secret' & [= <-] & ->). fold req.
      eapply (attempts_posts svc req) in Hr as (k & _ & Hk & _ & Hpos & _); [|done|done].
      apply app_inv_head in Hk as ->. apply posts_posted. split; [done|]. apply Hpos; [|done]. lia.
  - exists (Err (Opaque ("webhook " +:+ whk_ID ep +:+ ": signing secret could not be opened"))), [].
    rewrite app_nil_r. split_and!; [done|set_solver|simpl; lia|intros d; set_solver|]. by intros _ q (secret & ? & _).
Qed.
Lemma deliver_all_steps svc eps eventType payload log :
  exists errs acts, deliver_all svc eps eventType payload log = (Ok errs, log ++ acts)
    /\ (forall q, Posted q ∈ acts -> exists ep, ep ∈ eps /\ signed_for ep eventType payload q)
    /\ (length (posted acts) <= tries_of svc * length eps)%nat /\ slept_well svc acts
    /\ (forall ep q, ep ∈ eps -> url_parse (whk_URL ep) <> None -> signed_for ep eventType payload q -> Posted q ∈ acts).
Proof.
  revert log. induction eps as [|ep eps IH]; intros log; cbn [deliver_all].
  - exists [], []. rewrite app_nil_r. split_and!; [done|set_solver|simpl; lia|intros d; set_solver|set_solver].
  - destruct (deliverOne_steps svc ep eventType payload log) as (r & a1 & H1 & Q1 & L1 & S1 & P1).
    destruct (IH (log ++ a1)) as (errs & a2 & H2 & Q2 & L2 & S2 & P2).
    unfold st_bind, st_try. rewrite H1, H2. eexists _, (a1 ++ a2). rewrite <- app_assoc.
    split_and!; [reflexivity| | | |].
    + intros q. rewrite elem_of_app. intros [Hq|Hq]; [|destruct (Q2 q Hq) as (x & ? & ?)]; eexists; (split; [|eauto]); set_solver.
    + unfold posted in *. rewrite omap_app, length_app. simpl. lia.
    + intros d. rewrite elem_of_app. intros [Hd|Hd]; auto.
    + intros x q. rewrite elem_of_cons, elem_of_app. intros [->|Hx] Hu Hs; eauto.
Qed.
End delivered.

(** The pauses of the service double from 50 ms and never exceed two seconds. *)
Lemma doubled_min n d : 0 <= d <= maxBackoff -> doubled n d = Z.min (d * 2 ^ Z.of_nat n) maxBackoff.
Proof.
  revert d. induction n as [|n IH]; intros d Hd; cbn [doubled].
  - rewrite Z.mul_1_r. lia.
  - rewrite Nat2Z.inj_succ, Z.pow_succ_r by lia. assert (Hp : 1 <= 2 ^ Z.of_nat n) by (pose proof (Z.pow_pos_nonneg 2 (Z.of_nat n)); lia).
    case_match; bools; [|rewrite IH by lia; f_equal; lia]. nia.
Qed.
Lemma wait_delay_min n : wait_delay webhook_New (S n) = Z.min (baseBackoff * 2 ^ Z.of_nat n) maxBackoff.
Proof. unfold wait_delay. simpl. rewrite Nat.sub_0_r. by apply doubled_min. Qed.

Section claims.
Context `{Env} `{Outbound}.
Definition subscribed (tid eventType : string) (m : Mem) (w : WebhookEndpoint) : Prop :=
  (exists k, m_Webhooks m !! k = Some w) /\ whk_TenantID w = tid /\ whk_Enabled w = true
  /\ eventType ∈ default [] (whk_EventTypes w).
Lemma signed_for_cp w eventType payload q : signed_for (cpWebhook w) eventType payload q <-> signed_for w eventType payload q.
Proof. unfold signed_for. by setoid_rewrite Open_clone. Qed.
Lemma WebhooksForEvent_elem tid eventType m :
  m_Fail m = ∅ -> exists eps, Mem_WebhooksForEvent tid eventType m = Ok eps
    /\ (length eps <= size (m_Webhooks m))%nat
    /\ forall x, x ∈ eps <-> exists w, x = cpWebhook w /\ subscribed tid eventType m w.
Proof.
  intros Hf. unfold Mem_WebhooksForEvent, fail_read. rewrite Hf, lookup_empty. eexists. split; [done|]. split.
  - unfold sortByNameID. rewrite sort_slice_perm, length_fmap. etrans; [apply length_filter|].
    rewrite length_fmap, map_range_perm. by rewrite length_map_to_list.
  - intros x. unfold sortByNameID, subscribed. rewrite elem_of_sort_slice, list_elem_of_fmap.
    setoid_rewrite list_elem_of_filter. setoid_rewrite list_elem_of_fmap.
    setoid_rewrite andb_true_iff. setoid_rewrite andb_true_iff. setoid_rewrite str_eqb_eq. setoid_rewrite contains_spec.
    split.
    + intros (w & -> & [[Ht He] Hc] & ([k y] & -> & Hy%elem_of_map_range)). eauto 10.
    + intros (w & -> & (k & Hk) & Ht & He & Hc). exists w. split_and!; [done..|]. exists (k, w).
      split; [done|]. by apply elem_of_map_range.
Qed.

Lemma deliver_reaches tid eventType payload m log :
  m_Fail m = ∅ -> str_len payload <= MaxPayloadBytes ->
  exists errs acts, Deliver webhook_New tid eventType payload m log = (Ok errs, log ++ acts)
    /\ forall w q, subscribed tid eventType m w -> url_parse (whk_URL w) <> None ->
         signed_for w eventType payload q -> Posted q ∈ acts.
Proof.
  intros Hf Hlen. destruct (WebhooksForEvent_elem tid eventType m Hf) as (eps & He & _ & Hin).
  unfold Deliver. rewrite (proj2 (Z.ltb_ge _ _) Hlen), He.
  destruct (deliver_all_steps webhook_New eps eventType payload log) as (errs & acts & Hd & _ & _ & _ & Hp).
  exists errs, acts. split; [exact Hd|]. intros w q Hw Hu Hsig.
  apply (Hp (cpWebhook w)); [apply Hin; eauto|done|by rewrite signed_for_cp].
Qed.

(** A delivery reaches exactly the endpoints it is meant for.  On a store that answers it
    returns; every request made goes to an enabled endpoint of the tenant that
    subscribes to the event and is signed with that endpoint's own secret over
    the very payload; every such endpoint with a readable secret is tried, whatever
    happens to the others; no endpoint is tried more than three times, with
    pauses that double from 50 ms and stay below two seconds. *)
Theorem Deliver_signed tid eventType payload m log :
  m_Fail m = ∅ -> str_len payload <= MaxPayloadBytes ->
  exists errs acts, Deliver webhook_New tid eventType payload m log = (Ok errs, log ++ acts)
    /\ (forall q, Posted q ∈ acts -> exists w, subscribed tid eventType m w /\ signed_for w eventType payload q)
    /\ (forall w q, subscribed tid eventType m w -> url_parse (whk_URL w) <> None ->
          signed_for w eventType payload q -> Posted q ∈ acts)
    /\ (length (posted acts) <= 3 * size (m_Webhooks m))%nat
    /\ (forall d, Slept d ∈ acts -> exists i, d = Z.min (baseBackoff * 2 ^ Z.of_nat i) maxBackoff).
Proof.
  intros Hf Hlen. destruct (WebhooksForEvent_elem tid eventType m Hf) as (eps & He & Hl & Hin).
  unfold Deliver. rewrite (proj2 (Z.ltb_ge _ _) Hlen), He.
  destruct (deliver_all_steps webhook_New eps eventType payload log) as (errs & acts & Hd & Hq & Hn & Hs & Hp).
  exists errs, acts. split_and!; [exact Hd| | | |].
  - intros q (ep & (w & -> & Hw)%Hin & Hsig)%Hq. exists w. by rewrite signed_for_cp in Hsig.
  - intros w q Hw Hu Hsig. apply (Hp (cpWebhook w)); [apply Hin; eauto|done|by rewrite signed_for_cp].
  - change (tries_of webhook_New) with 3%nat in Hn. nia.
  - intros d ([|i] & Hi & ->)%Hs; [lia|]. exists i. apply wait_delay_min.
Qed.

Lemma known_events_ok l acc out :
  known_events l acc = Ok out -> forall e, e ∈ out <-> e ∈ acc \/ e ∈ l.
Proof.
  revert acc. induction l as [|x l IH]; intros acc; cbn [known_events]; [intros [= <-]; set_solver|].
  destruct (negb _); [done|]. intros Hr e. rewrite (IH _ Hr e). destruct (contains acc x) eqn:E; [|set_solver].
  apply contains_spec in E. set_solver.
Qed.
(** A created webhook is stored as asked, with its secret sealed. *)
Lemma webhook_Create_stores `{!EnvLaws} subj inp w v w' :
  webhook_Create subj inp w = (Ok v, w') -> wi_Secret inp <> "" ->
  exists row, m_Webhooks (wd_mem w') = <[whk_ID row := row]> (m_Webhooks (wd_mem w)) /\ wv_ID v = whk_ID row
    /\ whk_TenantID row = sub_TenantID subj /\ whk_URL row = wi_URL inp /\ whk_Enabled row = true
    /\ (forall e, e ∈ default [] (whk_EventTypes row) <-> e ∈ wi_EventTypes inp)
    /\ Open (whk_SecretSealed row) (ADWebhook (whk_ID row)) = Ok (wi_Secret inp)
    /\ validateURL (wi_URL inp) = Ok tt.
Proof.
  intros Hr Hs. unfold webhook_Create in Hr. destruct (bad_name _); [done|].
  run_step Hr. run_step Hrun. destruct (_ =? _)%nat; [done|]. run_step Hr. run_step Hrun0.
  rewrite (proj2 (str_eqb_neq _ _) Hs) in Hr. run_step Hr. run_step Hrun1. run_step Hr.
  injection Hrun1 as <- <-. apply st_bind_ok in Hr as (blob & w1 & Hseal & Hr).
  pose proof (Seal_opens _ _ _ _ _ Hseal) as Hopen. apply Seal_frame in Hseal as [Hm1 _].
  apply st_bind_ok in Hr as (ri & w2 & Hins & Hr). apply (proj1 (st_try_ok _ _ _ _)) in Hins.
  destruct ri as [[]|e]; [|by destruct (is_conflict e)].
  apply writing_ok in Hins as (m2 & Hins & ->). unfold Mem_InsertWebhook, fail_write in Hins.
  destruct (m_Fail _ !! _); [done|]. destruct (existsb _ _); [done|]. injection Hins as <-.
  run_step Hr. injection Hrun1 as <- <-. run_step Hr. run_step Hrun1. run_step Hr.
  unfold Mem_GetWebhook, fail_read in Hrun1. simpl in Hrun1. destruct (m_Fail _ !! _); [done|].
  rewrite lookup_insert_eq in Hrun1. simpl in Hrun1. rewrite str_eqb_refl in Hrun1. injection Hrun1 as <-.
  change (wd_mem w1 = wd_mem w) in Hm1.
  match goal with |- context [<[_ := ?row]> (m_Webhooks (wd_mem w1))] => exists row end.
  split; [by rewrite <- Hm1|]. simpl. split_and!; [done..| | |by destruct x].
  - intros e. pose proof (known_events_ok _ _ _ Hrun0 e) as Hk. destruct x0; simpl in *; set_solver.
  - etrans; [apply (Open_clone (Some blob))|exact Hopen].
Qed.

(** What a tenant registers is what its receiver can verify: after a webhook is created
    with a secret, every delivery of an event it subscribes to posts to its
    URL a request signed with that secret. *)
Theorem webhook_verifiable {laws : EnvLaws} subj inp w v w' eventType payload log :
  webhook_Create subj inp w = (Ok v, w') -> wi_Secret inp <> "" -> eventType ∈ wi_EventTypes inp ->
  m_Fail (wd_mem w') = ∅ -> str_len payload <= MaxPayloadBytes ->
  exists errs acts, Deliver webhook_New (sub_TenantID subj) eventType payload (wd_mem w') log = (Ok errs, log ++ acts)
    /\ Posted (mkHttpRequest (wi_URL inp) eventType (Sign (wi_Secret inp) payload) payload) ∈ acts.
Proof.
  intros Hc Hs He Hf Hlen. apply webhook_Create_stores in Hc as (row & Hm & _ & Ht & Hu & Hen & Hev & Ho & Hv); [|done].
  destruct (deliver_reaches (sub_TenantID subj) eventType payload (wd_mem w') log Hf Hlen) as (errs & acts & Hd & Hp).
  exists errs, acts. split; [done|]. apply (Hp row).
  - unfold subscribed. split_and!; [|done|done|by apply Hev]. exists (whk_ID row). by rewrite Hm, lookup_insert_eq.
  - rewrite Hu. unfold validateURL in Hv. by destruct (url_parse (wi_URL inp)); repeat case_match.
  - exists (wi_Secret inp). by rewrite Hu.
Qed.
End claims.

(** ** An endpoint that is down at first *)
Module WebhookSample.
Import Toy IssueSample.
#[local] Existing Instance toy_env.
#[local] Instance flaky : Outbound := {|
  hmac_sha256 secret payload := secret +:+ payload;
  http_do log q := if (length log =? 0)%nat then Ok 503 else Ok 204;
  ctx_done log := None |}.
Definition hook : WebhookInput :=
  mkWebhookInput "ops" "https://hooks.example.org/lcm" [EventIssued; EventRevoked; EventIssued] "k".
Definition empty_world : World := mkWorld (Mem_New 5) [] 0 0.
Definition no_hook : WebhookView := mkWebhookView "" "" "" [] false 0 0.
Definition created : WebhookView * World :=
  match webhook_Create admin hook empty_world with (Ok v, w) => (v, w) | (Err _, w) => (no_hook, w) end.
Definition expected : HttpRequest :=
  mkHttpRequest "https://hooks.example.org/lcm" EventIssued "sha256=6b7b7d" "{}".
(** The first post is answered with 503; the second, after 50 ms, succeeds. *)
Example flaky_run :
  Deliver webhook_New "t1" EventIssued "{}" (wd_mem created.2) []
  = (Ok [], [Posted expected; Slept 50000000; Posted expected]).
Proof. vm_compute. reflexivity. Qed.
Lemma Deliver_signed_witness :
  exists errs acts, Deliver webhook_New "t1" EventIssued "{}" (wd_mem created.2) [] = (Ok errs, acts)
    /\ (length (posted acts) <= 3)%nat.
Proof.
  assert (Hf : m_Fail (wd_mem created.2) = ∅) by (vm_compute; reflexivity).
  assert (Hs : size (m_Webhooks (wd_mem created.2)) = 1%nat) by (vm_compute; reflexivity).
  destruct (Deliver_signed "t1" EventIssued "{}" (wd_mem created.2) [] Hf ltac:(done))
    as (errs & acts & Hd & _ & _ & Hn & _).
  exists errs, acts. rewrite Hs in Hn. split; [exact Hd|exact Hn].
Defined.
Lemma webhook_verifiable_witness :
  exists errs acts, Deliver webhook_New "t1" EventRevoked "{}" (wd_mem created.2) [] = (Ok errs, acts)
    /\ Posted (mkHttpRequest "https://hooks.example.org/lcm" EventRevoked (Sign "k" "{}") "{}") ∈ acts.
Proof.
  assert (Hc : webhook_Create admin hook empty_world = (Ok created.1, created.2)) by (vm_compute; reflexivity).
  assert (Hf : m_Fail (wd_mem created.2) = ∅) by (vm_compute; reflexivity).
  assert (He : EventRevoked ∈ wi_EventTypes hook) by (vm_compute; right; left).
  exact (webhook_verifiable (laws := toy_env_laws) admin hook empty_world created.1 created.2 EventRevoked "{}" [] Hc
           ltac:(discriminate) He Hf ltac:(done)).
Defined.
End WebhookSample.
