(* ===== verification/Deploy.v ===== *)
(** Installations and deployment targets: internal/deploy/deploy.go. *)

From S2P Require Import Prelude Rows Memstore MemstoreInv MemstoreList Paging Authz GoJson GoUrl AuditLog.
From S2P Require Import Csr Sealed World Ca IssueBase Domains Providers Issuers Acme Lifecycle CertList Enroll Secrets.

Definition deploy_invalid (field msg : string) : err := ValidationError "deploy" field msg.
Record InstalledView := mkInstalledView {
  inv_CertificateID : string; inv_ClientID : string; inv_InstalledAt : Z; inv_ReportedAt : Z;
}.
Record TargetInput := mkTargetInput { ti_Name : string; ti_Kind : string; ti_Config : Settings }.
Record TargetView := mkTargetView {
  tv_ID : string; tv_Name : string; tv_Kind : string; tv_Config : Settings; tv_CreatedAt : Z; tv_UpdatedAt : Z;
}.
Definition targetSecretFields : list string := ["token"; "password"; "secret"; "key"].
#[global] Arguments targetSecretFields : simpl never.

Definition hasSecret (s : Settings) (fields : list string) : bool :=
  existsb (fun f => match s !! f with
                    | Some v => (as_string v <>s "") && (as_string v <>s Marker)
                    | None => false
                    end) fields.
Definition target_view (r : DeploymentTarget) : TargetView :=
  let cfg := match sealed_Decode (tgt_ConfigPublic r) with Ok cfg => cfg | Err _ => ∅ end in
  let cfg := if 0 <? blen (tgt_ConfigSealed r)
             then foldl (fun cfg f => <[f := AStr Marker]> cfg) cfg targetSecretFields else cfg in
  mkTargetView (tgt_ID r) (tgt_Name r) (tgt_Kind r) cfg (tgt_CreatedAt r) (tgt_UpdatedAt r).

Section deploy.
Context `{Env}.
Definition deploy_record (subj : Subjects) (ty kind id name : string) : M unit :=
  emit (mkEvent (sub_TenantID subj) ty (ActorKind subj) (ActorID subj) kind id name "ok" "" "" []).
Definition ReportInstalled (now : Z) (subj : Subjects) (certID clientID : string) : M unit :=
  if (certID =s "") || (clientID =s "")
  then st_err (deploy_invalid "certificate_id" "certificate_id and client_id are required")
  else
    let* _ := az_Check now subj Certificate certID Read in
    let* id := newID in
    let* _ := writing (Mem_UpsertInstalled (mkInstalledCertificate id (sub_TenantID subj) certID clientID now now)) in
    deploy_record subj "certificate_installed" "certificate" certID "".
Definition ListInstalled (now : Z) (subj : Subjects) (clientID : string) (cursor limit : Z) : M (list InstalledView) :=
  let limit := if (limit <=? 0) || (100 <? limit) then 50 else limit in
  let cursor := if IsZero cursor then now else cursor in
  let* rows := reading (Mem_ListInstalled (sub_TenantID subj) clientID cursor limit) in
  st_ret ((fun r => mkInstalledView (ins_CertificateID r) (ins_ClientID r) (ins_InstalledAt r) (ins_ReportedAt r)) <$> rows).

(** The sealed configuration, only when it holds a credential. *)
Definition target_seal (id : string) (config : Settings) : M bytes :=
  if hasSecret config targetSecretFields then
    match sealed_Encode config with
    | Err _ => st_err (deploy_invalid "config" "config too large")
    | Ok raw => let* blob := Seal raw (ADTarget id) in st_ret (Some blob)
    end
  else st_ret None.
Definition CreateTarget (now : Z) (subj : Subjects) (inp : TargetInput) : M TargetView :=
  if bad_name (ti_Name inp) then st_err (deploy_invalid "name" "name must be 1..100 chars")
  else if negb ((ti_Kind inp =s "file") || (ti_Kind inp =s "pull") || (ti_Kind inp =s "webhook"))
  then st_err (deploy_invalid "kind" "kind must be file, pull or webhook")
  else
    let* id := newID in
    match sealed_Encode (Public (ti_Config inp) targetSecretFields) with
    | Err _ => st_err (deploy_invalid "config" "config too large")
    | Ok pubBytes =>
      let* configSealed := target_seal id (ti_Config inp) in
      let actor := Some (ActorID subj) in
      let row := mkDeploymentTarget id (sub_TenantID subj) (ti_Name inp) (ti_Kind inp) (Some pubBytes) configSealed
                   actor actor now now in
      let* _ := writing (Mem_InsertTarget row) in
      let* _ := deploy_record subj "certificate_deployed" "system" id (ti_Name inp) in
      st_ret (target_view row)
    end.
Definition ListTargets (subj : Subjects) : M (list TargetView) :=
  let* rows := reading (Mem_ListTargets (sub_TenantID subj)) in st_ret (target_view <$> rows).
Definition Deploy (now : Z) (subj : Subjects) (certID targetID : string) : M TargetView :=
  let* _ := az_Check now subj Certificate certID Write in
  let* tgt := reading (Mem_GetTarget (sub_TenantID subj) targetID) in
  let* _ := reading (Mem_GetCertificate (sub_TenantID subj) certID) in
  let* _ := deploy_record subj "certificate_deployed" "certificate" certID (tgt_Name tgt) in
  st_ret (target_view tgt).
End deploy.

(** ** What is kept and what is shown of a configuration *)
Lemma marked_lookup fs (cfg : Settings) k :
  foldl (fun cfg f => <[f := AStr Marker]> cfg) cfg fs !! k = if bool_decide (k ∈ fs) then Some (AStr Marker) else cfg !! k.
Proof.
  revert cfg. induction fs as [|f fs IH]; intros cfg; [done|]. cbn [foldl]. rewrite IH.
  destruct (decide (k = f)) as [->|Hne].
  - rewrite (bool_decide_eq_true_2 (f ∈ f :: fs)) by set_solver. case_bool_decide; [done|apply (lookup_insert_eq cfg)].
  - rewrite (lookup_insert_ne cfg f k) by done. repeat case_bool_decide; set_solver.
Qed.
Lemma texts_Public s fs : texts s -> texts (Public s fs).
Proof. intros Ht k v. rewrite Public_lookup. case_bool_decide; [done|apply Ht]. Qed.
Section custody.
Context `{Env} {laws : EnvLaws}.
Lemma target_seal_ok id config w b w' :
  target_seal id config w = (Ok b, w') ->
  wd_mem w' = wd_mem w
  /\ (hasSecret config targetSecretFields = true -> texts config ->
      exists blob clear, b = Some blob /\ 0 < str_len blob /\ Open b (ADTarget id) = Ok clear /\ sealed_Decode (Some clear) = Ok config)
  /\ (hasSecret config targetSecretFields = false -> b = None).
Proof using laws.
  unfold target_seal. destruct (hasSecret _ _).
  - destruct (sealed_Encode config) as [raw|] eqn:He; [|done]. intros Hr. apply st_bind_ok in Hr as (blob & w1 & Hs & Hr).
    apply st_ret_ok in Hr as [-> ->]. pose proof (Seal_frame _ _ _ _ _ Hs) as [Hm _]. apply Seal_opens in Hs.
    split; [done|]. split; [|done]. intros _ Ht. exists blob, raw. split_and!; [done| |done|by eapply settings_roundtrip].
    unfold Open, env_Open in Hs. destruct (_ <? _) eqn:E; [done|]. simpl in E. bools. lia.
  - intros Hr. apply st_ret_ok in Hr as [-> ->]. done.
Qed.

(** The credentials of a deployment target are kept sealed and never shown: a created target's
    stored public configuration and its view hold no credential, the view
    marks the credential fields exactly when something is sealed and shows every
    other field as given, and what is sealed opens to the whole configuration. *)
Theorem CreateTarget_custody now subj inp w v w' :
  CreateTarget now subj inp w = (Ok v, w') -> texts (ti_Config inp) ->
  let secret := hasSecret (ti_Config inp) targetSecretFields in
  exists row, m_Targets (wd_mem w') = <[tgt_ID row := row]> (m_Targets (wd_mem w)) /\ tv_ID v = tgt_ID row
    /\ sealed_Decode (tgt_ConfigPublic row) = Ok (Public (ti_Config inp) targetSecretFields)
    /\ (forall f, tv_Config v !! f = if bool_decide (f ∈ targetSecretFields)
                                     then (if secret then Some (AStr Marker) else None)
                                     else ti_Config inp !! f)
    /\ (if secret then exists clear, Open (tgt_ConfigSealed row) (ADTarget (tgt_ID row)) = Ok clear
                                     /\ sealed_Decode (Some clear) = Ok (ti_Config inp)
        else tgt_ConfigSealed row = None).
Proof using laws.
  intros Hr Ht secret. unfold CreateTarget in Hr. destruct (bad_name _); [done|]. destruct (negb _); [done|].
  apply st_bind_ok in Hr as (id & w1 & [= <- <-] & Hr).
  destruct (sealed_Encode (Public _ _)) as [pub|] eqn:He; [|done].
  apply st_bind_ok in Hr as (b & w2 & (Hm & Hsec & Hnone)%target_seal_ok & Hr).
  apply st_bind_ok in Hr as ([] & w3 & Hins & Hr). apply writing_ok in Hins as (m3 & Hins & ->).
  apply st_bind_ok in Hr as ([] & w4 & [= <-] & Hr). apply st_ret_ok in Hr as [-> ->].
  unfold Mem_InsertTarget, fail_write in Hins. destruct (m_Fail _ !! _); [done|]. destruct (existsb _ _); [done|].
  injection Hins as <-. change (wd_mem w2 = wd_mem w) in Hm.
  assert (Hpub : sealed_Decode (Some pub) = Ok (Public (ti_Config inp) targetSecretFields))
    by (eapply settings_roundtrip; [by apply texts_Public|done]).
  match goal with |- context [<[_ := ?row]> (m_Targets (wd_mem w2))] => exists row end.
  split; [by rewrite <- Hm|]. split; [done|]. split; [etrans; [apply (Decode_clone (Some pub))|exact Hpub]|]. split.
  - intros f. unfold target_view. cbn [tv_Config tgt_ConfigPublic tgt_ConfigSealed]. rewrite Hpub. unfold secret.
    destruct (hasSecret _ _).
    + destruct Hsec as (blob & clear & -> & Hlen & _); [done..|]. change (blen (Some blob)) with (str_len blob).
      rewrite (proj2 (Z.ltb_lt _ _) Hlen), marked_lookup, Public_lookup. by case_bool_decide.
    + rewrite Hnone by done. change (0 <? blen None) with false. cbv iota. rewrite Public_lookup. by case_bool_decide.
  - unfold secret. destruct (hasSecret _ _).
    + destruct Hsec as (blob & clear & _ & _ & Ho & Hd); [done..|]. exists clear. split; [|done].
      etrans; [apply (Open_clone b)|exact Ho].
    + rewrite Hnone by done. done.
Qed.
End custody.

(** ** Samples *)
Module DeploySample.
Import Toy IssueSample.
#[local] Existing Instance toy_env.
Definition empty_world : World := mkWorld (Mem_New 5) [] 0 0.
Definition no_target : TargetView := mkTargetView "" "" "" ∅ 0 0.
Definition config : Settings := {["token" := AStr "abc"]}.
Definition run_create (cfg : Settings) : TargetView * World :=
  match CreateTarget 7 admin (mkTargetInput "edge" "pull" cfg) empty_world with (Ok v, w) => (v, w) | (Err _, w) => (no_target, w) end.
Lemma CreateTarget_custody_witness :
  exists row clear, m_Targets (wd_mem (run_create config).2) !! tgt_ID row = Some row
    /\ tv_Config (run_create config).1 !! "token" = Some (AStr Marker)
    /\ Open (tgt_ConfigSealed row) (ADTarget (tgt_ID row)) = Ok clear /\ sealed_Decode (Some clear) = Ok config.
Proof.
  assert (Hc : CreateTarget 7 admin (mkTargetInput "edge" "pull" config) empty_world
               = (Ok (run_create config).1, (run_create config).2)) by (vm_compute; reflexivity).
  assert (Ht : texts config) by (unfold config; intros k v [<- <-]%lookup_singleton_Some; split; [reflexivity|]; eexists; split; reflexivity).
  destruct (CreateTarget_custody (laws := toy_env_laws) 7 admin (mkTargetInput "edge" "pull" config) empty_world
              (run_create config).1 (run_create config).2 Hc Ht) as (row & Hm & _ & _ & Hv & clear & Ho & Hd).
  exists row, clear. rewrite Hm, lookup_insert_eq. split; [reflexivity|]. split; [exact (Hv "token")|]. split; [exact Ho|exact Hd].
Defined.
(** A credential that is no text is neither kept nor shown: the target is created and the
    number given as its token is nowhere in it. *)
Example number_lost :
  let made := run_create {["token" := AInt 1234]} in
  tv_ID made.1 = "id0" /\ tv_Config made.1 = ∅
  /\ exists row, m_Targets (wd_mem made.2) = {["id0" := row]} /\ tgt_ConfigPublic row = Some "{}" /\ tgt_ConfigSealed row = None.
Proof. split; [vm_compute; reflexivity|]. split; [vm_compute; reflexivity|]. eexists. repeat split; vm_compute; reflexivity. Qed.
End DeploySample.
