(* ===== verification/Expiring.v ===== *)
(** The scheduled task of internal/taskexec/expiring.go: a digest of the
    certificates of a tenant that expire soon, sent to the recipients of the
    task's payload. *)

From Stdlib Require Import SpecFloat.
From S2P Require Import Prelude Rows Memstore MemstoreInv MemstoreList GoJson GoUrl Csr World IssueBase Domains.
From S2P Require Import Stream Lifecycle Renew.

(** ** Dates: [time.Time.UTC().Format(time.RFC3339)] *)
Definition Day : Z := 86400.
(** Year, month and day of a day counted from 0001-01-01; years start in March. *)
Definition civil (days : Z) : Z * Z * Z :=
  let z := days + 306 in
  let era := z / 146097 in
  let doe := z mod 146097 in
  let yoe := (doe - doe / 1460 + doe / 36524 - doe / 146096) / 365 in
  let doy := doe - (365 * yoe + yoe / 4 - yoe / 100) in
  let mp := (5 * doy + 2) / 153 in
  let m := if mp <? 10 then mp + 3 else mp - 9 in
  ((if m <=? 2 then yoe + era * 400 + 1 else yoe + era * 400), m, doy - (153 * mp + 2) / 5 + 1).
(** [appendInt]: padded with zeros behind the sign. *)
Definition append_int (width : nat) (z : Z) : string :=
  let d := FormatInt (Z.abs z) in
  (if z <? 0 then "-" else "") +:+ foldr (fun _ s => "0" +:+ s) d (seq 0 (width - String.length d)).
Definition Format_RFC3339 (t : Z) : string :=
  let secs := t / Second in
  let '(y, m, d) := civil (secs / Day) in
  let s := secs mod Day in
  append_int 4 y +:+ "-" +:+ append_int 2 m +:+ "-" +:+ append_int 2 d +:+ "T"
  +:+ append_int 2 (s / 3600) +:+ ":" +:+ append_int 2 (s / 60 mod 60) +:+ ":" +:+ append_int 2 (s mod 60) +:+ "Z".

(** ** Floating point: [math.Ceil(d.Hours() / 24)] *)
Definition f64_add : f64 -> f64 -> f64 := SFadd 53 1024.
Definition f64_div : f64 -> f64 -> f64 := SFdiv 53 1024.
Definition Hour : Z := 3600 * Second.
Definition Hours (d : Z) : f64 :=
  f64_add (f64_of_Z (Z.quot d Hour)) (f64_div (f64_of_Z (Z.rem d Hour)) (f64_of_Z Hour)).
(** [int(math.Ceil(x))] of a finite number in range. *)
Definition f64_ceil (x : f64) : Z :=
  match x with
  | S754_finite s m e =>
    let v := if s then - Z.pos m else Z.pos m in
    if 0 <=? e then v * 2 ^ e else - ((- v) / 2 ^ (- e))
  | _ => 0
  end.
Definition days_left (notAfter now : Z) : Z :=
  f64_ceil (f64_div (Hours (time_sub notAfter now)) (f64_of_Z 24)).

(** ** The digest *)
Definition replacement : string := String (chr 239) (String (chr 191) (str1 (chr 189))).
(** [strings.Map]: a control character becomes a blank, a byte that is no UTF-8
    the replacement character; [k] bytes of the current encoding remain. *)
Fixpoint one_line (k : nat) (s : string) : string :=
  match s with
  | EmptyString => ""
  | String c s' =>
    match k with
    | S k' => String c (one_line k' s')
    | O => match utf8_size s with
           | O => replacement +:+ one_line 0 s'
           | S n => String (if is_ctl c then chr 32 else c) (one_line n s')
           end
    end
  end.
Definition oneLine (s : string) : string := one_line 0 s.
(** [json.Unmarshal] into a [[]string], an error giving nil. *)
Definition sanList (raw : bytes) : list string :=
  match json_unmarshal (default "" raw) with
  | Some (AList l) =>
    default [] (mapM (fun v => match v with AStr s => Some s | ANil => Some "" | _ => None end) l)
  | _ => []
  end.

Section digest.
Context `{GoRuntime}.
(** The first common name among the parts of a subject. *)
Fixpoint first_cn (parts : list string) : option string :=
  match parts with
  | [] => None
  | p :: rest => match strip_prefix "CN=" (TrimSpace p) with
                 | Some cn => if cn =s "" then first_cn rest else Some cn
                 | None => first_cn rest
                 end
  end.
Definition certName (c : IssuedCertificate) : string :=
  match first_cn (split_byte 44 (crt_Subject c)) with
  | Some cn => cn
  | None => if crt_Subject c <>s "" then crt_Subject c
            else if crt_SpiffeID c <>s "" then crt_SpiffeID c else crt_ID c
  end.
Definition digest_line (issuers : gmap string string) (now : Z) (c : IssuedCertificate) : string :=
  let sans := sanList (crt_SANs c) in
  let issuer := default "" (issuers !! crt_IssuerID c) in
  "- " +:+ oneLine (certName c)
  +:+ (if (0 <? Z.of_nat (length sans)) then " (" +:+ oneLine (String.concat ", " sans) +:+ ")" else "")
  +:+ " — issuer " +:+ oneLine (if issuer =s "" then "unknown" else issuer)
  +:+ " — expires " +:+ Format_RFC3339 (crt_NotAfter c)
  +:+ " (" +:+ FormatInt (days_left (crt_NotAfter c) now) +:+ " day(s)) — auto-renew "
  +:+ (if crt_AutoRenew c then "on" else "off").
Definition newline : Ascii.ascii := chr 10.
Definition limited (limit : Z) : string := "(list limited to the first " +:+ FormatInt limit +:+ " certificates)".
Definition digest_lines (certs : list IssuedCertificate) (issuers : gmap string string) (now limit : Z) : list string :=
  (digest_line issuers now <$> certs) ++ (if limit <=? Z.of_nat (length certs) then [limited limit] else []).
Definition digest (certs : list IssuedCertificate) (issuers : gmap string string) (now limit : Z) : string :=
  String.concat (str1 newline) (digest_lines certs issuers now limit).
End digest.

(** ** The task *)
Definition DefaultDays : Z := 7.
Definition MaxDays : Z := 365.
Definition MaxRecipients : Z := 20.
Definition DefaultLimit : Z := 1000.
Definition TemplateKey : string := "lcm.certificates_expiring".
Record expiringPayload := mkExpiringPayload { ep_DaysBeforeExpiry : Z; ep_Recipients : list string }.
Record TaskRequest := mkTaskRequest { tr_TenantID : string; tr_ExecutionID : string; tr_Payload : string }.
(** [sdk.Result]: the data of a success are the count, the recipients notified
    and the certificates. *)
Inductive TaskResult :=
| TaskOK (msg : string) (data : option (Z * Z * list string))
| TaskRetry (msg : string)
| TaskPermanent (msg : string).
(** One call of the notification service. *)
Record Notice := mkNotice {
  nt_TenantID : string; nt_Key : string; nt_Recipient : string; nt_Vars : gmap string string; nt_CorrelationID : string;
}.
Record notify_result := mkNotifyResult { nr_Sent : bool; nr_Retryable : bool }.
(** What the task is given: the strict decoder and the tenant check of the
    scheduler's library, the address parser of net/mail (display name and
    address), the notification service with the code of its errors, and whether
    the context is done; the last two may depend on the calls made before. *)
Class TaskHost := {
  DecodeStrict : string -> expiringPayload + string;
  ValidTenant : string -> bool;
  ParseAddress : string -> option (string * string);
  SendKey : list Notice -> Notice -> res notify_result;
  status_Code : err -> string;
  ctx_Err : list Notice -> bool;
}.
Record ExpiringTask := mkExpiringTask { et_Notify : bool; et_Limit : Z }.
Definition task_limit (e : ExpiringTask) : Z := if 0 <? et_Limit e then et_Limit e else DefaultLimit.

Section task.
Context `{GoRuntime} `{TaskHost}.

Definition validAddress (s : string) : bool :=
  if (s =s "") || has_byte 13 s || has_byte 10 s then false
  else match ParseAddress s with
       | Some (name, address) => (name =s "") && (address =s s)
       | None => false
       end.
(** The loop over the recipients: [i] is the index, [seen] the addresses in
    lower case. *)
Fixpoint distinct_recipients (i : Z) (l seen recipients : list string) : list string + string :=
  match l with
  | [] => inl recipients
  | r :: l' =>
    if negb (validAddress r) then inr ("recipients[" +:+ FormatInt i +:+ "] is not a valid e-mail address")
    else let k := ToLower r in
         if contains seen k then distinct_recipients (i + 1) l' seen recipients
         else distinct_recipients (i + 1) l' (k :: seen) (recipients ++ [r])
  end.
Definition parse (raw : string) : Z * list string + string :=
  match DecodeStrict raw with
  | inr e => inr e
  | inl p =>
    let days := if ep_DaysBeforeExpiry p =? 0 then DefaultDays else ep_DaysBeforeExpiry p in
    let n := Z.of_nat (length (ep_Recipients p)) in
    if (days <? 1) || (MaxDays <? days) then inr ("daysBeforeExpiry must be within 1.." +:+ FormatInt MaxDays)
    else if (n <? 1) || (MaxRecipients <? n)
    then inr ("recipients must list 1.." +:+ FormatInt MaxRecipients +:+ " e-mail addresses")
    else match distinct_recipients 0 (ep_Recipients p) [] [] with
         | inl rs => inl (days, rs)
         | inr e => inr e
         end
  end.
(** The distinct issuers of the certificates, in the order they are met. *)
Definition issuer_ids (certs : list IssuedCertificate) : list string :=
  foldl (fun ids c => if contains ids (crt_IssuerID c) then ids else ids ++ [crt_IssuerID c]) [] certs.
Definition issuerNames (tid : string) (certs : list IssuedCertificate) (m : Mem) : res (gmap string string) :=
  let? issuers := Mem_IssuersByIDs tid (issuer_ids certs) m in
  Ok (foldl (fun names i => <[iss_ID i := iss_Name i]> names) ∅ issuers).
(** The loop over the recipients: what was sent, is to be retried and failed, or
    the error that ended it. *)
Fixpoint notify_all (mk : string -> Notice) (l : list string) (sent retry failed : Z) (log : list Notice)
  : (Z * Z * Z + err) * list Notice :=
  match l with
  | [] => (inl (sent, retry, failed), log)
  | r :: l' =>
    if ctx_Err log then (inl (sent, retry + Z.of_nat (length l), failed), log)
    else let log' := log ++ [mk r] in
         match SendKey log (mk r) with
         | Err e => (inr e, log')
         | Ok res => if nr_Sent res then notify_all mk l' (sent + 1) retry failed log'
                     else if nr_Retryable res then notify_all mk l' sent (retry + 1) failed log'
                     else notify_all mk l' sent retry (failed + 1) log'
         end
  end.
Definition digest_vars (days : Z) (certs : list IssuedCertificate) (names : gmap string string) (now limit : Z)
  : gmap string string :=
  {["days" := FormatInt days; "count" := FormatInt (Z.of_nat (length certs));
    "certificates" := digest certs names now limit]}.
Definition Handle (e : ExpiringTask) (now : Z) (req : TaskRequest) (m : Mem) (log : list Notice)
  : TaskResult * list Notice :=
  match parse (tr_Payload req) with
  | inr err => (TaskPermanent ("invalid payload: " +:+ err), log)
  | inl (days, recipients) =>
    if negb (ValidTenant (tr_TenantID req)) then (TaskPermanent "a tenant is required", log)
    else if negb (et_Notify e) then (TaskPermanent "notification module not configured", log)
    else
      let limit := task_limit e in
      match Mem_ExpiringCertificates (tr_TenantID req) now (now + days * 24 * Hour) limit m with
      | Err _ => (TaskRetry "listing expiring certificates failed", log)
      | Ok [] => (TaskOK ("No certificates expiring within " +:+ FormatInt days +:+ " days") None, log)
      | Ok certs =>
        match issuerNames (tr_TenantID req) certs m with
        | Err _ => (TaskRetry "loading certificate issuers failed", log)
        | Ok names =>
          let mk r := mkNotice (tr_TenantID req) TemplateKey r (digest_vars days certs names now limit) (tr_ExecutionID req) in
          let n := Z.of_nat (length certs) in
          let all := FormatInt (Z.of_nat (length recipients)) in
          let head := "Found " +:+ FormatInt n +:+ " certificate(s) expiring within " +:+ FormatInt days +:+ " days" in
          match notify_all mk recipients 0 0 0 log with
          | (inr err, log) => (TaskPermanent ("notification refused the digest: " +:+ status_Code err), log)
          | (inl (sent, retry, failed), log) =>
            (if 0 <? retry
             then TaskRetry (head +:+ "; notified " +:+ FormatInt sent +:+ " of " +:+ all +:+ " recipient(s), "
                             +:+ FormatInt retry +:+ " to retry")
             else if 0 <? failed
             then TaskPermanent (head +:+ "; notified " +:+ FormatInt sent +:+ " of " +:+ all +:+ " recipient(s), "
                                 +:+ FormatInt failed +:+ " delivery failure(s)")
             else TaskOK (head +:+ "; notified " +:+ FormatInt sent +:+ " recipient(s)")
                    (Some (n, sent, crt_ID <$> certs)), log)
          end
        end
      end
  end.
End task.

Example epoch_date : Format_RFC3339 unix_epoch = "1970-01-01T00:00:00Z".
Proof. reflexivity. Qed.
Example leap_date : Format_RFC3339 (unix_epoch + 1709251199 * Second) = "2024-02-29T23:59:59Z".
Proof. reflexivity. Qed.
Example left_days : days_left (24 * Hour + 1) 0 = 2 /\ days_left (24 * Hour) 0 = 1 /\ days_left 0 (25 * Hour) = -1.
Proof. vm_compute. done. Qed.

(** ** A certificate cannot add lines to the digest *)
Definition no_ctl (s : string) : bool := string_forallb (fun c => negb (is_ctl c)) s.
Create HintDb text.
Lemma no_ctl_app a b : no_ctl a = true -> no_ctl b = true -> no_ctl (a +:+ b) = true.
Proof. unfold no_ctl. rewrite forallb_app. by intros -> ->. Qed.
Lemma no_ctl_if (b : bool) x y : no_ctl x = true -> no_ctl y = true -> no_ctl (if b then x else y) = true.
Proof. by destruct b. Qed.
Lemma no_ctl_digit c : is_digit c = true -> negb (is_ctl c) = true.
Proof. intros Hc%is_digit_range. unfold is_ctl. apply negb_true_iff, orb_false_iff. split; lia. Qed.
Lemma no_ctl_FormatInt z : no_ctl (FormatInt z) = true.
Proof.
  unfold FormatInt. destruct (z <? 0) eqn:E; bools; [unfold no_ctl; cbn [string_forallb]; apply andb_true_iff; split; [done|]|];
    apply digits_forallb; [apply no_ctl_digit|lia|done|apply no_ctl_digit|lia|done].
Qed.
Lemma no_ctl_append_int w z : no_ctl (append_int w z) = true.
Proof.
  unfold append_int. apply no_ctl_app; [by apply no_ctl_if|]. induction (seq _ _) as [|x l IH]; simpl.
  - apply no_ctl_FormatInt.
  - done.
Qed.
#[export] Hint Resolve no_ctl_app no_ctl_if no_ctl_FormatInt no_ctl_append_int : text.
Lemma no_ctl_date t : no_ctl (Format_RFC3339 t) = true.
Proof.
  unfold Format_RFC3339. destruct (civil _) as [[y m] d]. repeat (apply no_ctl_app; [by auto with text|]). done.
Qed.

(** The first [k] bytes of a string continue an encoding. *)
Fixpoint continues (k : nat) (s : string) : bool :=
  match k, s with
  | O, _ => true
  | S k', String c s' => (128 <=? byte_of c) && continues k' s'
  | S _, EmptyString => false
  end.
Lemma utf8_size_continues c s n : utf8_size (String c s) = S n -> continues n s = true.
Proof.
  unfold utf8_size, between. intros Hn. repeat case_match; simplify_eq; simpl; bools; repeat split;
    rewrite ?andb_true_iff, ?Z.leb_le; repeat split; try lia; repeat case_match; lia.
Qed.
Lemma high_no_ctl c : 128 <= byte_of c -> is_ctl c = false.
Proof. intros. unfold is_ctl. apply orb_false_iff. split; lia. Qed.
Lemma one_line_no_ctl k s : continues k s = true -> no_ctl (one_line k s) = true.
Proof.
  revert k. induction s as [|c s IH]; intros k Hk; [done|]. unfold no_ctl in *. destruct k as [|k].
  - cbn [one_line]. destruct (utf8_size (String c s)) eqn:E.
    + rewrite forallb_app. rewrite (IH 0%nat) by done. done.
    + cbn [string_forallb]. rewrite (IH n) by (by eapply utf8_size_continues). rewrite andb_true_r.
      by destruct (is_ctl c) eqn:Ec; rewrite ?Ec.
  - cbn [one_line string_forallb]. simpl in Hk. bools. rewrite IH by done. rewrite high_no_ctl by done. done.
Qed.
Lemma no_ctl_oneLine s : no_ctl (oneLine s) = true.
Proof. by apply one_line_no_ctl. Qed.
#[export] Hint Resolve no_ctl_date no_ctl_oneLine : text.
Lemma no_ctl_lacks s : no_ctl s = true -> lacks 10 s = true.
Proof.
  intros Hs. eapply forallb_impl; [|exact Hs]. intros c Hc. unfold is_ctl in Hc.
  destruct (byte_of c =? 10) eqn:E; [|done]. apply Z.eqb_eq in E. by rewrite E in Hc.
Qed.

Section digest_lemmas.
Context `{GoRuntime}.
Lemma no_ctl_line issuers now c : no_ctl (digest_line issuers now c) = true.
Proof.
  unfold digest_line. repeat (first [apply no_ctl_app | apply no_ctl_if]; [by auto with text|]).
  all: try apply no_ctl_if; done.
Qed.
Lemma digest_lines_no_ctl certs issuers now limit :
  Forall (fun l => no_ctl l = true) (digest_lines certs issuers now limit).
Proof.
  unfold digest_lines. apply Forall_app. split.
  - apply Forall_fmap, Forall_true. intros c. apply no_ctl_line.
  - case_match; [|done]. constructor; [|done]. unfold limited. by auto with text.
Qed.
End digest_lemmas.

Section digest_theorem.
Context `{GoRuntime}.
(** A certificate cannot forge the digest: whatever its subject, its names and
    the name of its issuer hold, the digest splits at the line feeds into one line
    per certificate, in the order of the listing, followed by the note of the limit
    exactly when the listing reached it, and no line has a control character. *)
Theorem digest_unforgeable certs issuers now limit :
  certs <> [] ->
  let lines := split_byte 10 (digest certs issuers now limit) in
  lines = (digest_line issuers now <$> certs)
            ++ (if limit <=? Z.of_nat (length certs) then [limited limit] else [])
  /\ Forall (fun l => string_forallb (fun c => negb (is_ctl c)) l = true) lines.
Proof.
  intros Hc lines. pose proof (digest_lines_no_ctl certs issuers now limit) as Hn.
  assert (Hl : lines = digest_lines certs issuers now limit).
  { apply (split_join newline); [by destruct certs|]. eapply Forall_impl; [exact Hn|]. apply no_ctl_lacks. }
  by rewrite Hl.
Qed.
End digest_theorem.

(** ** The recipients *)
Section parse_lemmas.
Context `{GoRuntime} `{TaskHost}.
Lemma distinct_recipients_spec i l seen acc out :
  distinct_recipients i l seen acc = inl out ->
  seen ≡ₚ ToLower <$> acc -> NoDup seen ->
  NoDup (ToLower <$> out)
  /\ (forall r, r ∈ out -> r ∈ acc \/ (r ∈ l /\ validAddress r = true))
  /\ (forall k, k ∈ ToLower <$> out <-> k ∈ ToLower <$> acc \/ k ∈ ToLower <$> l)
  /\ (length out <= length acc + length l)%nat.
Proof.
  revert i seen acc. induction l as [|r l IH]; intros i seen acc; simpl.
  - intros [= <-] Hp Hn. rewrite Hp in Hn. split_and!; [done|auto|set_solver|lia].
  - destruct (validAddress r) eqn:Hv; simpl; [|done]. destruct (contains seen (ToLower r)) eqn:Hs.
    + intros Hd Hp Hn. destruct (IH _ _ _ Hd Hp Hn) as (H1 & H2 & H3 & H4). split_and!; [done| |intros k|lia].
      * intros x Hx. destruct (H2 x Hx) as [?|[??]]; [auto|]. right. split; [set_solver|done].
      * rewrite H3. apply contains_spec in Hs. rewrite Hp in Hs. set_solver.
    + intros Hd Hp Hn. assert (Hr : ToLower r ∉ seen) by (rewrite <- contains_spec, Hs; done).
      destruct (IH _ _ _ Hd) as (H1 & H2 & H3 & H4).
      { rewrite fmap_app, Hp. simpl. by rewrite Permutation_app_comm. }
      { by constructor. }
      split_and!; [done| |intros k; rewrite H3, fmap_app; set_solver|rewrite length_app in H4; simpl in H4; lia].
      intros x Hx. destruct (H2 x Hx) as [Hx'|[??]]; [|right; split; [set_solver|done]].
      apply elem_of_app in Hx' as [?| ->%list_elem_of_singleton]; [auto|]. right. split; [set_solver|done].
Qed.
Lemma parse_spec raw days rs :
  parse raw = inl (days, rs) ->
  exists p, DecodeStrict raw = inl p /\ 1 <= days <= MaxDays
  /\ days = (if ep_DaysBeforeExpiry p =? 0 then DefaultDays else ep_DaysBeforeExpiry p)
  /\ NoDup (ToLower <$> rs) /\ rs <> [] /\ Z.of_nat (length rs) <= MaxRecipients
  /\ (forall r, r ∈ rs -> r ∈ ep_Recipients p /\ validAddress r = true)
  /\ (forall r, r ∈ ep_Recipients p -> ToLower r ∈ ToLower <$> rs).
Proof.
  unfold parse. destruct (DecodeStrict raw) as [p|]; [|done]. set (d := if ep_DaysBeforeExpiry p =? 0 then DefaultDays else _).
  destruct ((d <? 1) || _) eqn:E1; [done|]. destruct ((Z.of_nat _ <? 1) || _) eqn:E2; [done|].
  destruct (distinct_recipients _ _ _ _) as [l|] eqn:Ed; [|done]. intros [= <- <-]. bools.
  destruct (distinct_recipients_spec _ _ _ _ _ Ed) as (Hnd & Hin & Hk & Hlen); [done|constructor|].
  exists p. split_and!; try done; try lia.
  - intros ->. destruct (ep_Recipients p) as [|r l]; simpl in *; [lia|]. specialize (Hk (ToLower r)). set_solver.
  - simpl in Hlen. lia.
  - intros r Hr. destruct (Hin r Hr) as [?|]; [set_solver|done].
  - intros r Hr. apply Hk. right. set_solver.
Qed.
End parse_lemmas.

(** ** The task *)
Section task_lemmas.
Context `{GoRuntime} `{TaskHost}.
(** How a call ended. *)
Definition went (sent retryable : bool) (o : res notify_result) : bool :=
  match o with
  | Ok r => if sent then nr_Sent r else negb (nr_Sent r) && Bool.eqb (nr_Retryable r) retryable
  | Err _ => false
  end.
Definition count (sent retryable : bool) (outs : list (res notify_result)) : Z :=
  Z.of_nat (length (filter (fun o => went sent retryable o = true) outs)).
(** [outs] are the answers to the first calls for [l], made in order after [log]. *)
Definition answers (mk : string -> Notice) (l : list string) (log : list Notice) (outs : list (res notify_result)) : Prop :=
  (length outs <= length l)%nat
  /\ forall i x o, l !! i = Some x -> outs !! i = Some o -> o = SendKey (log ++ (mk <$> take i l)) (mk x).
Lemma answers_cons mk x l log outs :
  answers mk l (log ++ [mk x]) outs -> answers mk (x :: l) log (SendKey log (mk x) :: outs).
Proof.
  intros [Hl Ha]. split; [simpl; lia|]. intros [|i] y o; simpl.
  - intros [= <-] [= <-]. by rewrite app_nil_r.
  - intros Hx Ho. rewrite (Ha _ _ _ Hx Ho). by rewrite <- app_assoc.
Qed.
Lemma count_cons s r o outs : count s r (o :: outs) = (if went s r o then 1 else 0) + count s r outs.
Proof.
  unfold count. rewrite filter_cons. destruct (went s r o); [rewrite decide_True by done|rewrite decide_False by done]; simpl length; lia.
Qed.
Lemma notify_all_spec mk l sent retry failed log out log' :
  notify_all mk l sent retry failed log = (out, log') ->
  exists outs, answers mk l log outs /\ log' = log ++ (mk <$> take (length outs) l)
  /\ match out with
     | inr e => exists before, outs = before ++ [Err e] /\ Forall (fun o => is_ok o = true) before
     | inl (s, r, f) =>
       Forall (fun o => is_ok o = true) outs
       /\ ((length outs < length l)%nat -> ctx_Err log' = true)
       /\ s = sent + count true true outs
       /\ r = retry + count false true outs + (Z.of_nat (length l) - Z.of_nat (length outs))
       /\ f = failed + count false false outs
     end.
Proof.
  revert sent retry failed log. induction l as [|x l IH]; intros sent retry failed log; cbn [notify_all].
  - intros [= <- <-]. exists []. split; [by split|]. rewrite app_nil_r. split; [done|].
    split_and!; [constructor|simpl; lia|unfold count; simpl; lia..].
  - destruct (ctx_Err log) eqn:Ec.
    { intros [= <- <-]. exists []. split; [split; simpl; [lia|done]|]. rewrite app_nil_r. split; [done|].
      split_and!; [constructor|done|unfold count; simpl; lia..]. }
    destruct (SendKey log (mk x)) as [r|e] eqn:Es.
    2: { intros [= <- <-]. exists [SendKey log (mk x)]. split; [|split; [by rewrite Es|exists []; by rewrite Es]].
         apply answers_cons. split; [simpl; lia|done]. }
    intros Hrest.
    assert (Hout : exists s' r' f', notify_all mk l s' r' f' (log ++ [mk x]) = (out, log')
        /\ s' = sent + (if went true true (Ok r) then 1 else 0)
        /\ r' = retry + (if went false true (Ok r) then 1 else 0)
        /\ f' = failed + (if went false false (Ok r) then 1 else 0)).
    { unfold went. destruct (nr_Sent r), (nr_Retryable r); simpl in *; do 3 eexists; (split; [exact Hrest|lia]). }
    destruct Hout as (s' & r' & f' & Hn & -> & -> & ->).
    destruct (IH _ _ _ _ Hn) as (outs & Ha & Hlog & Hm). exists (SendKey log (mk x) :: outs).
    split; [by apply answers_cons|]. split; [by rewrite Hlog, <- app_assoc|]. rewrite Es.
    destruct out as [[[s1 r1] f1]|e].
    + destruct Hm as (Hok & Hc & -> & -> & ->). rewrite !count_cons. simpl length.
      split_and!; [by constructor|intros; apply Hc; lia|lia..].
    + destruct Hm as (before & -> & Hb). exists (Ok r :: before). split; [done|by constructor].
Qed.

(** The listing of the task: live certificates of the tenant that expire within
    the days, the soonest first; all of them when there are fewer than the limit. *)
Lemma expiring_listing tid now before limit m certs :
  Mem_ExpiringCertificates tid now before limit m = Ok certs ->
  (forall c, c ∈ certs -> exists k x, m_Certificates m !! k = Some x /\ c = cpCertificate x
     /\ crt_TenantID x = tid /\ expires_within now before x = true)
  /\ StronglySorted (fun a b => crt_NotAfter a <= crt_NotAfter b) certs
  /\ (Z.of_nat (length certs) < limit -> forall k x, m_Certificates m !! k = Some x ->
        crt_TenantID x = tid -> expires_within now before x = true -> cpCertificate x ∈ certs).
Proof.
  unfold Mem_ExpiringCertificates, fail_read. case_match; [done|]. rewrite sortAsc_asc.
  set (all := sort_slice _ _). intros [= <-]. destruct (sqlLimit_prefix all limit) as [rest Hrest].
  assert (Hin : forall c, c ∈ all <-> exists k x, m_Certificates m !! k = Some x /\ c = cpCertificate x
     /\ crt_TenantID x = tid /\ expires_within now before x = true).
  { intros c. unfold all. rewrite elem_of_sort_slice, list_elem_of_fmap. split.
    - intros (x & -> & [Hp Hx]%list_elem_of_filter). bools.
      apply list_elem_of_fmap in Hx as ([k y] & -> & Hk%elem_of_map_range). eauto 6.
    - intros (k & x & Hk & -> & <- & He). exists x. split; [done|]. apply list_elem_of_filter. split.
      + by rewrite str_eqb_refl, He.
      + apply list_elem_of_fmap. exists (k, x). by rewrite elem_of_map_range. }
  split_and!.
  - intros c Hc. apply Hin. rewrite Hrest. set_solver.
  - assert (Hs : StronglySorted (leq (asc (fun c => (crt_NotAfter c, crt_ID c)))) (sqlLimit all limit ++ rest))
      by (rewrite <- Hrest; apply sort_asc_sorted).
    apply StronglySorted_app_1_l in Hs. eapply sorted_weaken; [|exact Hs].
    intros a b Hab. unfold leq, asc, key_ltb in Hab. simpl in Hab. bools. lia.
  - intros Hl k x Hk Ht He. rewrite sqlLimit_all by done. apply Hin. eauto 6.
Qed.
End task_lemmas.

Section issuer_names.
Context `{GoRuntime}.
Lemma issuer_ids_elem certs id : id ∈ issuer_ids certs <-> id ∈ crt_IssuerID <$> certs.
Proof.
  unfold issuer_ids.
  assert (Hg : forall acc, id ∈ foldl (fun ids c => if contains ids (crt_IssuerID c) then ids
      else ids ++ [crt_IssuerID c]) acc certs <-> id ∈ acc \/ id ∈ crt_IssuerID <$> certs).
  { induction certs as [|c certs IH]; intros acc; simpl; [set_solver|]. rewrite IH.
    destruct (contains acc _) eqn:E; [apply contains_spec in E|]; set_solver. }
  rewrite Hg. set_solver.
Qed.
Lemma names_fold (f : string -> string) (l : list Issuer) (acc : gmap string string) id :
  (forall i, i ∈ l -> iss_Name i = f (iss_ID i)) ->
  foldl (fun names i => <[iss_ID i := iss_Name i]> names) acc l !! id
  = if decide (id ∈ iss_ID <$> l) then Some (f id) else acc !! id.
Proof.
  revert acc. induction l as [|i l IH]; intros acc Hf; cbn [foldl fmap list_fmap]; [case_decide as Hd; [by apply elem_of_nil in Hd|done]|].
  rewrite IH by set_solver. destruct (decide (id = iss_ID i)) as [->|Hne].
  - rewrite (Hf i) by set_solver. rewrite lookup_insert_eq. rewrite (decide_True _ _ (P := iss_ID i ∈ iss_ID i :: _)) by set_solver.
    by case_decide.
  - rewrite lookup_insert_ne by done. repeat case_decide; set_solver.
Qed.
(** The digest names an issuer of the tenant, and no other. *)
Definition issuer_name (tid : string) (m : Mem) (id : string) : option string :=
  match m_Issuers m !! id with
  | Some i => if iss_TenantID i =s tid then Some (iss_Name i) else None
  | None => None
  end.
Lemma issuerNames_spec tid certs m :
  keyed iss_ID (m_Issuers m) -> m_Fail m = ∅ ->
  exists names, issuerNames tid certs m = Ok names
  /\ forall c, c ∈ certs -> names !! crt_IssuerID c = issuer_name tid m (crt_IssuerID c).
Proof.
  intros Hk Hf. unfold issuerNames, Mem_IssuersByIDs, fail_read. rewrite Hf, lookup_empty. cbn [res_bind].
  eexists. split; [done|]. intros c Hc. set (l := sortByNameID _ _ _).
  assert (Hin : forall i, i ∈ l <-> exists id x, id ∈ issuer_ids certs /\ m_Issuers m !! id = Some x
      /\ iss_TenantID x = tid /\ i = cpIssuer x <| iss_CertificateCount := certCountForIssuer m id |>).
  { intros i. unfold l, sortByNameID. rewrite elem_of_sort_slice, list_elem_of_bind. split.
    - intros (id & Hi & Hid). destruct (m_Issuers m !! id) as [x|] eqn:E; [|by apply elem_of_nil in Hi].
      destruct (iss_TenantID x =s tid) eqn:Et; [|by apply elem_of_nil in Hi].
      apply list_elem_of_singleton in Hi as ->. bools. eauto 8.
    - intros (id & x & Hid & Hx & <- & ->). exists id. rewrite Hx, str_eqb_refl. split; [set_solver|done]. }
  rewrite (names_fold (fun id => default "" (iss_Name <$> m_Issuers m !! id))).
  2: { intros i (id & x & _ & Hx & _ & ->)%Hin. simpl. by rewrite (Hk _ _ Hx), Hx. }
  unfold issuer_name. rewrite lookup_empty. case_decide as Hd.
  - apply list_elem_of_fmap in Hd as (i & Hid & (id & x & _ & Hx & Ht & ->)%Hin). simpl in Hid.
    rewrite Hid, (Hk _ _ Hx), Hx. simpl. by rewrite Ht, str_eqb_refl.
  - destruct (m_Issuers m !! crt_IssuerID c) as [x|] eqn:Hx; [|done].
    destruct (iss_TenantID x =s tid) eqn:Et; [|done]. bools. contradict Hd. apply list_elem_of_fmap.
    eexists. split; [|apply Hin; exists (crt_IssuerID c), x; split_and!; [|done|done|done]].
    + simpl. by rewrite (Hk _ _ Hx).
    + apply issuer_ids_elem. set_solver.
Qed.
End issuer_names.

Section handle.
Context `{GoRuntime} `{TaskHost}.
(** The notices a run sends: one text for all, under the key of the template. *)
Definition notice_for (e : ExpiringTask) (now : Z) (req : TaskRequest) (days : Z) (certs : list IssuedCertificate)
    (names : gmap string string) (r : string) : Notice :=
  mkNotice (tr_TenantID req) TemplateKey r (digest_vars days certs names now (task_limit e)) (tr_ExecutionID req).
(** What the result says of the answers [outs] to the calls for [rs]. *)
Definition reports (rs : list string) (certs : list IssuedCertificate) (outs : list (res notify_result)) (r : TaskResult)
  : Prop :=
  match r with
  | TaskOK _ None => certs = [] /\ outs = []
  | TaskOK _ (Some (n, sent, ids)) =>
    length outs = length rs /\ Forall (fun o => went true true o = true) outs
    /\ n = Z.of_nat (length certs) /\ sent = Z.of_nat (length rs) /\ ids = crt_ID <$> certs
  | TaskRetry _ =>
    Forall (fun o => is_ok o = true) outs /\ ((length outs < length rs)%nat \/ 0 < count false true outs)
  | TaskPermanent _ =>
    (exists before e, outs = before ++ [Err e] /\ Forall (fun o => is_ok o = true) before)
    \/ (length outs = length rs /\ Forall (fun o => is_ok o = true) outs
        /\ count false true outs = 0 /\ 0 < count false false outs)
  end.
Lemma count_nonneg s r outs : 0 <= count s r outs.
Proof. unfold count. lia. Qed.
Lemma all_sent outs :
  Forall (fun o => is_ok o = true) outs -> count false true outs = 0 -> count false false outs = 0 ->
  Forall (fun o => went true true o = true) outs /\ count true true outs = Z.of_nat (length outs).
Proof.
  induction 1 as [|o outs Ho _ IH]; [done|]. rewrite !count_cons. simpl length. intros Hr Hf.
  pose proof (count_nonneg false true outs). pose proof (count_nonneg false false outs).
  destruct o as [[[] []]|]; simpl in *; try done; try lia.
  all: destruct IH as [IH1 IH2]; [lia|lia|]; split; [by constructor|lia].
Qed.
(** The expiry task accounts for every notice.  With a valid payload, for a
    tenant, over a store that answers: the certificates reported are the live ones
    of the tenant that expire within the days, soonest first, and all of them when
    they are fewer than the limit; the recipients are called in order, each once
    although addresses differ in case, and all are sent the same digest, which
    names the issuers of the tenant; success means every recipient was sent it, a
    retry that some call was not made or is to be repeated, and a permanent failure
    that a call was refused, which ends the run, or that some delivery failed for good. *)
Theorem Handle_accounts e now req m log days rs :
  parse (tr_Payload req) = inl (days, rs) -> ValidTenant (tr_TenantID req) = true -> et_Notify e = true ->
  m_Fail m = ∅ -> keyed iss_ID (m_Issuers m) ->
  let tid := tr_TenantID req in
  let before := now + days * 24 * Hour in
  let '(result, log') := Handle e now req m log in
  NoDup (ToLower <$> rs) /\ 1 <= days <= MaxDays
  /\ exists certs names outs,
    (forall c, c ∈ certs -> exists k x, m_Certificates m !! k = Some x /\ c = cpCertificate x
       /\ crt_TenantID x = tid /\ expires_within now before x = true)
    /\ StronglySorted (fun a b => crt_NotAfter a <= crt_NotAfter b) certs
    /\ (Z.of_nat (length certs) < task_limit e -> forall k x, m_Certificates m !! k = Some x ->
          crt_TenantID x = tid -> expires_within now before x = true -> cpCertificate x ∈ certs)
    /\ (forall c, c ∈ certs -> names !! crt_IssuerID c = issuer_name tid m (crt_IssuerID c))
    /\ answers (notice_for e now req days certs names) rs log outs
    /\ log' = log ++ (notice_for e now req days certs names <$> take (length outs) rs)
    /\ reports rs certs outs result.
Proof.
  intros Hp Ht Hn Hf Hk tid before. destruct (parse_spec _ _ _ Hp) as (p & _ & Hdays & _ & Hnd & _).
  unfold Handle. rewrite Hp, Ht, Hn. simpl negb. cbv iota. fold tid before.
  assert (Hl : exists certs, Mem_ExpiringCertificates tid now before (task_limit e) m = Ok certs).
  { unfold Mem_ExpiringCertificates, fail_read. rewrite Hf, lookup_empty. eauto. }
  destruct Hl as [certs Hc]. destruct (expiring_listing _ _ _ _ _ _ Hc) as (H1 & H2 & H3). rewrite Hc.
  destruct (issuerNames_spec tid certs m Hk Hf) as (names & Hnames & Hiss).
  destruct certs as [|c0 certs0].
  { split; [done|]. split; [done|]. exists [], names, []. split; [done|]. split; [done|].
    split; [exact H3|]. split; [done|]. split; [split; [simpl; lia|done]|]. by rewrite app_nil_r. }
  set (certs := c0 :: certs0) in *. rewrite Hnames.
  destruct (notify_all _ _ _ _ _ _) as [out log'] eqn:En.
  destruct (notify_all_spec _ _ _ _ _ _ _ _ En) as (outs & Ha & Hlog & Hm).
  destruct out as [[[s r] f]|err]; (split; [done|]; split; [done|]; exists certs, names, outs; split_and!; try done).
  - destruct Hm as (Hok & _ & -> & Hr & ->). pose proof (count_nonneg false true outs).
    pose proof (count_nonneg false false outs). pose proof (proj1 Ha) as Hlen.
    destruct (0 <? r) eqn:E1; bools; [split; [done|]; lia|].
    destruct (0 <? 0 + count false false outs) eqn:E2; bools; [right; split_and!; [lia|done|lia|lia]|].
    destruct (all_sent outs Hok) as [Hs Hcount]; [lia|lia|]. split_and!; [lia|done|done|lia|done].
  - destruct Hm as (bf & -> & Hb). left. eauto.
Qed.
End handle.

(** ** A run *)
Module ExpiringSample.
#[local] Existing Instance std_runtime.
#[local] Instance host : TaskHost := {|
  DecodeStrict raw := inl (mkExpiringPayload 0 ["ops@example.com"; "Ops@example.com"; "sec@example.com"]);
  ValidTenant tid := tid <>s "";
  ParseAddress s := Some ("", s);
  SendKey log n := Ok (mkNotifyResult true false);
  status_Code e := "Unknown";
  ctx_Err log := false |}.
Definition crafted : IssuedCertificate :=
  sample_cert <| crt_ID := "c1" |> <| crt_TenantID := "t1" |> <| crt_IssuerID := "i1" |> <| crt_Status := "active" |>
    <| crt_SupersededBy := None |> <| crt_Subject := "CN=web" +:+ str1 newline +:+ "- forged" |> <| crt_SANs := None |>
    <| crt_NotAfter := unix_epoch + 25 * Hour |> <| crt_AutoRenew := true |>.
Definition store : Mem := (Mem_New 0) <| m_Certificates := {["c1" := crafted]} |>.
Definition task : ExpiringTask := mkExpiringTask true 0.
Definition request : TaskRequest := mkTaskRequest "t1" "x1" "{}".
Example run : Handle task unix_epoch request store [] =
  (TaskOK "Found 1 certificate(s) expiring within 7 days; notified 2 recipient(s)" (Some (1, 2, ["c1"])),
   notice_for task unix_epoch request 7 [cpCertificate crafted] ∅ <$> ["ops@example.com"; "sec@example.com"]).
Proof. vm_compute. reflexivity. Qed.
Example crafted_line : digest [crafted] ∅ unix_epoch 1000 =
  "- web - forged — issuer unknown — expires 1970-01-02T01:00:00Z (2 day(s)) — auto-renew on".
Proof. vm_compute. reflexivity. Qed.
(** The control character U+0085, a line break to some readers, is kept. *)
Example next_line_kept : let nel := String (chr 194) (str1 (chr 133)) in oneLine nel = nel.
Proof. reflexivity. Qed.
(** A day count of 0, which the advertised schema refuses, means the default. *)
Example zero_days : parse "{}" = inl (7, ["ops@example.com"; "sec@example.com"]).
Proof. vm_compute. reflexivity. Qed.
Lemma digest_unforgeable_witness :
  split_byte 10 (digest [crafted] ∅ unix_epoch 1) = [digest_line ∅ unix_epoch crafted; limited 1]
  /\ Forall (fun l => string_forallb (fun c => negb (is_ctl c)) l = true) (split_byte 10 (digest [crafted] ∅ unix_epoch 1)).
Proof. apply (digest_unforgeable [crafted] ∅ unix_epoch 1). discriminate. Defined.
Lemma Handle_accounts_witness :
  exists certs names outs,
    answers (notice_for task unix_epoch request 7 certs names) ["ops@example.com"; "sec@example.com"] [] outs
    /\ reports ["ops@example.com"; "sec@example.com"] certs outs
         (TaskOK "Found 1 certificate(s) expiring within 7 days; notified 2 recipient(s)" (Some (1, 2, ["c1"]))).
Proof.
  assert (Hp : parse (tr_Payload request) = inl (7, ["ops@example.com"; "sec@example.com"])) by (vm_compute; reflexivity).
  assert (Ht : ValidTenant (tr_TenantID request) = true) by (vm_compute; reflexivity).
  assert (Hf : m_Fail store = ∅) by (unfold store; reflexivity).
  assert (Hk : keyed iss_ID (m_Issuers store)) by (intros k x Hx; discriminate Hx).
  pose proof (Handle_accounts task unix_epoch request store [] 7 _ Hp Ht eq_refl Hf Hk) as Hh.
  rewrite run in Hh. destruct Hh as (_ & _ & certs & names & outs & _ & _ & _ & _ & Ha & _ & Hr).
  exists certs, names, outs. split; [exact Ha|exact Hr].
Defined.
End ExpiringSample.
