(* ===== verification/Identity.v ===== *)
(** The identity a service runs under: internal/selfidentity/provider.go, which
    signs its own certificate with the CA of the store, and the rotation it shares
    with sdk/pkg/lcmidentity.  A provider holds one state; every watcher is a
    goroutine that waits, mints, commits under the lock and offers the update to
    its channel, which holds one. *)

From S2P Require Import Prelude Rows Memstore MemstoreInv GoJson GoUrl Csr Sealed World Ca.

(** ** What a provider holds *)
Record ident := mkIdent { idn_id : string; idn_nb : Z; idn_na : Z; idn_serial : string }.
Record bundle := mkTrustBundle { bdl_td : string; bdl_roots : list X509; bdl_ver : Z }.
#[export] Instance trust_bundle_eta : RecordEta bundle := fun r => mkTrustBundle (bdl_td r) (bdl_roots r) (bdl_ver r).
Record TLSCertificate := mkTLSCertificate { tls_Certificate : list string; tls_PrivateKey : string; tls_Leaf : X509 }.
Record state := mkState { st_crt : TLSCertificate; st_id : ident; st_bundle : bundle }.
#[export] Instance state_eta : RecordEta state := fun r => mkState (st_crt r) (st_id r) (st_bundle r).
Definition u64 (z : Z) : Z := z mod 2 ^ 64.

(** [identity.NewSPIFFEID] of the framework: the identity of a service as a text. *)
Class IdentityHost := NewSPIFFEID : string -> string -> res string.
Definition service_id (trustDomain service : string) : string := "spiffe://" +:+ trustDomain +:+ "/svc/" +:+ service.

(** ** Sets of roots *)
(** How often each certificate occurs. *)
Definition root_counts (l : list X509) : gmap string Z :=
  foldl (fun seen c => <[x_Raw c := default 0 (seen !! x_Raw c) + 1]> seen) ∅ l.
Fixpoint take_roots (seen : gmap string Z) (l : list X509) : bool :=
  match l with
  | [] => true
  | c :: l' => let n := default 0 (seen !! x_Raw c) in
               if n =? 0 then false else take_roots (<[x_Raw c := n - 1]> seen) l'
  end.
Definition sameRoots (a b : list X509) : bool :=
  if negb (Z.of_nat (length a) =? Z.of_nat (length b)) then false else take_roots (root_counts a) b.

Section pem.
Context `{Crypto}.
(** The certificates of a text; [fuel] bounds the number of blocks. *)
Fixpoint parse_roots (fuel : nat) (rest : string) : res (list X509) :=
  match fuel with
  | O => Ok []
  | S n =>
    match pem_next rest with
    | None => Ok []
    | Some (blk, rest') =>
      if blk_Type blk <>s "CERTIFICATE" then parse_roots n rest'
      else let? c := parse_certificate (blk_Bytes blk) in
           let? out := parse_roots n rest' in
           Ok (c :: out)
    end
  end.
Definition parseRoots (pemStr : string) : res (list X509) := parse_roots (S (String.length pemStr)) pemStr.
End pem.

(** ** The provider *)
(** What a watcher does next. *)
Inductive stage :=
| Arming                    (* about to read the expiry *)
| Waiting (d : Z)           (* in the select, the timer set to [d] *)
| Minting
| Minted (st : state)       (* about to take the lock *)
| Offering (u : state)      (* about to send *)
| BackingOff
| Returned.
Inductive IdUpdate := UpdateErr (e : err) | UpdateState (id : ident) (b : bundle).
Record watcher := mkWatcher { wt_stage : stage; wt_ch : option IdUpdate; wt_got : list IdUpdate }.
#[export] Instance watcher_eta : RecordEta watcher := fun r => mkWatcher (wt_stage r) (wt_ch r) (wt_got r).
(** [pv_published] lists the bundles in the order they were committed. *)
Record Provider := mkProvider {
  pv_st : option state; pv_ver : Z; pv_subs : list watcher; pv_closed : bool; pv_published : list bundle;
}.
#[export] Instance Provider_eta : RecordEta Provider := fun r =>
  mkProvider (pv_st r) (pv_ver r) (pv_subs r) (pv_closed r) (pv_published r).

(** How a commit numbers its bundle: the provider's counter and the version. *)
Class Versioning := next_version : bundle -> bundle -> Z -> Z * Z.
(** The provider of the service: a new version only for new roots. *)
Definition self_version (old new : bundle) (ver : Z) : Z * Z :=
  if sameRoots (bdl_roots old) (bdl_roots new) then (ver, bdl_ver old) else (u64 (ver + 1), u64 (ver + 1)).
(** The providers of the SDK: a new version for every renewal. *)
Definition sdk_version (old new : bundle) (ver : Z) : Z * Z := (u64 (ver + 1), u64 (ver + 1)).

(** The end of [New]: the first state. *)
Definition first_state (st : state) : Provider :=
  let b := (st_bundle st) <| bdl_ver := u64 (0 + 1) |> in
  mkProvider (Some (st <| st_bundle := b |>)) (u64 (0 + 1)) [] false [b].
Definition Current (p : Provider) : res (ident * bundle) :=
  match pv_st p with
  | Some st => Ok (st_id st, st_bundle st)
  | None => Err (Opaque "no identity")
  end.
Definition Credential (p : Provider) : res TLSCertificate :=
  match pv_st p with
  | Some st => Ok (st_crt st)
  | None => Err (Opaque "no credential")
  end.
(** [select { case ch <- u: default: }] on a channel of one place. *)
Definition offer (u : IdUpdate) (w : watcher) : watcher :=
  match wt_ch w with Some _ => w | None => w <| wt_ch := Some u |> end.

Section rotation.
Context `{Versioning}.
(** The critical section of a renewal. *)
Definition commit (st : state) (p : Provider) : state * Provider :=
  match pv_st p with
  | None => (st, p)
  | Some cur =>
    let '(pver, bver) := next_version (st_bundle cur) (st_bundle st) (pv_ver p) in
    let b := (st_bundle st) <| bdl_ver := bver |> in
    let st := st <| st_bundle := b |> in
    (st, p <| pv_st := Some st |> <| pv_ver := pver |> <| pv_published := pv_published p ++ [b] |>)
  end.

(** The steps of the goroutines and of their callers.  [Fire]: the timer of a
    watcher, or in the SDK a push of the server; [Mint]: the mint of a watcher
    answers; [Quit]: its context or the provider ends while it waits. *)
Inductive id_event :=
| Watch
| Arm (i : nat) (now : Z)
| Fire (i : nat)
| Mint (i : nat) (r : res state)
| Commit (i : nat)
| Offer (i : nat)
| Resume (i : nat)
| Quit (i : nat)
| Receive (i : nat)
| CloseProvider.

(** The delay until a renewal, from the expiry, the clock and the margin. *)
Definition renew_delay (na now rb : Z) : Z :=
  let d := wrap64 (time_sub na now - rb) in if d <? 0 then 0 else d.
Context (margin : Provider -> Z).

Definition watcher_step (ev : id_event) (w : watcher) (p : Provider) : watcher * Provider :=
  match ev, wt_stage w with
  | Arm _ now, Arming =>
    match pv_st p with
    | Some cur => (w <| wt_stage := Waiting (renew_delay (idn_na (st_id cur)) now (margin p)) |>, p)
    | None => (w, p)
    end
  | Fire _, Waiting _ => (w <| wt_stage := Minting |>, p)
  | Mint _ (Ok st), Minting => (w <| wt_stage := Minted st |>, p)
  | Mint _ (Err e), Minting => ((offer (UpdateErr e) w) <| wt_stage := BackingOff |>, p)
  | Commit _, Minted st => let '(st, p) := commit st p in (w <| wt_stage := Offering st |>, p)
  | Offer _, Offering st => ((offer (UpdateState (st_id st) (st_bundle st)) w) <| wt_stage := Arming |>, p)
  | Resume _, BackingOff => (w <| wt_stage := Arming |>, p)
  | Quit _, (Waiting _ | BackingOff) => (w <| wt_stage := Returned |>, p)
  | Receive _, _ =>
    match wt_ch w with
    | Some u => (w <| wt_ch := None |> <| wt_got := wt_got w ++ [u] |>, p)
    | None => (w, p)
    end
  | _, _ => (w, p)
  end.
Definition event_watcher (ev : id_event) : option nat :=
  match ev with
  | Arm i _ | Fire i | Mint i _ | Commit i | Offer i | Resume i | Quit i | Receive i => Some i
  | Watch | CloseProvider => None
  end.
(** One step; a goroutine that is not at the place an event speaks of ignores it. *)
Definition provider_step (p : Provider) (ev : id_event) : Provider :=
  match ev with
  | Watch => p <| pv_subs := pv_subs p ++ [mkWatcher Arming None []] |>
  | CloseProvider => p <| pv_closed := true |>
  | _ => match event_watcher ev with
         | None => p
         | Some i =>
           match pv_subs p !! i with
           | None => p
           | Some w => let '(w', p') := watcher_step ev w p in p' <| pv_subs := <[i := w']> (pv_subs p') |>
           end
         end
  end.
Definition provider_run (evs : list id_event) (p : Provider) : Provider := foldl provider_step p evs.
End rotation.

(** ** The provider of the service *)
Record SelfConfig := mkSelfConfig {
  sc_CA : bool; sc_TenantID : string; sc_TrustDomain : string; sc_ServiceName : string; sc_TTL : Z; sc_RenewBefore : Z;
}.
Definition self_margin (cfg : SelfConfig) (p : Provider) : Z :=
  if sc_RenewBefore cfg <=? 0 then Z.quot (sc_TTL cfg) 3 else sc_RenewBefore cfg.
Section self.
Context `{Env} `{IdentityHost}.
(** A fresh key, a leaf for it from the CA, and the roots the CA publishes. *)
Definition self_mint (cfg : SelfConfig) (now : Z) : M state :=
  let td := sc_TrustDomain cfg in
  let* (key, pub) := drawing generate_key in
  let* (der, _) := SignLeaf now (sc_TenantID cfg) td (service_id td (sc_ServiceName cfg)) pub (sc_TTL cfg) in
  let* leaf := st_lift (parse_certificate der) in
  let* bundlePEM := reading (ca_Bundle (sc_TenantID cfg) td) in
  match parseRoots bundlePEM with
  | Ok (r :: roots) =>
    let* sid := st_lift (NewSPIFFEID td (sc_ServiceName cfg)) in
    st_ret (mkState (mkTLSCertificate [der] key leaf)
              (mkIdent sid (x_NotBefore leaf) (x_NotAfter leaf) (FormatInt (x_SerialNumber leaf)))
              (mkTrustBundle td (r :: roots) 0))
  | _ => st_err (Opaque "selfidentity: empty trust bundle")
  end.
Definition self_New (cfg : SelfConfig) (now : Z) : M Provider :=
  let* _ := st_guard (sc_CA cfg) (Opaque "selfidentity: CA is required") in
  let* _ := st_guard (negb ((sc_TenantID cfg =s "") || (sc_TrustDomain cfg =s "") || (sc_ServiceName cfg =s "")))
              (Opaque "selfidentity: TenantID, TrustDomain and ServiceName are required") in
  let* _ := st_guard (negb (sc_TTL cfg <=? 0)) (Opaque "selfidentity: TTL must be positive") in
  let* st := self_mint cfg now in
  st_ret (first_state st).
End self.

(** ** Comparing sets of roots *)
Definition occ (s : string) (l : list string) : Z := Z.of_nat (length (filter (fun x => x = s) l)).
Definition represents (seen : gmap string Z) (l : list string) : Prop := forall s, default 0 (seen !! s) = occ s l.
Lemma occ_cons s x l : occ s (x :: l) = (if decide (x = s) then 1 else 0) + occ s l.
Proof. unfold occ. rewrite filter_cons. case_decide; simpl length; lia. Qed.
Lemma occ_perm s l k : l ≡ₚ k -> occ s l = occ s k.
Proof. intros Hp. unfold occ. by rewrite Hp. Qed.
Lemma occ_elem s l : s ∈ l <-> occ s l <> 0.
Proof.
  induction l as [|x l IH]; [unfold occ; simpl; set_solver|]. rewrite occ_cons, elem_of_cons, IH.
  assert (0 <= occ s l) by (unfold occ; lia). case_decide; [split; [lia|auto]|]. split; [intros [?|?]; [congruence|lia]|right; lia].
Qed.
Lemma root_counts_spec l : represents (root_counts l) (x_Raw <$> l).
Proof.
  assert (Hg : forall (l : list X509) seen k, represents seen k -> represents
    (foldl (fun seen c => <[x_Raw c := default 0 (seen !! x_Raw c) + 1]> seen) seen l) ((x_Raw <$> l) ++ k)).
  { clear l. induction l as [|c l IH]; intros seen k Hs; [done|]. cbn [foldl fmap list_fmap app]. intros s.
    rewrite (IH _ (x_Raw c :: k)).
    - apply occ_perm. by rewrite Permutation_middle.
    - intros t. rewrite occ_cons. destruct (decide (x_Raw c = t)) as [<-|Hne];
        [rewrite lookup_insert_eq|rewrite lookup_insert_ne by done]; simpl; rewrite Hs; lia. }
  specialize (Hg l ∅ []). rewrite app_nil_r in Hg. apply Hg. done.
Qed.
Lemma take_roots_spec l seen k :
  represents seen k -> take_roots seen l = true <-> x_Raw <$> l ⊆+ k.
Proof.
  revert seen k. induction l as [|c l IH]; intros seen k Hs; cbn [take_roots fmap list_fmap].
  { split; [intros; apply submseteq_nil_l|done]. }
  cbv zeta. rewrite Hs. destruct (occ (x_Raw c) k =? 0) eqn:E; bools.
  - split; [done|]. intros (k' & Hk & _)%submseteq_cons_l. rewrite (occ_perm _ _ _ Hk), occ_cons, decide_True in E by done.
    assert (0 <= occ (x_Raw c) k') by (unfold occ; lia). lia.
  - apply occ_elem, elem_of_Permutation in E as [k' Hk].
    assert (Ho : forall s, occ s k = (if decide (x_Raw c = s) then 1 else 0) + occ s k')
      by (intros s; by rewrite (occ_perm _ _ _ Hk), occ_cons).
    assert (Hs' : represents (<[x_Raw c := occ (x_Raw c) k - 1]> seen) k').
    { intros t. destruct (decide (x_Raw c = t)) as [<-|Hne].
      - rewrite lookup_insert_eq. simpl. rewrite (Ho (x_Raw c)), decide_True by done. lia.
      - rewrite lookup_insert_ne by done. rewrite (Hs t), (Ho t), decide_False by done. lia. }
    rewrite (Hs (x_Raw c)), (IH _ _ Hs'). split.
    + intros Hl. rewrite Hk. by apply submseteq_skip.
    + intros (k2 & Hk2 & Hl)%submseteq_cons_l. rewrite Hk in Hk2. apply Permutation_cons_inv in Hk2. by rewrite Hk2.
Qed.
(** [sameRoots] decides whether two bundles hold the same certificates, each as
    often, in whatever order. *)
Theorem sameRoots_permutation a b : sameRoots a b = true <-> x_Raw <$> a ≡ₚ x_Raw <$> b.
Proof.
  unfold sameRoots. destruct (Z.of_nat (length a) =? Z.of_nat (length b)) eqn:E; bools; simpl.
  - rewrite (take_roots_spec _ _ _ (root_counts_spec a)). split.
    + intros Hs. symmetry. apply submseteq_length_Permutation; [done|]. rewrite !length_fmap. lia.
    + intros ->. done.
  - split; [done|]. intros Hl%Permutation_length. rewrite !length_fmap in Hl. lia.
Qed.

(** ** Versions follow the roots *)
Definition same_set (a b : bundle) : Prop := x_Raw <$> bdl_roots a ≡ₚ x_Raw <$> bdl_roots b.
(** Along the bundles published: versions never fall, one version means one set of
    roots, and a renewal that keeps the roots keeps the version. *)
Definition tracked (l : list bundle) : Prop :=
  (forall i j b b', (i <= j)%nat -> l !! i = Some b -> l !! j = Some b' ->
     bdl_ver b <= bdl_ver b' /\ (bdl_ver b = bdl_ver b' -> same_set b b'))
  /\ (forall i b b', l !! i = Some b -> l !! S i = Some b' -> same_set b b' -> bdl_ver b' = bdl_ver b).
Lemma tracked_snoc l c b :
  tracked l -> last l = Some c ->
  (same_set c b /\ bdl_ver b = bdl_ver c \/ ~ same_set c b /\ bdl_ver b = bdl_ver c + 1) ->
  tracked (l ++ [b]).
Proof.
  intros [Ht Hs] Hc Hb. rewrite last_lookup in Hc. split.
  - intros i j x y Hij [Hx|[Hi Hx]]%lookup_app_Some [Hy|[Hj Hy]]%lookup_app_Some.
    + eauto.
    + apply list_lookup_singleton_Some in Hy as [_ <-]. pose proof (lookup_lt_Some _ _ _ Hx).
      destruct (Ht i (Nat.pred (length l)) x c) as [Hle Heq]; [lia|done|done|].
      split; [lia|]. intros He. assert (Hxc : same_set x c) by (apply Heq; lia).
      destruct Hb as [[Hcb _]|[_ ?]]; [|lia]. unfold same_set in *. by rewrite Hxc.
    + pose proof (lookup_lt_Some _ _ _ Hy). lia.
    + apply list_lookup_singleton_Some in Hx as [_ <-]. apply list_lookup_singleton_Some in Hy as [_ <-].
      split; [lia|]. unfold same_set. done.
  - intros i x y [Hx|[Hi Hx]]%lookup_app_Some Hy Hxy.
    + apply lookup_app_Some in Hy as [Hy|[Hj Hy]]; [eauto|].
      apply list_lookup_singleton_Some in Hy as [Hj0 <-]. pose proof (lookup_lt_Some _ _ _ Hx).
      assert (Nat.pred (length l) = i) as Hi by lia. rewrite Hi, Hx in Hc. injection Hc as ->.
      destruct Hb as [[_ ?]|[? _]]; [done|done].
    + apply list_lookup_singleton_Some in Hx as [Hi0 <-].
      apply lookup_lt_Some in Hy. rewrite length_app in Hy. simpl in Hy. lia.
Qed.

(** What a watcher was given, has in its channel or is about to be given. *)
Definition pending (w : watcher) : list IdUpdate :=
  wt_got w ++ option_list (wt_ch w)
  ++ match wt_stage w with Offering st => [UpdateState (st_id st) (st_bundle st)] | _ => [] end.
Definition update_bundle (u : IdUpdate) : option bundle :=
  match u with UpdateState _ b => Some b | UpdateErr _ => None end.
Definition heard (w : watcher) : list bundle := omap update_bundle (pending w).
Definition rising (l : list bundle) : Prop := StronglySorted (fun a b => bdl_ver a <= bdl_ver b) l.

Record tracking (p : Provider) : Prop := {
  trk_cur : exists cur, pv_st p = Some cur /\ last (pv_published p) = Some (st_bundle cur)
                        /\ bdl_ver (st_bundle cur) = pv_ver p;
  trk_ver : 1 <= pv_ver p <= Z.of_nat (length (pv_published p));
  trk_pub : tracked (pv_published p);
  trk_subs i w : pv_subs p !! i = Some w -> rising (heard w) /\ forall b, b ∈ heard w -> b ∈ pv_published p;
}.

Section steps.
Context {rule : Versioning}.
(** What a step of a watcher adds to what it hears: nothing, or the bundle it has
    just committed; a full channel drops the update offered. *)
Lemma watcher_hears margin ev w p w' p' :
  watcher_step margin ev w p = (w', p') ->
  (p' = p /\ exists rest, heard w = heard w' ++ rest)
  \/ exists st st', commit st p = (st', p') /\ heard w' = heard w ++ [st_bundle st'].
Proof.
  unfold heard, pending. destruct w as [sg ch got]. intros Hs.
  destruct ev as [|i now|i|i [st|e]|i|i|i|i|i|], sg as [|d| |st1|st1| |], ch as [u|]; cbn [watcher_step wt_stage wt_ch] in Hs;
    repeat (match type of Hs with context [match pv_st p with _ => _ end] => destruct (pv_st p) end);
    try (match type of Hs with context [commit ?s p] =>
           destruct (commit s p) as [st' p1] eqn:Hc; injection Hs as <- <-; right; exists s, st' end);
    try (injection Hs as <- <-; left; split; [done|]); unfold offer; simpl.
  all: rewrite ?omap_app; simpl; rewrite ?app_nil_r; try (exists []; by rewrite ?app_nil_r).
  - split; [done|]. rewrite <- app_assoc. by destruct (update_bundle u).
  - done.
  - exists [st_bundle st1]. rewrite <- app_assoc. by destruct (update_bundle u).
  - exists []. rewrite app_nil_r, <- app_assoc. by destruct (update_bundle u).
Qed.
End steps.

Section versions.
#[local] Instance self_rule : Versioning := self_version.
Lemma commit_tracks st p st' p' :
  tracking p -> Z.of_nat (length (pv_published p)) < 2 ^ 64 - 1 -> commit st p = (st', p') ->
  tracking p' /\ pv_subs p' = pv_subs p /\ pv_published p' = pv_published p ++ [st_bundle st'].
Proof.
  intros [(cur & Hc & Hl & Hv) Hver Hpub Hsubs] Hlen. unfold commit. rewrite Hc.
  destruct (next_version _ _ _) as [pver bver] eqn:En. intros [= <- <-]. simpl.
  set (b := (st_bundle st) <| bdl_ver := bver |>).
  assert (Hb : pver = bver /\ (same_set (st_bundle cur) b /\ bver = bdl_ver (st_bundle cur)
      \/ ~ same_set (st_bundle cur) b /\ bver = bdl_ver (st_bundle cur) + 1)).
  { unfold next_version, self_rule, self_version in En.
    pose proof (sameRoots_permutation (bdl_roots (st_bundle cur)) (bdl_roots (st_bundle st))) as Hsame.
    destruct (sameRoots _ _) eqn:E; injection En as <- <-.
    - split; [done|]. left. split; [by apply Hsame|done].
    - split; [done|]. right. split; [intros Hx; apply Hsame in Hx; discriminate|]. unfold u64. rewrite Z.mod_small; lia. }
  destruct Hb as [-> Hb]. split; [|done]. constructor; simpl.
  - eexists. split; [done|]. rewrite last_snoc. done.
  - rewrite length_app. simpl. destruct Hb as [[_ ->]|[_ ->]]; lia.
  - by eapply tracked_snoc.
  - intros i w Hw. destruct (Hsubs i w Hw) as [Hr Hin]. split; [done|]. intros x Hx. apply elem_of_app. auto.
Qed.
Lemma rising_snoc l b : rising l -> (forall a, a ∈ l -> bdl_ver a <= bdl_ver b) -> rising (l ++ [b]).
Proof.
  unfold rising. induction 1 as [|a l Hl IH Ha]; intros Hb; simpl; constructor; [constructor|constructor|apply IH; set_solver|].
  apply Forall_app. split; [done|]. constructor; [apply Hb; set_solver|done].
Qed.
Lemma tracked_last l c b : tracked l -> last l = Some c -> b ∈ l -> bdl_ver b <= bdl_ver c.
Proof.
  intros [Ht _] Hc [i Hi]%list_elem_of_lookup. rewrite last_lookup in Hc. pose proof (lookup_lt_Some _ _ _ Hi).
  apply (Ht i (Nat.pred (length l))); [lia|done|done].
Qed.
Lemma rising_prefix l k : rising (l ++ k) -> rising l.
Proof. apply StronglySorted_app_1_l. Qed.
Lemma provider_step_tracks margin p ev :
  tracking p -> Z.of_nat (length (pv_published p)) < 2 ^ 64 - 1 ->
  tracking (provider_step margin p ev)
  /\ (length (pv_published (provider_step margin p ev)) <= S (length (pv_published p)))%nat.
Proof.
  intros Ht Hlen. unfold provider_step.
  assert (Hw : forall i, tracking (match pv_subs p !! i with None => p | Some w =>
      let '(w', p') := watcher_step margin ev w p in p' <| pv_subs := <[i := w']> (pv_subs p') |> end)
    /\ (length (pv_published (match pv_subs p !! i with None => p | Some w =>
      let '(w', p') := watcher_step margin ev w p in p' <| pv_subs := <[i := w']> (pv_subs p') |> end))
        <= S (length (pv_published p)))%nat).
  { intros i. destruct (pv_subs p !! i) as [w|] eqn:Hi; [|split; [done|lia]].
    destruct (watcher_step margin ev w p) as [w' p'] eqn:Hs.
    assert (Hp : tracking p' /\ pv_subs p' = pv_subs p /\ (length (pv_published p') <= S (length (pv_published p)))%nat
      /\ rising (heard w') /\ forall b, b ∈ heard w' -> b ∈ pv_published p').
    { destruct (trk_subs _ Ht _ _ Hi) as [Hr Hin]. destruct (watcher_hears _ _ _ _ _ _ Hs) as [[-> [rest Hh]]|(st & st' & Hc & Hh)].
      - split_and!; [done|done|lia|apply (rising_prefix _ rest); by rewrite <- Hh|]. intros b Hb. apply Hin. rewrite Hh. set_solver.
      - destruct (commit_tracks _ _ _ _ Ht Hlen Hc) as (Ht' & Hsub & Hpub). rewrite Hpub, Hh, length_app.
        split_and!; [done|done|simpl; lia| |].
        + apply rising_snoc; [done|]. intros a Ha. apply (tracked_last (pv_published p')); [apply Ht'| |].
          * rewrite Hpub. by rewrite last_snoc.
          * rewrite Hpub. apply elem_of_app. auto.
        + intros b [Hb|Hb]%elem_of_app; apply elem_of_app; auto. }
    destruct Hp as ([Hc Hv Hpub Hsubs] & Hsub & Hl & Hr & Hin). split; [|done]. constructor; simpl; [done|done|done|].
    intros j x [[<- [<- _]]|[Hne Hx]]%list_lookup_insert_Some; [done|]. by apply Hsubs in Hx. }
  destruct ev; try apply Hw; split; simpl; try lia; destruct Ht as [Hc Hv Hpub Hsubs]; constructor; simpl; try done.
  intros i w [Hi|[_ Hx]]%lookup_app_Some; [eauto|]. apply list_lookup_singleton_Some in Hx as [_ <-].
  unfold heard, pending. simpl. split; [constructor|]. intros b Hb. by apply elem_of_nil in Hb.
Qed.
Lemma first_state_tracks st : tracking (first_state st).
Proof.
  constructor; simpl; [by eexists|done| |done]. split.
  - intros i j b b' _ [_ <-]%list_lookup_singleton_Some [_ <-]%list_lookup_singleton_Some. split; [lia|by unfold same_set].
  - intros i b b' [_ <-]%list_lookup_singleton_Some [Hj _]%list_lookup_singleton_Some. done.
Qed.
Lemma provider_run_tracks margin evs p :
  tracking p -> Z.of_nat (length (pv_published p)) + Z.of_nat (length evs) < 2 ^ 64 - 1 ->
  tracking (provider_run margin evs p).
Proof.
  unfold provider_run. revert p. induction evs as [|ev evs IH]; intros p Ht Hl; [done|]. cbn [foldl length] in *.
  destruct (provider_step_tracks margin p ev Ht) as [Ht' Hlen]; [lia|]. apply IH; [done|lia].
Qed.

(** Whatever the interleaving of the watchers of the service's own identity, of
    the answers of their mints and of their readers: the versions of the trust
    bundles published never fall; bundles of one version hold the same roots, in
    some order; a renewal that keeps the roots keeps the version, so it does not
    drain the connections; every watcher hears only published bundles, in rising
    versions; and the provider always answers with the last bundle published. *)
Theorem versions_track_roots margin st evs :
  Z.of_nat (length evs) < 2 ^ 64 - 2 ->
  let p := provider_run margin evs (first_state st) in
  tracked (pv_published p)
  /\ (forall i w, pv_subs p !! i = Some w ->
        rising (omap update_bundle (wt_got w ++ option_list (wt_ch w)))
        /\ forall b, b ∈ omap update_bundle (wt_got w) -> b ∈ pv_published p)
  /\ exists id b, Current p = Ok (id, b) /\ last (pv_published p) = Some b.
Proof.
  intros Hl p. assert (Ht : tracking p).
  { apply provider_run_tracks; [apply first_state_tracks|]. simpl length. lia. }
  destruct Ht as [(cur & Hc & Hlast & _) _ Hpub Hsubs]. split_and!; [done| |].
  - intros i w Hw. destruct (Hsubs i w Hw) as [Hr Hin]. unfold heard, pending in *. rewrite app_assoc, omap_app in Hr.
    split; [by eapply rising_prefix|]. intros b Hb. apply Hin. rewrite omap_app. apply elem_of_app. auto.
  - unfold Current. rewrite Hc. eauto.
Qed.
End versions.

(** ** The providers of the SDK number every renewal *)
Section sdk_versions.
#[local] Instance sdk_rule : Versioning := sdk_version.
Definition numbered (p : Provider) : Prop :=
  (exists cur, pv_st p = Some cur) /\ pv_ver p = Z.of_nat (length (pv_published p))
  /\ forall i b, pv_published p !! i = Some b -> bdl_ver b = Z.of_nat i + 1.
Lemma provider_step_numbers margin p ev :
  numbered p -> Z.of_nat (length (pv_published p)) < 2 ^ 64 - 1 ->
  numbered (provider_step margin p ev)
  /\ (length (pv_published (provider_step margin p ev)) <= S (length (pv_published p)))%nat.
Proof.
  intros Hn Hlen. unfold provider_step. destruct ev as [|i now|i|i r|i|i|i|i|i|]; cbn [event_watcher].
  1, 10: split; [done|simpl; lia].
  all: destruct (pv_subs p !! i) as [w|]; [|split; [done|lia]].
  all: match goal with |- context [watcher_step ?mg ?e ?w ?p] => destruct (watcher_step mg e w p) as [w' p'] eqn:Hs end.
  all: destruct (watcher_hears _ _ _ _ _ _ Hs) as [[-> _]|(st & st' & Hc & _)]; [split; [done|simpl; lia]|].
  all: destruct Hn as ((cur & Hcur) & Hv & Hb); unfold commit in Hc; rewrite Hcur in Hc; simpl in Hc; injection Hc as <- <-.
  all: assert (Hu : u64 (pv_ver p + 1) = pv_ver p + 1) by (unfold u64; rewrite Z.mod_small; lia).
  all: unfold numbered; simpl; rewrite length_app; simpl; split; [|lia]; split_and!; [eauto|lia|].
  all: intros j b [Hj|[Hj Hx]]%lookup_app_Some; [eauto|]; apply list_lookup_singleton_Some in Hx as [Hj0 <-]; simpl; lia.
Qed.
(** A provider of the SDK gives every renewal a version of its own, one above the
    last, whether or not the roots changed: each renewal of the leaf alone is
    announced as a change of the trust bundle. *)
Theorem sdk_renewal_bumps margin st evs :
  Z.of_nat (length evs) < 2 ^ 64 - 2 ->
  let p := provider_run margin evs (first_state st) in
  forall i b, pv_published p !! i = Some b -> bdl_ver b = Z.of_nat i + 1.
Proof.
  intros Hl p.
  assert (Hg : forall q, numbered q -> Z.of_nat (length (pv_published q)) + Z.of_nat (length evs) < 2 ^ 64 - 1 ->
    numbered (provider_run margin evs q)).
  { clear. unfold provider_run. induction evs as [|ev evs IH]; intros q Hq Hl; [done|]. cbn [foldl length] in *.
    destruct (provider_step_numbers margin q ev Hq) as [Hq' Hlen]; [lia|]. apply IH; [done|lia]. }
  apply Hg; [|simpl length; lia]. split_and!; [by eexists|done|].
  intros i b [-> <-]%list_lookup_singleton_Some. done.
Qed.
End sdk_versions.

(** ** Renewals of the service's own identity *)
(** A renewal comes in time: the delay is never negative, and a positive delay
    ends exactly the margin before the expiry. *)
Theorem renews_in_time na now rb :
  int64_min <= na - now <= int64_max -> 0 <= rb -> int64_min <= na - now - rb ->
  0 <= renew_delay na now rb
  /\ (0 < renew_delay na now rb -> now + renew_delay na now rb = na - rb)
  /\ (renew_delay na now rb = 0 -> na - rb <= now).
Proof.
  intros Hd Hrb Hlow. unfold renew_delay, time_sub, int64_min, int64_max in *.
  replace (Z.max _ (Z.min _ (na - now))) with (na - now) by lia.
  assert (Hw : wrap64 (na - now - rb) = na - now - rb).
  { unfold wrap64. rewrite Z.mod_small by lia. lia. }
  cbv zeta. rewrite Hw. destruct (_ <? 0) eqn:E; bools; lia.
Qed.

Section self_theorems.
Context `{Env} `{IdentityHost}.
Lemma SignLeaf_EnsureCA now tid td sid pub ttl w r w' :
  SignLeaf now tid td sid pub ttl w = (Ok r, w') ->
  exists c w1, EnsureCA now tid td w = (Ok c, w1) /\ wd_mem w' = wd_mem w1.
Proof.
  unfold SignLeaf. intros Hr. destruct (ttl <=? 0); [done|]. destruct (ParseSPIFFEID sid) as [s|]; [|done].
  destruct (sid_TrustDomain s <>s td); [done|]. apply st_bind_ok in Hr as (c & w1 & He & Hr).
  apply st_bind_ok in Hr as ([signer cert] & w2 & [_ ->]%st_lift_ok & Hr).
  apply st_bind_ok in Hr as (serial & w3 & [= _ <-] & Hr). destruct (url_parse _); [|done].
  apply st_bind_ok in Hr as (der & w4 & [= _ <-] & Hr). apply st_ret_ok in Hr as [_ ->]. eauto.
Qed.
Lemma self_mint_ok cfg now w st w' :
  self_mint cfg now w = (Ok st, w') ->
  exists c w0 w1 pem, EnsureCA now (sc_TenantID cfg) (sc_TrustDomain cfg) w0 = (Ok c, w1)
  /\ wd_mem w0 = wd_mem w /\ wd_mem w1 = wd_mem w'
  /\ ca_Bundle (sc_TenantID cfg) (sc_TrustDomain cfg) (wd_mem w') = Ok pem
  /\ parseRoots pem = Ok (bdl_roots (st_bundle st)) /\ bdl_roots (st_bundle st) <> []
  /\ exists der, tls_Certificate (st_crt st) = [der] /\ parse_certificate der = Ok (tls_Leaf (st_crt st))
  /\ idn_na (st_id st) = x_NotAfter (tls_Leaf (st_crt st)).
Proof.
  unfold self_mint. intros Hr. apply st_bind_ok in Hr as ([key pub] & w0 & [= _ <-] & Hr).
  apply st_bind_ok in Hr as ([der na] & w2 & Hs & Hr). apply SignLeaf_EnsureCA in Hs as (c & w1 & He & Hm).
  apply st_bind_ok in Hr as (leaf & w3 & [Hl ->]%st_lift_ok & Hr).
  apply st_bind_ok in Hr as (pem & w4 & [= Hb <-] & Hr).
  destruct (parseRoots pem) as [[|r roots]|] eqn:Hp; [done| |done].
  apply st_bind_ok in Hr as (sid & w5 & [_ ->]%st_lift_ok & Hr). apply st_ret_ok in Hr as [-> ->].
  exists c, (w <| wd_rnd := S (wd_rnd w) |>), w1, pem. split_and!; [exact He|done|done|done|done|done|]. exists der. done.
Qed.
(** Renewing the service's own identity is quiet: as long as nobody changes the
    CAs of the tenant between two mints, the second uses the CA of the first and
    makes no other, gives the same roots, and so keeps the version of the bundle. *)
Theorem renewal_is_quiet cfg now w st w1 w2 now' st' w3 ver :
  wf (wd_mem w) -> self_mint cfg now w = (Ok st, w1) ->
  wf (wd_mem w2) -> m_Fail (wd_mem w2) = ∅ -> m_CAs (wd_mem w2) = m_CAs (wd_mem w1) ->
  self_mint cfg now' w2 = (Ok st', w3) ->
  m_CAs (wd_mem w3) = m_CAs (wd_mem w1)
  /\ bdl_roots (st_bundle st') = bdl_roots (st_bundle st)
  /\ self_version ((st_bundle st) <| bdl_ver := ver |>) (st_bundle st') ver = (ver, ver).
Proof.
  intros Hwf H1 Hwf2 Hf2 Hca H2. apply self_mint_ok in H1 as (c & w0 & w0' & pem & He & Hm0 & Hm1 & Hb & Hp & _).
  apply self_mint_ok in H2 as (c2 & w2' & w3' & pem2 & He2 & Hm2 & Hm3 & Hb2 & Hp2 & _).
  apply EnsureCA_store in He as (_ & _ & x & Hx & Ha); [|rewrite Hm0; apply Hwf]. rewrite Hm1, <- Hca, <- Hm2 in Hx.
  assert (Hs : Mem_CAByState (sc_TenantID cfg) (sc_TrustDomain cfg) "active" (wd_mem w2') = Ok (cpCA x)).
  { eapply CAByState_active; [by rewrite Hm2|by rewrite Hm2, Hf2|exact Hx|done]. }
  assert (Hmem : wd_mem w3 = wd_mem w2).
  { rewrite <- Hm3, <- Hm2.
    destruct (EnsureCA_cases _ _ _ _ _ _ He2) as [[-> _]|[(? & e & Hbad & _)|(Hm & _)]]; [done|congruence|done]. }
  assert (Hroots : pem2 = pem).
  { rewrite Hmem in Hb2. unfold ca_Bundle, Mem_CAsForDomain, fail_read in Hb, Hb2. rewrite Hf2, lookup_empty, Hca in Hb2.
    destruct (m_Fail (wd_mem w1) !! _); [done|]. congruence. }
  subst pem2. rewrite Hp in Hp2. injection Hp2 as Hr. split; [by rewrite Hmem|]. split; [done|].
  unfold self_version. rewrite (proj2 (sameRoots_permutation _ _)); [done|]. simpl. by rewrite Hr.
Qed.
End self_theorems.

(** ** Runs *)
Module IdentitySample.
Import Toy.
#[local] Existing Instance toy_env.
#[local] Instance toy_host : IdentityHost := fun td svc => Ok (service_id td svc).
Definition root (raw : string) : X509 := mkX509 raw 1 0 1000 true raw [] [] [] [] (OtherKey "") "CA".
Definition st_with (roots : list string) (na : Z) : state :=
  mkState (mkTLSCertificate ["leaf"] "key" (root "leaf")) (mkIdent "spiffe://a/svc/b" 0 na "1") (mkTrustBundle "a" (root <$> roots) 0).
(** Two watchers: the first mints with the old roots in another order while the
    second commits new ones, so the roots change twice. *)
Definition evs : list id_event :=
  [Watch; Watch; Arm 0 10; Arm 1 10; Fire 0; Mint 0 (Ok (st_with ["b"; "a"] 200)); Commit 0; Offer 0; Receive 0;
   Fire 1; Mint 1 (Ok (st_with ["c"] 300)); Commit 1; Offer 1; Arm 0 20; Fire 0; Mint 0 (Err (Opaque "down")); Resume 0;
   Receive 0; CloseProvider; Arm 0 30; Quit 0].
Definition no_margin (p : Provider) : Z := 5.
#[local] Existing Instance self_rule.
Example run_versions : bdl_ver <$> pv_published (provider_run no_margin evs (first_state (st_with ["a"; "b"] 100))) = [1; 1; 2].
Proof. vm_compute. reflexivity. Qed.
Lemma versions_track_roots_witness :
  tracked (pv_published (provider_run no_margin evs (first_state (st_with ["a"; "b"] 100)))).
Proof. exact (proj1 (versions_track_roots no_margin (st_with ["a"; "b"] 100) evs ltac:(simpl; lia))). Defined.
Lemma sdk_renewal_bumps_witness :
  exists b, pv_published (@provider_run sdk_rule no_margin evs (first_state (st_with ["a"; "b"] 100))) !! 1%nat = Some b
  /\ same_set b (st_bundle (st_with ["a"; "b"] 100)) /\ bdl_ver b = 2.
Proof.
  eexists. split; [vm_compute; reflexivity|]. split; [vm_compute; constructor|].
  apply (sdk_renewal_bumps no_margin (st_with ["a"; "b"] 100) evs ltac:(simpl; lia) 1%nat). vm_compute. reflexivity.
Defined.
Lemma renews_in_time_witness : renew_delay 900 100 300 = 500 /\ 100 + renew_delay 900 100 300 = 900 - 300.
Proof.
  split; [reflexivity|].
  apply (proj1 (proj2 (renews_in_time 900 100 300 ltac:(vm_compute; split; discriminate) ltac:(lia) ltac:(vm_compute; discriminate)))).
  reflexivity.
Defined.
Definition cfg : SelfConfig := mkSelfConfig true "t1" "example.org" "lcm" (3600 * Second) 0.
Definition start : World := mkWorld (Mem_New 5) [] 0 0.
Definition ran (now : Z) (w : World) : state * World :=
  match self_mint cfg now w with (Ok st, w') => (st, w') | (Err _, w') => (st_with [] 0, w') end.
Definition one : state * World := ran 7 start.
Definition two : state * World := ran 50 one.2.
Lemma one_run : self_mint cfg 7 start = (Ok one.1, one.2).
Proof. vm_compute. reflexivity. Qed.
Lemma two_run : self_mint cfg 50 one.2 = (Ok two.1, two.2).
Proof. vm_compute. reflexivity. Qed.
Definition own_ca : CA := default (mkCA "" "" "" "" None "" 0 0 "" 0) (m_CAs (wd_mem one.2) !! "id0").
Lemma one_wf : wf (wd_mem one.2) /\ m_Fail (wd_mem one.2) = ∅.
Proof.
  split; [|vm_compute; reflexivity].
  replace (wd_mem one.2) with (run_op (OpInsertCA own_ca) (Mem_New 5)) by (vm_compute; reflexivity).
  repeat (apply run_op_wf || apply wf_New || reflexivity).
Qed.
Lemma renewal_is_quiet_witness :
  m_CAs (wd_mem two.2) = m_CAs (wd_mem one.2) /\ bdl_roots (st_bundle two.1) = bdl_roots (st_bundle one.1).
Proof.
  pose proof (renewal_is_quiet cfg 7 start one.1 one.2 one.2 50 two.1 two.2 1 (wf_New 5) one_run
                (proj1 one_wf) (proj2 one_wf) eq_refl two_run) as (H1 & H2 & _).
  exact (conj H1 H2).
Defined.
End IdentitySample.
