(* ===== verification/NetIdentity.v ===== *)
(** The identity of a workload: sdk/pkg/lcmidentity.  A workload enrolls once with a
    join token over HTTPS, keeps its certificate in a file, and renews over a channel
    on which it presents the certificate it has (net.go); provider.go enrolls over a
    connection of its caller.  Rotation and versions are those of Identity. *)

From S2P Require Import Prelude Rows Memstore GoJson GoUrl Csr Domains Sealed World Secrets Identity.

(** ** The outside *)
Record PBundle := mkPBundle { pb_CertPEM : string; pb_ChainPEM : string; pb_BundlePEM : string }.
Record EnrollRequest := mkEnrollRequest { er_TenantID : string; er_SpiffeID : string; er_CSRPEM : string; er_Token : string }.
(** A call to the authority: an HTTP request, or a call on the channel that presents
    the credential given. *)
Inductive Call := HttpRequest (method url body : string) | GrpcEnroll (credential : option TLSCertificate) (req : EnrollRequest).
Record HttpAnswer := mkHttpAnswer { ha_StatusCode : Z; ha_Location : string; ha_Body : string }.
(** The answers of the network, which may depend on the calls made before; where a
    Location leads from a URL (net/url's Parse of a reference); whether the context is done when it is asked for and after a pause; the signing request
    for a URI; the verification of a chain by crypto/x509 (roots, intermediates,
    time, leaf); and the disk: an operation succeeds, or fails leaving some text. *)
Class LcmNet := {
  lcm_http : list Call -> Call -> res HttpAnswer;
  url_reference : string -> string -> option string;
  lcm_grpc : list Call -> Call -> res PBundle;
  ctx_now : list Call -> option err;
  ctx_pause : list Call -> option err;
  create_uri_csr : nat -> string -> string -> res string;
  x509_Verify : list X509 -> list X509 -> Z -> X509 -> bool;
  disk_fault : nat -> option string;
}.
(** What a process has used: its calls, the draws of its random source, its files
    and how often it used the disk. *)
Record Host := mkHost { h_calls : list Call; h_rnd : nat; h_files : gmap string string; h_disk : nat }.
#[export] Instance Host_eta : RecordEta Host := fun r => mkHost (h_calls r) (h_rnd r) (h_files r) (h_disk r).
Definition P (A : Type) : Type := ST Host A.

(** ** Certificates and keys as texts *)
Section pem.
Context `{Crypto}.
Fixpoint decode_certs (fuel : nat) (rest : string) : list string :=
  match fuel with
  | O => []
  | S n => match pem_next rest with
           | None => []
           | Some (blk, rest') => if blk_Type blk =s "CERTIFICATE" then blk_Bytes blk :: decode_certs n rest' else decode_certs n rest'
           end
  end.
Definition decodeCerts (pemBytes : string) : list string := decode_certs (S (String.length pemBytes)) pemBytes.
Fixpoint parse_all (ders : list string) : res (list X509) :=
  match ders with
  | [] => Ok []
  | der :: ders' => let? c := parse_certificate der in let? out := parse_all ders' in Ok (c :: out)
  end.
Definition decodeCertsParsed (pemBytes : string) : res (list X509) := parse_all (decodeCerts pemBytes).
Definition pemBlocks (typ : string) (ders : list string) : string := String.concat "" (pem_encode typ <$> ders).
Definition rootsDER (roots : list X509) : list string := x_Raw <$> roots.
Definition parseECKey (pemStr : string) : option string :=
  match pem_decode pemStr with
  | None => None
  | Some (_, der) =>
    match parse_pkcs8 der with
    | Some (Some k) => match public_of k with ECDSAKey _ _ => Some k | _ => None end
    | _ => None
    end
  end.
End pem.

(** ** JSON objects of texts *)
(** [json.Unmarshal] of one member into a string field: the members whose key
    matches, in order; [None] when one is neither a text nor null. *)
Definition string_field `{GoRuntime} (name : string) (members : list (string * any)) : option string :=
  foldl (fun acc kv => match acc with
                       | None => None
                       | Some s => if EqualFold kv.1 name
                                   then match kv.2 with AStr t => Some t | ANil => Some s | _ => None end
                                   else Some s
                       end) (Some "") members.
(** The members of the object a text holds; null has none. *)
Definition object_members (raw : string) : option (list (string * any)) :=
  match json_unmarshal raw with Some (AMap m) => Some m | Some ANil => Some [] | _ => None end.
(** [io.LimitReader]. *)
Fixpoint limit_bytes (n : Z) (s : string) : string :=
  match s with
  | EmptyString => ""
  | String c s' => if n <=? 0 then "" else String c (limit_bytes (n - 1) s')
  end.

(** ** The state of a provider *)
Section build.
Context `{GoRuntime} `{Crypto} `{IdentityHost} `{LcmNet}.
Definition id_error (msg : string) : err := Opaque ("lcmidentity: " +:+ msg).
(** The parts both providers read from an answer. *)
Definition build_parts (trustDomain serviceName : string) (b : PBundle) (key : string) : res state :=
  match decodeCerts (pb_CertPEM b) with
  | [] => Err (id_error "certificate: %!w(<nil>)")
  | der :: ders =>
    match parse_certificate der with
    | Err e => Err (Wrapf "lcmidentity: leaf: " e)
    | Ok leaf =>
      match decodeCertsParsed (pb_BundlePEM b) with
      | Ok (r :: roots) =>
        let? sid := NewSPIFFEID trustDomain serviceName in
        Ok (mkState (mkTLSCertificate ((der :: ders) ++ decodeCerts (pb_ChainPEM b)) key leaf)
              (mkIdent sid (x_NotBefore leaf) (x_NotAfter leaf) (FormatInt (x_SerialNumber leaf)))
              (mkTrustBundle trustDomain (r :: roots) 0))
      | _ => Err (id_error "empty trust bundle")
      end
    end
  end.
Definition buildState : string -> string -> PBundle -> string -> res state := build_parts.
(** net.go also asks that the leaf names this workload and nothing else. *)
Definition buildStateFrom (trustDomain serviceName : string) (b : PBundle) (key : string) : res state :=
  let? st := build_parts trustDomain serviceName b key in
  let sid := idn_id (st_id st) in
  if bool_decide (x_URIs (tls_Leaf (st_crt st)) = [sid]) then Ok st
  else Err (id_error ("certificate is not for " +:+ sid)).
(** A fresh key and its request. *)
Definition host_draw {A} (f : nat -> res A) : P A := fun h => (f (h_rnd h), h <| h_rnd := S (h_rnd h) |>).
Definition makeCSR (spiffeID key : string) : P string :=
  match url_parse spiffeID with
  | None => st_err (Opaque "invalid URL")
  | Some _ => let* der := host_draw (fun n => create_uri_csr n spiffeID key) in
              st_ret (pem_encode "CERTIFICATE REQUEST" der)
  end.
Definition grpc_enroll (cred : option TLSCertificate) (req : EnrollRequest) : P PBundle :=
  fun h => let c := GrpcEnroll cred req in (lcm_grpc (h_calls h) c, h <| h_calls := h_calls h ++ [c] |>).

(** ** provider.go *)
Record SdkConfig := mkSdkConfig {
  sd_Conn : bool; sd_TenantID : string; sd_TrustDomain : string; sd_ServiceName : string; sd_EnrollmentToken : string;
  sd_RenewBefore : Z;
}.
Definition sdk_enroll (cfg : SdkConfig) : P state :=
  let sid := service_id (sd_TrustDomain cfg) (sd_ServiceName cfg) in
  let* (key, _) := host_draw generate_key in
  let* csrPEM := makeCSR sid key in
  let* r := st_try (grpc_enroll None (mkEnrollRequest (sd_TenantID cfg) sid csrPEM (sd_EnrollmentToken cfg))) in
  match r with
  | Err e => st_err (Wrapf "lcmidentity: enroll: " e)
  | Ok b => st_lift (buildState (sd_TrustDomain cfg) (sd_ServiceName cfg) b key)
  end.
Definition sdk_New (cfg : SdkConfig) : P Provider :=
  let* _ := st_guard (sd_Conn cfg) (id_error "Conn is required") in
  let* _ := st_guard (negb ((sd_TrustDomain cfg =s "") || (sd_ServiceName cfg =s "") || (sd_TenantID cfg =s "")))
              (id_error "TenantID, TrustDomain and ServiceName are required") in
  let* st := sdk_enroll cfg in
  st_ret (first_state st).
End build.
(** The margin: as configured, or a third of the lifetime of the current leaf. *)
Definition sdk_margin (renewBefore : Z) (p : Provider) : Z :=
  if renewBefore <=? 0
  then match pv_st p with Some st => Z.quot (time_sub (idn_na (st_id st)) (idn_nb (st_id st))) 3 | None => 0 end
  else renewBefore.
(** The handler of the server's stream: whether an update makes the provider renew. *)
Definition pokes (spiffeID updateSpiffeID : string) : bool := (updateSpiffeID =s "") || (updateSpiffeID =s spiffeID).

(** ** net.go *)
Record NetConfig := mkNetConfig {
  nc_EnrollURL : string; nc_LCMGRPCTarget : string; nc_TenantID : string; nc_TrustDomain : string; nc_ServiceName : string;
  nc_EnrollmentToken : string; nc_RenewBefore : Z; nc_EnrollTLS : bool; nc_Insecure : bool; nc_StateFile : string;
}.
Definition net_id (cfg : NetConfig) : string := service_id (nc_TrustDomain cfg) (nc_ServiceName cfg).
Record persistedSVID := mkPersisted { ps_CertPEM : string; ps_ChainPEM : string; ps_KeyPEM : string; ps_BundlePEM : string }.
(** [json.Marshal] of the struct, in the order of its fields. *)
Definition marshal_persisted (r : persistedSVID) : string :=
  let member k v := json_string k +:+ ":" +:+ json_string v in
  "{" +:+ json_join [member "cert_pem" (ps_CertPEM r); member "chain_pem" (ps_ChainPEM r);
                     member "key_pem" (ps_KeyPEM r); member "bundle_pem" (ps_BundlePEM r)] +:+ "}".
Definition Minute : Z := 60 * Second.

Section net.
Context `{GoRuntime} `{Crypto} `{IdentityHost} `{LcmNet}.
Definition unmarshal_persisted (raw : string) : option persistedSVID :=
  m ← object_members raw;
  c ← string_field "cert_pem" m; ch ← string_field "chain_pem" m; k ← string_field "key_pem" m;
  b ← string_field "bundle_pem" m;
  Some (mkPersisted c ch k b).
(** The first enrollment: a POST with the token. *)
Definition enroll_body (cfg : NetConfig) (csrPEM : string) : string :=
  default "" (json_marshal (AMap [("spiffe_id", AStr (net_id cfg)); ("csr_pem", AStr csrPEM);
                                  ("enrollment_token", AStr (nc_EnrollmentToken cfg))])).
(** [http.Client.Do] of a client without a CheckRedirect, for a request whose body can
    be had again (bytes.Reader): an answer that redirects is followed, ten requests in all;
    307 and 308 repeat method and body, the others go on with GET and without it. *)
Definition redirects (status : Z) : option bool :=
  if (status =? 301) || (status =? 302) || (status =? 303) then Some false
  else if (status =? 307) || (status =? 308) then Some true else None.
Fixpoint http_Do (more : nat) (method url body : string) : P HttpAnswer :=
  let c := HttpRequest method url body in
  let* a := (fun h => (lcm_http (h_calls h) c, h <| h_calls := h_calls h ++ [c] |>)) in
  match redirects (ha_StatusCode a) with
  | None => st_ret a
  | Some again =>
    if ha_Location a =s "" then st_ret a
    else match url_reference url (ha_Location a), more with
         | None, _ => st_err (Opaque "failed to parse Location header")
         | Some _, O => st_err (Opaque "stopped after 10 redirects")
         | Some u, S more => http_Do more (if again then method else "GET") u (if again then body else "")
         end
  end.
Definition enrollHTTP (cfg : NetConfig) (csrPEM : string) : P PBundle :=
  match url_parse (nc_EnrollURL cfg) with
  | None => st_err (Opaque "invalid URL")
  | Some _ =>
    let* r := st_try (http_Do 9 "POST" (nc_EnrollURL cfg) (enroll_body cfg csrPEM)) in
    match r with
    | Err e => st_err (Wrapf "lcmidentity: enroll: " e)
    | Ok a =>
      let status := ha_StatusCode a in
      let raw := limit_bytes 1048576 (ha_Body a) in
      if negb (status =? 200) then st_err (id_error ("enroll: http " +:+ FormatInt status +:+ ": " +:+ raw))
      else match (m ← object_members raw; c ← string_field "cert_pem" m; ch ← string_field "chain_pem" m;
                  b ← string_field "bundle_pem" m; Some (mkPBundle c ch b)) with
           | Some b => st_ret b
           | None => st_err (id_error "enroll response: invalid")
           end
    end
  end.
(** A renewal on the channel, which presents the current credential. *)
Definition renewMTLS (cfg : NetConfig) (cred : option TLSCertificate) (csrPEM : string) : P PBundle :=
  grpc_enroll cred (mkEnrollRequest (nc_TenantID cfg) (net_id cfg) csrPEM "").
(** [p] is the provider once the first enrollment is done. *)
Definition net_mint (cfg : NetConfig) (p : option Provider) : P state :=
  let* (key, _) := host_draw generate_key in
  let* csrPEM := makeCSR (net_id cfg) key in
  let* b := match p with
            | None => enrollHTTP cfg csrPEM
            | Some p => renewMTLS cfg (st_crt <$> pv_st p) csrPEM
            end in
  st_lift (buildStateFrom (nc_TrustDomain cfg) (nc_ServiceName cfg) b key).
(** One use of the disk: whether it failed, and with what left behind. *)
Definition use_disk (h : Host) : option string * Host := (disk_fault (h_disk h), h <| h_disk := S (h_disk h) |>).
Definition persisted_of (st : state) (keyDER : string) : persistedSVID :=
  mkPersisted (pemBlocks "CERTIFICATE" (take 1 (tls_Certificate (st_crt st))))
    (pemBlocks "CERTIFICATE" (drop 1 (tls_Certificate (st_crt st)))) (pem_encode "PRIVATE KEY" keyDER)
    (pemBlocks "CERTIFICATE" (rootsDER (bdl_roots (st_bundle st)))).
Definition persist (cfg : NetConfig) (st : state) (h : Host) : Host :=
  if nc_StateFile cfg =s "" then h
  else match public_of (tls_PrivateKey (st_crt st)) with
  | ECDSAKey _ _ =>
    match marshal_key (tls_PrivateKey (st_crt st)) with
    | Err _ => h
    | Ok keyDER =>
      let b := marshal_persisted (persisted_of st keyDER) in
      let tmp := nc_StateFile cfg +:+ ".tmp" in
      let '(bad, h) := use_disk h in
      match bad with
      | Some junk => h <| h_files := <[tmp := junk]> (h_files h) |>
      | None =>
        let h := h <| h_files := <[tmp := b]> (h_files h) |> in
        let '(bad, h) := use_disk h in
        match bad with
        | Some _ => h
        | None => h <| h_files := <[nc_StateFile cfg := b]> (delete tmp (h_files h)) |>
        end
      end
    end
  | _ => h
  end.
Definition loadPersisted (cfg : NetConfig) (now : Z) (files : gmap string string) : option state :=
  if nc_StateFile cfg =s "" then None
  else match files !! nc_StateFile cfg with
  | None => None
  | Some b =>
    match unmarshal_persisted b with
    | None => None
    | Some rec =>
      match parseECKey (ps_KeyPEM rec) with
      | None => None
      | Some key =>
        match buildStateFrom (nc_TrustDomain cfg) (nc_ServiceName cfg)
                (mkPBundle (ps_CertPEM rec) (ps_ChainPEM rec) (ps_BundlePEM rec)) key with
        | Err _ => None
        | Ok st => if time_sub (idn_na (st_id st)) now <? Minute then None else Some st
        end
      end
    end
  end.
(** The loop of the first enrollment: [more] attempts may follow this one. *)
Fixpoint first_enroll (cfg : NetConfig) (more : nat) : P state :=
  let* r := st_try (net_mint cfg None) in
  match r with
  | Ok st => st_ret st
  | Err e =>
    match more with
    | O => st_err e
    | S more' =>
      fun h => match ctx_now (h_calls h) with
               | Some _ => (Err e, h)
               | None => match ctx_pause (h_calls h) with
                         | Some e' => (Err e', h)
                         | None => first_enroll cfg more' h
                         end
               end
    end
  end.
Definition maxAttempts : nat := 20.
Definition NewNet (cfg : NetConfig) (now : Z) : P Provider :=
  let* _ := st_guard (negb ((nc_EnrollURL cfg =s "") || (nc_LCMGRPCTarget cfg =s "")))
              (id_error "EnrollURL and LCMGRPCTarget are required") in
  let* _ := st_guard (negb ((nc_TrustDomain cfg =s "") || (nc_ServiceName cfg =s "")))
              (id_error "TrustDomain and ServiceName are required") in
  let* _ := st_guard (negb (nc_EnrollmentToken cfg =s ""))
              (id_error "an enrollment token is required for the first enroll") in
  let* _ := st_guard (negb (nc_Insecure cfg && nc_EnrollTLS cfg))
              (id_error "EnrollTLS and Insecure are mutually exclusive") in
  fun h =>
    match loadPersisted cfg now (h_files h) with
    | Some st => (Ok (first_state st), h)
    | None => (let* st := first_enroll cfg maxAttempts in
               let* _ := st_mod (persist cfg st) in
               st_ret (first_state st)) h
    end.
#[local] Existing Instance sdk_rule.
(** One renewal of a watcher: mint, commit, persist. *)
Definition net_renew (cfg : NetConfig) (p : Provider) : P Provider :=
  let* st := net_mint cfg (Some p) in
  let '(st, p) := commit st p in
  let* _ := st_mod (persist cfg st) in
  st_ret p.
(** The check of the server's certificate on the channel. *)
Definition verifyLCMServer (cfg : NetConfig) (now : Z) (p : Provider) (rawCerts : list string) : res unit :=
  match rawCerts with
  | [] => Err (id_error "lcm presented no certificate")
  | der :: rest =>
    let? leaf := parse_certificate der in
    let inter := omap (fun d => match parse_certificate d with Ok c => Some c | Err _ => None end) rest in
    let roots := match pv_st p with Some st => bdl_roots (st_bundle st) | None => [] end in
    if negb (x509_Verify roots inter now leaf) then Err (id_error "lcm server not trusted")
    else if existsb (fun u => u =s service_id (nc_TrustDomain cfg) "lcm") (x_URIs leaf) then Ok tt
    else Err (id_error "lcm server SPIFFE id mismatch")
  end.
End net.

(** ** The two readers of a bundle agree *)
Lemma parseRoots_decodeCertsParsed `{Crypto} pem : parseRoots pem = decodeCertsParsed pem.
Proof.
  unfold parseRoots, decodeCertsParsed, decodeCerts. generalize (S (String.length pem)). intros n. revert pem.
  induction n as [|n IH]; intros pem; [done|]. simpl. destruct (pem_next pem) as [[blk rest]|]; [|done].
  destruct (blk_Type blk =s "CERTIFICATE"); simpl; by rewrite IH.
Qed.

(** ** Where the join token goes *)
Section token.
Context `{GoRuntime} `{Crypto} `{IdentityHost} `{LcmNet}.
(** What a mint may send: the first request of an attempt goes to the enrollment route;
    the next of an attempt goes where the one before was redirected, with its body only
    when the answer asked to repeat it. *)
Definition first_call (cfg : NetConfig) (c : Call) : Prop := exists csr, c = HttpRequest "POST" (nc_EnrollURL cfg) (enroll_body cfg csr).
Definition redirected (before : list Call) (d c : Call) : Prop :=
  exists method url body a again u, d = HttpRequest method url body /\ lcm_http before d = Ok a
    /\ redirects (ha_StatusCode a) = Some again /\ url_reference url (ha_Location a) = Some u
    /\ c = HttpRequest (if again then method else "GET") u (if again then body else "").
Inductive attempt (cfg : NetConfig) (before : list Call) : list Call -> Prop :=
| at_first c : first_call cfg c -> attempt cfg before [c]
| at_redirected l d c : attempt cfg before (l ++ [d]) -> redirected (before ++ l) d c -> attempt cfg before (l ++ [d; c]).
(** Attempts one after the other. *)
Inductive enrolls (cfg : NetConfig) (before : list Call) : nat -> list Call -> Prop :=
| en_none : enrolls cfg before 0 []
| en_more n l k : enrolls cfg before n l -> attempt cfg (before ++ l) k -> (length k <= 10)%nat -> enrolls cfg before (S n) (l ++ k).
Definition renewal_call (cfg : NetConfig) (c : Call) : Prop :=
  exists cred csr, c = GrpcEnroll (Some cred) (mkEnrollRequest (nc_TenantID cfg) (net_id cfg) csr "").
(** A kind of trace: a number of exchanges after the calls made before. *)
Class Trace (K : list Call -> nat -> list Call -> Prop) : Prop := {
  trace_nil b : K b 0%nat [];
  trace_app b n m k l : K b n k -> K (b ++ k) m l -> K b (n + m)%nat (k ++ l);
}.
#[export] Instance enrolls_trace cfg : Trace (enrolls cfg).
Proof.
  split; [constructor|]. intros b n m k l Hk. induction 1 as [|m l k' Hl IH Ha Hn]; [by rewrite Nat.add_0_r, app_nil_r|].
  rewrite Nat.add_succ_r, app_assoc. constructor; [done| |done]. by rewrite app_assoc.
Qed.
Definition renews (cfg : NetConfig) (before : list Call) (n : nat) (k : list Call) : Prop := length k = n /\ Forall (renewal_call cfg) k.
#[export] Instance renews_trace cfg : Trace (renews cfg).
Proof. split; [by split|]. intros b n m k l [<- Hk] [<- Hl]. split; [apply length_app|by apply Forall_app_2]. Qed.
(** The computation makes at most [n] exchanges, all of a kind, and leaves the files. *)
Definition calls_only {A} (K : list Call -> nat -> list Call -> Prop) (n : nat) (c : P A) : Prop :=
  forall h, h_files (c h).2 = h_files h
  /\ exists k m, h_calls (c h).2 = h_calls h ++ k /\ K (h_calls h) m k /\ (m <= n)%nat.
Lemma calls_none {A} K `{Trace K} n (c : P A) : (forall h, h_files (c h).2 = h_files h /\ h_calls (c h).2 = h_calls h) -> calls_only K n c.
Proof. intros Hc h. destruct (Hc h) as [-> ->]. split; [done|]. exists [], 0%nat. rewrite app_nil_r. split_and!; [done|apply trace_nil|lia]. Qed.
Lemma calls_bind {A B} K `{Trace K} n m (c : P A) (k : A -> P B) :
  calls_only K n c -> (forall a, calls_only K m (k a)) -> calls_only K (n + m) (st_bind c k).
Proof.
  intros Hc Hk h. unfold st_bind. destruct (Hc h) as (Hf & l & i & Hl & HK & Hn). destruct (c h) as [[a|e] h1]; simpl in *.
  - destruct (Hk a h1) as (Hf' & l' & j & Hl' & HK' & Hm). split; [by rewrite Hf'|]. exists (l ++ l'), (i + j)%nat.
    rewrite Hl', Hl, <- app_assoc. split_and!; [done|apply trace_app; [done|by rewrite <- Hl]|lia].
  - split; [done|]. exists l, i. split_and!; [done|done|lia].
Qed.
Lemma calls_try {A} K n (c : P A) : calls_only K n c -> calls_only K n (st_try c).
Proof. intros Hc h. specialize (Hc h). unfold st_try. by destruct (c h). Qed.
Lemma makeCSR_calls K `{Trace K} sid key : calls_only K 0 (makeCSR sid key).
Proof.
  unfold makeCSR. destruct (url_parse sid); [|by apply (calls_none _)].
  apply (calls_bind _ 0 0); intros; by apply (calls_none _).
Qed.
(** The requests of one exchange: [l] were made when [c] goes out. *)
Lemma http_Do_calls cfg pre more method url body h l :
  let c := HttpRequest method url body in
  h_calls h = pre ++ l -> attempt cfg pre (l ++ [c]) ->
  h_files (http_Do more method url body h).2 = h_files h
  /\ exists k, h_calls (http_Do more method url body h).2 = pre ++ l ++ c :: k /\ attempt cfg pre (l ++ c :: k) /\ (length k <= more)%nat.
Proof.
  cbv zeta. revert method url body h l. induction more as [|more IH]; intros method url body h l Hh Hc; cbn [http_Do]; unfold st_bind;
    set (c := HttpRequest method url body) in *; rewrite Hh;
    (assert (Hone : exists k, (pre ++ l) ++ [c] = pre ++ l ++ c :: k /\ attempt cfg pre (l ++ c :: k) /\ (length k <= 0)%nat)
      by (exists []; by rewrite <- app_assoc));
    (destruct (lcm_http (pre ++ l) c) as [a|e] eqn:Ea; [|by split; [|destruct Hone as (k & ? & ? & ?); exists k; split_and!; [..|lia]]]);
    (destruct (redirects (ha_StatusCode a)) as [again|] eqn:Er; [|by split; [|destruct Hone as (k & ? & ? & ?); exists k; split_and!; [..|lia]]]);
    (destruct (ha_Location a =s ""); [by split; [|destruct Hone as (k & ? & ? & ?); exists k; split_and!; [..|lia]]|]);
    (destruct (url_reference url (ha_Location a)) as [u|] eqn:Eu; [|by split; [|destruct Hone as (k & ? & ? & ?); exists k; split_and!; [..|lia]]]).
  - by split.
  - destruct (IH (if again then method else "GET") u (if again then body else "") (h <| h_calls := (pre ++ l) ++ [c] |>) (l ++ [c]))
      as (Hf & k & Hk & Hen & Hn).
    + simpl. by rewrite app_assoc.
    + rewrite <- app_assoc. apply at_redirected; [done|]. exists method, url, body, a, again, u. done.
    + split; [exact Hf|]. eexists. rewrite Hk. rewrite <- !app_assoc in *. split_and!; [done|done|simpl; lia].
Qed.
Lemma enrollHTTP_calls cfg csr : calls_only (enrolls cfg) 1 (enrollHTTP cfg csr).
Proof.
  unfold enrollHTTP. destruct (url_parse _); [|by apply (calls_none _)]. apply (calls_bind _ 1 0).
  - apply calls_try. intros h.
    destruct (http_Do_calls cfg (h_calls h) 9 "POST" (nc_EnrollURL cfg) (enroll_body cfg csr) h []) as (Hf & k & Hk & Ha & Hn);
      [by rewrite app_nil_r|constructor; by eexists|].
    split; [done|]. eexists _, 1%nat. split_and!; [exact Hk| |done]. apply (en_more _ _ 0 []); [constructor|by rewrite app_nil_r|simpl; lia].
  - intros [a|e]; [|by apply (calls_none _)]. cbv zeta. case_match; [by apply (calls_none _)|]. case_match; by apply (calls_none _).
Qed.
Lemma net_mint_first cfg : calls_only (enrolls cfg) 1 (net_mint cfg None).
Proof.
  apply (calls_bind _ 0 1); [by apply (calls_none _)|]. intros [key pub]. apply (calls_bind _ 0 1); [apply (makeCSR_calls _)|].
  intros csr. apply (calls_bind _ 1 0); [apply enrollHTTP_calls|]. intros b. by apply (calls_none _).
Qed.
Lemma net_mint_renewal cfg p st : pv_st p = Some st -> calls_only (renews cfg) 1 (net_mint cfg (Some p)).
Proof.
  intros Hst. apply (calls_bind _ 0 1); [by apply (calls_none _)|]. intros [key pub].
  apply (calls_bind _ 0 1); [apply (makeCSR_calls _)|]. intros csr. apply (calls_bind _ 1 0); [|intros b; by apply (calls_none _)].
  intros h. simpl. split; [done|]. eexists _, 1%nat. split_and!; [done| |done]. split; [done|]. rewrite Hst. constructor; [by do 2 eexists|done].
Qed.
Lemma first_enroll_calls cfg more : calls_only (enrolls cfg) (S more) (first_enroll cfg more).
Proof.
  induction more as [|more IH]; cbn [first_enroll];
    (apply (calls_bind _ 1); [apply calls_try, net_mint_first|]); intros [st|e]; try (by apply (calls_none _)).
  intros h. assert (Hz : exists k m, h_calls h = h_calls h ++ k /\ enrolls cfg (h_calls h) m k /\ (m <= S more)%nat)
    by (exists [], 0%nat; rewrite app_nil_r; split_and!; [done|constructor|lia]).
  destruct (ctx_now (h_calls h)); [done|]. destruct (ctx_pause (h_calls h)); [done|]. apply IH.
Qed.
(** Attempts that are not redirected. *)
Lemma enrolls_direct cfg b n k :
  (forall before c a, lcm_http before c = Ok a -> redirects (ha_StatusCode a) = None) -> enrolls cfg b n k ->
  Forall (first_call cfg) k /\ length k = n.
Proof.
  intros Hd. induction 1 as [|n l k _ [IH <-] Ha _]; [done|]. assert (Hk : exists c, k = [c] /\ first_call cfg c).
  { destruct Ha as [c Hc|l' d c _ (? & ? & ? & a & again & ? & _ & Ha & Hr & _)]; [by eexists|]. rewrite (Hd _ _ _ Ha) in Hr. done. }
  destruct Hk as (c & -> & Hc). split; [by apply Forall_app_2; [|apply Forall_singleton]|]. rewrite length_app. simpl. lia.
Qed.
Lemma persist_calls cfg st h : h_calls (persist cfg st h) = h_calls h.
Proof. unfold persist, use_disk. repeat case_match; simplify_eq; done. Qed.

(** Renewals one after the other; one that fails changes nothing. *)
Definition net_cycle (cfg : NetConfig) (s : Provider * Host) : Provider * Host :=
  match net_renew cfg s.1 s.2 with (Ok p, h) => (p, h) | (Err _, h) => (s.1, h) end.
Lemma commit_current `{Versioning} st p cur : pv_st p = Some cur -> is_Some (pv_st (commit st p).2).
Proof. intros Hc. unfold commit. rewrite Hc. destruct (next_version _ _ _). by eexists. Qed.
Lemma net_cycle_calls cfg p h st :
  pv_st p = Some st -> is_Some (pv_st (net_cycle cfg (p, h)).1)
  /\ exists k, h_calls (net_cycle cfg (p, h)).2 = h_calls h ++ k /\ Forall (renewal_call cfg) k.
Proof.
  intros Hst. unfold net_cycle, net_renew, st_bind. simpl.
  destruct (net_mint_renewal cfg p st Hst h) as (_ & k & ? & Hk & [_ HK] & _).
  destruct (net_mint cfg (Some p) h) as [[st'|e] h1]; simpl in *; [|rewrite Hst; eauto].
  pose proof (@commit_current sdk_rule st' p st Hst) as Hc. destruct (commit st' p) as [st2 p2]. simpl in *.
  rewrite persist_calls. eauto.
Qed.

(** C40. Where the join token goes.  Starting a provider makes at most 21 attempts to
    enroll, and none when a usable certificate was persisted.  The first request of an
    attempt is a POST with the token to the enrollment route; it is followed by at most
    nine more, each to the place the answer to the one before redirected to, and with the
    token only when that answer was a 307 or 308 to a request with it.  So the token goes
    to other places only on the word of the route itself, and when nothing redirects, to
    the route alone, at most 21 times.  Every later renewal presents the current
    certificate, asks for the same identity and carries no token. *)
Theorem join_token_confined cfg now h r h' n :
  NewNet cfg now h = (r, h') ->
  (exists k m, h_calls h' = h_calls h ++ k /\ enrolls cfg (h_calls h) m k /\ (m <= 21)%nat
     /\ ((forall before c a, lcm_http before c = Ok a -> redirects (ha_StatusCode a) = None) ->
         Forall (first_call cfg) k /\ (length k <= 21)%nat))
  /\ (is_Some (loadPersisted cfg now (h_files h)) -> h' = h)
  /\ (forall p, r = Ok p -> exists k, h_calls (Nat.iter n (net_cycle cfg) (p, h')).2 = h_calls h' ++ k
        /\ Forall (renewal_call cfg) k).
Proof.
  intros Hn.
  assert (Hr : (h' = h /\ forall p, r = Ok p -> exists st, pv_st p = Some st) \/
    (loadPersisted cfg now (h_files h) = None /\ exists r1 h1, first_enroll cfg maxAttempts h = (r1, h1)
      /\ h_calls h' = h_calls h1 /\ forall p, r = Ok p -> exists st, pv_st p = Some st)).
  { unfold NewNet, st_bind, st_guard in Hn. 
    do 4 (match type of Hn with (let (_, _) := if ?b then _ else _ in _) = _ =>
            destruct b; cbv iota beta in Hn; [|injection Hn as <- <-; left; by split] end).
    destruct (loadPersisted _ _ _) as [st|] eqn:El; [injection Hn as <- <-; left; split; [done|]; intros p [= <-]; by eexists|].
    right. split; [done|]. destruct (first_enroll _ _ _) as [r1 h1]. exists r1, h1. split; [done|].
    destruct r1 as [st|e]; injection Hn as <- <-; [rewrite persist_calls|]; (split; [done|]); intros p; [|done]; intros [= <-]; by eexists. }
  assert (Hgood : forall p, r = Ok p -> exists st, pv_st p = Some st) by (destruct Hr as [[_ ?]|(_ & ? & ? & _ & _ & ?)]; done).
  split_and!.
  - destruct Hr as [[-> _]|(_ & r1 & h1 & Hf & -> & _)]; [exists [], 0%nat; rewrite app_nil_r; split_and!; [done|constructor|lia|split; [done|simpl; lia]]|].
    destruct (first_enroll_calls cfg maxAttempts h) as (_ & k & m & Hk & He & Hm). rewrite Hf in Hk. exists k, m. split_and!; [done..|].
    intros Hd. destruct (enrolls_direct _ _ _ _ Hd He) as [Hfc ->]. by split.
  - intros [st Hst]. destruct Hr as [[-> _]|[Hl _]]; [done|congruence].
  - intros p Hp. destruct (Hgood p Hp) as [st Hst].
    assert (Hi : is_Some (pv_st (Nat.iter n (net_cycle cfg) (p, h')).1)
      /\ exists k, h_calls (Nat.iter n (net_cycle cfg) (p, h')).2 = h_calls h' ++ k /\ Forall (renewal_call cfg) k).
    { induction n as [|n [[cur Hcur] (k & Hk & HK)]]; simpl.
      - split; [by eexists|]. exists []. by rewrite app_nil_r.
      - destruct (Nat.iter n _ _) as [q hq]. simpl in *. destruct (net_cycle_calls cfg q hq cur Hcur) as (Hs & k' & Hk' & HK').
        split; [done|]. exists (k ++ k'). rewrite Hk', Hk, <- app_assoc. split; [done|]. by apply Forall_app. }
    apply Hi.
Qed.
End token.

(** ** A restart *)
(** What the persisted state relies on: PEM is ASCII, its blocks are read back one
    after the other, a parsed certificate keeps its bytes, and a generated P-256 key
    is written and read back. *)
Class PersistLaws `{Crypto} : Prop := {
  pl_end : pem_next "" = None;
  pl_block b rest : pem_next (pem_encode "CERTIFICATE" b +:+ rest) = Some (mkBlock "CERTIFICATE" "" b, rest);
  pl_key_block b : pem_next (pem_encode "PRIVATE KEY" b) = Some (mkBlock "PRIVATE KEY" "" b, "");
  pl_ascii ty b : ty = "CERTIFICATE" \/ ty = "PRIVATE KEY" -> string_forallb is_ascii_byte (pem_encode ty b) = true;
  pl_raw der c : parse_certificate der = Ok c -> x_Raw c = der;
  pl_key n k pub : generate_key n = Ok (k, pub) ->
    (exists bits x, public_of k = ECDSAKey bits x)
    /\ exists der, marshal_key k = Ok der /\ parse_pkcs8 der = Some (Some k);
}.
Lemma ascii_utf8 s : string_forallb is_ascii_byte s = true -> utf8_valid s = true.
Proof.
  unfold utf8_valid. induction s as [|c s IH]; [done|]. simpl. unfold is_ascii_byte at 1. intros [Hc Hs]%andb_true_iff.
  rewrite Hc. by apply IH.
Qed.
Lemma concat_cons x l : String.concat "" (x :: l) = x +:+ String.concat "" l.
Proof. destruct l; simpl; [by rewrite str_app_nil|done]. Qed.

Section restart.
Context `{GoRuntime} `{Crypto} `{IdentityHost} `{LcmNet} {laws : PersistLaws}.
Lemma pemBlocks_ascii l : string_forallb is_ascii_byte (pemBlocks "CERTIFICATE" l) = true.
Proof.
  unfold pemBlocks. induction l as [|x l IH]; [done|]. rewrite fmap_cons, concat_cons, forallb_app, IH.
  by rewrite pl_ascii by auto.
Qed.
Lemma pem_encode_length b : (1 <= String.length (pem_encode "CERTIFICATE" b))%nat.
Proof.
  pose proof (pl_block b "") as Hb. rewrite str_app_nil in Hb. destruct (pem_encode _ b); simpl; [|lia].
  rewrite pl_end in Hb. discriminate.
Qed.
Lemma decodeCerts_pemBlocks l : decodeCerts (pemBlocks "CERTIFICATE" l) = l.
Proof.
  unfold decodeCerts.
  assert (Hg : forall n, (length l < n)%nat -> decode_certs n (pemBlocks "CERTIFICATE" l) = l).
  { unfold pemBlocks. induction l as [|x l IH]; intros [|n] Hn; simpl in Hn; try lia; cbn [decode_certs].
    - simpl. by rewrite pl_end.
    - rewrite fmap_cons, concat_cons, pl_block. simpl. f_equal. apply IH. lia. }
  apply Hg. unfold pemBlocks. clear Hg. induction l as [|x l IH]; [simpl; lia|].
  rewrite fmap_cons, concat_cons, str_length_app. pose proof (pem_encode_length x). simpl length. lia.
Qed.
Lemma parse_all_raw ders roots : parse_all ders = Ok roots -> parse_all (x_Raw <$> roots) = Ok roots.
Proof.
  revert roots. induction ders as [|d ders IH]; simpl; intros roots; [by intros [= <-]|].
  destruct (parse_certificate d) as [c|] eqn:Ec; [|done]. destruct (parse_all ders) as [out|]; [|done]. intros [= <-].
  simpl. rewrite (pl_raw _ _ Ec), Ec. cbn [res_bind]. by rewrite IH.
Qed.
Lemma build_parts_inv td svc b key st :
  build_parts td svc b key = Ok st ->
  exists der ders leaf ders2 roots sid, st = mkState (mkTLSCertificate (der :: ders) key leaf)
      (mkIdent sid (x_NotBefore leaf) (x_NotAfter leaf) (FormatInt (x_SerialNumber leaf))) (mkTrustBundle td roots 0)
    /\ parse_certificate der = Ok leaf /\ parse_all ders2 = Ok roots /\ roots <> [] /\ NewSPIFFEID td svc = Ok sid.
Proof.
  unfold build_parts. destruct (decodeCerts (pb_CertPEM b)) as [|der ders]; [done|].
  destruct (parse_certificate der) as [leaf|] eqn:El; [|done]. unfold decodeCertsParsed.
  destruct (parse_all _) as [[|r roots]|] eqn:Er; [done| |done]. destruct (NewSPIFFEID td svc) as [sid|]; [|done]. intros [= <-].
  exists der, (ders ++ decodeCerts (pb_ChainPEM b)), leaf, (decodeCerts (pb_BundlePEM b)), (r :: roots), sid. done.
Qed.
(** What was built is built again from what is persisted. *)
Lemma rebuild td svc b key st keyDER :
  buildStateFrom td svc b key = Ok st ->
  let rec := persisted_of st keyDER in
  buildStateFrom td svc (mkPBundle (ps_CertPEM rec) (ps_ChainPEM rec) (ps_BundlePEM rec)) key = Ok st.
Proof.
  unfold buildStateFrom. destruct (build_parts td svc b key) as [st0|] eqn:Eb; [|done]. cbn [res_bind].
  case_bool_decide as Hu; [|done]. intros [= ->].
  destruct (build_parts_inv _ _ _ _ _ Eb) as (der & ders & leaf & ders2 & roots & sid & -> & Hl & Hr & Hne & Hs).
  unfold build_parts, persisted_of, decodeCertsParsed, rootsDER. simpl. rewrite drop_0, !decodeCerts_pemBlocks.
  simpl. rewrite Hl, (parse_all_raw _ _ Hr). destruct roots as [|r roots]; [done|]. rewrite Hs. simpl.
  by rewrite bool_decide_eq_true_2.
Qed.
Lemma marshal_persisted_texts r : marshal_persisted r = "{" +:+ json_join (text_member <$>
  [("cert_pem", ps_CertPEM r); ("chain_pem", ps_ChainPEM r); ("key_pem", ps_KeyPEM r); ("bundle_pem", ps_BundlePEM r)]) +:+ "}".
Proof. reflexivity. Qed.
Lemma persisted_roundtrip r :
  Forall (fun t => string_forallb is_ascii_byte t = true) [ps_CertPEM r; ps_ChainPEM r; ps_KeyPEM r; ps_BundlePEM r] ->
  unmarshal_persisted (marshal_persisted r) = Some r.
Proof.
  intros Ha. unfold unmarshal_persisted, object_members. rewrite marshal_persisted_texts, object_unmarshal.
  - destruct r. reflexivity.
  - repeat apply Forall_cons in Ha as [? Ha]. repeat constructor; simpl; by apply ascii_utf8.
  - simpl. repeat constructor; set_solver.
Qed.
Lemma parseECKey_pem n k pub der :
  generate_key n = Ok (k, pub) -> marshal_key k = Ok der -> parseECKey (pem_encode "PRIVATE KEY" der) = Some k.
Proof.
  intros Hg Hm. destruct (pl_key _ _ _ Hg) as ((bits & x & Hp) & der' & Hm' & Hk). rewrite Hm in Hm'. injection Hm' as <-.
  unfold parseECKey, pem_decode. rewrite pl_key_block. simpl. by rewrite Hk, Hp.
Qed.
(** A state that was built for a generated key is loaded back while it lasts. *)
Lemma persist_load cfg b n key pub st h now :
  generate_key n = Ok (key, pub) -> buildStateFrom (nc_TrustDomain cfg) (nc_ServiceName cfg) b key = Ok st ->
  nc_StateFile cfg <> "" -> (forall i, disk_fault i = None) -> Minute <= time_sub (idn_na (st_id st)) now ->
  loadPersisted cfg now (h_files (persist cfg st h)) = Some st.
Proof.
  intros Hg Hb Hf Hd Hna. destruct (pl_key _ _ _ Hg) as ((bits & x & Hp) & der & Hm & _).
  assert (Hkey : tls_PrivateKey (st_crt st) = key).
  { unfold buildStateFrom in Hb. destruct (build_parts _ _ _ _) as [st0|] eqn:Eb; [|done]. simpl in Hb.
    case_bool_decide; [|done]. injection Hb as ->.
    by destruct (build_parts_inv _ _ _ _ _ Eb) as (? & ? & ? & ? & ? & ? & -> & _). }
  unfold persist. rewrite (proj2 (str_eqb_neq _ _) Hf), Hkey, Hp, Hm. unfold use_disk. cbv zeta iota beta. rewrite !Hd. simpl.
  unfold loadPersisted. rewrite (proj2 (str_eqb_neq _ _) Hf), lookup_insert_eq, persisted_roundtrip.
  2: { unfold persisted_of. repeat constructor; simpl; first [apply pemBlocks_ascii|apply pl_ascii; auto]. }
  unfold persisted_of at 1. cbn [ps_KeyPEM]. rewrite (parseECKey_pem _ _ _ _ Hg Hm), (rebuild _ _ _ _ _ der Hb).
  by rewrite (proj2 (Z.ltb_ge _ _)).
Qed.
Lemma net_mint_ok cfg p h st h' :
  net_mint cfg p h = (Ok st, h') ->
  exists n key pub b, generate_key n = Ok (key, pub) /\ buildStateFrom (nc_TrustDomain cfg) (nc_ServiceName cfg) b key = Ok st.
Proof.
  unfold net_mint. intros Hr. apply st_bind_ok in Hr as ([key pub] & h1 & [= Hg _] & Hr).
  apply st_bind_ok in Hr as (csr & h2 & _ & Hr). apply st_bind_ok in Hr as (b & h3 & _ & Hr).
  apply st_lift_ok in Hr as [Hb _]. eauto 6.
Qed.
Lemma first_enroll_ok cfg more h st h' :
  first_enroll cfg more h = (Ok st, h') -> exists h0, net_mint cfg None h0 = (Ok st, h').
Proof.
  revert h. induction more as [|more IH]; intros h; cbn [first_enroll]; intros Hr;
    apply st_bind_ok in Hr as (r & h1 & Ht & Hr); unfold st_try in Ht;
    destruct (net_mint cfg None h) as [r' h2] eqn:Em; injection Ht as <- <-; destruct r' as [st'|e].
  1, 3: apply st_ret_ok in Hr as [-> ->]; by eexists.
  - done.
  - destruct (ctx_now _); [done|]. destruct (ctx_pause _); [done|]. eauto.
Qed.
(** The leaf served names the workload, and nothing else. *)
Lemma buildStateFrom_names td svc b key st :
  buildStateFrom td svc b key = Ok st -> x_URIs (tls_Leaf (st_crt st)) = [idn_id (st_id st)] /\ NewSPIFFEID td svc = Ok (idn_id (st_id st)).
Proof.
  unfold buildStateFrom. destruct (build_parts _ _ _ _) as [st0|] eqn:Eb; [|done]. simpl. case_bool_decide as Hu; [|done].
  intros [= ->]. split; [done|]. by destruct (build_parts_inv _ _ _ _ _ Eb) as (? & ? & ? & ? & ? & ? & -> & _ & _ & _ & Hs).
Qed.
(** The ways [NewNet] succeeds. *)
Lemma NewNet_cases cfg now h p h' :
  NewNet cfg now h = (Ok p, h') ->
  (exists st, loadPersisted cfg now (h_files h) = Some st /\ p = first_state st /\ h' = h)
  \/ (exists st h1, loadPersisted cfg now (h_files h) = None /\ first_enroll cfg maxAttempts h = (Ok st, h1)
       /\ p = first_state st /\ h' = persist cfg st h1).
Proof.
  unfold NewNet. intros Hn. do 4 (apply st_bind_ok in Hn as (? & ? & [_ ->]%st_guard_ok & Hn)).
  destruct (loadPersisted _ _ _) as [st|] eqn:El; [injection Hn as <- <-; left; eauto|]. right.
  apply st_bind_ok in Hn as (st & h1 & Hf & Hn). apply st_bind_ok in Hn as (? & ? & [= _ <-] & Hn).
  apply st_ret_ok in Hn as [-> ->]. eauto 6.
Qed.
(** A workload starts once with its token: whatever the authority answered, the
    certificate it starts with names it and nothing else; and when the disk works, a
    process started later over the same file, while the certificate has a minute
    left, gets the same provider without a call. *)
Theorem restart_reuses cfg now h p h' :
  NewNet cfg now h = (Ok p, h') ->
  exists st, pv_st p = Some st
  /\ x_URIs (tls_Leaf (st_crt st)) = [idn_id (st_id st)]
  /\ NewSPIFFEID (nc_TrustDomain cfg) (nc_ServiceName cfg) = Ok (idn_id (st_id st))
  /\ (nc_StateFile cfg <> "" -> (forall i, disk_fault i = None) ->
      loadPersisted cfg now (h_files h) = None ->
      forall later h2, h_files h2 = h_files h' -> Minute <= time_sub (idn_na (st_id st)) later ->
      NewNet cfg later h2 = (Ok p, h2)).
Proof.
  intros Hn. pose proof Hn as Hn0.
  destruct (NewNet_cases _ _ _ _ _ Hn) as [(st & Hl & -> & ->)|(st & h1 & Hl & Hf & -> & ->)]; simpl; eexists; (split; [done|]).
  - pose proof Hl as Hl0. unfold loadPersisted in Hl. repeat (case_match; try done). simplify_eq.
    match goal with E : buildStateFrom _ _ _ _ = Ok _ |- _ => apply buildStateFrom_names in E as [Hu Hs] end.
    simpl. split_and!; [done|done|]. intros _ _ Hnone. congruence.
  - destruct (first_enroll_ok _ _ _ _ _ Hf) as [h0 Hm]. destruct (net_mint_ok _ _ _ _ _ Hm) as (n & key & pub & b & Hg & Hb).
    destruct (buildStateFrom_names _ _ _ _ _ Hb) as [Hu Hs]. simpl. split_and!; [done|done|].
    intros Hsf Hd _ later h2 Hfiles Hna. unfold NewNet in *.
    do 4 (apply st_bind_ok in Hn0 as (? & ? & [? ->]%st_guard_ok & Hn0)).
    repeat match goal with E : negb _ = true |- _ => rewrite E; clear E end. unfold st_bind, st_guard.
    rewrite Hfiles, (persist_load _ _ _ _ _ _ _ later Hg Hb Hsf Hd); [done|exact Hna].
Qed.
End restart.

(** ** The server on the channel *)
(** The renewal channel is only used with the authority: a server is accepted
    exactly when the first certificate it presents verifies now against the roots the
    workload holds and names the service lcm of the trust domain. *)
Theorem verifyLCMServer_exact `{Crypto} `{LcmNet} cfg now p st rawCerts :
  pv_st p = Some st ->
  verifyLCMServer cfg now p rawCerts = Ok tt <->
  exists der rest leaf, rawCerts = der :: rest /\ parse_certificate der = Ok leaf
    /\ x509_Verify (bdl_roots (st_bundle st))
         (omap (fun d => match parse_certificate d with Ok c => Some c | Err _ => None end) rest) now leaf = true
    /\ service_id (nc_TrustDomain cfg) "lcm" ∈ x_URIs leaf.
Proof.
  intros Hst. unfold verifyLCMServer. rewrite Hst. destruct rawCerts as [|der rest].
  { split; [done|]. by intros (? & ? & ? & ? & _). }
  assert (Hu : forall leaf, existsb (fun u => u =s service_id (nc_TrustDomain cfg) "lcm") (x_URIs leaf) = true
            <-> service_id (nc_TrustDomain cfg) "lcm" ∈ x_URIs leaf) by (intros leaf; apply contains_spec).
  destruct (parse_certificate der) as [leaf|] eqn:El; simpl.
  - destruct (x509_Verify _ _ _ _) eqn:Ev; simpl.
    + specialize (Hu leaf). destruct (existsb _ _) eqn:Ee.
      * split; [|done]. intros _. exists der, rest, leaf. split_and!; [done|done|done|by apply Hu].
      * split; [done|]. intros (? & ? & l & [= <- <-] & Hl & _ & Hin). rewrite El in Hl. injection Hl as <-. by apply Hu in Hin.
    + split; [done|]. intros (? & ? & l & [= <- <-] & Hl & Hv & _). rewrite El in Hl. injection Hl as <-. congruence.
  - split; [done|]. intros (? & ? & l & [= <- <-] & Hl & _). congruence.
Qed.

(** ** Runs *)
Module NetSample.
#[local] Existing Instance std_runtime.
(** A stand-in for PEM: a letter for the type, two letters for a byte, a dot. *)
Definition nib (n : Z) : Ascii.ascii := chr (97 + n).
Fixpoint enc (b : string) : string :=
  match b with
  | EmptyString => "."
  | String c b' => String (nib (byte_of c / 16)) (String (nib (byte_of c mod 16)) (enc b'))
  end.
Fixpoint dec (s : string) : option (string * string) :=
  match s with
  | String a s1 =>
    if byte_of a =? 46 then Some ("", s1)
    else match s1 with
         | String b s2 => match dec s2 with
                          | Some (t, r) => Some (String (chr (16 * (byte_of a - 97) + (byte_of b - 97))) t, r)
                          | None => None
                          end
         | EmptyString => None
         end
  | EmptyString => None
  end.
Lemma byte_nibs c : (byte_of (nib (byte_of c / 16)) =? 46) = false
  /\ chr (16 * (byte_of (nib (byte_of c / 16)) - 97) + (byte_of (nib (byte_of c mod 16)) - 97)) = c
  /\ is_ascii_byte (nib (byte_of c / 16)) = true /\ is_ascii_byte (nib (byte_of c mod 16)) = true.
Proof. by destruct c as [[] [] [] [] [] [] [] []]. Qed.
Lemma dec_enc b rest : dec (enc b +:+ rest) = Some (b, rest).
Proof.
  induction b as [|c b IH]; [done|]. cbn [enc]. rewrite !str_cons_app. cbn [dec].
  destruct (byte_nibs c) as (-> & Hc & _). by rewrite IH, Hc.
Qed.
Lemma enc_ascii b : string_forallb is_ascii_byte (enc b) = true.
Proof. induction b as [|c b IH]; [done|]. simpl. destruct (byte_nibs c) as (_ & _ & -> & ->). done. Qed.
Definition web_id : string := "spiffe://example.org/svc/web".
#[local] Instance letters : Crypto := {|
  pem_next s := match s with
                | String c r => match dec r with
                                | Some (b, rest) => Some (mkBlock (if byte_of c =? 75 then "PRIVATE KEY" else "CERTIFICATE") "" b, rest)
                                | None => None
                                end
                | EmptyString => None
                end;
  pem_encode ty b := (if ty =s "PRIVATE KEY" then "K" else "C") +:+ enc b;
  parse_csr_der s := None; csr_signature_ok _ := true;
  generate_key n := Ok ("key", ECDSAKey 256 "pub"); marshal_key k := Ok k;
  parse_pkcs8 s := Some (Some s); parse_pkcs1 s := None; parse_ec s := None; public_of k := ECDSAKey 256 "pub";
  parse_certificate s := Ok (mkX509 s 77 0 (100 * Minute) false "" [] []
    [if s =s "lcm" then "spiffe://example.org/svc/lcm" else web_id] [] (ECDSAKey 256 "pub") "CA");
  random_int n := Ok 1; create_certificate n t _ _ _ := Ok ""; create_csr n cn _ _ := Ok cn; sha256_hex s := s |}.
#[local] Instance letters_laws : PersistLaws.
Proof.
  split.
  - reflexivity.
  - intros b rest. change (match dec (enc b +:+ rest) with
      | Some (b, rest) => Some (mkBlock "CERTIFICATE" "" b, rest) | None => None end = Some (mkBlock "CERTIFICATE" "" b, rest)).
    by rewrite dec_enc.
  - intros b. change (match dec (enc b) with
      | Some (b, rest) => Some (mkBlock "PRIVATE KEY" "" b, rest) | None => None end = Some (mkBlock "PRIVATE KEY" "" b, "")).
    rewrite <- (str_app_nil (enc b)). by rewrite dec_enc.
  - intros ty b [-> | ->]; apply enc_ascii.
  - by intros der c [= <-].
  - intros n k pub [= <- <-]. split; [by do 2 eexists|]. by eexists.
Qed.
#[local] Instance toy_host : IdentityHost := fun td svc => Ok (service_id td svc).
Definition answer : PBundle := mkPBundle (pem_encode "CERTIFICATE" "leaf") (pemBlocks "CERTIFICATE" ["int1"; "int2"]) (pem_encode "CERTIFICATE" "root").
(** The route is down for the first call, and redirects the second. *)
#[local] Instance toy_net : LcmNet := {|
  lcm_http calls c := match calls with
    | [] => Ok (mkHttpAnswer 503 "" "starting")
    | [_] => Ok (mkHttpAnswer 307 "https://elsewhere/" "")
    | _ => Ok (mkHttpAnswer 200 "" ("{" +:+ json_join (text_member <$> [("cert_pem", pb_CertPEM answer); ("chain_pem", pb_ChainPEM answer);
                                                        ("bundle_pem", pb_BundlePEM answer)]) +:+ "}"))
    end;
  url_reference base loc := Some loc;
  lcm_grpc calls c := Ok answer;
  ctx_now calls := None; ctx_pause calls := None;
  create_uri_csr n uri key := Ok uri;
  x509_Verify roots inter now leaf := now <=? x_NotAfter leaf;
  disk_fault n := None |}.
Definition cfg : NetConfig := mkNetConfig "https://gw/api/lcm/v1/enroll" "lcm:9945" "t1" "example.org" "web" "jt" 0 false false "/state".
Definition fresh : Host := mkHost [] 0 ∅ 0.
Definition no_provider : Provider := mkProvider None 0 [] false [].
Definition started : Provider * Host :=
  match NewNet cfg 5 fresh with (Ok p, h) => (p, h) | (Err _, h) => (no_provider, h) end.
Lemma started_run : NewNet cfg 5 fresh = (Ok started.1, started.2).
Proof. vm_compute. reflexivity. Qed.
(** The client follows, and the other place gets the token. *)
Example token_redirected : exists body, h_calls started.2 =
  [HttpRequest "POST" (nc_EnrollURL cfg) body; HttpRequest "POST" (nc_EnrollURL cfg) body; HttpRequest "POST" "https://elsewhere/" body]
  /\ body = enroll_body cfg (pem_encode "CERTIFICATE REQUEST" web_id).
Proof. eexists. vm_compute. split; reflexivity. Qed.
Lemma join_token_confined_witness :
  (exists k m, h_calls started.2 = k /\ enrolls cfg [] m k /\ (m <= 21)%nat)
  /\ exists k, h_calls (Nat.iter 3 (net_cycle cfg) (started.1, started.2)).2 = h_calls started.2 ++ k /\ Forall (renewal_call cfg) k.
Proof.
  destruct (join_token_confined cfg 5 fresh _ _ 3 started_run) as ((k & m & Hk & He & Hm & _) & _ & Hr).
  split; [by exists k, m|exact (Hr started.1 eq_refl)].
Defined.
Lemma restart_reuses_witness :
  NewNet cfg (10 * Minute) (mkHost [] 0 (h_files started.2) 0) = (Ok started.1, mkHost [] 0 (h_files started.2) 0).
Proof.
  destruct (restart_reuses cfg 5 fresh started.1 started.2 started_run) as (st & Hst & _ & _ & Hre).
  apply Hre; [done|done|vm_compute; reflexivity|done|].
  assert (Hna : st_id <$> pv_st started.1 = Some (mkIdent web_id 0 (100 * Minute) "77")) by (vm_compute; reflexivity).
  rewrite Hst in Hna. simpl in Hna. injection Hna as ->. vm_compute. discriminate.
Defined.
(** Even with a usable certificate on disk, starting without a token is refused. *)
Example restart_needs_token :
  let cfg' := mkNetConfig "https://gw/api/lcm/v1/enroll" "lcm:9945" "t1" "example.org" "web" "" 0 false false "/state" in
  is_Some (loadPersisted cfg' 5 (h_files started.2))
  /\ (NewNet cfg' 5 started.2).1 = Err (id_error "an enrollment token is required for the first enroll").
Proof. split; [vm_compute; by eexists|vm_compute; reflexivity]. Qed.
Lemma verifyLCMServer_exact_witness : verifyLCMServer cfg 5 started.1 ["lcm"] = Ok tt.
Proof.
  assert (Hst : exists st, pv_st started.1 = Some st) by (vm_compute; by eexists). destruct Hst as [st Hst].
  apply (proj2 (verifyLCMServer_exact cfg 5 started.1 st ["lcm"] Hst)). do 3 eexists.
  split; [reflexivity|]. split; [reflexivity|]. split; [reflexivity|]. apply list_elem_of_singleton. reflexivity.
Defined.
End NetSample.
