(* ===== verification/Statistics.v ===== *)
(** The statistics of a tenant: internal/stats/stats.go over the counts of the store
    and the streams of the hub. *)

From S2P Require Import Prelude Rows Memstore MemstoreInv Stream Hub.

Record StatsService := mkStatsService { ss_hub : option Hub; ss_window : Z }.
Definition stats_New (hub : option Hub) (window : Z) : StatsService :=
  mkStatsService hub (if window <=? 0 then 24 * 3600 * Second else window).
Record StatsView := mkStatsView {
  sv_Issuers : Z; sv_Certificates : gmap string Z; sv_Jobs : gmap string Z; sv_Clients : Z; sv_ExpiringSoon : Z;
  sv_RecentErrors : Z; sv_Operations24h : Z; sv_OpenStreams : Z;
}.
(** The maps of the store are never nil. *)
Definition stats_Tenant `{GoRuntime} (s : StatsService) (tenantID : string) (now : Z) (m : Mem) : res StatsView :=
  let? st := Mem_TenantStats tenantID now (ss_window s) m in
  Ok (mkStatsView (sts_Issuers st) (sts_Certificates st) (sts_Jobs st) (sts_Clients st) (sts_ExpiringSoon st)
        (sts_RecentErrors st) (sts_Operations24h st) (match ss_hub s with Some h => OpenStreams h | None => 0 end)).

(** The number of rows of a table a test holds of. *)
Definition rows_with {A} (P : A -> bool) (t : gmap string A) : Z := Z.of_nat (size (filter (fun kx => P kx.2 = true) t)).
Section stats.
Context `{GoRuntime}.
Lemma count_if_rows {A} (P : A -> bool) (t : gmap string A) : count_if P (map_range t).*2 = rows_with P t.
Proof.
  unfold count_if, rows_with. rewrite <- length_map_to_list, map_filter_alt, map_to_list_to_map.
  2: { assert (Hsub : (filter (fun kx => P kx.2 = true) (map_to_list t)).*1 `sublist_of` (map_to_list t).*1)
         by (apply fmap_sublist, sublist_filter).
       exact (sublist_NoDup _ _ (NoDup_fst_map_to_list t) Hsub). }
  rewrite <- (map_range_perm t). f_equal. induction (map_range t) as [|[k x] l IH]; [done|]. rewrite filter_cons. simpl.
  destruct (P x); [rewrite decide_True by done|rewrite decide_False by done]; simpl; [f_equal|]; exact IH.
Qed.
Lemma count_by_spec {A} (k : A -> string) (l : list A) s : default 0 (count_by k l !! s) = count_if (fun x => k x =s s) l.
Proof.
  unfold count_by. assert (Hg : forall acc : gmap string Z,
    default 0 (foldl (fun acc x => <[k x := default 0 (acc !! k x) + 1]> acc) acc l !! s)
    = default 0 (acc !! s) + count_if (fun x => k x =s s) l); [|by rewrite Hg, lookup_empty].
  induction l as [|x l IH]; intros acc; [unfold count_if; simpl; lia|]. cbn [foldl]. rewrite IH. unfold count_if. simpl.
  destruct (k x =s s) eqn:E; bools.
  - rewrite E, lookup_insert_eq. simpl. lia.
  - by rewrite lookup_insert_ne.
Qed.
Lemma count_if_filter {A} (P Q : A -> bool) (l : list A) :
  count_if P (filter (fun x => Q x = true) l) = count_if (fun x => Q x && P x) l.
Proof.
  unfold count_if. induction l as [|x l IH]; [done|]. rewrite filter_cons. simpl.
  destruct (Q x); [rewrite decide_True by done|rewrite decide_False by done]; simpl; [|done].
  destruct (P x); simpl; lia.
Qed.
Lemma count_if_split {A} (P Q R : A -> bool) (l : list A) :
  (forall x, R x = true -> P x = true \/ Q x = true) -> count_if R l <= count_if P l + count_if Q l.
Proof.
  intros Hi. unfold count_if. induction l as [|x l IH]; simpl; [lia|]. specialize (Hi x).
  destruct (R x), (P x), (Q x); simpl; try lia.
Qed.

(** The statistics count the rows of the tenant and of nobody else: issuers, and
    certificates and jobs by status, are exactly the numbers of its rows; those said
    to expire soon are its live certificates that end within the window, so never more
    than it has live ones.  The streams are those of the whole hub. *)
Theorem Tenant_counts s tid now m v :
  stats_Tenant s tid now m = Ok v ->
  sv_Issuers v = rows_with (fun i => iss_TenantID i =s tid) (m_Issuers m)
  /\ (forall st, default 0 (sv_Certificates v !! st)
        = rows_with (fun c => (crt_TenantID c =s tid) && (crt_Status c =s st)) (m_Certificates m))
  /\ (forall st, default 0 (sv_Jobs v !! st)
        = rows_with (fun j => (job_TenantID j =s tid) && (job_Status j =s st)) (m_Jobs m))
  /\ sv_ExpiringSoon v = rows_with (fun c => (crt_TenantID c =s tid)
        && (((crt_Status c =s "active") || (crt_Status c =s "expiring"))
            && After (crt_NotAfter c) now && negb (After (crt_NotAfter c) (now + ss_window s)))) (m_Certificates m)
  /\ sv_ExpiringSoon v <= default 0 (sv_Certificates v !! "active") + default 0 (sv_Certificates v !! "expiring").
Proof.
  unfold stats_Tenant, Mem_TenantStats, fail_read. case_match; [done|]. intros [= <-]. simpl.
  split_and!.
  - apply count_if_rows.
  - intros st. by rewrite count_by_spec, count_if_filter, count_if_rows.
  - intros st. by rewrite count_by_spec, count_if_filter, count_if_rows.
  - by rewrite count_if_filter, count_if_rows.
  - rewrite !count_by_spec. apply count_if_split. intros c [[Hc _]%andb_true_iff _]%andb_true_iff. by apply orb_true_iff.
Qed.
End stats.

Module StatsSample.
#[local] Existing Instance std_runtime.
(** A tenant without streams is shown those of the others. *)
Definition busy : Hub := (Subscribe_locked (NewHub_config (mkHubConfig 0 0 0 0)) "other" "carol" NewMemory NewHub).1.2.
Definition certs : gmap string IssuedCertificate :=
  {["c1" := sample_cert <| crt_TenantID := "t1" |> <| crt_Status := "active" |> <| crt_SupersededBy := None |> <| crt_NotAfter := 3600 * Second |>;
    "c2" := sample_cert <| crt_TenantID := "t2" |> <| crt_Status := "active" |>]}.
Definition store : Mem := (Mem_New 0) <| m_Certificates := certs |>.
Definition shown : StatsView := {| sv_Issuers := 0; sv_Certificates := {["active" := 1]}; sv_Jobs := ∅; sv_Clients := 0;
  sv_ExpiringSoon := 1; sv_RecentErrors := 0; sv_Operations24h := 0; sv_OpenStreams := 1 |}.
Lemma shown_run : stats_Tenant (stats_New (Some busy) 0) "t1" 0 store = Ok shown.
Proof. vm_compute. reflexivity. Qed.
Lemma Tenant_counts_witness :
  rows_with (fun c => (crt_TenantID c =s "t1") && (crt_Status c =s "active")) (m_Certificates store) = 1.
Proof.
  destruct (Tenant_counts (stats_New (Some busy) 0) "t1" 0 store shown shown_run) as (_ & Hc & _).
  exact (eq_sym (Hc "active")).
Defined.
End StatsSample.
