(* ===== verification/CertInfo.v ===== *)
(** The details of a certificate: internal/certinfo/certinfo.go and
    CertificateDetails of internal/issue/certificates.go.  Everything shown is read
    from the CERTIFICATE blocks of the stored texts. *)

From Stdlib Require Import SpecFloat.
From S2P Require Import Prelude Rows Memstore Authz GoJson GoUrl AuditLog Csr Sealed World Domains Acme Renew Expiring.

(** ** What is read of a certificate beyond [X509] *)
Record CertExt := mkCertExt {
  ce_SubjectDN : string; ce_IssuerCN : string; ce_RawSubject : string; ce_RawIssuer : string; ce_SignedBySelf : bool;
  ce_Version : Z; ce_SignatureAlgorithm : string; ce_KeyUsage : Z; ce_ExtKeyUsage : list Z; ce_UnknownExtKeyUsage : list string;
  ce_BasicConstraintsValid : bool; ce_MaxPathLen : Z; ce_MaxPathLenZero : bool; ce_SubjectKeyId : list Z;
  ce_AuthorityKeyId : list Z; ce_CRLDistributionPoints : list string; ce_OCSPServer : list string;
  ce_IssuingCertificateURL : list string; ce_PublicKeyAlgorithm : string; ce_Curve : string;
}.
(** crypto/x509 and the digests, the texts of its errors, and the words of a text
    that is not ASCII ([strings.Fields] by the Unicode tables). *)
Class CertReader := {
  cert_ext : X509 -> CertExt;
  sha256_sum : string -> list Z;
  sha1_sum : string -> list Z;
  err_text : err -> string;
  unicode_words : string -> list string;
}.

(** ** Results *)
Record Name := mkName { nm_DN : string; nm_CN : string }.
Record Validity := mkValidity { vl_NotBefore : Z; vl_NotAfter : Z; vl_Status : string; vl_DaysRemaining : Z }.
Record SANs := mkSANs {
  sn_DNS : list string; sn_IP : list string; sn_URI : list string; sn_SPIFFE : list string; sn_Email : list string;
}.
Record KeyInfo := mkKeyInfo { ki_Algorithm : string; ki_Size : Z; ki_Curve : string }.
Record BasicConstraints := mkBasicConstraints { bc_Present : bool; bc_CA : bool; bc_PathLen : option Z }.
Record ChainEntry := mkChainEntry { ch_Subject : Name; ch_Issuer : Name; ch_NotAfter : Z; ch_Fingerprint : string }.
Record Details := mkDetails {
  dt_Subject : Name; dt_Issuer : Name; dt_SelfSigned : bool; dt_Serial : string; dt_Version : Z; dt_Validity : Validity;
  dt_SANs : SANs; dt_PublicKey : KeyInfo; dt_SignatureAlgorithm : string; dt_KeyUsage : list string;
  dt_ExtKeyUsage : list string; dt_BasicConstraints : BasicConstraints; dt_SubjectKeyID : string;
  dt_AuthorityKeyID : string; dt_CRLDistributionPoints : list string; dt_OCSPServers : list string;
  dt_IssuingCertificateURLs : list string; dt_SHA256 : string; dt_SHA1 : string; dt_Chain : list ChainEntry;
  dt_ChainError : string;
}.
Inductive InfoResult := Available (d : Details) | Unavailable (reason : string).

(** ** Formatting *)
Definition upper_hex (d : Z) : Ascii.ascii := chr (if d <? 10 then 48 + d else 55 + d).
Definition hex_pair (v : Z) : string := String (upper_hex (Z.shiftr v 4)) (str1 (upper_hex (Z.land v 15))).
Definition colonHex (b : list Z) : string := String.concat ":" (hex_pair <$> b).
(** [big.Int.Bytes]: the absolute value, the most significant byte first. *)
Fixpoint be_bytes (n : nat) (z : Z) : list Z :=
  match n with
  | O => []
  | S n' => be_bytes n' (z / 256) ++ [z mod 256]
  end.
Definition byte_count (z : Z) : nat := if z =? 0 then 0 else S (Z.to_nat (Z.log2 z / 8)).
Definition serial (z : Z) : string :=
  let b := be_bytes (byte_count (Z.abs z)) (Z.abs z) in
  let s := colonHex (if Z.of_nat (length b) =? 0 then [0] else b) in
  if z <? 0 then "-" +:+ s else s.
Definition KeyUsageNames : list (Z * string) :=
  [(1, "Digital Signature"); (2, "Content Commitment"); (4, "Key Encipherment"); (8, "Data Encipherment");
   (16, "Key Agreement"); (32, "Certificate Sign"); (64, "CRL Sign"); (128, "Encipher Only"); (256, "Decipher Only")].
Definition keyUsage (ku : Z) : list string :=
  omap (fun k => if negb (Z.land ku k.1 =? 0) then Some k.2 else None) KeyUsageNames.
(** x509.ExtKeyUsageAny is 0, and so on. *)
Definition ExtKeyUsageNames : list string :=
  ["Any"; "Server Authentication"; "Client Authentication"; "Code Signing"; "Email Protection"; "IPsec End System";
   "IPsec Tunnel"; "IPsec User"; "Time Stamping"; "OCSP Signing"; "Microsoft Server Gated Crypto";
   "Netscape Server Gated Crypto"; "Microsoft Commercial Code Signing"; "Microsoft Kernel Code Signing"].
Definition extKeyUsage (usages : list Z) (unknown : list string) : list string :=
  ((fun u => match (if 0 <=? u then ExtKeyUsageNames !! Z.to_nat u else None) with
             | Some n => n
             | None => "EKU " +:+ FormatInt u
             end) <$> usages) ++ unknown.
Definition maxReason : nat := 200.
Definition ellipsis : string := String (chr 226) (String (chr 128) (str1 (chr 166))).

Section certinfo.
Context `{GoRuntime} `{Crypto} `{CertReader}.
(** [strings.Fields]. *)
Definition Words (s : string) : list string :=
  if string_forallb is_ascii_byte s then fields_from "" s else unicode_words s.
Definition bounded (s : string) : string :=
  let s := String.concat " " (Words s) in
  if (maxReason <? String.length s)%nat then String.substring 0 maxReason s +:+ ellipsis else s.
Definition floor_days (notAfter now : Z) : Z :=
  match f64_div (Hours (time_sub notAfter now)) (f64_of_Z 24) with
  | S754_finite s m e =>
    let v := if s then - Z.pos m else Z.pos m in if 0 <=? e then v * 2 ^ e else v / 2 ^ (- e)
  | _ => 0
  end.
Definition validity (c : X509) (now : Z) : Validity :=
  mkValidity (x_NotBefore c) (x_NotAfter c)
    (if Before now (x_NotBefore c) then "not_yet_valid" else if After now (x_NotAfter c) then "expired" else "valid")
    (floor_days (x_NotAfter c) now).
Definition is_spiffe (u : string) : bool :=
  match url_parse u with Some p => EqualFold (u_Scheme p) "spiffe" | None => false end.
Definition sans (c : X509) : SANs :=
  mkSANs (x_DNSNames c) (x_IPAddresses c) (x_URIs c) (List.filter is_spiffe (x_URIs c)) (x_EmailAddresses c).
Definition publicKey (c : X509) : KeyInfo :=
  match x_PublicKey c with
  | RSAKey bits _ => mkKeyInfo "RSA" bits ""
  | ECDSAKey bits _ => mkKeyInfo "ECDSA" bits (ce_Curve (cert_ext c))
  | Ed25519Key _ => mkKeyInfo "Ed25519" 256 ""
  | OtherKey _ => mkKeyInfo (ce_PublicKeyAlgorithm (cert_ext c)) 0 ""
  end.
Definition basicConstraints (c : X509) : BasicConstraints :=
  let x := cert_ext c in
  let ca := ce_BasicConstraintsValid x && x_IsCA c in
  mkBasicConstraints (ce_BasicConstraintsValid x) ca
    (if ca && ((0 <? ce_MaxPathLen x) || ce_MaxPathLenZero x) then Some (ce_MaxPathLen x) else None).
Definition subject_name (c : X509) : Name := mkName (ce_SubjectDN (cert_ext c)) (x_CommonName c).
Definition issuer_name_of (c : X509) : Name := mkName (x_IssuerDN c) (ce_IssuerCN (cert_ext c)).
Definition describe (c : X509) (now : Z) (chain : list ChainEntry) (chainError : string) : Details :=
  let x := cert_ext c in
  mkDetails (subject_name c) (issuer_name_of c) ((ce_RawSubject x =s ce_RawIssuer x) && ce_SignedBySelf x)
    (serial (x_SerialNumber c)) (ce_Version x) (validity c now) (sans c) (publicKey c) (ce_SignatureAlgorithm x)
    (keyUsage (ce_KeyUsage x)) (extKeyUsage (ce_ExtKeyUsage x) (ce_UnknownExtKeyUsage x)) (basicConstraints c)
    (colonHex (ce_SubjectKeyId x)) (colonHex (ce_AuthorityKeyId x)) (ce_CRLDistributionPoints x) (ce_OCSPServer x)
    (ce_IssuingCertificateURL x) (colonHex (sha256_sum (x_Raw c))) (colonHex (sha1_sum (x_Raw c))) chain chainError.

(** ** Reading the stored texts *)
(** [fuel] bounds the number of blocks. *)
Fixpoint first_certificate (fuel : nat) (data : string) : X509 + string :=
  match fuel with
  | O => inr "the stored data contains no PEM CERTIFICATE block"
  | S n =>
    match pem_next data with
    | None => inr "the stored data contains no PEM CERTIFICATE block"
    | Some (b, rest) =>
      if blk_Type b <>s "CERTIFICATE" then first_certificate n rest
      else match parse_certificate (blk_Bytes b) with
           | Err e => inr ("the certificate could not be parsed: " +:+ err_text e)
           | Ok c => inl c
           end
    end
  end.
Definition firstCertificate (data : string) : X509 + string :=
  if TrimSpace data =s "" then inr "no certificate is stored" else first_certificate (S (String.length data)) data.
Definition chain_entry (c : X509) : ChainEntry :=
  mkChainEntry (subject_name c) (issuer_name_of c) (x_NotAfter c) (colonHex (sha256_sum (x_Raw c))).
Fixpoint parse_chain (fuel : nat) (data : string) (out : list ChainEntry) (firstErr : option string)
  : list ChainEntry * option string :=
  match fuel with
  | O => (out, firstErr)
  | S n =>
    match pem_next data with
    | None => (out, firstErr)
    | Some (b, rest) =>
      if blk_Type b <>s "CERTIFICATE" then parse_chain n rest out firstErr
      else match parse_certificate (blk_Bytes b) with
           | Err e => parse_chain n rest out
                        (match firstErr with
                         | None => Some ("a chain certificate could not be parsed: " +:+ err_text e)
                         | Some _ => firstErr
                         end)
           | Ok c => parse_chain n rest (out ++ [chain_entry c]) firstErr
           end
    end
  end.
Definition parseChain (data : string) : list ChainEntry * option string :=
  parse_chain (S (String.length data)) data [] None.
Definition certinfo_Decode (certPEM chainPEM : string) (now : Z) : InfoResult :=
  match firstCertificate certPEM with
  | inr e => Unavailable (bounded e)
  | inl leaf =>
    let '(chain, cerr) := parseChain chainPEM in
    Available (describe leaf now chain (match cerr with Some e => bounded e | None => "" end))
  end.
End certinfo.

(** issue.Service.CertificateDetails. *)
Definition CertificateDetails `{Env} `{CertReader} (now : Z) (subj : Subjects) (id : string) : M InfoResult :=
  let* _ := az_Check now subj Certificate id Read in
  let* row := reading (Mem_GetCertificate (sub_TenantID subj) id) in
  st_ret (certinfo_Decode (crt_CertPEM row) (crt_ChainPEM row) now).

(** ** Digests and serial numbers are shown exactly *)
Definition is_byte (v : Z) : Prop := 0 <= v < 256.
Lemma all_bytes (P : Z -> bool) : forallb P (Z.of_nat <$> seq 0 256) = true -> forall v, is_byte v -> P v = true.
Proof.
  intros Hp v Hv. rewrite forallb_forall in Hp. apply Hp. apply list_elem_of_In, list_elem_of_fmap.
  exists (Z.to_nat v). unfold is_byte in Hv. split; [lia|]. apply elem_of_seq. lia.
Qed.
(** The value of a pair of digits. *)
Definition digit_value (c : Ascii.ascii) : Z := if byte_of c <? 58 then byte_of c - 48 else byte_of c - 55.
Definition pair_value (s : string) : Z :=
  match s with String a (String b EmptyString) => 16 * digit_value a + digit_value b | _ => -1 end.
Lemma hex_pair_value v : is_byte v -> pair_value (hex_pair v) = v /\ lacks 58 (hex_pair v) = true.
Proof.
  intros Hv. pose proof (all_bytes (fun v => (pair_value (hex_pair v) =? v) && lacks 58 (hex_pair v)) eq_refl v Hv) as Hp.
  simpl in Hp. by bools.
Qed.
(** Reading a text of colon-separated pairs. *)
Definition parse_colon (s : string) : list Z := if s =s "" then [] else pair_value <$> split_byte 58 s.
Lemma colonHex_parse b : Forall is_byte b -> parse_colon (colonHex b) = b.
Proof.
  intros Hb. destruct b as [|v b]; [done|]. unfold parse_colon.
  assert (Hne : (colonHex (v :: b) =s "") = false).
  { unfold colonHex. destruct b; [done|]. simpl. done. }
  rewrite Hne. unfold colonHex. rewrite (split_join (chr 58)); [|done|].
  - induction Hb as [|x l Hx _ IH]; [done|]. rewrite !fmap_cons, (proj1 (hex_pair_value x Hx)). f_equal.
    destruct l; [done|]. apply IH. by destruct l.
  - apply Forall_fmap. eapply Forall_impl; [exact Hb|]. intros x Hx. apply (hex_pair_value x Hx).
Qed.
Definition be_value (l : list Z) : Z := foldl (fun acc b => acc * 256 + b) 0 l.
Lemma be_bytes_value n z : 0 <= z < 256 ^ Z.of_nat n -> be_value (be_bytes n z) = z /\ Forall is_byte (be_bytes n z).
Proof.
  unfold be_value. revert z. induction n as [|n IH]; intros z Hz; cbn [be_bytes]; [simpl in *; split; [lia|done]|].
  rewrite foldl_app. simpl. destruct (IH (z / 256)) as [Hv Hf].
  { split; [apply Z.div_pos; lia|]. apply Z.div_lt_upper_bound; [lia|].
    replace (Z.of_nat (S n)) with (Z.of_nat n + 1) in Hz by lia. rewrite Z.pow_add_r in Hz by lia. lia. }
  rewrite Hv. split; [pose proof (Z.div_mod z 256); lia|]. apply Forall_app. split; [done|].
  constructor; [|done]. unfold is_byte. apply Z.mod_pos_bound. lia.
Qed.
Lemma byte_count_enough z : 0 <= z -> z < 256 ^ Z.of_nat (byte_count z).
Proof.
  intros Hz. unfold byte_count. destruct (z =? 0) eqn:E; bools; [simpl; lia|].
  pose proof (Z.log2_spec z ltac:(lia)) as [_ Hl]. pose proof (Z.log2_nonneg z).
  replace (256 ^ _) with (2 ^ (8 * (Z.log2 z / 8 + 1))).
  - eapply Z.lt_le_trans; [exact Hl|]. apply Z.pow_le_mono_r; [lia|]. pose proof (Z.div_mod (Z.log2 z) 8).
    pose proof (Z.mod_pos_bound (Z.log2 z) 8). lia.
  - change 256 with (2 ^ 8). rewrite <- Z.pow_mul_r by lia. f_equal. pose proof (Z.div_pos (Z.log2 z) 8). lia.
Qed.
(** The number a text of the form of [serial] stands for. *)
Definition parse_serial (s : string) : Z :=
  match strip_prefix "-" s with Some t => - be_value (parse_colon t) | None => be_value (parse_colon s) end.
(** The serial number shown is the certificate's: reading the pairs of digits
    gives it back, whatever its size and sign; likewise a digest is read back from
    its text byte for byte. *)
Theorem serial_roundtrip z b :
  Forall is_byte b -> parse_serial (serial z) = z /\ parse_colon (colonHex b) = b.
Proof.
  intros Hb. split; [|by apply colonHex_parse].
  set (l := be_bytes (byte_count (Z.abs z)) (Z.abs z)).
  destruct (be_bytes_value (byte_count (Z.abs z)) (Z.abs z)) as [Hv Hf]; [split; [lia|apply byte_count_enough; lia]|]. fold l in Hv, Hf.
  set (l' := if Z.of_nat (length l) =? 0 then [0] else l).
  assert (Hl' : be_value (parse_colon (colonHex l')) = Z.abs z).
  { unfold l'. destruct (_ =? 0) eqn:E; [|by rewrite colonHex_parse]. bools. destruct l; simpl in *; [|lia]. by rewrite <- Hv. }
  unfold serial. fold l. fold l'. cbv zeta. unfold parse_serial. destruct (z <? 0) eqn:E; bools.
  - rewrite (strip_prefix_app "-"). rewrite Hl'. lia.
  - assert (Hs : strip_prefix "-" (colonHex l') = None).
    { assert (Hne : exists v t, l' = v :: t /\ is_byte v).
      { unfold l'. destruct (_ =? 0) eqn:E2; [exists 0, []; split; [done|unfold is_byte; lia]|].
        destruct l as [|v t]; [done|]. apply Forall_cons in Hf as [Hx _]. eauto. }
      destruct Hne as (v & t & -> & Hx).
      pose proof (all_bytes (fun v => bool_decide (upper_hex (Z.shiftr v 4) <> chr 45)) eq_refl v Hx) as Hc. simpl in Hc.
      apply bool_decide_eq_true in Hc.
      assert (Hh : exists r, colonHex (v :: t) = String (upper_hex (Z.shiftr v 4)) r)
        by (unfold colonHex, hex_pair; destruct t; eexists; reflexivity).
      destruct Hh as [r ->]. cbn [strip_prefix]. case_bool_decide as Hd; [|done]. by rewrite <- Hd in Hc. }
    rewrite Hs, Hl'. lia.
Qed.

(** ** Only certificates are read *)
Section reading.
Context `{GoRuntime} `{Crypto} `{CertReader}.
(** The bytes of the CERTIFICATE blocks of a text. *)
Fixpoint cert_blocks (fuel : nat) (data : string) : list string :=
  match fuel with
  | O => []
  | S n => match pem_next data with
           | None => []
           | Some (b, rest) => if blk_Type b =s "CERTIFICATE" then blk_Bytes b :: cert_blocks n rest else cert_blocks n rest
           end
  end.
Definition certificates_of (data : string) : list string := cert_blocks (S (String.length data)) data.
(** Every block of the text is met: each shortens what is left of it. *)
Lemma cert_blocks_fuel n m data :
  (forall s b rest, pem_next s = Some (b, rest) -> (String.length rest < String.length s)%nat) ->
  (String.length data < n)%nat -> (String.length data < m)%nat -> cert_blocks n data = cert_blocks m data.
Proof.
  intros Hrest. revert m data. induction n as [|n IH]; intros [|m] data Hn Hm; try lia. simpl.
  destruct (pem_next data) as [[b rest]|] eqn:E; [|done]. apply Hrest in E. by rewrite (IH m rest) by lia.
Qed.
Lemma certificates_of_step data b rest :
  (forall s b rest, pem_next s = Some (b, rest) -> (String.length rest < String.length s)%nat) ->
  pem_next data = Some (b, rest) ->
  certificates_of data = (if blk_Type b =s "CERTIFICATE" then [blk_Bytes b] else []) ++ certificates_of rest.
Proof.
  intros Hrest Hd. pose proof (Hrest _ _ _ Hd). unfold certificates_of at 1. cbn [cert_blocks]. rewrite Hd.
  rewrite (cert_blocks_fuel _ (S (String.length rest)) rest Hrest) by lia. unfold certificates_of. by destruct (_ =s _).
Qed.
(** What is shown, from the certificates alone. *)
Definition parsed (der : string) : option X509 := match parse_certificate der with Ok c => Some c | Err _ => None end.
Definition failed_text (der : string) : option string :=
  match parse_certificate der with
  | Ok _ => None
  | Err e => Some ("a chain certificate could not be parsed: " +:+ err_text e)
  end.
Definition shown (blank : bool) (leaves chain : list string) (now : Z) : InfoResult :=
  if blank then Unavailable (bounded "no certificate is stored")
  else match leaves with
  | [] => Unavailable (bounded "the stored data contains no PEM CERTIFICATE block")
  | der :: _ =>
    match parse_certificate der with
    | Err e => Unavailable (bounded ("the certificate could not be parsed: " +:+ err_text e))
    | Ok leaf => Available (describe leaf now (chain_entry <$> omap parsed chain)
                              (match head (omap failed_text chain) with Some e => bounded e | None => "" end))
    end
  end.
Lemma first_certificate_blocks n data :
  first_certificate n data = match cert_blocks n data with
                             | [] => inr "the stored data contains no PEM CERTIFICATE block"
                             | der :: _ => match parse_certificate der with
                                           | Err e => inr ("the certificate could not be parsed: " +:+ err_text e)
                                           | Ok c => inl c
                                           end
                             end.
Proof.
  revert data. induction n as [|n IH]; intros data; [done|]. simpl. destruct (pem_next data) as [[b rest]|]; [|done].
  destruct (blk_Type b =s "CERTIFICATE"); simpl; [done|apply IH].
Qed.
Lemma parse_chain_blocks n data out err :
  parse_chain n data out err
  = (out ++ (chain_entry <$> omap parsed (cert_blocks n data)),
     match err with Some e => Some e | None => head (omap failed_text (cert_blocks n data)) end).
Proof.
  revert data out err. induction n as [|n IH]; intros data out err.
  { simpl. rewrite app_nil_r. by destruct err. }
  cbn [parse_chain cert_blocks]. destruct (pem_next data) as [[b rest]|]; [|simpl; rewrite app_nil_r; by destruct err].
  destruct (blk_Type b =s "CERTIFICATE"); cbn [negb]; [|apply IH]. cbn [omap list_omap].
  unfold parsed at 1, failed_text at 1. destruct (parse_certificate (blk_Bytes b)) as [c|e]; rewrite IH.
  - by rewrite <- app_assoc.
  - by destruct err.
Qed.
(** The details depend on the CERTIFICATE blocks of the stored texts and on nothing
    else, such as a private key stored beside them: the leaf is the first block, the
    chain lists every block that parses, in order, and the error of the chain is that
    of its first block that does not.  A text has all its blocks read. *)
Theorem details_from_certificates certPEM chainPEM now :
  (forall s b rest, pem_next s = Some (b, rest) -> (String.length rest < String.length s)%nat) ->
  certinfo_Decode certPEM chainPEM now
  = shown (TrimSpace certPEM =s "") (certificates_of certPEM) (certificates_of chainPEM) now
  /\ forall data b rest, pem_next data = Some (b, rest) ->
       certificates_of data = (if blk_Type b =s "CERTIFICATE" then [blk_Bytes b] else []) ++ certificates_of rest.
Proof.
  intros Hrest. split; [|intros; by apply certificates_of_step].
  unfold certinfo_Decode, firstCertificate, shown. destruct (TrimSpace certPEM =s ""); [done|].
  rewrite first_certificate_blocks. fold (certificates_of certPEM). destruct (certificates_of certPEM) as [|der l]; [done|].
  destruct (parse_certificate der); [|done]. unfold parseChain. rewrite parse_chain_blocks. by fold (certificates_of chainPEM).
Qed.

(** A reason is at most 203 bytes, and one of ASCII text has no line break. *)
Lemma bounded_length s : (String.length (bounded s) <= 203)%nat.
Proof.
  unfold bounded. destruct (_ <? _)%nat eqn:E.
  - rewrite str_length_app. pose proof (substring_length maxReason (String.concat " " (Words s))).
    change (String.length ellipsis) with 3%nat. unfold maxReason in *. lia.
  - apply Nat.ltb_ge in E. unfold maxReason in E. lia.
Qed.
End reading.
(** The usages shown are the bits set. *)
Lemma keyUsage_bits ku i bit name :
  KeyUsageNames !! i = Some (bit, name) -> name ∈ keyUsage ku <-> Z.testbit ku (Z.of_nat i) = true.
Proof.
  assert (Hbit : forall j, 0 <= j -> negb (Z.land ku (2 ^ j) =? 0) = Z.testbit ku j).
  { intros j Hj. assert (Hl : Z.land ku (2 ^ j) = if Z.testbit ku j then 2 ^ j else 0).
    { apply Z.bits_inj'. intros k Hk. rewrite Z.land_spec, Z.pow2_bits_eqb by done.
      destruct (j =? k) eqn:E; bools.
      - subst k. destruct (Z.testbit ku j); [by rewrite Z.pow2_bits_true|by rewrite Z.bits_0].
      - rewrite andb_false_r. destruct (Z.testbit ku j); [by rewrite Z.pow2_bits_false|by rewrite Z.bits_0]. }
    rewrite Hl. destruct (Z.testbit ku j); [|done]. apply negb_true_iff, Z.eqb_neq. pose proof (Z.pow_pos_nonneg 2 j). lia. }
  intros Hi. assert (Hb : bit = 2 ^ Z.of_nat i /\ forall k, k ∈ KeyUsageNames -> k.2 = name -> k = (bit, name)).
  { do 9 (destruct i as [|i]; [injection Hi as <- <-; split; [reflexivity|]; intros k Hk Hn;
      repeat (apply elem_of_cons in Hk as [->|Hk]; [first [reflexivity|discriminate Hn]|]); by apply elem_of_nil in Hk|]).
    discriminate Hi. }
  destruct Hb as [Hb Hu]. unfold keyUsage. rewrite list_elem_of_omap, <- Hbit, <- Hb by lia. split.
  - intros (k & Hk & Hs). destruct (negb _) eqn:E; [|done]. injection Hs as Hs. by rewrite (Hu k Hk Hs) in E.
  - intros Hs. exists (bit, name). split; [by eapply list_elem_of_lookup_2|]. simpl. by rewrite Hs.
Qed.

Module CertInfoSample.
Import Toy CsrSample.
#[local] Existing Instance toy_env.
#[local] Instance reader : CertReader := {|
  cert_ext c := mkCertExt "CN=a.example.org" "CA" "s" "i" false 3 "ECDSA-SHA256" 5 [1; 2; 99] [] true 0 false [1; 171] []
                  [] [] [] "ECDSA" "P-256";
  sha256_sum s := [0; 255]; sha1_sum s := [16]; err_text e := "bad"; unicode_words s := [s] |}.
Lemma toy_shortens s b rest : pem_next s = Some (b, rest) -> (String.length rest < String.length s)%nat.
Proof. apply (@laws_pem_rest _ toy_env_laws). Qed.
Example details_run :
  match certinfo_Decode "CERTIFICATE:der" "" 2000 with
  | Available d => (dt_Serial d, vl_Status (dt_Validity d), dt_KeyUsage d, dt_ExtKeyUsage d, dt_SHA256 d, dt_SubjectKeyID d)
      = ("4D", "expired", ["Digital Signature"; "Key Encipherment"],
         ["Server Authentication"; "Client Authentication"; "EKU 99"], "00:FF", "01:AB")
  | Unavailable _ => False
  end.
Proof. vm_compute. reflexivity. Qed.
Lemma serial_roundtrip_witness : parse_serial (serial (-300)) = -300 /\ parse_colon (colonHex [0; 255]) = [0; 255].
Proof. apply (serial_roundtrip (-300) [0; 255]). repeat constructor; unfold is_byte; lia. Defined.
Lemma details_from_certificates_witness :
  certinfo_Decode "PRIVATE KEY:k" "" 0 = shown false [] [] 0.
Proof. exact (proj1 (details_from_certificates "PRIVATE KEY:k" "" 0 toy_shortens)). Defined.
End CertInfoSample.
