(* ===== verification/Grpc.v ===== *)
(** The gRPC interface: internal/grpcapi/server.go and servers.go.  Every method
    takes the caller's SPIFFE identity from the connection and the tenant from the
    request, calls one service and maps its error to a status.  The stream of
    Agent.Watch is in Client.v. *)

From S2P Require Import Prelude Rows Memstore MemstoreInv MemstoreList Authz GoJson GoUrl AuditLog Csr Sealed World Ca.
From S2P Require Import IssueBase Domains Providers Issuers Acme Lifecycle Enroll Stream Hub Identity NetIdentity.

(** ** Statuses *)
Inductive Code := Unauthenticated | InvalidArgument | PermissionDenied | NotFound | AlreadyExists | Unavailable
  | Unimplemented | FailedPrecondition.
#[export] Instance Code_eq_dec : EqDecision Code.
Proof. solve_decision. Defined.
Record Status := mkStatus { sta_Code : Code; sta_Message : string }.
Definition grpcError (e : err) : Status :=
  match as_refusal e with
  | Some (RefusalError reason _) => mkStatus (if TokenRefused reason then Unauthenticated else PermissionDenied) reason
  | _ =>
    if errors_is e "authz" "ErrForbidden" then mkStatus PermissionDenied "forbidden"
    else if errors_is e "authz" "ErrNotFound" || errors_is e "store" "ErrNotFound" then mkStatus NotFound "not_found"
    else if errors_is e "authz" "ErrInput" then mkStatus InvalidArgument "invalid_argument"
    else if errors_is e "csr" "ErrTooLarge" then mkStatus InvalidArgument "too_large"
    else if errors_is e "csr" "ErrParse" || errors_is e "csr" "ErrSPIFFEID" || errors_is e "csr" "ErrWeakKey"
            || errors_is e "csr" "ErrSANs" then mkStatus InvalidArgument "invalid_argument"
    else if errors_is e "store" "ErrConflict" then mkStatus AlreadyExists "conflict"
    else if errors_is e "issue" "ErrNoStoredKey" then mkStatus InvalidArgument "no stored private key"
    else mkStatus Unavailable "temporarily_unavailable"
  end.
(** [caller]: the peer's identity, when it presents one. *)
Definition caller (peer : option string) (tenantID : string) : Subjects + Status :=
  match peer with
  | None => inr (mkStatus Unauthenticated "service identity required")
  | Some id => if negb (IsUUID tenantID) then inr (mkStatus InvalidArgument "tenant_id must be a uuid")
               else inl (ServiceSubjects tenantID id)
  end.

(** ** Messages *)
Record IssueRequest := mkIssueRequest {
  iq_TenantId : string; iq_IssuerId : string; iq_SpiffeId : string; iq_CsrPem : string; iq_DnsSans : list string;
  iq_ValiditySeconds : Z;
}.
Inductive CertificateStatus := STATUS_UNSPECIFIED | STATUS_ACTIVE | STATUS_EXPIRING | STATUS_EXPIRED | STATUS_REVOKED.
Definition certStatus (s : string) : CertificateStatus :=
  if s =s "active" then STATUS_ACTIVE else if s =s "expiring" then STATUS_EXPIRING
  else if s =s "expired" then STATUS_EXPIRED else if s =s "revoked" then STATUS_REVOKED else STATUS_UNSPECIFIED.
Record PCertificate := mkPCertificate {
  pc_Id : string; pc_IssuerId : string; pc_Serial : string; pc_SpiffeId : string; pc_Subject : string; pc_Sans : option (list string);
  pc_Fingerprint : string; pc_Status : CertificateStatus; pc_NotBefore : option Z; pc_NotAfter : option Z;
}.
Record CertificateBundle := mkCertificateBundle {
  cb_Certificate : PCertificate; cb_CertPem : string; cb_ChainPem : string; cb_BundlePem : string; cb_KeyPem : string;
}.
Definition timestamp (t : Z) : option Z := if IsZero t then None else Some t.
Definition toCertificate (v : CertificateView) : PCertificate :=
  mkPCertificate (cv_ID v) (cv_IssuerID v) (cv_Serial v) (cv_SpiffeID v) (cv_Subject v) (cv_SANs v) (cv_FingerprintSHA256 v)
    (certStatus (cv_Status v)) (timestamp (cv_NotBefore v)) (timestamp (cv_NotAfter v)).
Definition toBundle (b : Bundle) : CertificateBundle :=
  mkCertificateBundle (toCertificate (b_Certificate b)) (b_CertPEM b) (b_ChainPEM b) (b_BundlePEM b) (b_KeyPEM b).

(** ** The methods *)
Definition Rpc (A : Type) : Type := World -> (A + Status) * World.
(** A method that resolves the caller and then calls a service. *)
Definition serve {A B} (peer : option string) (tenantID : string) (c : Subjects -> M A) (out : A -> B + Status) : Rpc B :=
  fun w => match caller peer tenantID with
           | inr s => (inr s, w)
           | inl subj => match c subj w with
                         | (Ok a, w') => (out a, w')
                         | (Err e, w') => (inr (grpcError e), w')
                         end
           end.
(** The read-time status of [Verify]. *)
Definition derived (c : IssuedCertificate) (now : Z) : string :=
  if crt_Status c =s "revoked" then "revoked" else if After now (crt_NotAfter c) then "expired" else "active".
Record VerifyResponse := mkVerifyResponse { vr_Valid : bool; vr_Reason : string }.
Fixpoint verify_certs (serial : string) (now : Z) (certs : list IssuedCertificate) : VerifyResponse :=
  match certs with
  | [] => mkVerifyResponse false "no_certificate"
  | c :: rest =>
    if (serial <>s "") && (crt_Serial c <>s serial) then verify_certs serial now rest
    else let st := derived c now in
         if st =s "revoked" then mkVerifyResponse false "revoked"
         else if st =s "expired" then verify_certs serial now rest
         else mkVerifyResponse true "ok"
  end.

Section methods.
Context `{Env} `{AcmeServer} `{Enrolling}.
Definition SVID_Issue (now : Z) (peer : option string) (r : IssueRequest) : Rpc CertificateBundle :=
  serve peer (iq_TenantId r)
    (fun subj => Issue now subj (mkIssueInput (iq_IssuerId r) (iq_SpiffeId r) (iq_CsrPem r) ""
       (match iq_DnsSans r with [] => None | l => Some l end) (iq_ValiditySeconds r) (iq_CsrPem r =s "") false))
    (fun b => inl (toBundle b)).
Definition SVID_Renew (now : Z) (peer : option string) (tenantID certID : string) : Rpc CertificateBundle :=
  serve peer tenantID (fun subj => Renew now subj certID) (fun b => inl (toBundle b)).
Definition SVID_Revoke (now : Z) (peer : option string) (tenantID certID reason : string) : Rpc unit :=
  serve peer tenantID (fun subj => Revoke now subj certID reason) inl.
(** [Repo] is wired. *)
Definition SVID_Verify (now : Z) (peer : option string) (tenantID spiffeID serial : string) : Rpc VerifyResponse :=
  serve peer tenantID (fun _ => reading (Mem_ListCertificates tenantID (mkCertificateFilter "" spiffeID "" 0 "" 50)))
    (fun certs => inl (verify_certs serial now certs)).
Definition SVID_GetTrustBundle (peer : option string) (tenantID trustDomain : string) : Rpc string :=
  serve peer tenantID (fun _ => reading (ca_Bundle tenantID trustDomain)) inl.
Definition Enrollment_Enroll (now : Z) (peer : option string) (tenantID spiffeID csrPEM token : string) : Rpc CertificateBundle :=
  serve peer tenantID (fun subj => Enroll now subj (mkEnrollInput spiffeID csrPEM token))
    (fun r => match er_Bundle r with
              | Some b => if er_Status r <>s "issued" then inr (mkStatus FailedPrecondition "enrollment requires manual approval")
                          else inl (toBundle b)
              | None => inr (mkStatus FailedPrecondition "enrollment requires manual approval")
              end).
(** [subj.Service] is the peer. *)
Definition Certificates_Download (now : Z) (peer : option string) (tenantID certID : string) (includeKey : bool) : Rpc CertificateBundle :=
  serve peer tenantID (fun subj => DownloadForService now tenantID (sub_Service subj) certID includeKey) (fun b => inl (toBundle b)).
End methods.
(** Publishing goes to the event log. *)
Definition Events_Publish `{GoRuntime} (now maxLen : Z) (peer : option string) (tenantID : string) (userIDs : list string) (all : bool)
    (typ data : string) (m : Memory) : (string + Status) * Memory :=
  match caller peer tenantID with
  | inr s => (inr s, m)
  | inl _ => match PublishID now maxLen tenantID userIDs all typ (if data =s "" then PNil else PText data) true m with
             | (Ok id, m') => (inl id, m')
             | (Err e, m') => (inr (grpcError e), m')
             end
  end.

(** ** What a caller learns of an error *)
(** No text of an internal error reaches a caller: the message of a status is the
    reason of a refused enrollment or one of seven fixed words, and a refusal is the
    only error whose reason is passed on. *)
Theorem grpcError_vocabulary e :
  (exists reason detail, as_refusal e = Some (RefusalError reason detail) /\ sta_Message (grpcError e) = reason
     /\ (sta_Code (grpcError e) = Unauthenticated <-> TokenRefused reason = true))
  \/ (as_refusal e = None
      /\ sta_Message (grpcError e) ∈ ["forbidden"; "not_found"; "invalid_argument"; "too_large"; "conflict";
                                      "no stored private key"; "temporarily_unavailable"]
      /\ sta_Code (grpcError e) <> Unauthenticated).
Proof.
  assert (Hr : forall x, as_refusal e = Some x -> exists reason detail, x = RefusalError reason detail).
  { induction e; simpl; try done; intros x Hx; simplify_eq; eauto. }
  unfold grpcError. destruct (as_refusal e) as [x|] eqn:E.
  - destruct (Hr x eq_refl) as (reason & detail & ->). left. exists reason, detail. split; [done|]. split; [done|]. simpl.
    by destruct (TokenRefused reason).
  - right. split; [done|]. repeat case_match; simpl; (split; [set_solver|done]).
Qed.

(** ** Verification of a certificate *)
Lemma verify_certs_valid serial now certs :
  vr_Valid (verify_certs serial now certs) = true ->
  exists c, c ∈ certs /\ (serial = "" \/ crt_Serial c = serial) /\ crt_Status c <> "revoked" /\ now <= crt_NotAfter c.
Proof.
  induction certs as [|c certs IH]; simpl; [done|].
  destruct ((serial <>s "") && (crt_Serial c <>s serial)) eqn:Es.
  - intros Hv. destruct (IH Hv) as (x & Hx & H1). exists x. split; [set_solver|done].
  - unfold derived, After. destruct (crt_Status c =s "revoked") eqn:Er; [done|].
    destruct (crt_NotAfter c <? now) eqn:En; simpl.
    + intros Hv. destruct (IH Hv) as (x & Hx & H1). exists x. split; [set_solver|done].
    + intros _. exists c. bools. split_and!; [set_solver| |done|done].
      apply andb_false_iff in Es as [Es|Es]; [left|right]; by bools.
Qed.
Lemma verify_certs_serial serial now certs c :
  serial <> "" -> c ∈ certs -> crt_Serial c = serial -> (forall x, x ∈ certs -> crt_Serial x = serial -> x = c) ->
  verify_certs serial now certs
  = if crt_Status c =s "revoked" then mkVerifyResponse false "revoked"
    else if After now (crt_NotAfter c) then mkVerifyResponse false "no_certificate" else mkVerifyResponse true "ok".
Proof.
  intros Hs Hin Hc Hu.
  assert (Hnone : forall l, (forall x, x ∈ l -> crt_Serial x = serial -> x = c) -> After now (crt_NotAfter c) = true ->
    crt_Status c <> "revoked" -> verify_certs serial now l = mkVerifyResponse false "no_certificate").
  { intros l Hl Ha Hr. induction l as [|x l IH]; [done|]. simpl. rewrite (proj2 (str_eqb_neq _ _) Hs). simpl.
    destruct (crt_Serial x =s serial) eqn:E; simpl; bools; [|apply IH; set_solver].
    rewrite (Hl x ltac:(set_solver) E). unfold derived. rewrite (proj2 (str_eqb_neq _ _) Hr), Ha. simpl. apply IH. set_solver. }
  induction certs as [|x certs IH]; [by apply elem_of_nil in Hin|]. simpl. rewrite (proj2 (str_eqb_neq _ _) Hs). simpl.
  destruct (crt_Serial x =s serial) eqn:E; simpl; bools.
  - rewrite (Hu x ltac:(set_solver) E). unfold derived. destruct (crt_Status c =s "revoked") eqn:Er; [done|].
    destruct (After now (crt_NotAfter c)) eqn:Ea; simpl; [|done]. apply Hnone; [set_solver|done|by apply str_eqb_neq].
  - apply IH; [|set_solver]. apply elem_of_cons in Hin as [->|?]; [done|done].
Qed.

(** The certificates of a tenant that carry the identity, or all of them when it is empty. *)
Definition holders `{GoRuntime} (tid spiffeID : string) (m : Mem) : list IssuedCertificate :=
  filter (fun c => certificate_selected tid (mkCertificateFilter "" spiffeID "" 0 "" 50) c = true) (map_range (m_Certificates m)).*2.
Lemma elem_of_holders `{GoRuntime} tid spiffeID m c :
  c ∈ holders tid spiffeID m
  <-> (exists k, m_Certificates m !! k = Some c) /\ crt_TenantID c = tid /\ (spiffeID = "" \/ crt_SpiffeID c = spiffeID).
Proof.
  unfold holders. rewrite list_elem_of_filter, list_elem_of_fmap. unfold certificate_selected, beforeCursor. simpl.
  rewrite !andb_true_r. split.
  - intros [Hs ([k x] & -> & Hk%elem_of_map_range)]. simpl in *. bools. split; [eauto|]. split; [done|].
    destruct (spiffeID =s "") eqn:E; simpl in *; bools; auto.
  - intros ([k Hk] & <- & Hs). rewrite str_eqb_refl. split.
    + destruct Hs as [-> | ->]; simpl; [done|]. by rewrite str_eqb_refl, orb_true_r.
    + exists (k, c). by rewrite elem_of_map_range.
Qed.
Lemma sqlLimit_fits {A} (l : list A) n : Z.of_nat (length l) <= n -> sqlLimit l n = l.
Proof. unfold sqlLimit. intros Hl. repeat case_match; bools; [by destruct l; simpl in *; [|lia]| |done]. apply take_ge. lia. Qed.
(** What [Verify] says of a certificate by itself. *)
Definition verdict (now : Z) (c : IssuedCertificate) : VerifyResponse :=
  if crt_Status c =s "revoked" then mkVerifyResponse false "revoked"
  else if After now (crt_NotAfter c) then mkVerifyResponse false "no_certificate" else mkVerifyResponse true "ok".
Section verify.
Context `{Env} `{AcmeServer} `{Enrolling}.
(** A completed verification reads the newest 50 holders of the identity. *)
Lemma Verify_page now peer tid spiffeID serial w r w' :
  SVID_Verify now peer tid spiffeID serial w = (inl r, w') ->
  peer <> None /\ IsUUID tid = true /\ w' = w
  /\ exists l, r = verify_certs serial now (sqlLimit l 50)
      /\ (forall c, c ∈ l <-> exists x, c = cpCertificate x /\ x ∈ holders tid spiffeID (wd_mem w))
      /\ length l = length (holders tid spiffeID (wd_mem w)).
Proof.
  unfold SVID_Verify, serve, reading, caller. destruct peer as [id|]; [|done]. destruct (IsUUID tid) eqn:Hu; simpl; [|done].
  destruct (Mem_ListCertificates _ _ _) as [certs|e] eqn:El; [|done]. intros [= <- <-]. revert El.
  unfold Mem_ListCertificates, fail_read. case_match; [done|]. fold (holders tid spiffeID (wd_mem w)). cbn [crf_Limit].
  intros [= <-]. split_and!; [done..|]. eexists. split; [done|]. unfold sortDesc. split.
  - intros c. by rewrite elem_of_sort_slice, list_elem_of_fmap.
  - rewrite (Permutation_length (sort_slice_perm _ _)). apply length_fmap.
Qed.
(** A serial is unique in its tenant, so its certificate decides the answer. *)
Lemma Verify_serial now peer tid spiffeID serial w r w' k c :
  uniq same_serial (m_Certificates (wd_mem w)) -> SVID_Verify now peer tid spiffeID serial w = (inl r, w') ->
  serial <> "" -> m_Certificates (wd_mem w) !! k = Some c -> crt_TenantID c = tid ->
  (spiffeID = "" \/ crt_SpiffeID c = spiffeID) -> crt_Serial c = serial ->
  Z.of_nat (length (holders tid spiffeID (wd_mem w))) <= 50 -> r = verdict now c.
Proof.
  intros Huq (_ & _ & _ & l & -> & Hl & Hlen)%Verify_page Hs Hk Ht Hp Hc H50. rewrite sqlLimit_fits by lia.
  rewrite (verify_certs_serial serial now l (cpCertificate c)); [done|done| |done|].
  - apply Hl. exists c. split; [done|]. apply elem_of_holders. eauto.
  - intros y (x & -> & ((k' & Hk') & Ht' & _)%elem_of_holders)%Hl Hx. simpl in Hx. f_equal.
    assert (k' = k) as -> by (eapply Huq; [exact Hk'|exact Hk|]; split; congruence). congruence.
Qed.
(** Verification is sound, and complete up to its page: an answer is given only to a
    peer with an identity for a tenant named by an UUID, and changes nothing; a positive
    one is backed by a stored certificate of that tenant, identity and serial, unrevoked
    and unexpired; and a serial names one certificate, whose verdict is the answer when
    the identity has at most 50. *)
Theorem Verify_decides now peer tid spiffeID serial w r w' :
  wf (wd_mem w) -> SVID_Verify now peer tid spiffeID serial w = (inl r, w') ->
  peer <> None /\ IsUUID tid = true /\ w' = w
  /\ (vr_Valid r = true -> exists k c, m_Certificates (wd_mem w) !! k = Some c /\ crt_TenantID c = tid
        /\ (spiffeID = "" \/ crt_SpiffeID c = spiffeID) /\ (serial = "" \/ crt_Serial c = serial)
        /\ crt_Status c <> "revoked" /\ now <= crt_NotAfter c)
  /\ (forall k c, serial <> "" -> m_Certificates (wd_mem w) !! k = Some c -> crt_TenantID c = tid ->
        (spiffeID = "" \/ crt_SpiffeID c = spiffeID) -> crt_Serial c = serial ->
        Z.of_nat (length (holders tid spiffeID (wd_mem w))) <= 50 -> r = verdict now c).
Proof.
  intros Hwf Hv. destruct (Verify_page _ _ _ _ _ _ _ _ Hv) as (Hp & Hu & Hw & l & Hr & Hl & _). split_and!; [done..| |].
  - rewrite Hr. intros (c & Hc%elem_of_sqlLimit & Hs & Hn & Ha)%verify_certs_valid.
    apply Hl in Hc as (x & -> & ((k & Hk) & Ht & Hi)%elem_of_holders). by exists k, x.
  - intros k c. by apply (Verify_serial _ _ _ _ _ _ _ _ k c (wf_cert_serial _ Hwf) Hv).
Qed.
(** A serial that is revoked does not verify. *)
Lemma Verify_revoked now peer tid spiffeID w r w' k c :
  uniq same_serial (m_Certificates (wd_mem w)) -> SVID_Verify now peer tid spiffeID (crt_Serial c) w = (inl r, w') ->
  crt_Serial c <> "" -> m_Certificates (wd_mem w) !! k = Some c -> crt_TenantID c = tid -> crt_Status c = "revoked" -> vr_Valid r = false.
Proof.
  intros Huq Hv Hs Hk Ht Hr. destruct (vr_Valid r) eqn:Ev; [|done]. exfalso. apply Verify_page in Hv as (_ & _ & _ & l & -> & Hl & _).
  apply verify_certs_valid in Ev as (y & Hy%elem_of_sqlLimit & Hys & Hn & _).
  apply Hl in Hy as (x & -> & ((k' & Hk') & Ht' & _)%elem_of_holders). destruct Hys as [?|Hys]; [done|]. cbn in Hys, Hn.
  assert (k' = k) as -> by (eapply Huq; [exact Hk'|exact Hk|]; split; congruence). by simplify_eq.
Qed.
(** C30. Once a service has revoked a certificate over the interface, the certificate is
    stored as revoked; and from then on, in every state in which it still is (a renewal
    already under way can undo it) and serials are unique, no verification of its
    serial, by whichever service, for whatever identity and at whatever time, answers that
    it is valid.  The reason given is that it is revoked when the identity asked for is its
    own, or none, and has at most 50 certificates; beyond, it may not be found at all. *)
Theorem Revoke_then_Verify now1 peer1 tid id reason w w1 u c :
  uniq same_serial (m_Certificates (wd_mem w)) -> SVID_Revoke now1 peer1 tid id reason w = (inl u, w1) ->
  m_Certificates (wd_mem w) !! id = Some c -> crt_Serial c <> "" ->
  uniq same_serial (m_Certificates (wd_mem w1))
  /\ (exists t, m_Certificates (wd_mem w1) !! id = Some (c <| crt_Status := "revoked" |> <| crt_UpdatedAt := t |>))
  /\ forall w2 c2, uniq same_serial (m_Certificates (wd_mem w2)) -> m_Certificates (wd_mem w2) !! id = Some c2 ->
       crt_Status c2 = "revoked" -> crt_TenantID c2 = tid -> crt_Serial c2 = crt_Serial c ->
       forall now2 peer2 spiffeID r w3, SVID_Verify now2 peer2 tid spiffeID (crt_Serial c) w2 = (inl r, w3) ->
         vr_Valid r = false
         /\ (spiffeID = "" \/ crt_SpiffeID c2 = spiffeID -> Z.of_nat (length (holders tid spiffeID (wd_mem w2))) <= 50 ->
             r = mkVerifyResponse false "revoked").
Proof.
  intros Hwf. unfold SVID_Revoke, serve. destruct (caller peer1 tid) as [subj|] eqn:Hc; [|done].
  destruct (Revoke _ _ _ _ _) as [[[]|] w0] eqn:Hr; [|done]. intros [= _ <-] Hk Hs.
  destruct (Revoke_ok _ _ _ _ _ _ _ Hr) as (_ & c' & t & rv & Hk' & Ht & Hm & _). assert (c' = c) as -> by congruence.
  split_and!.
  - rewrite Hm. eapply uniq_replace; [|exact Hk| |exact Hwf].
    + intros a b [? ?]. by split.
    + intros y [? ?]. by split.
  - exists t. rewrite Hm. apply lookup_insert_eq.
  - intros w2 c2 Huq Hk2 Hst Ht2 Hs2 now2 peer2 spiffeID r w3 Hv. rewrite <- Hs2 in Hv, Hs. split; [by eapply Verify_revoked|].
    intros Hp H50. rewrite (Verify_serial _ _ _ _ _ _ _ _ id c2 Huq Hv Hs); try done. unfold verdict. by rewrite Hst.
Qed.
End verify.

(** ** Runs *)
Module GrpcSample.
Import Toy.
#[local] Existing Instance toy_env.
Definition tA : string := "11111111-1111-1111-1111-11111111111A".
Definition deployer : option string := Some "spiffe://example.org/svc/deployer".
Definition id_web : string := "spiffe://example.org/web".
Definition web_cert : IssuedCertificate := sample_cert <| crt_TenantID := tA |>.
Definition tenant_grant : Grant := mkGrant "g1" tA Certificate "c1" SubjectTenant tA Owner None 0 None.
Definition enrolled : World :=
  mkWorld (run_op (OpUpsertGrant tenant_grant) (run_op (OpInsertCertificate web_cert)
    (run_op (OpInsertIssuer (sample_issuer <| iss_TenantID := tA |>)) (Mem_New 100)))) [] 0 0.
Definition stored_web : IssuedCertificate := default web_cert (m_Certificates (wd_mem enrolled) !! "c1").
Lemma enrolled_wf : wf (wd_mem enrolled).
Proof. repeat (apply run_op_wf || apply wf_New || reflexivity). Qed.
Definition was_revoked : World := (SVID_Revoke 500 deployer tA "c1" "keyCompromise" enrolled).2.
Example valid_before : (SVID_Verify 500 deployer tA id_web "0a" enrolled).1 = inl (mkVerifyResponse true "ok").
Proof. vm_compute. reflexivity. Qed.
Example anonymous_refused :
  (SVID_Verify 500 None tA id_web "0a" enrolled).1 = inr (mkStatus Unauthenticated "service identity required").
Proof. reflexivity. Qed.
(** A mistake in the request that no retry repairs is reported as a passing failure. *)
Example validation_unavailable :
  grpcError (ValidationError "issue" "validity_seconds" "too long") = mkStatus Unavailable "temporarily_unavailable".
Proof. reflexivity. Qed.
(** The oldest of 51 certificates of an identity is not found by its serial. *)
Definition crowd (n : nat) : Mem :=
  (Mem_New 100) <| m_Certificates := list_to_map ((fun i => let id := FormatInt (Z.of_nat i) in
    (id, web_cert <| crt_ID := id |> <| crt_Serial := id |> <| crt_CreatedAt := Z.of_nat i |>)) <$> seq 0 n) |>.
Example page_50 : (SVID_Verify 500 deployer tA id_web "0" (mkWorld (crowd 50) [] 0 0)).1 = inl (mkVerifyResponse true "ok").
Proof. vm_compute. reflexivity. Qed.
Example page_51 :
  (SVID_Verify 500 deployer tA id_web "0" (mkWorld (crowd 51) [] 0 0)).1 = inl (mkVerifyResponse false "no_certificate").
Proof. vm_compute. reflexivity. Qed.
(** Without a serial an identity with a valid certificate answers as revoked when its newest one is. *)
Example newest_revoked :
  let m := crowd 2 in
  (SVID_Verify 500 deployer tA id_web ""
     (mkWorld (m <| m_Certificates := <["1" := web_cert <| crt_ID := "1" |> <| crt_Status := "revoked" |>
                                          <| crt_CreatedAt := 1 |>]> (m_Certificates m) |>) [] 0 0)).1
  = inl (mkVerifyResponse false "revoked").
Proof. vm_compute. reflexivity. Qed.

Lemma Verify_decides_witness :
  exists k c, m_Certificates (wd_mem enrolled) !! k = Some c /\ crt_Serial c = "0a" /\ crt_Status c <> "revoked".
Proof.
  assert (Hv : SVID_Verify 500 deployer tA id_web "0a" enrolled = (inl (mkVerifyResponse true "ok"), enrolled))
    by (vm_compute; reflexivity).
  destruct (Verify_decides 500 deployer tA id_web "0a" enrolled _ enrolled enrolled_wf Hv) as (_ & _ & _ & Hs & _).
  destruct (Hs eq_refl) as (k & c & Hk & _ & _ & [Hx|Hx] & Hr & _); [discriminate Hx|]. exists k, c. split; [exact Hk|]. split; [exact Hx|exact Hr].
Defined.
Definition later_answer : VerifyResponse :=
  match (SVID_Verify 900 deployer tA id_web "0a" was_revoked).1 with inl r => r | inr _ => mkVerifyResponse true "" end.
Lemma Revoke_then_Verify_witness :
  exists r, (SVID_Verify 900 deployer tA id_web "0a" was_revoked).1 = inl r /\ r = mkVerifyResponse false "revoked".
Proof.
  assert (Hr : SVID_Revoke 500 deployer tA "c1" "keyCompromise" enrolled = (inl tt, was_revoked)) by (vm_compute; reflexivity).
  assert (Hv : SVID_Verify 900 deployer tA id_web "0a" was_revoked = (inl later_answer, was_revoked))
    by (vm_compute; reflexivity).
  assert (Hc : m_Certificates (wd_mem enrolled) !! "c1" = Some stored_web) by (vm_compute; reflexivity).
  assert (Hl : Z.of_nat (length (holders tA id_web (wd_mem was_revoked))) <= 50) by (vm_compute; discriminate).
  exists later_answer. split; [exact (f_equal fst Hv)|].
  destruct (Revoke_then_Verify 500 deployer tA "c1" "keyCompromise" enrolled was_revoked tt stored_web
              (wf_cert_serial _ enrolled_wf) Hr Hc ltac:(discriminate)) as (Huq & [t Ht] & Hlater).
  refine (proj2 (Hlater was_revoked _ Huq Ht eq_refl _ eq_refl 900 deployer id_web later_answer was_revoked Hv) (or_intror _) Hl);
    vm_compute; reflexivity.
Defined.
End GrpcSample.
