(* ===== verification/Http.v ===== *)
(** The HTTP interface around the services: the closed vocabulary of refusals and the
    error maps (internal/httpapi/errors.go, deps.go, certdeps.go and the maps of the
    route files), the table of routes (server.go) and the chain every request passes
    (middleware.go).  The OpenAPI document, its router and its validator are the class
    [OpenAPI], the token verifier of the auth service the class [TokenVerifier]. *)

From S2P Require Import Prelude Rows Memstore MemstoreInv Authz GoJson World Stream Enroll Domains ImportCert.

(** ** Refusals *)
Record Error := mkError { he_Status : Z; he_Reason : string }.
Definition ErrUnauthenticated : Error := mkError 401 "unauthenticated".
Definition ErrForbidden : Error := mkError 403 "forbidden".
Definition ErrNotFound : Error := mkError 404 "not_found".
Definition ErrMalformed : Error := mkError 400 "malformed_body".
Definition ErrValidation : Error := mkError 422 "validation_failed".
Definition ErrConflict : Error := mkError 409 "conflict".
Definition ErrBodyTooLarge : Error := mkError 413 "body_too_large".
Definition ErrRateLimited : Error := mkError 429 "rate_limited".
Definition ErrUnavailable : Error := mkError 503 "temporarily_unavailable".
Definition ErrNotImplemented : Error := mkError 501 "not_implemented".
(** The errors a handler answers with: a refusal, a refusal with a detail, the
    reader's when a body is too long, or what a service returned. *)
Inductive HErr :=
  HError (e : Error) | HDetail (e : Error) (detail : list (string * any)) | HMaxBytes | HService (e : err).
Definition http_Status (e : HErr) : Error :=
  match e with
  | HError e | HDetail e _ => e
  | HMaxBytes => ErrBodyTooLarge
  | HService e => if errors_is e "store" "ErrNotFound" then ErrNotFound
                  else if errors_is e "store" "ErrConflict" then ErrConflict else ErrUnavailable
  end.

(** A response: its status and what its body holds; a view is kept as the value that is
    encoded. *)
Inductive RBody (B : Type) :=
  RJSON (b : B) | RReason (reason : string) | RDetail (reason : string) (detail : list (string * any)) | REmpty.
Arguments RJSON {B} b.
Arguments RReason {B} reason.
Arguments RDetail {B} reason detail.
Arguments REmpty {B}.
Record HResponse (B : Type) := mkResponse { rp_Status : Z; rp_Body : RBody B }.
Arguments mkResponse {B} _ _.
Arguments rp_Status {B} _.
Arguments rp_Body {B} _.
Definition WriteError {B} (e : Error) : HResponse B := mkResponse (he_Status e) (RReason (he_Reason e)).
Definition WriteDetail {B} (e : Error) (detail : list (string * any)) : HResponse B :=
  mkResponse (he_Status e) (RDetail (he_Reason e) detail).
Definition Fail {B} (e : HErr) : HResponse B := WriteError (http_Status e).
Definition failDetail {B} (e : HErr) : HResponse B :=
  match e with HDetail e detail => WriteDetail e detail | _ => Fail e end.

(** ** From the errors of the services *)
(** [errors.As] for the error types of the services; [ErrAboveGranter] is told by its text. *)
Fixpoint as_validation (pkg : string) (e : err) : option (string * string) :=
  match e with
  | ValidationError p field msg => if p =s pkg then Some (field, msg) else None
  | CausedValidationError p field msg c => if p =s pkg then Some (field, msg) else as_validation pkg c
  | Wrapf _ w => as_validation pkg w
  | _ => None
  end.
Fixpoint as_in_use (e : err) : option (string * Z) :=
  match e with
  | InUseError what count => Some (what, count)
  | Wrapf _ w | CausedValidationError _ _ _ w => as_in_use w
  | _ => None
  end.
Fixpoint as_conflict (pkg : string) (e : err) : bool :=
  match e with
  | ConflictError p _ => p =s pkg
  | TransitionError _ _ _ => pkg =s "enroll"
  | Wrapf _ w | CausedValidationError _ _ _ w => as_conflict pkg w
  | _ => false
  end.
Fixpoint is_above_granter (e : err) : bool :=
  match e with
  | Wrapf msg (Sentinel p n) => (msg =s "relation_above_granter") && (p =s "authz") && (n =s "ErrForbidden")
  | Wrapf _ w | CausedValidationError _ _ _ w => is_above_granter w
  | _ => false
  end.
Definition domainError (e : err) : HErr :=
  if is_above_granter e then HDetail ErrForbidden [("reason", AStr "relation_above_granter")]
  else if errors_is e "authz" "ErrForbidden" then HError ErrForbidden
  else if errors_is e "authz" "ErrNotFound" || errors_is e "store" "ErrNotFound" then HError ErrNotFound
  else if errors_is e "authz" "ErrInput" then HError ErrValidation
  else if errors_is e "csr" "ErrTooLarge" then HError ErrBodyTooLarge
  else if errors_is e "csr" "ErrParse" || errors_is e "csr" "ErrSPIFFEID" || errors_is e "csr" "ErrWeakKey"
          || errors_is e "csr" "ErrSANs" then HError ErrValidation
  else if errors_is e "store" "ErrConflict" then HError ErrConflict
  else HService e.
(** A resource the caller may not read answers as one that does not exist. *)
Definition masking_map (mapErr : err -> HErr) (e : err) : HErr :=
  if errors_is e "authz" "ErrForbidden" then HError ErrNotFound else mapErr e.
Definition readError : err -> HErr := masking_map domainError.
Definition invalid_detail (fm : string * string) : HErr :=
  HDetail ErrValidation [("field", AStr fm.1); ("message", AStr fm.2)].
Definition issueError (e : err) : HErr :=
  match as_validation "issue" e, as_in_use e with
  | Some fm, _ => invalid_detail fm
  | None, Some (what, count) => HDetail ErrConflict [(what, AInt count)]
  | None, None => domainError e
  end.
Definition issueReadError : err -> HErr := masking_map issueError.
Definition enrollError (e : err) : HErr :=
  match as_refusal e with
  | Some (RefusalError reason detail) =>
    let e := mkError (if TokenRefused reason then 401 else 403) reason in
    match detail with
    | [] => HError e
    | _ => HDetail e ((fun d => (d.1, AList (AStr <$> d.2))) <$> detail)
    end
  | _ => match as_validation "enroll" e with
         | Some fm => invalid_detail fm
         | None => if as_conflict "enroll" e then HError ErrConflict else domainError e
         end
  end.
Definition enrollReadError : err -> HErr := masking_map enrollError.
(** [secretError] and [webhookError] differ in the package of the errors they know. *)
Definition named_error (pkg : string) (e : err) : HErr :=
  match as_validation pkg e with
  | Some fm => invalid_detail fm
  | None => if as_conflict pkg e then HError ErrConflict else domainError e
  end.
Definition secretError : err -> HErr := named_error "secrets".
Definition webhookError : err -> HErr := named_error "webhook".
Definition deployError (e : err) : HErr :=
  match as_validation "deploy" e with Some fm => invalid_detail fm | None => domainError e end.
Definition backupError (e : err) : HErr :=
  if errors_is e "transfer" "ErrTooLarge" then HError ErrBodyTooLarge
  else if errors_is e "transfer" "ErrInvalid" || errors_is e "transfer" "ErrMode" then HError ErrValidation
  else domainError e.

(** ** Callers *)
Record CallerIdentity := mkIdentity { idn_UserID : string; idn_TenantID : string; idn_Roles : list string }.
(** [Caller]: the identity the chain put into the request's context. *)
Definition Caller (ctx : option CallerIdentity) : CallerIdentity + HErr :=
  match ctx with
  | Some id => if (idn_UserID id =s "") || (idn_TenantID id =s "") then inr (HError ErrUnauthenticated) else inl id
  | None => inr (HError ErrUnauthenticated)
  end.
Definition SubjectsOf (id : CallerIdentity) : Subjects := mkSubjects (idn_TenantID id) (idn_UserID id) (idn_Roles id) "".
Definition subjects (ctx : option CallerIdentity) : Subjects + HErr :=
  match Caller ctx with inl id => inl (SubjectsOf id) | inr e => inr e end.

(** ** The table of routes *)
(** The value of an extension as the document's reader gives it; a float64 is a fraction. *)
Inductive ExtValue := EFloat (num : Z) (den : positive) | EInt (z : Z) | ENumber (text : string) | EBool (b : bool)
| EString (s : string) | EOther.
Record Operation := mkOperation { op_Extensions : gmap string ExtValue }.
(** The operations of the document: by path, then by method. *)
Definition Doc : Type := gmap string (gmap string Operation).
Definition BodyLimitExtension : string := "x-freya-max-body-bytes".
Definition PublicExtension : string := "x-freya-public".
Definition MaxBodyBytes : Z := Z.shiftl 64 10.
Definition extensionInt (v : ExtValue) : option Z :=
  match v with
  | EFloat num den => Some (Z.quot num (Zpos den))
  | EInt z => Some z
  | ENumber text => let '(n, ok) := ParseInt text in if ok then Some n else None
  | _ => None
  end.
Definition extensionBool (v : option ExtValue) : bool := match v with Some (EBool b) => b | _ => false end.

Record HRoute := mkHRoute { ro_Method : string; ro_Path : string }.
#[export] Instance HRoute_eq_dec : EqDecision HRoute.
Proof. solve_decision. Defined.
#[export] Instance HRoute_countable : Countable HRoute.
Proof.
  apply (inj_countable' (fun r => (ro_Method r, ro_Path r)) (fun p => mkHRoute p.1 p.2)). by intros [].
Defined.
Definition route_String (r : HRoute) : string := ro_Method r +:+ " " +:+ ro_Path r.
(** [strings.ToUpper] of a method, a token of ASCII letters. *)
Definition upper_byte (c : Ascii.ascii) : Ascii.ascii :=
  if (97 <=? byte_of c) && (byte_of c <=? 122) then chr (byte_of c - 32) else c.
Definition ToUpper (s : string) : string := string_map upper_byte s.
Definition operations `{GoRuntime} (doc : Doc) : list (HRoute * Operation) :=
  map_range doc ≫= fun item => (fun m => (mkHRoute (ToUpper m.1) item.1, m.2)) <$> map_range item.2.
Definition DeclaredRoutes `{GoRuntime} (doc : Doc) : list HRoute :=
  sort_slice (fun a b => str_ltb (route_String a) (route_String b)) (operations doc).*1.
Definition PublicRoutes `{GoRuntime} (doc : Doc) : gset HRoute :=
  list_to_set (fst <$> filter (fun o => extensionBool (op_Extensions o.2 !! PublicExtension) = true) (operations doc)).

Section server.
Context {H : Type} `{GoRuntime}.
Record Server := mkServer {
  sv_declared : list HRoute; sv_public : gset HRoute; sv_protected : gset string; sv_handlers : gmap HRoute H; sv_remote : bool;
}.
Definition NewHandler (doc : Doc) (remote : bool) : Server :=
  let declared := DeclaredRoutes doc in
  let public := PublicRoutes doc in
  mkServer declared public (list_to_set (route_String <$> filter (fun rt => rt ∉ public) declared)) ∅ remote.
Definition isDeclared (s : Server) (rt : HRoute) : bool := existsb (fun d => bool_decide (d = rt)) (sv_declared s).
Definition Server_Handle (method path : string) (h : H) (s : Server) : res unit * Server :=
  let rt := mkHRoute (ToUpper method) path in
  if negb (isDeclared s rt)
  then (Err (Opaque ("httpapi: route " +:+ route_String rt +:+ " is not declared in the OpenAPI document")), s)
  else (Ok tt, mkServer (sv_declared s) (sv_public s) (sv_protected s) (<[rt := h]> (sv_handlers s)) (sv_remote s)).
Definition Implemented (s : Server) : list HRoute :=
  sort_slice (fun a b => str_ltb (route_String a) (route_String b)) (map_to_list (sv_handlers s)).*1.
Definition Missing (s : Server) : list HRoute := filter (fun rt => sv_handlers s !! rt = None) (sv_declared s).
Definition IsPublic (s : Server) (method path : string) : bool := bool_decide (mkHRoute method path ∈ sv_public s).
End server.
Arguments Server H : clear implicits.

(** ** The chain a request passes *)
(** A request: the limits of the readers around its body, the outermost first. *)
Record HRequest := mkHRequest {
  rq_Method : string; rq_Path : string; rq_Authorization : string; rq_Body : option string; rq_Limits : list Z;
}.
Inductive RouteResult := RouteFound (op : option Operation) | PathNotFound | RouteError.
(** What the handler asks of a validator's error. *)
Record VError := mkVError { ve_MaxBytes : bool; ve_Text : string; ve_Parameter : option (string * string); ve_Parse : bool }.
Class OpenAPI := {
  FindRoute : HRequest -> RouteResult;
  ValidateRequest : HRequest -> option Operation -> bool -> option VError;
}.
Class TokenVerifier := {
  BearerToken : string -> string;
  Verify : string -> res CallerIdentity;
}.
(** [http.ServeMux] on the declared patterns: a segment in braces takes any one segment,
    a literal segment goes first, and HEAD falls back on GET. *)
Definition is_wildcard (seg : string) : bool := HasPrefix "{" seg.
Fixpoint path_matches (pat path : list string) : bool :=
  match pat, path with
  | [], [] => true
  | p :: pat, s :: path => (if is_wildcard p then s <>s "" else p =s s) && path_matches pat path
  | _, _ => false
  end.
Fixpoint more_literal (a b : list string) : bool :=
  match a, b with
  | x :: a, y :: b => if is_wildcard x then is_wildcard y && more_literal a b else is_wildcard y || more_literal a b
  | _, _ => false
  end.
Definition segments (path : string) : list string := split_byte 47 path.
Definition better (path : string) (rt : HRoute) (best : option HRoute) : option HRoute :=
  if path_matches (segments (ro_Path rt)) (segments path)
  then match best with
       | Some b => if more_literal (segments (ro_Path b)) (segments (ro_Path rt)) then best else Some rt
       | None => Some rt
       end
  else best.
Definition mux_method (declared : list HRoute) (method path : string) : option HRoute :=
  foldr (better path) None (filter (fun rt => ro_Method rt = method) declared).
Inductive MuxHit := MuxRoute (rt : HRoute) | MuxRemote | MuxRoot.
Definition RemotePrefix : string := "/ui".
Definition mux_Handler {H} (s : Server H) (method path : string) : MuxHit :=
  match mux_method (sv_declared s) method path with
  | Some rt => MuxRoute rt
  | None =>
    match (if method =s "HEAD" then mux_method (sv_declared s) "GET" path else None) with
    | Some rt => MuxRoute rt
    | None => if sv_remote s && ((method =s "GET") || (method =s "HEAD")) && HasPrefix (RemotePrefix +:+ "/") path
              then MuxRemote else MuxRoot
    end
  end.
Definition pattern_of (hit : MuxHit) : string :=
  match hit with MuxRoute rt => route_String rt | MuxRemote => "GET " +:+ RemotePrefix +:+ "/" | MuxRoot => "/" end.

(** [strings.Contains]. *)
Fixpoint str_contains (s sub : string) : bool :=
  HasPrefix sub s || match s with String _ s' => str_contains s' sub | EmptyString => false end.
(** What becomes of a request: an answer of the chain, a file of the console, or a call
    of a handler with the identity in its context. *)
Inductive Served (H : Type) :=
| Answered (r : HResponse unit)
| RemoteFile (path : string) (cache : string)
| Reached (rt : HRoute) (h : H) (ctx : option CallerIdentity) (r : HRequest).
Arguments Answered {H} r.
Arguments RemoteFile {H} path cache.
Arguments Reached {H} rt h ctx r.

Section chain.
Context {H : Type} `{OpenAPI} `{TokenVerifier}.
Variable (files : gset string).
(** [remoteHandler], behind the prefix. *)
Definition remoteHandler (path : string) : Served H :=
  let p := TrimPrefix "/" path in
  if (p =s "") || HasSuffix "/" p then Answered (WriteError ErrNotFound)
  else if decide (p ∈ files)
       then RemoteFile p (if HasPrefix "assets/" p then "public, max-age=31536000, immutable" else "no-cache")
       else Answered (WriteError ErrNotFound).
Definition dispatch (s : Server H) (ctx : option CallerIdentity) (r : HRequest) : Served H :=
  match mux_Handler s (rq_Method r) (rq_Path r) with
  | MuxRoute rt => match sv_handlers s !! rt with
                   | None => Answered (WriteError ErrNotImplemented)
                   | Some h => Reached rt h ctx r
                   end
  | MuxRemote => remoteHandler (TrimPrefix RemotePrefix (rq_Path r))
  | MuxRoot => Answered (WriteError ErrNotFound)
  end.
(** The verifier is installed or not. *)
Definition authenticate (s : Server H) (installed : bool) (pattern : string) (r : HRequest) : Served H :=
  if decide (pattern ∈ sv_protected s)
  then if negb installed then Answered (WriteError ErrUnauthenticated)
       else match Verify (BearerToken (rq_Authorization r)) with
            | Ok id => if (idn_UserID id =s "") || (idn_TenantID id =s "") then Answered (WriteError ErrUnauthenticated)
                       else dispatch s (Some id) r
            | Err _ => Answered (WriteError ErrUnauthenticated)
            end
  else dispatch s None r.
Definition body_limit (op : option Operation) : Z * bool :=
  match (o ← op; v ← op_Extensions o !! BodyLimitExtension; extensionInt v) with
  | Some n => if 0 <? n then (n, true) else (MaxBodyBytes, false)
  | None => (MaxBodyBytes, false)
  end.
Definition with_limit (limit : Z) (r : HRequest) : HRequest :=
  match rq_Body r with
  | Some _ => mkHRequest (rq_Method r) (rq_Path r) (rq_Authorization r) (rq_Body r) (limit :: rq_Limits r)
  | None => r
  end.
Definition without_body (r : HRequest) : HRequest :=
  mkHRequest (rq_Method r) (rq_Path r) (rq_Authorization r) (Some "") [].
Definition refuse_invalid (e : VError) : HResponse unit :=
  if ve_MaxBytes e || str_contains (ve_Text e) "request body too large" then WriteError ErrBodyTooLarge
  else match ve_Parameter e with
       | Some (place, name) => if place =s "query" then WriteDetail ErrValidation [("param", AStr name)]
                               else if ve_Parse e then WriteError ErrMalformed else WriteError ErrValidation
       | None => if ve_Parse e then WriteError ErrMalformed else WriteError ErrValidation
       end.
Definition validate (next : HRequest -> Served H) (r : HRequest) : Served H :=
  match FindRoute r with
  | PathNotFound => next r
  | RouteError => Answered (mkResponse 405 (RReason "method_not_allowed"))
  | RouteFound op =>
    let '(limit, binary) := body_limit op in
    let r := with_limit limit r in
    match ValidateRequest (if binary then without_body r else r) op binary with
    | Some e => Answered (refuse_invalid e)
    | None => next r
    end
  end.
(** The chain [NewHandler] builds. *)
Definition serve_http (s : Server H) (installed : bool) (r : HRequest) : Served H :=
  validate (fun r => authenticate s installed (pattern_of (mux_Handler s (rq_Method r) (rq_Path r))) r) r.
End chain.

(** ** What the table and the chain guarantee *)
Section server_props.
Context {H : Type} `{GoRuntime}.
(** The servers wiring can build: routes are only added by [Handle]. *)
Inductive built (doc : Doc) (remote : bool) : Server H -> Prop :=
| built_new : built doc remote (NewHandler doc remote)
| built_handle method path h s : built doc remote s -> built doc remote (Server_Handle method path h s).2.
Lemma isDeclared_elem (s : Server H) rt : isDeclared s rt = true <-> rt ∈ sv_declared s.
Proof.
  unfold isDeclared. rewrite existsb_exists. split.
  - intros (x & Hx & Hb%bool_decide_eq_true). subst. by apply list_elem_of_In.
  - intros Hr. exists rt. split; [by apply list_elem_of_In|by apply bool_decide_eq_true].
Qed.
Lemma built_table doc remote (s : Server H) :
  built doc remote s ->
  sv_declared s = DeclaredRoutes doc /\ sv_public s = PublicRoutes doc
  /\ (forall rt, rt ∈ sv_declared s -> rt ∉ sv_public s -> route_String rt ∈ sv_protected s)
  /\ (forall rt, rt ∈ dom (sv_handlers s) -> rt ∈ sv_declared s).
Proof.
  induction 1 as [|method path h s Hb IH].
  - split_and!; [done|done| |by set_solver]. intros rt Hd Hp. simpl in *. apply elem_of_list_to_set, list_elem_of_fmap.
    exists rt. split; [done|]. by apply list_elem_of_filter.
  - unfold Server_Handle. destruct (isDeclared s _) eqn:Hd; simpl; [|done]. destruct IH as (H1 & H2 & H3 & H4).
    split_and!; [done..|]. intros rt. rewrite dom_insert, elem_of_union, elem_of_singleton.
    intros [->|Hr]; [by apply isDeclared_elem|by apply H4].
Qed.
Lemma mux_method_declared declared method path rt :
  mux_method declared method path = Some rt ->
  rt ∈ declared /\ ro_Method rt = method /\ path_matches (segments (ro_Path rt)) (segments path) = true.
Proof.
  unfold mux_method. intros Hm.
  enough (rt ∈ filter (fun rt => ro_Method rt = method) declared
          /\ path_matches (segments (ro_Path rt)) (segments path) = true) as [[Hr Hd]%list_elem_of_filter ?] by done.
  induction (filter _ _) as [|x l IH]; simpl in *; [done|]. unfold better in Hm.
  destruct (path_matches (segments (ro_Path x)) (segments path)) eqn:Hp; [|by destruct (IH Hm); set_solver].
  destruct (foldr _ _ _) as [b|]; [|injection Hm as <-; split; [set_solver|done]].
  destruct (more_literal _ _); [by destruct (IH Hm); set_solver|]. injection Hm as <-. split; [set_solver|done].
Qed.
Lemma mux_route_declared (s : Server H) method path rt :
  mux_Handler s method path = MuxRoute rt ->
  rt ∈ sv_declared s /\ path_matches (segments (ro_Path rt)) (segments path) = true
  /\ (ro_Method rt = method \/ (method = "HEAD" /\ ro_Method rt = "GET")).
Proof.
  unfold mux_Handler. destruct (mux_method _ method _) as [x|] eqn:Hx.
  - intros [= ->]. destruct (mux_method_declared _ _ _ _ Hx) as (? & ? & ?). auto.
  - destruct (method =s "HEAD") eqn:Hh.
    + destruct (mux_method _ "GET" _) as [x|] eqn:Hg; [|by case_match].
      intros [= ->]. destruct (mux_method_declared _ _ _ _ Hg) as (? & ? & ?). bools. auto.
    + by case_match.
Qed.
End server_props.
(** The router of the document finds every path one of its templates matches. *)
Class OpenAPILaws `{GoRuntime} `{OpenAPI} (doc : Doc) : Prop :=
  FindRoute_paths : forall r, FindRoute r = PathNotFound ->
    forall rt, rt ∈ DeclaredRoutes doc -> path_matches (segments (ro_Path rt)) (segments (rq_Path r)) = false.

Section gate.
Context {H : Type} `{GoRuntime} `{OpenAPI} `{TokenVerifier} (files : gset string).
Lemma dispatch_reached (s : Server H) ctx0 r rt h ctx r' :
  dispatch files s ctx0 r = Reached rt h ctx r' ->
  ctx = ctx0 /\ r' = r /\ mux_Handler s (rq_Method r) (rq_Path r) = MuxRoute rt /\ sv_handlers s !! rt = Some h.
Proof.
  unfold dispatch. destruct (mux_Handler _ _ _) as [x| |]; [| |done].
  - destruct (sv_handlers s !! x) eqn:Hx; [|done]. by intros [= -> -> -> ->].
  - unfold remoteHandler. by repeat case_match.
Qed.
Lemma authenticate_reached (s : Server H) installed pattern r rt h ctx r' :
  authenticate files s installed pattern r = Reached rt h ctx r' ->
  r' = r /\ mux_Handler s (rq_Method r) (rq_Path r) = MuxRoute rt /\ sv_handlers s !! rt = Some h
  /\ ((pattern ∉ sv_protected s /\ ctx = None)
      \/ (installed = true /\ exists id, ctx = Some id /\ Verify (BearerToken (rq_Authorization r)) = Ok id /\ Caller ctx = inl id)).
Proof.
  unfold authenticate. destruct (decide _) as [Hp|Hp].
  - destruct installed; simpl; [|done]. destruct (Verify _) as [id|] eqn:Hv; [|done].
    destruct ((idn_UserID id =s "") || (idn_TenantID id =s "")) eqn:He; [done|].
    intros (-> & -> & Hm & Hh)%dispatch_reached. split_and!; [done..|]. right. split; [done|]. exists id.
    unfold Caller. by rewrite He.
  - intros (-> & -> & Hm & Hh)%dispatch_reached. split_and!; [done..|]. by left.
Qed.
(** C26. Every handler is behind the gate: a request reaches a handler only on a declared
    route whose pattern it matches; unless the document marks the route public the token
    of the request was verified and its owner, with a user and a tenant, is who the
    handler sees; nobody else is ever put into the context; and the request passed the
    validation of the document with its body bounded. *)
Theorem handlers_gated doc {laws : OpenAPILaws doc} remote (s : Server H) installed r rt h ctx r' :
  built doc remote s -> serve_http files s installed r = Reached rt h ctx r' ->
  rt ∈ DeclaredRoutes doc /\ sv_handlers s !! rt = Some h
  /\ path_matches (segments (ro_Path rt)) (segments (rq_Path r)) = true
  /\ (rt ∉ PublicRoutes doc -> installed = true /\ ctx <> None)
  /\ (forall id, ctx = Some id -> Verify (BearerToken (rq_Authorization r)) = Ok id /\ Caller ctx = inl id)
  /\ exists op, FindRoute r = RouteFound op /\ r' = with_limit (body_limit op).1 r
       /\ ValidateRequest (if (body_limit op).2 then without_body r' else r') op (body_limit op).2 = None.
Proof.
  intros Hb Hs. destruct (built_table _ _ _ Hb) as (Hd & Hpub & Hprot & _).
  assert (Hgate : forall q, rq_Method q = rq_Method r -> rq_Path q = rq_Path r -> rq_Authorization q = rq_Authorization r ->
    authenticate files s installed (pattern_of (mux_Handler s (rq_Method q) (rq_Path q))) q = Reached rt h ctx r' ->
    r' = q /\ rt ∈ DeclaredRoutes doc /\ sv_handlers s !! rt = Some h
    /\ path_matches (segments (ro_Path rt)) (segments (rq_Path r)) = true
    /\ (rt ∉ PublicRoutes doc -> installed = true /\ ctx <> None)
    /\ (forall id, ctx = Some id -> Verify (BearerToken (rq_Authorization r)) = Ok id /\ Caller ctx = inl id)).
  { intros q E1 E2 E3 (-> & Hm & Hh & Hc)%authenticate_reached. destruct (mux_route_declared _ _ _ _ Hm) as (Hr & Hp & _).
    rewrite Hm in Hc. simpl in Hc. rewrite E2 in Hp. rewrite <- Hd, <- Hpub. split_and!; [done..| |].
    - intros Hn. destruct Hc as [[Hx _]|(-> & id & -> & _)]; [by destruct Hx; apply Hprot|done].
    - intros id ->. destruct Hc as [[_ ?]|(_ & x & [= <-] & Hv & Hca)]; [done|]. by rewrite <- E3. }
  unfold serve_http, validate in Hs. destruct (FindRoute r) as [op| |] eqn:Hf; [| |done].
  - destruct (body_limit op) as [limit binary] eqn:Hl. destruct (ValidateRequest _ _ _) eqn:Hv; [done|].
    destruct (Hgate (with_limit limit r)) as (-> & ?); [unfold with_limit; by destruct (rq_Body r)..|exact Hs|].
    destruct_and!. split_and!; [done..|]. exists op. rewrite Hl. done.
  - destruct (Hgate r eq_refl eq_refl eq_refl Hs) as (_ & Hdec & _ & Hp & _).
    by rewrite (FindRoute_paths r Hf rt Hdec) in Hp.
Qed.
End gate.

(** ** What an answer discloses of an error *)
(** The error without the texts that describe it: what wraps it, what a conflict says,
    what the system reports. *)
Fixpoint textless (e : err) : err :=
  match e with
  | Wrapf msg w => Wrapf (if msg =s "relation_above_granter" then msg else "") (textless w)
  | Opaque _ => Opaque ""
  | ConflictError pkg _ => ConflictError pkg ""
  | CausedValidationError pkg field msg c => CausedValidationError pkg field msg (textless c)
  | e => e
  end.
Lemma textless_is e pkg name : errors_is (textless e) pkg name = errors_is e pkg name.
Proof. by induction e. Qed.
Lemma textless_refusal e : as_refusal (textless e) = as_refusal e.
Proof. by induction e. Qed.
Lemma textless_validation pkg e : as_validation pkg (textless e) = as_validation pkg e.
Proof. induction e; simpl; [done..| | | | | | |done]; by rewrite ?IHe. Qed.
Lemma textless_in_use e : as_in_use (textless e) = as_in_use e.
Proof. by induction e. Qed.
Lemma textless_conflict pkg e : as_conflict pkg (textless e) = as_conflict pkg e.
Proof. by induction e. Qed.
Lemma textless_above e : is_above_granter (textless e) = is_above_granter e.
Proof.
  induction e as [| | | | | | |msg w IH|]; [done..| |done]. simpl.
  destruct w; try exact IH; simpl. by destruct (msg =s "relation_above_granter") eqn:E; bools; simpl; rewrite ?E.
Qed.
Ltac textless := rewrite ?textless_is, ?textless_refusal, ?textless_validation, ?textless_in_use, ?textless_conflict, ?textless_above.

(** The refusals an answer to a service's error is made of. *)
Definition vocabulary : list Error := [ErrForbidden; ErrNotFound; ErrValidation; ErrConflict; ErrBodyTooLarge; ErrUnavailable].
Definition error_maps : list (err -> HErr) :=
  [domainError; readError; issueError; issueReadError; enrollError; enrollReadError; secretError; webhookError; deployError; backupError].
(** The status and reason of an answer are of the vocabulary, or those of a refused enrollment. *)
Definition closed (e : err) (h : HErr) : Prop :=
  http_Status h ∈ vocabulary
  \/ exists reason detail, as_refusal e = Some (RefusalError reason detail)
       /\ http_Status h = mkError (if TokenRefused reason then 401 else 403) reason.
Definition discreet (mapErr : err -> HErr) : Prop :=
  forall e, closed e (mapErr e) /\ failDetail (B := unit) (mapErr (textless e)) = failDetail (mapErr e).
Lemma service_discreet e : closed e (HService e) /\ @failDetail unit (HService (textless e)) = failDetail (HService e).
Proof.
  split; [left; simpl; repeat case_match; set_solver|]. unfold failDetail, Fail, http_Status. by rewrite !textless_is.
Qed.
Lemma domainError_discreet : discreet domainError.
Proof.
  intros e. pose proof (service_discreet e). unfold domainError. textless.
  repeat case_match; try done; (split; [left; set_solver|done]).
Qed.
Lemma masked_discreet mapErr : discreet mapErr -> discreet (masking_map mapErr).
Proof. intros Hm e. unfold masking_map. rewrite textless_is. case_match; [split; [left; set_solver|done]|apply Hm]. Qed.
Lemma named_discreet pkg : discreet (named_error pkg).
Proof.
  intros e. pose proof (domainError_discreet e). unfold named_error. textless.
  repeat case_match; try done; (split; [left; set_solver|done]).
Qed.
Lemma issueError_discreet : discreet issueError.
Proof.
  intros e. pose proof (domainError_discreet e). unfold issueError. textless.
  repeat case_match; try done; (split; [left; set_solver|done]).
Qed.
Lemma enrollError_discreet : discreet enrollError.
Proof.
  intros e. pose proof (named_discreet "enroll" e) as Hd. unfold named_error in Hd. unfold enrollError.
  rewrite textless_refusal. destruct (as_refusal e) as [x|] eqn:Hr; [|exact Hd]. destruct x as [| | | | | |reason detail| |]; try exact Hd.
  split; [|done]. right. exists reason, detail. split; [done|]. by destruct detail.
Qed.
Lemma deployError_discreet : discreet deployError.
Proof.
  intros e. pose proof (domainError_discreet e). unfold deployError. textless.
  repeat case_match; try done; (split; [left; set_solver|done]).
Qed.
Lemma backupError_discreet : discreet backupError.
Proof.
  intros e. pose proof (domainError_discreet e). unfold backupError. textless.
  repeat case_match; try done; (split; [left; set_solver|done]).
Qed.
(** C37. An answer discloses of an error only its kind: with every map the status and the
    reason come from a fixed vocabulary, or are those of a refused enrollment, and two
    errors that differ only in the texts of wrapping, of conflicts and of the system are
    answered alike. *)
Theorem errors_discreet : Forall discreet error_maps.
Proof.
  constructor; [exact domainError_discreet|]. constructor; [exact (masked_discreet _ domainError_discreet)|].
  constructor; [exact issueError_discreet|]. constructor; [exact (masked_discreet _ issueError_discreet)|].
  constructor; [exact enrollError_discreet|]. constructor; [exact (masked_discreet _ enrollError_discreet)|].
  constructor; [exact (named_discreet "secrets")|]. constructor; [exact (named_discreet "webhook")|].
  constructor; [exact deployError_discreet|]. constructor; [exact backupError_discreet|]. constructor.
Qed.

(** ** Runs *)
Module HttpSample.
#[local] Existing Instance std_runtime.
Definition plain : Operation := mkOperation ∅.
Definition open_op : Operation := mkOperation {[PublicExtension := EBool true]}.
Definition big_op : Operation := mkOperation {[BodyLimitExtension := EFloat 67108864 1]}.
Definition api : Doc :=
  {["/api/certificates/{id}" := {["get" := plain; "put" := plain]}; "/api/certificates/import" := {["post" := plain]};
    "/api/certificates/{id}/details" := {["get" := plain]}; "/api/enroll" := {["post" := open_op]};
    "/api/backup/import" := {["post" := big_op]}]}.
(** The router and validator of that document; a body is refused when it exceeds the limits. *)
Definition api_paths : list (string * Operation) :=
  [("/api/certificates/{id}", plain); ("/api/certificates/import", plain); ("/api/certificates/{id}/details", plain);
   ("/api/enroll", open_op); ("/api/backup/import", big_op)].
#[local] Instance toy_api : OpenAPI := {|
  FindRoute r := match list_find (fun p => path_matches (segments p.1) (segments (rq_Path r)) = true) api_paths with
                 | Some (_, p) => RouteFound (Some p.2)
                 | None => PathNotFound
                 end;
  ValidateRequest r op binary :=
    match rq_Body r with
    | Some b => if existsb (fun l => l <? Z.of_nat (String.length b)) (rq_Limits r)
                then Some (mkVError false "request body too large" None true) else None
    | None => None
    end |}.
#[local] Instance toy_verifier : TokenVerifier := {|
  BearerToken h := TrimPrefix "Bearer " h;
  Verify t := if t =s "good" then Ok (mkIdentity "u1" "t1" []) else Err (Opaque "bad token") |}.
Definition table : Server string :=
  (Server_Handle "post" "/api/enroll" "enroll" (Server_Handle "GET" "/api/certificates/{id}" "read"
     (Server_Handle "GET" "/api/certificates/{id}/details" "details" (NewHandler api true)).2).2).2.
Lemma table_built : built api true table.
Proof. do 3 constructor. constructor. Qed.
#[local] Instance toy_api_laws : OpenAPILaws api.
Proof.
  intros r Hf rt Hrt. unfold FindRoute, toy_api in Hf. match type of Hf with match ?l with _ => _ end = _ => destruct l as [[? ?]|] eqn:Hl; [done|] end.
  apply list_find_None in Hl. rewrite Forall_forall in Hl.
  assert (Hd : forallb (fun rt => existsb (fun p => p.1 =s ro_Path rt) api_paths) (DeclaredRoutes api) = true)
    by (vm_compute; reflexivity).
  rewrite forallb_forall in Hd. specialize (Hd rt (proj1 (list_elem_of_In _ _) Hrt)).
  apply existsb_exists in Hd as (p & Hp%list_elem_of_In & He). bools. specialize (Hl p Hp). simpl in Hl. rewrite He in Hl.
  by apply not_true_iff_false.
Qed.
Definition get (path token : string) : HRequest := mkHRequest "GET" path token None [].
Example certificate_read :
  serve_http ∅ table true (get "/api/certificates/c1" "Bearer good")
  = Reached (mkHRoute "GET" "/api/certificates/{id}") "read" (Some (mkIdentity "u1" "t1" [])) (get "/api/certificates/c1" "Bearer good").
Proof. vm_compute. reflexivity. Qed.
Example bad_token : serve_http ∅ table true (get "/api/certificates/c1" "Bearer bad") = Answered (WriteError ErrUnauthenticated).
Proof. vm_compute. reflexivity. Qed.
Example no_verifier : serve_http ∅ table false (get "/api/certificates/c1" "Bearer good") = Answered (WriteError ErrUnauthenticated).
Proof. vm_compute. reflexivity. Qed.
Example not_implemented :
  serve_http ∅ table true (mkHRequest "POST" "/api/certificates/import" "Bearer good" (Some "{}") [])
  = Answered (WriteError ErrNotImplemented).
Proof. vm_compute. reflexivity. Qed.
Example not_declared : is_ok (Server_Handle "GET" "/api/other" "x" table).1 = false.
Proof. vm_compute. reflexivity. Qed.
Example missing_routes :
  Missing table = [mkHRoute "POST" "/api/backup/import"; mkHRoute "POST" "/api/certificates/import"; mkHRoute "PUT" "/api/certificates/{id}"].
Proof. vm_compute. reflexivity. Qed.
Lemma handlers_gated_witness :
  Verify (BearerToken "Bearer good") = Ok (mkIdentity "u1" "t1" [])
  /\ Caller (Some (mkIdentity "u1" "t1" [])) = inl (mkIdentity "u1" "t1" []).
Proof.
  exact (proj1 (proj2 (proj2 (proj2 (proj2 (handlers_gated ∅ api true table true _ _ _ _ _ table_built certificate_read))))) _ eq_refl).
Defined.
End HttpSample.
