(* ===== verification/HttpCerts.v ===== *)
(** The routes of certificates, issuers, enrollment, requests and jobs, and of grants:
    internal/httpapi/certificates.go, issuers.go, enroll.go, grants.go and lists.go.  A
    route is a function of the identity in the request's context, the values it takes
    from the path and the query, and its decoded body. *)

From S2P Require Import Prelude Rows Memstore MemstoreInv MemstoreList Paging Authz GoJson GoUrl AuditLog Csr Sealed World Ca.
From S2P Require Import IssueBase Domains Providers Issuers Acme Lifecycle CertList ImportCert Enroll EnrollJobs Secrets Stream Lists CertInfo.
From S2P Require Import Renew Http.

(** ** Routes *)
Definition Route (B : Type) : Type := World -> HResponse B * World.
Definition with_subjects {B} (ctx : option CallerIdentity) (h : Subjects -> Route B) : Route B :=
  fun w => match subjects ctx with inl s => h s w | inr e => (Fail e, w) end.
(** The body as [DecodeJSON] gives it. *)
Definition with_body {A B} (body : A + Error) (h : A -> Route B) : Route B :=
  fun w => match body with inl a => h a w | inr e => (Fail (HError e), w) end.
(** A body that may be missing or malformed: [_ = DecodeJSON(r, &in, 0)]. *)
Definition lenient {A} (zero : A) (body : A + Error) : A := match body with inl a => a | inr _ => zero end.
Definition respond {A B} (mapErr : err -> HErr) (status : Z) (out : A -> RBody B) (call : M A) : Route B :=
  fun w => match call w with
           | (Ok a, w') => (mkResponse status (out a), w')
           | (Err e, w') => (failDetail (mapErr e), w')
           end.
Definition no_content {A B} (a : A) : RBody B := REmpty.

(** ** Lists *)
Definition Query : Type := list (string * string).
Definition query_Get (q : Query) (k : string) : string :=
  match list_find (fun p => p.1 = k) q with Some (_, p) => p.2 | None => "" end.
Definition limitParam (q : Query) : Z := (ParseInt (query_Get q "limit")).1.
(** The parameters of a list, read by the library listquery. *)
Class ListParams `{ListQuery} := {
  Legacy : Query -> bool;
  Parse : Query -> Spec -> ListReq + option string;
  page_Total {A} : ListPage A -> Z;
}.
Inductive ListBody `{ListQuery} (T : Type) := LegacyBody (items : list T) (next : string) (total : Z) | PageBody (p : ListPage T).
Arguments LegacyBody {_ T} items next total.
Arguments PageBody {_ T} p.
Definition listParamError {B} (param : option string) : HResponse B :=
  WriteDetail ErrValidation [("param", AStr (default "page" param))].
Definition serveList `{ListParams} {T} (q : Query) (spec : Spec) (mapErr : err -> HErr)
    (legacy : option (M (list T * string))) (paged : ListReq -> M (ListPage T)) : Route (ListBody T) :=
  match (l ← legacy; if Legacy q then Some l else None) with
  | Some old =>
    respond mapErr 200 (fun b => RJSON (LegacyBody b.1.1 b.1.2 (page_Total b.2)))
      (let* body := old in let* count := paged (ListRequest (mkListReq 0 1 "" "") spec) in st_ret (body, count))
  | None =>
    fun w => match Parse q spec with
             | inr param => (listParamError param, w)
             | inl req => respond mapErr 200 (fun p => RJSON (PageBody p)) (paged req) w
             end
  end.

(** ** Live events *)
(** What goes out to the live streams of the tenant: [CertDeps.Pub] and [PubFail]. *)
Inductive Live := Pub (tenant type certificateID spiffeID : string) (notAfter : Z) | PubFail (tenant : string) (detail : list (string * any)).
Definition publish (tenant type : string) (c : CertificateView) : Live := Pub tenant type (cv_ID c) (cv_SpiffeID c) (cv_NotAfter c).
(** What goes on after the answer. *)
Definition Background : Type := World -> list Live * World.
Record Outcome (B : Type) := mkOutcome { oc_Response : HResponse B; oc_Live : list Live; oc_Background : option Background }.
Arguments mkOutcome {B} _ _ _.
Arguments oc_Response {B} _.
Arguments oc_Live {B} _.
Arguments oc_Background {B} _.
Definition just {B} (r : HResponse B) : Outcome B := mkOutcome r [] None.
Definition LiveRoute (B : Type) : Type := World -> Outcome B * World.
Definition live_subjects {B} (ctx : option CallerIdentity) (h : Subjects -> LiveRoute B) : LiveRoute B :=
  fun w => match subjects ctx with inl s => h s w | inr e => (just (Fail e), w) end.
Definition live_body {A B} (body : A + Error) (h : A -> LiveRoute B) : LiveRoute B :=
  fun w => match body with inl a => h a w | inr e => (just (Fail (HError e)), w) end.
Definition live_answer {A B} (mapErr : err -> HErr) (call : M A) (ok : A -> Outcome B) : LiveRoute B :=
  fun w => match call w with
           | (Ok a, w') => (ok a, w')
           | (Err e, w') => (just (failDetail (mapErr e)), w')
           end.

(** ** Certificates *)
Record issueBody := mkissueBody {
  ib_IssuerID : string; ib_SpiffeID : string; ib_CSRPEM : string; ib_Subject : string; ib_DNSSans : option (list string);
  ib_ValiditySeconds : Z; ib_DeliverKey : bool;
}.
Record acmeBody := mkacmeBody {
  ab_IssuerID : string; ab_Domains : list string; ab_CSRPEM : string; ab_DeliverKey : bool; ab_AutoRenew : option bool;
}.
Record importBody := mkimportBody {
  mb_IssuerID : string; mb_CertPEM : string; mb_ChainPEM : string; mb_KeyPEM : string; mb_AutoRenew : option bool;
}.
Definition importMaxBody : Z := 4 * MaxImportPEMBytes.
(** [bundleJSON]: the key is left out when there is none. *)
Record BundleJSON := mkBundleJSON {
  bj_certificate : CertificateView; bj_cert_pem : string; bj_chain_pem : string; bj_bundle_pem : string; bj_key_pem : option string;
}.
Definition bundleJSON (b : Bundle) : BundleJSON :=
  mkBundleJSON (b_Certificate b) (b_CertPEM b) (b_ChainPEM b) (b_BundlePEM b)
    (if b_KeyPEM b <>s "" then Some (b_KeyPEM b) else None).

Section certificates.
Context `{Env} `{AcmeServer} `{Enrolling}.
Definition issueFailMessage (e : err) : string := FailReason e.
Definition http_ListCertificates `{ListParams} (now : Z) (ctx : option CallerIdentity) (q : Query) : Route (ListBody CertificateView) :=
  with_subjects ctx (fun subj =>
    serveList q CertificateList issueError
      (Some (ListCertificates now subj (mkCertificateFilter (query_Get q "issuer_id") (query_Get q "spiffe_id")
               (query_Get q "status") 0 (query_Get q "cursor") (limitParam q))))
      (PageCertificates now subj (query_Get q "issuer_id") (query_Get q "spiffe_id") (query_Get q "status"))).
(** The mint runs after the answer, at the time [later]. *)
Definition issue_background (later : Z) (subj : Subjects) (inp : IssueInput) : Background :=
  fun w => match Issue later subj inp w with
           | (Ok b, w') => ([publish (sub_TenantID subj) "issued" (b_Certificate b)], w')
           | (Err e, w') => ([PubFail (sub_TenantID subj)
                                [("spiffe_id", AStr (in_SpiffeID inp)); ("error", AStr (issueFailMessage e))]], w')
           end.
Definition http_Issue (now later : Z) (ctx : option CallerIdentity) (body : issueBody + Error) : LiveRoute string :=
  live_subjects ctx (fun subj => live_body body (fun b =>
    let input := mkIssueInput (ib_IssuerID b) (ib_SpiffeID b) (ib_CSRPEM b) (ib_Subject b) (ib_DNSSans b)
                   (ib_ValiditySeconds b) false in
    live_answer issueError (PrecheckIssue now subj (input false)) (fun _ =>
      mkOutcome (mkResponse 202 (RJSON (ib_SpiffeID b))) [] (Some (issue_background later subj (input true)))))).
(** The order runs after the answer; its request is ended whatever came of it. *)
Definition acme_background (later : Z) (subj : Subjects) (order : ACMEOrder) (b : acmeBody) : Background :=
  fun w =>
    let autoRenew := default true (ab_AutoRenew b) in
    let '(r, w1) := ObtainACMEFor later subj (ao_RequestID order) (ab_IssuerID b) (ao_Domains order) (ab_CSRPEM b) false autoRenew w in
    let '(certID, failed) := match r with Ok x => (cv_ID (b_Certificate x), None) | Err e => ("", Some e) end in
    let '(_, w2) := FinishACME subj (ao_RequestID order) certID failed w1 in
    (match r with
     | Ok x => [publish (sub_TenantID subj) "issued" (b_Certificate x)]
     | Err e => [PubFail (sub_TenantID subj)
                   [("domains", AList (AStr <$> ao_Domains order)); ("request_id", AStr (ao_RequestID order));
                    ("error", AStr (issueFailMessage e))]]
     end, w2).
Definition http_ACME (now later : Z) (ctx : option CallerIdentity) (body : acmeBody + Error) : LiveRoute ACMEOrder :=
  live_subjects ctx (fun subj => live_body body (fun b =>
    live_answer issueError (BeginACME now subj (ab_IssuerID b) (ab_Domains b)) (fun order =>
      mkOutcome (mkResponse 202 (RJSON order)) [] (Some (acme_background later subj order b))))).
Definition import_background (later : Z) (subj : Subjects) (view : CertificateView) : Background :=
  fun w => match Renew later subj (cv_ID view) w with
           | (Ok b, w') => ([publish (sub_TenantID subj) "renewed" (b_Certificate b)], w')
           | (Err e, w') => ([PubFail (sub_TenantID subj)
                                [("certificate_id", AStr (cv_ID view));
                                 ("domains", match cv_SANs view with Some l => AList (AStr <$> l) | None => ANil end);
                                 ("error", AStr (issueFailMessage e))]], w')
           end.
Definition zero_certificate : IssuedCertificate :=
  mkIssuedCertificate "" "" "" "" None "" "" "" None 0 0 "" "" "" "" None false false None "" None None 0 0.
(** [RenewDue] is the renewal scheduler's, when it is wired. *)
Definition http_Import (RenewDue : option (IssuedCertificate -> Z -> bool)) (now answered later : Z) (ctx : option CallerIdentity)
    (body : importBody + Error) : LiveRoute (CertificateView * string) :=
  live_subjects ctx (fun subj => live_body body (fun b =>
    let autoRenew := default true (mb_AutoRenew b) in
    live_answer issueError
      (ImportACME now subj (mkImportInput (mb_IssuerID b) (mb_CertPEM b) (mb_ChainPEM b) (mb_KeyPEM b) autoRenew))
      (fun view =>
        let due := zero_certificate <| crt_NotBefore := cv_NotBefore view |> <| crt_NotAfter := cv_NotAfter view |> in
        let started := autoRenew && match RenewDue with Some f => f due answered | None => false end in
        let renewal := if started then "started" else if autoRenew then "scheduled" else "off" in
        mkOutcome (mkResponse 201 (RJSON (view, renewal))) [publish (sub_TenantID subj) "imported" view]
          (if started then Some (import_background later subj view) else None)))).
Definition http_GetCertificate (now : Z) (ctx : option CallerIdentity) (id : string) : Route CertificateView :=
  with_subjects ctx (fun subj => respond issueReadError 200 RJSON (GetCertificate now subj id)).
Definition http_CertificateDetails `{CertReader} (now : Z) (ctx : option CallerIdentity) (id : string) : Route InfoResult :=
  with_subjects ctx (fun subj => respond issueReadError 200 RJSON (CertificateDetails now subj id)).
Definition http_UpdateCertificate (now : Z) (ctx : option CallerIdentity) (id : string) (body : CertificateUpdate + Error)
    : Route CertificateView :=
  with_subjects ctx (fun subj => with_body body (fun inp => respond issueError 200 RJSON (UpdateCertificate now subj id inp))).
Definition http_Download (now : Z) (ctx : option CallerIdentity) (id : string) : Route BundleJSON :=
  with_subjects ctx (fun subj => respond issueReadError 200 (fun b => RJSON (bundleJSON b)) (Download now subj id)).
Definition http_DownloadKey (now : Z) (ctx : option CallerIdentity) (id : string) : Route string :=
  with_subjects ctx (fun subj => respond issueError 200 RJSON (DownloadKey now subj id)).
Definition http_Renew (now : Z) (ctx : option CallerIdentity) (id : string) : LiveRoute BundleJSON :=
  live_subjects ctx (fun subj => live_answer issueError (Renew now subj id) (fun b =>
    mkOutcome (mkResponse 200 (RJSON (bundleJSON b))) [publish (sub_TenantID subj) "renewed" (b_Certificate b)] None)).
Definition http_Revoke (now : Z) (ctx : option CallerIdentity) (id : string) (reason : string + Error) : LiveRoute unit :=
  live_subjects ctx (fun subj => live_answer issueError (Revoke now subj id (lenient "" reason)) (fun _ =>
    mkOutcome (mkResponse 204 REmpty) [Pub (sub_TenantID subj) "revoked" id "" 0] None)).
Definition http_DeleteCertificate (now : Z) (ctx : option CallerIdentity) (id : string) : Route unit :=
  with_subjects ctx (fun subj => respond issueError 204 no_content (DeleteCertificate now subj id)).
End certificates.

(** ** Issuers *)
Record issuerBody := mkissuerBody {
  sb_Name : string; sb_Type : string; sb_TrustDomain : string; sb_IsDefault : bool; sb_Enabled : option bool;
  sb_ACMEDirectoryURL : string; sb_ACMEEmail : string; sb_DNSProvider : string; sb_Settings : Settings; sb_Secrets : Settings;
}.
Definition settingString (s : Settings) (key : string) : string := match s !! key with Some (AStr v) => v | _ => "" end.
Section issuers.
Context `{Env} `{AcmeServer} `{Enrolling}.
Definition firstNonEmpty (a b : string) : string := if TrimSpace a <>s "" then a else b.
(** Secrets win over settings of the same name. *)
Definition issuerBody_input (b : issuerBody) : IssuerInput :=
  let s : Settings := sb_Secrets b ∪ sb_Settings b in
  let dir := firstNonEmpty (sb_ACMEDirectoryURL b) (settingString s "directory") in
  let email := firstNonEmpty (sb_ACMEEmail b) (settingString s "email") in
  let dnsProv := firstNonEmpty (sb_DNSProvider b) (settingString s "dns_provider") in
  mkIssuerInput (sb_Name b) (sb_Type b) (TrimSpace (sb_TrustDomain b)) (sb_IsDefault b) (default true (sb_Enabled b))
    (TrimSpace dir) (TrimSpace email) dnsProv s.
Definition http_ListIssuers `{ListParams} (now : Z) (ctx : option CallerIdentity) (q : Query) : Route (ListBody IssuerView) :=
  with_subjects ctx (fun subj =>
    serveList q IssuerList issueError (Some (ListIssuers now subj (query_Get q "cursor") (limitParam q))) (PageIssuers now subj)).
Definition http_CreateIssuer (now : Z) (ctx : option CallerIdentity) (body : issuerBody + Error) : Route IssuerView :=
  with_subjects ctx (fun subj => with_body body (fun b => respond issueError 201 RJSON (CreateIssuer now subj (issuerBody_input b)))).
Definition http_GetIssuer (now : Z) (ctx : option CallerIdentity) (id : string) : Route IssuerView :=
  with_subjects ctx (fun subj => respond issueReadError 200 RJSON (GetIssuer now subj id)).
Definition http_UpdateIssuer (now : Z) (ctx : option CallerIdentity) (id : string) (body : issuerBody + Error) : Route IssuerView :=
  with_subjects ctx (fun subj => with_body body (fun b => respond issueError 200 RJSON (UpdateIssuer now subj id (issuerBody_input b)))).
Definition http_DeleteIssuer (now : Z) (ctx : option CallerIdentity) (id : string) : Route unit :=
  with_subjects ctx (fun subj => respond issueError 204 no_content (DeleteIssuer now subj id)).
Definition http_DNSProviders (ctx : option CallerIdentity) : Route (list ProviderInfo) :=
  with_subjects ctx (fun _ w => (mkResponse 200 (RJSON SupportedProviders), w)).
End issuers.

(** ** Enrollment, requests and jobs *)
Record enrollBody := mkenrollBody { eb_SpiffeID : string; eb_CSRPEM : string; eb_EnrollmentToken : string }.
Inductive EnrollAnswer := EnrollIssued (b : BundleJSON) | EnrollPending (requestID : string).
Section enroll.
Context `{Env} `{AcmeServer} `{Enrolling}.
(** The public route: the token is the only credential, and the tenant is its. *)
Definition http_Enroll (now : Z) (body : enrollBody + Error) : Route EnrollAnswer :=
  with_body body (fun b w =>
    if eb_EnrollmentToken b =s "" then (Fail (HError ErrUnauthenticated), w)
    else match Enroll now (ServiceSubjects "" (eb_SpiffeID b))
                 (mkEnrollInput (eb_SpiffeID b) (eb_CSRPEM b) (eb_EnrollmentToken b)) w with
         | (Err e, w') => (failDetail (enrollError e), w')
         | (Ok r, w') =>
           match er_Bundle r with
           | Some bundle => if er_Status r =s "issued" then (mkResponse 200 (RJSON (EnrollIssued (bundleJSON bundle))), w')
                            else (mkResponse 202 (RJSON (EnrollPending (er_RequestID r))), w')
           | None => (mkResponse 202 (RJSON (EnrollPending (er_RequestID r))), w')
           end
         end).
Definition http_ListRequests `{ListParams} (now : Z) (ctx : option CallerIdentity) (q : Query) : Route (ListBody RequestView) :=
  with_subjects ctx (fun subj =>
    serveList q RequestList enrollError
      (Some (ListRequests now subj (query_Get q "status") (query_Get q "cursor") (limitParam q)))
      (PageRequests now subj (query_Get q "status"))).
(** The subject and the delivery of a key are accepted and ignored. *)
Definition http_CreateRequest (ctx : option CallerIdentity) (body : issueBody + Error) : Route RequestView :=
  with_subjects ctx (fun subj => with_body body (fun b =>
    respond enrollError 201 RJSON (CreateRequest subj
      (mkRequestInput (ib_IssuerID b) (ib_SpiffeID b) (ib_CSRPEM b) (ib_ValiditySeconds b) (ib_DNSSans b))))).
Definition http_GetRequest (now : Z) (ctx : option CallerIdentity) (id : string) : Route RequestView :=
  with_subjects ctx (fun subj => respond enrollReadError 200 RJSON (GetRequest now subj id)).
Definition http_ApproveRequest (now : Z) (ctx : option CallerIdentity) (id : string) (reason : string + Error) : Route RequestView :=
  with_subjects ctx (fun subj => respond enrollError 200 RJSON (ApproveRequest now subj id (lenient "" reason))).
Definition http_RejectRequest (now : Z) (ctx : option CallerIdentity) (id : string) (reason : string + Error) : Route RequestView :=
  with_subjects ctx (fun subj => respond enrollError 200 RJSON (RejectRequest now subj id (lenient "" reason))).
Definition http_ListJobs `{ListParams} (now : Z) (ctx : option CallerIdentity) (q : Query) : Route (ListBody JobView) :=
  with_subjects ctx (fun subj =>
    serveList q JobList enrollError
      (Some (ListJobs now subj (query_Get q "status") (query_Get q "cursor") (limitParam q)))
      (PageJobs now subj (query_Get q "status"))).
Definition http_GetJob (now : Z) (ctx : option CallerIdentity) (id : string) : Route JobView :=
  with_subjects ctx (fun subj => respond enrollReadError 200 RJSON (GetJob now subj id)).
Definition http_CancelJob (now : Z) (ctx : option CallerIdentity) (id : string) : Route unit :=
  with_subjects ctx (fun subj => respond enrollError 204 no_content (CancelJob now subj id)).
Definition http_RetryJob (now : Z) (ctx : option CallerIdentity) (id : string) : Route JobView :=
  with_subjects ctx (fun subj => respond enrollError 200 RJSON (RetryJob now subj id)).
End enroll.

(** ** Grants and access *)
(** [err == pkg.name]: the sentinel itself, not an error that wraps it. *)
Definition exactly (e : err) (pkg name : string) : bool :=
  match e with Sentinel p n => (p =s pkg) && (n =s name) | _ => false end.
Section grants.
Context `{Env}.
(** [grantView] shows every field of a grant but its tenant. *)
Definition grantView (g : Grant) : Grant := g <| grt_TenantID := "" |>.
Definition http_ListGrants (now : Z) (ctx : option CallerIdentity) (q : Query) : Route (list Grant) :=
  with_subjects ctx (fun subj => respond readError 200 (fun l => RJSON (grantView <$> l))
    (reading (authz_ListGrants now subj (query_Get q "resource_type") (query_Get q "resource_id")))).
(** The identifier is drawn first; one that is not used is not drawn again. *)
Definition http_Grant (now : Z) (ctx : option CallerIdentity) (body : GrantInput + Error) : Route Grant :=
  with_subjects ctx (fun subj => with_body body (fun inp =>
    respond domainError 201 (fun g => RJSON (grantView g))
      (let* id := newID in writing (authz_Grant now id subj inp)))).
Definition http_RevokeGrant (now : Z) (ctx : option CallerIdentity) (id : string) : Route unit :=
  with_subjects ctx (fun subj => respond domainError 204 no_content (writing (authz_Revoke now subj id))).
(** Forbidden and not found are an answer here, when the error is exactly the sentinel. *)
Definition http_CheckAccess (now : Z) (ctx : option CallerIdentity) (q : Query) : Route bool :=
  with_subjects ctx (fun subj w =>
    match authz_Check now subj (query_Get q "resource_type") (query_Get q "resource_id") (query_Get q "action") (wd_mem w) with
    | Ok _ => (mkResponse 200 (RJSON true), w)
    | Err e => if exactly e "authz" "ErrForbidden" || exactly e "authz" "ErrNotFound"
               then (mkResponse 200 (RJSON false), w) else (failDetail (domainError e), w)
    end).
Definition http_Effective (now : Z) (ctx : option CallerIdentity) (q : Query) : Route (string * Permissions * list Grant) :=
  with_subjects ctx (fun subj => respond readError 200 (fun r => RJSON (r.1.2, r.1.1, grantView <$> r.2))
    (reading (authz_Effective now subj (query_Get q "resource_type") (query_Get q "resource_id")))).
Definition http_Accessible (now : Z) (ctx : option CallerIdentity) (q : Query) : Route (list string * bool) :=
  with_subjects ctx (fun subj => respond domainError 200 (fun r => RJSON (elements r.1, r.2))
    (reading (authz_ListAccessibleIDs now subj (query_Get q "resource_type")))).
End grants.

(** ** An order over HTTP ends *)
Section acme_order.
Context `{Env} `{AcmeServer} `{Enrolling}.
#[local] Hint Resolve keeps_InsertCertificate keeps_InsertCertLog keeps_GrantOwner keeps_Seal : frames.
Lemma keeps_Obtain now subj rid iid domains csrPEM deliverKey autoRenew :
  keeps queue_view (ObtainACMEFor now subj rid iid domains csrPEM deliverKey autoRenew).
Proof. unfold ObtainACMEFor, obtainACME, order_key, record_certificate, effective_or_none, az_Check, az_Effective. keep. Qed.
Lemma BeginACME_stored now subj iid domains w order w1 :
  BeginACME now subj iid domains w = (Ok order, w1) ->
  exists r, m_Requests (wd_mem w1) !! ao_RequestID order = Some r /\ req_Status r = "processing" /\ req_TenantID r = sub_TenantID subj.
Proof.
  unfold BeginACME. intros Hb. apply st_bind_ok in Hb as (? & ? & _ & Hb). apply st_bind_ok in Hb as (? & ? & _ & Hb).
  apply st_bind_ok in Hb as (id & ? & _ & Hb). apply st_bind_ok in Hb as ([[]|e] & w2 & Hi & Hb); [|by case_match]. apply (proj1 (st_try_ok _ _ _ _)) in Hi.
  apply st_bind_ok in Hb as (? & ? & He & Hb). unfold emit in He. injection He as <- <-. apply st_ret_ok in Hb as [-> ->].
  unfold writing, Mem_InsertRequest, fail_write in Hi. simpl in Hi.
  destruct (m_Fail _ !! _); [done|]. destruct (m_Issuers _ !! _) as [i|]; simpl in Hi; [|done].
  destruct (iss_TenantID i =s _); simpl in Hi; [|done]. injection Hi as <-. simpl.
  eexists. split; [apply lookup_insert_eq|done].
Qed.
(** The request can be ended: it is still the tenant's, and the store takes the write. *)
Definition endable (tid id : string) (m : Mem) : Prop :=
  m_Fail m !! "CompleteRequest" = None /\ exists r, m_Requests m !! id = Some r /\ req_TenantID r = tid.
Lemma FinishACME_ends subj rid certID failed w r w' :
  FinishACME subj rid certID failed w = (r, w') ->
  (endable (sub_TenantID subj) rid (wd_mem w) ->
   exists r', m_Requests (wd_mem w') !! rid = Some r'
     /\ match failed with
        | None => req_Status r' = "issued" /\ req_CertificateID r' = Some certID
        | Some e => req_Status r' = "failed" /\ req_Reason r' = Some (FailReason e)
        end)
  /\ (~ endable (sub_TenantID subj) rid (wd_mem w) -> m_Requests (wd_mem w') = m_Requests (wd_mem w)).
Proof.
  unfold FinishACME, writing, Mem_CompleteRequest, fail_write, endable.
  destruct failed as [e|]; simpl; (destruct (m_Fail (wd_mem w) !! "CompleteRequest"); [intros [= <- <-]; split; [by intros [? _]|done]|]);
    (destruct (m_Requests (wd_mem w) !! rid) as [x|]; [|intros [= <- <-]; split; [|done]; by intros (_ & r' & Hr' & _)]);
    destruct (req_TenantID x =s sub_TenantID subj) eqn:Et; simpl; intros [= <- <-]; bools.
  1, 3: simpl; split; [intros _; eexists; split; [apply lookup_insert_eq|done]|]; intros Hn; exfalso; apply Hn; eauto.
  all: split; [|done]; by intros (_ & r' & [= <-] & Ht').
Qed.
(** C28. What becomes of an order accepted over HTTP.  The answer names a request that is
    stored as being processed.  When the order has run, in whatever state the store is by
    then, exactly one event goes out to the tenant: the certificate issued, or the
    reason of the failure.  If the request is still there and the store takes the write,
    the request is ended to the same effect, issued with that certificate or failed with
    that reason.  Otherwise, the code only logging the error, the requests stay as they
    are: one that is still there is left in processing, whatever was announced. *)
Theorem http_ACME_ends now later ctx b w oc w1 bg :
  http_ACME now later ctx (inl b) w = (oc, w1) -> oc_Background oc = Some bg ->
  exists subj order, subjects ctx = inl subj /\ oc_Response oc = mkResponse 202 (RJSON order) /\ oc_Live oc = []
  /\ (exists r, m_Requests (wd_mem w1) !! ao_RequestID order = Some r /\ req_Status r = "processing"
        /\ req_TenantID r = sub_TenantID subj)
  /\ forall w2 live w3, bg w2 = (live, w3) ->
       exists outcome : (string * string * Z) + string,
         live = [match outcome with
                 | inl (id, sid, na) => Pub (sub_TenantID subj) "issued" id sid na
                 | inr reason => PubFail (sub_TenantID subj)
                     [("domains", AList (AStr <$> ao_Domains order)); ("request_id", AStr (ao_RequestID order)); ("error", AStr reason)]
                 end]
         /\ (endable (sub_TenantID subj) (ao_RequestID order) (wd_mem w2) ->
             exists r', m_Requests (wd_mem w3) !! ao_RequestID order = Some r'
               /\ match outcome with
                  | inl (id, _, _) => req_Status r' = "issued" /\ req_CertificateID r' = Some id
                  | inr reason => req_Status r' = "failed" /\ req_Reason r' = Some reason
                  end)
         /\ (~ endable (sub_TenantID subj) (ao_RequestID order) (wd_mem w2) -> m_Requests (wd_mem w3) = m_Requests (wd_mem w2)).
Proof.
  unfold http_ACME, live_subjects, live_body, live_answer. destruct (subjects ctx) as [subj|e]; [|by intros [= <- <-]].
  destruct (BeginACME _ _ _ _ _) as [[order|e] w'] eqn:Hb; intros [= <- <-]; [|done]. simpl. intros [= <-].
  exists subj, order. split_and!; [done..|by eapply BeginACME_stored|].
  intros w2 live w3. unfold acme_background. destruct (ObtainACMEFor _ _ _ _ _ _ _ _ _) as [res w4] eqn:Ho.
  pose proof (keeps_run _ _ _ _ _ (keeps_Obtain _ _ _ _ _ _ _ _) Ho) as Hk. injection Hk as Hq _ _ Hfl. unfold endable.
  rewrite <- Hq, <- Hfl. destruct res as [x|e]; cbv beta iota zeta;
    (destruct (FinishACME _ _ _ _ w4) as [r5 w5] eqn:Ef); apply FinishACME_ends in Ef as [Hdone Hnot]; intros [= <- <-].
  - exists (inl (cv_ID (b_Certificate x), cv_SpiffeID (b_Certificate x), cv_NotAfter (b_Certificate x))). done.
  - exists (inr (issueFailMessage e)). done.
Qed.
End acme_order.

(** ** Reads do not tell what exists *)
Section masking.
Context `{Env} `{AcmeServer} `{Enrolling} `{CertReader}.
Definition denial (e : err) : Prop := e = authz_ErrForbidden \/ e = authz_ErrNotFound \/ e = store_ErrNotFound.
Lemma denial_masked {B} e :
  denial e -> failDetail (B := B) (issueReadError e) = WriteError ErrNotFound
              /\ failDetail (B := B) (enrollReadError e) = WriteError ErrNotFound.
Proof. by intros [->|[->| ->]]. Qed.
Lemma check_denial now s rt rid m e :
  m_Fail m = ∅ -> ValidResourceType rt = true -> authz_Check now s rt rid Read m = Err e -> denial e.
Proof.
  intros Hf Hv. unfold authz_Check. rewrite Hv. simpl. unfold resolve, locate, notFound, as_GetCertificate, as_GetIssuer,
    as_GrantsOnResource, mem_authz, Mem_GetCertificate, Mem_GetIssuer, Mem_GrantsOnResource, fail_read.
  rewrite Hf, !lookup_empty. unfold denial. intros Hc.
  repeat (case_match; simplify_eq/=; try destruct (authz_decide _ _ _) as [[? ?] ?]); auto.
Qed.
(** What the caller may read of the objects of a store. *)
Definition reads (now : Z) (s : Subjects) (rt id : string) (m : Mem) : bool := is_ok (authz_Check now s rt id Read m).
Definition reads_request (now : Z) (s : Subjects) (id : string) (m : Mem) : bool :=
  match Mem_GetRequest (sub_TenantID s) id m with Ok r => is_ok (authorizeReadRequest now s r m) | Err _ => false end.
Definition reads_job (now : Z) (s : Subjects) (id : string) (m : Mem) : bool :=
  match Mem_GetJob (sub_TenantID s) id m with Ok j => is_ok (authorizeJob now s j Read m) | Err _ => false end.
Lemma read_denied {A B} (c : M A) out now s rt id w :
  m_Fail (wd_mem w) = ∅ -> ValidResourceType rt = true -> reads now s rt id (wd_mem w) = false ->
  respond (B := B) issueReadError 200 out (st_bind (az_Check now s rt id Read) (fun _ => c)) w = (WriteError ErrNotFound, w).
Proof.
  intros Hf Hv Hr. unfold respond, st_bind, az_Check, reading, reads in *.
  destruct (authz_Check _ _ _ _ _ _) as [|e] eqn:He; [done|]. by rewrite (proj1 (denial_masked e (check_denial _ _ _ _ _ _ Hf Hv He))).
Qed.
Lemma request_denial now s r m e : m_Fail m = ∅ -> authorizeReadRequest now s r m = Err e -> denial e.
Proof.
  intros Hf. unfold authorizeReadRequest. case_match; [done|]. destruct (requestIssuerID _ _ _); [|intros [= <-]; by left].
  by apply check_denial.
Qed.
Lemma job_denial now s j m e : m_Fail m = ∅ -> authorizeJob now s j Read m = Err e -> denial e.
Proof.
  intros Hf. unfold authorizeJob. destruct (Mem_GetRequest _ _ _) as [r|].
  - destruct (requestIssuerID _ _ _); [by apply check_denial|]. destruct (IsAdmin s); [done|]. intros [= <-]. by left.
  - destruct (IsAdmin s); [done|]. intros [= <-]. by left.
Qed.
(** The reads of requests and jobs look the row up first. *)
Lemma row_denied {A B} (get : Mem -> res A) (auth : A -> Mem -> res unit) (out : A -> B) w :
  (forall e, get (wd_mem w) = Err e -> denial e) -> (forall a e, auth a (wd_mem w) = Err e -> denial e) ->
  match get (wd_mem w) with Ok a => is_ok (auth a (wd_mem w)) | Err _ => false end = false ->
  respond enrollReadError 200 RJSON
    (st_bind (reading get) (fun a => st_bind (reading (auth a)) (fun _ => st_ret (out a)))) w = (WriteError ErrNotFound, w).
Proof.
  intros Hg Ha Hr. unfold respond, st_bind, reading. destruct (get (wd_mem w)) as [a|e] eqn:Eg.
  - destruct (auth a (wd_mem w)) as [|e] eqn:Ea; [done|]. by rewrite (proj2 (denial_masked e (Ha _ _ Ea))).
  - by rewrite (proj2 (denial_masked e (Hg _ eq_refl))).
Qed.
Lemma absent_unread now s rt id m :
  m_Fail m = ∅ -> ValidResourceType rt = true -> (rt = Certificate -> m_Certificates m !! id = None) ->
  (rt = IssuerType -> m_Issuers m !! id = None) -> reads now s rt id m = false.
Proof.
  intros Hf Hv Hc Hi. unfold reads, authz_Check. rewrite Hv. simpl. unfold resolve, locate, notFound, as_GetCertificate,
    as_GetIssuer, mem_authz, Mem_GetCertificate, Mem_GetIssuer, fail_read. rewrite Hf, !lookup_empty.
  unfold ValidResourceType in Hv. destruct (rt =s Certificate) eqn:E1; bools.
  - by rewrite (Hc E1).
  - destruct (rt =s IssuerType) eqn:E2; [|done]. bools. by rewrite (Hi E2).
Qed.
(** C27. A read over HTTP does not tell whether an object exists: with a working store,
    a certificate, its details and its download, an issuer, a request and a job that the
    caller may not read are answered not_found, just as one that is not there, and
    nothing changes; and in none of the cases the caller may read one that is not there. *)
Theorem reads_hide_existence now ctx s id w :
  subjects ctx = inl s -> m_Fail (wd_mem w) = ∅ ->
  (reads now s Certificate id (wd_mem w) = false ->
     http_GetCertificate now ctx id w = (WriteError ErrNotFound, w)
     /\ http_CertificateDetails now ctx id w = (WriteError ErrNotFound, w)
     /\ http_Download now ctx id w = (WriteError ErrNotFound, w))
  /\ (reads now s IssuerType id (wd_mem w) = false -> http_GetIssuer now ctx id w = (WriteError ErrNotFound, w))
  /\ (reads_request now s id (wd_mem w) = false -> http_GetRequest now ctx id w = (WriteError ErrNotFound, w))
  /\ (reads_job now s id (wd_mem w) = false -> http_GetJob now ctx id w = (WriteError ErrNotFound, w))
  /\ (m_Certificates (wd_mem w) !! id = None -> reads now s Certificate id (wd_mem w) = false)
  /\ (m_Issuers (wd_mem w) !! id = None -> reads now s IssuerType id (wd_mem w) = false)
  /\ (m_Requests (wd_mem w) !! id = None -> reads_request now s id (wd_mem w) = false)
  /\ (m_Jobs (wd_mem w) !! id = None -> reads_job now s id (wd_mem w) = false).
Proof.
  intros Hs Hf. unfold http_GetCertificate, http_CertificateDetails, http_Download, http_GetIssuer, http_GetRequest, http_GetJob,
    with_subjects. rewrite Hs. split_and!.
  - intros Hr. split_and!; by apply (read_denied _ _ _ _ Certificate id).
  - intros Hr. by apply (read_denied _ _ _ _ IssuerType id).
  - apply (row_denied (Mem_GetRequest (sub_TenantID s) id) (authorizeReadRequest now s)); [|by intros a e; apply request_denial].
    unfold Mem_GetRequest, fail_read. rewrite Hf, lookup_empty.
    intros e He. repeat case_match; simplify_eq; by right; right.
  - apply (row_denied (Mem_GetJob (sub_TenantID s) id) (fun j => authorizeJob now s j Read)); [|by intros a e; apply job_denial].
    unfold Mem_GetJob, fail_read. rewrite Hf, lookup_empty.
    intros e He. repeat case_match; simplify_eq; by right; right.
  - intros Hn. by apply absent_unread.
  - intros Hn. by apply absent_unread.
  - intros Hn. unfold reads_request, Mem_GetRequest, fail_read. by rewrite Hf, lookup_empty, Hn.
  - intros Hn. unfold reads_job, Mem_GetJob, fail_read. by rewrite Hf, lookup_empty, Hn.
Qed.
End masking.

(** ** Runs *)
Module HttpCertsSample.
Import Toy IssueSample AcmeSample LifeSample.
#[local] Existing Instance toy_env.
#[local] Existing Instance toy_server.
#[local] Instance toy_enrolling : Enrolling := {|
  verify_enrollment n tok := Err (RefusalError ReasonTokenUsed []); cfg_AutoApprove := false; cfg_MaxAttempts := 3;
  format_time := FormatInt; parse_time _ := None |}.
#[local] Existing Instance CertInfoSample.reader.
Definition eve : option CallerIdentity := Some (mkIdentity "eve" "t1" []).
Definition root : option CallerIdentity := Some (mkIdentity "root" "t1" ["admin"]).
Example owner_reads : rp_Status (http_GetCertificate 20 root web issued.2).1 = 200.
Proof. vm_compute. reflexivity. Qed.
(** The routes that are not reads tell an object the caller may not read from one that is not there. *)
Example key_tells :
  (http_DownloadKey 20 eve web issued.2).1 = WriteError ErrForbidden
  /\ (http_DownloadKey 20 eve "other" issued.2).1 = WriteError ErrNotFound.
Proof. split; vm_compute; reflexivity. Qed.
Example token_used :
  (http_Enroll 20 (inl (mkenrollBody "spiffe://example.org/web" "" "t")) issued.2).1 = WriteError (mkError 401 "enrollment_token_used").
Proof. vm_compute. reflexivity. Qed.
Definition le : Issuer :=
  mkIssuer "a1" "t1" "Public CA" "acme" "" true None "https://acme.example/dir" "ops@example.org" "" None None false
    (Some "root") (Some "root") 0 0 0.
Definition with_acme : World := mkWorld (run_op (OpInsertIssuer le) (Mem_New 5)) [] 0 0.
Definition order_body : acmeBody := mkacmeBody "a1" ["web.example.org"] "" false None.
Definition accepted : Outcome ACMEOrder * World := http_ACME 10 20 root (inl order_body) with_acme.
Definition order_task : Background := default (fun w => ([], w)) (oc_Background accepted.1).
Example accepted_run : oc_Response accepted.1 = mkResponse 202 (RJSON (mkACMEOrder "id0" ["web.example.org"])).
Proof. vm_compute. reflexivity. Qed.
(** This deployment has no DNS provider for the order. *)
Example order_fails :
  (order_task accepted.2).1 = [PubFail "t1" [("domains", AList [AStr "web.example.org"]); ("request_id", AStr "id0");
                                             ("error", AStr "failed")]].
Proof. vm_compute. reflexivity. Qed.
Lemma reads_hide_existence_witness :
  http_GetCertificate 20 eve web issued.2 = (WriteError ErrNotFound, issued.2)
  /\ http_GetCertificate 20 eve "other" issued.2 = (WriteError ErrNotFound, issued.2).
Proof.
  assert (Hf : m_Fail (wd_mem issued.2) = ∅) by (vm_compute; reflexivity).
  pose proof (fun id => reads_hide_existence 20 eve (mkSubjects "t1" "eve" [] "") id issued.2 eq_refl Hf) as Hr.
  split; apply Hr; vm_compute; reflexivity.
Defined.
Lemma http_ACME_ends_witness :
  exists r', m_Requests (wd_mem (order_task accepted.2).2) !! "id0" = Some r' /\ (req_Status r' = "issued" \/ req_Status r' = "failed").
Proof.
  assert (Ha : http_ACME 10 20 root (inl order_body) with_acme = (accepted.1, accepted.2)) by exact (surjective_pairing accepted).
  assert (Ht : match oc_Background accepted.1 with Some _ => true | None => false end = true) by (vm_compute; reflexivity).
  assert (Hb : oc_Background accepted.1 = Some order_task)
    by (unfold order_task; destruct (oc_Background accepted.1); [exact eq_refl|discriminate Ht]).
  clear Ht.
  destruct (http_ACME_ends 10 20 root order_body with_acme accepted.1 accepted.2 order_task Ha Hb)
    as (subj & order & Hs & Ho & _ & (r & Hr & _ & Ht) & Hend).
  rewrite accepted_run in Ho. injection Ho as <-. simpl in *.
  destruct (order_task accepted.2) as [live w3] eqn:Hw.
  assert (Hf : m_Fail (wd_mem accepted.2) !! "CompleteRequest" = None) by (vm_compute; reflexivity).
  destruct (Hend accepted.2 live w3 Hw) as (outcome & _ & Hdone & _).
  destruct (Hdone (conj Hf (ex_intro _ r (conj Hr Ht)))) as (r' & Hr' & Hcase). exists r'. split; [exact Hr'|].
  destruct outcome as [[[? ?] ?]|?]; [left|right]; exact (proj1 Hcase).
Defined.
End HttpCertsSample.
