(* ===== verification/GoTime.v ===== *)
(** Instants as texts: [time.Parse] and [Format] for the layouts RFC3339 and
    RFC3339Nano, which the service uses for the cursors and windows of its lists. *)

From S2P Require Import Prelude Rows Memstore GoJson GoUrl AuditLog Csr World IssueBase Domains Stream Expiring.

(** ** Reading *)
Fixpoint drop_bytes (n : nat) (s : string) : string :=
  match n, s with S n, String _ s' => drop_bytes n s' | _, _ => s end.
(** A number of exactly [n] digits. *)
Definition fixed (n : nat) (s : string) : option (Z * string) :=
  let p := String.substring 0 n s in
  if (String.length p =? n)%nat && string_forallb is_digit p
  then match parse_uint p 0 with PNum z => Some (z, drop_bytes n s) | _ => None end
  else None.
(** The hour may have one digit. *)
Definition flexible (s : string) : option (Z * string) := match fixed 2 s with Some r => Some r | None => fixed 1 s end.
Definition literal (b : Z) (s : string) : option string :=
  match s with String c s' => if byte_of c =? b then Some s' else None | EmptyString => None end.
Fixpoint span_digits (s : string) : string * string :=
  match s with
  | String c s' => if is_digit c then let '(a, b) := span_digits s' in (String c a, b) else (EmptyString, s)
  | EmptyString => (EmptyString, EmptyString)
  end.
(** A fraction of a second, after a point or a comma; digits past the ninth are dropped. *)
Definition fraction (s : string) : Z * string :=
  match s with
  | String c s' =>
    let '(ds, rest) := span_digits s' in
    if ((byte_of c =? 46) || (byte_of c =? 44)) && negb (ds =s "")
    then let p := String.substring 0 9 ds in
         (match parse_uint p 0 with PNum z => z * 10 ^ (9 - Z.of_nat (String.length p)) | _ => 0 end, rest)
    else (0, s)
  | EmptyString => (0, s)
  end.
(** The zone in seconds; nothing follows it. *)
Definition zone (s : string) : option Z :=
  if s =s "Z" then Some 0
  else match s with
  | String c s =>
    sign ← (if byte_of c =? 43 then Some 1 else if byte_of c =? 45 then Some (-1) else None);
    '(h, s) ← fixed 2 s; s ← literal 58 s; '(m, s) ← fixed 2 s;
    if (24 <? h) || (60 <? m) || negb (s =s "") then None else Some (sign * (h * 3600 + m * 60))
  | EmptyString => None
  end.
Definition isLeap (y : Z) : bool := (y mod 4 =? 0) && (negb (y mod 100 =? 0) || (y mod 400 =? 0)).
Definition daysIn (m y : Z) : Z :=
  if m =? 2 then (if isLeap y then 29 else 28)
  else if (m =? 4) || (m =? 6) || (m =? 9) || (m =? 11) then 30 else 31.
(** Days since 0001-01-01. *)
Definition days_of (y m d : Z) : Z :=
  let y' := if m <=? 2 then y - 1 else y in
  let era := y' / 400 in
  let yoe := y' mod 400 in
  let doy := (153 * ((m + 9) mod 12) + 2) / 5 + d - 1 in
  era * 146097 + (yoe * 365 + yoe / 4 - yoe / 100 + doy) - 306.
Definition Parse_RFC3339 (s : string) : option Z :=
  '(y, s) ← fixed 4 s; s ← literal 45 s; '(mo, s) ← fixed 2 s; s ← literal 45 s; '(d, s) ← fixed 2 s; s ← literal 84 s;
  '(h, s) ← flexible s; s ← literal 58 s; '(mi, s) ← fixed 2 s; s ← literal 58 s; '(sec, s) ← fixed 2 s;
  let '(ns, s) := fraction s in
  off ← zone s;
  if (mo <? 1) || (12 <? mo) || (23 <? h) || (59 <? mi) || (59 <? sec) || (d <? 1) || (daysIn mo y <? d) then None
  else Some ((days_of y mo d * Day + h * 3600 + mi * 60 + sec - off) * Second + ns).

(** ** Writing *)
(** The digits of a fraction without the zeros at its end. *)
Fixpoint trim_zeros (s : string) : string :=
  match s with
  | String c s' => match trim_zeros s' with
                   | EmptyString => if byte_of c =? 48 then EmptyString else String c EmptyString
                   | t => String c t
                   end
  | EmptyString => EmptyString
  end.
Definition Format_RFC3339Nano (t : Z) : string :=
  let secs := t / Second in
  let '(y, m, d) := civil (secs / Day) in
  let s := secs mod Day in
  let f := trim_zeros (append_int 9 (t mod Second)) in
  append_int 4 y +:+ "-" +:+ append_int 2 m +:+ "-" +:+ append_int 2 d +:+ "T"
  +:+ append_int 2 (s / 3600) +:+ ":" +:+ append_int 2 (s / 60 mod 60) +:+ ":" +:+ append_int 2 (s mod 60)
  +:+ (if f =s "" then "" else "." +:+ f) +:+ "Z".
Example reads_zone : Parse_RFC3339 "2024-02-29T1:30:00,5+01:30" = Some (days_of 2024 2 29 * Day * Second + 500000000).
Proof. vm_compute. reflexivity. Qed.
Example reads_no_day : Parse_RFC3339 "2023-02-29T01:30:00Z" = None.
Proof. vm_compute. reflexivity. Qed.
Example nano_back : let t := unix_epoch + 1709251199120000000 in
  Format_RFC3339Nano t = "2024-02-29T23:59:59.12Z" /\ Parse_RFC3339 (Format_RFC3339Nano t) = Some t.
Proof. vm_compute. split; reflexivity. Qed.

(** ** The calendar *)
Lemma year_of_era doe : 0 <= doe < 146097 ->
  let y := (doe - doe / 1460 + doe / 36524 - doe / 146096) / 365 in
  0 <= y < 400 /\ 365 * y + y / 4 - y / 100 <= doe
  /\ doe < 365 * (y + 1) + (y + 1) / 4 - (y + 1) / 100 + (y + 1) / 400.
Proof. intros Hd y. subst y. Z.to_euclidean_division_equations; lia. Qed.
Lemma civil_back days y m d : civil days = (y, m, d) ->
  days_of y m d = days /\ 1 <= m <= 12 /\ 1 <= d <= daysIn m y.
Proof.
  unfold civil. set (z := days + 306). set (era := z / 146097). set (doe := z mod 146097).
  assert (Hz : z = era * 146097 + doe /\ 0 <= doe < 146097)
    by (unfold era, doe; pose proof (Z.div_mod z 146097); pose proof (Z.mod_pos_bound z 146097); lia).
  destruct Hz as [Hz Hdoe]. destruct (year_of_era doe Hdoe) as (Hy & Hlo & Hhi).
  set (yoe := (doe - doe / 1460 + doe / 36524 - doe / 146096) / 365) in *.
  set (doy := doe - (365 * yoe + yoe / 4 - yoe / 100)).
  assert (Hdoy : 0 <= doy <= 365) by (unfold doy; Z.to_euclidean_division_equations; lia).
  set (mp := (5 * doy + 2) / 153). assert (Hmp : 0 <= mp <= 11) by (unfold mp; Z.to_euclidean_division_equations; lia).
  assert (Hera : (yoe + era * 400) / 400 = era /\ (yoe + era * 400) mod 400 = yoe)
    by (split; [rewrite Z.div_add, Z.div_small by lia; lia|rewrite Z.mod_add, Z.mod_small by lia; lia]).
  assert (Hleap : doy = 365 -> isLeap (yoe + era * 400 + 1) = true).
  { intros Hl. unfold isLeap. assert (Hq : (yoe + 1) / 4 - yoe / 4 = 1 /\ ((yoe + 1) / 100 = yoe / 100 \/ (yoe + 1) / 400 = 1))
      by (unfold doy in Hl; clear Hera Hmp mp; Z.to_euclidean_division_equations; lia).
    replace (yoe + era * 400 + 1) with (yoe + 1 + era * 400) by lia.
    assert ((yoe + 1 + era * 400) mod 4 = 0) as -> by (clear -Hq; Z.to_euclidean_division_equations; lia). simpl.
    destruct ((yoe + 1 + era * 400) mod 100 =? 0) eqn:E1, ((yoe + 1 + era * 400) mod 400 =? 0) eqn:E2; try done. bools.
    exfalso. clear -Hq E1 E2 Hy. Z.to_euclidean_division_equations; lia. }
  assert (Hdd : doe = yoe * 365 + yoe / 4 - yoe / 100 + doy) by (unfold doy; lia). clearbody doy. clear Hlo Hhi.
  intros [= <- <- <-]. unfold days_of.
  assert (Hd : 153 * mp <= 5 * doy + 2 < 153 * mp + 153) by (unfold mp; Z.to_euclidean_division_equations; lia). clearbody mp.
  assert (Hdays : days = era * 146097 + doe - 306) by (unfold z in Hz; lia). clearbody era yoe doe. clear Hz.
  set (Y := yoe + era * 400) in *. clearbody Y.
  set (m := if mp <? 10 then mp + 3 else mp - 9).
  assert (Hm : (m + 9) mod 12 = mp /\ 1 <= m <= 12 /\ (m <=? 2) = negb (mp <? 10) /\ (m = mp + 3 \/ (m = mp - 9 /\ 10 <= mp))).
  { unfold m. destruct (mp <? 10) eqn:E; bools; split_and!; try lia; Z.to_euclidean_division_equations; lia. }
  clearbody m. destruct Hm as (Hm1 & Hm2 & Hm3 & Hm4). rewrite Hm1, Hm3. split; [|split; [done|]].
  - destruct (mp <? 10); simpl; rewrite ?Z.add_simpl_r, (proj1 Hera), (proj2 Hera); lia.
  - split; [Z.to_euclidean_division_equations; lia|]. unfold daysIn. destruct (m =? 2) eqn:E2; bools.
    + assert (mp = 11) as -> by lia. change (negb (11 <? 10)) with true. cbv iota. destruct (isLeap _) eqn:El; [change ((153 * 11 + 2) / 5) with 337; lia|].
      assert (doy <> 365) by (intros Hx; discriminate (Hleap Hx)). change ((153 * 11 + 2) / 5) with 337. lia.
    + destruct ((m =? 4) || (m =? 6) || (m =? 9) || (m =? 11)) eqn:E3; bools; Z.to_euclidean_division_equations; lia.
Qed.

(** ** Numbers of a fixed width *)
Lemma substring_exact p rest : String.substring 0 (String.length p) (p +:+ rest) = p.
Proof. induction p as [|c p IH]; [by destruct rest|]. simpl. by rewrite IH. Qed.
Lemma drop_exact p rest : drop_bytes (String.length p) (p +:+ rest) = rest.
Proof. by induction p. Qed.
Lemma digits_length n fuel z s :
  (0 < n <= fuel)%nat -> 0 <= z < 10 ^ Z.of_nat n -> (String.length (digits fuel z s) <= n + String.length s)%nat.
Proof.
  revert fuel z s. induction n as [|n IH]; intros fuel z s Hn Hz; [lia|]. destruct fuel as [|f]; [lia|]. simpl.
  destruct (z <? 10) eqn:E; simpl; [lia|]. bools. destruct n as [|n]; [simpl in Hz; lia|].
  rewrite Nat2Z.inj_succ, Z.pow_succ_r in Hz by lia.
  specialize (IH f (z / 10) (String (chr (48 + z mod 10)) s)). simpl in IH.
  assert (z / 10 < 10 ^ Z.of_nat (S n)) by (apply Z.div_lt_upper_bound; lia). pose proof (Z.div_pos z 10). lia.
Qed.
Definition zeros (k : nat) (d : string) : string := foldr (fun _ s => "0" +:+ s) d (seq 0 k).
Lemma zeros_S k d : zeros (S k) d = "0" +:+ zeros k d.
Proof.
  unfold zeros. simpl. f_equal. generalize 1%nat, 0%nat. induction k as [|k IH]; intros a b; [done|]. simpl. by rewrite (IH (S a) (S b)).
Qed.
#[local] Arguments zeros : simpl never.
Lemma zeros_length k d : String.length (zeros k d) = (k + String.length d)%nat.
Proof. induction k as [|k IH]; [done|]. rewrite zeros_S. change (S (String.length (zeros k d)) = S (k + String.length d)). by rewrite IH. Qed.
Lemma zeros_digits k d : string_forallb is_digit d = true -> string_forallb is_digit (zeros k d) = true.
Proof. intros Hd. induction k as [|k IH]; [done|]. rewrite zeros_S. exact IH. Qed.
Lemma zeros_value k d : parse_uint (zeros k d) 0 = parse_uint d 0.
Proof. induction k as [|k IH]; [done|]. rewrite zeros_S. exact IH. Qed.
(** The text of a number with leading zeros: its length, its digits and its value. *)
Lemma append_int_spec n z :
  (0 < n <= 19)%nat -> 0 <= z < 10 ^ Z.of_nat n ->
  String.length (append_int n z) = n /\ string_forallb is_digit (append_int n z) = true /\ parse_uint (append_int n z) 0 = PNum z.
Proof.
  intros Hn Hz. assert (Hu : 10 ^ Z.of_nat n <= 10 ^ 19) by (apply Z.pow_le_mono_r; lia).
  assert (Hmax : 10 ^ 19 <= uint64_max /\ 10 ^ 19 <= 10 ^ Z.of_nat 40) by (vm_compute; split; discriminate).
  assert (Ha : append_int n z = zeros (n - String.length (digits 40 z "")) (digits 40 z "")).
  { unfold append_int. rewrite Z.abs_eq by lia. unfold FormatInt. rewrite (proj2 (Z.ltb_ge z 0)) by lia. reflexivity. }
  rewrite Ha.
  pose proof (digits_length n 40 z "" ltac:(lia) Hz) as Hl. change (String.length "") with 0%nat in Hl. rewrite Nat.add_0_r in Hl. split_and!.
  - rewrite zeros_length. lia.
  - apply zeros_digits, digits_forallb; [done|lia|done].
  - rewrite zeros_value, parse_digits by lia. done.
Qed.
Lemma fixed_append n z rest :
  (0 < n <= 19)%nat -> 0 <= z < 10 ^ Z.of_nat n -> fixed n (append_int n z +:+ rest) = Some (z, rest).
Proof.
  intros Hn Hz. destruct (append_int_spec n z Hn Hz) as (Hl & Hd & Hv). unfold fixed.
  set (p := append_int n z) in *. clearbody p. subst n. rewrite substring_exact, Nat.eqb_refl, Hd, Hv, drop_exact. done.
Qed.

(** ** Fractions *)
Lemma parse_uint_app a b n : parse_uint (a +:+ b) n = match parse_uint a n with PNum v => parse_uint b v | x => x end.
Proof.
  revert n. induction a as [|c a IH]; intros n; [done|]. change (String c a +:+ b) with (String c (a +:+ b)).
  cbn [parse_uint]. destruct (is_digit c); [|done]. destruct (uint64_max <? _); [done|apply IH].
Qed.
Lemma parse_uint_zeros k v z : parse_uint (zeros k "") v = PNum z -> z = v * 10 ^ Z.of_nat k.
Proof.
  revert v. induction k as [|k IH]; intros v; [intros [= <-]; lia|]. rewrite zeros_S.
  change ("0" +:+ zeros k "") with (String (Ascii.ascii_of_nat 48) (zeros k "")). cbn [parse_uint].
  change (is_digit (Ascii.ascii_of_nat 48)) with true. cbv iota zeta. destruct (uint64_max <? _); [done|].
  intros ->%IH. change (byte_of (Ascii.ascii_of_nat 48)) with 48. rewrite Nat2Z.inj_succ, Z.pow_succ_r by lia. lia.
Qed.
Lemma trim_zeros_spec p : exists k, p = trim_zeros p +:+ zeros k "".
Proof.
  induction p as [|c p [k IH]]; [by exists 0%nat|]. cbn [trim_zeros]. destruct (trim_zeros p) as [|x t] eqn:Et.
  - destruct (byte_of c =? 48) eqn:Ec.
    + exists (S k). rewrite zeros_S. bools. change 48 with (byte_of (Ascii.ascii_of_nat 48)) in Ec. apply byte_of_inj in Ec as ->.
      by rewrite IH at 1.
    + exists k. by rewrite IH at 1.
  - exists k. by rewrite IH at 1.
Qed.
Lemma span_digits_app t rest :
  string_forallb is_digit t = true -> (forall c r, rest = String c r -> is_digit c = false) -> span_digits (t +:+ rest) = (t, rest).
Proof.
  intros Ht Hr. induction t as [|c t IH].
  - destruct rest as [|c r]; [done|]. change ("" +:+ String c r) with (String c r). cbn [span_digits]. by rewrite (Hr c r).
  - cbn [string_forallb] in Ht. apply andb_true_iff in Ht as [Hc Ht]. change (String c t +:+ rest) with (String c (t +:+ rest)).
    cbn [span_digits]. by rewrite Hc, (IH Ht).
Qed.
Lemma str_length_add a b : String.length (a +:+ b) = (String.length a + String.length b)%nat.
Proof. induction a as [|c a IH]; [done|]. change (S (String.length (a +:+ b)) = S (String.length a + String.length b)). by rewrite IH. Qed.
Lemma forallb_app_l f a b : string_forallb f (a +:+ b) = true -> string_forallb f a = true.
Proof.
  induction a as [|c a IH]; [done|]. change (String c a +:+ b) with (String c (a +:+ b)). cbn [string_forallb].
  intros [Hc Ha]%andb_true_iff. by rewrite Hc, IH.
Qed.
Lemma substring_all p n : (String.length p <= n)%nat -> String.substring 0 n p = p.
Proof.
  revert n. induction p as [|c p IH]; intros n Hn; [by destruct n|]. destruct n as [|n]; simpl in *; [lia|]. rewrite IH by lia. done.
Qed.
(** The nanoseconds are read back whatever zeros were cut. *)
Lemma fraction_back ns :
  0 <= ns < Second ->
  let f := trim_zeros (append_int 9 ns) in fraction ((if f =s "" then "" else "." +:+ f) +:+ "Z") = (ns, "Z").
Proof.
  intros Hns f. destruct (append_int_spec 9 ns) as (Hl & Hd & Hv); [lia|exact Hns|].
  destruct (trim_zeros_spec (append_int 9 ns)) as [k Hk]. fold f in Hk. rewrite Hk in Hd, Hl, Hv.
  rewrite parse_uint_app in Hv. rewrite str_length_add, zeros_length in Hl. simpl in Hl.
  destruct (parse_uint f 0) as [| |v] eqn:Hf; [done..|]. apply parse_uint_zeros in Hv.
  destruct (f =s "") eqn:Ef; bools.
  - rewrite Ef in Hf. injection Hf as <-. rewrite Hv. done.
  - change (("." +:+ f) +:+ "Z") with (String (Ascii.ascii_of_nat 46) (f +:+ "Z")). unfold fraction.
    rewrite (span_digits_app f "Z") by (first [by eapply forallb_app_l | by intros c r [= <- <-]]).
    apply str_eqb_neq in Ef. rewrite Ef. change (byte_of (Ascii.ascii_of_nat 46) =? 46) with true. cbn [orb andb negb].
    rewrite substring_all by lia. rewrite Hf, Hv. f_equal. f_equal. f_equal. lia.
Qed.

(** ** Instants come back from their text *)
Definition year_of (t : Z) : Z := (civil (t / Second / Day)).1.1.
Lemma literals s : literal 45 ("-" +:+ s) = Some s /\ literal 84 ("T" +:+ s) = Some s /\ literal 58 (":" +:+ s) = Some s.
Proof. done. Qed.
Lemma flexible_two z rest : 0 <= z < 100 -> flexible (append_int 2 z +:+ rest) = Some (z, rest).
Proof. intros Hz. unfold flexible. by rewrite fixed_append by (lia || exact Hz). Qed.
(** Reads one number and the separator after it. *)
Ltac read H :=
  rewrite H by (simpl; lia); cbn [mbind option_bind];
  rewrite ?(proj1 (literals _)), ?(proj1 (proj2 (literals _))), ?(proj2 (proj2 (literals _))); cbn [mbind option_bind].
(** An instant of the years 0 to 9999 is read back from its text exactly, to the nanosecond. *)
Lemma RFC3339Nano_back t : 0 <= year_of t <= 9999 -> Parse_RFC3339 (Format_RFC3339Nano t) = Some t.
Proof.
  unfold year_of, Format_RFC3339Nano. destruct (civil (t / Second / Day)) as [[y m] d] eqn:Hc. cbn [fst]. intros Hy.
  destruct (civil_back _ _ _ _ Hc) as (Hback & Hm & Hd).
  assert (Hday : d <= 31) by (unfold daysIn in Hd; repeat case_match; lia).
  pose proof (Z.mod_pos_bound (t / Second) Day ltac:(done)) as Hs. set (s := (t / Second) mod Day) in *.
  assert (Hdiv : t / Second = t / Second / Day * Day + s) by (unfold s; pose proof (Z.div_mod (t / Second) Day); lia).
  assert (Hns : 0 <= t mod Second < Second) by (by apply Z.mod_pos_bound).
  assert (Ht : t = t / Second * Second + t mod Second) by (pose proof (Z.div_mod t Second); lia).
  assert (Hh : 0 <= s / 3600 <= 23 /\ 0 <= s / 60 mod 60 <= 59 /\ 0 <= s mod 60 <= 59 /\ s = s / 3600 * 3600 + s / 60 mod 60 * 60 + s mod 60)
    by (unfold Day in Hs; Z.to_euclidean_division_equations; lia).
  destruct Hh as (Hh & Hmi & Hsec & Hsum).
  pose proof (fraction_back (t mod Second) Hns) as Hf. set (f := trim_zeros _) in *. cbv zeta in Hf.
  unfold Parse_RFC3339. read (fixed_append 4 y). read (fixed_append 2 m). read (fixed_append 2 d). read (flexible_two (s / 3600)).
  read (fixed_append 2 (s / 60 mod 60)). read (fixed_append 2 (s mod 60)). rewrite Hf.
  change (zone "Z") with (Some 0). cbn [mbind option_bind].
  replace ((m <? 1) || (12 <? m) || (23 <? s / 3600) || (59 <? s / 60 mod 60) || (59 <? s mod 60) || (d <? 1) || (daysIn m y <? d)) with false
    by (symmetry; rewrite !orb_false_iff; split_and!; apply Z.ltb_ge; lia).
  f_equal. rewrite Hback. transitivity (t / Second * Second + t mod Second); [|lia]. f_equal. f_equal. lia.
Qed.
Example RFC3339Nano_now : let t := unix_epoch + 1709251199120000000 in Parse_RFC3339 (Format_RFC3339Nano t) = Some t.
Proof. intros t. apply RFC3339Nano_back. vm_compute. split; discriminate. Qed.
