(* ===== verification/HttpOps.v ===== *)
(** The routes of secrets and webhooks, installed certificates and deployment targets,
    backups and operations: internal/httpapi/secrets.go, deploydeps.go, backup.go and
    ops.go, with the reading of a backup document (DecodeBounded and depth of
    internal/transfer/backup.go).  The JSON schema of a backup and the decoding into its
    types are the class [BackupCodec]. *)

From S2P Require Import Prelude Rows Memstore MemstoreInv MemstoreList Paging Authz GoJson GoUrl AuditLog Csr Sealed World Ca.
From S2P Require Import IssueBase Domains Providers Issuers Acme Lifecycle CertList Enroll EnrollJobs Crl Secrets Backup Stream Hub Lists Webhook Deploy.
From S2P Require Import Expiring Statistics Http HttpCerts GoTime.

Definition with_caller {B} (ctx : option CallerIdentity) (h : CallerIdentity -> Route B) : Route B :=
  fun w => match Caller ctx with inl id => h id w | inr e => (Fail e, w) end.
(** [cursor, _ = time.Parse(time.RFC3339Nano, c)]: the zero time when it is no date. *)
Definition time_cursor (c : string) : Z := default 0 (Parse_RFC3339 c).

(** ** Secrets and webhooks *)
Section secrets.
Context `{Env}.
Definition http_ListSecrets `{ListParams} (ctx : option CallerIdentity) (q : Query) : Route (ListBody SecretView) :=
  with_subjects ctx (fun subj => serveList q SecretList secretError None (secret_Page subj)).
Definition http_CreateSecret (ctx : option CallerIdentity) (body : SecretInput + Error) : Route SecretView :=
  with_subjects ctx (fun subj => with_body body (fun inp => respond secretError 201 RJSON (secret_Create subj inp))).
Definition http_UpdateSecret (ctx : option CallerIdentity) (id : string) (body : SecretInput + Error) : Route SecretView :=
  with_subjects ctx (fun subj => with_body body (fun inp => respond secretError 200 RJSON (secret_Update subj id inp))).
Definition http_RotateSecret (ctx : option CallerIdentity) (id : string) (body : Settings + Error) : Route SecretView :=
  with_subjects ctx (fun subj => with_body body (fun value => respond secretError 200 RJSON (secret_Rotate subj id value))).
Definition http_DeleteSecret (ctx : option CallerIdentity) (id : string) : Route unit :=
  with_subjects ctx (fun subj => respond secretError 204 no_content (secret_Delete subj id)).
Definition http_ListWebhooks `{ListParams} (ctx : option CallerIdentity) (q : Query) : Route (ListBody WebhookView) :=
  with_subjects ctx (fun subj => serveList q WebhookList webhookError None (webhook_Page subj)).
Definition http_CreateWebhook (ctx : option CallerIdentity) (body : WebhookInput + Error) : Route WebhookView :=
  with_subjects ctx (fun subj => with_body body (fun inp => respond webhookError 201 RJSON (webhook_Create subj inp))).
Definition http_DeleteWebhook (ctx : option CallerIdentity) (id : string) : Route unit :=
  with_subjects ctx (fun subj => respond webhookError 204 no_content (webhook_Delete subj id)).

(** ** Installed certificates and deployment targets *)
Definition http_ListInstalled (now : Z) (ctx : option CallerIdentity) (q : Query) : Route (list InstalledView) :=
  with_subjects ctx (fun subj =>
    let cursor := if query_Get q "cursor" =s "" then 0 else time_cursor (query_Get q "cursor") in
    respond deployError 200 RJSON (ListInstalled now subj (query_Get q "client_id") cursor (limitParam q))).
Definition http_ListTargets (ctx : option CallerIdentity) : Route (list TargetView) :=
  with_subjects ctx (fun subj => respond deployError 200 RJSON (ListTargets subj)).
Definition http_CreateTarget (now : Z) (ctx : option CallerIdentity) (body : TargetInput + Error) : Route TargetView :=
  with_subjects ctx (fun subj => with_body body (fun inp => respond deployError 201 RJSON (CreateTarget now subj inp))).
Definition http_Deploy (now : Z) (ctx : option CallerIdentity) (id : string) (targetID : string + Error) : Route TargetView :=
  with_subjects ctx (fun subj => with_body targetID (fun tid => respond deployError 200 RJSON (Deploy now subj id tid))).
End secrets.

(** ** Backups *)
Definition transfer_ErrTooLarge : err := Sentinel "transfer" "ErrTooLarge".
Definition MaxBytes : Z := Z.shiftl 16 20.
Definition MaxDepth : Z := 12.
Definition MaxItems : Z := 250000.
(** [depth]: the nesting of a JSON text, without building its tree. *)
Record Scan := mkScan { sc_d : Z; sc_max : Z; sc_str : bool; sc_esc : bool }.
Definition scan_byte (s : Scan) (c : Ascii.ascii) : Scan :=
  let b := byte_of c in
  if sc_esc s then mkScan (sc_d s) (sc_max s) (sc_str s) false
  else if sc_str s && (b =? 92) then mkScan (sc_d s) (sc_max s) (sc_str s) true
  else if b =? 34 then mkScan (sc_d s) (sc_max s) (negb (sc_str s)) false
  else if sc_str s then s
  else if (b =? 123) || (b =? 91) then mkScan (sc_d s + 1) (if sc_max s <? sc_d s + 1 then sc_d s + 1 else sc_max s) false false
  else if (b =? 125) || (b =? 93) then mkScan (sc_d s - 1) (sc_max s) false false
  else s.
Fixpoint scan (s : Scan) (raw : string) : Scan := match raw with String c raw => scan (scan_byte s c) raw | EmptyString => s end.
Definition depth (raw : string) : Z := sc_max (scan (mkScan 0 0 false false) raw).
Class BackupCodec := {
  schema_problem : any -> option string;
  decode_document : string -> Document + string;
}.
Definition DecodeBounded `{BackupCodec} (raw : string) : res Document :=
  if MaxBytes <? Z.of_nat (String.length raw) then Err transfer_ErrTooLarge
  else if MaxDepth <? depth raw then Err (Wrapf "nesting too deep" transfer_ErrInvalid)
  else match json_unmarshal raw with
  | None => Err (Wrapf "not JSON" transfer_ErrInvalid)
  | Some generic =>
    match schema_problem generic with
    | Some e => Err (Wrapf (hd "" (split_byte 10 e)) transfer_ErrInvalid)
    | None =>
      match decode_document raw with
      | inr e => Err (Wrapf e transfer_ErrInvalid)
      | inl doc =>
        if MaxItems <? Z.of_nat (length (doc_Issuers doc)) + Z.of_nat (length (doc_Certificates doc))
                       + Z.of_nat (length (doc_Permissions doc)) + Z.of_nat (length (doc_Secrets doc))
        then Err (Wrapf "too many items" transfer_ErrInvalid)
        else if forallb (fun di => ValidIssuerTrustDomain (bi_Type di) (bi_TrustDomain di)) (doc_Issuers doc) then Ok doc
        else Err (Wrapf "trust_domain" transfer_ErrInvalid)
      end
    end
  end.
Section backup.
Context `{Env} `{BackupCodec}.
Definition http_Export (now : Z) (ctx : option CallerIdentity) (includeCredentials : bool + Error) : Route Document :=
  with_subjects ctx (fun subj => respond backupError 200 RJSON (Export now subj (lenient false includeCredentials))).
(** The bytes come through a reader of at most [maxBytes], or [MaxBytes] when none is set. *)
Definition http_BackupImport (maxBytes : Z) (ctx : option CallerIdentity) (body : string) (q : Query) : Route Report :=
  with_subjects ctx (fun subj w =>
    let limit := if maxBytes <=? 0 then MaxBytes else maxBytes in
    if limit <? Z.of_nat (String.length body) then (failDetail (HError ErrBodyTooLarge), w)
    else match DecodeBounded body with
         | Err e => (failDetail (backupError e), w)
         | Ok doc => let mode := if query_Get q "mode" =s "" then "skip" else query_Get q "mode" in
                     respond backupError 200 RJSON (Import subj doc mode) w
         end).
End backup.

(** ** Operations *)
(** [auditWindow]: the window, and the parameter at fault. *)
Definition auditWindow (fromQ toQ : string) (now : Z) : Z * Z * string :=
  match (if toQ =s "" then Some now else Parse_RFC3339 toQ) with
  | None => (0, now, "to")
  | Some to =>
    match (if fromQ =s "" then Some (to + - AuditWindow) else Parse_RFC3339 fromQ) with
    | None => (to + - AuditWindow, to, "from")
    | Some from => if After from to || (MaxAuditSpan <? to - from) then (from, to, "from") else (from, to, "")
    end
  end.
Inductive RawJSON := Raw (json : string) | RawText (s : string).
Definition jsonRaw (b : string) : RawJSON := if json_Valid b then Raw b else RawText b.
(** [auditView]: empty fields are left out. *)
Record AuditJSON := mkAuditJSON {
  aj_id : string; aj_ts : Z; aj_event_type : string; aj_actor_kind : string; aj_actor_id : string; aj_subject_kind : string;
  aj_subject_id : string; aj_outcome : string; aj_subject_name : option string; aj_reason : option string;
  aj_correlation_id : option string; aj_details : option RawJSON;
}.
Definition nonempty (s : string) : option string := if s =s "" then None else Some s.
Definition auditView (r : AuditRow) : AuditJSON :=
  mkAuditJSON (FormatInt (aud_ID r)) (aud_TS r) (aud_EventType r) (aud_ActorKind r) (aud_ActorID r) (aud_SubjectKind r)
    (aud_SubjectID r) (aud_Outcome r) (nonempty (aud_SubjectName r)) (nonempty (aud_Reason r)) (nonempty (aud_CorrelationID r))
    (jsonRaw <$> nonempty (default "" (aud_Details r))).
Section ops.
Context `{Env} `{CrlSigner} `{ListParams}.
Definition http_Stats (svc : StatsService) (now : Z) (ctx : option CallerIdentity) : Route StatsView :=
  with_caller ctx (fun id => respond domainError 200 RJSON (reading (stats_Tenant svc (idn_TenantID id) now))).
(** The old style of the list: the rows before the cursor, and the instant of the last as the next cursor. *)
Definition audit_filter (q : Query) (from to : Z) : AuditFilter :=
  mkAuditFilter (query_Get q "event_type") (query_Get q "actor_id") from to
    (if query_Get q "cursor" =s "" then 0 else time_cursor (query_Get q "cursor")) (limitParam q).
Definition audit_next (rows : list AuditRow) : string :=
  match list.last rows with Some r => Format_RFC3339Nano (aud_TS r) | None => "" end.
Definition audit_legacy (tid : string) (q : Query) (from to : Z) : M (list AuditJSON * string) :=
  let* rows := reading (Mem_QueryAudit tid (audit_filter q from to)) in st_ret (auditView <$> rows, audit_next rows).
Definition http_Audit (now : Z) (ctx : option CallerIdentity) (q : Query) : Route (ListBody AuditJSON) :=
  with_caller ctx (fun id =>
    let '(from, to, fault) := auditWindow (query_Get q "from") (query_Get q "to") now in
    if fault <>s "" then fun w => (WriteDetail ErrValidation [("param", AStr fault)], w)
    else
      serveList q AuditList domainError (Some (audit_legacy (idn_TenantID id) q from to))
        (fun req =>
          let* (rows, total, applied) := reading (Mem_PageAudit (idn_TenantID id)
              (mkAuditPageFilter (query_Get q "event_type") (query_Get q "actor_id") from to) req) in
          st_ret (NewPage (auditView <$> rows) total applied))).
Definition http_TrustBundle (ctx : option CallerIdentity) (q : Query) : Route string :=
  with_caller ctx (fun id => respond domainError 200 RJSON (TrustBundle (idn_TenantID id) (query_Get q "trust_domain"))).
(** The public route: the roots of the mesh's tenant. *)
Definition http_BootstrapBundle (meshTenantID : string) (q : Query) : Route string :=
  respond domainError 200 RJSON (TrustBundle meshTenantID (query_Get q "trust_domain")).
Definition http_Revocations (now : Z) (ctx : option CallerIdentity) (q : Query) : Route (list RevocationView) :=
  with_caller ctx (fun id =>
    let cursor := if query_Get q "cursor" =s "" then 0 else time_cursor (query_Get q "cursor") in
    respond domainError 200 RJSON (reading (Feed now (idn_TenantID id) cursor (limitParam q)))).
Definition http_CRL (now later : Z) (ctx : option CallerIdentity) (q : Query) : Route string :=
  with_caller ctx (fun id => respond domainError 200 RJSON (CRL now later (idn_TenantID id) (query_Get q "trust_domain"))).
End ops.

(** ** Uploads *)
(** Whatever limit is configured, a document over 16 MiB is refused as too large and
    changes nothing. *)
Theorem import_too_large `{Env} `{BackupCodec} maxBytes ctx s body q w :
  subjects ctx = inl s -> MaxBytes < Z.of_nat (String.length body) ->
  http_BackupImport maxBytes ctx body q w = (WriteError ErrBodyTooLarge, w).
Proof.
  intros Hs Hl. unfold http_BackupImport, with_subjects. rewrite Hs. destruct (_ <? Z.of_nat _); [done|].
  unfold DecodeBounded. by rewrite (proj2 (Z.ltb_lt _ _) Hl).
Qed.

(** ** The window of the audit trail *)
(** The window the route reads is bounded: it is never empty or wider than the
    maximum, it ends at the instant given or now, and it starts at the instant given or
    a week before its end. *)
Theorem auditWindow_bounds fromQ toQ now from to :
  auditWindow fromQ toQ now = (from, to, "") ->
  from <= to /\ to - from <= MaxAuditSpan
  /\ (if toQ =s "" then to = now else Parse_RFC3339 toQ = Some to)
  /\ (if fromQ =s "" then from = to - AuditWindow else Parse_RFC3339 fromQ = Some from).
Proof.
  unfold auditWindow. destruct (toQ =s ""), (fromQ =s "").
  - destruct (_ || _) eqn:E; [done|]. intros [= <- <-]. unfold After in E. bools. split_and!; lia || done.
  - destruct (Parse_RFC3339 fromQ) as [f|]; [|done]. destruct (_ || _) eqn:E; [done|]. intros [= <- <-]. unfold After in E. bools.
    split_and!; lia || done.
  - destruct (Parse_RFC3339 toQ) as [t|]; [|done]. destruct (_ || _) eqn:E; [done|]. intros [= <- <-]. unfold After in E. bools.
    split_and!; lia || done.
  - destruct (Parse_RFC3339 toQ) as [t|]; [|done]. destruct (Parse_RFC3339 fromQ) as [f|]; [|done].
    destruct (_ || _) eqn:E; [done|]. intros [= <- <-]. unfold After in E. bools. split_and!; lia || done.
Qed.

(** ** Following the cursor of the audit trail *)
Lemma nodup_key {A B} (g : A -> B) l x y : NoDup (g <$> l) -> x ∈ l -> y ∈ l -> g x = g y -> x = y.
Proof.
  intros Hn [i Hi]%list_elem_of_lookup [j Hj]%list_elem_of_lookup He.
  assert (i = j) as -> by (eapply (NoDup_lookup _ _ _ (g x) Hn); rewrite list_lookup_fmap, ?Hi, ?Hj; simpl; congruence). congruence.
Qed.
Section audit_cursor.
Context `{Env} (tid : string) (m : Mem) (from to : Z).
Definition audit_shown (r : AuditRow) : AuditRow := cpAudit r <| aud_SubjectName := subjectName m tid r |>.
Definition newer (a b : AuditRow) : bool := After (aud_TS a) (aud_TS b).
(** Every row the filter admits, newest first. *)
Definition audit_all (f : AuditFilter) : list AuditRow :=
  sort_slice newer (audit_shown <$> filter (fun r => audit_selected tid f r = true) (m_Audit m)).
Definition tenant_rows : list AuditRow := filter (fun r => aud_TenantID r = tid) (m_Audit m).
Lemma audit_all_rows f :
  audit_all f = sort_slice newer (filter (fun r => audit_selected tid f r = true) (audit_shown <$> tenant_rows)).
Proof.
  unfold audit_all, tenant_rows. f_equal. induction (m_Audit m) as [|r l IH]; [done|]. rewrite !filter_cons.
  assert (Hs : audit_selected tid f (audit_shown r) = audit_selected tid f r) by done.
  destruct (decide (aud_TenantID r = tid)) as [Ht|Ht].
  - rewrite fmap_cons, filter_cons, Hs. destruct (decide _); [|exact IH]. rewrite fmap_cons. by rewrite IH.
  - rewrite decide_False; [exact IH|]. unfold audit_selected. apply str_eqb_neq in Ht. by rewrite Ht.
Qed.
(** The filter of the next request. *)
Definition before (f : AuditFilter) (ts : Z) : AuditFilter :=
  mkAuditFilter (adf_EventType f) (adf_ActorID f) (adf_From f) (adf_To f) ts (adf_Limit f).
Lemma audit_next_rows f pre r post :
  NoDup (aud_TS <$> tenant_rows) -> aud_TS r <> 0 -> audit_all f = pre ++ r :: post -> audit_all (before f (aud_TS r)) = post.
Proof.
  intros Hnd Hz Hall. assert (Hin : r ∈ pre ++ r :: post) by set_solver. rewrite <- Hall, audit_all_rows in Hin.
  apply elem_of_sort_slice, list_elem_of_filter in Hin as [Hr _]. rewrite audit_all_rows in Hall |- *.
  eapply (sorted_next newer); [| | | | |exact Hall].
  - intros x y. unfold newer, After. intros ?. bools. lia.
  - intros x y z. unfold leq, newer, After. intros ??. bools. lia.
  - apply (NoDup_fmap_1 aud_TS). by rewrite <- list_fmap_compose.
  - intros x y Hx Hy Hxy Hyx. apply (nodup_key aud_TS (audit_shown <$> tenant_rows)); [by rewrite <- list_fmap_compose|done..|].
    unfold leq, newer, After in *. bools. lia.
  - intros x Hx. unfold audit_selected, before, newer, After, Before in *. simpl in *. rewrite !andb_true_iff in *.
    assert (HZ : IsZero (aud_TS r) = false) by (by apply Z.eqb_neq). rewrite HZ. simpl. rewrite !orb_true_iff in *. rewrite !Z.ltb_lt in *.
    destruct_and!. split; [intros ?; destruct_and!; split_and!; try done|intros [? ?]; destruct_and!; split_and!; done].
    match goal with Hc : IsZero _ = true \/ aud_TS r < _ |- _ => destruct Hc as [Hc|Hc]; [by left|right; lia] end.
Qed.
(** A client that follows the cursor of the audit trail sees consecutive pages: when
    no two events of the tenant are of the same instant, the page after a page that is
    not empty is exactly the next piece of the events the filter admits, newest first,
    in the same window; the text of the cursor loses nothing. *)
Theorem audit_pages_follow q q' w items next :
  wd_mem w = m -> m_Fail m !! "QueryAudit" = None -> NoDup (aud_TS <$> tenant_rows) ->
  (forall r, r ∈ tenant_rows -> 0 <= year_of (aud_TS r) <= 9999 /\ aud_TS r <> 0) ->
  (forall k, k <> "cursor" -> query_Get q' k = query_Get q k) -> query_Get q' "cursor" = next ->
  audit_legacy tid q from to w = (Ok (items, next), w) -> items <> [] ->
  let all := audit_all (audit_filter q from to) in
  let n := Z.to_nat (AuditLimit (limitParam q)) in
  items = auditView <$> take n all
  /\ audit_legacy tid q' from to w = (Ok (auditView <$> take n (drop n all), audit_next (take n (drop n all))), w).
Proof.
  intros Hw Hf Hnd Hdated Hq Hcur Hrun Hne all n.
  assert (Hquery : forall f, Mem_QueryAudit tid f (wd_mem w) = Ok (take (Z.to_nat (AuditLimit (adf_Limit f))) (audit_all f)))
    by (intros f; unfold Mem_QueryAudit, fail_read; rewrite Hw, Hf; done).
  unfold audit_legacy, st_bind, reading, st_ret in *. rewrite Hquery in *.
  change (adf_Limit (audit_filter q from to)) with (limitParam q) in Hrun. fold n all in Hrun.
  injection Hrun as <- Hnext. split; [done|].
  destruct (exists_last (l := take n all)) as (pre & r & Htake); [intros E; apply Hne; by rewrite E|].
  unfold audit_next in Hnext. rewrite Htake, list.last_snoc in Hnext.
  assert (Hr : r ∈ audit_shown <$> tenant_rows).
  { assert (Hin : r ∈ all) by (rewrite <- (take_drop n all), Htake; set_solver). unfold all in Hin. rewrite audit_all_rows in Hin.
    by apply elem_of_sort_slice, list_elem_of_filter in Hin as [_ ?]. }
  apply list_elem_of_fmap in Hr as (x & -> & Hx). destruct (Hdated x Hx) as [Hy Hz].
  change (aud_TS (audit_shown x)) with (aud_TS x) in Hnext.
  assert (Hfil : audit_filter q' from to = before (audit_filter q from to) (aud_TS x)).
  { unfold audit_filter, before, limitParam. simpl. rewrite !Hq by done. rewrite Hcur, <- Hnext. f_equal; [|by rewrite Hq].
    unfold time_cursor. pose proof (RFC3339Nano_back _ Hy) as Hb. rewrite Hb.
    destruct (Format_RFC3339Nano (aud_TS x) =s "") eqn:E; [|done]. bools. exfalso. rewrite E in Hb. done. }
  assert (Hall : audit_all (audit_filter q' from to) = drop n all); [|by rewrite Hall, Hfil].
  rewrite Hfil. apply (audit_next_rows _ pre (audit_shown x)); [done|done|].
  fold all. rewrite <- (take_drop n all) at 1. rewrite Htake. by rewrite <- app_assoc.
Qed.
End audit_cursor.

(** ** Runs *)
Module HttpOpsSample.
Import Toy.
#[local] Existing Instance toy_env.
Definition event (id ts : Z) : AuditRow := mkAuditRow id ts "t1" "certificate_issued" "user" "u1" "certificate" "c1" "" "ok" "" "" None.
Definition trail (l : list AuditRow) : World := mkWorld ((Mem_New 5) <| m_Audit := l |>) [] 0 0.
Definition at_ (n : Z) : Z := unix_epoch + n.
Definition distinct : World := trail [event 1 (at_ 10); event 2 (at_ 20); event 3 (at_ 30)].
Definition first_page : Query := [("limit", "2")].
Definition second_page : Query := [("limit", "2"); ("cursor", "1970-01-01T00:00:00.00000002Z")].
Lemma audit_pages_follow_witness :
  audit_legacy "t1" second_page 0 (at_ 100) distinct = (Ok ([auditView (event 1 (at_ 10))], "1970-01-01T00:00:00.00000001Z"), distinct).
Proof.
  assert (Hrun : audit_legacy "t1" first_page 0 (at_ 100) distinct
    = (Ok (auditView <$> [event 3 (at_ 30); event 2 (at_ 20)], "1970-01-01T00:00:00.00000002Z"), distinct)) by (vm_compute; reflexivity).
  refine (proj2 (audit_pages_follow "t1" (wd_mem distinct) 0 (at_ 100) first_page second_page distinct _ _ eq_refl eq_refl _ _ _ _ Hrun _)).
  - apply (bool_decide_eq_true_1 _). vm_compute. reflexivity.
  - intros r Hr. assert (Hl : r ∈ [event 1 (at_ 10); event 2 (at_ 20); event 3 (at_ 30)]) by exact Hr.
    rewrite !elem_of_cons, elem_of_nil in Hl. destruct Hl as [->|[->|[->|[]]]]; vm_compute; split_and!; discriminate.
  - intros k Hk. unfold query_Get, second_page, first_page. cbn [list_find]. case_decide; [done|]. simpl. by rewrite decide_False by congruence.
  - reflexivity.
  - discriminate.
Defined.
(** Of two events of one instant the second is on no page when the page ends between them. *)
Example tie_lost :
  let w := trail [event 1 (at_ 10); event 2 (at_ 20); event 3 (at_ 20)] in
  audit_legacy "t1" [("limit", "1")] 0 (at_ 100) w = (Ok ([auditView (event 2 (at_ 20))], "1970-01-01T00:00:00.00000002Z"), w)
  /\ audit_legacy "t1" [("limit", "1"); ("cursor", "1970-01-01T00:00:00.00000002Z")] 0 (at_ 100) w
     = (Ok ([auditView (event 1 (at_ 10))], "1970-01-01T00:00:00.00000001Z"), w).
Proof. split; vm_compute; reflexivity. Qed.
Example week : auditWindow "" "2024-03-08T00:00:00Z" 0 = (days_of 2024 3 1 * Day * Second, days_of 2024 3 8 * Day * Second, "").
Proof. vm_compute. reflexivity. Qed.
Example too_wide : (auditWindow "2023-01-01T00:00:00Z" "2024-03-08T00:00:00Z" 0).2 = "from".
Proof. vm_compute. reflexivity. Qed.
Definition braces : string := String quote (String (chr 92) (String quote (String (chr 123) (str1 quote)))).
Example depth_strings : depth ("[" +:+ braces +:+ ",{}]") = 2.
Proof. reflexivity. Qed.
End HttpOpsSample.
