(* ===== verification/Config.v ===== *)
(** The configuration of the service: internal/config/config.go, and what
    internal/app/wire.go makes of it.  The framework's own section and its checks are the
    class [Framework]; the file and its YAML are left out. *)

From S2P Require Import Prelude Rows Memstore GoJson GoUrl Csr World IssueBase Domains Enroll Stream Hub Renew Http.
From Stdlib Require Import SpecFloat.

(** ** The sections *)
Record DB := mkDB { db_DSN : string; db_MigrateDSN : string; db_MaxConns : Z }.
Record Valkey := mkValkey {
  vk_Addresses : list string; vk_Username : string; vk_Password : string; vk_AllowPlaintext : bool; vk_CAFile : string;
}.
Record KEK := mkKEK { kek_Source : string; kek_Path : string; kek_Env : string }.
Record RenewalSection := mkRenewalSection {
  rn_IntervalSeconds : Z; rn_LeaseSeconds : Z; rn_Workers : Z; rn_ShortLivedFraction : f64; rn_LongLivedDays : Z;
}.
Record Gateway := mkGateway { gw_Service : string; gw_Issuer : string }.
Record TaskScheduler := mkTaskScheduler { ts_Enabled : bool; ts_Service : string }.
Record Limits := mkLimits {
  lm_BackupMaxBytes : Z; lm_CSRMaxBytes : Z; lm_WebhookMaxBytes : Z; lm_StreamsPerUser : Z; lm_StreamsPerTenant : Z;
  lm_ReplayWindowSeconds : Z;
}.
(** The framework's section: its defaults, its checks and the values this service reads. *)
Class Framework (F : Type) := {
  fw_Default : F;
  fw_Validate : F -> res unit;
  fw_IsProduction : F -> bool;
  fw_MaxRequestBytes : F -> Z;
  fw_Warnings : F -> list string;
}.
Record Config (F : Type) := mkConfig {
  cf_Config : F; cf_DB : DB; cf_Valkey : Valkey; cf_KEK : KEK; cf_Renewal : RenewalSection; cf_Gateway : Gateway;
  cf_AllowPlaintextDNS : bool; cf_DNSService : string; cf_Limits : Limits; cf_TaskScheduler : TaskScheduler;
  cf_NotificationService : string; cf_EnrollListener : string;
}.
Arguments mkConfig {F} _ _ _ _ _ _ _ _ _ _ _ _.
Arguments cf_Config {F} _.
Arguments cf_DB {F} _.
Arguments cf_Valkey {F} _.
Arguments cf_KEK {F} _.
Arguments cf_Renewal {F} _.
Arguments cf_Gateway {F} _.
Arguments cf_AllowPlaintextDNS {F} _.
Arguments cf_DNSService {F} _.
Arguments cf_Limits {F} _.
Arguments cf_TaskScheduler {F} _.
Arguments cf_NotificationService {F} _.
Definition Default `{Framework F} : Config F :=
  mkConfig fw_Default (mkDB "" "" 16) (mkValkey [] "" "" false "") (mkKEK "file" "" "") (mkRenewalSection 15 60 4 half 30)
    (mkGateway "gateway" "") false "" (mkLimits (Z.shiftl 16 20) (Z.shiftl 16 10) (Z.shiftl 64 10) 5 2000 300)
    (mkTaskScheduler false "scheduler") "notification" "".

(** ** Checks *)
(** [serviceNameRE]: 1 to 63 lower-case letters, digits and inner hyphens. *)
Definition lower_alnum (c : Ascii.ascii) : bool := between 97 122 c || between 48 57 c.
Definition serviceName (s : string) : bool :=
  match s with
  | EmptyString => false
  | String c r =>
    lower_alnum c
    && match r with
       | EmptyString => true
       | _ => (String.length r <=? 62)%nat
              && string_forallb (fun c => lower_alnum c || (byte_of c =? 45)) r
              && match String.get (String.length r - 1) r with Some l => lower_alnum l | None => false end
       end
  end.
Definition config_error (msg : string) : res unit := Err (Opaque ("config: " +:+ msg)).
(** The first complaint, or none. *)
Fixpoint first_fault (l : list (bool * string)) : res unit :=
  match l with [] => Ok tt | (bad, msg) :: l => if bad then config_error msg else first_fault l end.
Section validate.
Context `{GoRuntime} `{Framework F}.
Definition Validate (c : Config F) : res unit :=
  match fw_Validate (cf_Config c) with
  | Err e => Err e
  | Ok _ =>
    let prod := fw_IsProduction (cf_Config c) in
    let dsn := db_DSN (cf_DB c) in
    let kek := cf_KEK c in
    let rn := cf_Renewal c in
    let lm := cf_Limits c in
    let ts := cf_TaskScheduler c in
    first_fault
      [(dsn =s "", "db.dsn is required");
       (prod && negb (str_contains dsn "sslmode=verify-full") && negb (str_contains dsn "sslmode=verify-ca"),
        "db.dsn must use sslmode=verify-full (or verify-ca) in production");
       ((length (vk_Addresses (cf_Valkey c)) =? 0)%nat, "valkey.addresses is required");
       (prod && vk_AllowPlaintext (cf_Valkey c), "valkey.allow_plaintext is not permitted in production");
       ((kek_Source kek =s "file") && (kek_Path kek =s ""), "kek.path is required for kek.source file");
       ((kek_Source kek =s "env") && (kek_Env kek =s ""), "kek.env is required for kek.source env");
       ((kek_Source kek <>s "file") && (kek_Source kek <>s "env"), "kek.source must be file or env");
       ((rn_IntervalSeconds rn <? 1) || (60 <? rn_IntervalSeconds rn), "renewal.interval_seconds must be within [1, 60]");
       ((rn_LeaseSeconds rn <? rn_IntervalSeconds rn) || (600 <? rn_LeaseSeconds rn),
        "renewal.lease_seconds must be within [interval, 600]");
       ((rn_Workers rn <? 1) || (64 <? rn_Workers rn), "renewal.workers must be within [1, 64]");
       (SFleb (rn_ShortLivedFraction rn) (f64_of_Z 0) || SFleb (f64_of_Z 1) (rn_ShortLivedFraction rn),
        "renewal.short_lived_fraction must be within (0, 1)");
       ((rn_LongLivedDays rn <? 1) || (365 <? rn_LongLivedDays rn), "renewal.long_lived_days must be within [1, 365]");
       (prod && cf_AllowPlaintextDNS c, "acme.allow_plaintext_dns is not permitted in production");
       (gw_Service (cf_Gateway c) =s "", "gateway.service is required");
       ((cf_DNSService c <>s "") && negb (serviceName (cf_DNSService c)), "dns.service must be a discovery service name");
       (ts_Enabled ts && (ts_Service ts =s ""), "task_scheduler.service is required when task_scheduler.enabled");
       ((ts_Service ts <>s "") && negb (serviceName (ts_Service ts)), "task_scheduler.service must be a discovery service name");
       (negb (serviceName (cf_NotificationService c)), "notification.service must be a discovery service name");
       (match url_parse (gw_Issuer (cf_Gateway c)) with
        | Some u => (u_Scheme u <>s "https") || (u_Host u =s "")
        | None => true
        end, "gateway.issuer must be an https origin");
       ((lm_BackupMaxBytes lm <? Z.shiftl 4 20) || (Z.shiftl 64 20 <? lm_BackupMaxBytes lm),
        "limits_lcm.backup_max_bytes must be within [4 MiB, 64 MiB]");
       (fw_MaxRequestBytes (cf_Config c) <? lm_BackupMaxBytes lm,
        "limits.max_request_bytes must be at least limits_lcm.backup_max_bytes (backup uploads)");
       ((lm_CSRMaxBytes lm <? Z.shiftl 1 10) || (Z.shiftl 64 10 <? lm_CSRMaxBytes lm),
        "limits_lcm.csr_max_bytes must be within [1 KiB, 64 KiB]");
       ((lm_WebhookMaxBytes lm <? Z.shiftl 1 10) || (Z.shiftl 1 20 <? lm_WebhookMaxBytes lm),
        "limits_lcm.webhook_max_bytes must be within [1 KiB, 1 MiB]");
       ((lm_StreamsPerUser lm <=? 0) || (lm_StreamsPerTenant lm <? lm_StreamsPerUser lm),
        "limits_lcm.streams_per_user must be positive and streams_per_tenant at least as large");
       ((lm_ReplayWindowSeconds lm <? 60) || (3600 <? lm_ReplayWindowSeconds lm),
        "limits_lcm.replay_window_seconds must be within [60, 3600]")]
  end.
Definition Warnings (c : Config F) : list string :=
  fw_Warnings (cf_Config c)
  ++ (if vk_AllowPlaintext (cf_Valkey c) then ["valkey.allow_plaintext: stream traffic without TLS (development only)"] else [])
  ++ (if cf_AllowPlaintextDNS c then ["acme.allow_plaintext_dns: mock ACME/DNS without TLS (development only)"] else []).
(** Durations are int64 nanoseconds. *)
Definition ReplayWindow (c : Config F) : Z := wrap64 (lm_ReplayWindowSeconds (cf_Limits c) * Second).
Definition RenewalInterval (c : Config F) : Z := wrap64 (rn_IntervalSeconds (cf_Renewal c) * Second).
Definition LeaseDuration (c : Config F) : Z := wrap64 (rn_LeaseSeconds (cf_Renewal c) * Second).
Definition LongLivedWindow (c : Config F) : Z := wrap64 (rn_LongLivedDays (cf_Renewal c) * 24 * (3600 * Second)).
(** What the wiring passes on. *)
Definition hub_config (c : Config F) : HubConfig :=
  mkHubConfig (ReplayWindow c) (lm_StreamsPerUser (cf_Limits c)) (lm_StreamsPerTenant (cf_Limits c)) 0.
Definition job_config (c : Config F) : SchedulerConfig := mkSchedulerConfig (LeaseDuration c) 50.
Definition renew_config (c : Config F) : RenewConfig :=
  mkRenewConfig (RenewalInterval c) (rn_Workers (cf_Renewal c)) (rn_ShortLivedFraction (cf_Renewal c)) (LongLivedWindow c).
End validate.

(** ** What a checked configuration guarantees *)
Lemma first_fault_ok l : first_fault l = Ok tt -> forall b msg, (b, msg) ∈ l -> b = false.
Proof.
  induction l as [|[bad msg] l IH]; simpl; intros Hf b m Hin; [by apply elem_of_nil in Hin|].
  destruct bad; [done|]. apply elem_of_cons in Hin as [[= -> ->]|Hin]; [done|by eapply IH].
Qed.
Section checked.
Context `{GoRuntime} `{Framework F}.
(** A configuration that passes its checks runs as written: the hub and the two
    schedulers take every setting the wiring hands them, replacing none by a default of
    their own; no duration overflows; a claimed job is leased for at least one tick; a
    person's streams fit into the tenant's; and in production nothing is left in the
    clear. *)
Theorem Validate_wires (c : Config F) :
  Validate c = Ok tt ->
  NewRenewScheduler (renew_config c) = renew_config c
  /\ NewScheduler (job_config c) = job_config c
  /\ NewHub_config (hub_config c) = mkHubConfig (lm_ReplayWindowSeconds (cf_Limits c) * Second) (lm_StreamsPerUser (cf_Limits c))
                                      (lm_StreamsPerTenant (cf_Limits c)) DefaultMaxLen
  /\ RenewalInterval c = rn_IntervalSeconds (cf_Renewal c) * Second
  /\ LongLivedWindow c = rn_LongLivedDays (cf_Renewal c) * 24 * (3600 * Second)
  /\ 0 < RenewalInterval c <= LeaseDuration c /\ LeaseDuration c <= 600 * Second
  /\ 0 < lm_StreamsPerUser (cf_Limits c) <= lm_StreamsPerTenant (cf_Limits c)
  /\ (fw_IsProduction (cf_Config c) = true ->
      vk_AllowPlaintext (cf_Valkey c) = false /\ cf_AllowPlaintextDNS c = false
      /\ (str_contains (db_DSN (cf_DB c)) "sslmode=verify-full" = true \/ str_contains (db_DSN (cf_DB c)) "sslmode=verify-ca" = true)).
Proof.
  unfold Validate. destruct (fw_Validate _); [|done]. cbv zeta. intros Hv.
  assert (Hall : forall i b msg, _ !! i = Some (b, msg) -> b = false)
    by (intros i b msg Hi; eapply (first_fault_ok _ Hv); by eapply list_elem_of_lookup_2).
  pose proof (Hall 7%nat _ _ eq_refl) as Hi. pose proof (Hall 8%nat _ _ eq_refl) as Hl. pose proof (Hall 9%nat _ _ eq_refl) as Hw.
  pose proof (Hall 10%nat _ _ eq_refl) as Hfr. pose proof (Hall 11%nat _ _ eq_refl) as Hd.
  pose proof (Hall 23%nat _ _ eq_refl) as Hs. pose proof (Hall 24%nat _ _ eq_refl) as Hr.
  pose proof (Hall 1%nat _ _ eq_refl) as Hdsn. pose proof (Hall 3%nat _ _ eq_refl) as Hvk. pose proof (Hall 12%nat _ _ eq_refl) as Hdns.
  clear Hv Hall. revert Hfr Hdsn Hvk Hdns. apply orb_false_iff in Hi, Hl, Hw, Hd, Hs, Hr. destruct_and!. bools. intros Hfr Hdsn Hvk Hdns.
  assert (Hint : RenewalInterval c = rn_IntervalSeconds (cf_Renewal c) * Second) by (apply wrap64_id; unfold Second, int64_min, int64_max; lia).
  assert (Hlea : LeaseDuration c = rn_LeaseSeconds (cf_Renewal c) * Second) by (apply wrap64_id; unfold Second, int64_min, int64_max; lia).
  assert (Hlong : LongLivedWindow c = rn_LongLivedDays (cf_Renewal c) * 24 * (3600 * Second)) by (apply wrap64_id; unfold Second, int64_min, int64_max; lia).
  assert (Hrep : ReplayWindow c = lm_ReplayWindowSeconds (cf_Limits c) * Second) by (apply wrap64_id; unfold Second, int64_min, int64_max; lia).
  assert (Hpos : forall z d, 0 < z -> (if z <=? 0 then d else z) = z) by (intros z d Hz; by rewrite (proj2 (Z.leb_gt _ _) Hz)).
  split_and!.
  - unfold NewRenewScheduler, renew_config. cbn [rc_Interval rc_Workers rc_ShortLivedFraction rc_LongLivedWindow]. rewrite Hfr.
    rewrite !Hpos; [done|..]; rewrite ?Hint, ?Hlong; unfold Second; lia.
  - unfold NewScheduler, job_config. cbn [sc_Lease sc_Batch]. rewrite !Hpos; [done|..]; rewrite ?Hlea; unfold Second; lia.
  - unfold NewHub_config, hub_config, positive_or. cbn [hc_ReplayWindow hc_StreamsPerUser hc_StreamsPerTenant hc_MaxLen].
    rewrite Hrep, (Hpos (lm_StreamsPerUser _)), (Hpos (lm_StreamsPerTenant _)), (Hpos (_ * Second)) by (unfold Second; lia). done.
  - done.
  - done.
  - rewrite Hint. unfold Second. lia.
  - rewrite Hint, Hlea. unfold Second. lia.
  - rewrite Hlea. unfold Second. lia.
  - lia.
  - lia.
  - intros Hp. rewrite Hp in Hdsn, Hvk, Hdns. simpl in *. split_and!; [done..|].
    destruct (str_contains _ "sslmode=verify-full"); [by left|]. destruct (str_contains _ "sslmode=verify-ca"); [by right|done].
Qed.
End checked.

(** ** Runs *)
Module ConfigSample.
#[local] Existing Instance std_runtime.
#[local] Instance toy_framework : Framework bool := {|
  fw_Default := false; fw_Validate _ := Ok tt; fw_IsProduction b := b; fw_MaxRequestBytes _ := Z.shiftl 64 20; fw_Warnings _ := [] |}.
Definition production (rn : RenewalSection) (lm : Limits) : Config bool :=
  mkConfig true (mkDB "postgres://db/lcm?sslmode=verify-full" "" 16) (mkValkey ["valkey:6379"] "" "" false "") (mkKEK "file" "/kek" "")
    rn (mkGateway "gateway" "https://auth.example.org") false "" lm (mkTaskScheduler false "scheduler") "notification" "".
Definition sane : Config bool := production (cf_Renewal Default) (cf_Limits Default).
Example sane_ok : Validate sane = Ok tt.
Proof. vm_compute. reflexivity. Qed.
(** The defaults by themselves are no configuration. *)
Example default_incomplete : Validate Default = config_error "db.dsn is required".
Proof. reflexivity. Qed.
(** A fraction that is not a number passes the check of its range. *)
Example nan_accepted : Validate (production (mkRenewalSection 15 60 4 S754_nan 30) (cf_Limits Default)) = Ok tt.
Proof. vm_compute. reflexivity. Qed.
(** A backup limit of 64 MiB is accepted; [DecodeBounded] reads no document over 16 MiB. *)
Example backup_limit_idle :
  Validate (production (cf_Renewal Default) (mkLimits (Z.shiftl 64 20) (Z.shiftl 16 10) (Z.shiftl 64 10) 5 2000 300)) = Ok tt.
Proof. vm_compute. reflexivity. Qed.
Lemma Validate_wires_witness : NewRenewScheduler (renew_config sane) = renew_config sane.
Proof. exact (proj1 (Validate_wires sane sane_ok)). Defined.
End ConfigSample.
