(* ===== verification/Sql.v ===== *)
(** The database under internal/store: the schema of internal/store/migrations,
    the statements the repositories are made of, row level security and the
    transactions of internal/store/store.go.

    A table is a map from the primary key to the row; the logs, which have no
    key, are lists.  A statement is a function of the tables, the scope and the
    clock of its transaction.  What PostgreSQL decides by itself (the encodings
    of text, uuid, jsonb and timestamptz, the collation, the order of a scan)
    is the class [Postgres]; the failures of the connection are its [pg_fault]. *)

From S2P Require Import Prelude Rows.

(** ** The server *)
Class Postgres := {
  pg_uuid : string -> option string;      (* the canonical text of a uuid *)
  pg_text : string -> option Z;           (* length(text), of well-encoded text *)
  pg_jsonb : string -> option string;     (* the text of a jsonb value *)
  pg_lower : string -> string;            (* lower(text) *)
  pg_collate : string -> string -> bool;  (* < on text *)
  pg_time : Z -> Z;                       (* what timestamptz keeps of an instant *)
  pg_scan {A} : list A -> list A;         (* the order in which a scan meets the rows *)
  pg_clock : nat -> Z;                    (* now(), at the n-th exchange *)
  pg_fault : nat -> option err;           (* the error of the n-th exchange *)
  pg_lost : nat -> bool;                  (* a failed COMMIT that took effect *)
  pg_locked : string -> bool;             (* rows another transaction has locked *)
}.
(** [*pgconn.PgError] with its code, and the sentinels of pgx. *)
Definition PgError (code : string) : err := Sentinel "pgconn" code.
Definition pgx_ErrNoRows : err := Sentinel "pgx" "ErrNoRows".
Definition pgx_ErrTxCommitRollback : err := Sentinel "pgx" "ErrTxCommitRollback".
Definition pgx_ErrEncode : err := Opaque "unable to encode".
(** Documented: a scan meets every row once; the error of an exchange is one the
    server reports, with its code, or one of the connection. *)
Class PostgresLaws `{Postgres} := {
  pg_scan_perm {A} (l : list A) : pg_scan l ≡ₚ l;
  pg_fault_kind n e : pg_fault n = Some e -> (exists code, e = PgError code) \/ (exists msg, e = Opaque msg);
}.

(** The tables.  A NULL spiffe_id is the empty string, which a check keeps out of
    the column; [iss_CertificateCount] and [aud_SubjectName] are no columns. *)
Record Db := mkDb {
  db_cas : gmap string CA;
  db_issuers : gmap string Issuer;
  db_secrets : gmap string TenantSecret;
  db_requests : gmap string CertificateRequest;
  db_certificates : gmap string IssuedCertificate;
  db_jobs : gmap string CertificateJob;
  db_revocations : gmap string Revocation;
  db_installed : gmap string InstalledCertificate;
  db_targets : gmap string DeploymentTarget;
  db_webhooks : gmap string WebhookEndpoint;
  db_grants : gmap string Grant;
  db_log : list CertLogRow;
  db_audit : list AuditRow;
  db_seq : Z;                               (* lcm_audit_events_id_seq *)
}.
#[export] Instance db_eta : RecordEta Db := fun r =>
  mkDb (db_cas r) (db_issuers r) (db_secrets r) (db_requests r) (db_certificates r) (db_jobs r)
    (db_revocations r) (db_installed r) (db_targets r) (db_webhooks r) (db_grants r) (db_log r)
    (db_audit r) (db_seq r).
Definition db_empty : Db := mkDb ∅ ∅ ∅ ∅ ∅ ∅ ∅ ∅ ∅ ∅ ∅ [] [] 1.

(** [store.Scope]: the settings a transaction runs under. *)
Record Scope := mkScope { sc_TenantID : string; sc_System : bool }.

(** [app_tenant_matches] of 0003_rls.sql. *)
Definition app_tenant_matches (sc : Scope) (tid : string) : bool :=
  ((sc_TenantID sc <>s "") && (tid =s sc_TenantID sc)) || sc_System sc.

(** ** Tables *)

(** What a statement needs of a table: its rows, its key and tenant columns, its
    NOT NULL and CHECK constraints (the code of the violation) and its unique
    indexes ([t_clash new row], the primary key apart). *)
Record Table (R : Type) := mkTable {
  t_rows : Db -> gmap string R;
  t_put : gmap string R -> Db -> Db;
  t_id : R -> string;
  t_tenant : R -> string;
  t_check : R -> option string;
  t_clash : R -> R -> bool;
  t_refs : Db -> R -> bool;                 (* foreign keys: the referenced row exists *)
}.
Arguments mkTable {R}.
Arguments t_rows {R}.
Arguments t_put {R}.
Arguments t_id {R}.
Arguments t_tenant {R}.
Arguments t_check {R}.
Arguments t_clash {R}.
Arguments t_refs {R}.

Section statements.
Context `{Postgres}.

(** The visible rows that satisfy the condition. *)
Definition visible_rows {R} (T : Table R) (sc : Scope) (db : Db) : gmap string R :=
  filter (fun x : string * R => app_tenant_matches sc (t_tenant T x.2) = true) (t_rows T db).
Definition select {R} (T : Table R) (sc : Scope) (P : R -> bool) (db : Db) : list R :=
  pg_scan (filter (fun r => P r = true) (map_to_list (visible_rows T sc db)).*2).
(** ORDER BY: the order among equal keys is that of the scan. *)
Definition order_by {A} (less : A -> A -> bool) (l : list A) : list A := sort_slice less l.
(** LIMIT. *)
Definition limit_rows {A} (n : Z) (l : list A) : res (list A) :=
  if n <? 0 then Err (PgError "2201W") else Ok (take (Z.to_nat n) l).

(** The constraints of a row about to be stored, in the order the server tests them. *)
Definition row_violation {R} (T : Table R) (sc : Scope) (r : R) : option string :=
  if negb (app_tenant_matches sc (t_tenant T r)) then Some "42501" else t_check T r.
Definition insert_row {R} (T : Table R) (sc : Scope) (r : R) (db : Db) : res Db :=
  match row_violation T sc r with
  | Some code => Err (PgError code)
  | None =>
    if bool_decide (is_Some (t_rows T db !! t_id T r))
       || existsb (fun x => t_clash T r x.2) (map_to_list (t_rows T db))
    then Err (PgError "23505")
    else if negb (t_refs T db r) then Err (PgError "23503")
    else Ok (t_put T (<[t_id T r := r]> (t_rows T db)) db)
  end.
(** One row of an UPDATE. *)
Definition update_row {R} (T : Table R) (sc : Scope) (f : R -> R) (acc : res Db) (r : R) : res Db :=
  let? db := acc in
  match row_violation T sc (f r) with
  | Some code => Err (PgError code)
  | None =>
    if existsb (fun x => (x.1 <>s t_id T r) && t_clash T (f r) x.2) (map_to_list (t_rows T db))
    then Err (PgError "23505")
    else if negb (t_refs T db (f r)) then Err (PgError "23503")
    else Ok (t_put T (<[t_id T r := f r]> (t_rows T db)) db)
  end.
Definition update_rows {R} (T : Table R) (sc : Scope) (P : R -> bool) (f : R -> R) (db : Db) : res (Z * Db) :=
  let hit := select T sc P db in
  let? db' := foldl (update_row T sc f) (Ok db) hit in
  Ok (Z.of_nat (length hit), db').
(** One row of a DELETE: [restrict] is the ON DELETE RESTRICT of the tables that
    reference it, [release] their ON DELETE SET NULL. *)
Definition delete_row {R} (T : Table R) (restrict : Db -> R -> bool) (release : R -> Db -> Db)
  (acc : res Db) (r : R) : res Db :=
  let? db := acc in
  if restrict db r then Err (PgError "23503")
  else Ok (release r (t_put T (delete (t_id T r) (t_rows T db)) db)).
Definition delete_rows {R} (T : Table R) (sc : Scope) (restrict : Db -> R -> bool) (release : R -> Db -> Db)
  (P : R -> bool) (db : Db) : res (Z * Db) :=
  let hit := select T sc P db in
  let? db' := foldl (delete_row T restrict release) (Ok db) hit in
  Ok (Z.of_nat (length hit), db').
(** INSERT ... ON CONFLICT (the columns of [key]) DO UPDATE ... RETURNING. *)
Definition upsert_row {R} (T : Table R) (sc : Scope) (key : R -> R -> bool) (r : R) (f : R -> R) (db : Db)
  : res (R * Db) :=
  match row_violation T sc r with
  | Some code => Err (PgError code)
  | None =>
    match filter (fun x => key r x = true) (map_to_list (t_rows T db)).*2 with
    | old :: _ =>
      if negb (app_tenant_matches sc (t_tenant T old)) then Err (PgError "42501")
      else let? db' := update_row T sc f (Ok db) old in Ok (f old, db')
    | [] => let? db' := insert_row T sc r db in Ok (r, db')
    end
  end.

(** ** Parameters *)
Definition uuid_arg (s : string) : res string :=
  match pg_uuid s with Some u => Ok u | None => Err (PgError "22P02") end.
Definition text_arg (s : string) : res string :=
  match pg_text s with Some _ => Ok s | None => Err (PgError "22021") end.
Definition json_arg (b : bytes) : res bytes :=
  match b with
  | None => Ok None
  | Some s => match pg_jsonb s with Some j => Ok (Some j) | None => Err (PgError "22P02") end
  end.
(** A Go int sent as integer: refused by the driver when it does not fit. *)
Definition int4_arg (z : Z) : res Z :=
  if (- 2 ^ 31 <=? z) && (z <? 2 ^ 31) then Ok z else Err pgx_ErrEncode.
Definition opt_arg {A B} (f : A -> res B) (o : option A) : res (option B) :=
  match o with None => Ok None | Some a => let? b := f a in Ok (Some b) end.
Fixpoint list_arg {A B} (f : A -> res B) (l : list A) : res (list B) :=
  match l with
  | [] => Ok []
  | a :: l' => let? b := f a in let? bs := list_arg f l' in Ok (b :: bs)
  end.
(** [length(s) BETWEEN lo AND hi]. *)
Definition length_between (lo hi : Z) (s : string) : bool :=
  match pg_text s with Some n => (lo <=? n) && (n <=? hi) | None => false end.
End statements.

(** ** Transactions *)

(** An open transaction: its view of the tables, its settings, its clock, the
    number of exchanges so far, and whether a statement of it has failed. *)
Record TxS := mkTxS {
  tx_db : Db; tx_scope : Scope; tx_now : Z; tx_n : nat; tx_failed : bool;
}.
#[export] Instance txs_eta : RecordEta TxS := fun r =>
  mkTxS (tx_db r) (tx_scope r) (tx_now r) (tx_n r) (tx_failed r).
Definition Sql (A : Type) : Type := ST TxS A.

(** The errors after which the server refuses every further statement. *)
Definition server_error (e : err) : bool :=
  match e with Sentinel p _ => p =s "pgconn" | _ => false end.

(** The server between transactions. *)
Record PgServer := mkPgServer { sv_db : Db; sv_n : nat }.
#[export] Instance server_eta : RecordEta PgServer := fun r => mkPgServer (sv_db r) (sv_n r).

Section tx.
Context `{Postgres}.

(** One statement: its parameters are bound and it runs, or it fails; a failed
    transaction answers 25P02 (in_failed_sql_transaction). *)
Definition stmt {A} (f : Scope -> Z -> Db -> res (A * Db)) : Sql A := fun s =>
  let s1 := s <| tx_n := S (tx_n s) |> in
  match pg_fault (tx_n s) with
  | Some e => (Err e, s1 <| tx_failed := tx_failed s || server_error e |>)
  | None =>
    if tx_failed s then (Err (PgError "25P02"), s1)
    else match f (tx_scope s) (tx_now s) (tx_db s) with
         | Ok (a, db) => (Ok a, s1 <| tx_db := db |>)
         | Err e => (Err e, s1 <| tx_failed := server_error e |>)
         end
  end.
(** A query: [tx.Query] and the scan of its rows. *)
Definition query {A} (f : Scope -> Z -> Db -> res A) : Sql A :=
  stmt (fun sc now db => let? a := f sc now db in Ok (a, db)).
(** [tx.QueryRow(...).Scan(...)]: the first row. *)
Definition query_row {A} (f : Scope -> Z -> Db -> res (list A)) : Sql A :=
  query (fun sc now db => let? l := f sc now db in
         match l with x :: _ => Ok x | [] => Err pgx_ErrNoRows end).

(** [notFound], [conflict] and [restricted] of store.go. *)
Definition store_notFound (e : err) : err := if errors_is e "pgx" "ErrNoRows" then store_ErrNotFound else e.
Definition store_conflict (e : err) : err := if errors_is e "pgconn" "23505" then store_ErrConflict else e.
Definition store_restricted (e : err) : err :=
  if errors_is e "pgconn" "23503" then store_ErrConflict else store_conflict e.
Definition map_err {A} (g : err -> err) (c : Sql A) : Sql A := fun s =>
  match c s with (Err e, s') => (Err (g e), s') | p => p end.
(** [if ct.RowsAffected() == 0 { return ErrNotFound }]. *)
Definition affected (c : Sql Z) : Sql unit :=
  let* n := c in if n =? 0 then st_err store_ErrNotFound else st_ret tt.

(** [Store.Tx].  The sequence of the audit trail is not rolled back. *)
Definition rolled_back (sv : PgServer) (s : TxS) : PgServer :=
  mkPgServer ((sv_db sv) <| db_seq := db_seq (tx_db s) |>) (tx_n s).
Definition set_config (b : bool) (f : Scope -> Scope) : Sql unit := fun s =>
  if b then match stmt (fun _ _ db => Ok (tt, db)) s with
            | (Ok _, s') => (Ok tt, s' <| tx_scope := f (tx_scope s') |>)
            | p => p
            end
  else (Ok tt, s).
Definition Store_Tx {A} (scope : Scope) (fn : Sql A) : ST PgServer A := fun sv =>
  let n := sv_n sv in
  match pg_fault n with
  | Some e => (Err e, sv <| sv_n := S n |>)               (* BeginTx *)
  | None =>
    let s0 := mkTxS (sv_db sv) (mkScope "" false) (pg_clock n) (S n) false in
    let body :=
      let* _ := set_config (sc_TenantID scope <>s "") (fun sc => mkScope (sc_TenantID scope) (sc_System sc)) in
      let* _ := set_config (sc_System scope) (fun sc => mkScope (sc_TenantID sc) true) in
      fn in
    match body s0 with
    | (Err e, s) => (Err e, (rolled_back sv s) <| sv_n := S (tx_n s) |>)
    | (Ok a, s) =>                                        (* tx.Commit *)
      match pg_fault (tx_n s) with
      | Some e => (Err e, if pg_lost (tx_n s) && negb (tx_failed s) then mkPgServer (tx_db s) (S (tx_n s))
                          else (rolled_back sv s) <| sv_n := S (tx_n s) |>)
      | None => if tx_failed s then (Err pgx_ErrTxCommitRollback, (rolled_back sv s) <| sv_n := S (tx_n s) |>)
                else (Ok a, mkPgServer (tx_db s) (S (tx_n s)))
      end
    end
  end.
End tx.

(** ** What a statement does to a table

    Every write is a sequence of row steps: a row is stored under its key, in
    place of nothing or of a row the scope sees, or a row the scope sees is
    removed. *)
Section steps.
Context `{PostgresLaws} {R : Type} (T : Table R).
Context (restrict : Db -> R -> bool) (release : R -> Db -> Db).
Hypothesis put_rows : forall m db, t_rows T (t_put T m db) = m.
Hypothesis release_rows : forall r db, t_rows T (release r db) = t_rows T db.

Definition row_keyed (m : gmap string R) : Prop := map_Forall (fun k r => t_id T r = k) m.

Inductive row_step (sc : Scope) (db : Db) : Db -> Prop :=
| step_put r :
    row_violation T sc r = None ->
    (forall k x, t_rows T db !! k = Some x -> k <> t_id T r -> t_clash T r x = false) ->
    (forall x, t_rows T db !! t_id T r = Some x -> app_tenant_matches sc (t_tenant T x) = true) ->
    t_refs T db r = true ->
    row_step sc db (t_put T (<[t_id T r := r]> (t_rows T db)) db)
| step_del r :
    t_rows T db !! t_id T r = Some r -> app_tenant_matches sc (t_tenant T r) = true ->
    restrict db r = false ->
    row_step sc db (release r (t_put T (delete (t_id T r) (t_rows T db)) db)).

Lemma row_step_keyed sc db db' : row_keyed (t_rows T db) -> row_step sc db db' -> row_keyed (t_rows T db').
Proof.
  intros Hk [r _ _ _ _|r Hr _ _]; rewrite ?release_rows, put_rows.
  - by apply map_Forall_insert_2.
  - by apply map_Forall_delete.
Qed.

Lemma elem_of_select sc P db r :
  r ∈ select T sc P db -> exists k, t_rows T db !! k = Some r /\ app_tenant_matches sc (t_tenant T r) = true /\ P r = true.
Proof.
  unfold select, visible_rows. rewrite pg_scan_perm, list_elem_of_filter. intros [HP Hin].
  apply list_elem_of_fmap in Hin as ([k x] & -> & Hin). apply elem_of_map_to_list, map_lookup_filter_Some in Hin as [? ?].
  eauto.
Qed.
Lemma select_NoDup sc P db : row_keyed (t_rows T db) -> NoDup (t_id T <$> select T sc P db).
Proof.
  intros Hk. unfold select. rewrite pg_scan_perm.
  assert (Hv : row_keyed (visible_rows T sc db)) by (intros k x [? _]%map_lookup_filter_Some; by apply Hk).
  assert (Hm : forall l : list (string * R), (forall x, x ∈ l -> t_id T x.2 = x.1) -> NoDup l.*1 ->
                NoDup (t_id T <$> filter (fun r => P r = true) l.*2)).
  { induction l as [|[k x] l IH]; intros Hx Hn; [constructor|]. rewrite fmap_cons in Hn. apply NoDup_cons in Hn as [Hk' Hn].
    rewrite fmap_cons, filter_cons. cbn [fst snd] in *. case_decide; [|apply IH; set_solver]. rewrite fmap_cons.
    constructor; [|apply IH; set_solver].
    intros (y & Hy & Hin)%list_elem_of_fmap. apply list_elem_of_filter in Hin as [_ Hin].
    apply list_elem_of_fmap in Hin as ([k2 y2] & -> & Hin). apply Hk', list_elem_of_fmap. exists (k2, y2). split; [|done].
    cbn in *. pose proof (Hx (k, x) ltac:(set_solver)). pose proof (Hx (k2, y2) ltac:(set_solver)). cbn in *. congruence. }
  apply Hm; [|apply NoDup_fst_map_to_list]. intros [k x] Hin%elem_of_map_to_list. by apply (Hv k x).
Qed.

Lemma insert_row_step sc r db db' : insert_row T sc r db = Ok db' -> row_step sc db db'.
Proof.
  unfold insert_row. intros Hi. destruct (row_violation T sc r) eqn:Ev; [done|].
  case_match eqn:Ec; [done|]. case_match eqn:Er; [done|]. simplify_eq. bools.
  match goal with Hn : ~ is_Some _ |- _ => apply eq_None_not_Some in Hn as Hnone end.
  constructor; [done| |congruence|done].
  intros k x Hk _. destruct (t_clash T r x) eqn:Hc; [|done].
  match goal with He : existsb _ _ = false |- _ => rewrite <- He end. symmetry.
  apply existsb_exists. exists (k, x). by rewrite <- list_elem_of_In, elem_of_map_to_list.
Qed.
Lemma update_row_step sc f r db db' :
  t_id T (f r) = t_id T r -> (forall x, t_rows T db !! t_id T r = Some x -> app_tenant_matches sc (t_tenant T x) = true) ->
  update_row T sc f (Ok db) r = Ok db' -> row_step sc db db'.
Proof.
  unfold update_row. cbn. intros Hid Hx Hu. destruct (row_violation T sc (f r)) eqn:Ev; [done|].
  case_match eqn:Ec; [done|]. case_match eqn:Er; [done|]. simplify_eq. bools. rewrite <- Hid.
  constructor; [done| |by rewrite Hid|done].
  intros k x Hk Hne. destruct (t_clash T (f r) x) eqn:Hc; [|done]. exfalso.
  match goal with He : existsb _ _ = false |- _ => assert (existsb (fun x => (x.1 <>s t_id T r) && t_clash T (f r) x.2)
    (map_to_list (t_rows T db)) = true) as Ht; [|congruence] end.
  apply existsb_exists. exists (k, x). rewrite <- list_elem_of_In, elem_of_map_to_list. split; [done|]. cbn.
  rewrite Hc, andb_true_r, negb_true_iff. apply str_eqb_neq. congruence.
Qed.
Lemma row_violation_visible sc r : row_violation T sc r = None -> app_tenant_matches sc (t_tenant T r) = true.
Proof. unfold row_violation. by destruct (app_tenant_matches _ _). Qed.

Definition seen_at (sc : Scope) (db : Db) (k : string) : Prop :=
  forall x, t_rows T db !! k = Some x -> app_tenant_matches sc (t_tenant T x) = true.
Lemma fold_update_err sc f hit e db' : foldl (update_row T sc f) (Err e) hit = Ok db' -> False.
Proof. by induction hit. Qed.
Lemma fold_update_steps sc f hit db db' :
  (forall r, t_id T (f r) = t_id T r) -> (forall r, r ∈ hit -> seen_at sc db (t_id T r)) ->
  foldl (update_row T sc f) (Ok db) hit = Ok db' -> rtc (row_step sc) db db'.
Proof.
  intros Hid. revert db. induction hit as [|r hit IH]; intros db Hs Hf; cbn [foldl] in Hf; [simplify_eq; apply rtc_refl|].
  destruct (update_row T sc f (Ok db) r) as [db1|e] eqn:E; [|by apply fold_update_err in Hf].
  pose proof (update_row_step sc f r db db1 (Hid r) (Hs r ltac:(set_solver)) E) as Hst.
  apply rtc_l with db1; [done|]. apply IH; [|done]. intros r2 Hr2 x. inversion Hst; subst; rewrite ?release_rows, put_rows.
  - intros [[Heq ->]|[_ Hx]]%lookup_insert_Some; [by apply row_violation_visible|]. eapply Hs; [|done]. set_solver.
  - intros [_ Hx]%lookup_delete_Some. eapply Hs; [|done]. set_solver.
Qed.
Lemma update_rows_steps sc P f db n db' :
  row_keyed (t_rows T db) -> (forall r, t_id T (f r) = t_id T r) ->
  update_rows T sc P f db = Ok (n, db') -> rtc (row_step sc) db db'.
Proof.
  unfold update_rows. intros Hk Hid Hu. destruct (foldl _ _ _) as [db1|e] eqn:E; cbn in Hu; simplify_eq.
  eapply fold_update_steps; [done| |done]. intros r (k & Hr & Hv & _)%elem_of_select x Hx.
  pose proof (Hk k r Hr) as Hkr. cbn in Hkr. congruence.
Qed.
Lemma fold_delete_err hit e db' : foldl (delete_row T restrict release) (Err e) hit = Ok db' -> False.
Proof. by induction hit. Qed.
Lemma fold_delete_steps sc hit db db' :
  NoDup (t_id T <$> hit) ->
  (forall r, r ∈ hit -> t_rows T db !! t_id T r = Some r /\ app_tenant_matches sc (t_tenant T r) = true) ->
  foldl (delete_row T restrict release) (Ok db) hit = Ok db' -> rtc (row_step sc) db db'.
Proof.
  revert db. induction hit as [|r hit IH]; intros db Hn Hs Hf; cbn [foldl] in Hf; [simplify_eq; apply rtc_refl|].
  destruct (delete_row T restrict release (Ok db) r) as [db1|e] eqn:E; [|by apply fold_delete_err in Hf].
  cbn in Hn. apply NoDup_cons in Hn as [Hnot Hn]. unfold delete_row in E. cbn in E. case_match eqn:Er; [done|]. simplify_eq.
  destruct (Hs r ltac:(set_solver)) as [Hr Hv].
  eapply rtc_l; [by apply (step_del sc db r)|]. apply IH; [done| |done].
  intros r2 Hr2. destruct (Hs r2 ltac:(set_solver)) as [Hl Hv2]. split; [|done]. rewrite release_rows, put_rows.
  rewrite lookup_delete_ne; [done|]. intros Heq. apply Hnot. rewrite Heq. apply list_elem_of_fmap. eauto.
Qed.
Lemma delete_rows_steps sc P db n db' :
  row_keyed (t_rows T db) -> delete_rows T sc restrict release P db = Ok (n, db') -> rtc (row_step sc) db db'.
Proof.
  unfold delete_rows. intros Hk Hd. destruct (foldl _ _ _) as [db1|e] eqn:E; cbn in Hd; simplify_eq.
  eapply fold_delete_steps; [by apply select_NoDup| |done]. intros r (k & Hr & Hv & _)%elem_of_select.
  pose proof (Hk k r Hr) as Hkr. cbn in Hkr. by subst k.
Qed.
Lemma upsert_row_steps sc key r f db x db' :
  row_keyed (t_rows T db) -> (forall r, t_id T (f r) = t_id T r) ->
  upsert_row T sc key r f db = Ok (x, db') -> row_step sc db db'.
Proof.
  unfold upsert_row. intros Hk Hid Hu. destruct (row_violation T sc r); [done|].
  destruct (filter _ _) as [|old l] eqn:Ef.
  - destruct (insert_row T sc r db) as [db1|] eqn:E; cbn in Hu; simplify_eq. by eapply insert_row_step.
  - destruct (app_tenant_matches sc (t_tenant T old)) eqn:Ev; cbn [negb] in Hu; [|done].
    destruct (update_row T sc f (Ok db) old) as [db1|] eqn:E; cbn [res_bind] in Hu; [|done]. simplify_eq.
    eapply update_row_step; [done| |done]. intros y Hy.
    assert (Hin : old ∈ filter (fun x => key r x = true) (map_to_list (t_rows T db)).*2) by (rewrite Ef; set_solver).
    apply list_elem_of_filter in Hin as [_ Hin]. apply list_elem_of_fmap in Hin as ([k z] & Hz & Hin). cbn in Hz. subst z.
    apply elem_of_map_to_list in Hin. pose proof (Hk k old Hin) as Hkr. cbn in Hkr. congruence.
Qed.
End steps.
