(* ===== verification/SqlStore.v ===== *)
(** The repositories over the database: internal/store/repos.go, one definition
    per function, in the order of the file.  The tables carry the constraints of
    internal/store/migrations. *)

From S2P Require Import Prelude Rows Sql.

(** ** Defaults *)
Definition nonNil (s : option (list string)) : list string := default [] s.
Definition jsonOrEmpty (b : bytes) : bytes := if blen b =? 0 then Some "{}" else b.
Definition jsonArrayOrEmpty (b : bytes) : bytes := if blen b =? 0 then Some "[]" else b.
Definition nullIfEmpty (s : string) : option string := if s =s "" then None else Some s.
Definition nullTime (t : Z) : option Z := if IsZero t then None else Some t.
Definition defaultKind (k : string) : string := if k =s "" then "svid" else k.

Definition one_of (l : list string) (s : string) : bool := contains l s.
(** The code of the first constraint that does not hold. *)
Fixpoint first_violation (l : list (bool * string)) : option string :=
  match l with
  | [] => None
  | (ok, code) :: l' => if ok then first_violation l' else Some code
  end.
Definition not_null {A} (o : option A) : bool * string := (bool_decide (is_Some o), "23502").
Definition check (b : bool) : bool * string := (b, "23514").

Section repos.
Context `{Postgres}.
Definition text_args (l : list string) : res unit := let? _ := list_arg text_arg l in Ok tt.
Definition opt_text_args (l : list (option string)) : res unit := let? _ := list_arg (opt_arg text_arg) l in Ok tt.

(** ** Tables: 0001_schema.sql, as later migrations leave them *)
Definition T_cas : Table CA :=
  mkTable db_cas (fun m db => db <| db_cas := m |>) ca_ID ca_TenantID
    (fun c => first_violation
       [not_null (ca_KeySealed c); check (length_between 1 253 (ca_TrustDomain c));
        check (one_of ["active"; "next"; "retiring"] (ca_State c))])
    (fun n r => (ca_State n =s "active") && (ca_State r =s "active") && (ca_TenantID r =s ca_TenantID n)
                && (ca_TrustDomain r =s ca_TrustDomain n))
    (fun _ _ => true).
Definition T_issuers : Table Issuer :=
  mkTable db_issuers (fun m db => db <| db_issuers := m |>) iss_ID iss_TenantID
    (fun i => first_violation
       [not_null (iss_SettingsPublic i); check (length_between 1 100 (iss_Name i));
        check (one_of ["self_signed"; "acme"] (iss_Type i)); check (length_between 1 253 (iss_TrustDomain i))])
    (fun n r => (iss_TenantID r =s iss_TenantID n)
                && ((pg_lower (iss_Name r) =s pg_lower (iss_Name n))
                    || (iss_IsDefault n && iss_IsDefault r && (iss_TrustDomain r =s iss_TrustDomain n))))
    (fun db i => match iss_CAID i with None => true | Some c => bool_decide (is_Some (db_cas db !! c)) end).
Definition T_secrets : Table TenantSecret :=
  mkTable db_secrets (fun m db => db <| db_secrets := m |>) sec_ID sec_TenantID
    (fun s => first_violation
       [not_null (sec_ValueSealed s); check (length_between 1 100 (sec_Name s));
        check (one_of ["acme_account"; "dns_credential"] (sec_Kind s))])
    (fun n r => (sec_TenantID r =s sec_TenantID n) && (pg_lower (sec_Name r) =s pg_lower (sec_Name n)))
    (fun _ _ => true).
Definition T_requests : Table CertificateRequest :=
  mkTable db_requests (fun m db => db <| db_requests := m |>) req_ID req_TenantID
    (fun r => first_violation
       [not_null (req_SANs r); check ((req_SpiffeID r =s "") || length_between 1 2048 (req_SpiffeID r));
        check (one_of ["user"; "service"; "token"] (req_RequesterKind r));
        check (one_of ["pending"; "approved"; "rejected"; "issued"; "processing"; "failed"] (req_Status r));
        check (one_of ["svid"; "generic"] (req_Kind r))])
    (fun _ _ => false)
    (fun db r => match req_IssuerID r with None => true | Some i => bool_decide (is_Some (db_issuers db !! i)) end).
Definition T_certificates : Table IssuedCertificate :=
  mkTable db_certificates (fun m db => db <| db_certificates := m |>) crt_ID crt_TenantID
    (fun c => first_violation
       [not_null (crt_SANs c); check ((crt_SpiffeID c =s "") || length_between 1 2048 (crt_SpiffeID c));
        check (one_of ["active"; "expiring"; "expired"; "revoked"] (crt_Status c));
        check (one_of ["svid"; "generic"] (crt_Kind c))])
    (fun n r => (crt_TenantID r =s crt_TenantID n) && (crt_Serial r =s crt_Serial n))
    (fun db c => bool_decide (is_Some (db_issuers db !! crt_IssuerID c))).
Definition T_jobs : Table CertificateJob :=
  mkTable db_jobs (fun m db => db <| db_jobs := m |>) job_ID job_TenantID
    (fun j => first_violation
       [check (one_of ["issue"; "renew"; "acme"] (job_Type j));
        check (one_of ["queued"; "processing"; "completed"; "failed"] (job_Status j))])
    (fun _ _ => false) (fun _ _ => true).
Definition T_revocations : Table Revocation :=
  mkTable db_revocations (fun m db => db <| db_revocations := m |>) rev_ID rev_TenantID (fun _ => None)
    (fun n r => (rev_TenantID r =s rev_TenantID n) && (rev_CertificateID r =s rev_CertificateID n))
    (fun _ _ => true).
Definition installed_unique (n r : InstalledCertificate) : bool :=
  (ins_TenantID r =s ins_TenantID n) && (ins_CertificateID r =s ins_CertificateID n) && (ins_ClientID r =s ins_ClientID n).
Definition T_installed : Table InstalledCertificate :=
  mkTable db_installed (fun m db => db <| db_installed := m |>) ins_ID ins_TenantID (fun _ => None)
    installed_unique (fun _ _ => true).
Definition T_targets : Table DeploymentTarget :=
  mkTable db_targets (fun m db => db <| db_targets := m |>) tgt_ID tgt_TenantID
    (fun t => first_violation
       [not_null (tgt_ConfigPublic t); check (length_between 1 100 (tgt_Name t));
        check (one_of ["file"; "pull"; "webhook"] (tgt_Kind t))])
    (fun n r => (tgt_TenantID r =s tgt_TenantID n) && (pg_lower (tgt_Name r) =s pg_lower (tgt_Name n)))
    (fun _ _ => true).
Definition T_webhooks : Table WebhookEndpoint :=
  mkTable db_webhooks (fun m db => db <| db_webhooks := m |>) whk_ID whk_TenantID
    (fun w => first_violation
       [not_null (whk_EventTypes w); check (length_between 1 100 (whk_Name w));
        check (length_between 0 2048 (whk_URL w))])
    (fun n r => (whk_TenantID r =s whk_TenantID n) && (pg_lower (whk_Name r) =s pg_lower (whk_Name n)))
    (fun _ _ => true).
Definition grants_unique (n r : Grant) : bool :=
  (grt_TenantID r =s grt_TenantID n) && (grt_ResourceType r =s grt_ResourceType n)
  && (grt_ResourceID r =s grt_ResourceID n) && (grt_SubjectType r =s grt_SubjectType n)
  && (grt_SubjectID r =s grt_SubjectID n).
Definition T_grants : Table Grant :=
  mkTable db_grants (fun m db => db <| db_grants := m |>) grt_ID grt_TenantID
    (fun g => first_violation
       [check (one_of ["certificate"; "issuer"] (grt_ResourceType g));
        check (one_of ["user"; "role"; "tenant"] (grt_SubjectType g));
        check (one_of ["owner"; "editor"; "viewer"; "sharer"] (grt_Relation g))])
    grants_unique (fun _ _ => true).

(** ** Shapes shared by the functions *)

(** [tx.Exec] of an INSERT, an UPDATE or a DELETE on one row of the tenant. *)
Definition exec_insert {R} (T : Table R) (row : Z -> res R) : Sql unit :=
  stmt (fun sc now db => let? r := row now in let? db' := insert_row T sc r db in Ok (tt, db')).
Definition with_key (tenantID id : string) (k : string -> string -> res (Z * Db)) : res (Z * Db) :=
  let? t := uuid_arg tenantID in let? i := uuid_arg id in k t i.
Definition exec_update {R} (T : Table R) (tenantID id : string) (set : Z -> res (R -> R)) : Sql Z :=
  stmt (fun sc now db => with_key tenantID id (fun t i =>
    let? f := set now in
    update_rows T sc (fun r => (t_tenant T r =s t) && (t_id T r =s i)) f db)).
Definition exec_delete {R} (T : Table R) (restrict : Db -> R -> bool) (release : R -> Db -> Db)
  (tenantID id : string) : Sql Z :=
  stmt (fun sc _ db => with_key tenantID id (fun t i =>
    delete_rows T sc restrict release (fun r => (t_tenant T r =s t) && (t_id T r =s i)) db)).
Definition no_restrict {R} (_ : Db) (_ : R) : bool := false.
Definition no_release {R} (_ : R) (db : Db) : Db := db.
(** The row of the tenant with the id. *)
Definition by_id {R} (T : Table R) (tenantID id : string) (sc : Scope) (db : Db) : res (list R) :=
  let? t := uuid_arg tenantID in let? i := uuid_arg id in
  Ok (select T sc (fun r => (t_tenant T r =s t) && (t_id T r =s i)) db).
(** ORDER BY ts DESC, id DESC / ORDER BY ts DESC / ORDER BY lower(name), id. *)
Definition newest_first {A} (ts : A -> Z) (id : A -> string) (a b : A) : bool := key_ltb (ts b, id b) (ts a, id a).
Definition latest {A} (ts : A -> Z) (a b : A) : bool := ts b <? ts a.
Definition earliest {A} (ts : A -> Z) (a b : A) : bool := ts a <? ts b.
Definition by_lower_name {A} (name id : A -> string) (a b : A) : bool :=
  if pg_collate (pg_lower (name a)) (pg_lower (name b)) then true
  else if pg_collate (pg_lower (name b)) (pg_lower (name a)) then false else str_ltb (id a) (id b).
(** [($n::timestamptz IS NULL OR (ts, id) < ($n, $m::uuid))]; a row comparison with
    a NULL id holds when the time alone decides it. *)
Definition before_row (ts : Z) (id : string) (cursor : option Z) (cursorID : option string) : bool :=
  match cursor with
  | None => true
  | Some c => (ts <? c) || match cursorID with Some i => (ts =? c) && str_ltb id i | None => false end
  end.
Definition time_arg (t : Z) : option Z := pg_time <$> nullTime t.

(** ** Issuers *)

(** The columns of [issuerCols]: the last counts the certificates the scope sees. *)
Definition scanIssuer (sc : Scope) (db : Db) (i : Issuer) : Issuer :=
  i <| iss_CertificateCount :=
         Z.of_nat (length (select T_certificates sc (fun c => crt_IssuerID c =s iss_ID i) db)) |>.
Definition sql_InsertIssuer (i : Issuer) : Sql unit :=
  map_err store_restricted (exec_insert T_issuers (fun now =>
    let? id := uuid_arg (iss_ID i) in let? t := uuid_arg (iss_TenantID i) in
    let? ca := opt_arg uuid_arg (iss_CAID i) in
    let? _ := text_args [iss_Name i; iss_Type i; iss_TrustDomain i; iss_ACMEDirectoryURL i; iss_ACMEEmail i; iss_DNSProvider i] in
    let? _ := opt_text_args [iss_CreatedBy i] in
    let? public := json_arg (jsonOrEmpty (iss_SettingsPublic i)) in
    Ok (mkIssuer id t (iss_Name i) (iss_Type i) (iss_TrustDomain i) (iss_IsDefault i) ca (iss_ACMEDirectoryURL i)
          (iss_ACMEEmail i) (iss_DNSProvider i) public (iss_SettingsSealed i) (iss_Enabled i) (iss_CreatedBy i)
          (iss_CreatedBy i) now now 0))).
Definition sql_GetIssuer (tenantID id : string) : Sql Issuer :=
  map_err store_notFound (query_row (fun sc _ db =>
    let? l := by_id T_issuers tenantID id sc db in Ok (scanIssuer sc db <$> l))).
Definition sql_ListIssuers (tenantID afterName : string) (limit : Z) : Sql (list Issuer) :=
  query (fun sc _ db =>
    let? t := uuid_arg tenantID in let? after := text_arg afterName in
    let? l := limit_rows limit (order_by (by_lower_name iss_Name iss_ID)
                (select T_issuers sc (fun i => (iss_TenantID i =s t)
                                               && pg_collate (pg_lower after) (pg_lower (iss_Name i))) db)) in
    Ok (scanIssuer sc db <$> l)).
Definition sql_IssuersByIDs (tenantID : string) (ids : list string) : Sql (list Issuer) :=
  query (fun sc _ db =>
    let? t := uuid_arg tenantID in let? ids := list_arg uuid_arg ids in
    Ok (scanIssuer sc db <$> order_by (by_lower_name iss_Name iss_ID)
          (select T_issuers sc (fun i => (iss_TenantID i =s t) && contains ids (iss_ID i)) db))).
Definition sql_DefaultIssuer (tenantID trustDomain : string) : Sql Issuer :=
  map_err store_notFound (query_row (fun sc _ db =>
    let? t := uuid_arg tenantID in let? td := text_arg trustDomain in
    Ok (scanIssuer sc db <$> select T_issuers sc (fun i => (iss_TenantID i =s t) && (iss_TrustDomain i =s td)
                                                           && iss_IsDefault i) db))).
Definition sql_UpdateIssuer (i : Issuer) : Sql unit :=
  affected (map_err store_restricted (exec_update T_issuers (iss_TenantID i) (iss_ID i) (fun now =>
    let? ca := opt_arg uuid_arg (iss_CAID i) in
    let? _ := text_args [iss_Name i; iss_Type i; iss_TrustDomain i; iss_ACMEDirectoryURL i; iss_ACMEEmail i; iss_DNSProvider i] in
    let? _ := opt_text_args [iss_UpdatedBy i] in
    let? public := json_arg (jsonOrEmpty (iss_SettingsPublic i)) in
    Ok (fun old => old <| iss_Name := iss_Name i |> <| iss_Type := iss_Type i |> <| iss_TrustDomain := iss_TrustDomain i |>
          <| iss_IsDefault := iss_IsDefault i |> <| iss_CAID := ca |> <| iss_ACMEDirectoryURL := iss_ACMEDirectoryURL i |>
          <| iss_ACMEEmail := iss_ACMEEmail i |> <| iss_DNSProvider := iss_DNSProvider i |>
          <| iss_SettingsPublic := public |> <| iss_SettingsSealed := iss_SettingsSealed i |>
          <| iss_Enabled := iss_Enabled i |> <| iss_UpdatedBy := iss_UpdatedBy i |> <| iss_UpdatedAt := now |>)))).
Definition sql_ClearDefaultIssuer (tenantID trustDomain exceptID : string) : Sql unit :=
  let* _ := stmt (fun sc now db =>
    let? t := uuid_arg tenantID in let? td := text_arg trustDomain in let? e := uuid_arg exceptID in
    update_rows T_issuers sc (fun i => (iss_TenantID i =s t) && (iss_TrustDomain i =s td) && iss_IsDefault i
                                       && (iss_ID i <>s e))
      (fun i => i <| iss_IsDefault := false |> <| iss_UpdatedAt := now |>) db) in
  st_ret tt.
(** The references to an issuer: certificates restrict, requests are released. *)
Definition issuer_in_use (db : Db) (i : Issuer) : bool :=
  existsb (fun x => crt_IssuerID x.2 =s iss_ID i) (map_to_list (db_certificates db)).
Definition release_issuer (i : Issuer) (db : Db) : Db :=
  db <| db_requests := (fun r => if bool_decide (req_IssuerID r = Some (iss_ID i)) then r <| req_IssuerID := None |> else r)
                       <$> db_requests db |>.
Definition sql_DeleteIssuer (tenantID id : string) : Sql unit :=
  affected (map_err store_restricted (exec_delete T_issuers issuer_in_use release_issuer tenantID id)).

(** ** Certificate authorities *)
Definition sql_InsertCA (c : CA) : Sql unit :=
  map_err store_conflict (exec_insert T_cas (fun now =>
    let? id := uuid_arg (ca_ID c) in let? t := uuid_arg (ca_TenantID c) in
    let? _ := text_args [ca_TrustDomain c; ca_CertPEM c; ca_State c; ca_Serial c] in
    Ok (mkCA id t (ca_TrustDomain c) (ca_CertPEM c) (ca_KeySealed c) (ca_State c) (pg_time (ca_NotBefore c))
          (pg_time (ca_NotAfter c)) (ca_Serial c) now))).
Definition sql_GetCA (tenantID id : string) : Sql CA :=
  map_err store_notFound (query_row (fun sc _ db => by_id T_cas tenantID id sc db)).
Definition sql_CAByState (tenantID trustDomain state : string) : Sql CA :=
  map_err store_notFound (query_row (fun sc _ db =>
    let? t := uuid_arg tenantID in let? td := text_arg trustDomain in let? st := text_arg state in
    limit_rows 1 (order_by (latest ca_CreatedAt)
      (select T_cas sc (fun c => (ca_TenantID c =s t) && (ca_TrustDomain c =s td) && (ca_State c =s st)) db)))).
Definition sql_CAsForDomain (tenantID trustDomain : string) : Sql (list CA) :=
  query (fun sc _ db =>
    let? t := uuid_arg tenantID in let? td := text_arg trustDomain in
    Ok (order_by (latest ca_CreatedAt)
          (select T_cas sc (fun c => (ca_TenantID c =s t) && (ca_TrustDomain c =s td)) db))).
Definition sql_SetCAState (tenantID id state : string) : Sql unit :=
  affected (map_err store_conflict (exec_update T_cas tenantID id (fun _ =>
    let? st := text_arg state in Ok (fun c => c <| ca_State := st |>)))).
Definition ca_in_use (db : Db) (c : CA) : bool :=
  existsb (fun x => bool_decide (iss_CAID x.2 = Some (ca_ID c))) (map_to_list (db_issuers db)).
Definition sql_DeleteCA (tenantID id : string) : Sql unit :=
  affected (map_err store_restricted (exec_delete T_cas ca_in_use no_release tenantID id)).

(** ** Certificate requests *)
Definition sql_InsertRequest (r : CertificateRequest) : Sql unit :=
  map_err store_restricted (exec_insert T_requests (fun now =>
    let? id := uuid_arg (req_ID r) in let? t := uuid_arg (req_TenantID r) in
    let? issuer := opt_arg uuid_arg (req_IssuerID r) in
    let? spiffe := opt_arg text_arg (nullIfEmpty (req_SpiffeID r)) in
    let? sans := json_arg (jsonArrayOrEmpty (req_SANs r)) in
    let? _ := text_args [defaultKind (req_Kind r); req_KeyType r; req_RequestedBy r; req_RequesterKind r; req_Status r] in
    let? _ := opt_text_args [req_CSRPEM r; req_Approver r; req_Reason r] in
    let? cert := opt_arg uuid_arg (req_CertificateID r) in
    Ok (mkCertificateRequest id t issuer (defaultKind (req_Kind r)) (default "" spiffe) sans (req_KeyType r) (req_CSRPEM r)
          (req_ValiditySeconds r) (req_RequestedBy r) (req_RequesterKind r) (req_Status r) (req_Approver r) (req_Reason r)
          cert now now))).
Definition sql_GetRequest (tenantID id : string) : Sql CertificateRequest :=
  map_err store_notFound (query_row (fun sc _ db => by_id T_requests tenantID id sc db)).
Definition sql_ListRequests (tenantID : string) (f : RequestFilter) : Sql (list CertificateRequest) :=
  query (fun sc _ db =>
    let? t := uuid_arg tenantID in let? st := text_arg (rqf_Status f) in
    let? ci := opt_arg uuid_arg (nullIfEmpty (rqf_CursorID f)) in
    limit_rows (rqf_Limit f) (order_by (newest_first req_CreatedAt req_ID)
      (select T_requests sc (fun r => (req_TenantID r =s t) && ((st =s "") || (req_Status r =s st))
                                      && before_row (req_CreatedAt r) (req_ID r) (time_arg (rqf_CursorTS f)) ci) db))).
(** [COALESCE(new, old)]. *)
Definition coalesce {A} (new old : option A) : option A := match new with Some _ => new | None => old end.
Definition sql_SetRequestStatus (tenantID id status : string) (approver reason : option string) : Sql unit :=
  affected (exec_update T_requests tenantID id (fun now =>
    let? st := text_arg status in let? _ := opt_text_args [approver; reason] in
    Ok (fun r => r <| req_Status := st |> <| req_Approver := coalesce approver (req_Approver r) |>
                   <| req_Reason := coalesce reason (req_Reason r) |> <| req_UpdatedAt := now |>))).
Definition sql_CompleteRequest (tenantID id status : string) (certificateID reason : option string) : Sql unit :=
  affected (exec_update T_requests tenantID id (fun now =>
    let? st := text_arg status in let? cert := opt_arg uuid_arg certificateID in let? _ := opt_text_args [reason] in
    Ok (fun r => r <| req_Status := st |> <| req_CertificateID := cert |> <| req_Reason := reason |>
                   <| req_UpdatedAt := now |>))).
Definition sql_DeleteRequest (tenantID id : string) : Sql unit :=
  affected (exec_delete T_requests no_restrict no_release tenantID id).

(** ** Certificate jobs *)
Definition sql_InsertJob (j : CertificateJob) : Sql unit :=
  exec_insert T_jobs (fun now =>
    let? id := uuid_arg (job_ID j) in let? t := uuid_arg (job_TenantID j) in let? r := uuid_arg (job_RequestID j) in
    let? _ := text_args [job_Type j; job_Status j] in let? _ := opt_text_args [job_Error j] in
    let? a := int4_arg (job_Attempts j) in let? ma := int4_arg (job_MaxAttempts j) in
    let? c := opt_arg uuid_arg (job_ResultCertificateID j) in
    Ok (mkCertificateJob id t r (job_Type j) (job_Status j) (pg_time <$> job_LeaseUntil j) a ma c (job_Error j)
          (pg_time (job_RunAfter j)) now now)).
Definition sql_GetJob (tenantID id : string) : Sql CertificateJob :=
  map_err store_notFound (query_row (fun sc _ db => by_id T_jobs tenantID id sc db)).
Definition sql_ListJobs (tenantID : string) (f : JobFilter) : Sql (list CertificateJob) :=
  query (fun sc _ db =>
    let? t := uuid_arg tenantID in let? st := text_arg (jbf_Status f) in
    let? ci := opt_arg uuid_arg (nullIfEmpty (jbf_CursorID f)) in
    limit_rows (jbf_Limit f) (order_by (newest_first job_CreatedAt job_ID)
      (select T_jobs sc (fun j => (job_TenantID j =s t) && ((st =s "") || (job_Status j =s st))
                                  && before_row (job_CreatedAt j) (job_ID j) (time_arg (jbf_CursorTS f)) ci) db))).
Definition sql_UpdateJob (j : CertificateJob) : Sql unit :=
  affected (exec_update T_jobs (job_TenantID j) (job_ID j) (fun now =>
    let? st := text_arg (job_Status j) in let? _ := opt_text_args [job_Error j] in
    let? a := int4_arg (job_Attempts j) in let? ma := int4_arg (job_MaxAttempts j) in
    let? c := opt_arg uuid_arg (job_ResultCertificateID j) in
    Ok (fun old => old <| job_Status := st |> <| job_LeaseUntil := pg_time <$> job_LeaseUntil j |> <| job_Attempts := a |>
          <| job_MaxAttempts := ma |> <| job_ResultCertificateID := c |> <| job_Error := job_Error j |>
          <| job_RunAfter := pg_time (job_RunAfter j) |> <| job_UpdatedAt := now |>))).
Definition sql_DeleteJob (tenantID id : string) : Sql unit :=
  affected (exec_delete T_jobs no_restrict no_release tenantID id).
(** The due jobs no other transaction holds, then their update. *)
Definition sql_job_due (now : Z) (j : CertificateJob) : bool :=
  (job_Status j =s "queued") && (job_RunAfter j <=? now)
  && match job_LeaseUntil j with None => true | Some l => l <? now end.
Definition lease_job (until now : Z) (j : CertificateJob) : CertificateJob :=
  j <| job_Status := "processing" |> <| job_LeaseUntil := Some until |> <| job_Attempts := job_Attempts j + 1 |>
    <| job_UpdatedAt := now |>.
Definition sql_ClaimDueJobs (now lease limit : Z) : Sql (list CertificateJob) :=
  stmt (fun sc txnow db =>
    let? due := limit_rows limit (order_by (earliest job_RunAfter)
                  (select T_jobs sc (fun j => sql_job_due (pg_time now) j && negb (pg_locked (job_ID j))) db)) in
    let mine j := contains (job_ID <$> due) (job_ID j) in
    if existsb (fun j => 2 ^ 31 - 1 <=? job_Attempts j) due then Err (PgError "22003")
    else
      let f := lease_job (pg_time (now + lease)) txnow in
      let hit := select T_jobs sc mine db in
      let? (_, db') := update_rows T_jobs sc mine f db in
      Ok (f <$> hit, db')).

(** ** Issued certificates *)
Definition sql_InsertCertificate (c : IssuedCertificate) : Sql unit :=
  map_err store_restricted (exec_insert T_certificates (fun now =>
    let? id := uuid_arg (crt_ID c) in let? t := uuid_arg (crt_TenantID c) in let? i := uuid_arg (crt_IssuerID c) in
    let? r := opt_arg uuid_arg (crt_RequestID c) in let? sup := opt_arg uuid_arg (crt_SupersededBy c) in
    let? sans := json_arg (jsonArrayOrEmpty (crt_SANs c)) in
    let? _ := text_args [crt_Serial c; crt_SpiffeID c; crt_Subject c; crt_FingerprintSHA256 c; crt_Status c; crt_CertPEM c;
                     crt_ChainPEM c; crt_Owner c; defaultKind (crt_Kind c)] in
    let? _ := opt_text_args [crt_CreatedBy c] in
    Ok (mkIssuedCertificate id t i (defaultKind (crt_Kind c)) r (crt_Serial c) (crt_SpiffeID c) (crt_Subject c) sans
          (pg_time (crt_NotBefore c)) (pg_time (crt_NotAfter c)) (crt_FingerprintSHA256 c) (crt_Status c) (crt_CertPEM c)
          (crt_ChainPEM c) (crt_KeySealed c) (crt_KeyDelivered c) (crt_AutoRenew c) sup (crt_Owner c) (crt_CreatedBy c)
          (crt_CreatedBy c) now now))).
Definition sql_GetCertificate (tenantID id : string) : Sql IssuedCertificate :=
  map_err store_notFound (query_row (fun sc _ db => by_id T_certificates tenantID id sc db)).
Definition sql_ListCertificates (tenantID : string) (f : CertificateFilter) : Sql (list IssuedCertificate) :=
  query (fun sc _ db =>
    let? t := uuid_arg tenantID in let? _ := text_args [crf_IssuerID f; crf_SpiffeID f; crf_Status f] in
    let? ci := opt_arg uuid_arg (nullIfEmpty (crf_CursorID f)) in
    limit_rows (crf_Limit f) (order_by (newest_first crt_CreatedAt crt_ID)
      (select T_certificates sc (fun c => (crt_TenantID c =s t)
         && ((crf_IssuerID f =s "") || (crt_IssuerID c =s crf_IssuerID f))
         && ((crf_SpiffeID f =s "") || (crt_SpiffeID c =s crf_SpiffeID f))
         && ((crf_Status f =s "") || (crt_Status c =s crf_Status f))
         && before_row (crt_CreatedAt c) (crt_ID c) (time_arg (crf_CursorTS f)) ci) db))).
Definition sql_CertificatesByIDs (tenantID : string) (ids : list string) : Sql (list IssuedCertificate) :=
  query (fun sc _ db =>
    let? t := uuid_arg tenantID in let? ids := list_arg uuid_arg ids in
    Ok (order_by (newest_first crt_CreatedAt crt_ID)
          (select T_certificates sc (fun c => (crt_TenantID c =s t) && contains ids (crt_ID c)) db))).
Definition sql_UpdateCertificate (c : IssuedCertificate) : Sql unit :=
  affected (exec_update T_certificates (crt_TenantID c) (crt_ID c) (fun now =>
    let? _ := text_args [crt_Status c; crt_ChainPEM c; crt_Owner c] in let? _ := opt_text_args [crt_UpdatedBy c] in
    let? sup := opt_arg uuid_arg (crt_SupersededBy c) in
    Ok (fun old => old <| crt_Status := crt_Status c |> <| crt_ChainPEM := crt_ChainPEM c |> <| crt_KeySealed := crt_KeySealed c |>
          <| crt_KeyDelivered := crt_KeyDelivered c |> <| crt_SupersededBy := sup |> <| crt_Owner := crt_Owner c |>
          <| crt_UpdatedBy := crt_UpdatedBy c |> <| crt_AutoRenew := crt_AutoRenew c |> <| crt_UpdatedAt := now |>))).
Definition sql_SetCertificateStatus (tenantID id status : string) (supersededBy : option string) : Sql unit :=
  affected (exec_update T_certificates tenantID id (fun now =>
    let? st := text_arg status in let? sup := opt_arg uuid_arg supersededBy in
    Ok (fun c => c <| crt_Status := st |> <| crt_SupersededBy := coalesce sup (crt_SupersededBy c) |> <| crt_UpdatedAt := now |>))).
Definition sql_MarkKeyDelivered (tenantID id : string) : Sql unit :=
  affected (exec_update T_certificates tenantID id (fun now =>
    Ok (fun c => c <| crt_KeyDelivered := true |> <| crt_KeySealed := None |> <| crt_UpdatedAt := now |>))).
Definition sql_DeleteCertificate (tenantID id : string) : Sql unit :=
  affected (map_err store_restricted (exec_delete T_certificates no_restrict no_release tenantID id)).
(** [status IN ('active','expiring') AND superseded_by IS NULL AND not_after > $1 AND not_after <= $2]. *)
Definition live_until (now before : Z) (c : IssuedCertificate) : bool :=
  one_of ["active"; "expiring"] (crt_Status c) && bool_decide (crt_SupersededBy c = None)
  && (now <? crt_NotAfter c) && (crt_NotAfter c <=? before).
Definition sql_DueForRenewal (now notAfterBefore limit : Z) : Sql (list IssuedCertificate) :=
  query (fun sc _ db => limit_rows limit (order_by (earliest crt_NotAfter)
    (select T_certificates sc (fun c => live_until (pg_time now) (pg_time notAfterBefore) c && crt_AutoRenew c
                                        && negb (pg_locked (crt_ID c))) db))).
Definition sql_ExpiringCertificates (tenantID : string) (now before limit : Z) : Sql (list IssuedCertificate) :=
  query (fun sc _ db =>
    let? t := uuid_arg tenantID in
    limit_rows limit (order_by (fun a b => key_ltb (crt_NotAfter a, crt_ID a) (crt_NotAfter b, crt_ID b))
      (select T_certificates sc (fun c => (crt_TenantID c =s t) && live_until (pg_time now) (pg_time before) c) db))).

(** ** Revocations and installed certificates *)
Definition sql_InsertRevocation (r : Revocation) : Sql unit :=
  map_err store_conflict (exec_insert T_revocations (fun _ =>
    let? id := uuid_arg (rev_ID r) in let? t := uuid_arg (rev_TenantID r) in let? c := uuid_arg (rev_CertificateID r) in
    let? _ := text_args [rev_Serial r; rev_Reason r] in let? _ := opt_text_args [rev_RevokedBy r] in
    Ok (mkRevocation id t c (rev_Serial r) (rev_Reason r) (pg_time (rev_RevokedAt r)) (rev_RevokedBy r)))).
(** [($n::timestamptz IS NULL OR ts < $n)]. *)
Definition before_time (ts : Z) (cursor : option Z) : bool := match cursor with None => true | Some c => ts <? c end.
Definition sql_ListRevocations (tenantID : string) (cursor limit : Z) : Sql (list Revocation) :=
  query (fun sc _ db =>
    let? t := uuid_arg tenantID in
    limit_rows limit (order_by (latest rev_RevokedAt)
      (select T_revocations sc (fun r => (rev_TenantID r =s t) && before_time (rev_RevokedAt r) (time_arg cursor)) db))).
Definition sql_UpsertInstalled (i : InstalledCertificate) : Sql unit :=
  let* _ := stmt (fun sc _ db =>
    let? id := uuid_arg (ins_ID i) in let? t := uuid_arg (ins_TenantID i) in let? c := uuid_arg (ins_CertificateID i) in
    let? cl := text_arg (ins_ClientID i) in
    let row := mkInstalledCertificate id t c cl (pg_time (ins_InstalledAt i)) (pg_time (ins_ReportedAt i)) in
    upsert_row T_installed sc installed_unique row (fun old => old <| ins_ReportedAt := ins_ReportedAt row |>) db) in
  st_ret tt.
Definition sql_ListInstalled (tenantID clientID : string) (cursor limit : Z) : Sql (list InstalledCertificate) :=
  query (fun sc _ db =>
    let? t := uuid_arg tenantID in let? cl := text_arg clientID in
    limit_rows limit (order_by (latest ins_ReportedAt)
      (select T_installed sc (fun i => (ins_TenantID i =s t) && ((cl =s "") || (ins_ClientID i =s cl))
                                       && before_time (ins_ReportedAt i) (time_arg cursor)) db))).

(** ** Deployment targets *)
Definition sql_InsertTarget (t : DeploymentTarget) : Sql unit :=
  map_err store_conflict (exec_insert T_targets (fun now =>
    let? id := uuid_arg (tgt_ID t) in let? tn := uuid_arg (tgt_TenantID t) in
    let? _ := text_args [tgt_Name t; tgt_Kind t] in let? _ := opt_text_args [tgt_CreatedBy t] in
    let? public := json_arg (jsonOrEmpty (tgt_ConfigPublic t)) in
    Ok (mkDeploymentTarget id tn (tgt_Name t) (tgt_Kind t) public (tgt_ConfigSealed t) (tgt_CreatedBy t) (tgt_CreatedBy t)
          now now))).
Definition sql_GetTarget (tenantID id : string) : Sql DeploymentTarget :=
  map_err store_notFound (query_row (fun sc _ db => by_id T_targets tenantID id sc db)).
(** [WHERE tenant_id = $1 ORDER BY lower(name), id LIMIT 1000]. *)
Definition list_named {R} (T : Table R) (name : R -> string) (tenantID : string) : Sql (list R) :=
  query (fun sc _ db =>
    let? t := uuid_arg tenantID in
    limit_rows 1000 (order_by (by_lower_name name (t_id T)) (select T sc (fun r => t_tenant T r =s t) db))).
Definition sql_ListTargets (tenantID : string) : Sql (list DeploymentTarget) := list_named T_targets tgt_Name tenantID.
Definition sql_DeleteTarget (tenantID id : string) : Sql unit :=
  affected (exec_delete T_targets no_restrict no_release tenantID id).

(** ** Tenant secrets *)
Definition sql_InsertSecret (s : TenantSecret) : Sql unit :=
  map_err store_conflict (exec_insert T_secrets (fun now =>
    let? id := uuid_arg (sec_ID s) in let? t := uuid_arg (sec_TenantID s) in
    let? _ := text_args [sec_Name s; sec_Kind s] in let? _ := opt_text_args [sec_CreatedBy s] in
    Ok (mkTenantSecret id t (sec_Name s) (sec_Kind s) (sec_ValueSealed s) (sec_CreatedBy s) (sec_CreatedBy s) now now))).
Definition sql_GetSecret (tenantID id : string) : Sql TenantSecret :=
  map_err store_notFound (query_row (fun sc _ db => by_id T_secrets tenantID id sc db)).
Definition sql_SecretByName (tenantID name : string) : Sql TenantSecret :=
  map_err store_notFound (query_row (fun sc _ db =>
    let? t := uuid_arg tenantID in let? n := text_arg name in
    Ok (select T_secrets sc (fun s => (sec_TenantID s =s t) && (pg_lower (sec_Name s) =s pg_lower n)) db))).
Definition sql_ListSecrets (tenantID : string) : Sql (list TenantSecret) := list_named T_secrets sec_Name tenantID.
Definition sql_UpdateSecret (s : TenantSecret) : Sql unit :=
  affected (map_err store_conflict (exec_update T_secrets (sec_TenantID s) (sec_ID s) (fun now =>
    let? _ := text_args [sec_Name s; sec_Kind s] in let? _ := opt_text_args [sec_UpdatedBy s] in
    Ok (fun old => old <| sec_Name := sec_Name s |> <| sec_Kind := sec_Kind s |> <| sec_ValueSealed := sec_ValueSealed s |>
          <| sec_UpdatedBy := sec_UpdatedBy s |> <| sec_UpdatedAt := now |>)))).
Definition sql_DeleteSecret (tenantID id : string) : Sql unit :=
  affected (exec_delete T_secrets no_restrict no_release tenantID id).

(** ** Webhook endpoints *)
Definition scanWebhook (w : WebhookEndpoint) : WebhookEndpoint := w <| whk_EventTypes := Some (nonNil (whk_EventTypes w)) |>.
Definition sql_InsertWebhook (w : WebhookEndpoint) : Sql unit :=
  map_err store_conflict (exec_insert T_webhooks (fun now =>
    let? id := uuid_arg (whk_ID w) in let? t := uuid_arg (whk_TenantID w) in
    let? _ := text_args ([whk_Name w; whk_URL w] ++ nonNil (whk_EventTypes w)) in let? _ := opt_text_args [whk_CreatedBy w] in
    Ok (mkWebhookEndpoint id t (whk_Name w) (whk_URL w) (Some (nonNil (whk_EventTypes w))) (whk_SecretSealed w)
          (whk_Enabled w) (whk_CreatedBy w) (whk_CreatedBy w) now now))).
Definition sql_GetWebhook (tenantID id : string) : Sql WebhookEndpoint :=
  map_err store_notFound (query_row (fun sc _ db => let? l := by_id T_webhooks tenantID id sc db in Ok (scanWebhook <$> l))).
Definition sql_ListWebhooks (tenantID : string) : Sql (list WebhookEndpoint) :=
  let* l := list_named T_webhooks whk_Name tenantID in st_ret (scanWebhook <$> l).
Definition sql_WebhooksForEvent (tenantID eventType : string) : Sql (list WebhookEndpoint) :=
  query (fun sc _ db =>
    let? t := uuid_arg tenantID in let? e := text_arg eventType in
    Ok (scanWebhook <$> order_by (by_lower_name whk_Name whk_ID)
          (select T_webhooks sc (fun w => (whk_TenantID w =s t) && whk_Enabled w && contains (nonNil (whk_EventTypes w)) e) db))).
Definition sql_DeleteWebhook (tenantID id : string) : Sql unit :=
  affected (exec_delete T_webhooks no_restrict no_release tenantID id).

(** ** Grants *)
Definition sql_UpsertGrant (g : Grant) : Sql Grant :=
  map_err store_notFound (stmt (fun sc now db =>
    let? id := uuid_arg (grt_ID g) in let? t := uuid_arg (grt_TenantID g) in let? rid := uuid_arg (grt_ResourceID g) in
    let? _ := text_args [grt_ResourceType g; grt_SubjectType g; grt_SubjectID g; grt_Relation g] in
    let? _ := opt_text_args [grt_GrantedBy g] in
    let row := mkGrant id t (grt_ResourceType g) rid (grt_SubjectType g) (grt_SubjectID g) (grt_Relation g) (grt_GrantedBy g)
                 now (pg_time <$> grt_ExpiresAt g) in
    upsert_row T_grants sc grants_unique row
      (fun old => old <| grt_Relation := grt_Relation row |> <| grt_GrantedBy := grt_GrantedBy row |>
                      <| grt_GrantedAt := now |> <| grt_ExpiresAt := grt_ExpiresAt row |>) db)).
Definition sql_GetGrant (tenantID id : string) : Sql Grant :=
  map_err store_notFound (query_row (fun sc _ db => by_id T_grants tenantID id sc db)).
Definition sql_DeleteGrant (tenantID id : string) : Sql unit :=
  affected (exec_delete T_grants no_restrict no_release tenantID id).
Definition sql_GrantsOnResource (tenantID resourceType resourceID : string) : Sql (list Grant) :=
  query (fun sc _ db =>
    let? t := uuid_arg tenantID in let? rt := text_arg resourceType in let? rid := uuid_arg resourceID in
    Ok (order_by (earliest grt_GrantedAt)
          (select T_grants sc (fun g => (grt_TenantID g =s t) && (grt_ResourceType g =s rt) && (grt_ResourceID g =s rid)) db))).
Definition grant_held (uid : string) (roles : list string) (now : Z) (g : Grant) : bool :=
  (((grt_SubjectType g =s "user") && (grt_SubjectID g =s uid))
   || ((grt_SubjectType g =s "role") && contains roles (grt_SubjectID g)) || (grt_SubjectType g =s "tenant"))
  && match grt_ExpiresAt g with None => true | Some e => now <? e end.
Definition sql_GrantsForSubjects (tenantID userID : string) (roles : list string) (now : Z) : Sql (list Grant) :=
  query (fun sc _ db =>
    let? t := uuid_arg tenantID in let? u := text_arg userID in let? _ := text_args roles in
    Ok (order_by (earliest grt_GrantedAt)
          (select T_grants sc (fun g => (grt_TenantID g =s t) && grant_held u roles (pg_time now) g) db))).
Definition sql_DeleteGrantsOfResource (tenantID resourceType resourceID : string) : Sql unit :=
  let* _ := stmt (fun sc _ db =>
    let? t := uuid_arg tenantID in let? rt := text_arg resourceType in let? rid := uuid_arg resourceID in
    delete_rows T_grants sc no_restrict no_release
      (fun g => (grt_TenantID g =s t) && (grt_ResourceType g =s rt) && (grt_ResourceID g =s rid)) db) in
  st_ret tt.

(** ** Logs *)
Definition insert_log (sc : Scope) (r : CertLogRow) (db : Db) : res (unit * Db) :=
  if negb (app_tenant_matches sc (log_TenantID r)) then Err (PgError "42501")
  else if negb (one_of ["issued"; "renewed"; "revoked"; "failed"] (log_Event r)) then Err (PgError "23514")
  else Ok (tt, db <| db_log := db_log db ++ [r] |>).
Fixpoint sql_InsertCertLog (rows : list CertLogRow) : Sql unit :=
  match rows with
  | [] => st_ret tt
  | r :: rows' =>
    let* _ := stmt (fun sc _ db =>
      let? t := uuid_arg (log_TenantID r) in let? c := opt_arg uuid_arg (nullIfEmpty (log_CertificateID r)) in
      let? i := opt_arg uuid_arg (nullIfEmpty (log_IssuerID r)) in
      let? _ := text_args [log_Event r; log_SpiffeID r; log_Error r] in
      insert_log sc (mkCertLogRow (pg_time (log_TS r)) t (default "" c) (log_Event r) (default "" i) (log_SpiffeID r)
                       (log_Error r)) db) in
    sql_InsertCertLog rows'
  end.
Definition insert_audit (sc : Scope) (r : AuditRow) (db : Db) : res (unit * Db) :=
  if negb (app_tenant_matches sc (aud_TenantID r)) then Err (PgError "42501")
  else if negb (one_of ["user"; "service"; "system"] (aud_ActorKind r) && one_of ["ok"; "refused"; "failed"] (aud_Outcome r))
  then Err (PgError "23514")
  else Ok (tt, db <| db_audit := db_audit db ++ [r <| aud_ID := db_seq db |>] |> <| db_seq := db_seq db + 1 |>).
Fixpoint sql_InsertAuditRows (rows : list AuditRow) : Sql unit :=
  match rows with
  | [] => st_ret tt
  | r :: rows' =>
    let* _ := stmt (fun sc _ db =>
      let? t := uuid_arg (aud_TenantID r) in
      let? _ := text_args [aud_EventType r; aud_ActorKind r; aud_ActorID r; aud_SubjectKind r; aud_SubjectID r; aud_Outcome r;
                       aud_Reason r; aud_CorrelationID r] in
      let? details := json_arg (jsonOrEmpty (aud_Details r)) in
      insert_audit sc (r <| aud_TS := pg_time (aud_TS r) |> <| aud_TenantID := t |> <| aud_Details := details |>
                         <| aud_SubjectName := "" |>) db) in
    sql_InsertAuditRows rows'
  end.
(** The last column of [auditCols]: the name of the live subject. *)
Definition audit_name (sc : Scope) (db : Db) (a : AuditRow) : string :=
  if negb (IsUUID (aud_SubjectID a)) then ""
  else match pg_uuid (aud_SubjectID a) with
  | None => ""
  | Some id =>
    let named {R} (T : Table R) (name : R -> string) :=
      match select T sc (fun r => (t_tenant T r =s aud_TenantID a) && (t_id T r =s id)) db with
      | r :: _ => name r
      | [] => ""
      end in
    let k := aud_SubjectKind a in
    if k =s "issuer" then named T_issuers iss_Name
    else if k =s "certificate" then named T_certificates crt_SpiffeID
    else if k =s "secret" then named T_secrets sec_Name
    else if k =s "webhook" then named T_webhooks whk_Name
    else ""
  end.
Definition scanAudit (sc : Scope) (db : Db) (a : AuditRow) : AuditRow := a <| aud_SubjectName := audit_name sc db a |>.
(** The rows of the logs the scope sees. *)
Definition visible_audit (sc : Scope) (db : Db) : list AuditRow :=
  filter (fun a => app_tenant_matches sc (aud_TenantID a) = true) (db_audit db).
Definition visible_log (sc : Scope) (db : Db) : list CertLogRow :=
  filter (fun l => app_tenant_matches sc (log_TenantID l) = true) (db_log db).
Definition at_or_after (ts : Z) (from : option Z) : bool := match from with None => true | Some c => c <=? ts end.
Definition at_or_before (ts : Z) (to : option Z) : bool := match to with None => true | Some c => ts <=? c end.
Definition sql_QueryAudit (tenantID : string) (f : AuditFilter) : Sql (list AuditRow) :=
  query (fun sc _ db =>
    let? t := uuid_arg tenantID in let? _ := text_args [adf_EventType f; adf_ActorID f] in
    let? l := limit_rows (AuditLimit (adf_Limit f))
      (order_by (fun a b => if aud_TS a =? aud_TS b then aud_ID b <? aud_ID a else aud_TS b <? aud_TS a)
        (pg_scan (filter (fun a => (aud_TenantID a =s t) && ((adf_EventType f =s "") || (aud_EventType a =s adf_EventType f))
           && ((adf_ActorID f =s "") || (aud_ActorID a =s adf_ActorID f))
           && at_or_after (aud_TS a) (time_arg (adf_From f)) && at_or_before (aud_TS a) (time_arg (adf_To f))
           && before_time (aud_TS a) (time_arg (adf_Cursor f)) = true) (visible_audit sc db)))) in
    Ok (scanAudit sc db <$> l)).

(** ** Statistics *)
Definition count_rows {R} (T : Table R) (sc : Scope) (P : R -> bool) (db : Db) : Z :=
  Z.of_nat (length (select T sc P db)).
(** The number of rows per status (GROUP BY status), collected in a map. *)
Definition group_counts (keys : list string) : gmap string Z :=
  foldr (fun k acc => <[k := Z.of_nat (length (filter (fun x => x = k) keys))]> acc) ∅ keys.
Definition sql_TenantStats (tenantID : string) (now window : Z) : Sql Stats :=
  let since := pg_time (now - window) in
  let expBefore := pg_time (now + window) in
  let* st := query (fun sc _ db =>
    let? t := uuid_arg tenantID in
    Ok (mkStats (count_rows T_issuers sc (fun i => iss_TenantID i =s t) db) ∅ ∅
          (Z.of_nat (size (list_to_set (ins_ClientID <$> select T_installed sc (fun i => ins_TenantID i =s t) db) : gset string)))
          (count_rows T_certificates sc (fun c => (crt_TenantID c =s t) && one_of ["active"; "expiring"] (crt_Status c)
                                                  && (pg_time now <? crt_NotAfter c) && (crt_NotAfter c <=? expBefore)) db)
          (Z.of_nat (length (filter (fun l => (log_TenantID l =s t) && (log_Event l =s "failed") && (since <=? log_TS l) = true)
                                    (visible_log sc db))))
          (Z.of_nat (length (filter (fun a => (aud_TenantID a =s t) && (since <=? aud_TS a) = true)
                                    (visible_audit sc db)))))) in
  let* certs := query (fun sc _ db =>
    let? t := uuid_arg tenantID in
    Ok (group_counts (crt_Status <$> select T_certificates sc (fun c => crt_TenantID c =s t) db))) in
  let* jobs := query (fun sc _ db =>
    let? t := uuid_arg tenantID in
    Ok (group_counts (job_Status <$> select T_jobs sc (fun j => job_TenantID j =s t) db))) in
  st_ret (st <| sts_Certificates := certs |> <| sts_Jobs := jobs |>).
End repos.
