(* ===== verification/SqlDb.v ===== *)
(** The store over the database: internal/repo/repodb/db.go, which binds the
    interface of internal/repo to the repositories, one method each.

    [Op] lists the methods and [Prog] the functions handed to Atomic, so that what
    is said of every method and of every transaction is one statement. *)

From S2P Require Import Prelude Rows Sql SqlStore.

(** [repodb.DB]: over the pool, or inside the transaction of Atomic. *)
Inductive RepoDB := OverPool (sv : PgServer) | InTx (s : TxS).

Section repodb.
Context `{Postgres}.
Definition db_run {A} (scope : Scope) (fn : Sql A) : ST RepoDB A := fun d =>
  match d with
  | InTx s => let '(r, s') := fn s in (r, InTx s')
  | OverPool sv => let '(r, sv') := Store_Tx scope fn sv in (r, OverPool sv')
  end.
Definition db_tenant {A} (tid : string) (fn : Sql A) : ST RepoDB A := db_run (mkScope tid false) fn.
Definition db_system {A} (fn : Sql A) : ST RepoDB A := db_run (mkScope "" true) fn.
Definition DB_Atomic {A} (tenantID : string) (fn : ST RepoDB A) : ST RepoDB A := fun d =>
  match d with
  | InTx _ => fn d
  | OverPool sv =>
    let '(r, sv') := Store_Tx (mkScope tenantID false)
      (fun tx => match fn (InTx tx) with
                 | (r, InTx tx') => (r, tx')
                 | (r, OverPool _) => (r, tx)
                 end) sv in
    (r, OverPool sv')
  end.

(** ** The methods *)
Definition DB_InsertIssuer (i : Issuer) : ST RepoDB unit :=
  db_tenant (iss_TenantID i) (sql_InsertIssuer i).
Definition DB_GetIssuer (tid id : string) : ST RepoDB Issuer :=
  db_tenant tid (sql_GetIssuer tid id).
Definition DB_ListIssuers (tid after : string) (limit : Z) : ST RepoDB (list Issuer) :=
  db_tenant tid (sql_ListIssuers tid after limit).
Definition DB_IssuersByIDs (tid : string) (ids : list string) : ST RepoDB (list Issuer) :=
  db_tenant tid (sql_IssuersByIDs tid ids).
Definition DB_DefaultIssuer (tid trustDomain : string) : ST RepoDB Issuer :=
  db_tenant tid (sql_DefaultIssuer tid trustDomain).
Definition DB_UpdateIssuer (i : Issuer) : ST RepoDB unit :=
  db_tenant (iss_TenantID i) (sql_UpdateIssuer i).
Definition DB_ClearDefaultIssuer (tid trustDomain except : string) : ST RepoDB unit :=
  db_tenant tid (sql_ClearDefaultIssuer tid trustDomain except).
Definition DB_DeleteIssuer (tid id : string) : ST RepoDB unit :=
  db_tenant tid (sql_DeleteIssuer tid id).
Definition DB_InsertCA (c : CA) : ST RepoDB unit :=
  db_tenant (ca_TenantID c) (sql_InsertCA c).
Definition DB_GetCA (tid id : string) : ST RepoDB CA :=
  db_tenant tid (sql_GetCA tid id).
Definition DB_CAByState (tid trustDomain state : string) : ST RepoDB CA :=
  db_tenant tid (sql_CAByState tid trustDomain state).
Definition DB_CAsForDomain (tid trustDomain : string) : ST RepoDB (list CA) :=
  db_tenant tid (sql_CAsForDomain tid trustDomain).
Definition DB_SetCAState (tid id state : string) : ST RepoDB unit :=
  db_tenant tid (sql_SetCAState tid id state).
Definition DB_DeleteCA (tid id : string) : ST RepoDB unit :=
  db_tenant tid (sql_DeleteCA tid id).
Definition DB_InsertRequest (r : CertificateRequest) : ST RepoDB unit :=
  db_tenant (req_TenantID r) (sql_InsertRequest r).
Definition DB_GetRequest (tid id : string) : ST RepoDB CertificateRequest :=
  db_tenant tid (sql_GetRequest tid id).
Definition DB_ListRequests (tid : string) (f : RequestFilter) : ST RepoDB (list CertificateRequest) :=
  db_tenant tid (sql_ListRequests tid f).
Definition DB_SetRequestStatus (tid id status : string) (approver reason : option string) : ST RepoDB unit :=
  db_tenant tid (sql_SetRequestStatus tid id status approver reason).
Definition DB_CompleteRequest (tid id status : string) (certificateID reason : option string) : ST RepoDB unit :=
  db_tenant tid (sql_CompleteRequest tid id status certificateID reason).
Definition DB_DeleteRequest (tid id : string) : ST RepoDB unit :=
  db_tenant tid (sql_DeleteRequest tid id).
Definition DB_InsertJob (j : CertificateJob) : ST RepoDB unit :=
  db_tenant (job_TenantID j) (sql_InsertJob j).
Definition DB_GetJob (tid id : string) : ST RepoDB CertificateJob :=
  db_tenant tid (sql_GetJob tid id).
Definition DB_ListJobs (tid : string) (f : JobFilter) : ST RepoDB (list CertificateJob) :=
  db_tenant tid (sql_ListJobs tid f).
Definition DB_UpdateJob (j : CertificateJob) : ST RepoDB unit :=
  db_tenant (job_TenantID j) (sql_UpdateJob j).
Definition DB_DeleteJob (tid id : string) : ST RepoDB unit :=
  db_tenant tid (sql_DeleteJob tid id).
Definition DB_ClaimDueJobs (now lease limit : Z) : ST RepoDB (list CertificateJob) :=
  db_system (sql_ClaimDueJobs now lease limit).
Definition DB_InsertCertificate (c : IssuedCertificate) : ST RepoDB unit :=
  db_tenant (crt_TenantID c) (sql_InsertCertificate c).
Definition DB_GetCertificate (tid id : string) : ST RepoDB IssuedCertificate :=
  db_tenant tid (sql_GetCertificate tid id).
Definition DB_ListCertificates (tid : string) (f : CertificateFilter) : ST RepoDB (list IssuedCertificate) :=
  db_tenant tid (sql_ListCertificates tid f).
Definition DB_CertificatesByIDs (tid : string) (ids : list string) : ST RepoDB (list IssuedCertificate) :=
  db_tenant tid (sql_CertificatesByIDs tid ids).
Definition DB_UpdateCertificate (c : IssuedCertificate) : ST RepoDB unit :=
  db_tenant (crt_TenantID c) (sql_UpdateCertificate c).
Definition DB_SetCertificateStatus (tid id status : string) (supersededBy : option string) : ST RepoDB unit :=
  db_tenant tid (sql_SetCertificateStatus tid id status supersededBy).
Definition DB_MarkKeyDelivered (tid id : string) : ST RepoDB unit :=
  db_tenant tid (sql_MarkKeyDelivered tid id).
Definition DB_DeleteCertificate (tid id : string) : ST RepoDB unit :=
  db_tenant tid (sql_DeleteCertificate tid id).
Definition DB_DueForRenewal (now notAfterBefore limit : Z) : ST RepoDB (list IssuedCertificate) :=
  db_system (sql_DueForRenewal now notAfterBefore limit).
Definition DB_ExpiringCertificates (tid : string) (now before limit : Z) : ST RepoDB (list IssuedCertificate) :=
  db_tenant tid (sql_ExpiringCertificates tid now before limit).
Definition DB_InsertRevocation (r : Revocation) : ST RepoDB unit :=
  db_tenant (rev_TenantID r) (sql_InsertRevocation r).
Definition DB_ListRevocations (tid : string) (cursor limit : Z) : ST RepoDB (list Revocation) :=
  db_tenant tid (sql_ListRevocations tid cursor limit).
Definition DB_UpsertInstalled (i : InstalledCertificate) : ST RepoDB unit :=
  db_tenant (ins_TenantID i) (sql_UpsertInstalled i).
Definition DB_ListInstalled (tid clientID : string) (cursor limit : Z) : ST RepoDB (list InstalledCertificate) :=
  db_tenant tid (sql_ListInstalled tid clientID cursor limit).
Definition DB_InsertTarget (t : DeploymentTarget) : ST RepoDB unit :=
  db_tenant (tgt_TenantID t) (sql_InsertTarget t).
Definition DB_GetTarget (tid id : string) : ST RepoDB DeploymentTarget :=
  db_tenant tid (sql_GetTarget tid id).
Definition DB_ListTargets (tid : string) : ST RepoDB (list DeploymentTarget) :=
  db_tenant tid (sql_ListTargets tid).
Definition DB_DeleteTarget (tid id : string) : ST RepoDB unit :=
  db_tenant tid (sql_DeleteTarget tid id).
Definition DB_InsertSecret (s : TenantSecret) : ST RepoDB unit :=
  db_tenant (sec_TenantID s) (sql_InsertSecret s).
Definition DB_GetSecret (tid id : string) : ST RepoDB TenantSecret :=
  db_tenant tid (sql_GetSecret tid id).
Definition DB_SecretByName (tid name : string) : ST RepoDB TenantSecret :=
  db_tenant tid (sql_SecretByName tid name).
Definition DB_ListSecrets (tid : string) : ST RepoDB (list TenantSecret) :=
  db_tenant tid (sql_ListSecrets tid).
Definition DB_UpdateSecret (s : TenantSecret) : ST RepoDB unit :=
  db_tenant (sec_TenantID s) (sql_UpdateSecret s).
Definition DB_DeleteSecret (tid id : string) : ST RepoDB unit :=
  db_tenant tid (sql_DeleteSecret tid id).
Definition DB_InsertWebhook (w : WebhookEndpoint) : ST RepoDB unit :=
  db_tenant (whk_TenantID w) (sql_InsertWebhook w).
Definition DB_GetWebhook (tid id : string) : ST RepoDB WebhookEndpoint :=
  db_tenant tid (sql_GetWebhook tid id).
Definition DB_ListWebhooks (tid : string) : ST RepoDB (list WebhookEndpoint) :=
  db_tenant tid (sql_ListWebhooks tid).
Definition DB_WebhooksForEvent (tid eventType : string) : ST RepoDB (list WebhookEndpoint) :=
  db_tenant tid (sql_WebhooksForEvent tid eventType).
Definition DB_DeleteWebhook (tid id : string) : ST RepoDB unit :=
  db_tenant tid (sql_DeleteWebhook tid id).
Definition DB_UpsertGrant (g : Grant) : ST RepoDB Grant :=
  db_tenant (grt_TenantID g) (sql_UpsertGrant g).
Definition DB_GetGrant (tid id : string) : ST RepoDB Grant :=
  db_tenant tid (sql_GetGrant tid id).
Definition DB_DeleteGrant (tid id : string) : ST RepoDB unit :=
  db_tenant tid (sql_DeleteGrant tid id).
Definition DB_GrantsOnResource (tid rt rid : string) : ST RepoDB (list Grant) :=
  db_tenant tid (sql_GrantsOnResource tid rt rid).
Definition DB_GrantsForSubjects (tid uid : string) (roles : list string) (now : Z) : ST RepoDB (list Grant) :=
  db_tenant tid (sql_GrantsForSubjects tid uid roles now).
Definition DB_DeleteGrantsOfResource (tid rt rid : string) : ST RepoDB unit :=
  db_tenant tid (sql_DeleteGrantsOfResource tid rt rid).
Definition DB_InsertCertLog (rows : list CertLogRow) : ST RepoDB unit :=
  db_system (sql_InsertCertLog rows).
Definition DB_InsertAuditRows (rows : list AuditRow) : ST RepoDB unit :=
  db_system (sql_InsertAuditRows rows).
Definition DB_QueryAudit (tid : string) (f : AuditFilter) : ST RepoDB (list AuditRow) :=
  db_tenant tid (sql_QueryAudit tid f).
Definition DB_TenantStats (tid : string) (now window : Z) : ST RepoDB Stats :=
  db_tenant tid (sql_TenantStats tid now window).
End repodb.

(** ** The methods as data *)
Inductive Op : Type -> Type :=
| OpInsertIssuer (i : Issuer) : Op unit
| OpGetIssuer (tid id : string) : Op Issuer
| OpListIssuers (tid after : string) (limit : Z) : Op (list Issuer)
| OpIssuersByIDs (tid : string) (ids : list string) : Op (list Issuer)
| OpDefaultIssuer (tid trustDomain : string) : Op Issuer
| OpUpdateIssuer (i : Issuer) : Op unit
| OpClearDefaultIssuer (tid trustDomain except : string) : Op unit
| OpDeleteIssuer (tid id : string) : Op unit
| OpInsertCA (c : CA) : Op unit
| OpGetCA (tid id : string) : Op CA
| OpCAByState (tid trustDomain state : string) : Op CA
| OpCAsForDomain (tid trustDomain : string) : Op (list CA)
| OpSetCAState (tid id state : string) : Op unit
| OpDeleteCA (tid id : string) : Op unit
| OpInsertRequest (r : CertificateRequest) : Op unit
| OpGetRequest (tid id : string) : Op CertificateRequest
| OpListRequests (tid : string) (f : RequestFilter) : Op (list CertificateRequest)
| OpSetRequestStatus (tid id status : string) (approver reason : option string) : Op unit
| OpCompleteRequest (tid id status : string) (certificateID reason : option string) : Op unit
| OpDeleteRequest (tid id : string) : Op unit
| OpInsertJob (j : CertificateJob) : Op unit
| OpGetJob (tid id : string) : Op CertificateJob
| OpListJobs (tid : string) (f : JobFilter) : Op (list CertificateJob)
| OpUpdateJob (j : CertificateJob) : Op unit
| OpDeleteJob (tid id : string) : Op unit
| OpClaimDueJobs (now lease limit : Z) : Op (list CertificateJob)
| OpInsertCertificate (c : IssuedCertificate) : Op unit
| OpGetCertificate (tid id : string) : Op IssuedCertificate
| OpListCertificates (tid : string) (f : CertificateFilter) : Op (list IssuedCertificate)
| OpCertificatesByIDs (tid : string) (ids : list string) : Op (list IssuedCertificate)
| OpUpdateCertificate (c : IssuedCertificate) : Op unit
| OpSetCertificateStatus (tid id status : string) (supersededBy : option string) : Op unit
| OpMarkKeyDelivered (tid id : string) : Op unit
| OpDeleteCertificate (tid id : string) : Op unit
| OpDueForRenewal (now notAfterBefore limit : Z) : Op (list IssuedCertificate)
| OpExpiringCertificates (tid : string) (now before limit : Z) : Op (list IssuedCertificate)
| OpInsertRevocation (r : Revocation) : Op unit
| OpListRevocations (tid : string) (cursor limit : Z) : Op (list Revocation)
| OpUpsertInstalled (i : InstalledCertificate) : Op unit
| OpListInstalled (tid clientID : string) (cursor limit : Z) : Op (list InstalledCertificate)
| OpInsertTarget (t : DeploymentTarget) : Op unit
| OpGetTarget (tid id : string) : Op DeploymentTarget
| OpListTargets (tid : string) : Op (list DeploymentTarget)
| OpDeleteTarget (tid id : string) : Op unit
| OpInsertSecret (s : TenantSecret) : Op unit
| OpGetSecret (tid id : string) : Op TenantSecret
| OpSecretByName (tid name : string) : Op TenantSecret
| OpListSecrets (tid : string) : Op (list TenantSecret)
| OpUpdateSecret (s : TenantSecret) : Op unit
| OpDeleteSecret (tid id : string) : Op unit
| OpInsertWebhook (w : WebhookEndpoint) : Op unit
| OpGetWebhook (tid id : string) : Op WebhookEndpoint
| OpListWebhooks (tid : string) : Op (list WebhookEndpoint)
| OpWebhooksForEvent (tid eventType : string) : Op (list WebhookEndpoint)
| OpDeleteWebhook (tid id : string) : Op unit
| OpUpsertGrant (g : Grant) : Op Grant
| OpGetGrant (tid id : string) : Op Grant
| OpDeleteGrant (tid id : string) : Op unit
| OpGrantsOnResource (tid rt rid : string) : Op (list Grant)
| OpGrantsForSubjects (tid uid : string) (roles : list string) (now : Z) : Op (list Grant)
| OpDeleteGrantsOfResource (tid rt rid : string) : Op unit
| OpInsertCertLog (rows : list CertLogRow) : Op unit
| OpInsertAuditRows (rows : list AuditRow) : Op unit
| OpQueryAudit (tid : string) (f : AuditFilter) : Op (list AuditRow)
| OpTenantStats (tid : string) (now window : Z) : Op Stats.

Section calls.
Context `{Postgres}.
(** The statements of a method, and the method. *)
Definition op_sql {A} (o : Op A) : Sql A :=
  match o with
  | OpInsertIssuer i => sql_InsertIssuer i
  | OpGetIssuer tid id => sql_GetIssuer tid id
  | OpListIssuers tid after limit => sql_ListIssuers tid after limit
  | OpIssuersByIDs tid ids => sql_IssuersByIDs tid ids
  | OpDefaultIssuer tid trustDomain => sql_DefaultIssuer tid trustDomain
  | OpUpdateIssuer i => sql_UpdateIssuer i
  | OpClearDefaultIssuer tid trustDomain except => sql_ClearDefaultIssuer tid trustDomain except
  | OpDeleteIssuer tid id => sql_DeleteIssuer tid id
  | OpInsertCA c => sql_InsertCA c
  | OpGetCA tid id => sql_GetCA tid id
  | OpCAByState tid trustDomain state => sql_CAByState tid trustDomain state
  | OpCAsForDomain tid trustDomain => sql_CAsForDomain tid trustDomain
  | OpSetCAState tid id state => sql_SetCAState tid id state
  | OpDeleteCA tid id => sql_DeleteCA tid id
  | OpInsertRequest r => sql_InsertRequest r
  | OpGetRequest tid id => sql_GetRequest tid id
  | OpListRequests tid f => sql_ListRequests tid f
  | OpSetRequestStatus tid id status approver reason => sql_SetRequestStatus tid id status approver reason
  | OpCompleteRequest tid id status certificateID reason => sql_CompleteRequest tid id status certificateID reason
  | OpDeleteRequest tid id => sql_DeleteRequest tid id
  | OpInsertJob j => sql_InsertJob j
  | OpGetJob tid id => sql_GetJob tid id
  | OpListJobs tid f => sql_ListJobs tid f
  | OpUpdateJob j => sql_UpdateJob j
  | OpDeleteJob tid id => sql_DeleteJob tid id
  | OpClaimDueJobs now lease limit => sql_ClaimDueJobs now lease limit
  | OpInsertCertificate c => sql_InsertCertificate c
  | OpGetCertificate tid id => sql_GetCertificate tid id
  | OpListCertificates tid f => sql_ListCertificates tid f
  | OpCertificatesByIDs tid ids => sql_CertificatesByIDs tid ids
  | OpUpdateCertificate c => sql_UpdateCertificate c
  | OpSetCertificateStatus tid id status supersededBy => sql_SetCertificateStatus tid id status supersededBy
  | OpMarkKeyDelivered tid id => sql_MarkKeyDelivered tid id
  | OpDeleteCertificate tid id => sql_DeleteCertificate tid id
  | OpDueForRenewal now notAfterBefore limit => sql_DueForRenewal now notAfterBefore limit
  | OpExpiringCertificates tid now before limit => sql_ExpiringCertificates tid now before limit
  | OpInsertRevocation r => sql_InsertRevocation r
  | OpListRevocations tid cursor limit => sql_ListRevocations tid cursor limit
  | OpUpsertInstalled i => sql_UpsertInstalled i
  | OpListInstalled tid clientID cursor limit => sql_ListInstalled tid clientID cursor limit
  | OpInsertTarget t => sql_InsertTarget t
  | OpGetTarget tid id => sql_GetTarget tid id
  | OpListTargets tid => sql_ListTargets tid
  | OpDeleteTarget tid id => sql_DeleteTarget tid id
  | OpInsertSecret s => sql_InsertSecret s
  | OpGetSecret tid id => sql_GetSecret tid id
  | OpSecretByName tid name => sql_SecretByName tid name
  | OpListSecrets tid => sql_ListSecrets tid
  | OpUpdateSecret s => sql_UpdateSecret s
  | OpDeleteSecret tid id => sql_DeleteSecret tid id
  | OpInsertWebhook w => sql_InsertWebhook w
  | OpGetWebhook tid id => sql_GetWebhook tid id
  | OpListWebhooks tid => sql_ListWebhooks tid
  | OpWebhooksForEvent tid eventType => sql_WebhooksForEvent tid eventType
  | OpDeleteWebhook tid id => sql_DeleteWebhook tid id
  | OpUpsertGrant g => sql_UpsertGrant g
  | OpGetGrant tid id => sql_GetGrant tid id
  | OpDeleteGrant tid id => sql_DeleteGrant tid id
  | OpGrantsOnResource tid rt rid => sql_GrantsOnResource tid rt rid
  | OpGrantsForSubjects tid uid roles now => sql_GrantsForSubjects tid uid roles now
  | OpDeleteGrantsOfResource tid rt rid => sql_DeleteGrantsOfResource tid rt rid
  | OpInsertCertLog rows => sql_InsertCertLog rows
  | OpInsertAuditRows rows => sql_InsertAuditRows rows
  | OpQueryAudit tid f => sql_QueryAudit tid f
  | OpTenantStats tid now window => sql_TenantStats tid now window
  end.
Definition op_call {A} (o : Op A) : ST RepoDB A :=
  match o with
  | OpInsertIssuer i => DB_InsertIssuer i
  | OpGetIssuer tid id => DB_GetIssuer tid id
  | OpListIssuers tid after limit => DB_ListIssuers tid after limit
  | OpIssuersByIDs tid ids => DB_IssuersByIDs tid ids
  | OpDefaultIssuer tid trustDomain => DB_DefaultIssuer tid trustDomain
  | OpUpdateIssuer i => DB_UpdateIssuer i
  | OpClearDefaultIssuer tid trustDomain except => DB_ClearDefaultIssuer tid trustDomain except
  | OpDeleteIssuer tid id => DB_DeleteIssuer tid id
  | OpInsertCA c => DB_InsertCA c
  | OpGetCA tid id => DB_GetCA tid id
  | OpCAByState tid trustDomain state => DB_CAByState tid trustDomain state
  | OpCAsForDomain tid trustDomain => DB_CAsForDomain tid trustDomain
  | OpSetCAState tid id state => DB_SetCAState tid id state
  | OpDeleteCA tid id => DB_DeleteCA tid id
  | OpInsertRequest r => DB_InsertRequest r
  | OpGetRequest tid id => DB_GetRequest tid id
  | OpListRequests tid f => DB_ListRequests tid f
  | OpSetRequestStatus tid id status approver reason => DB_SetRequestStatus tid id status approver reason
  | OpCompleteRequest tid id status certificateID reason => DB_CompleteRequest tid id status certificateID reason
  | OpDeleteRequest tid id => DB_DeleteRequest tid id
  | OpInsertJob j => DB_InsertJob j
  | OpGetJob tid id => DB_GetJob tid id
  | OpListJobs tid f => DB_ListJobs tid f
  | OpUpdateJob j => DB_UpdateJob j
  | OpDeleteJob tid id => DB_DeleteJob tid id
  | OpClaimDueJobs now lease limit => DB_ClaimDueJobs now lease limit
  | OpInsertCertificate c => DB_InsertCertificate c
  | OpGetCertificate tid id => DB_GetCertificate tid id
  | OpListCertificates tid f => DB_ListCertificates tid f
  | OpCertificatesByIDs tid ids => DB_CertificatesByIDs tid ids
  | OpUpdateCertificate c => DB_UpdateCertificate c
  | OpSetCertificateStatus tid id status supersededBy => DB_SetCertificateStatus tid id status supersededBy
  | OpMarkKeyDelivered tid id => DB_MarkKeyDelivered tid id
  | OpDeleteCertificate tid id => DB_DeleteCertificate tid id
  | OpDueForRenewal now notAfterBefore limit => DB_DueForRenewal now notAfterBefore limit
  | OpExpiringCertificates tid now before limit => DB_ExpiringCertificates tid now before limit
  | OpInsertRevocation r => DB_InsertRevocation r
  | OpListRevocations tid cursor limit => DB_ListRevocations tid cursor limit
  | OpUpsertInstalled i => DB_UpsertInstalled i
  | OpListInstalled tid clientID cursor limit => DB_ListInstalled tid clientID cursor limit
  | OpInsertTarget t => DB_InsertTarget t
  | OpGetTarget tid id => DB_GetTarget tid id
  | OpListTargets tid => DB_ListTargets tid
  | OpDeleteTarget tid id => DB_DeleteTarget tid id
  | OpInsertSecret s => DB_InsertSecret s
  | OpGetSecret tid id => DB_GetSecret tid id
  | OpSecretByName tid name => DB_SecretByName tid name
  | OpListSecrets tid => DB_ListSecrets tid
  | OpUpdateSecret s => DB_UpdateSecret s
  | OpDeleteSecret tid id => DB_DeleteSecret tid id
  | OpInsertWebhook w => DB_InsertWebhook w
  | OpGetWebhook tid id => DB_GetWebhook tid id
  | OpListWebhooks tid => DB_ListWebhooks tid
  | OpWebhooksForEvent tid eventType => DB_WebhooksForEvent tid eventType
  | OpDeleteWebhook tid id => DB_DeleteWebhook tid id
  | OpUpsertGrant g => DB_UpsertGrant g
  | OpGetGrant tid id => DB_GetGrant tid id
  | OpDeleteGrant tid id => DB_DeleteGrant tid id
  | OpGrantsOnResource tid rt rid => DB_GrantsOnResource tid rt rid
  | OpGrantsForSubjects tid uid roles now => DB_GrantsForSubjects tid uid roles now
  | OpDeleteGrantsOfResource tid rt rid => DB_DeleteGrantsOfResource tid rt rid
  | OpInsertCertLog rows => DB_InsertCertLog rows
  | OpInsertAuditRows rows => DB_InsertAuditRows rows
  | OpQueryAudit tid f => DB_QueryAudit tid f
  | OpTenantStats tid now window => DB_TenantStats tid now window
  end.

(** A function handed to Atomic: it calls methods and decides on their answers. *)
Inductive Prog (A : Type) : Type :=
| PRet (r : res A)
| PCall {B} (o : Op B) (k : res B -> Prog A).
Arguments PRet {A}.
Arguments PCall {A B}.
Fixpoint prog_run {A} (p : Prog A) : ST RepoDB A := fun d =>
  match p with
  | PRet r => (r, d)
  | PCall o k => let '(r, d') := op_call o d in prog_run (k r) d'
  end.
(** The same statements, seen from inside the transaction. *)
Fixpoint prog_sql {A} (p : Prog A) : Sql A := fun s =>
  match p with
  | PRet r => (r, s)
  | PCall o k => let '(r, s') := op_sql o s in prog_sql (k r) s'
  end.
End calls.
Arguments PRet {A}.
Arguments PCall {A B}.
