(* ===== verification/SqlInv.v ===== *)
(** What holds of every method and of every transaction of the store over the
    database: the constraints of the schema, the isolation of tenants, and the
    all-or-nothing effect of a transaction. *)

From S2P Require Import Prelude Rows Sql SqlStore SqlDb.

(** ** The steps of the tables *)

(** The checks of the two logs (0002_hypertables.sql). *)
Definition log_row (r : CertLogRow) : Prop := log_Event r ∈ ["issued"; "renewed"; "revoked"; "failed"].
Definition audit_row (r : AuditRow) : Prop := aud_ActorKind r ∈ ["user"; "service"; "system"] /\ aud_Outcome r ∈ ["ok"; "refused"; "failed"].
Lemma one_of_spec l s : one_of l s = true <-> s ∈ l.
Proof. apply contains_spec. Qed.
Section db_steps.
Context `{PostgresLaws}.

(** One row written or removed in one of the tables, by a transaction of the scope. *)
Inductive db_step (sc : Scope) (db : Db) : Db -> Prop :=
| ds_cas db' : row_step T_cas ca_in_use no_release sc db db' -> db_step sc db db'
| ds_issuers db' : row_step T_issuers issuer_in_use release_issuer sc db db' -> db_step sc db db'
| ds_secrets db' : row_step T_secrets no_restrict no_release sc db db' -> db_step sc db db'
| ds_requests db' : row_step T_requests no_restrict no_release sc db db' -> db_step sc db db'
| ds_certificates db' : row_step T_certificates no_restrict no_release sc db db' -> db_step sc db db'
| ds_jobs db' : row_step T_jobs no_restrict no_release sc db db' -> db_step sc db db'
| ds_revocations db' : row_step T_revocations no_restrict no_release sc db db' -> db_step sc db db'
| ds_installed db' : row_step T_installed no_restrict no_release sc db db' -> db_step sc db db'
| ds_targets db' : row_step T_targets no_restrict no_release sc db db' -> db_step sc db db'
| ds_webhooks db' : row_step T_webhooks no_restrict no_release sc db db' -> db_step sc db db'
| ds_grants db' : row_step T_grants no_restrict no_release sc db db' -> db_step sc db db'
| ds_log r : app_tenant_matches sc (log_TenantID r) = true -> log_row r -> db_step sc db (db <| db_log := db_log db ++ [r] |>)
| ds_audit r : app_tenant_matches sc (aud_TenantID r) = true -> audit_row r ->
    db_step sc db (db <| db_audit := db_audit db ++ [r <| aud_ID := db_seq db |>] |> <| db_seq := db_seq db + 1 |>).

(** ** Keys *)
Definition db_keyed (db : Db) : Prop :=
  row_keyed T_cas (db_cas db) /\ row_keyed T_issuers (db_issuers db) /\ row_keyed T_secrets (db_secrets db)
  /\ row_keyed T_requests (db_requests db) /\ row_keyed T_certificates (db_certificates db) /\ row_keyed T_jobs (db_jobs db)
  /\ row_keyed T_revocations (db_revocations db) /\ row_keyed T_installed (db_installed db) /\ row_keyed T_targets (db_targets db)
  /\ row_keyed T_webhooks (db_webhooks db) /\ row_keyed T_grants (db_grants db).
Lemma release_keyed i db : row_keyed T_requests (db_requests db) -> row_keyed T_requests (db_requests (release_issuer i db)).
Proof. intros Hk k r. cbn. rewrite lookup_fmap_Some. intros (x & <- & Hx). pose proof (Hk k x Hx). by case_bool_decide. Qed.
Lemma db_step_keyed sc db db' : db_keyed db -> db_step sc db db' -> db_keyed db'.
Proof.
  intros Hk Hs. unfold db_keyed in *. destruct_and! Hk.
  inversion Hs as [? Hr|? Hr|? Hr|? Hr|? Hr|? Hr|? Hr|? Hr|? Hr|? Hr|? Hr|? ? ?|? ? ?]; subst; [..|cbn; auto 20|cbn; auto 20];
    (match type of Hr with row_step ?T ?rs ?rl _ _ _ =>
       pose proof (row_step_keyed T rs rl ltac:(done) ltac:(done) _ _ _ ltac:(eassumption) Hr) as Hn end);
    inversion Hr; subst; cbn in *; split_and!; auto.
  exact (release_keyed _ _ ltac:(eassumption)).
Qed.
Definition db_steps (sc : Scope) : Db -> Db -> Prop := rtc (db_step sc).
Lemma db_steps_keyed sc db db' : db_keyed db -> db_steps sc db db' -> db_keyed db'.
Proof. intros Hk Hs. induction Hs; eauto using db_step_keyed. Qed.
Lemma rows_db_steps (P : Db -> Db -> Prop) sc db db' :
  (forall a b, P a b -> db_step sc a b) -> rtc P db db' -> db_steps sc db db'.
Proof. intros Hp Hs. induction Hs; [apply rtc_refl|]. eapply rtc_l; eauto. Qed.

(** ** Every method is a sequence of steps *)
Definition stepping {A} (c : Sql A) : Prop :=
  forall s r s', c s = (r, s') -> db_keyed (tx_db s) ->
    db_steps (tx_scope s) (tx_db s) (tx_db s') /\ tx_scope s' = tx_scope s.
Definition stepping_stmt {A} (f : Scope -> Z -> Db -> res (A * Db)) : Prop :=
  forall sc now db a db', f sc now db = Ok (a, db') -> db_keyed db -> db_steps sc db db'.
Lemma stepping_of {A} (f : Scope -> Z -> Db -> res (A * Db)) : stepping_stmt f -> stepping (stmt f).
Proof.
  intros Hf s r s'. unfold stmt. destruct (pg_fault (tx_n s)) as [e|].
  - intros [= <- <-] Hk. split; [apply rtc_refl|done].
  - destruct (tx_failed s); [intros [= <- <-] Hk; split; [apply rtc_refl|done]|].
    destruct (f _ _ _) as [[a db']|e] eqn:E; intros [= <- <-] Hk; (split; [|done]); cbn; [by eapply Hf|apply rtc_refl].
Qed.
Lemma stepping_query {A} (f : Scope -> Z -> Db -> res A) : stepping (query f).
Proof. apply stepping_of. intros sc now db a db' Hf Hk. destruct (f sc now db); cbn in Hf; simplify_eq. apply rtc_refl. Qed.
Lemma stepping_map_err {A} g (c : Sql A) : stepping c -> stepping (map_err g c).
Proof.
  intros Hc s r s'. unfold map_err. destruct (c s) as [[a|e] s1] eqn:E; intros [= <- <-] Hk; by eapply Hc.
Qed.
Lemma stepping_bind {A B} (c : Sql A) (k : A -> Sql B) :
  stepping c -> (forall a, stepping (k a)) -> stepping (st_bind c k).
Proof.
  intros Hc Hk s r s'. unfold st_bind. destruct (c s) as [[a|e] s1] eqn:E.
  - intros Hr Hkd. destruct (Hc _ _ _ E Hkd) as [H1 Hs1]. destruct (Hk a _ _ _ Hr) as [H2 Hs2].
    { by eapply db_steps_keyed. }
    rewrite Hs1 in *. split; [|done]. by etrans.
  - intros [= <- <-] Hkd. by eapply Hc.
Qed.
Lemma stepping_ret {A} (r : res A) : stepping (fun s => (r, s)).
Proof. intros s r' s' [= <- <-] _. split; [apply rtc_refl|done]. Qed.
Lemma stepping_affected c : stepping c -> stepping (affected c).
Proof. intros Hc. apply stepping_bind; [done|]. intros n. case_match; apply stepping_ret. Qed.
End db_steps.
Create HintDb sqlstep.
#[export] Hint Resolve stepping_query stepping_map_err stepping_bind stepping_ret stepping_affected : sqlstep.

(** The tables and their steps, seen the same way. *)
Class Stored `{PostgresLaws} {R} (T : Table R) (restrict : Db -> R -> bool) (release : R -> Db -> Db) : Prop := {
  stored_put : forall m db, t_rows T (t_put T m db) = m;
  stored_release : forall r db, t_rows T (release r db) = t_rows T db;
  stored_step : forall sc a b, row_step T restrict release sc a b -> db_step sc a b;
  stored_keyed : forall db, db_keyed db -> row_keyed T (t_rows T db);
}.
Ltac stored c := constructor; [done|done|intros; by apply c|unfold db_keyed; tauto].
(** Invert a chain of bound parameters. *)
Ltac res_invert H :=
  repeat match type of H with
  | res_bind ?r _ = Ok _ => let E := fresh "E" in destruct r eqn:E; cbn [res_bind] in H; [|discriminate H]
  | (let '(_, _) := ?p in _) = Ok _ => destruct p
  end.

Section stored.
Context `{PostgresLaws}.
#[export] Instance stored_cas : Stored T_cas ca_in_use no_release. Proof. stored ds_cas. Qed.
#[export] Instance stored_issuers : Stored T_issuers issuer_in_use release_issuer. Proof. stored ds_issuers. Qed.
#[export] Instance stored_secrets : Stored T_secrets no_restrict no_release. Proof. stored ds_secrets. Qed.
#[export] Instance stored_requests : Stored T_requests no_restrict no_release. Proof. stored ds_requests. Qed.
#[export] Instance stored_certificates : Stored T_certificates no_restrict no_release. Proof. stored ds_certificates. Qed.
#[export] Instance stored_jobs : Stored T_jobs no_restrict no_release. Proof. stored ds_jobs. Qed.
#[export] Instance stored_revocations : Stored T_revocations no_restrict no_release. Proof. stored ds_revocations. Qed.
#[export] Instance stored_installed : Stored T_installed no_restrict no_release. Proof. stored ds_installed. Qed.
#[export] Instance stored_targets : Stored T_targets no_restrict no_release. Proof. stored ds_targets. Qed.
#[export] Instance stored_webhooks : Stored T_webhooks no_restrict no_release. Proof. stored ds_webhooks. Qed.
#[export] Instance stored_grants : Stored T_grants no_restrict no_release. Proof. stored ds_grants. Qed.

Section table.
Context {R : Type} (T : Table R) (restrict : Db -> R -> bool) (release : R -> Db -> Db) {st : Stored T restrict release}.
Lemma stored_steps sc db db' : rtc (row_step T restrict release sc) db db' -> db_steps sc db db'.
Proof. apply rows_db_steps, stored_step. Qed.
Lemma stepping_insert row : stepping (exec_insert T row).
Proof.
  apply stepping_of. intros sc now db a db' Hf _. res_invert Hf. simplify_eq.
  apply rtc_once, stored_step. by eapply insert_row_step.
Qed.
Lemma stored_updates sc P f db n db' :
  db_keyed db -> (forall r, t_id T (f r) = t_id T r) -> update_rows T sc P f db = Ok (n, db') -> db_steps sc db db'.
Proof.
  intros Hk Hid Hu. apply stored_steps. eapply update_rows_steps; [apply stored_put|apply stored_release| |done|done].
  by apply stored_keyed.
Qed.
Lemma stepping_update tid id set :
  (forall now f, set now = Ok f -> forall r, t_id T (f r) = t_id T r) -> stepping (exec_update T tid id set).
Proof.
  intros Hset. apply stepping_of. intros sc now db a db' Hf Hk. unfold with_key in Hf. res_invert Hf.
  eapply stored_updates; [done| |done]. by eapply Hset.
Qed.
Lemma stored_deletes sc P db n db' :
  db_keyed db -> delete_rows T sc restrict release P db = Ok (n, db') -> db_steps sc db db'.
Proof.
  intros Hk Hd. apply stored_steps. eapply delete_rows_steps; [apply stored_put|apply stored_release| |done].
  by apply stored_keyed.
Qed.
Lemma stepping_delete tid id : stepping (exec_delete T restrict release tid id).
Proof. apply stepping_of. intros sc now db a db' Hf Hk. unfold with_key in Hf. res_invert Hf. by eapply stored_deletes. Qed.
Lemma stored_upsert sc key r f db x db' :
  db_keyed db -> (forall r, t_id T (f r) = t_id T r) -> upsert_row T sc key r f db = Ok (x, db') -> db_steps sc db db'.
Proof.
  intros Hk Hid Hu. apply rtc_once, stored_step. eapply upsert_row_steps; [apply stored_put|apply stored_release|by apply stored_keyed|done|done].
Qed.
End table.

Ltac same_id := let Hs := fresh in intros ? ? Hs ?; res_invert Hs; by simplify_eq.
Ltac stepping_table :=
  first [ eapply stepping_insert; typeclasses eauto
        | eapply stepping_update; [typeclasses eauto|same_id]
        | eapply stepping_delete; typeclasses eauto ].

Lemma stepping_certlog rows : stepping (sql_InsertCertLog rows).
Proof.
  induction rows as [|r rows IH]; cbn [sql_InsertCertLog]; [apply stepping_ret|]. apply stepping_bind; [|done].
  apply stepping_of. intros sc now db a db' Hf _. res_invert Hf. unfold insert_log in Hf.
  case_match eqn:Em; [done|]. case_match eqn:Ec; [done|]. simplify_eq. apply rtc_once, ds_log; [by bools|].
  apply negb_false_iff in Ec. by apply one_of_spec.
Qed.
Lemma stepping_audit rows : stepping (sql_InsertAuditRows rows).
Proof.
  induction rows as [|r rows IH]; cbn [sql_InsertAuditRows]; [apply stepping_ret|]. apply stepping_bind; [|done].
  apply stepping_of. intros sc now db x db' Hf _. res_invert Hf. unfold insert_audit in Hf.
  case_match eqn:Em; [done|]. case_match eqn:Ec; [done|]. simplify_eq. apply rtc_once, ds_audit; [by bools|].
  apply negb_false_iff, andb_true_iff in Ec as [? ?]. by split; apply one_of_spec.
Qed.
Lemma stepping_claim now lease limit : stepping (sql_ClaimDueJobs now lease limit).
Proof.
  apply stepping_of. intros sc tn db a db' Hf Hk. res_invert Hf. case_match; [done|]. res_invert Hf. simplify_eq.
  eapply (stored_updates T_jobs no_restrict no_release); [done| |done]. done.
Qed.
Lemma stepping_clear tid td e : stepping (sql_ClearDefaultIssuer tid td e).
Proof.
  apply stepping_bind; [|intros; apply stepping_ret]. apply stepping_of. intros sc now db a db' Hf Hk. res_invert Hf.
  by eapply (stored_updates T_issuers issuer_in_use release_issuer); [done| |done].
Qed.
Lemma stepping_upsert_installed i : stepping (sql_UpsertInstalled i).
Proof.
  apply stepping_bind; [|intros; apply stepping_ret]. apply stepping_of. intros sc now db a db' Hf Hk. res_invert Hf.
  by eapply (stored_upsert T_installed no_restrict no_release); [done| |done].
Qed.
Lemma stepping_upsert_grant g : stepping (sql_UpsertGrant g).
Proof.
  apply stepping_map_err, stepping_of. intros sc now db a db' Hf Hk. res_invert Hf.
  by eapply (stored_upsert T_grants no_restrict no_release); [done| |done].
Qed.
Lemma stepping_delete_grants tid rt rid : stepping (sql_DeleteGrantsOfResource tid rt rid).
Proof.
  apply stepping_bind; [|intros; apply stepping_ret]. apply stepping_of. intros sc now db a db' Hf Hk. res_invert Hf.
  by eapply (stored_deletes T_grants no_restrict no_release).
Qed.
Lemma stepping_op {A} (o : Op A) : stepping (op_sql o).
Proof.
  destruct o; cbn [op_sql];
    first [ apply stepping_certlog | apply stepping_audit | apply stepping_claim | apply stepping_clear
          | apply stepping_upsert_installed | apply stepping_upsert_grant | apply stepping_delete_grants
          | by eauto 8 with sqlstep
          | repeat first [apply stepping_affected | apply stepping_map_err]; stepping_table ].
Qed.

(** A function handed to Atomic runs as its statements do. *)
Lemma op_call_InTx {A} (o : Op A) s : op_call o (InTx s) = let '(r, s') := op_sql o s in (r, InTx s').
Proof. by destruct o. Qed.
Lemma prog_run_InTx {A} (p : Prog A) s : prog_run p (InTx s) = let '(r, s') := prog_sql p s in (r, InTx s').
Proof.
  revert s. induction p as [r|B o k IH]; intros s; cbn; [done|]. rewrite op_call_InTx.
  destruct (op_sql o s) as [r s']. apply IH.
Qed.
Lemma stepping_prog {A} (p : Prog A) : stepping (prog_sql p).
Proof.
  induction p as [r|B o k IH]; [apply stepping_ret|]. intros s r s' Hr Hk. cbn in Hr.
  destruct (op_sql o s) as [r1 s1] eqn:E. destruct (stepping_op o _ _ _ E Hk) as [H1 Hs1].
  destruct (IH r1 _ _ _ Hr) as [H2 Hs2]; [by eapply db_steps_keyed|]. rewrite Hs1 in *. split; [by etrans|done].
Qed.
End stored.

(** ** The constraints of the schema *)
Section schema.
Context `{PostgresLaws}.
(** A table keeps its keys, its checks and its unique indexes. *)
Definition table_ok {R} (T : Table R) (m : gmap string R) : Prop :=
  row_keyed T m /\ map_Forall (fun _ r => t_check T r = None) m
  /\ (forall k1 k2 r1 r2, m !! k1 = Some r1 -> m !! k2 = Some r2 -> k1 <> k2 -> t_clash T r1 r2 = false).
(** Every foreign key names a row. *)
Definition refs_ok (db : Db) : Prop :=
  map_Forall (fun _ c => t_refs T_certificates db c = true) (db_certificates db)
  /\ map_Forall (fun _ r => t_refs T_requests db r = true) (db_requests db)
  /\ map_Forall (fun _ i => t_refs T_issuers db i = true) (db_issuers db).
Definition tables_ok (db : Db) : Prop :=
  table_ok T_cas (db_cas db) /\ table_ok T_issuers (db_issuers db) /\ table_ok T_secrets (db_secrets db)
  /\ table_ok T_requests (db_requests db) /\ table_ok T_certificates (db_certificates db) /\ table_ok T_jobs (db_jobs db)
  /\ table_ok T_revocations (db_revocations db) /\ table_ok T_installed (db_installed db)
  /\ table_ok T_targets (db_targets db) /\ table_ok T_webhooks (db_webhooks db) /\ table_ok T_grants (db_grants db).
Definition logs_ok (db : Db) : Prop := Forall log_row (db_log db) /\ Forall audit_row (db_audit db).
Definition db_ok (db : Db) : Prop := tables_ok db /\ refs_ok db /\ logs_ok db.
Lemma tables_keyed db : tables_ok db -> db_keyed db.
Proof. unfold tables_ok, db_keyed, table_ok. tauto. Qed.

Section table_step.
Context {R : Type} (T : Table R) (restrict : Db -> R -> bool) (release : R -> Db -> Db) {st : Stored T restrict release}.
Hypothesis clash_sym : forall a b, t_clash T a b = t_clash T b a.
Lemma row_step_ok sc db db' :
  table_ok T (t_rows T db) -> row_step T restrict release sc db db' -> table_ok T (t_rows T db').
Proof.
  intros (Hk & Hc & Hu) Hs. split; [by apply (row_step_keyed T restrict release stored_put stored_release sc db)|].
  inversion Hs as [r Hv Hcl _ _|r Hr _ _]; subst; rewrite ?stored_release, stored_put.
  - split.
    + apply map_Forall_insert_2; [|done]. unfold row_violation in Hv. by destruct (negb _).
    + intros k1 k2 r1 r2. rewrite !lookup_insert_Some.
      intros [[<- <-]|[N1 H1]] [[<- <-]|[N2 H2]] Hne; [done|by eapply Hcl| |by eapply Hu].
      rewrite clash_sym. by eapply Hcl.
  - split; [by apply map_Forall_delete|]. intros k1 k2 r1 r2 [_ H1]%lookup_delete_Some [_ H2]%lookup_delete_Some. by apply Hu.
Qed.
End table_step.

Lemma str_eqb_comm a b : (a =s b) = (b =s a).
Proof. unfold str_eqb. apply bool_decide_ext. split; congruence. Qed.
Lemma conj_swap (a b c : bool) : a && b && c = b && a && c.
Proof. by destruct a, b. Qed.
Lemma clash_issuers a b : t_clash T_issuers a b = t_clash T_issuers b a.
Proof.
  cbn. rewrite (str_eqb_comm (iss_TenantID b)), (str_eqb_comm (pg_lower (iss_Name b))), (str_eqb_comm (iss_TrustDomain b)).
  by rewrite (conj_swap (iss_IsDefault a)).
Qed.
Lemma clash_cas a b : t_clash T_cas a b = t_clash T_cas b a.
Proof.
  cbn. rewrite (str_eqb_comm (ca_TenantID b)), (str_eqb_comm (ca_TrustDomain b)).
  by rewrite (andb_comm (ca_State a =s "active")).
Qed.
Lemma release_table_ok i db :
  table_ok T_requests (db_requests db) -> table_ok T_requests (db_requests (release_issuer i db)).
Proof.
  intros (Hk & Hc & Hu). split_and!; [by apply release_keyed| |done].
  intros k r Hr. cbn [release_issuer db_requests] in Hr. unfold release_issuer in Hr. apply lookup_fmap_Some in Hr as (x & <- & Hx).
  pose proof (Hc k x Hx) as Hcx. cbn beta. case_bool_decide; exact Hcx.
Qed.
Ltac sym_clash :=
  intros a b; cbn; unfold installed_unique, grants_unique; rewrite ?(str_eqb_comm (sec_TenantID b)), ?(str_eqb_comm (pg_lower (sec_Name b))),
    ?(str_eqb_comm (crt_TenantID b)), ?(str_eqb_comm (crt_Serial b)), ?(str_eqb_comm (rev_TenantID b)),
    ?(str_eqb_comm (rev_CertificateID b)), ?(str_eqb_comm (ins_TenantID b)), ?(str_eqb_comm (ins_CertificateID b)),
    ?(str_eqb_comm (ins_ClientID b)), ?(str_eqb_comm (tgt_TenantID b)), ?(str_eqb_comm (pg_lower (tgt_Name b))),
    ?(str_eqb_comm (whk_TenantID b)), ?(str_eqb_comm (pg_lower (whk_Name b))), ?(str_eqb_comm (grt_TenantID b)),
    ?(str_eqb_comm (grt_ResourceType b)), ?(str_eqb_comm (grt_ResourceID b)), ?(str_eqb_comm (grt_SubjectType b)),
    ?(str_eqb_comm (grt_SubjectID b)); done.
Ltac table_case Hr :=
  match type of Hr with row_step ?T ?rs ?rl _ _ _ =>
    pose proof (row_step_ok T rs rl ltac:(first [apply clash_cas|apply clash_issuers|sym_clash]) _ _ _ ltac:(eassumption) Hr) end;
  inversion Hr; subst; cbn in *; split_and!; auto; exact (release_table_ok _ _ ltac:(eassumption)).
Lemma db_step_tables sc db db' : tables_ok db -> db_step sc db db' -> tables_ok db'.
Proof.
  intros Hk Hs. unfold tables_ok in *. destruct_and! Hk.
  inversion Hs as [? Hr|? Hr|? Hr|? Hr|? Hr|? Hr|? Hr|? Hr|? Hr|? Hr|? Hr|? ? ?|? ? ?]; subst; [..|cbn; auto 20|cbn; auto 20];
    table_case Hr.
Qed.

(** A row that is put, or removed, keeps the references of the other tables. *)
Lemma refs_put_cert db r m : refs_ok db -> t_refs T_certificates db r = true -> m = <[crt_ID r := r]> (db_certificates db) ->
  refs_ok (db <| db_certificates := m |>).
Proof. intros (H1 & H2 & H3) Hr ->. split_and!; [|exact H2|exact H3]. by apply map_Forall_insert_2. Qed.
Lemma refs_put_request db r m : refs_ok db -> t_refs T_requests db r = true -> m = <[req_ID r := r]> (db_requests db) ->
  refs_ok (db <| db_requests := m |>).
Proof. intros (H1 & H2 & H3) Hr ->. split_and!; [exact H1| |exact H3]. by apply map_Forall_insert_2. Qed.
Lemma issuer_kept (db : Db) i k x :
  is_Some (db_issuers db !! k) -> is_Some (<[i := x]> (db_issuers db) !! k).
Proof. intros Hs. destruct (decide (i = k)) as [->|]; [rewrite lookup_insert_eq; eauto|by rewrite lookup_insert_ne]. Qed.
Lemma refs_put_issuer db i : refs_ok db -> t_refs T_issuers db i = true ->
  refs_ok (db <| db_issuers := <[iss_ID i := i]> (db_issuers db) |>).
Proof.
  intros (H1 & H2 & H3) Hr. split_and!.
  - intros k c Hc. pose proof (H1 k c Hc) as Hx. cbn in *. apply bool_decide_eq_true in Hx. by apply bool_decide_eq_true, issuer_kept.
  - intros k c Hc. pose proof (H2 k c Hc) as Hx. cbn in *. destruct (req_IssuerID c); [|done].
    apply bool_decide_eq_true in Hx. by apply bool_decide_eq_true, issuer_kept.
  - by apply map_Forall_insert_2.
Qed.
Lemma refs_put_ca db c : refs_ok db -> refs_ok (db <| db_cas := <[ca_ID c := c]> (db_cas db) |>).
Proof.
  intros (H1 & H2 & H3). split_and!; [exact H1|exact H2|]. intros k i Hi. pose proof (H3 k i Hi) as Hx. cbn in *.
  destruct (iss_CAID i) as [a|]; [|done]. apply bool_decide_eq_true in Hx. apply bool_decide_eq_true.
  destruct (decide (ca_ID c = a)) as [->|]; [rewrite lookup_insert_eq; eauto|by rewrite lookup_insert_ne].
Qed.
Lemma refs_del_issuer db i : refs_ok db -> issuer_in_use db i = false ->
  refs_ok (release_issuer i (db <| db_issuers := delete (iss_ID i) (db_issuers db) |>)).
Proof.
  intros (H1 & H2 & H3) Hu. split_and!.
  - intros k c Hc. pose proof (H1 k c Hc) as Hx. cbn in *. apply bool_decide_eq_true in Hx. apply bool_decide_eq_true.
    rewrite lookup_delete_ne; [done|]. intros Heq. unfold issuer_in_use in Hu.
    assert (existsb (fun x : string * IssuedCertificate => crt_IssuerID x.2 =s iss_ID i) (map_to_list (db_certificates db)) = true)
      as Ht; [|congruence]. apply existsb_exists. exists (k, c).
    rewrite <- list_elem_of_In, elem_of_map_to_list. split; [done|]. cbn. by apply str_eqb_eq.
  - intros k r. cbn. rewrite lookup_fmap_Some. intros (x & <- & Hx). pose proof (H2 k x Hx) as Hr. cbn in *.
    case_bool_decide as Hb; [done|]. destruct (req_IssuerID x) as [a|]; [|done]. apply bool_decide_eq_true in Hr.
    apply bool_decide_eq_true. rewrite lookup_delete_ne; [done|congruence].
  - intros k r Hr. cbn in Hr. apply lookup_delete_Some in Hr as [_ Hr]. by apply (H3 k r).
Qed.
Lemma refs_del_ca db c : refs_ok db -> ca_in_use db c = false ->
  refs_ok (db <| db_cas := delete (ca_ID c) (db_cas db) |>).
Proof.
  intros (H1 & H2 & H3) Hu. split_and!; [exact H1|exact H2|]. intros k i Hi. pose proof (H3 k i Hi) as Hx. cbn in *.
  destruct (iss_CAID i) as [a|] eqn:Ea; [|done]. apply bool_decide_eq_true in Hx. apply bool_decide_eq_true.
  rewrite lookup_delete_ne; [done|]. intros <-. unfold ca_in_use in Hu.
  assert (existsb (fun x : string * Issuer => bool_decide (iss_CAID x.2 = Some (ca_ID c))) (map_to_list (db_issuers db)) = true)
    as Ht; [|congruence]. apply existsb_exists. exists (k, i).
  rewrite <- list_elem_of_In, elem_of_map_to_list. split; [done|]. cbn. rewrite Ea. by apply bool_decide_eq_true.
Qed.
Lemma db_step_refs sc db db' : refs_ok db -> db_step sc db db' -> refs_ok db'.
Proof.
  intros Hk Hs.
  inversion Hs as [? Hr|? Hr|? Hr|? Hr|? Hr|? Hr|? Hr|? Hr|? Hr|? Hr|? Hr|? ? ?|? ? ?]; subst; try exact Hk;
    inversion Hr; subst; try exact Hk;
    first [ by apply refs_put_ca | by apply refs_del_ca | by apply refs_put_issuer | by apply refs_del_issuer
          | by eapply refs_put_request | by eapply refs_put_cert
          | destruct Hk as (Hk1 & Hk2 & Hk3);
            (split_and!; [first [exact Hk1|by apply map_Forall_delete]|first [exact Hk2|by apply map_Forall_delete]|exact Hk3]) ].
Qed.
Lemma db_step_logs sc db db' : logs_ok db -> db_step sc db db' -> logs_ok db'.
Proof.
  intros Hk Hs.
  inversion Hs as [? Hr|? Hr|? Hr|? Hr|? Hr|? Hr|? Hr|? Hr|? Hr|? Hr|? Hr|? ? ?|? ? ?]; subst; try (inversion Hr; subst; exact Hk);
    destruct Hk as [Hl Ha]; (split; [first [exact Hl|by apply Forall_app_2; [|apply Forall_singleton]]
                                    |first [exact Ha|by apply Forall_app_2; [|apply Forall_singleton]]]).
Qed.
Lemma db_steps_ok sc db db' : db_ok db -> db_steps sc db db' -> db_ok db'.
Proof.
  intros Hk Hs. induction Hs as [|? ? ? H1 _ IH]; [done|]. apply IH. destruct Hk as (Ht & Hr & Hl).
  split_and!; eauto using db_step_tables, db_step_refs, db_step_logs.
Qed.
End schema.
