(* ===== verification/SqlSchema.v ===== *)
(** The constraints of internal/store/migrations written out, table by table, and that
    the tables of a server that tests its constraints row by row satisfy them. *)

From S2P Require Import Prelude Rows Sql SqlStore SqlDb SqlInv.

(** ** Constraints *)
(** PRIMARY KEY (id). *)
Definition keyed {R} (id : R -> string) (m : gmap string R) : Prop := forall k r, m !! k = Some r -> id r = k.
(** CREATE UNIQUE INDEX: the columns of the index, [None] for a row its WHERE leaves out. *)
Definition unique {R K} (index : R -> option K) (m : gmap string R) : Prop :=
  forall k1 k2 r1 r2 x, m !! k1 = Some r1 -> m !! k2 = Some r2 -> index r1 = Some x -> index r2 = Some x -> k1 = k2.
(** REFERENCES; a NULL refers to nothing. *)
Definition references {R S} (col : R -> option string) (m : gmap string R) (target : gmap string S) : Prop :=
  forall k r x, m !! k = Some r -> col r = Some x -> is_Some (target !! x).
(** CHECK and NOT NULL. *)
Definition every {R} (P : R -> Prop) (m : gmap string R) : Prop := forall k r, m !! k = Some r -> P r.

Section schema.
Context `{PostgresLaws}.
(** length(s) BETWEEN lo AND hi. *)
Definition between (lo hi : Z) (s : string) : Prop := exists n, pg_text s = Some n /\ lo <= n <= hi.
Record schema (db : Db) : Prop := {
  sc_cas : keyed ca_ID (db_cas db)
    /\ every (fun c => is_Some (ca_KeySealed c) /\ between 1 253 (ca_TrustDomain c)
                       /\ ca_State c ∈ ["active"; "next"; "retiring"]) (db_cas db)
    /\ unique (fun c => if decide (ca_State c = "active") then Some (ca_TenantID c, ca_TrustDomain c) else None) (db_cas db);
  sc_issuers : keyed iss_ID (db_issuers db)
    /\ every (fun i => between 1 100 (iss_Name i) /\ iss_Type i ∈ ["self_signed"; "acme"] /\ between 1 253 (iss_TrustDomain i)
                       /\ is_Some (iss_SettingsPublic i)) (db_issuers db)
    /\ unique (fun i => Some (iss_TenantID i, pg_lower (iss_Name i))) (db_issuers db)
    /\ unique (fun i => if iss_IsDefault i then Some (iss_TenantID i, iss_TrustDomain i) else None) (db_issuers db)
    /\ references iss_CAID (db_issuers db) (db_cas db);
  sc_secrets : keyed sec_ID (db_secrets db)
    /\ every (fun s => between 1 100 (sec_Name s) /\ sec_Kind s ∈ ["acme_account"; "dns_credential"] /\ is_Some (sec_ValueSealed s))
         (db_secrets db)
    /\ unique (fun s => Some (sec_TenantID s, pg_lower (sec_Name s))) (db_secrets db);
  sc_requests : keyed req_ID (db_requests db)
    /\ every (fun r => (req_SpiffeID r = "" \/ between 1 2048 (req_SpiffeID r)) /\ is_Some (req_SANs r)
                       /\ req_RequesterKind r ∈ ["user"; "service"; "token"]
                       /\ req_Status r ∈ ["pending"; "approved"; "rejected"; "issued"; "processing"; "failed"]
                       /\ req_Kind r ∈ ["svid"; "generic"]) (db_requests db)
    /\ references req_IssuerID (db_requests db) (db_issuers db);
  sc_certificates : keyed crt_ID (db_certificates db)
    /\ every (fun c => (crt_SpiffeID c = "" \/ between 1 2048 (crt_SpiffeID c)) /\ is_Some (crt_SANs c)
                       /\ crt_Status c ∈ ["active"; "expiring"; "expired"; "revoked"] /\ crt_Kind c ∈ ["svid"; "generic"])
         (db_certificates db)
    /\ unique (fun c => Some (crt_TenantID c, crt_Serial c)) (db_certificates db)
    /\ references (fun c => Some (crt_IssuerID c)) (db_certificates db) (db_issuers db);
  sc_jobs : keyed job_ID (db_jobs db)
    /\ every (fun j => job_Type j ∈ ["issue"; "renew"; "acme"] /\ job_Status j ∈ ["queued"; "processing"; "completed"; "failed"]) (db_jobs db);
  sc_revocations : keyed rev_ID (db_revocations db)
    /\ unique (fun r => Some (rev_TenantID r, rev_CertificateID r)) (db_revocations db);
  sc_installed : keyed ins_ID (db_installed db)
    /\ unique (fun i => Some (ins_TenantID i, ins_CertificateID i, ins_ClientID i)) (db_installed db);
  sc_targets : keyed tgt_ID (db_targets db)
    /\ every (fun t => between 1 100 (tgt_Name t) /\ tgt_Kind t ∈ ["file"; "pull"; "webhook"] /\ is_Some (tgt_ConfigPublic t)) (db_targets db)
    /\ unique (fun t => Some (tgt_TenantID t, pg_lower (tgt_Name t))) (db_targets db);
  sc_webhooks : keyed whk_ID (db_webhooks db)
    /\ every (fun w => between 1 100 (whk_Name w) /\ between 0 2048 (whk_URL w) /\ is_Some (whk_EventTypes w)) (db_webhooks db)
    /\ unique (fun w => Some (whk_TenantID w, pg_lower (whk_Name w))) (db_webhooks db);
  sc_grants : keyed grt_ID (db_grants db)
    /\ every (fun g => grt_ResourceType g ∈ ["certificate"; "issuer"] /\ grt_SubjectType g ∈ ["user"; "role"; "tenant"]
                       /\ grt_Relation g ∈ ["owner"; "editor"; "viewer"; "sharer"]) (db_grants db)
    /\ unique (fun g => Some (grt_TenantID g, grt_ResourceType g, grt_ResourceID g, grt_SubjectType g, grt_SubjectID g)) (db_grants db);
  sc_log r : r ∈ db_log db -> log_Event r ∈ ["issued"; "renewed"; "revoked"; "failed"];
  sc_audit r : r ∈ db_audit db -> aud_ActorKind r ∈ ["user"; "service"; "system"] /\ aud_Outcome r ∈ ["ok"; "refused"; "failed"];
}.

(** ** The tests of the server imply them *)
Lemma first_violation_none l : first_violation l = None -> Forall (fun p => p.1 = true) l.
Proof. induction l as [|[b c] l IH]; [done|]. cbn. destruct b; [|done]. intros Hl. constructor; [done|by apply IH]. Qed.
Lemma length_between_spec lo hi s : length_between lo hi s = true -> between lo hi s.
Proof. unfold length_between, between. destruct (pg_text s) as [n|]; [|done]. rewrite andb_true_iff, !Z.leb_le. eauto. Qed.
Lemma nullable_between lo hi s : (s =s "") || length_between lo hi s = true -> s = "" \/ between lo hi s.
Proof. rewrite orb_true_iff, str_eqb_eq. intros [->|Hb]; [by left|right]. by apply length_between_spec. Qed.
(** The row tests of a table, one by one. *)
Ltac row_tests :=
  cbv [t_check T_cas T_issuers T_secrets T_requests T_certificates T_jobs T_revocations T_installed T_targets T_webhooks T_grants];
  intros Hc%first_violation_none;
  repeat match goal with Hc : Forall _ (_ :: _) |- _ => apply Forall_cons in Hc as [? Hc] end;
  cbn [fst not_null check] in *;
  repeat match goal with
  | Hb : one_of _ _ = true |- _ => apply one_of_spec in Hb
  | Hb : (_ =s "") || length_between _ _ _ = true |- _ => apply nullable_between in Hb
  | Hb : length_between _ _ _ = true |- _ => apply length_between_spec in Hb
  | Hb : bool_decide (is_Some _) = true |- _ => apply bool_decide_eq_true in Hb
  end; split_and!; assumption.
Lemma table_every {R} (T : Table R) m (P : R -> Prop) :
  table_ok T m -> (forall r, t_check T r = None -> P r) -> every P m.
Proof. intros (_ & Hc & _) Hp k r Hr. apply Hp. by apply (Hc k r). Qed.
Lemma table_unique {R K} (T : Table R) m (index : R -> option K) :
  table_ok T m -> (forall a b x, index a = Some x -> index b = Some x -> t_clash T a b = true) -> unique index m.
Proof.
  intros (_ & _ & Hu) Hi k1 k2 r1 r2 x H1 H2 E1 E2. destruct (decide (k1 = k2)) as [|Hn]; [done|].
  pose proof (Hu k1 k2 r1 r2 H1 H2 Hn) as Hf. by rewrite (Hi _ _ _ E1 E2) in Hf.
Qed.
Ltac same_index :=
  intros a b x; cbn; unfold installed_unique, grants_unique; repeat case_match; intros; simplify_eq;
  rewrite ?andb_true_iff, ?orb_true_iff, ?andb_true_iff, ?str_eqb_eq; intuition congruence.
Ltac table_holds Ht :=
  split; [exact (proj1 Ht)|]; repeat match goal with |- _ /\ _ => split end;
  first [ by apply (table_every _ _ _ Ht); intros r; row_tests | by apply (table_unique _ _ _ Ht); same_index | idtac ].
Lemma db_ok_schema db : db_ok db -> schema db.
Proof.
  intros (Ht & (Rc & Rr & Ri) & Hl & Ha). unfold tables_ok in Ht.
  destruct Ht as (Hcas & Hiss & Hsec & Hreq & Hcrt & Hjob & Hrev & Hins & Htgt & Hwhk & Hgrt). constructor.
  - table_holds Hcas.
  - table_holds Hiss. intros k i x Hi Hx. pose proof (Ri k i Hi) as Hr. cbn in Hr. rewrite Hx in Hr. by apply bool_decide_eq_true in Hr.
  - table_holds Hsec.
  - table_holds Hreq. intros k r x Hr Hx. pose proof (Rr k r Hr) as Hc. cbn in Hc. rewrite Hx in Hc. by apply bool_decide_eq_true in Hc.
  - table_holds Hcrt. intros k c x Hc [= <-]. pose proof (Rc k c Hc) as Hr. cbn in Hr. by apply bool_decide_eq_true in Hr.
  - table_holds Hjob.
  - table_holds Hrev.
  - table_holds Hins.
  - table_holds Htgt.
  - table_holds Hwhk.
  - table_holds Hgrt.
  - intros r Hr. by eapply Forall_forall in Hl.
  - intros r Hr. by eapply Forall_forall in Ha.
Qed.
End schema.
