(* ===== verification/SqlTx.v ===== *)
(** Transactions of the store over the database: what they leave of the rows of
    other tenants, what they can see of them, and that they take effect whole or
    not at all.  The race of internal/ca/ca.go is played here, because it depends on
    how a transaction goes on after a refused statement. *)

From S2P Require Import Prelude Rows Sql SqlStore SqlDb SqlInv SqlSchema.

(** ** Other tenants *)

(** The rows of the other tenants; the issuer of a request is left out, as the
    server clears it when that issuer is deleted. *)
Definition not_of {R} (tid : string) (ten : R -> string) (m : gmap string R) : gmap string R :=
  filter (fun x : string * R => ten x.2 <> tid) m.
Definition foreign (tid : string) (db : Db) : Db :=
  mkDb (not_of tid ca_TenantID (db_cas db)) (not_of tid iss_TenantID (db_issuers db))
    (not_of tid sec_TenantID (db_secrets db))
    ((fun r => r <| req_IssuerID := None |>) <$> not_of tid req_TenantID (db_requests db))
    (not_of tid crt_TenantID (db_certificates db)) (not_of tid job_TenantID (db_jobs db))
    (not_of tid rev_TenantID (db_revocations db)) (not_of tid ins_TenantID (db_installed db))
    (not_of tid tgt_TenantID (db_targets db)) (not_of tid whk_TenantID (db_webhooks db))
    (not_of tid grt_TenantID (db_grants db))
    (filter (fun l => log_TenantID l <> tid) (db_log db)) (filter (fun a => aud_TenantID a <> tid) (db_audit db)) 0.

Section isolation.
Context `{PostgresLaws}.
Lemma matches_tenant tid t : app_tenant_matches (mkScope tid false) t = true -> t = tid.
Proof. unfold app_tenant_matches. cbn. rewrite orb_false_r. intros. by bools. Qed.
Lemma not_of_put {R} (ten : R -> string) tid (m : gmap string R) k r :
  ten r = tid -> (forall x, m !! k = Some x -> ten x = tid) -> not_of tid ten (<[k := r]> m) = not_of tid ten m.
Proof. intros Hr Hx. apply map_filter_insert_not'; cbn; [tauto|]. intros y Hy Hn. by apply Hn, Hx. Qed.
Lemma not_of_delete {R} (ten : R -> string) tid (m : gmap string R) k r :
  m !! k = Some r -> ten r = tid -> not_of tid ten (delete k m) = not_of tid ten m.
Proof. intros Hk Hr. apply map_filter_delete_not. intros y Hy Hn. by simplify_eq. Qed.

(** A step changes the rows of one table, and those of its tenant only. *)
Lemma row_step_rows {R} (T : Table R) rs rl tid db db' :
  (forall m db, t_rows T (t_put T m db) = m) -> (forall r db, t_rows T (rl r db) = t_rows T db) ->
  row_step T rs rl (mkScope tid false) db db' ->
  not_of tid (t_tenant T) (t_rows T db') = not_of tid (t_tenant T) (t_rows T db).
Proof.
  intros Hp Hl Hs. inversion Hs as [r Hv _ Hx _|r Hr Hv _]; subst; rewrite ?Hl, Hp.
  - apply not_of_put; [by apply matches_tenant, row_violation_visible|]. intros x Hk. by apply matches_tenant, Hx.
  - by eapply not_of_delete; [|apply matches_tenant].
Qed.
Lemma release_foreign i tid db : (fun r => r <| req_IssuerID := None |>) <$> not_of tid req_TenantID (db_requests (release_issuer i db))
  = (fun r => r <| req_IssuerID := None |>) <$> not_of tid req_TenantID (db_requests db).
Proof.
  apply map_eq. intros k. unfold not_of, release_issuer. rewrite !lookup_fmap.
  change (db_requests _) with ((fun r => if bool_decide (req_IssuerID r = Some (iss_ID i)) then r <| req_IssuerID := None |> else r)
                               <$> db_requests db) at 1.
  rewrite !map_lookup_filter, lookup_fmap. destruct (db_requests db !! k) as [r|]; cbn; [|done].
  case_bool_decide; cbn; by repeat case_guard.
Qed.
Lemma foreign_eq tid db db' :
  not_of tid ca_TenantID (db_cas db') = not_of tid ca_TenantID (db_cas db) ->
  not_of tid iss_TenantID (db_issuers db') = not_of tid iss_TenantID (db_issuers db) ->
  not_of tid sec_TenantID (db_secrets db') = not_of tid sec_TenantID (db_secrets db) ->
  (fun r => r <| req_IssuerID := None |>) <$> not_of tid req_TenantID (db_requests db')
    = (fun r => r <| req_IssuerID := None |>) <$> not_of tid req_TenantID (db_requests db) ->
  not_of tid crt_TenantID (db_certificates db') = not_of tid crt_TenantID (db_certificates db) ->
  not_of tid job_TenantID (db_jobs db') = not_of tid job_TenantID (db_jobs db) ->
  not_of tid rev_TenantID (db_revocations db') = not_of tid rev_TenantID (db_revocations db) ->
  not_of tid ins_TenantID (db_installed db') = not_of tid ins_TenantID (db_installed db) ->
  not_of tid tgt_TenantID (db_targets db') = not_of tid tgt_TenantID (db_targets db) ->
  not_of tid whk_TenantID (db_webhooks db') = not_of tid whk_TenantID (db_webhooks db) ->
  not_of tid grt_TenantID (db_grants db') = not_of tid grt_TenantID (db_grants db) ->
  filter (fun l => log_TenantID l <> tid) (db_log db') = filter (fun l => log_TenantID l <> tid) (db_log db) ->
  filter (fun a => aud_TenantID a <> tid) (db_audit db') = filter (fun a => aud_TenantID a <> tid) (db_audit db) ->
  foreign tid db' = foreign tid db.
Proof. unfold foreign. intros. f_equal; assumption. Qed.
Lemma filter_app_own {A} (ten : A -> string) tid l x :
  ten x = tid -> filter (fun y => ten y <> tid) (l ++ [x]) = filter (fun y => ten y <> tid) l.
Proof.
  intros Hx. rewrite filter_app. replace (filter _ [x]) with (@nil A); [apply app_nil_r|].
  rewrite filter_cons, decide_False; [done|]. intros Hn. by apply Hn.
Qed.
Lemma db_step_foreign tid db db' : db_step (mkScope tid false) db db' -> foreign tid db' = foreign tid db.
Proof.
  intros Hs. inversion Hs as [? Hr|? Hr|? Hr|? Hr|? Hr|? Hr|? Hr|? Hr|? Hr|? Hr|? Hr|? Hm ?|? Hm ?]; subst;
    try (match type of Hr with row_step ?T ?rs ?rl _ _ _ =>
           pose proof (row_step_rows T rs rl tid _ _ ltac:(done) ltac:(done) Hr) as Hn end;
         inversion Hr; subst; cbn in Hn; apply foreign_eq; first [reflexivity | exact Hn | cbn; by f_equal
           | refine (eq_trans (release_foreign _ _ _) _); reflexivity]).
  - apply foreign_eq; try reflexivity. by apply filter_app_own, matches_tenant.
  - apply foreign_eq; try reflexivity. by apply filter_app_own, matches_tenant.
Qed.
Lemma db_steps_foreign tid db db' : db_steps (mkScope tid false) db db' -> foreign tid db' = foreign tid db.
Proof. intros Hs. induction Hs as [|? ? ? H1 _ IH]; [done|]. rewrite IH. by apply db_step_foreign. Qed.
End isolation.

(** ** What a transaction sees *)

(** The rows the scope sees. *)
Definition own `{Postgres} (sc : Scope) (db : Db) : Db :=
  mkDb (visible_rows T_cas sc db) (visible_rows T_issuers sc db) (visible_rows T_secrets sc db)
    (visible_rows T_requests sc db) (visible_rows T_certificates sc db) (visible_rows T_jobs sc db)
    (visible_rows T_revocations sc db) (visible_rows T_installed sc db) (visible_rows T_targets sc db)
    (visible_rows T_webhooks sc db) (visible_rows T_grants sc db) (visible_log sc db) (visible_audit sc db) 0.
(** The methods that read. *)
Definition op_reads {A} (o : Op A) : bool :=
  match o with
  | OpGetIssuer _ _ | OpListIssuers _ _ _ | OpIssuersByIDs _ _ | OpDefaultIssuer _ _ | OpGetCA _ _ | OpCAByState _ _ _
  | OpCAsForDomain _ _ | OpGetRequest _ _ | OpListRequests _ _ | OpGetJob _ _ | OpListJobs _ _ | OpGetCertificate _ _
  | OpListCertificates _ _ | OpCertificatesByIDs _ _ | OpDueForRenewal _ _ _ | OpExpiringCertificates _ _ _ _
  | OpListRevocations _ _ _ | OpListInstalled _ _ _ _ | OpGetTarget _ _ | OpListTargets _ | OpGetSecret _ _
  | OpSecretByName _ _ | OpListSecrets _ | OpGetWebhook _ _ | OpListWebhooks _ | OpWebhooksForEvent _ _ | OpGetGrant _ _
  | OpGrantsOnResource _ _ _ | OpGrantsForSubjects _ _ _ _ | OpQueryAudit _ _ | OpTenantStats _ _ _ => true
  | _ => false
  end.

Section reads.
Context `{Postgres}.
(** Two transactions that differ at most in rows their scope does not see. *)
Record agree (s1 s2 : TxS) : Prop := {
  agree_scope : tx_scope s1 = tx_scope s2;
  agree_own : own (tx_scope s1) (tx_db s1) = own (tx_scope s1) (tx_db s2);
  agree_now : tx_now s1 = tx_now s2;
  agree_n : tx_n s1 = tx_n s2;
  agree_failed : tx_failed s1 = tx_failed s2;
}.
Definition confined {A} (c : Sql A) : Prop :=
  forall s1 s2, agree s1 s2 -> (c s1).1 = (c s2).1 /\ agree (c s1).2 (c s2).2.
Definition confined_query {A} (f : Scope -> Z -> Db -> res A) : Prop :=
  forall sc now db1 db2, own sc db1 = own sc db2 -> f sc now db1 = f sc now db2.
Lemma confined_of {A} (f : Scope -> Z -> Db -> res A) : confined_query f -> confined (query f).
Proof.
  intros Hf s1 s2 [Hs Ho Hn Hi Hd]. unfold query, stmt. rewrite <- Hi. destruct (pg_fault (tx_n s1)) as [e|].
  - split; [done|]. split; cbn; try done. by rewrite Hd.
  - rewrite <- Hd. destruct (tx_failed s1) eqn:Ef.
    + split; [done|]. split; cbn; congruence.
    + rewrite <- Hs, <- Hn, (Hf _ (tx_now s1) _ _ Ho). destruct (f _ _ _); cbn; (split; [done|split; cbn; congruence]).
Qed.
Lemma confined_map_err {A} g (c : Sql A) : confined c -> confined (map_err g c).
Proof.
  intros Hc s1 s2 Ha. destruct (Hc s1 s2 Ha) as [Hr Hs]. unfold map_err.
  destruct (c s1) as [r1 t1], (c s2) as [r2 t2]. cbn in *. subst r2. by destruct r1.
Qed.
Lemma confined_ret {A} (a : A) : confined (st_ret a).
Proof. intros s1 s2 Ha. done. Qed.
Lemma confined_bind {A B} (c : Sql A) (k : A -> Sql B) : confined c -> (forall a, confined (k a)) -> confined (st_bind c k).
Proof.
  intros Hc Hk s1 s2 Ha. destruct (Hc s1 s2 Ha) as [Hr Hs]. unfold st_bind.
  destruct (c s1) as [r1 t1], (c s2) as [r2 t2]. cbn in *. subst r2. destruct r1; [by apply Hk|done].
Qed.
(** A query is confined when it looks at the tables through the policies. *)
Lemma own_inj sc db1 db2 : own sc db1 = own sc db2 ->
  visible_rows T_cas sc db1 = visible_rows T_cas sc db2 /\ visible_rows T_issuers sc db1 = visible_rows T_issuers sc db2
  /\ visible_rows T_secrets sc db1 = visible_rows T_secrets sc db2 /\ visible_rows T_requests sc db1 = visible_rows T_requests sc db2
  /\ visible_rows T_certificates sc db1 = visible_rows T_certificates sc db2 /\ visible_rows T_jobs sc db1 = visible_rows T_jobs sc db2
  /\ visible_rows T_revocations sc db1 = visible_rows T_revocations sc db2
  /\ visible_rows T_installed sc db1 = visible_rows T_installed sc db2 /\ visible_rows T_targets sc db1 = visible_rows T_targets sc db2
  /\ visible_rows T_webhooks sc db1 = visible_rows T_webhooks sc db2 /\ visible_rows T_grants sc db1 = visible_rows T_grants sc db2
  /\ visible_log sc db1 = visible_log sc db2 /\ visible_audit sc db1 = visible_audit sc db2.
Proof. unfold own. intros [=]. split_and!; assumption. Qed.
Ltac by_policies :=
  let Ho := fresh in intros ? ? ? ? Ho; apply own_inj in Ho as (E1 & E2 & E3 & E4 & E5 & E6 & E7 & E8 & E9 & E10 & E11 & E12 & E13);
  cbv beta; unfold by_id, scanIssuer, scanAudit, audit_name, count_rows, select;
  rewrite ?E1, ?E2, ?E3, ?E4, ?E5, ?E6, ?E7, ?E8, ?E9, ?E10, ?E11, ?E12, ?E13; reflexivity.
Lemma confined_op {A} (o : Op A) : op_reads o = true -> confined (op_sql o).
Proof.
  destruct o; intros [=]; cbn [op_sql];
    repeat first [ apply confined_map_err | apply confined_bind; [|intros] | apply confined_ret
                 | apply confined_of; by_policies ].
Qed.
End reads.

(** ** Whole or not at all *)

(** The tables are as before; only the sequence of the audit trail may have moved. *)
Definition undone (sv sv' : PgServer) : Prop := exists q, sv_db sv' = (sv_db sv) <| db_seq := q |>.
(** The transaction as the function finds it. *)
Record opened (scope : Scope) (sv : PgServer) (s : TxS) : Prop := {
  opened_db : tx_db s = sv_db sv;
  opened_scope : tx_scope s = scope;
  opened_failed : tx_failed s = false;
}.
Section transactions.
Context `{PostgresLaws}.
Lemma undone_back sv s n : undone sv ((rolled_back sv s) <| sv_n := n |>).
Proof. by exists (db_seq (tx_db s)). Qed.
Lemma set_config_ok b f s r s' :
  set_config b f s = (Ok r, s') -> tx_failed s = false ->
  tx_db s' = tx_db s /\ tx_scope s' = (if b then f (tx_scope s) else tx_scope s) /\ tx_failed s' = false.
Proof.
  unfold set_config, stmt. destruct b; [|by intros [= <- <-]]. destruct (pg_fault (tx_n s)); [done|].
  intros Hs Hf. rewrite Hf in Hs. by simplify_eq/=.
Qed.
Lemma Store_Tx_inv {A} scope (fn : Sql A) sv r sv' :
  Store_Tx scope fn sv = (r, sv') ->
  (undone sv sv' /\ is_ok r = false)
  \/ exists s0 a s1, opened scope sv s0 /\ fn s0 = (Ok a, s1) /\ tx_failed s1 = false /\ sv_db sv' = tx_db s1
       /\ (r = Ok a \/ is_ok r = false).
Proof.
  unfold Store_Tx. destruct (pg_fault (sv_n sv)) as [e|].
  { intros [= <- <-]. left. split; [|done]. exists (db_seq (sv_db sv)). by destruct sv as [[] ?]. }
  destruct ((let* _ := _ in _) _) as [[a|e] s1] eqn:Eb; [|intros [= <- <-]; left; split; [apply undone_back|done]].
  assert (Ho : exists s0, opened scope sv s0 /\ fn s0 = (Ok a, s1)).
  { unfold st_bind in Eb. destruct (set_config _ _ _) as [[[]|] t1] eqn:E1 in Eb; [|done].
    destruct (set_config _ _ t1) as [[[]|] t2] eqn:E2 in Eb; [|done]. exists t2. split; [|done].
    apply set_config_ok in E1 as (D1 & S1 & F1); [|done]. apply set_config_ok in E2 as (D2 & S2 & F2); [|done].
    cbn in D1; split; [congruence| |done]. rewrite S2, S1. cbn. destruct scope as [t sys]. cbn.
    destruct (t =s "") eqn:Et; cbn; [apply str_eqb_eq in Et as ->|]; by destruct sys. }
  destruct Ho as (s0 & Ho & Hf). destruct (pg_fault (tx_n s1)) as [e|].
  - destruct (pg_lost _ && negb (tx_failed s1)) eqn:El; intros [= <- <-].
    + right. bools. exists s0, a, s1. split_and!; auto.
    + left. split; [apply undone_back|done].
  - destruct (tx_failed s1) eqn:Ef; intros [= <- <-]; [left; split; [apply undone_back|done]|].
    right. exists s0, a, s1. split_and!; auto.
Qed.

(** A failed statement spoils the rest of its transaction. *)
Definition sticky {A} (c : Sql A) : Prop := forall s r s', c s = (r, s') -> tx_failed s = true -> tx_failed s' = true.
Lemma sticky_stmt {A} (f : Scope -> Z -> Db -> res (A * Db)) : sticky (stmt f).
Proof. intros s r s'. unfold stmt. intros Hs Hf. rewrite Hf in Hs. destruct (pg_fault _); by simplify_eq/=. Qed.
Lemma failed_stmt_err {A} (f : Scope -> Z -> Db -> res (A * Db)) s : tx_failed s = true -> is_ok (stmt f s).1 = false.
Proof. unfold stmt. intros ->. by destruct (pg_fault _). Qed.
Lemma sticky_map_err {A} g (c : Sql A) : sticky c -> sticky (map_err g c).
Proof. intros Hc s r s'. unfold map_err. destruct (c s) as [[a|e] s1] eqn:E; intros [= <- <-]; by eapply Hc. Qed.
Lemma sticky_ret {A} (r : res A) : sticky (fun s => (r, s)).
Proof. by intros s r' s' [= <- <-]. Qed.
Lemma sticky_bind {A B} (c : Sql A) (k : A -> Sql B) : sticky c -> (forall a, sticky (k a)) -> sticky (st_bind c k).
Proof.
  intros Hc Hk s r s'. unfold st_bind. destruct (c s) as [[a|e] s1] eqn:E; intros Hr Hf.
  - eapply Hk; [done|]. by eapply Hc.
  - simplify_eq. by eapply Hc.
Qed.
Lemma sticky_log rows : sticky (sql_InsertCertLog rows).
Proof. induction rows; cbn; [apply sticky_ret|]. by apply sticky_bind; [apply sticky_stmt|]. Qed.
Lemma sticky_audit rows : sticky (sql_InsertAuditRows rows).
Proof. induction rows; cbn; [apply sticky_ret|]. by apply sticky_bind; [apply sticky_stmt|]. Qed.
Lemma sticky_op {A} (o : Op A) : sticky (op_sql o).
Proof.
  destruct o; cbn [op_sql]; first [ apply sticky_log | apply sticky_audit | idtac ];
    repeat first [ apply sticky_map_err | apply sticky_ret | apply sticky_stmt
                 | apply sticky_bind; [|intros; try case_match] ].
Qed.
Lemma sticky_prog {A} (p : Prog A) : sticky (prog_sql p).
Proof.
  induction p as [r|B o k IH]; [apply sticky_ret|]. intros s r s'. cbn. destruct (op_sql o s) as [r1 s1] eqn:E.
  intros Hr Hf. eapply IH; [done|]. by eapply sticky_op.
Qed.

(** A call of the program met a failed transaction or failed it. *)
Fixpoint spoiled {A} (p : Prog A) (s : TxS) : bool :=
  match p with
  | PRet _ => tx_failed s
  | PCall o k => let '(r, s') := op_sql o s in tx_failed s' || spoiled (k r) s'
  end.
Lemma spoiled_failed {A} (p : Prog A) s : spoiled p s = true -> tx_failed (prog_sql p s).2 = true.
Proof.
  revert s. induction p as [r|B o k IH]; intros s Hs; cbn in *; [done|]. destruct (op_sql o s) as [r1 s1] eqn:E.
  apply orb_true_iff in Hs as [Hf|Hs]; [|by apply IH].
  destruct (prog_sql (k r1) s1) as [r2 s2] eqn:E2. by eapply sticky_prog.
Qed.

(** Atomic over the pool is a transaction of the tenant. *)
Lemma DB_Atomic_pool {A} tid (p : Prog A) sv :
  DB_Atomic tid (prog_run p) (OverPool sv)
  = let '(r, sv') := Store_Tx (mkScope tid false) (prog_sql p) sv in (r, OverPool sv').
Proof.
  unfold DB_Atomic. assert (Hx : forall c1 c2 : Sql A, (forall s, c1 s = c2 s) -> forall sc, Store_Tx sc c1 sv = Store_Tx sc c2 sv).
  { intros c1 c2 Hc sc. unfold Store_Tx. destruct (pg_fault _); [done|]. unfold st_bind.
    destruct (set_config _ _ _) as [[[]|] t1]; [|done]. destruct (set_config _ _ t1) as [[[]|] t2]; [|done]. by rewrite Hc. }
  rewrite (Hx _ (prog_sql p)); [done|]. intros s. rewrite prog_run_InTx. by destruct (prog_sql p s).
Qed.
Lemma op_call_pool {A} (o : Op A) sv :
  exists sc, op_call o (OverPool sv) = let '(r, sv') := Store_Tx sc (op_sql o) sv in (r, OverPool sv').
Proof. destruct o; cbn; eexists; reflexivity. Qed.
End transactions.

(** ** The properties of the store over the database *)
Section store_props.
Context `{PostgresLaws}.

(** C10. A function run by Atomic takes effect whole or not at all, whatever errors
    it handles itself: either the tables are as before and an error is returned, or
    the function succeeded, no statement of it was refused by the server, and the
    tables are exactly those it left (the answer of the commit may still be lost). *)
Theorem atomic_whole {A} (p : Prog A) tid sv r d :
  DB_Atomic tid (prog_run p) (OverPool sv) = (r, d) ->
  exists sv', d = OverPool sv'
    /\ ((undone sv sv' /\ is_ok r = false)
        \/ exists s0 a s1, opened (mkScope tid false) sv s0 /\ prog_sql p s0 = (Ok a, s1) /\ spoiled p s0 = false
             /\ sv_db sv' = tx_db s1 /\ (r = Ok a \/ is_ok r = false)).
Proof.
  rewrite DB_Atomic_pool. destruct (Store_Tx _ _ sv) as [r1 sv'] eqn:E. intros [= <- <-]. exists sv'. split; [done|].
  destruct (Store_Tx_inv _ _ _ _ _ E) as [Hu|(s0 & a & s1 & Ho & Hp & Hf & Hd & Hr)]; [by left|right].
  exists s0, a, s1. split_and!; try done. destruct (spoiled p s0) eqn:Es; [|done].
  apply spoiled_failed in Es. rewrite Hp in Es. cbn in Es. congruence.
Qed.

Lemma foreign_undone tid sv sv' : undone sv sv' -> foreign tid (sv_db sv') = foreign tid (sv_db sv).
Proof. intros [q ->]. done. Qed.

(** A program that only reads. *)
Fixpoint only_reads {A} (p : Prog A) : Prop :=
  match p with
  | PRet _ => True
  | PCall o k => op_reads o = true /\ forall r, only_reads (k r)
  end.
Lemma confined_prog {A} (p : Prog A) : only_reads p -> confined (prog_sql p).
Proof.
  induction p as [r|B o k IH]; intros Hr s1 s2 Ha; [done|]. destruct Hr as [Ho Hk].
  cbn. destruct (confined_op o Ho s1 s2 Ha) as [E1 E2].
  destruct (op_sql o s1) as [r1 t1], (op_sql o s2) as [r2 t2]. cbn in E1, E2. subst r2. by apply IH.
Qed.
(** The rows whose tenant column names the tenant. *)
Definition of_tenant {R} (tid : string) (ten : R -> string) (m : gmap string R) : gmap string R :=
  filter (fun x : string * R => ten x.2 = tid) m.
Definition tenant_rows (tid : string) (db : Db) : Db :=
  mkDb (of_tenant tid ca_TenantID (db_cas db)) (of_tenant tid iss_TenantID (db_issuers db)) (of_tenant tid sec_TenantID (db_secrets db))
    (of_tenant tid req_TenantID (db_requests db)) (of_tenant tid crt_TenantID (db_certificates db)) (of_tenant tid job_TenantID (db_jobs db))
    (of_tenant tid rev_TenantID (db_revocations db)) (of_tenant tid ins_TenantID (db_installed db)) (of_tenant tid tgt_TenantID (db_targets db))
    (of_tenant tid whk_TenantID (db_webhooks db)) (of_tenant tid grt_TenantID (db_grants db))
    (filter (fun l => log_TenantID l = tid) (db_log db)) (filter (fun a => aud_TenantID a = tid) (db_audit db)) 0.
(** The policy shows a tenant no row of another. *)
Lemma visible_tenant {R} (T : Table R) tid db :
  t_rows T (tenant_rows tid db) = of_tenant tid (t_tenant T) (t_rows T db) ->
  visible_rows T (mkScope tid false) (tenant_rows tid db) = visible_rows T (mkScope tid false) db.
Proof.
  unfold visible_rows, of_tenant. intros ->. apply map_eq. intros k. apply option_eq. intros r. rewrite !map_lookup_filter_Some. cbn.
  split; [tauto|]. intros [Hr Hm]. by pose proof (matches_tenant _ _ Hm).
Qed.
Lemma visible_list {A} (ten : A -> string) tid (l : list A) :
  filter (fun x => app_tenant_matches (mkScope tid false) (ten x) = true) (filter (fun x => ten x = tid) l)
  = filter (fun x => app_tenant_matches (mkScope tid false) (ten x) = true) l.
Proof.
  rewrite list_filter_filter. apply list_filter_iff. intros x. split; [tauto|]. intros Hm. split; [done|by apply matches_tenant].
Qed.
Lemma own_tenant tid db : own (mkScope tid false) (tenant_rows tid db) = own (mkScope tid false) db.
Proof.
  unfold own. f_equal; try (by apply visible_tenant); [apply (visible_list log_TenantID)|apply (visible_list aud_TenantID)].
Qed.
(** C11. What a tenant's transaction reads does not depend on the rows of other
    tenants: on two databases that have the same rows with the tenant in their tenant
    column, every program that only reads gives the same answer, also through a method
    that does not ask for a tenant itself. *)
Theorem reads_confined {A} (p : Prog A) tid sv1 sv2 :
  only_reads p -> sv_n sv1 = sv_n sv2 -> tenant_rows tid (sv_db sv1) = tenant_rows tid (sv_db sv2) ->
  (DB_Atomic tid (prog_run p) (OverPool sv1)).1 = (DB_Atomic tid (prog_run p) (OverPool sv2)).1.
Proof.
  intros Hr Hn Ht. assert (Ho : own (mkScope tid false) (sv_db sv1) = own (mkScope tid false) (sv_db sv2))
    by (rewrite <- (own_tenant tid (sv_db sv1)), Ht; apply own_tenant).
  rewrite !DB_Atomic_pool. unfold Store_Tx. rewrite <- Hn. destruct (pg_fault (sv_n sv1)) as [e|]; [done|].
  cbn [sc_TenantID sc_System]. unfold set_config at 2 4. unfold st_bind.
  set (c := set_config _ _). set (a1 := mkTxS (sv_db sv1) _ _ _ _). set (a2 := mkTxS (sv_db sv2) _ _ _ _).
  assert (Hc : (c a1).1 = (c a2).1 /\ tx_n (c a1).2 = tx_n (c a2).2
               /\ (is_ok (c a1).1 = true -> agree (c a1).2 (c a2).2)).
  { unfold c, set_config, stmt, a1, a2. destruct (tid =s "") eqn:Et; cbn.
    - split_and!; try done. intros _. apply str_eqb_eq in Et as ->. by split.
    - destruct (pg_fault (S (sv_n sv1))); cbn; [by split_and!|]. by split_and!. }
  destruct (c a1) as [q1 t1], (c a2) as [q2 t2]. cbn [fst snd] in Hc. destruct Hc as (-> & Hn' & Ha).
  destruct q2 as [[]|e]; [|done]. specialize (Ha eq_refl).
  destruct (confined_prog p Hr t1 t2 Ha) as [E1 E2].
  destruct (prog_sql p t1) as [r1 u1], (prog_sql p t2) as [r2 u2]. cbn in E1, E2. subst r2. destruct E2 as [_ _ _ Hnn Hff].
  destruct r1; [|done]. rewrite <- Hnn, <- Hff. destruct (pg_fault _); [done|]. by destruct (tx_failed u1).
Qed.

(** One call or one transaction of the store. *)
Inductive served (sv : PgServer) : PgServer -> Prop :=
| served_call {A} (o : Op A) r sv' : op_call o (OverPool sv) = (r, OverPool sv') -> served sv sv'
| served_atomic {A} (p : Prog A) tid r sv' :
    DB_Atomic tid (prog_run p) (OverPool sv) = (r, OverPool sv') -> served sv sv'.
Lemma undone_ok sv sv' : db_ok (sv_db sv) -> undone sv sv' -> db_ok (sv_db sv').
Proof. intros Hk [q ->]. exact Hk. Qed.
Lemma Store_Tx_ok {A} scope (fn : Sql A) sv r sv' :
  stepping fn -> db_ok (sv_db sv) -> Store_Tx scope fn sv = (r, sv') -> db_ok (sv_db sv').
Proof.
  intros Hfn Hk E. destruct (Store_Tx_inv _ _ _ _ _ E) as [[Hu _]|(s0 & a & s1 & [Hd _ _] & Hp & _ & -> & _)].
  - by eapply undone_ok.
  - rewrite <- Hd in *. destruct (Hfn _ _ _ Hp (tables_keyed _ (proj1 Hk))) as [Hst _]. by eapply db_steps_ok.
Qed.
Lemma db_empty_ok : db_ok db_empty.
Proof.
  assert (He : forall R (T : Table R), table_ok T ∅).
  { intros R T. split_and!; try apply map_Forall_empty. intros k1 k2 r1 r2 H1. by rewrite lookup_empty in H1. }
  split; [unfold tables_ok; cbn; auto 20|]. split; [split_and!; apply map_Forall_empty|by split].
Qed.
Lemma served_ok n sv : rtc served (mkPgServer db_empty n) sv -> db_ok (sv_db sv).
Proof.
  assert (Hs : forall a b, rtc served a b -> db_ok (sv_db a) -> db_ok (sv_db b)).
  { intros a b Hab. induction Hab as [|a b c Hab _ IH]; [done|]. intros Hk. apply IH. inversion Hab as [A o r sv' Hc|A p tid r sv' Hc]; subst.
    - destruct (op_call_pool o a) as [sc Ho]. rewrite Ho in Hc. destruct (Store_Tx sc (op_sql o) a) as [r1 sv1] eqn:E.
      simplify_eq. by eapply Store_Tx_ok; [apply stepping_op| |].
    - rewrite DB_Atomic_pool in Hc. destruct (Store_Tx _ _ a) as [r1 sv1] eqn:E. simplify_eq.
      by eapply Store_Tx_ok; [apply stepping_prog| |]. }
  intros Hr. apply (Hs _ _ Hr), db_empty_ok.
Qed.
(** C12. In whatever order the methods and transactions of the store run, and
    whatever fails on the way, what is stored satisfies the constraints the migrations
    declare, as [schema] writes them out: the primary keys, the NOT NULL and CHECK
    constraints of every table, the logs included, the unique indexes, and the
    references between tables.  Nothing is said of the types of the columns. *)
Theorem schema_kept n sv : rtc served (mkPgServer db_empty n) sv -> schema (sv_db sv).
Proof. intros Hr. by apply db_ok_schema, (served_ok n). Qed.
End store_props.

(** ** The race for the active CA of a trust domain *)

(** The transaction of [EnsureCA] (internal/ca/ca.go), [generate] being what
    [a.generate] returned. *)
Definition ensureCA_tx (tenantID trustDomain : string) (generate : res CA) : Prog CA :=
  PCall (OpCAByState tenantID trustDomain "active") (fun again =>
    match again with
    | Ok c => PRet (Ok c)
    | Err rerr =>
      if negb (errors_is rerr "store" "ErrNotFound") then PRet (Err rerr)
      else match generate with
           | Err gerr => PRet (Err gerr)
           | Ok fresh =>
             PCall (OpInsertCA fresh) (fun ins =>
               match ins with
               | Ok _ => PRet (Ok fresh)
               | Err ierr =>
                 if errors_is ierr "store" "ErrConflict"
                 then PCall (OpCAByState tenantID trustDomain "active") PRet
                 else PRet (Err ierr)
               end)
           end
    end).
(** A program whose statements see, as READ COMMITTED lets them, what other
    transactions have committed before each of them. *)
Fixpoint prog_among `{Postgres} {A} (others : nat -> Db -> Db) (p : Prog A) : Sql A := fun s =>
  match p with
  | PRet r => (r, s)
  | PCall o k => let '(r, s') := op_sql o (s <| tx_db := others (tx_n s) (tx_db s) |>) in prog_among others (k r) s'
  end.

Section race.
Context `{PostgresLaws}.
(** The errors of a statement that come with a code. *)
Definition coded {A} (r : res A) : Prop := forall e, r = Err e -> exists code, e = PgError code.
Lemma coded_bind {A B} (r : res A) (k : A -> res B) : coded r -> (forall a, coded (k a)) -> coded (res_bind r k).
Proof. intros Hr Hk. destruct r; [apply Hk|]. intros e' [= <-]. by apply Hr. Qed.
Lemma coded_ok {A} (a : A) : coded (Ok a).
Proof. by intros e. Qed.
Lemma coded_err {A} code : coded (Err (PgError code) : res A).
Proof. intros e [= <-]. by eexists. Qed.
Lemma coded_uuid s : coded (uuid_arg s).
Proof. unfold uuid_arg. case_match; [apply coded_ok|apply coded_err]. Qed.
Lemma coded_texts l : coded (text_args l).
Proof.
  unfold text_args. apply coded_bind; [|intros; apply coded_ok]. induction l; cbn; [apply coded_ok|].
  apply coded_bind; [unfold text_arg; case_match; [apply coded_ok|apply coded_err]|]. intros. apply coded_bind; [done|]. intros. apply coded_ok.
Qed.
Lemma coded_insert {R} (T : Table R) sc r db : coded (insert_row T sc r db).
Proof. unfold insert_row. repeat case_match; first [apply coded_ok|apply coded_err]. Qed.
(** An insertion refused as a conflict fails its transaction. *)
Lemma conflict_spoils c s e s' :
  op_sql (OpInsertCA c) s = (Err e, s') -> errors_is e "store" "ErrConflict" = true -> tx_failed s' = true.
Proof.
  cbn [op_sql]. unfold sql_InsertCA, map_err, exec_insert, stmt. destruct (pg_fault (tx_n s)) as [ft|] eqn:Ef.
  - intros [= <- <-]. destruct (pg_fault_kind _ _ Ef) as [[code ->]|[msg ->]]; [|done]. cbn. by rewrite orb_true_r.
  - destruct (tx_failed s) eqn:Efd; [by intros [= <- <-]|].
    set (q := res_bind _ _). assert (Hq : coded q).
    { repeat first [apply coded_bind; [first [apply coded_uuid|apply coded_texts|apply coded_insert|apply coded_ok|idtac]|intros] | apply coded_ok]. }
    destruct q as [[[] db]|e0] eqn:Eq; intros [= <- <-]. destruct (Hq e0 eq_refl) as [code ->]. done.
Qed.
Lemma spoiled_look tid td s : tx_failed s = true -> is_ok (op_sql (OpCAByState tid td "active") s).1 = false.
Proof.
  intros Hf. cbn [op_sql]. unfold sql_CAByState, query_row, query, map_err.
  match goal with |- context [stmt ?f s] => pose proof (failed_stmt_err f s Hf) as He; destruct (stmt f s) as [[]?] end; done.
Qed.
(** The loser of the race for the active CA never adopts the winner's: whatever
    other transactions commit in between, [EnsureCA]'s transaction succeeds only with
    the CA its first look found, or with the one it inserted itself.  Its second
    look, meant to return the winner after a conflict, runs in a failed transaction. *)
Theorem ensureCA_never_adopts others tid td fresh s c s' :
  prog_among others (ensureCA_tx tid td (Ok fresh)) s = (Ok c, s') ->
  (exists s1, op_sql (OpCAByState tid td "active") (s <| tx_db := others (tx_n s) (tx_db s) |>) = (Ok c, s1))
  \/ (c = fresh /\ exists s1, op_sql (OpInsertCA fresh) s1 = (Ok tt, s')).
Proof.
  unfold ensureCA_tx. cbn [prog_among]. destruct (op_sql (OpCAByState tid td "active") _) as [[c1|e1] s1] eqn:E1.
  { intros [= <- <-]. left. eauto. }
  case_match; cbn [prog_among]; [done|].
  destruct (op_sql (OpInsertCA fresh) _) as [[[]|e2] s2] eqn:E2.
  { intros [= <- <-]. right. eauto. }
  case_match eqn:Ec; cbn [prog_among]; [|done]. intros Hr.
  pose proof (conflict_spoils _ _ _ _ E2 Ec) as Hf.
  match type of Hr with context [op_sql ?o ?x] => pose proof (spoiled_look tid td x Hf) as Hl; destruct (op_sql o x) as [[]?] end; done.
Qed.
End race.

(** ** Witnesses *)
Module SqlSample.
Definition std_pg : Postgres := {|
  pg_uuid s := if IsUUID s then Some s else None;
  pg_text s := Some (str_len s);
  pg_jsonb s := Some s;
  pg_lower := string_map lower_byte;
  pg_collate := str_ltb;
  pg_time t := t - t mod 1000;
  pg_scan A l := l;
  pg_clock n := 1000000 * Z.of_nat n;
  pg_fault _ := None;
  pg_lost _ := false;
  pg_locked _ := false;
|}.
Lemma std_pg_laws : @PostgresLaws std_pg.
Proof. constructor; [intros; reflexivity|intros n e [=]]. Qed.
#[local] Existing Instance std_pg.
#[local] Existing Instance std_pg_laws.

Definition tenantA : string := "00000000-0000-7000-8000-00000000000a".
Definition tenantB : string := "00000000-0000-7000-8000-00000000000b".
Definition ca_of (tid id : string) : CA :=
  mkCA id tid "example.org" "PEM" (Some "sealed") "active" 0 1000000 "1" 0.
Definition ca1 : CA := ca_of tenantA "00000000-0000-7000-8000-0000000000c1".
Definition ca2 : CA := ca_of tenantA "00000000-0000-7000-8000-0000000000c2".
Definition caB : CA := ca_of tenantB "00000000-0000-7000-8000-0000000000cb".
Definition sv0 : PgServer := mkPgServer db_empty 0.
(** The other tenant has a CA. *)
Definition svB : PgServer := mkPgServer (db_empty <| db_cas := {[ ca_ID caB := caB ]} |>) 0.
(** A function that goes on after a refused statement. *)
Definition two_cas : Prog unit :=
  PCall (OpInsertCA ca1) (fun _ => PCall (OpInsertCA ca2) (fun _ => PRet (Ok tt))).
Definition one_ca : Prog unit := PCall (OpInsertCA ca1) PRet.
Definition look : Prog (list CA) := PCall (OpCAsForDomain tenantA "example.org") PRet.

Lemma atomic_whole_witness : exists sv', (DB_Atomic tenantA (prog_run two_cas) (OverPool sv0)).2 = OverPool sv'
  /\ undone sv0 sv' /\ (DB_Atomic tenantA (prog_run two_cas) (OverPool sv0)).1 = Err pgx_ErrTxCommitRollback.
Proof.
  assert (Hr : (DB_Atomic tenantA (prog_run two_cas) (OverPool sv0)).1 = Err pgx_ErrTxCommitRollback)
    by (vm_compute; reflexivity).
  destruct (atomic_whole two_cas tenantA sv0 _ _ (surjective_pairing _)) as (sv' & Hd & [[Hu _]|(s0 & a & s1 & [Hdb Hsc Hf] & Hp & Hs & _)]).
  - exists sv'. auto.
  - exfalso. destruct s0 as [db0 sc0 now0 n0 f0]. cbn in Hdb, Hsc, Hf. subst db0 sc0 f0.
    assert (Hx : spoiled two_cas (mkTxS db_empty (mkScope tenantA false) now0 n0 false) = true) by (vm_compute; reflexivity).
    rewrite Hx in Hs. discriminate Hs.
Defined.
Lemma reads_confined_witness :
  (DB_Atomic tenantA (prog_run look) (OverPool sv0)).1 = (DB_Atomic tenantA (prog_run look) (OverPool svB)).1.
Proof.
  apply (reads_confined look tenantA sv0 svB); [by split|reflexivity|vm_compute; reflexivity].
Defined.
Lemma schema_kept_witness : exists sv, op_call (OpInsertCA ca1) (OverPool sv0) = (Ok tt, OverPool sv) /\ schema (sv_db sv).
Proof.
  destruct (op_call (OpInsertCA ca1) (OverPool sv0)) as [r [sv|]] eqn:E.
  - exists sv. split.
    + assert (Hr : (op_call (OpInsertCA ca1) (OverPool sv0)).1 = Ok tt) by (vm_compute; reflexivity).
      rewrite E in Hr. cbn in Hr. by rewrite Hr.
    + apply (schema_kept 0 sv). apply rtc_once. exact (served_call sv0 (OpInsertCA ca1) r sv E).
  - exfalso. assert (Hx : is_ok (match (op_call (OpInsertCA ca1) (OverPool sv0)).2 with OverPool v => Ok v | InTx _ => Err pgx_ErrNoRows end) = true)
      by (vm_compute; reflexivity). rewrite E in Hx. discriminate Hx.
Defined.
(** Another transaction commits its CA between the look and the insertion. *)
Definition winner (n : nat) (db : Db) : Db :=
  if (n =? 1)%nat then db <| db_cas := <[ca_ID ca2 := ca2]> (db_cas db) |> else db.
Definition open_tx : TxS := mkTxS db_empty (mkScope tenantA false) 0 0 false.
(** The winner's CA is there, and the loser answers in_failed_sql_transaction. *)
Example race_lost : (prog_among winner (ensureCA_tx tenantA "example.org" (Ok ca1)) open_tx).1 = Err (PgError "25P02").
Proof. vm_compute. reflexivity. Qed.
Lemma ensureCA_never_adopts_witness :
  exists s1, op_sql (OpInsertCA ca1) s1 = (Ok tt, (prog_among (fun _ db => db) (ensureCA_tx tenantA "example.org" (Ok ca1)) open_tx).2).
Proof.
  destruct (prog_among (fun _ db => db) (ensureCA_tx tenantA "example.org" (Ok ca1)) open_tx) as [r s'] eqn:E.
  assert (Hr : (prog_among (fun _ db => db) (ensureCA_tx tenantA "example.org" (Ok ca1)) open_tx).1 = Ok ca1)
    by (vm_compute; reflexivity).
  rewrite E in Hr. cbn in Hr. subst r.
  destruct (ensureCA_never_adopts _ _ _ _ _ _ _ E) as [[s1 Hl]|[_ [s1 Hi]]]; [|by exists s1].
  exfalso. assert (Hx : is_ok (op_sql (OpCAByState tenantA "example.org" "active") open_tx).1 = false) by (vm_compute; reflexivity).
  cbn [tx_n tx_db open_tx] in Hl. change (is_ok (op_sql (OpCAByState tenantA "example.org" "active")
    (open_tx <| tx_db := db_empty |>)).1 = false) in Hx. rewrite Hl in Hx. discriminate Hx.
Defined.
End SqlSample.
