(* ===== verification/SqlAgree.v ===== *)
(** The two stores page the same way: the lists of the repositories
    (internal/store/repos.go) against those of the in-memory store
    (internal/memstore), which says it applies the same scoping and paging rules. *)

From S2P Require Import Prelude Rows Memstore MemstoreInv MemstoreList Sql SqlStore SqlDb SqlInv SqlTx.

Section agree.
Context `{GoRuntime} `{PostgresLaws}.
Context (tid : string) (s : TxS) (m : Mem).
(** An open transaction of the tenant, in which the next exchange succeeds. *)
Hypothesis tid_canonical : pg_uuid tid = Some tid /\ tid <> "".
Hypothesis tx_tenant : tx_scope s = mkScope tid false /\ tx_failed s = false /\ pg_fault (tx_n s) = None.
Hypothesis tx_keyed : db_keyed (tx_db s).
Hypothesis no_injection : m_Fail m = ∅.

(** A select on the tenant's rows meets what [range] over the map does. *)
Lemma select_range {R} (T : Table R) (P : R -> bool) :
  (forall r, P r = true -> t_tenant T r = tid) ->
  select T (tx_scope s) P (tx_db s) ≡ₚ filter (fun r => P r = true) (map_range (t_rows T (tx_db s))).*2.
Proof.
  intros HP. destruct tx_tenant as [-> _]. unfold select. rewrite pg_scan_perm, map_range_perm. unfold visible_rows.
  assert (Hm : forall l : list (string * R), filter (fun r => P r = true) l.*2
    ≡ₚ filter (fun r => P r = true) (filter (fun x : string * R => app_tenant_matches (mkScope tid false) (t_tenant T x.2) = true) l).*2).
  { induction l as [|[k r] l IH]; [done|]. rewrite fmap_cons, filter_cons. rewrite (filter_cons _ (k, r) l). cbn [snd].
    destruct (decide (P r = true)) as [Hp|Hp].
    - rewrite decide_True; [|by rewrite (HP r Hp); unfold app_tenant_matches; cbn; rewrite str_eqb_refl, orb_false_r, andb_true_r;
        apply negb_true_iff, str_eqb_neq; apply tid_canonical]. rewrite fmap_cons, filter_cons, decide_True by done. by rewrite IH.
    - case_decide; [|done]. rewrite fmap_cons, filter_cons, decide_False by done. done. }
  rewrite (Hm (map_to_list (t_rows T (tx_db s)))). f_equiv. f_equiv. rewrite map_filter_alt.
  apply map_to_list_to_map. eapply sublist_NoDup; [apply (NoDup_fst_map_to_list (t_rows T (tx_db s)))|].
  apply fmap_sublist, sublist_filter.
Qed.
Lemma newest_first_desc {A} (ts : A -> Z) (id : A -> string) l :
  sort_slice (newest_first ts id) l = sort_slice (desc (fun x => (ts x, id x))) l.
Proof. done. Qed.
(** Newest first is one order: keys are unique. *)
Lemma newest_agree {R} (T : Table R) (ts : R -> Z) (P : R -> bool) :
  row_keyed T (t_rows T (tx_db s)) -> (forall r, P r = true -> t_tenant T r = tid) ->
  sort_slice (newest_first ts (t_id T)) (select T (tx_scope s) P (tx_db s))
  = sortDesc ts (t_id T) (filter (fun r => P r = true) (map_range (t_rows T (tx_db s))).*2).
Proof.
  intros Hk HP. rewrite newest_first_desc, sortDesc_desc. symmetry. apply sort_desc_unique.
  - intros x y Hx Hy [= _ Hid]. apply list_elem_of_filter in Hx as [_ Hx], Hy as [_ Hy].
    apply list_elem_of_fmap in Hx as ([k1 x1] & -> & Hx), Hy as ([k2 y1] & -> & Hy).
    apply elem_of_map_range in Hx, Hy. cbn in *. pose proof (Hk _ _ Hx). pose proof (Hk _ _ Hy). cbn in *. congruence.
  - rewrite sort_slice_perm. by apply select_range.
  - apply sort_desc_sorted.
Qed.
Lemma limit_agree {A} n (l : list A) : 0 <= n -> limit_rows n l = Ok (sqlLimit l n).
Proof.
  intros Hn. unfold limit_rows, sqlLimit. replace (n <? 0) with false by (symmetry; apply Z.ltb_ge; lia).
  destruct (n <=? 0) eqn:E; bools; [by replace n with 0 by lia|].
  destruct (n <? Z.of_nat (length l)) eqn:E2; bools; [done|]. by rewrite take_ge by lia.
Qed.
Lemma sqlLimit_fmap {A B} (g : A -> B) l n : g <$> sqlLimit l n = sqlLimit (g <$> l) n.
Proof. unfold sqlLimit. rewrite length_fmap. case_match; [done|]. case_match; [|done]. by rewrite fmap_take. Qed.
(** The cursors agree when the cursor is one the database keeps whole. *)
Definition cursor_ok (ts : Z) (id : string) : Prop := pg_time ts = ts /\ (id = "" \/ pg_uuid id = Some id).
Lemma cursor_agree cts cid ts id :
  cursor_ok cts cid -> before_row ts id (time_arg cts) (nullIfEmpty cid) = beforeCursor ts id cts cid.
Proof.
  intros [Ht _]. unfold before_row, time_arg, nullTime, beforeCursor, Before, TimeEqual. destruct (IsZero cts); cbn; [done|].
  rewrite Ht. f_equal. unfold nullIfEmpty. destruct (cid =s "") eqn:E; [|done]. apply str_eqb_eq in E as ->.
  rewrite andb_comm. by destruct id.
Qed.
Lemma cursor_arg cts cid : cursor_ok cts cid -> opt_arg uuid_arg (nullIfEmpty cid) = Ok (nullIfEmpty cid).
Proof.
  intros [_ Hc]. unfold nullIfEmpty. destruct (cid =s "") eqn:E; [done|]. destruct Hc as [->|Hc]; [done|].
  cbn. unfold uuid_arg. by rewrite Hc.
Qed.
Lemma query_now {A} (f : Scope -> Z -> Db -> res A) : (query f s).1 = f (tx_scope s) (tx_now s) (tx_db s).
Proof. unfold query, stmt. destruct tx_tenant as (_ & -> & ->). by destruct (f _ _ _). Qed.
Lemma texts_ok l : Forall (fun x => is_Some (pg_text x)) l -> text_args l = Ok tt.
Proof.
  intros Hl. unfold text_args. assert (Ha : list_arg text_arg l = Ok l); [|by rewrite Ha].
  induction Hl as [|x l [n Hx] _ IH]; [done|]. cbn [list_arg].
  unfold text_arg at 1. rewrite Hx. cbn [res_bind]. by rewrite IH.
Qed.

(** C13. The lists the two stores page through, newest first, are the same: for
    the same rows, filter, cursor and limit, the query and the in-memory list give
    the same page, whatever order the scan and the map iteration take. *)
Theorem lists_agree rf jf cf :
  m_Requests m = db_requests (tx_db s) -> m_Jobs m = db_jobs (tx_db s) -> m_Certificates m = db_certificates (tx_db s) ->
  0 <= rqf_Limit rf -> 0 <= jbf_Limit jf -> 0 <= crf_Limit cf ->
  cursor_ok (rqf_CursorTS rf) (rqf_CursorID rf) -> cursor_ok (jbf_CursorTS jf) (jbf_CursorID jf) ->
  cursor_ok (crf_CursorTS cf) (crf_CursorID cf) ->
  Forall (fun x => is_Some (pg_text x)) [rqf_Status rf; jbf_Status jf; crf_IssuerID cf; crf_SpiffeID cf; crf_Status cf] ->
  res_map (fmap cpRequest) (sql_ListRequests tid rf s).1 = Mem_ListRequests tid rf m
  /\ (sql_ListJobs tid jf s).1 = Mem_ListJobs tid jf m
  /\ res_map (fmap cpCertificate) (sql_ListCertificates tid cf s).1 = Mem_ListCertificates tid cf m.
Proof.
  intros Er Ej Ec L1 L2 L3 C1 C2 C3 Ht. destruct tx_keyed as (_ & _ & _ & Kr & Kc & Kj & _).
  pose proof (proj1 tid_canonical) as Hu. rewrite !Forall_cons in Ht. destruct Ht as ([n1 T1] & [n2 T2] & T3 & T4 & T5 & _).
  unfold sql_ListRequests, sql_ListJobs, sql_ListCertificates. rewrite !query_now. unfold uuid_arg at 1 3 5. rewrite Hu.
  unfold text_arg. rewrite T1, T2, (texts_ok [_; _; _]) by (repeat constructor; assumption). cbn [res_bind].
  rewrite (cursor_arg _ _ C1), (cursor_arg _ _ C2), (cursor_arg _ _ C3). cbn [res_bind]. rewrite !limit_agree by done.
  unfold Mem_ListRequests, Mem_ListJobs, Mem_ListCertificates, fail_read. rewrite no_injection, !lookup_empty. cbn [res_map].
  unfold order_by. rewrite Er, Ej, Ec. split_and!; f_equal.
  - rewrite sqlLimit_fmap. f_equal. rewrite (newest_agree T_requests req_CreatedAt); [|done|intros r Hr; by bools].
    unfold sortDesc. rewrite (sort_slice_fmap _ (fun a b => if negb (TimeEqual (req_CreatedAt a) (req_CreatedAt b))
      then After (req_CreatedAt a) (req_CreatedAt b) else str_ltb (req_ID b) (req_ID a))) by done.
    do 2 f_equal. apply list_filter_iff. intros r. unfold request_selected. by rewrite (cursor_agree _ _ _ _ C1).
  - f_equal. rewrite (newest_agree T_jobs job_CreatedAt); [|done|intros r Hr; by bools].
    f_equal. apply list_filter_iff. intros r. unfold job_selected. by rewrite (cursor_agree _ _ _ _ C2).
  - rewrite sqlLimit_fmap. f_equal. rewrite (newest_agree T_certificates crt_CreatedAt); [|done|intros r Hr; by bools].
    unfold sortDesc. rewrite (sort_slice_fmap _ (fun a b => if negb (TimeEqual (crt_CreatedAt a) (crt_CreatedAt b))
      then After (crt_CreatedAt a) (crt_CreatedAt b) else str_ltb (crt_ID b) (crt_ID a))) by done.
    do 2 f_equal. apply list_filter_iff. intros r. unfold certificate_selected. by rewrite (cursor_agree _ _ _ _ C3).
Qed.
End agree.

Module AgreeSample.
Import SqlSample.
#[local] Existing Instance std_runtime.
#[local] Existing Instance std_pg.
#[local] Existing Instance std_pg_laws.
Definition req (id : string) (at_ : Z) : CertificateRequest :=
  mkCertificateRequest id tenantA None "svid" "spiffe://example.org/a" (Some "[]") "" None 0 "" "user" "pending" None None None at_ at_.
Definition idq (c : string) : string := "00000000-0000-7000-8000-0000000000" +:+ c.
Definition rows : gmap string CertificateRequest :=
  {[ idq "01" := req (idq "01") 1000; idq "02" := req (idq "02") 2000 ]}.
Definition db1 : Db := db_empty <| db_requests := rows |>.
Definition mem1 : Mem := (Mem_New 0) <| m_Requests := rows |>.
Definition tx1 : TxS := mkTxS db1 (mkScope tenantA false) 0 0 false.
Definition rf1 : RequestFilter := mkRequestFilter "" 2000 (idq "02") 10.
Definition jf1 : JobFilter := mkJobFilter "" 0 "" 10.
Definition cf1 : CertificateFilter := mkCertificateFilter "" "" "" 0 "" 10.
(** The page after the newer request holds the older one. *)
Lemma lists_agree_witness :
  res_map (fmap cpRequest) (sql_ListRequests tenantA rf1 tx1).1 = Mem_ListRequests tenantA rf1 mem1
  /\ Mem_ListRequests tenantA rf1 mem1 = Ok [req (idq "01") 1000].
Proof.
  split; [|vm_compute; reflexivity].
  refine (proj1 (lists_agree tenantA tx1 mem1 _ _ _ _ rf1 jf1 cf1 _ _ _ _ _ _ _ _ _ _)); try reflexivity; try (cbn; lia).
  - split; [vm_compute; reflexivity|discriminate].
  - split_and!; reflexivity.
  - unfold db_keyed. split_and!; try apply (map_Forall_empty (M:=gmap string)).
    intros k r Hk. change (rows !! k = Some r) in Hk. unfold rows in Hk.
    apply lookup_insert_Some in Hk as [[<- <-]|[_ Hk]]; [reflexivity|]. apply lookup_singleton_Some in Hk as [<- <-]. reflexivity.
  - split; [vm_compute; reflexivity|right; vm_compute; reflexivity].
  - split; [vm_compute; reflexivity|by left].
  - split; [vm_compute; reflexivity|by left].
  - repeat constructor; by eexists.
Defined.

(** ** Where the two stores part *)

(** The rows handed out for renewal are locked until their transaction ends, which
    is before the caller has them: the next poll hands out the same certificate. *)
Definition cert1 : IssuedCertificate :=
  mkIssuedCertificate (idq "c1") tenantA (idq "11") "svid" None "1" "spiffe://example.org/a" "" (Some "[]") 0 5000 "" "active"
    "PEM" "" None false true None "" None None 0 0.
Definition sv_due : PgServer := mkPgServer (db_empty <| db_certificates := {[ idq "c1" := cert1 ]} |>) 0.
Example renewal_handed_out_twice :
  let '(r1, d1) := DB_DueForRenewal 1000 9000 10 (OverPool sv_due) in
  r1 = Ok [cert1] /\ (DB_DueForRenewal 1000 9000 10 d1).1 = Ok [cert1].
Proof. vm_compute. done. Qed.
(** A request may name the issuer of another tenant: the foreign key does not look at
    the tenant, the in-memory store does. *)
Definition issB : Issuer :=
  mkIssuer (idq "b1") tenantB "b" "self_signed" "example.org" false None "" "" "" (Some "{}") None true None None 0 0 0.
Definition req_b : CertificateRequest := (req (idq "03") 0) <| req_IssuerID := Some (idq "b1") |>.
Example foreign_issuer_accepted :
  (DB_InsertRequest req_b (OverPool (mkPgServer (db_empty <| db_issuers := {[ idq "b1" := issB ]} |>) 0))).1 = Ok tt
  /\ (Mem_InsertRequest req_b ((Mem_New 0) <| m_Issuers := {[ idq "b1" := issB ]} |>)).1 = Err store_ErrConflict.
Proof. vm_compute. done. Qed.
(** An id that is no uuid is not found in memory, and an error of the database. *)
Example malformed_id :
  (DB_GetIssuer tenantA "x" (OverPool sv0)).1 = Err (PgError "22P02") /\ Mem_GetIssuer tenantA "x" (Mem_New 0) = Err store_ErrNotFound.
Proof. vm_compute. done. Qed.
End AgreeSample.
