(* ===== verification/Regexp.v ===== *)
(** Text as code points, and the part of Go's package regexp that
    internal/acme/problem.go uses: leftmost-first matching, greedy repetition,
    captures, word boundaries and ReplaceAllString. *)

From S2P Require Import Prelude GoJson Stream.

(** ** Code points *)

(** [utf8.DecodeRune]: the rune a string starts with and its size; a byte that
    starts no encoding is U+FFFD. *)
Definition decode_rune (s : string) : Z * nat :=
  match utf8_size s, s with
  | 1%nat, String c _ => (byte_of c, 1%nat)
  | 2%nat, String c (String c1 _) => ((byte_of c - 192) * 64 + (byte_of c1 - 128), 2%nat)
  | 3%nat, String c (String c1 (String c2 _)) =>
      ((byte_of c - 224) * 4096 + (byte_of c1 - 128) * 64 + (byte_of c2 - 128), 3%nat)
  | 4%nat, String c (String c1 (String c2 (String c3 _))) =>
      ((byte_of c - 240) * 262144 + (byte_of c1 - 128) * 4096 + (byte_of c2 - 128) * 64 + (byte_of c3 - 128), 4%nat)
  | _, _ => (65533, 1%nat)
  end.
(** [for _, r := range s] and [[]rune(s)]; [skip] bytes belong to the rune before. *)
Fixpoint runes_from (skip : nat) (s : string) : list Z :=
  match s with
  | EmptyString => []
  | String _ s' => match skip with
                   | S k => runes_from k s'
                   | O => (decode_rune s).1 :: runes_from (pred (decode_rune s).2) s'
                   end
  end.
Definition runes (s : string) : list Z := runes_from 0 s.
(** [string(l)] of a slice of runes. *)
Definition of_runes (l : list Z) : string := foldr (fun r s => encode_rune r +:+ s) "" l.
(** The code points a string of runes can hold. *)
Definition scalar (r : Z) : bool := (0 <=? r) && (r <? 1114112) && negb ((55296 <=? r) && (r <=? 57343)).

(** ** Expressions *)

(** A repetition is of one character class: nothing nested is needed. *)
Inductive regex :=
| RSet (p : Z -> bool)                 (* one rune *)
| RMany (lo : nat) (p : Z -> bool)     (* at least lo runes, as many as possible *)
| RSeq (a b : regex)
| RAlt (a b : regex)                   (* a is tried first *)
| ROpt (a : regex)                     (* a?, tried first with a *)
| RWordB                               (* \b *)
| RGroup (n : nat) (a : regex).        (* a capture *)

Definition word_rune (r : Z) : bool :=
  ((48 <=? r) && (r <=? 57)) || ((65 <=? r) && (r <=? 90)) || ((97 <=? r) && (r <=? 122)) || (r =? 95).
Definition opt_word (o : option Z) : bool := match o with Some r => word_rune r | None => false end.
(** The runes at the start of the text that are in the class. *)
Fixpoint run_length (p : Z -> bool) (s : list Z) : nat :=
  match s with
  | r :: s' => if p r then S (run_length p s') else 0%nat
  | [] => 0%nat
  end.
(** The captures so far, and what is found: the rest of the text after the match. *)
Definition captures : Type := list (nat * list Z).
Definition capture (n : nat) (c : captures) : list Z :=
  match list_find (fun x => x.1 = n) c with Some (_, x) => x.2 | None => [] end.
(** The rune before the text that is left once [used] of [s] has been read. *)
Definition last_of (prev : option Z) (used : list Z) : option Z :=
  match last used with Some r => Some r | None => prev end.

Section matcher.
Context {X : Type}.
(** The matcher tries a repetition from the longest down, and gives what is left to
    the continuation, as backtracking does. *)
Fixpoint try_down (k : nat) (lo : nat) (f : nat -> option X) : option X :=
  match f k with
  | Some x => Some x
  | None => match k with
            | S k' => if (lo <=? k')%nat then try_down k' lo f else None
            | O => None
            end
  end.
Fixpoint re_match (e : regex) (prev : option Z) (s : list Z) (c : captures)
  (k : option Z -> list Z -> captures -> option X) : option X :=
  match e with
  | RSet p => match s with r :: s' => if p r then k (Some r) s' c else None | [] => None end
  | RMany lo p =>
    let n := run_length p s in
    if (lo <=? n)%nat then try_down n lo (fun i => k (last_of prev (take i s)) (drop i s) c) else None
  | RSeq a b => re_match a prev s c (fun prev' s' c' => re_match b prev' s' c' k)
  | RAlt a b => match re_match a prev s c k with Some x => Some x | None => re_match b prev s c k end
  | ROpt a => match re_match a prev s c k with Some x => Some x | None => k prev s c end
  | RWordB => if xorb (opt_word prev) (opt_word (head s)) then k prev s c else None
  | RGroup n a => re_match a prev s c (fun prev' s' c' =>
      k prev' s' ((n, take (length s - length s') s) :: c'))
  end.
End matcher.

(** The match that starts here: its length and its captures. *)
Definition match_here (e : regex) (prev : option Z) (s : list Z) : option (nat * captures) :=
  re_match e prev s [] (fun _ s' c => Some ((length s - length s')%nat, c)).
(** [ReplaceAllString] for expressions that match no empty text. *)
Fixpoint replace_from (fuel : nat) (e : regex) (repl : captures -> list Z) (prev : option Z) (s : list Z) : list Z :=
  match fuel, s with
  | S n, r :: s' =>
    match match_here e prev s with
    | Some (S k, c) => repl c ++ replace_from n e repl (last_of prev (take (S k) s)) (drop (S k) s)
    | _ => r :: replace_from n e repl (Some r) s'
    end
  | _, _ => []
  end.
Definition ReplaceAll (e : regex) (repl : captures -> list Z) (s : list Z) : list Z :=
  replace_from (length s) e repl None s.

(** ** Classes and literals *)
Definition re_space (r : Z) : bool := (r =? 9) || (r =? 10) || (r =? 12) || (r =? 13) || (r =? 32).
Definition re_nonspace (r : Z) : bool := negb (re_space r).
(** [(?i)]: the runes that fold to a lower-case ASCII letter. *)
Definition fold_eq (c r : Z) : bool :=
  (r =? c) || ((97 <=? c) && (c <=? 122) && (r =? c - 32))
  || ((c =? 107) && (r =? 8490)) || ((c =? 115) && (r =? 383)).
Definition REps : regex := RMany 0 (fun _ => false).
Definition re_lit_ci (s : string) : regex :=
  foldr (fun c e => RSeq (RSet (fold_eq c)) e) REps (runes s).
Fixpoint re_alts (e : regex) (l : list regex) : regex :=
  match l with [] => e | e' :: l' => RAlt e (re_alts e' l') end.

(** ** Round trip of the code points *)
Lemma scalar_range r : scalar r = true -> 0 <= r < 1114112 /\ ~ (55296 <= r <= 57343).
Proof. unfold scalar. intros Hs. bools. split; [lia|]. intros []. match goal with X : _ && _ = false |- _ => apply andb_false_iff in X as [X|X] end; bools; lia. Qed.
(** Decide the comparisons of the encoding by arithmetic. *)
Ltac bytes := Z.to_euclidean_division_equations; lia.
Ltac decide_cmp := repeat match goal with
  | |- context [?a <? ?b] => first [replace (a <? b) with true by (symmetry; apply Z.ltb_lt; bytes)
                                   |replace (a <? b) with false by (symmetry; apply Z.ltb_ge; bytes)]
  | |- context [?a <=? ?b] => first [replace (a <=? b) with true by (symmetry; apply Z.leb_le; bytes)
                                    |replace (a <=? b) with false by (symmetry; apply Z.leb_gt; bytes)]
  | |- context [?a =? ?b] => first [replace (a =? b) with true by (symmetry; apply Z.eqb_eq; bytes)
                                   |replace (a =? b) with false by (symmetry; apply Z.eqb_neq; bytes)]
  end.
Ltac encoded := cbn [str1]; unfold decode_rune, utf8_size, between; rewrite !byte_of_chr by bytes; decide_cmp; cbn [andb orb].
Lemma encode_size r t : scalar r = true ->
  exists n, decode_rune (encode_rune r +:+ t) = (r, S n) /\ String.length (encode_rune r) = S n.
Proof.
  intros [Hr Hs]%scalar_range. unfold encode_rune.
  destruct (Z.ltb_spec r 128); [|destruct (Z.ltb_spec r 2048)].
  - exists 0%nat. split; [|done]. change (str1 (chr r) +:+ t) with (String (chr r) t). encoded. done.
  - exists 1%nat. split; [|done].
    change (String (chr (192 + r / 64)) (str1 (chr (128 + r mod 64))) +:+ t)
      with (String (chr (192 + r / 64)) (String (chr (128 + r mod 64)) t)).
    encoded. f_equal. bytes.
  - destruct ((55296 <=? r) && (r <=? 57343)) eqn:E; [exfalso; bools; lia|]. destruct (Z.ltb_spec r 65536).
    + exists 2%nat. split; [|done].
      match goal with |- context [?x +:+ t] => change (x +:+ t) with
        (String (chr (224 + r / 4096)) (String (chr (128 + r / 64 mod 64)) (String (chr (128 + r mod 64)) t))) end.
      assert (Hc : 2048 <= r < 4096 \/ 4096 <= r < 53248 \/ 53248 <= r < 55296 \/ 57344 <= r < 65536).
      { apply andb_false_iff in E as [E|E]; bools; lia. }
      destruct Hc as [Hc|[Hc|[Hc|Hc]]]; encoded; f_equal; bytes.
    + exists 3%nat. split; [|done].
      match goal with |- context [?x +:+ t] => change (x +:+ t) with
        (String (chr (240 + r / 262144)) (String (chr (128 + r / 4096 mod 64)) (String (chr (128 + r / 64 mod 64))
           (String (chr (128 + r mod 64)) t)))) end.
      assert (Hc : 65536 <= r < 262144 \/ 262144 <= r < 1048576 \/ 1048576 <= r < 1114112) by lia.
      destruct Hc as [Hc|[Hc|Hc]]; encoded; f_equal; bytes.
Qed.
Lemma runes_skip n s t : String.length s = n -> runes_from n (s +:+ t) = runes_from 0 t.
Proof. revert n. induction s as [|c s IH]; intros n Hn; destruct n; try done. cbn. apply IH. by injection Hn. Qed.
(** Writing runes and reading them back. *)
Lemma runes_of_runes l : Forall (fun r => scalar r = true) l -> runes (of_runes l) = l.
Proof.
  unfold runes. intros Hl. induction Hl as [|r l Hr _ IH]; [done|]. change (of_runes (r :: l)) with (encode_rune r +:+ of_runes l).
  destruct (encode_size r (of_runes l) Hr) as (n & Hd & Hn). destruct (encode_rune r) as [|c e] eqn:Ee; [done|].
  change (String c e +:+ of_runes l) with (String c (e +:+ of_runes l)) in *. cbn [runes_from]. rewrite Hd. cbn [fst snd pred].
  f_equal. rewrite runes_skip; [done|]. cbn in Hn. lia.
Qed.
Ltac split_conds := repeat match goal with
  | |- context [if ?b then _ else _] => destruct b eqn:?
  | |- context [match ?s with EmptyString => _ | String _ _ => _ end] => destruct s
  end.
Lemma byte_range c : 0 <= byte_of c < 256.
Proof. unfold byte_of. pose proof (Ascii.N_ascii_bounded c). lia. Qed.
Lemma scalar_intro r : 0 <= r < 1114112 -> ~ (55296 <= r <= 57343) -> scalar r = true.
Proof.
  intros Hr Hs. unfold scalar. rewrite !andb_true_iff, Z.leb_le, Z.ltb_lt, negb_true_iff, andb_false_iff, !Z.leb_gt. lia.
Qed.
Lemma decode_scalar s : scalar (decode_rune s).1 = true.
Proof.
  unfold decode_rune, utf8_size, between. destruct s as [|c s]; [done|]. pose proof (byte_range c).
  split_conds; cbn [fst]; try done; bools; apply scalar_intro; try lia;
    repeat match goal with X : (if ?b =? ?k then _ else _) <= _ |- _ => destruct (Z.eqb_spec b k)
                         | X : _ <= (if ?b =? ?k then _ else _) |- _ => destruct (Z.eqb_spec b k) end; lia.
Qed.
Lemma runes_scalar s : Forall (fun r => scalar r = true) (runes s).
Proof.
  unfold runes. generalize 0%nat. induction s as [|c s IH]; intros k; cbn [runes_from]; [done|].
  destruct k; [constructor; [apply decode_scalar|]|]; apply IH.
Qed.

(** ** What a replacement keeps *)
Section kept.
Context (P : Z -> Prop).
Definition caps_ok (c : captures) : Prop := Forall (fun x => Forall P x.2) c.
Lemma capture_ok n c : caps_ok c -> Forall P (capture n c).
Proof.
  intros Hc. unfold capture. destruct (list_find _ c) as [[i x]|] eqn:E; [|done].
  apply list_find_Some in E as (Hx & _ & _). by apply (Forall_lookup_1 _ _ _ _ Hc Hx).
Qed.
Lemma try_down_some {X} k lo (f : nat -> option X) x : try_down k lo f = Some x -> exists i, (i <= k)%nat /\ f i = Some x.
Proof.
  induction k as [|k IH]; cbn; destruct (f _) eqn:E; intros H; simplify_eq; eauto.
  case_match; [|done]. destruct (IH H) as (i & Hi & Hf). exists i. split; [lia|done].
Qed.
(** A match hands its continuation a suffix of the text and captures made of its runes. *)
Lemma re_match_some {X} e prev s c (k : option Z -> list Z -> captures -> option X) x :
  Forall P s -> caps_ok c -> re_match e prev s c k = Some x ->
  exists prev' s' c', (exists used, s = used ++ s') /\ caps_ok c' /\ k prev' s' c' = Some x.
Proof.
  revert prev s c k. induction e as [p|lo p|a IHa b IHb|a IHa b IHb|a IHa| |n a IHa]; intros prev s c k Hs Hc; cbn [re_match].
  - destruct s as [|r s]; [done|]. case_match; [|done]. intros. exists (Some r), s, c. split_and!; [by exists [r]|done|done].
  - case_match; [|done]. intros (i & _ & Hk)%try_down_some. eexists _, _, _. split_and!; [|done|exact Hk].
    exists (take i s). by rewrite take_drop.
  - intros (p1 & s1 & c1 & [u1 ->] & Hc1 & H1)%IHa; [|done|done]. apply Forall_app in Hs as [_ Hs].
    apply IHb in H1 as (p2 & s2 & c2 & [u2 ->] & Hc2 & H2); [|done|done]. exists p2, s2, c2.
    split_and!; [exists (u1 ++ u2); by rewrite app_assoc|done|done].
  - destruct (re_match a _ _ _ _) eqn:E; intros; simplify_eq; [by eapply IHa|by eapply IHb].
  - destruct (re_match a _ _ _ _) eqn:E; intros Hx; simplify_eq; [by eapply IHa|].
    exists prev, s, c. split_and!; [by exists []|done|done].
  - case_match; [|done]. intros. exists prev, s, c. split_and!; [by exists []|done|done].
  - intros (p1 & s1 & c1 & [u1 ->] & Hc1 & H1)%IHa; [|done|done]. eexists _, _, _. split_and!; [by exists u1| |exact H1].
    constructor; [|done]. cbn. by apply Forall_take.
Qed.
Lemma match_here_some e prev s n c : Forall P s -> match_here e prev s = Some (n, c) -> caps_ok c.
Proof.
  intros Hs Hm. unfold match_here in Hm. apply re_match_some in Hm as (p' & s' & c' & _ & Hc & [= <- <-]); [done|done|].
  by apply Forall_nil.
Qed.
Lemma replace_kept e repl fuel prev s :
  (forall c, caps_ok c -> Forall P (repl c)) -> Forall P s -> Forall P (replace_from fuel e repl prev s).
Proof.
  intros Hr. revert prev s. induction fuel as [|n IH]; intros prev s Hs; [by destruct s|].
  destruct s as [|r s]; [done|]. cbn [replace_from]. apply Forall_cons in Hs as Hs'. destruct Hs' as [Hp Ht].
  destruct (match_here e prev (r :: s)) as [[[|k] c]|] eqn:E; try (constructor; auto).
  apply Forall_app. split; [apply Hr; by eapply (match_here_some e prev (r :: s))|]. apply IH. by apply Forall_drop.
Qed.
Lemma ReplaceAll_kept e repl s :
  (forall c, caps_ok c -> Forall P (repl c)) -> Forall P s -> Forall P (ReplaceAll e repl s).
Proof. apply replace_kept. Qed.
End kept.

(** ** Removing long runs *)
Section runs.
Context (p : Z -> bool).
(** The longest run of the class, given the run just before. *)
Fixpoint longest (run : nat) (s : list Z) : nat :=
  match s with
  | [] => run
  | r :: s' => if p r then longest (S run) s' else Nat.max run (longest 0 s')
  end.
Lemma longest_mono a b s : (a <= b)%nat -> (longest a s <= longest b s)%nat.
Proof. revert a b. induction s as [|r s IH]; intros a b Hab; cbn; [done|]. case_match; [apply IH; lia|lia]. Qed.
Lemma longest_ge a s : (a <= longest a s)%nat.
Proof. revert a. induction s as [|r s IH]; intros a; cbn; [done|]. case_match; [pose proof (IH (S a)); lia|lia]. Qed.
Lemma longest_take n a s : (longest a (take n s) <= longest a s)%nat.
Proof.
  revert n a. induction s as [|r s IH]; intros [|n] a; cbn; try done.
  - case_match; [pose proof (longest_ge (S a) s); lia|lia].
  - case_match; [apply IH|]. specialize (IH n 0%nat). lia.
Qed.
Lemma longest_app_break a s r t : p r = false -> longest a (s ++ r :: t) = Nat.max (longest a s) (longest 0 t).
Proof.
  intros Hr. revert a. induction s as [|x s IH]; intros a; cbn; [by rewrite Hr|]. case_match; [apply IH|]. rewrite IH. lia.
Qed.
Lemma longest_run a s : longest a s = Nat.max (a + run_length p s) (longest 0 (drop (run_length p s) s)).
Proof.
  revert a. induction s as [|r s IH]; intros a; cbn; [lia|]. destruct (p r) eqn:Hr; [rewrite IH; cbn; lia|].
  cbn. rewrite Hr. lia.
Qed.
Context (lo : nat) (mark : list Z).
Hypothesis lo_pos : (0 < lo)%nat.
(** The mark starts and ends outside the class and has no long run itself. *)
Hypothesis mark_shape : exists a m b, mark = a :: m ++ [b] /\ p a = false /\ p b = false /\ (longest 0 m < lo)%nat.
Lemma match_run prev s : match_here (RMany lo p) prev s
  = if (lo <=? run_length p s)%nat then Some (run_length p s, []) else None.
Proof.
  unfold match_here. cbn [re_match]. case_match; [|done]. set (n := run_length p s).
  assert (Hn : (n <= length s)%nat) by (unfold n; clear; induction s as [|r s IH]; cbn; [done|]; case_match; cbn; lia).
  clearbody n. destruct n as [|k]; cbn [try_down]; rewrite length_drop; do 2 f_equal; lia.
Qed.
Lemma replace_runs fuel prev s :
  (length s <= fuel)%nat ->
  let out := replace_from fuel (RMany lo p) (fun _ => mark) prev s in
  (longest 0 out < lo)%nat /\ run_length p out = (if (lo <=? run_length p s)%nat then 0%nat else run_length p s).
Proof.
  revert prev s. induction fuel as [|n IH]; intros prev s Hl; cbv zeta.
  { destruct s; [|cbn in Hl; lia]. cbn. destruct lo; [lia|]. split; [lia|done]. }
  destruct s as [|r s]; [cbn; destruct lo; [lia|]; split; [lia|done]|].
  cbn [replace_from]. rewrite match_run. destruct (lo <=? run_length p (r :: s))%nat eqn:E.
  - apply Nat.leb_le in E. destruct (run_length p (r :: s)) as [|k] eqn:Ek; [lia|].
    destruct (IH (last_of prev (take (S k) (r :: s))) (drop (S k) (r :: s))) as [H1 H2]; [rewrite length_drop; cbn in *; lia|].
    destruct mark_shape as (a & m & b & -> & Ha & Hb & Hm). split; [|cbn; by rewrite Ha].
    cbn [app]. cbn [longest]. rewrite Ha. rewrite <- app_assoc. cbn [app]. rewrite longest_app_break by done. lia.
  - apply Nat.leb_gt in E. cbn [length] in Hl. destruct (IH (Some r) s) as [H1 H2]; [lia|]. cbn [run_length] in *.
    destruct (p r) eqn:Hr.
    + replace (lo <=? run_length p s)%nat with false in H2 by (symmetry; apply Nat.leb_gt; lia).
      cbn [longest run_length]. rewrite Hr. split; [|by rewrite H2].
      rewrite longest_run. rewrite longest_run in H1. rewrite H2 in *. cbn in H1. lia.
    + cbn [longest run_length]. rewrite Hr. split; [lia|done].
Qed.
Lemma ReplaceAll_runs s : (longest 0 (ReplaceAll (RMany lo p) (fun _ => mark) s) < lo)%nat.
Proof. by apply replace_runs. Qed.
End runs.
