(* ===== verification/Problem.v ===== *)
(** The causes in the errors of the ACME client: internal/acme/problem.go.

    Text is handled as code points.  An error of the client is a value of
    [cause]: the three error types of golang.org/x/crypto/acme, what wraps them,
    and the errors of the transport, of which only the class is looked at. *)

From S2P Require Import Prelude GoJson Stream Regexp.

Definition maxProblemRunes : Z := 300.
Definition maxProblemType : Z := 64.
Definition maxSubproblems : nat := 3.

(** ** Sanitising *)

(** [unicode.IsControl] and [unicode.IsSpace]. *)
Definition IsControl (r : Z) : bool := (r <? 32) || ((127 <=? r) && (r <? 160)).
Definition unicode_space (r : Z) : bool :=
  ((9 <=? r) && (r <=? 13)) || (r =? 32) || (r =? 133) || (r =? 160) || (r =? 5760) || ((8192 <=? r) && (r <=? 8202))
  || (r =? 8232) || (r =? 8233) || (r =? 8239) || (r =? 8287) || (r =? 12288).
(** [strings.Fields] and [strings.Join(_, " ")]; [word] is the field being read. *)
Fixpoint rune_fields (word : list Z) (s : list Z) : list (list Z) :=
  let flush := match word with [] => [] | _ => [word] end in
  match s with
  | [] => flush
  | r :: s' => if unicode_space r then flush ++ rune_fields [] s' else rune_fields (word ++ [r]) s'
  end.
Fixpoint join_fields (l : list (list Z)) : list Z :=
  match l with
  | [] => []
  | [w] => w
  | w :: l' => w ++ 32 :: join_fields l'
  end.

(** The three expressions. *)
Definition key_names : regex :=
  re_alts (re_lit_ci "secret")
    [re_lit_ci "token"; re_lit_ci "password"; re_lit_ci "passwd";
     RSeq (re_lit_ci "api") (RSeq (ROpt (RSet (fun r => (r =? 95) || (r =? 45)))) (re_lit_ci "key"));
     re_lit_ci "key"; re_lit_ci "authorization"; RSeq (re_lit_ci "credential") (ROpt (re_lit_ci "s"));
     re_lit_ci "hmac"; re_lit_ci "signature"].
Definition credentialPair : regex :=
  RSeq RWordB (RSeq (RGroup 1 key_names)
    (RSeq (RGroup 2 (RSeq (RMany 0 re_space) (RSeq (RSet (fun r => (r =? 58) || (r =? 61))) (RMany 0 re_space))))
      (RSeq (ROpt (RGroup 3 (RSeq (re_lit_ci "bearer") (RMany 1 re_space)))) (RMany 1 re_nonspace)))).
Definition bearerToken : regex :=
  RSeq RWordB (RSeq (re_lit_ci "bearer") (RSeq (RMany 1 re_space) (RMany 1 re_nonspace))).
Definition opaque_rune (r : Z) : bool :=
  ((65 <=? r) && (r <=? 90)) || ((97 <=? r) && (r <=? 122)) || ((48 <=? r) && (r <=? 57))
  || (r =? 43) || (r =? 47) || (r =? 95) || (r =? 61) || (r =? 45).
Definition opaqueRun : regex := RMany 40 opaque_rune.
Definition redacted_mark : list Z := runes "[redacted]".

(** [truncate], [max] being positive: the last rune kept is an ellipsis. *)
Definition truncate_runes (l : list Z) (max : Z) : list Z :=
  if max <? Z.of_nat (length l) then take (Z.to_nat (max - 1)) l ++ [8230] else l.
Definition truncate (s : string) (max : Z) : string :=
  if max <? Z.of_nat (length (runes s)) then of_runes (truncate_runes (runes s) max) else s.
(** One line: control characters become blanks, white space is collapsed. *)
Definition one_lined (s : string) : list Z :=
  join_fields (rune_fields [] ((fun r => if IsControl r then 32 else r) <$> runes s)).
Definition redact (l : list Z) : list Z :=
  let l := ReplaceAll credentialPair (fun c => capture 1 c ++ capture 2 c ++ redacted_mark) l in
  let l := ReplaceAll bearerToken (fun _ => runes "Bearer [redacted]") l in
  ReplaceAll opaqueRun (fun _ => redacted_mark) l.
Definition sanitise (s : string) (max : Z) : string := of_runes (truncate_runes (redact (one_lined s)) max).

(** ** Describing *)

(** [acme.Subproblem] (its identifier's value, if any), [acme.Error] and the errors. *)
Record Subproblem := mkSubproblem { sp_Detail : string; sp_Identifier : option string }.
Record Problem := mkProblem { pb_ProblemType : string; pb_Detail : string; pb_Subproblems : list Subproblem }.
Inductive cause :=
| COrder (status : string) (problem : option Problem)     (* *acme.OrderError *)
| CAuthz (identifier : string) (errs : list cause)        (* *acme.AuthorizationError *)
| CProblem (p : Problem)                                  (* *acme.Error *)
| CWrap (net : bool) (e : cause)                          (* wraps e; may be a net.Error *)
| CDeadline | CCanceled                                   (* of package context *)
| CExists                                                 (* acme.ErrAccountAlreadyExists *)
| CPlain (net : bool).                                    (* any other error *)

(** The details of the subproblems, the first three that say something. *)
Fixpoint sub_details (n : nat) (l : list Subproblem) : list string :=
  match n, l with
  | S n', sp :: l' =>
    let d := sanitise (sp_Detail sp) maxProblemRunes in
    if d =s "" then sub_details n l'
    else (match sp_Identifier sp with
          | Some v => if v <>s "" then sanitise v 253 +:+ ": " +:+ d else d
          | None => d
          end) :: sub_details n' l'
  | _, _ => []
  end.
Definition describeProblem (e : Problem) : string :=
  let detail := sanitise (pb_Detail e) maxProblemRunes in
  let detail := if detail =s "" then "server rejected request" else detail in
  let subs := sub_details maxSubproblems (pb_Subproblems e) in
  let detail := match subs with
                | [] => detail
                | _ => truncate (detail +:+ "; " +:+ String.concat "; " subs) maxProblemRunes
                end in
  let t := sanitise (pb_ProblemType e) maxProblemType in
  if t <>s "" then detail +:+ " (" +:+ t +:+ ")" else detail.
(** [describe]; [net] is set when an error around this one is a net.Error. *)
Fixpoint describe_in (net : bool) (e : cause) : string :=
  match e with
  | COrder status (Some p) => describeProblem p
  | COrder status None => "order " +:+ sanitise status 32
  | CAuthz identifier errs =>
    let msg := "authorization for " +:+ sanitise identifier 253 +:+ " failed" in
    let parts := (fix go (n : nat) (l : list cause) : list string :=
                    match n, l with
                    | S n', e' :: l' => describe_in false e' :: go n' l'
                    | _, _ => []
                    end) maxSubproblems errs in
    match parts with
    | [] => msg
    | _ => msg +:+ ": " +:+ String.concat "; " parts
    end
  | CProblem p => describeProblem p
  | CWrap n e' => describe_in (net || n) e'
  | CDeadline => "network error contacting directory"
  | CCanceled | CExists => if net then "network error contacting directory" else "request failed"
  | CPlain n => if net || n then "network error contacting directory" else "request failed"
  end.
Definition acme_describe (e : cause) : string := describe_in false e.
(** [withCause]: [causeError] unwraps to its sentinel. *)
Definition withCause (sentinel : err) (e : cause) : err := Wrapf (acme_describe e) sentinel.

(** ** What sanitised text is like *)
(** The runes of a clean line. *)
Definition clean_rune (r : Z) : Prop := scalar r = true /\ IsControl r = false.
Lemma clean_text s : string_forallb (fun c => (32 <=? byte_of c) && (byte_of c <? 127)) s = true -> Forall clean_rune (runes s).
Proof.
  intros Hs. unfold runes. induction s as [|c s IH]; [constructor|]. cbn in Hs. apply andb_true_iff in Hs as [Hc Hs].
  assert (Hd : decode_rune (String c s) = (byte_of c, 1%nat)).
  { unfold decode_rune, utf8_size. bools. by replace (byte_of c <? 128) with true by (symmetry; apply Z.ltb_lt; lia). }
  cbn [runes_from]. rewrite Hd. cbn [fst snd pred]. constructor; [|by apply IH]. bools. split; [apply scalar_intro; lia|].
  unfold IsControl. apply orb_false_iff. rewrite Z.ltb_ge, andb_false_iff, Z.leb_gt. lia.
Qed.
Lemma flush_clean word : Forall clean_rune word -> Forall (Forall clean_rune) (match word with [] => [] | _ => [word] end).
Proof. intros Hw. destruct word; [by apply Forall_nil|]. by apply Forall_singleton. Qed.
Lemma rune_fields_clean word s : Forall clean_rune word -> Forall clean_rune s -> Forall (Forall clean_rune) (rune_fields word s).
Proof.
  revert word. induction s as [|r s IH]; intros word Hw Hs; cbn [rune_fields].
  - by apply flush_clean.
  - apply Forall_cons in Hs as [Hr Hs]. case_match.
    + apply Forall_app. split; [by apply flush_clean|by apply IH].
    + apply IH; [|done]. apply Forall_app. split; [done|]. by apply Forall_singleton.
Qed.
Lemma join_clean l : Forall (Forall clean_rune) l -> Forall clean_rune (join_fields l).
Proof.
  intros Hl. induction Hl as [|w l Hw Hl IH]; [constructor|]. destruct l; [done|]. cbn. apply Forall_app. split; [done|].
  constructor; [done|exact IH].
Qed.
Lemma one_lined_clean s : Forall clean_rune (one_lined s).
Proof.
  apply join_clean, rune_fields_clean; [constructor|]. apply Forall_fmap, (Forall_impl _ _ _ (runes_scalar s)).
  intros r Hr. cbn. destruct (IsControl r) eqn:E; by split.
Qed.
Lemma redact_clean l : Forall clean_rune l -> Forall clean_rune (redact l).
Proof.
  intros Hl. unfold redact. apply ReplaceAll_kept; [intros; by apply clean_text|].
  apply ReplaceAll_kept; [intros; by apply clean_text|]. apply ReplaceAll_kept; [|done].
  intros c Hc. rewrite !Forall_app. split_and!; [by apply capture_ok|by apply capture_ok|by apply clean_text].
Qed.
Lemma truncate_clean l max : Forall clean_rune l -> Forall clean_rune (truncate_runes l max).
Proof. intros Hl. unfold truncate_runes. case_match; [|done]. apply Forall_app. split; [by apply Forall_take|]. by apply Forall_singleton. Qed.
Lemma sanitise_runes s max : runes (sanitise s max) = truncate_runes (redact (one_lined s)) max.
Proof.
  unfold sanitise. apply runes_of_runes.
  eapply Forall_impl; [apply truncate_clean, redact_clean, one_lined_clean|]. by intros r [? ?].
Qed.
Lemma truncate_runes_length l max : 0 < max -> Z.of_nat (length (truncate_runes l max)) <= max.
Proof. intros Hm. unfold truncate_runes. case_match; bools; [|lia]. rewrite length_app, length_take. cbn. lia. Qed.
Lemma redact_runs l : (longest opaque_rune 0 (redact l) < 40)%nat.
Proof.
  unfold redact. apply ReplaceAll_runs; [lia|]. exists 91, (runes "redacted"), 93. split_and!; try reflexivity. vm_compute. lia.
Qed.
Lemma truncate_runs l max : (longest opaque_rune 0 (truncate_runes l max) <= longest opaque_rune 0 l)%nat.
Proof.
  unfold truncate_runes. case_match; [|done]. rewrite longest_app_break by done. cbn [longest].
  pose proof (longest_take opaque_rune (Z.to_nat (max - 1)) 0 l). lia.
Qed.

(** Text the certificate authority sends is made safe to show: whatever bytes it
    holds, the result is valid text of at most [max] code points on one line, free
    of control characters, and no run of forty or more characters of the base64,
    base64url or hexadecimal alphabets is left in it. *)
Theorem sanitise_safe s max :
  0 < max ->
  Z.of_nat (length (runes (sanitise s max))) <= max
  /\ Forall (fun r => IsControl r = false) (runes (sanitise s max))
  /\ (longest opaque_rune 0 (runes (sanitise s max)) < 40)%nat.
Proof.
  intros Hm. rewrite sanitise_runes. split_and!.
  - by apply truncate_runes_length.
  - eapply Forall_impl; [apply truncate_clean, redact_clean, one_lined_clean|]. by intros r [? ?].
  - eapply Nat.le_lt_trans; [apply truncate_runs|apply redact_runs].
Qed.

(** Clean text, and its length in code points. *)
Definition clean_line (n : Z) (s : string) : Prop := exists l, Forall clean_rune l /\ s = of_runes l /\ Z.of_nat (length l) <= n.
Lemma plain_runes n s : clean_line n s -> Forall clean_rune (runes s) /\ Z.of_nat (length (runes s)) <= n.
Proof.
  intros (l & Hl & -> & Hn). rewrite runes_of_runes; [done|]. eapply Forall_impl; [done|]. by intros r [? ?].
Qed.
Lemma of_runes_app a b : of_runes (a ++ b) = of_runes a +:+ of_runes b.
Proof. induction a as [|r a IH]; [done|]. cbn [app]. change (encode_rune r +:+ of_runes (a ++ b) = (encode_rune r +:+ of_runes a) +:+ of_runes b).
  by rewrite IH, str_app_assoc. Qed.
Lemma plain_app n m a b : clean_line n a -> clean_line m b -> clean_line (n + m) (a +:+ b).
Proof.
  intros (l & Hl & -> & Hn) (k & Hk & -> & Hm). exists (l ++ k). rewrite Forall_app, of_runes_app, length_app. split_and!; auto. lia.
Qed.
Lemma plain_weaken n m a : clean_line n a -> n <= m -> clean_line m a.
Proof. intros (l & Hl & -> & Hn) Hm. exists l. split_and!; auto. lia. Qed.
Lemma plain_const s :
  string_forallb (fun c => (32 <=? byte_of c) && (byte_of c <? 127)) s = true -> of_runes (runes s) = s ->
  clean_line (Z.of_nat (length (runes s))) s.
Proof. intros Hs Hr. exists (runes s). split_and!; [by apply clean_text|done|lia]. Qed.
Lemma plain_sanitise s max : 0 < max -> clean_line max (sanitise s max).
Proof.
  intros Hm. eexists. split_and!; [|reflexivity|by apply truncate_runes_length]. apply truncate_clean, redact_clean, one_lined_clean.
Qed.
Lemma plain_truncate n s max : 0 < max -> clean_line n s -> clean_line max (truncate s max).
Proof.
  intros Hm Hs. pose proof (plain_runes n s Hs) as [Hc _]. destruct Hs as (l & Hl & -> & Hn). unfold truncate.
  assert (Hrl : runes (of_runes l) = l) by (apply runes_of_runes; eapply Forall_impl; [done|]; by intros r [? ?]).
  rewrite Hrl in *. case_match eqn:E; bools.
  - eexists. split_and!; [by apply truncate_clean|reflexivity|by apply truncate_runes_length].
  - exists l. by split_and!.
Qed.
Lemma plain_concat n sep m l : 0 <= n -> 0 <= m -> clean_line m sep -> Forall (clean_line n) l -> clean_line (Z.of_nat (length l) * (n + m)) (String.concat sep l).
Proof.
  intros Hn Hm Hs Hl. induction Hl as [|x l Hx Hl IH]; [exists []; split_and!; [constructor|done|cbn; lia]|].
  destruct l as [|y l]; [eapply plain_weaken; [exact Hx|cbn; lia]|].
  change (clean_line (Z.of_nat (length (x :: y :: l)) * (n + m)) (x +:+ sep +:+ String.concat sep (y :: l))).
  eapply plain_weaken; [eapply plain_app; [done|eapply plain_app; [done|exact IH]]|]. cbn [length]. lia.
Qed.
Ltac const := eapply plain_weaken; [apply plain_const; vm_compute; reflexivity|vm_compute; congruence].
Lemma sub_details_plain n l : Forall (clean_line (253 + (2 + 300))) (sub_details n l) /\ (length (sub_details n l) <= n)%nat.
Proof.
  revert n. induction l as [|sp l IH]; intros [|n]; cbn [sub_details]; try (split; [constructor|cbn; lia]).
  pose proof (plain_sanitise (sp_Detail sp) maxProblemRunes ltac:(done)) as Hd. case_match; [apply (IH (S n))|].
  destruct (IH n) as [H1 H2]. split; [|cbn; lia]. constructor; [|done].
  assert (Hw : clean_line (253 + (2 + 300)) (sanitise (sp_Detail sp) maxProblemRunes)) by (eapply plain_weaken; [exact Hd|vm_compute; congruence]).
  destruct (sp_Identifier sp) as [v|]; [|done]. case_match; [|done]. apply plain_app; [by apply plain_sanitise|].
  apply plain_app; [const|exact Hd].
Qed.
Lemma describeProblem_plain e : clean_line 367 (describeProblem e).
Proof.
  unfold describeProblem. set (d := if _ =s "" then _ else _). assert (Hd : clean_line 300 d).
  { unfold d. case_match; [const|]. by apply plain_sanitise. }
  destruct (sub_details_plain maxSubproblems (pb_Subproblems e)) as [Hs Hl]. set (subs := sub_details _ _) in *.
  set (d2 := match subs with [] => d | _ => _ end). assert (Hd2 : clean_line 300 d2).
  { unfold d2. destruct subs as [|x rest] eqn:Es; [done|]. eapply plain_truncate; [done|]. eapply plain_app; [exact Hd|].
    eapply (plain_app 2); [const|]. apply (plain_concat (253 + (2 + 300)) "; " 2); [lia|lia|const|exact Hs]. }
  case_match; [|by eapply plain_weaken; [exact Hd2|]].
  eapply plain_weaken; [eapply plain_app; [exact Hd2|eapply (plain_app 2); [const|eapply (plain_app 64 1); [by apply plain_sanitise|const]]]|].
  lia.
Qed.

(** ** What a described cause is like *)

(** Induction over the errors of an authorization. *)
Fixpoint cause_nested (P : cause -> Prop) (Ho : forall s p, P (COrder s p)) (Ha : forall i l, Forall P l -> P (CAuthz i l))
  (Hp : forall p, P (CProblem p)) (Hw : forall n e, P e -> P (CWrap n e)) (Hd : P CDeadline) (Hc : P CCanceled)
  (Hx : P CExists) (Hn : forall n, P (CPlain n)) (e : cause) : P e :=
  let rec := cause_nested P Ho Ha Hp Hw Hd Hc Hx Hn in
  match e with
  | COrder s p => Ho s p
  | CAuthz i l => Ha i l ((fix go (l : list cause) : Forall P l :=
                             match l with [] => Forall_nil_2 P | x :: l' => Forall_cons_2 P x l' (rec x) (go l') end) l)
  | CProblem p => Hp p
  | CWrap n e' => Hw n e' (rec e')
  | CDeadline => Hd
  | CCanceled => Hc
  | CExists => Hx
  | CPlain n => Hn n
  end.
(** How deep authorizations are nested in one another: the library nests none. *)
Fixpoint nesting (e : cause) : nat :=
  match e with
  | CAuthz _ l => S ((fix go (l : list cause) : nat := match l with [] => 0%nat | x :: l' => Nat.max (nesting x) (go l') end) l)
  | CWrap _ e' => nesting e'
  | _ => 0%nat
  end.
Fixpoint nesting_list (l : list cause) : nat :=
  match l with [] => 0%nat | x :: l' => Nat.max (nesting x) (nesting_list l') end.
(** The length of a description, in code points. *)
Fixpoint described (depth : nat) : Z := match depth with O => 367 | S d => 280 + 3 * (described d + 2) end.
Lemma described_pos d : 367 <= described d.
Proof. induction d; cbn [described]; lia. Qed.
Lemma described_mono a b : (a <= b)%nat -> described a <= described b.
Proof. induction 1; [lia|]. cbn [described]. pose proof (described_pos m). lia. Qed.
(** The parts of an authorization error. *)
Fixpoint first_parts (n : nat) (l : list cause) : list string :=
  match n, l with
  | S n', e :: l' => describe_in false e :: first_parts n' l'
  | _, _ => []
  end.
Lemma describe_authz net i l : describe_in net (CAuthz i l)
  = let msg := "authorization for " +:+ sanitise i 253 +:+ " failed" in
    match first_parts maxSubproblems l with [] => msg | _ => msg +:+ ": " +:+ String.concat "; " (first_parts maxSubproblems l) end.
Proof.
  reflexivity.
Qed.
Lemma first_parts_plain d n l :
  Forall (fun e => forall net, clean_line (described (nesting e)) (describe_in net e)) l -> (nesting_list l <= d)%nat ->
  Forall (clean_line (described d)) (first_parts n l) /\ (length (first_parts n l) <= n)%nat.
Proof.
  intros Hl. revert n. induction Hl as [|x l Hx Hl IH]; intros [|n] Hd; cbn [first_parts]; try (split; [constructor|cbn; lia]).
  cbn [nesting_list] in Hd. destruct (IH n ltac:(lia)) as [H1 H2]. split; [|cbn; lia]. constructor; [|done].
  eapply plain_weaken; [apply Hx|]. apply described_mono. lia.
Qed.
Ltac short := eapply (plain_weaken 367); [const|apply described_pos].
Lemma describe_plain e : forall net, clean_line (described (nesting e)) (describe_in net e).
Proof.
  induction e as [s [p|]|i l IH|p|n e IH| | | |n] using cause_nested; intros net; cbn [nesting].
  - apply describeProblem_plain.
  - eapply plain_weaken; [eapply (plain_app 6 32); [const|by apply plain_sanitise]|vm_compute; congruence].
  - change (clean_line (described (S (nesting_list l))) (describe_in net (CAuthz i l))). rewrite describe_authz. cbv zeta.
    destruct (first_parts_plain (nesting_list l) maxSubproblems l IH ltac:(done)) as [Hp Hl].
    set (parts := first_parts _ _) in *. cbn [described].
    assert (Hm : clean_line 278 ("authorization for " +:+ sanitise i 253 +:+ " failed")).
    { eapply (plain_app 18 260); [const|]. eapply (plain_app 253 7); [by apply plain_sanitise|const]. }
    pose proof (described_pos (nesting_list l)). destruct parts as [|x rest] eqn:Ep; [eapply plain_weaken; [exact Hm|lia]|].
    rewrite <- Ep in *.
    eapply plain_weaken; [eapply plain_app; [exact Hm|eapply (plain_app 2); [const|apply (plain_concat (described (nesting_list l)) "; " 2); [lia|lia|const|exact Hp]]]|].
    unfold maxSubproblems in Hl. nia.
  - apply describeProblem_plain.
  - apply IH.
  - short.
  - cbn [describe_in]. case_match; short.
  - cbn [describe_in]. case_match; short.
  - cbn [describe_in]. case_match; short.
Qed.
(** The cause an ACME error carries is always one clean line, whatever the
    server sent and however its errors are wrapped, and its length is bounded: at
    most 1387 code points, three problems of 367 each, when authorization errors
    are not nested in one another. *)
Theorem describe_safe e :
  Forall (fun r => IsControl r = false) (runes (acme_describe e))
  /\ ((nesting e <= 1)%nat -> Z.of_nat (length (runes (acme_describe e))) <= 1387).
Proof.
  destruct (plain_runes _ _ (describe_plain e false)) as [Hc Hl]. split.
  - eapply Forall_impl; [exact Hc|]. by intros r [? ?].
  - intros Hn. pose proof (described_mono _ _ Hn) as Hm. change (described 1) with 1387 in Hm. unfold acme_describe. lia.
Qed.

Module ProblemSample.
Lemma sanitise_safe_witness : 0 < 40 /\ (longest opaque_rune 0 (runes (sanitise "token=abc" 40)) < 40)%nat.
Proof. split; [lia|]. destruct (sanitise_safe "token=abc" 40 ltac:(lia)) as (_ & _ & Hr). exact Hr. Defined.
Definition refused_name : cause := CAuthz "example.org" [CProblem (mkProblem "dns" "NXDOMAIN" [])].
Lemma describe_safe_witness : Z.of_nat (length (runes (acme_describe refused_name))) <= 1387
  /\ acme_describe refused_name = "authorization for example.org failed: NXDOMAIN (dns)".
Proof. split; [apply (proj2 (describe_safe refused_name)); cbn; lia|vm_compute; reflexivity]. Defined.
Example redacts : sanitise "bad
  Secret: hunter2 and Bearer xyz" 300 = "bad Secret: [redacted] and Bearer [redacted]".
Proof. vm_compute. reflexivity. Qed.
(** Only the word behind the key is taken for the value: the credentials of another
    authorization scheme are kept. *)
Example basic_leaks : sanitise "Authorization: Basic dXNlcjpodW50ZXIy" 300 = "Authorization: [redacted] dXNlcjpodW50ZXIy".
Proof. vm_compute. reflexivity. Qed.
Example nested_key_leaks : sanitise "secret: token: hunter2" 300 = "secret: [redacted] hunter2".
Proof. vm_compute. reflexivity. Qed.
End ProblemSample.
