(* ===== verification/DnsProviders.v ===== *)
(** The DNS providers that answer DNS-01 challenges: the Cloudflare client
    (internal/acme/cloudflare.go), the recorder behind the manual provider
    (internal/acme/dns.go) and the client of the platform's DNS module
    (internal/acme/freyadns.go).

    The other end of a request is the class [DnsNet]; its answers may differ from
    one request to the next.  The state is what the providers hold in memory,
    with the requests sent so far. *)

From S2P Require Import Prelude GoJson GoUrl Stream Domains Providers.

(** ** net/url and strings *)
Definition hex_upper (d : Z) : Ascii.ascii := chr (if d <? 10 then 48 + d else 55 + d).
Definition percent (c : Ascii.ascii) : string :=
  String (chr 37) (String (hex_upper (byte_of c / 16)) (str1 (hex_upper (byte_of c mod 16)))).
Definition alnum_byte (c : Ascii.ascii) : bool := between 97 122 c || between 65 90 c || between 48 57 c.
(** The bytes [url.PathEscape] and [url.QueryEscape] keep. *)
Definition path_kept (c : Ascii.ascii) : bool :=
  alnum_byte c || existsb (fun b => byte_of c =? b) [45; 95; 46; 126; 36; 38; 43; 61; 58; 64].
Definition query_kept (c : Ascii.ascii) : bool := alnum_byte c || existsb (fun b => byte_of c =? b) [45; 95; 46; 126].
Fixpoint PathEscape (s : string) : string :=
  match s with
  | EmptyString => EmptyString
  | String c s' => (if path_kept c then str1 c else percent c) +:+ PathEscape s'
  end.
Fixpoint QueryEscape (s : string) : string :=
  match s with
  | EmptyString => EmptyString
  | String c s' => (if byte_of c =? 32 then "+" else if query_kept c then str1 c else percent c) +:+ QueryEscape s'
  end.
(** [url.Values.Encode], the keys given in order. *)
Definition Values_Encode (l : list (string * string)) : string :=
  String.concat "&" ((fun kv => QueryEscape kv.1 +:+ "=" +:+ QueryEscape kv.2) <$> l).
(** [strings.ReplaceAll], for a non-empty [old]. *)
Fixpoint replace_all_from (skip : nat) (old new s : string) : string :=
  match s with
  | EmptyString => EmptyString
  | String c s' =>
    match skip with
    | S k => replace_all_from k old new s'
    | O => if HasPrefix old s then new +:+ replace_all_from (pred (String.length old)) old new s'
           else String c (replace_all_from 0 old new s')
    end
  end.
Definition strings_ReplaceAll (s old new : string) : string := replace_all_from 0 old new s.
(** ** The other end *)

(** What [hc.Do] and the bounded read of the body give. *)
Inductive reply := Unreachable | Unreadable | Reply (status : Z) (raw : string).
Class DnsNet := {
  http_do : nat -> string -> string -> option string -> reply;   (* method, URL, body *)
  url_ok : string -> bool;                                        (* http.NewRequestWithContext *)
  freya_present : nat -> string -> string -> string -> string -> bool;   (* the DNS module answers without error *)
  freya_cleanup : nat -> string -> string -> string -> string -> bool;
}.

Record cfRecord := mkCfRecord { cf_zone : string; cf_id : string }.
Record Interaction := mkInteraction { ia_Op : string; ia_Domain : string; ia_FQDN : string; ia_Value : string }.
(** One request of the Cloudflare client. *)
Record request := mkRequest { rq_method : string; rq_url : string; rq_auth : string; rq_body : option string }.
Record DnsW := mkDnsW {
  dw_n : nat;                              (* requests sent *)
  dw_records : gmap string cfRecord;       (* Cloudflare.records *)
  dw_calls : list Interaction;             (* NoopProvider.calls *)
  dw_sent : list request;
  dw_waits : list (string * string * list string);    (* propagation waits *)
}.
#[export] Instance dnsw_eta : RecordEta DnsW := fun w =>
  mkDnsW (dw_n w) (dw_records w) (dw_calls w) (dw_sent w) (dw_waits w).
Definition dns_start : DnsW := mkDnsW 0 ∅ [] [] [].

(** ** Cloudflare *)
Definition CloudflareAPI : string := "https://api.cloudflare.com/client/v4".
Definition maxCloudflareBody : Z := 1048576.
Record Cloudflare := mkCloudflare { cf_token : string; cf_zoneID : string; cf_base : string }.
Record cfZone := mkCfZone { cz_ID : string; cz_Name : string; cz_NameServers : list string }.
Definition zero_zone : cfZone := mkCfZone "" "" [].

(** Decoding a JSON value into a struct: a key matches a field without regard to
    case, null leaves the field alone, another type is an error. *)
Section decode.
Context `{GoRuntime}.
Definition json_field (name : string) (m : list (string * any)) : option any :=
  match last (List.filter (fun kv => EqualFold kv.1 name) m) with Some kv => Some kv.2 | None => None end.
Definition dec_struct {A} (f : list (string * any) -> option A) (zero : A) (v : any) : option A :=
  match v with ANil => Some zero | AMap m => f m | _ => None end.
Definition dec_opt {A} (f : any -> option A) (zero : A) (v : option any) : option A :=
  match v with None => Some zero | Some ANil => Some zero | Some v => f v end.
Definition dec_str (v : any) : option string := match v with AStr s => Some s | _ => None end.
Definition dec_bool (v : any) : option bool := match v with ABool b => Some b | _ => None end.
Definition dec_int (v : any) : option Z :=
  match v with ANum t => let '(z, ok) := ParseInt t in if ok then Some z else None | AInt z => Some z | _ => None end.
Definition dec_list {A} (f : any -> option A) (v : any) : option (list A) :=
  match v with ANil => Some [] | AList l => mapM f l | _ => None end.
Definition dec_zone : any -> option cfZone := dec_struct (fun m =>
  match dec_opt dec_str "" (json_field "id" m), dec_opt dec_str "" (json_field "name" m),
        dec_opt (dec_list (fun v => dec_opt dec_str "" (Some v))) [] (json_field "name_servers" m) with
  | Some i, Some n, Some ns => Some (mkCfZone i n ns)
  | _, _, _ => None
  end) zero_zone.
Definition dec_id : any -> option string := dec_struct (fun m => dec_opt dec_str "" (json_field "id" m)) "".
(** The envelope: success, the errors (message and code) and the result. *)
Definition dec_error : any -> option (string * Z) := dec_struct (fun m =>
  match dec_opt dec_str "" (json_field "message" m), dec_opt dec_int 0 (json_field "code" m) with
  | Some s, Some z => Some (s, z)
  | _, _ => None
  end) ("", 0).
Definition dec_envelope : any -> option (bool * list (string * Z) * option any) := dec_struct (fun m =>
  match dec_opt dec_bool false (json_field "success" m), dec_opt (dec_list dec_error) [] (json_field "errors" m) with
  | Some b, Some es => Some (b, es, json_field "result" m)
  | _, _ => None
  end) (false, [], None).
End decode.

Section cloudflare.
Context `{GoRuntime} `{DnsNet}.
Definition cf_error (msg : string) : err := Wrapf ("cloudflare: " +:+ msg) acme_ErrProvider.
(** The path without its query. *)
Definition path_only (path : string) : string := (cut 63 path).1.
Definition cf_messages (token : string) (es : list (string * Z)) : string :=
  let msgs := (fun e => e.1 +:+ " (" +:+ FormatInt e.2 +:+ ")") <$> es in
  let msgs := match msgs with [] => ["request refused"] | _ => msgs end in
  strings_ReplaceAll (String.concat "; " msgs) token "[redacted]".
(** One API request; [out] decodes the envelope's result. *)
Definition cf_call {A} (c : Cloudflare) (method path : string) (inp : option any) (zero : A) (out : any -> option A)
  : ST DnsW A := fun w =>
  match (match inp with None => Some None | Some v => match json_marshal v with Some b => Some (Some b) | None => None end end) with
  | None => (Err (cf_error "encode request"), w)
  | Some body =>
    if negb (url_ok (cf_base c +:+ path)) then (Err (cf_error "build request"), w)
    else
      let answer := http_do (dw_n w) method (cf_base c +:+ path) body in
      let w := w <| dw_n := S (dw_n w) |>
                 <| dw_sent := dw_sent w ++ [mkRequest method (cf_base c +:+ path) ("Bearer " +:+ cf_token c) body] |> in
      match answer with
      | Unreachable => (Err (cf_error (method +:+ " " +:+ path_only path +:+ " unreachable")), w)
      | Unreadable => (Err (cf_error "unreadable response"), w)
      | Reply status raw =>
        if maxCloudflareBody <? str_len raw then (Err (cf_error "unreadable response"), w)
        else match json_unmarshal raw ≫= dec_envelope with
             | None => (Err (cf_error ("HTTP " +:+ FormatInt status +:+ ", unexpected response")), w)
             | Some (success, errors, result) =>
               if negb success || (300 <=? status)
               then (Err (cf_error ("HTTP " +:+ FormatInt status +:+ ": " +:+ cf_messages (cf_token c) errors)), w)
               else match result with
                    | None => (Ok zero, w)
                    | Some v => match out v with
                                | Some a => (Ok a, w)
                                | None => (Err (cf_error "unexpected result"), w)
                                end
                    end
             end
      end
  end.
(** The name and its parents, longest first, the top-level domain apart. *)
Fixpoint parents (labels : list string) : list string :=
  match labels with
  | [] | [_] => []
  | _ :: rest => String.concat "." labels :: parents rest
  end.
Definition zoneCandidates (domain : string) : list string :=
  let d := ToLower domain in
  parents (split_byte 46 (if ends_with 46 d then drop_last d else d)).
Fixpoint find_zone (c : Cloudflare) (domain : string) (names : list string) : ST DnsW cfZone :=
  match names with
  | [] => st_err (cf_error ("no Cloudflare zone for " +:+ domain +:+ " visible to the token (set zone_id, or allow Zone:Read)"))
  | name :: rest =>
    let* zones := cf_call c "GET" ("/zones?" +:+ Values_Encode [("name", name)]) None [] (dec_list dec_zone) in
    match zones with z :: _ => st_ret z | [] => find_zone c domain rest end
  end.
Definition cf_zone_of (c : Cloudflare) (domain : string) : ST DnsW cfZone :=
  if cf_zoneID c <>s "" then
    let* r := st_try (cf_call c "GET" ("/zones/" +:+ PathEscape (cf_zoneID c)) None zero_zone dec_zone) in
    match r with
    | Err _ => st_ret (mkCfZone (cf_zoneID c) "" [])
    | Ok z => st_ret (mkCfZone (cf_zoneID c) (cz_Name z) (cz_NameServers z))
    end
  else find_zone c domain (zoneCandidates domain).
Definition record_key (fqdn value : string) : string := fqdn +:+ str1 (chr 0) +:+ value.
Definition cf_Present (c : Cloudflare) (domain fqdn value : string) : ST DnsW unit :=
  let* zone := cf_zone_of c domain in
  let body := AMap [("content", AStr value); ("name", AStr fqdn); ("ttl", AInt 60); ("type", AStr "TXT")] in
  let* id := cf_call c "POST" ("/zones/" +:+ PathEscape (cz_ID zone) +:+ "/dns_records") (Some body) "" dec_id in
  let* _ := st_mod (fun w => w <| dw_records := <[record_key fqdn value := mkCfRecord (cz_ID zone) id]> (dw_records w) |>) in
  st_mod (fun w => w <| dw_waits := dw_waits w ++ [(fqdn, value, cz_NameServers zone)] |>).
Fixpoint delete_records (c : Cloudflare) (zoneID : string) (ids : list string) : ST DnsW unit :=
  match ids with
  | [] => st_ret tt
  | id :: rest =>
    let* _ := cf_call c "DELETE" ("/zones/" +:+ PathEscape zoneID +:+ "/dns_records/" +:+ PathEscape id) None tt (fun _ => Some tt) in
    delete_records c zoneID rest
  end.
Definition cf_CleanUp (c : Cloudflare) (domain fqdn value : string) : ST DnsW unit := fun w =>
  let key := record_key fqdn value in
  (let* (zoneID, ids) :=
     match dw_records w !! key with
     | Some r => st_ret (cf_zone r, [cf_id r])
     | None =>
       let* zone := cf_zone_of c domain in
       let* found := cf_call c "GET" ("/zones/" +:+ PathEscape (cz_ID zone) +:+ "/dns_records?"
                       +:+ Values_Encode [("content", value); ("name", fqdn); ("type", "TXT")]) None [] (dec_list dec_id) in
       st_ret (cz_ID zone, found)
     end in
   let* _ := delete_records c zoneID ids in
   st_mod (fun w => w <| dw_records := delete key (dw_records w) |>)) w.

(** ** The manual provider and the DNS module *)
Definition noop_record (op domain fqdn value : string) : ST DnsW unit :=
  st_mod (fun w => w <| dw_calls := dw_calls w ++ [mkInteraction op domain fqdn value] |>).
Definition freya_call (answers : nat -> string -> string -> string -> string -> bool) (what tenantID domain fqdn value : string)
  : ST DnsW unit := fun w =>
  let w' := w <| dw_n := S (dw_n w) |> in
  if answers (dw_n w) tenantID domain fqdn value then (Ok tt, w')
  else (Err (Wrapf ("freya dns " +:+ what) acme_ErrProvider), w').

(** The interface [DNSProvider], dispatched on what [NewProviderWith] built. *)
Definition dns_Present (p : DNSProvider) (domain fqdn value : string) : ST DnsW unit :=
  match p with
  | ManualProvider => noop_record "present" domain fqdn value
  | CloudflareProvider token zoneID => cf_Present (mkCloudflare token zoneID CloudflareAPI) domain fqdn value
  | FreyaProvider tenantID => freya_call freya_present "present" tenantID domain fqdn value
  end.
Definition dns_CleanUp (p : DNSProvider) (domain fqdn value : string) : ST DnsW unit :=
  match p with
  | ManualProvider => noop_record "cleanup" domain fqdn value
  | CloudflareProvider token zoneID => cf_CleanUp (mkCloudflare token zoneID CloudflareAPI) domain fqdn value
  | FreyaProvider tenantID => freya_call freya_cleanup "cleanup" tenantID domain fqdn value
  end.
End cloudflare.

(** ** The token stays out of the errors *)
Definition occurs (t s : string) : Prop := exists a b, s = a +:+ t +:+ b.
Definition starts_with (t s : string) : Prop := exists b, s = t +:+ b.
Definition lacks_byte (c : Ascii.ascii) (t : string) : bool := string_forallb (fun x => negb (Ascii.eqb x c)) t.
Lemma starts_HasPrefix t s : starts_with t s -> HasPrefix t s = true.
Proof.
  intros [b ->]. unfold HasPrefix. by rewrite strip_prefix_app.
Qed.
Lemma starts_before c t a r : lacks_byte c t = true -> starts_with t (a +:+ String c r) -> starts_with t a.
Proof.
  revert a. induction t as [|x t IH]; intros a Ht [b Hb]; [by exists a|]. cbn in Ht. apply andb_true_iff in Ht as [Hx Ht].
  destruct a as [|y a]; cbn in Hb; injection Hb as -> Hb.
  - by rewrite Ascii.eqb_refl in Hx.
  - destruct (IH a Ht) as [b' ->]; [by exists b|]. by exists b'.
Qed.
Lemma occurs_split c t a r : lacks_byte c t = true -> occurs t (a +:+ String c r) -> occurs t a \/ occurs t r.
Proof.
  intros Ht. induction a as [|y a IH]; intros (p & q & Hp).
  - destruct p as [|z p]; cbn in Hp; [|injection Hp as _ ->; right; by exists p, q].
    destruct t as [|x t]; [left; by exists "", ""|]. cbn in Hp, Ht. injection Hp as <- _. by rewrite Ascii.eqb_refl in Ht.
  - destruct p as [|z p]; cbn in Hp.
    + left. destruct (starts_before c t (String y a) r Ht) as [b Hb]; [by exists q|]. exists "", b. exact Hb.
    + injection Hp as -> Hp. destruct IH as [(p' & q' & ->)|Hr]; [by exists p, q| |by right]. left. by exists (String z p'), q'.
Qed.
Definition redaction : string := "[redacted]".
Section hidden.
Context (t : string).
Hypothesis t_open : lacks_byte (chr 91) t = true.
Hypothesis t_close : lacks_byte (chr 93) t = true.
Hypothesis t_mark : ~ occurs t "redacted".
Lemma starts_replaced u s : lacks_byte (chr 91) u = true -> starts_with u (replace_all_from 0 t redaction s) -> starts_with u s.
Proof.
  revert u. induction s as [|c s IH]; intros u Hu [b Hb]; cbn [replace_all_from] in Hb; [by exists b|].
  destruct u as [|x u]; [by exists (String c s)|]. cbn in Hu. apply andb_true_iff in Hu as [Hx Hu].
  destruct (HasPrefix t (String c s)); cbn in Hb; injection Hb as Hcx Hb; subst x.
  - discriminate Hx.
  - destruct (IH u Hu) as [b' ->]; [by exists b|]. by exists b'.
Qed.
Lemma hidden_from k s : ~ occurs t (replace_all_from k t redaction s).
Proof.
  assert (Hne : ~ occurs t "").
  { intros (a & b & Hab). apply t_mark. destruct a; [|done]. destruct t; [|done]. by exists "", "redacted". }
  revert k. induction s as [|c s IH]; intros k; [by cbn|]. destruct k as [|k]; cbn [replace_all_from]; [|apply IH].
  destruct (HasPrefix t (String c s)) eqn:Hp; intros Ho.
  - change (occurs t ("[redacted" +:+ String (chr 93) (replace_all_from (pred (String.length t)) t redaction s))) in Ho.
    apply occurs_split in Ho as [Ho|Ho]; [|by eapply IH|done].
    change (occurs t ("" +:+ String (chr 91) "redacted")) in Ho. by apply occurs_split in Ho as [Ho|Ho].
  - destruct Ho as ([|x a] & b & Hb).
    + assert (Hs : starts_with t (String c s)).
      { apply (starts_replaced t (String c s) t_open). cbn [replace_all_from]. rewrite Hp. by exists b. }
      apply starts_HasPrefix in Hs. congruence.
    + injection Hb as _ Hb. apply (IH 0%nat). by exists a, b.
Qed.
End hidden.
(** The messages of the Cloudflare API are returned without the token: a token
    without brackets that is no part of the word put in its place occurs nowhere in
    them, whatever the server answers. *)
Theorem cf_token_hidden token es :
  lacks_byte (chr 91) token = true -> lacks_byte (chr 93) token = true -> ~ occurs token "redacted" ->
  ~ occurs token (cf_messages token es).
Proof. intros Ho Hc Hm. apply hidden_from; assumption. Qed.

(** ** Waiting for a record to be visible *)

(** What the n-th poll meets: the end of the context before it or while it sleeps,
    the TXT values a name server gives ([None]: an error), the clock after the
    lookup. *)
Class Poll := {
  poll_ended : nat -> bool;
  poll_ask : nat -> string -> string -> option (list string);   (* server, name *)
  poll_now : nat -> Z;
  poll_cut : nat -> bool;
}.
Section waiting.
Context `{Poll}.
Definition propagation_servers (servers : list string) : list string :=
  match servers with [] => ["1.1.1.1"; "8.8.8.8"] | _ => servers end.
(** The answer of the first server that answers. *)
Fixpoint lookup_txt (n : nat) (servers : list string) (name : string) : option (list string) :=
  match servers with
  | [] => None
  | srv :: rest => match poll_ask n srv name with Some txt => Some txt | None => lookup_txt n rest name end
  end.
(** [waitTXT]: [None] when the fuel is used up. *)
Fixpoint wait_from (fuel n : nat) (servers : list string) (fqdn value : string) (every deadline : Z) : option bool :=
  match fuel with
  | O => None
  | S fuel =>
    if poll_ended n then Some false
    else if match lookup_txt n servers fqdn with Some txt => contains txt value | None => false end then Some true
    else if deadline <? poll_now n + every then Some false
    else if poll_cut n then Some false
    else wait_from fuel (S n) servers fqdn value every deadline
  end.
Definition wait_fuel (every max : Z) : nat := S (Z.to_nat (max / every)).
Definition waitTXT (start : Z) (servers : list string) (fqdn value : string) (every max : Z) : option bool :=
  wait_from (wait_fuel every max) 0 servers fqdn value every (start + max).
Definition waitPropagation (start : Z) (fqdn value : string) (servers : list string) : option bool :=
  waitTXT start (propagation_servers servers) fqdn value (3 * Second) (120 * Second).

(** Each round takes at least [every], so the deadline ends the loop. *)
Lemma wait_from_ends fuel n servers fqdn value every start max :
  0 < every -> (forall k, poll_now k + every <= poll_now (S k)) -> start + Z.of_nat n * every <= poll_now n ->
  max / every < Z.of_nat n + Z.of_nat fuel -> (0 < fuel)%nat -> is_Some (wait_from fuel n servers fqdn value every (start + max)).
Proof.
  intros He Ht. revert n. induction fuel as [|fuel IH]; intros n Hn Hf Hp; [lia|]. cbn [wait_from].
  do 2 (case_match; [by eexists|]). destruct (start + max <? _) eqn:Ed; [by eexists|]. destruct (poll_cut n); [by eexists|]. bools.
  assert (Hd : Z.of_nat n + 1 <= max / every) by (apply Z.div_le_lower_bound; [lia|nia]).
  apply IH; [|lia|lia]. specialize (Ht n). lia.
Qed.
(** The wait for a challenge record always ends: with a clock that advances by
    at least the poll interval between polls, it returns after at most
    [max / every + 1] lookups, and it reports the record visible only when a name
    server has just returned the value. *)
Theorem waitTXT_ends start servers fqdn value every max :
  0 < every -> 0 <= max -> start <= poll_now 0 -> (forall k, poll_now k + every <= poll_now (S k)) ->
  exists seen, waitTXT start servers fqdn value every max = Some seen
    /\ (seen = true -> exists n srv txt, (n <= Z.to_nat (max / every))%nat /\ srv ∈ servers
                         /\ poll_ask n srv fqdn = Some txt /\ value ∈ txt).
Proof.
  intros He Hm Hs Ht. unfold waitTXT, wait_fuel. pose proof (Z.div_pos max every Hm He) as Hq.
  destruct (wait_from_ends (S (Z.to_nat (max / every))) 0 servers fqdn value every start max) as [b Hb]; [done|done|lia|lia|lia|].
  exists b. split; [done|]. intros ->.
  assert (Hx : forall fuel n, wait_from fuel n servers fqdn value every (start + max) = Some true ->
    exists k srv txt, (k < n + fuel)%nat /\ srv ∈ servers /\ poll_ask k srv fqdn = Some txt /\ value ∈ txt).
  { induction fuel as [|fuel IH]; intros n Hw; [done|]. cbn [wait_from] in Hw. case_match; [done|].
    destruct (match lookup_txt n servers fqdn with Some txt => contains txt value | None => false end) eqn:El.
    - destruct (lookup_txt n servers fqdn) as [txt|] eqn:E; [|done]. apply contains_spec in El.
      assert (Hl : forall ss, lookup_txt n ss fqdn = Some txt -> exists srv, srv ∈ ss /\ poll_ask n srv fqdn = Some txt).
      { clear. induction ss as [|x ss IH]; cbn; [done|]. destruct (poll_ask n x fqdn) eqn:Ea; [intros; simplify_eq; exists x; set_solver|].
        intros (srv & ? & ?)%IH. exists srv. set_solver. }
      destruct (Hl _ E) as (srv & Hin & Ha). exists n, srv, txt. split_and!; auto. lia.
    - case_match; [done|]. case_match; [done|]. destruct (IH _ Hw) as (k & srv & txt & Hk & ?). exists k, srv, txt. split; [lia|done]. }
  destruct (Hx _ _ Hb) as (n & srv & txt & Hn & ?). exists n, srv, txt. split; [lia|done].
Qed.
End waiting.

(** ** Cleaning up *)
Section cleanup.
Context `{GoRuntime} `{DnsNet}.
(** A record this provider created is removed by the id the API gave it: its
    clean-up sends one request, the deletion of that record in its zone, and on
    success the record is forgotten; nothing else the provider holds changes. *)
Theorem cf_CleanUp_own c domain fqdn value w r res w' :
  dw_records w !! record_key fqdn value = Some r -> cf_CleanUp c domain fqdn value w = (res, w') ->
  url_ok (cf_base c +:+ "/zones/" +:+ PathEscape (cf_zone r) +:+ "/dns_records/" +:+ PathEscape (cf_id r)) = true ->
  dw_sent w' = dw_sent w ++ [mkRequest "DELETE"
    (cf_base c +:+ "/zones/" +:+ PathEscape (cf_zone r) +:+ "/dns_records/" +:+ PathEscape (cf_id r)) ("Bearer " +:+ cf_token c) None]
  /\ dw_records w' = (if is_ok res then delete (record_key fqdn value) (dw_records w) else dw_records w).
Proof.
  unfold cf_CleanUp. intros Hr. rewrite Hr. cbn [st_bind st_ret delete_records]. intros Hc Hu. revert Hc.
  unfold st_bind at 1. cbn [st_ret]. unfold delete_records. unfold st_bind, st_mod, st_ret, cf_call. rewrite Hu. cbn [negb].
  repeat case_match; intros; simplify_eq; done.
Qed.
End cleanup.

(** ** Sample runs *)
Module DnsSample.
#[local] Existing Instance std_runtime.
(** A Cloudflare account with the zone example.org, behind two name servers. *)
Definition q (s : string) : string := str1 (chr 34) +:+ s +:+ str1 (chr 34).
Definition zone_json : string :=
  "{" +:+ q "id" +:+ ":" +:+ q "z1" +:+ "," +:+ q "name" +:+ ":" +:+ q "example.org" +:+ "," +:+ q "name_servers" +:+ ":[" +:+ q "ns1" +:+ "]}".
Definition envelope (result : string) : string := "{" +:+ q "success" +:+ ":true," +:+ q "result" +:+ ":" +:+ result +:+ "}".
Definition sample_net : DnsNet := {|
  http_do n method url body :=
    if method =s "GET" then
      if url =s CloudflareAPI +:+ "/zones?name=example.org" then Reply 200 (envelope ("[" +:+ zone_json +:+ "]"))
      else Reply 200 (envelope "[]")
    else Reply 200 (envelope ("{" +:+ q "id" +:+ ":" +:+ q "r1" +:+ "}"));
  url_ok u := true;
  freya_present n t d f v := true;
  freya_cleanup n t d f v := true;
|}.
#[local] Existing Instance sample_net.
Definition cf : Cloudflare := mkCloudflare "s3cr3t" "" CloudflareAPI.
Definition challenge_name : string := "_acme-challenge.www.example.org".
Definition after_present : res unit * DnsW := cf_Present cf "www.example.org" challenge_name "v" dns_start.
(** The zone is found through the parents of the name: two lookups, then the record. *)
Example present_run :
  after_present.1 = Ok tt
  /\ (rq_url <$> dw_sent after_present.2)
     = [CloudflareAPI +:+ "/zones?name=www.example.org"; CloudflareAPI +:+ "/zones?name=example.org"; CloudflareAPI +:+ "/zones/z1/dns_records"]
  /\ dw_waits after_present.2 = [(challenge_name, "v", ["ns1"])].
Proof. vm_compute. auto. Qed.
Example clean_up_run :
  let w := (cf_CleanUp cf "www.example.org" challenge_name "v" after_present.2).2 in
  dw_records w = ∅ /\ last (rq_url <$> dw_sent w) = Some (CloudflareAPI +:+ "/zones/z1/dns_records/r1").
Proof. vm_compute. auto. Qed.
Example escapes : PathEscape "a b/c" = "a%20b%2Fc" /\ QueryEscape "a b/c" = "a+b%2Fc".
Proof. vm_compute. auto. Qed.

Lemma sample_absent : ~ occurs "s3cr3t" "redacted".
Proof. intros (a & b & Hab). do 8 (destruct a as [|? a]; [discriminate Hab|injection Hab as _ Hab]). by destruct a. Qed.
Lemma cf_token_hidden_witness :
  ~ occurs "s3cr3t" (cf_messages "s3cr3t" [("bad token s3cr3t", 9109)])
  /\ cf_messages "s3cr3t" [("bad token s3cr3t", 9109)] = "bad token [redacted] (9109)".
Proof.
  split; [|vm_compute; reflexivity].
  apply (cf_token_hidden "s3cr3t" [("bad token s3cr3t", 9109)]); [reflexivity|reflexivity|exact sample_absent].
Defined.
Lemma cf_CleanUp_own_witness :
  dw_records (cf_CleanUp cf "www.example.org" challenge_name "v" after_present.2).2
  = delete (record_key challenge_name "v") (dw_records after_present.2).
Proof.
  assert (Hr : dw_records after_present.2 !! record_key challenge_name "v" = Some (mkCfRecord "z1" "r1")) by (vm_compute; reflexivity).
  destruct (@cf_CleanUp_own std_runtime sample_net cf "www.example.org" challenge_name "v" after_present.2 _ _ _ Hr (surjective_pairing _) eq_refl) as [_ Hd].
  rewrite Hd. assert (Hok : is_ok (cf_CleanUp cf "www.example.org" challenge_name "v" after_present.2).1 = true) by (vm_compute; reflexivity).
  by rewrite Hok.
Defined.
(** A name server that shows the record from the third poll on, a poll taking four
    seconds. *)
Definition sample_poll : Poll := {|
  poll_ended n := false;
  poll_ask n srv name := if (2 <=? n)%nat then Some ["v"] else None;
  poll_now n := Z.of_nat n * (4 * Second);
  poll_cut n := false;
|}.
Lemma waitTXT_ends_witness :
  exists seen, @waitTXT sample_poll 0 ["ns1"] challenge_name "v" (3 * Second) (120 * Second) = Some seen /\ seen = true.
Proof.
  destruct (@waitTXT_ends sample_poll 0 ["ns1"] challenge_name "v" (3 * Second) (120 * Second)) as (seen & Hw & _).
  - reflexivity.
  - discriminate.
  - cbn. lia.
  - intros k. cbn [poll_now sample_poll]. unfold Second. lia.
  - exists seen. split; [exact Hw|].
    assert (Hs : @waitTXT sample_poll 0 ["ns1"] challenge_name "v" (3 * Second) (120 * Second) = Some true) by (vm_compute; reflexivity).
    congruence.
Defined.
End DnsSample.
