(* ===== verification/AcmeFlow.v ===== *)
(** The DNS-01 order flow: internal/acme/acme.go.

    golang.org/x/crypto/acme is the class [AcmeApi]: each of its calls answers by
    the number of the exchange, so that the answers may change from one to the
    next, and so may the context.  The DNS side runs on the providers of
    DnsProviders.v. *)

From S2P Require Import Prelude Rows Memstore MemstoreInv MemstoreList Paging Authz GoJson GoUrl AuditLog.
From S2P Require Import Csr Sealed World Ca IssueBase Domains Providers Issuers Acme Stream Regexp Problem DnsProviders.

Definition acme_MaxCSRBytes : Z := 65536.
Definition acme_ErrOrder : err := Sentinel "acme" "ErrOrder".
Definition acme_ErrChallenge : err := Sentinel "acme" "ErrChallenge".
Definition acme_ErrTimeout : err := Sentinel "acme" "ErrTimeout".

Record Challenge := mkChallenge { ch_Type : string; ch_Token : string; ch_URI : string }.
Record Authorization := mkAuthorization {
  az_URI : string; az_Status : string; az_Identifier : string; az_Challenges : list (option Challenge);
}.
Record Order := mkOrder { od_URI : string; od_AuthzURLs : list string; od_FinalizeURL : string; od_CertURL : string }.
(** [acme.Account] as Register fills it in: the contact and the binding. *)
Record Account := mkAccount { acct_Contact : list string; acct_EAB : option (string * string) }.

Class AcmeApi := {
  api_register : nat -> AcmeConfig -> Account -> option cause;
  api_AuthorizeOrder : nat -> list string -> Order + cause;
  api_GetAuthorization : nat -> string -> Authorization + cause;
  api_dns01Record : string -> string + cause;
  api_Accept : nat -> Challenge -> option cause;
  api_WaitAuthorization : nat -> string -> option cause;
  api_WaitOrder : nat -> string -> Order + cause;
  api_createOrderCert : nat -> string -> string -> list string + cause;
  api_FetchCert : nat -> string -> list string + cause;
  api_done : nat -> bool;                      (* ctx.Err() != nil *)
}.

(** [errors.Is(cause, context.DeadlineExceeded)] and [context.Canceled]. *)
Fixpoint is_ctx_error (e : cause) : bool :=
  match e with CDeadline | CCanceled => true | CWrap _ e' => is_ctx_error e' | _ => false end.
Fixpoint is_exists (e : cause) : bool :=
  match e with CExists => true | CWrap _ e' => is_exists e' | _ => false end.

(** The state of a flow: the exchanges so far, the DNS providers, and the TXT
    records it published and removed, in order. *)
Record published := mkPublished { pub_domain : string; pub_fqdn : string; pub_value : string }.
Inductive dns_event := EvPresent (r : published) | EvRefused (r : published) | EvCleanUp (r : published).
Record FlowW := mkFlowW { fw_n : nat; fw_dns : DnsW; fw_trace : list dns_event }.
#[export] Instance floww_eta : RecordEta FlowW := fun w => mkFlowW (fw_n w) (fw_dns w) (fw_trace w).

Section flow.
Context `{Env} `{AcmeServer} `{DnsNet} `{AcmeApi}.

(** One exchange with the server. *)
Definition exchange {A} (f : nat -> A) : ST FlowW A := fun w => (Ok (f (fw_n w)), w <| fw_n := S (fw_n w) |>).
(** [wrap]: the end of the context, before it is asked or as the cause, is a timeout. *)
Definition wrap {A} (sentinel : err) (e : cause) : ST FlowW A := fun w =>
  (Err (if api_done (fw_n w) || is_ctx_error e then acme_ErrTimeout else withCause sentinel e), w).
(** [x, err := call(); if err != nil { return wrap(ctx, sentinel, err) }]. *)
Definition asking {A} (sentinel : err) (f : nat -> A + cause) : ST FlowW A :=
  let* r := exchange f in match r with inl a => st_ret a | inr e => wrap sentinel e end.
Definition telling (sentinel : err) (f : nat -> option cause) : ST FlowW unit :=
  let* r := exchange f in match r with None => st_ret tt | Some e => wrap sentinel e end.

Definition acme_Register (cfg : AcmeConfig) : ST FlowW unit :=
  let acct := mkAccount (if ac_AccountEmail cfg <>s "" then ["mailto:" +:+ ac_AccountEmail cfg] else [])
                (if (ac_EABKeyID cfg <>s "") && (0 <? blen (ac_EABHMACKey cfg))
                 then Some (ac_EABKeyID cfg, default "" (ac_EABHMACKey cfg)) else None) in
  let* r := exchange (fun n => api_register n cfg acct) in
  match r with
  | None => st_ret tt
  | Some e => if is_exists e then st_ret tt else st_err (withCause acme_ErrOrder e)
  end.

Fixpoint dns01Challenge (chals : list (option Challenge)) : option Challenge :=
  match chals with
  | [] => None
  | Some ch :: rest => if ch_Type ch =s "dns-01" then Some ch else dns01Challenge rest
  | None :: rest => dns01Challenge rest
  end.
Definition encodeChainPEM (ders : list string) : string := String.concat "" ((fun der => pem_encode "CERTIFICATE" der) <$> ders).

(** [c.dns.Present] and the deferred [c.dns.CleanUp], whose error is dropped. *)
Definition present (p : DNSProvider) (r : published) : ST FlowW unit := fun w =>
  match dns_Present p (pub_domain r) (pub_fqdn r) (pub_value r) (fw_dns w) with
  | (Ok _, d) => (Ok tt, w <| fw_dns := d |> <| fw_trace := fw_trace w ++ [EvPresent r] |>)
  | (Err _, d) => (Err (withCause acme_ErrProvider (CPlain false)),
                   w <| fw_dns := d |> <| fw_trace := fw_trace w ++ [EvRefused r] |>)
  end.
Definition clean_up (p : DNSProvider) (w : FlowW) (r : published) : FlowW :=
  let d := (dns_CleanUp p (pub_domain r) (pub_fqdn r) (pub_value r) (fw_dns w)).2 in
  w <| fw_dns := d |> <| fw_trace := fw_trace w ++ [EvCleanUp r] |>.

(** One authorization: the record it published, if any, even when a later step of it
    fails. *)
Definition authorize_one (p : DNSProvider) (url : string) : FlowW -> res unit * list published * FlowW := fun w =>
  match asking acme_ErrChallenge (fun n => api_GetAuthorization n url) w with
  | (Err e, w) => (Err e, [], w)
  | (Ok authz, w) =>
    if az_Status authz =s "valid" then (Ok tt, [], w)
    else match dns01Challenge (az_Challenges authz) with
    | None => (Err acme_ErrChallenge, [], w)
    | Some chal =>
      match api_dns01Record (ch_Token chal) with
      | inr e => let '(r, w) := wrap (A := unit) acme_ErrChallenge e w in (r, [], w)
      | inl value =>
        let rec := mkPublished (az_Identifier authz) ("_acme-challenge." +:+ az_Identifier authz) value in
        match present p rec w with
        | (Err e, w) => (Err e, [], w)
        | (Ok _, w) =>
          let '(r, w) := (let* _ := telling acme_ErrChallenge (fun n => api_Accept n chal) in
                          telling acme_ErrChallenge (fun n => api_WaitAuthorization n (az_URI authz))) w in
          (r, [rec], w)
        end
      end
    end
  end.
Fixpoint authorize (p : DNSProvider) (urls : list string) (w : FlowW) : res unit * list published * FlowW :=
  match urls with
  | [] => (Ok tt, [], w)
  | url :: rest =>
    match authorize_one p url w with
    | (Err e, recs, w) => (Err e, recs, w)
    | (Ok _, recs, w) => let '(r, more, w) := authorize p rest w in (r, recs ++ more, w)
    end
  end.
(** The order is ready: finalize, or fetch what an asynchronous finalize produced. *)
Definition finalize (order : Order) (csrDER : string) : ST FlowW string :=
  let* _ := asking acme_ErrOrder (fun n => api_WaitOrder n (od_URI order)) in
  let* r := exchange (fun n => api_createOrderCert n (od_FinalizeURL order) csrDER) in
  let* ders := match r with
    | inl ders => st_ret ders
    | inr e =>
      let* o := asking acme_ErrOrder (fun n => api_WaitOrder n (od_URI order)) in
      if od_CertURL o =s "" then wrap acme_ErrOrder e
      else asking acme_ErrOrder (fun n => api_FetchCert n (od_CertURL o))
    end in
  let chain := encodeChainPEM ders in
  if chain =s "" then st_err acme_ErrOrder else st_ret chain.
Definition Obtain (cfg : AcmeConfig) (csrDER : string) (domains : list string) : ST FlowW string := fun w =>
  if (csrDER =s "") || (acme_MaxCSRBytes <? str_len csrDER) then (Err acme_ErrOrder, w)
  else if (Z.of_nat (length domains) =? 0) || (MaxDomains <? Z.of_nat (length domains)) then (Err acme_ErrOrder, w)
  else
    match asking acme_ErrOrder (fun n => api_AuthorizeOrder n domains) w with
    | (Err e, w) => (Err e, w)
    | (Ok order, w) =>
      let '(r, records, w) := authorize (ac_DNS cfg) (od_AuthzURLs order) w in
      let '(out, w) := match r with
                       | Err e => (Err e, w)
                       | Ok _ => finalize order csrDER w
                       end in
      (out, foldl (clean_up (ac_DNS cfg)) w records)
    end.
End flow.

(** ** What a flow leaves behind *)

(** The records an event list shows as published. *)
Definition presented (ev : dns_event) : option published := match ev with EvPresent r => Some r | _ => None end.
Definition is_cleanup (ev : dns_event) : bool := match ev with EvCleanUp _ => true | _ => false end.
(** [adds w w' evs]: the flow went from [w] to [w'] and [evs] happened on the DNS side. *)
Definition adds (w w' : FlowW) (evs : list dns_event) : Prop := fw_trace w' = fw_trace w ++ evs.
(** The errors [Obtain] documents: a sentinel of the package, alone or with a described cause. *)
Definition sentinels : list err := [acme_ErrOrder; acme_ErrChallenge; acme_ErrProvider; acme_ErrTimeout].
Definition documented (e : err) : Prop := exists s, s ∈ sentinels /\ (e = s \/ exists c, e = withCause s c).

Lemma adds_nil w w' : fw_trace w' = fw_trace w -> adds w w' [].
Proof. unfold adds. by rewrite app_nil_r. Qed.
Lemma adds_trans w w1 w2 l1 l2 : adds w w1 l1 -> adds w1 w2 l2 -> adds w w2 (l1 ++ l2).
Proof. unfold adds. intros H1 H2. by rewrite H2, H1, (assoc (++)). Qed.
Lemma documented_plain s : s ∈ sentinels -> documented s.
Proof. intros Hs. exists s. auto. Qed.
Lemma documented_cause s c : s ∈ sentinels -> documented (withCause s c).
Proof. intros Hs. exists s. eauto. Qed.

Section flow_facts.
Context `{Env} `{DnsNet} `{AcmeApi}.

(** A step of the exchange touches the DNS side in no way, and fails with a
    documented error. *)
Definition quiet {A} (m : ST FlowW A) : Prop := forall w r w', m w = (r, w') ->
  fw_trace w' = fw_trace w /\ (forall e, r = Err e -> documented e).

Lemma quiet_ret {A} (a : A) : quiet (st_ret a).
Proof. intros w r w' Hm. cbv in Hm. by simplify_eq. Qed.
Lemma quiet_err {A} s : s ∈ sentinels -> quiet (st_err (A := A) s).
Proof. intros Hs w r w' Hm. cbv in Hm. simplify_eq. split; [done|]. intros e [= <-]. by apply documented_plain. Qed.
Lemma quiet_bind {A B} (m : ST FlowW A) (k : A -> ST FlowW B) : quiet m -> (forall a, quiet (k a)) -> quiet (st_bind m k).
Proof.
  intros Hm Hk w r w' Hb. unfold st_bind in Hb. destruct (m w) as [[a|e] w1] eqn:E; destruct (Hm _ _ _ E) as [Ht He].
  - destruct (Hk a _ _ _ Hb) as [Ht' He']. split; [congruence|done].
  - simplify_eq. split; [done|]. intros e' [= <-]. by apply He.
Qed.
Lemma quiet_exchange {A} (f : nat -> A) : quiet (exchange f).
Proof. intros w r w' Hm. unfold exchange in Hm. by simplify_eq. Qed.
Lemma quiet_wrap {A} s c : s ∈ sentinels -> quiet (wrap (A := A) s c).
Proof.
  intros Hs w r w' Hm. unfold wrap in Hm. simplify_eq. split; [done|]. intros e [= <-].
  case_match; [apply documented_plain; unfold sentinels; set_solver|by apply documented_cause].
Qed.
Lemma quiet_asking {A} s (f : nat -> A + cause) : s ∈ sentinels -> quiet (asking s f).
Proof. intros Hs. apply quiet_bind; [apply quiet_exchange|]. intros [a|e]; [apply quiet_ret|by apply quiet_wrap]. Qed.
Lemma quiet_telling s f : s ∈ sentinels -> quiet (telling s f).
Proof. intros Hs. apply quiet_bind; [apply quiet_exchange|]. intros [e|]; [by apply quiet_wrap|apply quiet_ret]. Qed.
Lemma quiet_finalize order csrDER : quiet (finalize order csrDER).
Proof.
  assert (Hs : acme_ErrOrder ∈ sentinels) by (unfold sentinels; set_solver).
  repeat (apply quiet_bind; [first [by apply quiet_asking|apply quiet_exchange|idtac]|intros]).
  - destruct a0; [apply quiet_ret|]. apply quiet_bind; [by apply quiet_asking|]. intros o.
    case_match; [by apply quiet_wrap|by apply quiet_asking].
  - cbv zeta. case_match; [by apply quiet_err|apply quiet_ret].
Qed.

(** An authorization that stands behind a certificate: valid already, or its record
    was published, the challenge accepted and the server's verdict awaited. *)
Definition authorized (recs : list published) (url : string) : Prop := exists n authz,
  api_GetAuthorization n url = inl authz /\
  (az_Status authz = "valid" \/
   exists chal value, dns01Challenge (az_Challenges authz) = Some chal /\ api_dns01Record (ch_Token chal) = inl value
     /\ mkPublished (az_Identifier authz) ("_acme-challenge." +:+ az_Identifier authz) value ∈ recs
     /\ api_Accept (S n) chal = None /\ api_WaitAuthorization (S (S n)) (az_URI authz) = None).
Lemma authorized_weaken recs recs' url : recs ⊆ recs' -> authorized recs url -> authorized recs' url.
Proof. intros Hs (n & authz & Hg & [Hv|(c & v & ? & ? & Hin & ?)]); exists n, authz; split; auto. right. exists c, v. set_solver. Qed.

(** The outcome of a run of authorizations: what was published is what is returned
    for cleaning up, and nothing was cleaned up yet. *)
Record settled (urls : list string) (w : FlowW) (r : res unit) (recs : list published) (w' : FlowW) : Prop := {
  settled_trace : exists evs, adds w w' evs /\ omap presented evs = recs /\ forallb (negb ∘ is_cleanup) evs = true;
  settled_err : forall e, r = Err e -> documented e;
  settled_ok : r = Ok tt -> Forall (authorized recs) urls;
}.
Lemma settled_quiet urls w r w' : fw_trace w' = fw_trace w -> (forall e, r = Err e -> documented e) ->
  (r = Ok tt -> Forall (authorized []) urls) -> settled urls w r [] w'.
Proof. intros Ht He Ho. split; [|done|done]. exists []. split; [by apply adds_nil|done]. Qed.
Lemma settled_fail urls w e w' : fw_trace w' = fw_trace w -> documented e -> settled urls w (Err e) [] w'.
Proof. intros Ht He. apply settled_quiet; [done| |done]. by intros ? [= <-]. Qed.

Lemma challenge_sentinel : acme_ErrChallenge ∈ sentinels.
Proof. unfold sentinels. set_solver. Qed.
Lemma authorize_one_settled p url w r recs w' : authorize_one p url w = (r, recs, w') -> settled [url] w r recs w'.
Proof.
  pose proof challenge_sentinel as Hs. unfold authorize_one.
  destruct (asking acme_ErrChallenge (fun n => api_GetAuthorization n url) w) as [[authz|e] w1] eqn:E;
    destruct (quiet_asking _ _ Hs _ _ _ E) as [Ht He].
  2: { intros; simplify_eq. by apply settled_fail, He. }
  unfold asking, st_bind, exchange in E. destruct (api_GetAuthorization (fw_n w) url) as [z|z] eqn:Eg; [|done].
  cbv [st_ret] in E. simplify_eq.
  destruct (az_Status authz =s "valid") eqn:Ev.
  { intros; simplify_eq. apply settled_quiet; [done|done|]. intros _. repeat constructor. exists (fw_n w), authz. bools. auto. }
  destruct (dns01Challenge (az_Challenges authz)) as [chal|] eqn:Ec.
  2: { intros; simplify_eq. by apply settled_fail, documented_plain. }
  destruct (api_dns01Record (ch_Token chal)) as [value|e] eqn:Er.
  2: { destruct (wrap _ e _) as [r' w2] eqn:Ew. destruct (quiet_wrap _ e Hs _ _ _ Ew) as [Ht' He']. intros; simplify_eq.
       apply settled_quiet; [congruence|done|]. intros ->. unfold wrap in Ew. by case_match. }
  set (rec := mkPublished _ _ _). unfold present.
  destruct (dns_Present _ _ _ _ _) as [[u|e] d]; cbn beta iota.
  2: { intros; simplify_eq. split; [|intros e' [= <-]; apply documented_cause; unfold sentinels; set_solver|done].
       exists [EvRefused rec]. done. }
  set (w2 := _ <| fw_dns := d |> <| fw_trace := _ |>).
  destruct (st_bind _ _ w2) as [r' w3] eqn:Ew.
  assert (Hq := quiet_bind _ _ (quiet_telling _ (fun n => api_Accept n chal) Hs)
                  (fun _ => quiet_telling _ (fun n => api_WaitAuthorization n (az_URI authz)) Hs) _ _ _ Ew).
  destruct Hq as [Ht' He']. intros; simplify_eq. split; [|done|].
  - exists [EvPresent rec]. split; [|done]. unfold adds. by rewrite Ht'.
  - intros ->. repeat constructor. exists (fw_n w), authz. split; [done|]. right. exists chal, value. split_and!; try done; [set_solver| |];
      unfold telling, st_bind, exchange, st_ret, wrap in Ew; cbn in Ew;
      (destruct (api_Accept _ chal); [done|]); cbn in Ew; by destruct (api_WaitAuthorization _ _).
Qed.
Lemma authorize_settled p urls w r recs w' : authorize p urls w = (r, recs, w') -> settled urls w r recs w'.
Proof.
  revert w r recs w'. induction urls as [|url urls IH]; intros w r recs w'; cbn [authorize].
  { intros; simplify_eq. apply settled_quiet; done || (intros; constructor). }
  destruct (authorize_one p url w) as [[[[]|e] recs1] w1] eqn:E1; destruct (authorize_one_settled _ _ _ _ _ _ E1) as [(evs & Ha & Hr & Hn) He Ho].
  2: { intros; simplify_eq. split; [eauto|done|done]. }
  destruct (authorize p urls w1) as [[r2 more] w2] eqn:E2. destruct (IH _ _ _ _ E2) as [(evs' & Ha' & Hr' & Hn') He' Ho'].
  intros; simplify_eq. split; [|done|].
  - exists (evs ++ evs'). split_and!; [by eapply adds_trans|by rewrite omap_app|by rewrite List.forallb_app, Hn, Hn'].
  - intros ->. constructor.
    + destruct (proj1 (Forall_singleton _ _) (Ho eq_refl)) as (n & a & Hg & Hx). eapply authorized_weaken; [|exists n, a; eauto]. set_solver.
    + eapply Forall_impl; [by apply Ho'|]. intros u. apply authorized_weaken. set_solver.
Qed.
Lemma clean_up_trace p recs w : fw_trace (foldl (clean_up p) w recs) = fw_trace w ++ (EvCleanUp <$> recs).
Proof. revert w. induction recs as [|r recs IH]; intros w; cbn; [by rewrite app_nil_r|]. rewrite IH. cbn. by rewrite <- (assoc (++)). Qed.

(** What a flow went through: it was refused or got no order, or it ran the
    authorizations of its order, finalized it if they succeeded, and cleaned up. *)
Lemma Obtain_inv cfg csrDER domains w out w' : Obtain cfg csrDER domains w = (out, w') ->
  (exists e, out = Err e /\ documented e /\ fw_trace w' = fw_trace w)
  \/ (0 < str_len csrDER <= acme_MaxCSRBytes /\ 0 < Z.of_nat (length domains) <= MaxDomains /\
      exists order w1 r recs w2 w3, api_AuthorizeOrder (fw_n w) domains = inl order /\ fw_trace w1 = fw_trace w
        /\ settled (od_AuthzURLs order) w1 r recs w2 /\ w' = foldl (clean_up (ac_DNS cfg)) w3 recs
        /\ match r with Err e => out = Err e /\ w3 = w2 | Ok _ => finalize order csrDER w2 = (out, w3) end).
Proof.
  assert (Hs : acme_ErrOrder ∈ sentinels) by (unfold sentinels; set_solver). unfold Obtain.
  destruct (_ || _) eqn:Eb1; [intros; simplify_eq; left; eauto using documented_plain|].
  destruct (_ || _) eqn:Eb2 in |- *; [intros; simplify_eq; left; eauto using documented_plain|].
  destruct (asking _ _ w) as [[order|e] w1] eqn:E1; destruct (quiet_asking _ _ Hs _ _ _ E1) as [Ht1 He1].
  2: { intros; simplify_eq. left. eauto. }
  unfold asking, st_bind, exchange in E1. destruct (api_AuthorizeOrder (fw_n w) domains) as [o|o] eqn:Eo; [|done].
  cbv [st_ret] in E1. simplify_eq.
  destruct (authorize _ _ _) as [[r recs] w2] eqn:E2. apply authorize_settled in E2.
  destruct (match r with Ok _ => _ | Err e => _ end) as [out' w3] eqn:E3. intros; simplify_eq. right.
  apply orb_false_iff in Eb1 as [Ha Hb], Eb2 as [Hc Hd]. bools.
  assert (0 < str_len csrDER) by (destruct csrDER; [done|]; unfold str_len; cbn; lia).
  split; [lia|]. split; [lia|]. exists order, (w <| fw_n := S (fw_n w) |>), r, recs, w2, w3. split_and!; [done|exact Ht1|exact E2|done|].
  destruct r; [done|]. by simplify_eq.
Qed.

(** C15. Every TXT record an order publishes is cleaned up exactly once, in the order
    of publication and after everything else, whether or not the certificate was
    issued; nothing else is cleaned up.  An error is one of the package's sentinels,
    alone or with the sanitised description of its cause. *)
Theorem Obtain_cleans cfg csrDER domains w out w' :
  Obtain cfg csrDER domains w = (out, w') ->
  (exists evs, fw_trace w' = fw_trace w ++ evs ++ (EvCleanUp <$> omap presented evs)
     /\ forallb (negb ∘ is_cleanup) evs = true)
  /\ (forall e, out = Err e -> documented e).
Proof.
  intros [(e & -> & He & Ht)|(_ & _ & order & w1 & r & recs & w2 & w3 & _ & Ht1 & [(evs & Ha & Hr & Hn) He2 _] & -> & Hf)]%Obtain_inv.
  { split; [exists []; by rewrite app_nil_r|by intros ? [= <-]]. }
  assert (Hout : fw_trace w3 = fw_trace w2 /\ (forall e, out = Err e -> documented e)).
  { destruct r as [u|e]; [by eapply quiet_finalize|]. destruct Hf as [-> ->]. split; [done|]. intros ? [= <-]. by apply He2. }
  destruct Hout as [Ht3 He3]. split; [|done]. exists evs. split; [|done].
  by rewrite clean_up_trace, Ht3, Ha, Ht1, Hr, (assoc (++)).
Qed.

(** The certificates of a finalized order. *)
Definition handed_out (order : Order) (csrDER : string) (ders : list string) : Prop :=
  exists n, api_createOrderCert n (od_FinalizeURL order) csrDER = inl ders
  \/ exists m o, api_WaitOrder m (od_URI order) = inl o /\ od_CertURL o <> "" /\ api_FetchCert n (od_CertURL o) = inl ders.
Lemma asking_ok {A} s (f : nat -> A + cause) w a w' :
  asking s f w = (Ok a, w') -> f (fw_n w) = inl a /\ w' = w <| fw_n := S (fw_n w) |>.
Proof. unfold asking, st_bind, exchange. destruct (f (fw_n w)); cbv [st_ret wrap]; intros; by simplify_eq. Qed.
Lemma finalize_ok order csrDER w chain w' : finalize order csrDER w = (Ok chain, w') ->
  chain <> "" /\ exists ders, chain = encodeChainPEM ders /\ handed_out order csrDER ders.
Proof.
  unfold finalize, st_bind. destruct (asking _ _ w) as [[o1|] w1]; [|done]. unfold exchange.
  destruct (api_createOrderCert _ _ _) as [ders|e] eqn:Ec; cbv [st_ret].
  - cbv zeta. case_match; [done|]. intros; simplify_eq. bools. split; [done|]. exists ders. split; [done|]. eexists. eauto.
  - destruct (asking _ _ _) as [[o|] w2] eqn:Eo in |- *; [|done]. apply asking_ok in Eo as [Eo _].
    destruct (od_CertURL o =s "") eqn:Eu; [done|].
    destruct (asking _ _ w2) as [[ders|] w3] eqn:Ef; [|done]. apply asking_ok in Ef as [Ef _].
    cbv zeta. case_match; [done|]. intros; simplify_eq. bools. split; [done|]. exists ders. split; [done|]. eexists. right. eauto 6.
Qed.
(** A chain is returned only for a request and names within the bounds, from an
    order whose every authorization was valid or was proved by a published record
    the server accepted and validated; the records are those cleaned up at the end.
    The chain is the PEM of the certificates the server finalized or handed out. *)
Theorem Obtain_proved cfg csrDER domains w chain w' :
  Obtain cfg csrDER domains w = (Ok chain, w') ->
  0 < str_len csrDER <= acme_MaxCSRBytes /\ 0 < Z.of_nat (length domains) <= MaxDomains /\
  exists order evs ders,
    api_AuthorizeOrder (fw_n w) domains = inl order /\ Forall (authorized (omap presented evs)) (od_AuthzURLs order)
    /\ fw_trace w' = fw_trace w ++ evs ++ (EvCleanUp <$> omap presented evs)
    /\ chain = encodeChainPEM ders /\ chain <> "" /\ handed_out order csrDER ders.
Proof.
  intros [(e & ? & _)|(Hc & Hd & order & w1 & r & recs & w2 & w3 & Ho & Ht1 & [(evs & Ha & Hr & _) _ Hok] & -> & Hf)]%Obtain_inv; [done|].
  destruct r as [[]|e]; [|by destruct Hf]. pose proof (quiet_finalize _ _ _ _ _ Hf) as [Ht3 _].
  apply finalize_ok in Hf as (Hne & ders & -> & Hh). split; [done|]. split; [done|]. exists order, evs, ders. rewrite Hr.
  split_and!; auto. by rewrite clean_up_trace, Ht3, Ha, Ht1, (assoc (++)).
Qed.
End flow_facts.

(** ** The service on top of the flow *)

Section service.
Context `{Env} (base : AcmeServer) (net : nat -> DnsNet) (api : nat -> AcmeApi).

Definition flow_start : FlowW := mkFlowW 0 dns_start [].
(** [acme.Client], built anew for each order with its provider: what the service of
    Acme.v calls is the flow above. *)
Definition flow_server : AcmeServer := {|
  acme_register n cfg := (@acme_Register (api n) cfg flow_start).1;
  acme_obtain n cfg csrDER domains := (@Obtain _ (net n) (api n) cfg csrDER domains flow_start).1;
  freya_client := @freya_client base;
  split_host_port := @split_host_port base;
  is_loopback_ip := @is_loopback_ip base;
  base64_decode := @base64_decode base;
  error_text := @error_text base;
  unicode_fields := @unicode_fields base;
|}.

(** C14. A certificate the service obtains through ACME stands on an order for
    exactly the validated names, every authorization of which was valid or was
    proved by a record published for it, with all published records cleaned up by
    the end; the certificate returned is the leaf of the chain the order gave. *)
Theorem obtainACME_proved now subj requestID issuerID domains csrPEM deliverKey autoRenew w b w' :
  @obtainACME _ flow_server now subj requestID issuerID domains csrPEM deliverKey autoRenew w = (Ok b, w') ->
  exists names n order evs chain leaf,
    validateACMEDomains domains = Ok names
    /\ @api_AuthorizeOrder (api n) 0 names = inl order
    /\ Forall (@authorized (api n) (omap presented evs)) (od_AuthzURLs order)
    /\ (exists client csrDER fw, @Obtain _ (net n) (api n) client csrDER names flow_start = (Ok chain, fw)
         /\ fw_trace fw = evs ++ (EvCleanUp <$> omap presented evs))
    /\ splitChain chain = Ok (b_CertPEM b, b_ChainPEM b, leaf).
Proof.
  unfold obtainACME. intros Hb. apply st_bind_ok in Hb as (names & w1 & Hn & Hb). cbv [st_lift] in Hn. simplify_eq.
  apply st_bind_ok in Hb as ([issuer|e] & w2 & _ & Hb); [|case_match; discriminate Hb].
  case_match; [discriminate Hb|].
  apply st_bind_ok in Hb as ([c|e] & w3 & _ & Hb); [|discriminate Hb].
  apply st_bind_ok in Hb as (client & w4 & _ & Hb).
  apply st_bind_ok in Hb as (u & w5 & _ & Hb).
  apply st_bind_ok in Hb as (certID & w6 & _ & Hb).
  apply st_bind_ok in Hb as ([[csrDER keySealed] keyPEM] & w7 & _ & Hb).
  apply st_bind_ok in Hb as (chain & w8 & Hd & Hb).
  apply st_bind_ok in Hb as ([[leafPEM restPEM] leaf] & w9 & Hs & Hb).
  do 4 (apply st_bind_ok in Hb as (? & ? & _ & Hb)).
  cbv [st_ret] in Hb. simplify_eq. apply st_lift_ok in Hs as [Hs _]. unfold drawing in Hd.
  injection Hd as Hd _. cbn [acme_obtain flow_server] in Hd.
  destruct (Obtain client csrDER names flow_start) as [r fw] eqn:Eo in Hd; cbn in Hd. subst r.
  pose proof (Obtain_proved _ _ _ _ _ _ Eo) as (_ & _ & order & evs & ders & Ho & Ha & Ht & _).
  exists names, (wd_rnd w7), order, evs, chain, leaf. split_and!; eauto 6.
Qed.
End service.

(** ** Sample runs *)
Module FlowSample.
Import Toy IssueSample IssuerSample DnsSample.
#[local] Existing Instance toy_env.
#[local] Existing Instance sample_net.
(** An order with one pending and one valid authorization. *)
Definition dns_chal : Challenge := mkChallenge "dns-01" "tok" "chal/2".
Definition sample_order : Order := mkOrder "order/1" ["authz/1"; "authz/2"] "finalize/1" "".
Definition sample_authz (url : string) : Authorization :=
  if url =s "authz/1" then mkAuthorization url "pending" "www.example.org" [Some (mkChallenge "http-01" "tok" "chal/1"); None; Some dns_chal]
  else mkAuthorization url "valid" "example.org" [].
(** A server that finalizes at once, one that finalizes later, and one that refuses the challenge. *)
Definition server_with (accept : option cause) (fin : list string + cause) : AcmeApi := {|
  api_register n cfg acct := Some CExists;
  api_AuthorizeOrder n domains := inl sample_order;
  api_GetAuthorization n url := inl (sample_authz url);
  api_dns01Record token := inl ("digest-" +:+ token);
  api_Accept n ch := accept;
  api_WaitAuthorization n url := None;
  api_WaitOrder n url := inl (mkOrder url [] "" "cert/1");
  api_createOrderCert n url csr := fin;
  api_FetchCert n url := inl ["leaf"];
  api_done n := false;
|}.
Definition prompt_api : AcmeApi := server_with None (inl ["leaf"]).
Definition late_api : AcmeApi := server_with None (inr (CPlain false)).
Definition refusing_api : AcmeApi := server_with (Some (CWrap true CDeadline)) (inl ["leaf"]).
Definition cf_config : AcmeConfig := mkAcmeConfig "https://acme.example/dir" "" "key" (CloudflareProvider "s3cr3t" "") false "" None.
Definition run_with (api : AcmeApi) : res string * FlowW :=
  @Obtain _ sample_net api cf_config "csr" ["www.example.org"; "example.org"] flow_start.
Definition sample_record : published := mkPublished "www.example.org" challenge_name "digest-tok".
Example late_run : run_with late_api = (Ok "CERTIFICATE:leaf", (run_with late_api).2)
  /\ fw_trace (run_with late_api).2 = [EvPresent sample_record; EvCleanUp sample_record].
Proof. vm_compute. auto. Qed.
Lemma Obtain_cleans_witness :
  (run_with refusing_api).1 = Err acme_ErrTimeout /\ documented acme_ErrTimeout
  /\ fw_trace (run_with refusing_api).2 = [EvPresent sample_record; EvCleanUp sample_record].
Proof.
  assert (Hr : run_with refusing_api = (Err acme_ErrTimeout, (run_with refusing_api).2)) by (vm_compute; reflexivity).
  split; [by rewrite Hr|]. split; [exact (proj2 (Obtain_cleans _ _ _ _ _ _ Hr) _ eq_refl)|vm_compute; reflexivity].
Defined.
Lemma Obtain_proved_witness : exists order ders, @handed_out late_api order "csr" ders /\ encodeChainPEM ders = "CERTIFICATE:leaf".
Proof.
  assert (Hr : run_with late_api = (Ok "CERTIFICATE:leaf", (run_with late_api).2)) by (vm_compute; reflexivity).
  destruct (@Obtain_proved _ _ late_api _ _ _ _ _ _ Hr) as (_ & _ & order & evs & ders & _ & _ & _ & Hc & _ & Hh). by exists order, ders.
Defined.
(** The issuer of the console, with its Cloudflare zone, against the server above. *)
Definition service_server : AcmeServer := flow_server AcmeSample.toy_server (fun _ => sample_net) (fun _ => prompt_api).
Definition obtained : res Bundle * World :=
  @obtainACME _ service_server 20 admin "" (iv_ID created.1) ["www.example.org"] "" false true created.2.
Definition got : Bundle * World := run (mkBundle (certView 0 sample_cert no_permissions) "" "" "" "")
  (@obtainACME _ service_server 20 admin "" (iv_ID created.1) ["www.example.org"] "" false true) created.2.
Lemma obtainACME_proved_witness : b_CertPEM got.1 = "CERTIFICATE:leaf"
  /\ exists names order evs, validateACMEDomains ["www.example.org"] = Ok names
       /\ @api_AuthorizeOrder prompt_api 0 names = inl order /\ Forall (@authorized prompt_api (omap presented evs)) (od_AuthzURLs order).
Proof.
  split; [vm_compute; reflexivity|].
  assert (Hr : obtained = (Ok got.1, got.2)) by (vm_compute; reflexivity).
  destruct (obtainACME_proved AcmeSample.toy_server (fun _ => sample_net) (fun _ => prompt_api)
              20 admin "" (iv_ID created.1) ["www.example.org"] "" false true created.2 got.1 got.2 Hr)
    as (names & n & order & evs & chain & leaf & Hn & Ho & Ha & _).
  exists names, order, evs. auto.
Defined.
End FlowSample.
