(* ===== verification/Adapters.v ===== *)
(** The adapters between the services and the platform: internal/app/adapters.go,
    perms.go, enrolllistener.go, freyadns.go and scheduler.go, and the client of the
    DNS module, sdk/pkg/dnschallenge.

    Calls to other services answer by the number of the call (the class [Mesh]). *)

From S2P Require Import Prelude Rows Memstore MemstoreInv MemstoreList Authz GoJson GoUrl AuditLog Csr Sealed World Ca.
From S2P Require Import IssueBase Domains Providers Issuers Acme Lifecycle Enroll Secrets Stream Webhook Expiring GoTime Http HttpCerts.

(** ** The rest of the platform *)
Inductive RpcCode := RpcOK | RpcCanceled | RpcUnknown | RpcInvalidArgument | RpcDeadlineExceeded | RpcNotFound
  | RpcAlreadyExists | RpcPermissionDenied | RpcResourceExhausted | RpcFailedPrecondition | RpcAborted | RpcOutOfRange
  | RpcUnimplemented | RpcInternal | RpcUnavailable | RpcDataLoss | RpcUnauthenticated.
#[export] Instance RpcCode_eq_dec : EqDecision RpcCode.
Proof. solve_decision. Defined.
(** [codes.Code.String]. *)
Definition RpcCode_String (c : RpcCode) : string :=
  match c with
  | RpcOK => "OK" | RpcCanceled => "Canceled" | RpcUnknown => "Unknown" | RpcInvalidArgument => "InvalidArgument"
  | RpcDeadlineExceeded => "DeadlineExceeded" | RpcNotFound => "NotFound" | RpcAlreadyExists => "AlreadyExists"
  | RpcPermissionDenied => "PermissionDenied" | RpcResourceExhausted => "ResourceExhausted"
  | RpcFailedPrecondition => "FailedPrecondition" | RpcAborted => "Aborted" | RpcOutOfRange => "OutOfRange"
  | RpcUnimplemented => "Unimplemented" | RpcInternal => "Internal" | RpcUnavailable => "Unavailable"
  | RpcDataLoss => "DataLoss" | RpcUnauthenticated => "Unauthenticated"
  end.
(** An error of a call: a status, or an error that carries none. *)
Record RpcStatus := mkRpcStatus { rs_Code : RpcCode; rs_Message : string }.
Definition rpc_error : Type := option RpcStatus.
(** [status.Code]: an error without a status is Unknown. *)
Definition status_Code (e : rpc_error) : RpcCode := match e with Some s => rs_Code s | None => RpcUnknown end.
Class Mesh := {
  mesh_dial : nat -> string -> bool;                             (* a.Freya.Client gives a connection *)
  challenge_rpc : nat -> string -> string -> string -> string -> string -> string + rpc_error;
                                                                 (* method, tenant, domain, name, value; the zone *)
  verify_rpc : nat -> string -> EnrollGrant + rpc_error;         (* VerifyEnrollmentToken *)
  check_rpc : nat -> string -> string -> string -> string -> bool + rpc_error;   (* Authorization.Check *)
}.

(** ** The client of the DNS module *)
Definition PresentMethod : string := "/dns.v1.Challenges/Present".
Definition CleanUpMethod : string := "/dns.v1.Challenges/CleanUp".
Definition dnschallenge (name : string) : err := Sentinel "dnschallenge" name.
Definition challenge_mapErr (e : rpc_error) : err :=
  Wrapf (RpcCode_String (status_Code e))
    (match status_Code e with
     | RpcNotFound => dnschallenge "ErrNotFound"
     | RpcPermissionDenied | RpcUnauthenticated => dnschallenge "ErrPermissionDenied"
     | RpcInvalidArgument => dnschallenge "ErrInvalid"
     | RpcFailedPrecondition => dnschallenge "ErrPrecondition"
     | RpcUnavailable | RpcDeadlineExceeded => dnschallenge "ErrUnavailable"
     | _ => dnschallenge "ErrFailed"
     end).

Section mesh.
Context `{Mesh}.
(** The calls so far, and whether the client has its connection. *)
Record LazyW := mkLazyW { lz_n : nat; lz_client : bool }.
Definition challenge_call (method tenantID domain fqdn value : string) : ST LazyW string := fun w =>
  (match challenge_rpc (lz_n w) method tenantID domain fqdn value with
   | inl zone => Ok zone
   | inr e => Err (challenge_mapErr e)
   end, mkLazyW (S (lz_n w)) (lz_client w)).
(** [lazyDNS.client]: dialled at the first use and kept. *)
Definition lazyDNS_client (service : string) : ST LazyW unit := fun w =>
  if lz_client w then (Ok tt, w)
  else if mesh_dial (lz_n w) service then (Ok tt, mkLazyW (S (lz_n w)) true)
  else (Err (Opaque "dns client"), mkLazyW (S (lz_n w)) false).
Definition lazyDNS_Present (service tenantID domain fqdn value : string) : ST LazyW unit :=
  let* _ := lazyDNS_client service in
  let* _ := challenge_call PresentMethod tenantID domain fqdn value in st_ret tt.
Definition lazyDNS_CleanUp (service tenantID domain fqdn value : string) : ST LazyW unit :=
  let* _ := lazyDNS_client service in
  let* _ := challenge_call CleanUpMethod tenantID domain fqdn value in st_ret tt.

(** ** Platform permissions *)
(** [AuthPerms.Has]; the client may not be there. *)
Definition AuthPerms_Has (client : bool) (n : nat) (tenantID userID permission : string) : bool :=
  match cut 58 permission with
  | (resource, Some action) =>
    client && match check_rpc n tenantID userID resource action with inl allowed => allowed | inr _ => false end
  | (_, None) => false
  end.

(** ** Enrollment tokens *)
Definition stub_VerifyEnrollment (token : string) : res EnrollGrant := Err authz_ErrForbidden.
Definition authTokenReasons (message : string) : option string :=
  if message =s "enrollment_token_expired" then Some ReasonTokenExpired
  else if message =s "enrollment_token_not_yet_valid" then Some ReasonTokenNotYetValid
  else if message =s "enrollment_token_used" then Some ReasonTokenUsed
  else if message =s "enrollment_token_invalid" then Some ReasonTokenInvalid
  else if message =s "enrollment token cannot be used" then Some ReasonTokenUsed
  else None.
Definition verifyError (e : rpc_error) : err :=
  match e with
  | Some st =>
    if negb (bool_decide (rs_Code st = RpcUnauthenticated)) then Wrapf "verify" ErrVerifierUnavailable
    else RefusalError (default ReasonTokenInvalid (authTokenReasons (rs_Message st))) []
  | None => Wrapf "verify" ErrVerifierUnavailable
  end.
Definition auth_VerifyEnrollment (n : nat) (token : string) : res EnrollGrant :=
  match verify_rpc n token with inl g => Ok g | inr e => Err (verifyError e) end.
End mesh.

(** [schedulerCaller]: the service behind a verified peer of the own trust domain. *)
Definition schedulerCaller (trustDomain : string) (peer : option SPIFFEID) (serviceName : SPIFFEID -> string) : option string :=
  match peer with
  | Some id => if sid_TrustDomain id =s trustDomain then Some (serviceName id) else None
  | None => None
  end.

(** ** Live events *)
(** What is handed to the webhooks: tenant, event and body. *)
Record Hook := mkHook { hk_Tenant : string; hk_Event : string; hk_Body : string }.
Definition hookEvent (eventType : string) : option string :=
  if eventType =s "issued" then Some EventIssued
  else if eventType =s "renewed" then Some EventRenewed
  else if eventType =s "revoked" then Some EventRevoked
  else if eventType =s "failed" then Some EventFailed
  else None.
Definition live_payload (certificateID spiffeID : string) (notAfter : Z) : list (string * string) :=
  [("certificate_id", certificateID); ("spiffe_id", spiffeID)]
  ++ (if IsZero notAfter then [] else [("not_after", Format_RFC3339 notAfter)]).
(** The body posted to a webhook; an error of the marshalling is dropped. *)
Definition hook_body (event tenantID : string) (data : list (string * any)) : string :=
  default "" (json_marshal (AMap [("event", AStr event); ("tenant", AStr tenantID); ("data", AMap data)])).
(** [hubPublisher]: the hub and the webhooks may not be wired. *)
Section publisher.
Context `{GoRuntime} (hub wh : bool) (now maxLen : Z).
Definition hub_send (tenantID typ : string) (data : list (string * any)) (m : Memory) : Memory :=
  if hub then (PublishID now maxLen tenantID [] true typ (PValue (AMap data)) false m).2 else m.
Definition hubPublisher_Publish (tenantID eventType certificateID spiffeID : string) (notAfter : Z) (m : Memory)
  : list Hook * Memory :=
  let payload := as_text <$> live_payload certificateID spiffeID notAfter in
  let m := hub_send tenantID ("certificate." +:+ eventType) payload m in
  (match hookEvent eventType with
   | Some evt => if wh then [mkHook tenantID evt (hook_body evt tenantID payload)] else []
   | None => []
   end, m).
Definition hubPublisher_PublishFailed (tenantID : string) (detail : list (string * any)) (m : Memory) : list Hook * Memory :=
  let m := hub_send tenantID "certificate.failed" detail m in
  (if wh then [mkHook tenantID EventFailed (hook_body EventFailed tenantID detail)] else [], m).
(** What the HTTP handlers send goes through it. *)
Definition hub_live (l : Live) (m : Memory) : list Hook * Memory :=
  match l with
  | Pub tenant type certificateID spiffeID notAfter => hubPublisher_Publish tenant type certificateID spiffeID notAfter m
  | PubFail tenant detail => hubPublisher_PublishFailed tenant detail m
  end.
End publisher.

(** ** The enrollment listener *)
(** The listener on its own port for workloads without an identity: the body is what
    the decoder made of the request, [None] when it failed. *)
Record Enrolled := mkEnrolled { le_cert_pem : string; le_chain_pem : string; le_bundle_pem : string }.
Section listener.
Context `{Env} `{AcmeServer} `{Enrolling}.
Definition enroll_listener (now : Z) (body : option enrollBody) (w : World) : HResponse Enrolled * World :=
  match body with
  | None => (mkResponse 422 (RReason "validation_failed"), w)
  | Some b =>
    if eb_SpiffeID b =s "" then (mkResponse 422 (RReason "validation_failed"), w)
    else if eb_EnrollmentToken b =s "" then (mkResponse 401 (RReason "unauthenticated"), w)
    else match Enroll now (ServiceSubjects "" (eb_SpiffeID b))
                 (mkEnrollInput (eb_SpiffeID b) (eb_CSRPEM b) (eb_EnrollmentToken b)) w with
         | (Err e, w') => (failDetail (enrollError e), w')
         | (Ok r, w') =>
           match er_Bundle r with
           | Some bundle =>
             if er_Status r <>s "issued" then (mkResponse 202 (RReason "pending"), w')
             else (mkResponse 200 (RJSON (mkEnrolled (b_CertPEM bundle) (b_ChainPEM bundle) (b_BundlePEM bundle))), w')
           | None => (mkResponse 202 (RReason "pending"), w')
           end
         end
  end.

(** The responses for errors are never a success. *)
Lemma refused_status {B} (e : err) : rp_Status (failDetail (B := B) (enrollError e)) <> 200.
Proof.
  unfold enrollError, domainError, invalid_detail, failDetail, Fail, WriteError, WriteDetail, http_Status.
  repeat (case_match; simplify_eq; try (cbn; done)).
Qed.

(** C16. Nobody is known on the enrollment listener, and the token alone decides: a
    request without one, or with one the auth service refuses, or that does not name
    the identity, changes nothing in the store and is never answered with a
    certificate; a certificate handed out is a new active one of the token's tenant
    for exactly the identity asked for. *)
Theorem listener_confined now body w resp w' :
  enroll_listener now body w = (resp, w') ->
  (wd_mem w' = wd_mem w /\ rp_Status resp <> 200)
  \/ exists b g, body = Some b /\ eb_EnrollmentToken b <> ""
       /\ verify_enrollment (wd_rnd w) (eb_EnrollmentToken b) = Ok g /\ eb_SpiffeID b ∈ eg_SpiffePaths g
       /\ (rp_Status resp = 200 -> cfg_AutoApprove = true
             /\ exists c sid, ParseSPIFFEID (eb_SpiffeID b) = Ok sid /\ crt_SpiffeID c = SPIFFEID_String sid
                  /\ crt_TenantID c = eg_TenantID g /\ crt_Status c = "active"
                  /\ m_Certificates (wd_mem w') = <[crt_ID c := c]> (m_Certificates (wd_mem w))).
Proof.
  unfold enroll_listener. destruct body as [b|]; [|intros; simplify_eq; by left].
  destruct (eb_SpiffeID b =s ""); [intros; simplify_eq; by left|].
  destruct (eb_EnrollmentToken b =s "") eqn:Et; [intros; simplify_eq; by left|]. bools.
  destruct (Enroll _ _ _ w) as [r w1] eqn:Ee. apply Enroll_with_token in Ee; [|exact Et]. cbn [en_EnrollmentToken en_SpiffeID] in Ee.
  destruct (verify_enrollment _ _) as [g|e] eqn:Ev.
  2: { destruct Ee as [Hr Hm]. destruct r as [er|e']; [done|]. intros; simplify_eq. left. split; [done|apply refused_status]. }
  case_decide as Hin.
  2: { destruct Ee as [Hr Hm]. destruct r as [er|e']; [done|]. intros; simplify_eq. left. split; [done|apply refused_status]. }
  intros Hres. right. exists b, g. split_and!; [done..|]. intros H200.
  destruct r as [er|e]; [|simplify_eq; by apply refused_status in H200]. specialize (Ee er eq_refl).
  destruct cfg_AutoApprove; [|destruct Ee as (_ & Hb & _); rewrite Hb in Hres; simplify_eq/=; done].
  split; [done|]. destruct Ee as (Hs & bn & c & sid & Hb & Hid & Hp & Hsp & Ht & Hst & Hm).
  exists c, sid. rewrite Hb, Hs in Hres. injection Hres as <- <-. done.
Qed.
End listener.

(** ** Sample runs *)
Module AdapterSample.
Import Toy IssueSample AcmeSample.
#[local] Existing Instance toy_env.
#[local] Existing Instance toy_server.
(** The auth service knows one token, and refuses the others. *)
#[local] Instance toy_mesh : Mesh := {|
  mesh_dial n service := true;
  challenge_rpc n method t d f v := if t =s "t1" then inl "example.org" else inr (Some (mkRpcStatus RpcUnavailable "down"));
  verify_rpc n tok := if tok =s "token" then inl (mkEnrollGrant "t1" ["spiffe://example.org/web"])
                      else if tok =s "late" then inr None
                      else inr (Some (mkRpcStatus RpcUnauthenticated "enrollment token cannot be used"));
  check_rpc n t u r a := inl (a =s "read");
|}.
#[local] Instance auth_enrolling : Enrolling := {|
  verify_enrollment := auth_VerifyEnrollment; cfg_AutoApprove := true; cfg_MaxAttempts := 3;
  format_time := FormatInt; parse_time _ := None |}.
Definition body_with (token : string) : option enrollBody := Some (mkenrollBody "spiffe://example.org/web" "" token).
Definition answered (token : string) : HResponse Enrolled * World := enroll_listener 10 (body_with token) ready.
Example replayed : (answered "again").1 = mkResponse 401 (RReason "enrollment_token_used").
Proof. vm_compute. reflexivity. Qed.
(** No verdict on a token is not a refusal. *)
Example auth_down : rp_Status (answered "late").1 = 503.
Proof. vm_compute. reflexivity. Qed.
(** A request without a CSR is answered with a certificate whose key is neither returned nor kept. *)
Example key_lost : rp_Status (answered "token").1 = 200
  /\ (crt_KeySealed <$> (map_to_list (m_Certificates (wd_mem (answered "token").2))).*2) = [None].
Proof. vm_compute. auto. Qed.
Lemma listener_confined_witness : rp_Status (answered "token").1 = 200
  /\ exists c, crt_TenantID c = "t1" /\ m_Certificates (wd_mem (answered "token").2) = <[crt_ID c := c]> (m_Certificates (wd_mem ready)).
Proof.
  assert (H200 : rp_Status (answered "token").1 = 200) by (vm_compute; reflexivity). split; [exact H200|].
  destruct (listener_confined 10 (body_with "token") ready _ _ (surjective_pairing _)) as [[_ Hn]|(b & g & Hb & _ & Hv & _ & Ho)].
  - destruct (Hn H200).
  - injection Hb as <-. injection Hv as <-. destruct (Ho H200) as (_ & c & sid & _ & _ & Ht & _ & Hc). exists c. auto.
Defined.
Example permission_cut : AuthPerms_Has true 0 "t1" "u1" "certificates:read" = true /\ AuthPerms_Has true 0 "t1" "u1" "certificates" = false.
Proof. vm_compute. auto. Qed.
Example dns_down : (lazyDNS_Present "dns" "t2" "d" "f" "v" (mkLazyW 0 false)).1 = Err (Wrapf "Unavailable" (dnschallenge "ErrUnavailable")).
Proof. vm_compute. reflexivity. Qed.
End AdapterSample.
