(* ===== verification/Client.v ===== *)
(** The client library of the workloads, sdk/pkg/lcmclient/client.go, and the stream
    it reads, Agent.Watch of internal/grpcapi/servers.go.

    A connection is a record of the calls of the generated stubs, over a state of the
    server's; [grpc_conn] is the connection to the interface of Grpc.v. *)

From S2P Require Import Prelude Rows Memstore MemstoreInv MemstoreList Authz GoJson GoUrl AuditLog Csr Sealed World Ca.
From S2P Require Import IssueBase Domains Providers Issuers Acme Lifecycle Enroll Secrets Stream Hub Identity NetIdentity Webhook.
From S2P Require Import Expiring GoTime Http HttpCerts Grpc DnsProviders Adapters.

(** ** The stream of updates *)
(** lcm.v1.CertificateUpdate. *)
Record WatchUpdate := mkWatchUpdate {
  cu_Id : string; cu_Type : string; cu_CertificateId : string; cu_SpiffeId : string; cu_NotAfter : option Z;
}.
Section watch.
Context `{GoRuntime}.
(** The payload's struct: an error of the decoder leaves all three out. *)
Definition watch_payload (data : string) : option (string * string * string) :=
  json_unmarshal data ≫= dec_struct (fun m =>
    match dec_opt dec_str "" (json_field "certificate_id" m), dec_opt dec_str "" (json_field "spiffe_id" m),
          dec_opt dec_str "" (json_field "not_after" m) with
    | Some c, Some s, Some n => Some (c, s, n)
    | _, _, _ => None
    end) ("", "", "").
Definition watch_update (ev : SEvent) : WatchUpdate :=
  match watch_payload (ev_Data ev) with
  | Some (c, s, n) => mkWatchUpdate (ev_ID ev) (ev_Type ev) c s (Parse_RFC3339 n)
  | None => mkWatchUpdate (ev_ID ev) (ev_Type ev) "" "" None
  end.
(** [Watch] up to the subscription: the tenant must be a uuid. *)
Definition watch_admits (peer : option string) (tenantID : string) : option Status :=
  match caller peer tenantID with inl _ => None | inr s => Some s end.
(** The loop on a subscription: [events] is what it delivers before it is closed,
    [fails n] the failure of the n-th send. *)
Fixpoint watch_loop (fails : nat -> bool) (n : nat) (events : list SEvent) : list WatchUpdate * bool :=
  match events with
  | [] => ([], true)
  | ev :: rest =>
    if fails n then ([], false)
    else let '(sent, ok) := watch_loop fails (S n) rest in (watch_update ev :: sent, ok)
  end.
End watch.

(** ** The client *)
Record ClientEnroll := mkClientEnroll { ce_TenantID : string; ce_SpiffeID : string; ce_CSRPEM : string; ce_EnrollmentToken : string }.
(** lcm.v1.CertificateBundle on the wire: a message may leave its certificate out. *)
Record WireBundle := mkWireBundle {
  wb_Certificate : option PCertificate; wb_CertPem : string; wb_ChainPem : string; wb_BundlePem : string; wb_KeyPem : string;
}.
Definition wire (b : CertificateBundle) : WireBundle :=
  mkWireBundle (Some (cb_Certificate b)) (cb_CertPem b) (cb_ChainPem b) (cb_BundlePem b) (cb_KeyPem b).
Record ClientBundle := mkClientBundle {
  cl_CertPEM : string; cl_ChainPEM : string; cl_BundlePEM : string; cl_KeyPEM : string;
  cl_Serial : string; cl_SpiffeID : string; cl_NotAfter : Z;
}.
Record ClientUpdate := mkUpdate { up_Type : string; up_CertificateID : string; up_SpiffeID : string; up_NotAfter : Z }.
(** [bundleFrom]: a nil message is a nil bundle; a time that is not set is the zero time. *)
Definition bundleFrom (b : option WireBundle) : option ClientBundle :=
  match b with
  | None => None
  | Some b =>
    Some (match wb_Certificate b with
          | Some c => mkClientBundle (wb_CertPem b) (wb_ChainPem b) (wb_BundlePem b) (wb_KeyPem b)
                        (pc_Serial c) (pc_SpiffeId c) (default 0 (pc_NotAfter c))
          | None => mkClientBundle (wb_CertPem b) (wb_ChainPem b) (wb_BundlePem b) (wb_KeyPem b) "" "" 0
          end)
  end.
Definition updateFrom (msg : WatchUpdate) : ClientUpdate :=
  mkUpdate (cu_Type msg) (cu_CertificateId msg) (cu_SpiffeId msg) (default 0 (cu_NotAfter msg)).

(** The generated stubs of a connection. *)
Definition Call (S A : Type) : Type := S -> (A + Status) * S.
Record LcmConn (S : Type) := mkLcmConn {
  stub_Enroll : string -> string -> string -> string -> Call S (option WireBundle);   (* tenant, identity, CSR, token *)
  stub_Issue : IssueRequest -> Call S (option WireBundle);
  stub_Renew : string -> string -> Call S (option WireBundle);
  stub_Revoke : string -> string -> string -> Call S unit;
  stub_Verify : string -> string -> Call S VerifyResponse;
  stub_GetTrustBundle : string -> string -> Call S string;
  stub_Publish : string -> list string -> bool -> string -> string -> Call S string;
}.
Arguments stub_Enroll {S} _ _ _ _ _ _.
Arguments stub_Issue {S} _ _ _.
Arguments stub_Renew {S} _ _ _ _.
Arguments stub_Revoke {S} _ _ _ _ _.
Arguments stub_Verify {S} _ _ _ _.
Arguments stub_GetTrustBundle {S} _ _ _ _.
Arguments stub_Publish {S} _ _ _ _ _ _ _.

Section client.
Context {S : Type} (c : LcmConn S).
Definition call_map {A B} (f : A -> B) (m : Call S A) : Call S B := fun s =>
  let '(r, s') := m s in (match r with inl a => inl (f a) | inr e => inr e end, s').
Definition Client_Enroll (req : ClientEnroll) : Call S (option ClientBundle) :=
  call_map bundleFrom (stub_Enroll c (ce_TenantID req) (ce_SpiffeID req) (ce_CSRPEM req) (ce_EnrollmentToken req)).
Definition Client_Issue (req : IssueRequest) : Call S (option ClientBundle) := call_map bundleFrom (stub_Issue c req).
Definition Client_RenewTenant (tenantID certID : string) : Call S (option ClientBundle) :=
  call_map bundleFrom (stub_Renew c tenantID certID).
Definition Client_Renew (certID : string) : Call S (option ClientBundle) := Client_RenewTenant "" certID.
Definition Client_RevokeTenant (tenantID certID reason : string) : Call S unit := stub_Revoke c tenantID certID reason.
Definition Client_Revoke (certID reason : string) : Call S unit := Client_RevokeTenant "" certID reason.
Definition Client_VerifyTenant (tenantID serial : string) : Call S bool := call_map vr_Valid (stub_Verify c tenantID serial).
Definition Client_Verify (serial : string) : Call S bool := Client_VerifyTenant "" serial.
Definition Client_TrustBundleTenant (tenantID trustDomain : string) : Call S string := stub_GetTrustBundle c tenantID trustDomain.
Definition Client_TrustBundle (trustDomain : string) : Call S string := Client_TrustBundleTenant "" trustDomain.
Definition Client_Publish (tenantID eventType data : string) (userIDs : list string) (all : bool) : Call S string :=
  stub_Publish c tenantID userIDs all eventType data.
End client.

(** How a stream of [Watch] ends for the client. *)
Inductive stream_end := StreamEOF | StreamError (s : Status).
(** [WatchTenant]: the messages received are handed on one by one; the end of the
    stream and of the context are no errors. *)
Definition WatchTenant {H} (handler : ClientUpdate -> H -> H) (msgs : list WatchUpdate) (last : stream_end) (ctxDone : bool) (h : H)
  : option Status * H :=
  let h := foldl (fun h m => handler (updateFrom m) h) h msgs in
  (match last with
   | StreamEOF => None
   | StreamError s => if ctxDone then None else Some s
   end, h).

(** ** The connection to the module *)
Section connection.
Context `{Env} `{AcmeServer} `{Enrolling}.
Definition rpc_wire {A B} (f : A -> B) (m : Rpc A) : Call World B := call_map f m.
(** Calls of a peer at one instant; the event log is another part of the server, so
    that publishing is left to the parameter. *)
Definition grpc_conn (now : Z) (peer : option string)
  (publish : string -> list string -> bool -> string -> string -> Call World string) : LcmConn World := {|
  stub_Enroll t id csr tok := rpc_wire (Some ∘ wire) (Enrollment_Enroll now peer t id csr tok);
  stub_Issue r := rpc_wire (Some ∘ wire) (SVID_Issue now peer r);
  stub_Renew t id := rpc_wire (Some ∘ wire) (SVID_Renew now peer t id);
  stub_Revoke t id reason := SVID_Revoke now peer t id reason;
  stub_Verify t serial := SVID_Verify now peer t "" serial;
  stub_GetTrustBundle t td := SVID_GetTrustBundle peer t td;
  stub_Publish := publish;
|}.
End connection.

(** ** Without a tenant *)
Section tenantless.
Context `{Env} `{AcmeServer} `{Enrolling}.
Definition refuses {A} (m : Call World A) : Prop :=
  forall w, exists s, m w = (inr s, w) /\ (sta_Code s = Unauthenticated \/ sta_Code s = InvalidArgument).
Lemma serve_refuses {A B} peer (k : Subjects -> M A) (out : A -> B + Status) : refuses (serve peer "" k out).
Proof. intros w. unfold serve, caller. destruct peer as [id|]; cbn; eauto. Qed.
Lemma map_refuses {A B} (f : A -> B) (m : Call World A) : refuses m -> refuses (call_map f m).
Proof. intros Hm w. destruct (Hm w) as (s & Hs & Hc). exists s. unfold call_map. by rewrite Hs. Qed.
(** The calls of the client that take no tenant are never answered: the module
    does not derive the tenant from the verified identity, so that each of them is
    refused whatever its arguments and changes nothing. *)
Theorem tenantless_refused now peer publish :
  let c := grpc_conn now peer publish in
  (forall id, refuses (Client_Renew c id)) /\ (forall id reason, refuses (Client_Revoke c id reason))
  /\ (forall serial, refuses (Client_Verify c serial)) /\ (forall td, refuses (Client_TrustBundle c td)).
Proof.
  split_and!; intros; repeat apply map_refuses; apply serve_refuses.
Qed.
End tenantless.

(** ** What a watcher learns *)
Section watched.
Context `{GoRuntime}.
Lemma whole_seconds t : t / Second * Second / Second = t / Second /\ (t / Second * Second) mod Second = 0.
Proof. split; [by apply Z.div_mul|by apply Z.mod_mul]. Qed.
Lemma RFC3339_back t : 0 <= year_of t <= 9999 -> Parse_RFC3339 (Format_RFC3339 t) = Some (t / Second * Second).
Proof.
  destruct (whole_seconds t) as [Hd Hm]. intros Hy.
  assert (He : Format_RFC3339 t = Format_RFC3339Nano (t / Second * Second)).
  { unfold Format_RFC3339, Format_RFC3339Nano. rewrite Hd, Hm. by destruct (civil _) as [[y m] d]. }
  rewrite He. apply RFC3339Nano_back. unfold year_of in *. by rewrite Hd.
Qed.
Lemma ascii_digits c : is_digit c = true -> is_ascii_byte c = true.
Proof. intros Hc%is_digit_range. unfold is_ascii_byte. lia. Qed.
Lemma ascii_append_int w z : string_forallb is_ascii_byte (append_int w z) = true.
Proof.
  unfold append_int. rewrite forallb_app. apply andb_true_iff. split; [by case_match|].
  induction (seq _ _) as [|x l IH]; [|exact IH]. unfold FormatInt, foldr.
  assert (Hd : string_forallb is_ascii_byte (digits 40 (Z.abs z) "") = true).
  { apply digits_forallb; [apply ascii_digits|lia|done]. }
  rewrite (proj2 (Z.ltb_ge (Z.abs z) 0)) by lia. exact Hd.
Qed.
Lemma ascii_date t : string_forallb is_ascii_byte (Format_RFC3339 t) = true.
Proof.
  unfold Format_RFC3339. destruct (civil _) as [[y m] d]. by rewrite !forallb_app, !ascii_append_int.
Qed.
(** The member of a key that occurs once. *)
Lemma json_field_once name (l l' : list (string * string)) v :
  l' ≡ₚ l -> List.filter (fun kv => EqualFold kv.1 name) l = [(name, v)] -> json_field name (as_text <$> l') = Some (AStr v).
Proof.
  intros Hp Hf. unfold json_field.
  assert (Hl : List.filter (fun kv => EqualFold kv.1 name) (as_text <$> l') = as_text <$> List.filter (fun kv => EqualFold kv.1 name) l').
  { clear. induction l' as [|x l' IH]; [done|]. cbn. destruct (EqualFold x.1 name); cbn; by rewrite IH. }
  assert (Hq : List.filter (fun kv => EqualFold kv.1 name) l' ≡ₚ [(name, v)]).
  { rewrite <- Hf. clear - Hp. induction Hp; cbn; repeat case_match; eauto using Permutation. }
  apply Permutation_singleton_r in Hq. by rewrite Hl, Hq.
Qed.
Lemma json_field_none name (l l' : list (string * string)) :
  l' ≡ₚ l -> List.filter (fun kv => EqualFold kv.1 name) l = [] -> json_field name (as_text <$> l') = None.
Proof.
  intros Hp Hf. unfold json_field.
  replace (List.filter _ (as_text <$> l')) with ([] : list (string * any)); [done|].
  assert (Hn : Forall (fun kv : string * string => EqualFold kv.1 name = false) l').
  { rewrite Hp. clear Hp. induction l as [|x l IH]; constructor; cbn in Hf; destruct (EqualFold x.1 name); done || auto. }
  clear Hp Hf. induction Hn as [|x l' Hx Hn IH]; [done|]. cbn. by rewrite Hx.
Qed.
(** The zero time is sent as no time, and the others to the second. *)
Definition sent_time (notAfter : Z) : Z := if IsZero notAfter then 0 else notAfter / Second * Second.
Lemma payload_back certificateID spiffeID notAfter raw :
  utf8_valid certificateID = true -> utf8_valid spiffeID = true -> 0 <= year_of notAfter <= 9999 ->
  json_marshal (AMap (as_text <$> live_payload certificateID spiffeID notAfter)) = Some raw ->
  exists n, watch_payload raw = Some (certificateID, spiffeID, n) /\ default 0 (Parse_RFC3339 n) = sent_time notAfter.
Proof.
  intros Hc Hs Hy Hm. destruct (object_marshal (live_payload certificateID spiffeID notAfter)) as (l' & Hp & Hj).
  rewrite Hm in Hj. injection Hj as ->. unfold watch_payload.
  assert (Hplain : Forall plain_member (live_payload certificateID spiffeID notAfter)).
  { unfold live_payload. apply Forall_app. split; [by repeat constructor|]. destruct (IsZero notAfter); [constructor|].
    repeat constructor; cbn. apply utf8_valid_ascii, ascii_date. }
  assert (Hnd : NoDup (live_payload certificateID spiffeID notAfter).*1).
  { unfold live_payload. destruct (IsZero notAfter); cbn; apply NoDup_ListNoDup; repeat constructor; cbn; intuition congruence. }
  rewrite object_unmarshal; [|by rewrite Hp|by rewrite Hp].
  cbn [mbind option_bind dec_struct].
  unfold live_payload, sent_time in *. destruct (IsZero notAfter) eqn:Ez.
  - rewrite (json_field_once "certificate_id" _ l' certificateID Hp eq_refl), (json_field_once "spiffe_id" _ l' spiffeID Hp eq_refl),
      (json_field_none "not_after" _ l' Hp eq_refl). exists "". by split.
  - rewrite (json_field_once "certificate_id" _ l' certificateID Hp eq_refl), (json_field_once "spiffe_id" _ l' spiffeID Hp eq_refl),
      (json_field_once "not_after" _ l' _ Hp eq_refl). eexists. split; [reflexivity|]. by rewrite RFC3339_back.
Qed.
(** An event the publisher puts on a tenant's stream reaches a watcher as it was
    meant: addressed to everybody, with its type in the module's name space, the
    certificate and the identity, and the end of validity to the second, through the
    JSON of the event and the text of the time. *)
Theorem live_update_back wh now maxLen tenantID eventType certificateID spiffeID notAfter user m id :
  utf8_valid certificateID = true -> utf8_valid spiffeID = true -> 0 <= year_of notAfter <= 9999 ->
  (PublishID now maxLen tenantID [] true ("certificate." +:+ eventType)
     (PValue (AMap (as_text <$> live_payload certificateID spiffeID notAfter))) false m).1 = Ok id ->
  exists e, last (entries (Key tenantID) (hubPublisher_Publish true wh now maxLen tenantID eventType certificateID spiffeID notAfter m).2) = Some e
    /\ e_ID e = id /\ targets (field e "to") user = true
    /\ updateFrom (watch_update (event_of e))
       = mkUpdate ("certificate." +:+ eventType) certificateID spiffeID (sent_time notAfter).
Proof.
  intros Hc Hs Hy Hid. unfold hubPublisher_Publish, hub_send. cbv zeta. cbn [snd].
  destruct (PublishID _ _ _ _ _ _ _ _ _) as [r m'] eqn:Ep. cbn [fst] in Hid. subst r. cbn [snd].
  unfold PublishID in Ep. destruct (ValidateType _ _); [|done]. cbn [length] in Ep. cbn [payload_text] in Ep.
  destruct (_ || _); [done|]. destruct (json_marshal _) as [raw|] eqn:Ej in Ep; [|done].
  destruct (_ || _); [done|]. cbn [target_of] in Ep. apply XAdd_entries in Ep as [[n Hn] _].
  eexists. split; [rewrite Hn; apply last_snoc|]. split; [done|]. split; [done|].
  destruct (payload_back _ _ _ _ Hc Hs Hy Ej) as (t & Hw & Ht).
  unfold updateFrom, watch_update, event_of, field. cbn [ev_Data ev_Type ev_ID e_Fields e_ID].
  set (fields := list_to_map _ : gmap string string).
  assert (Hf : fields !! "data" = Some raw /\ fields !! "type" = Some ("certificate." +:+ eventType)) by done.
  destruct Hf as [-> ->]. simpl. rewrite Hw. simpl. by rewrite Ht.
Qed.
End watched.

Module ClientSample.
#[local] Existing Instance std_runtime.
Definition expiry : Z := unix_epoch + 1709251199120000000.
Definition sent : list Hook * Memory :=
  hubPublisher_Publish true true (unix_epoch + 5 * Second) 100 "t1" "renewed" "c1" "spiffe://example.org/web" expiry NewMemory.
Example hook_sent : (hk_Event <$> sent.1) = ["certificate.renewed"].
Proof. vm_compute. reflexivity. Qed.
Lemma live_update_back_witness : exists e,
  last (entries (Key "t1") sent.2) = Some e
  /\ updateFrom (watch_update (event_of e)) = mkUpdate "certificate.renewed" "c1" "spiffe://example.org/web" (expiry - 120000000).
Proof.
  destruct (live_update_back true (unix_epoch + 5 * Second) 100 "t1" "renewed" "c1" "spiffe://example.org/web" expiry "ops" NewMemory
              (ID (unix_epoch + 5 * Second) 1)) as (e & Hl & _ & _ & Hu).
  - reflexivity.
  - reflexivity.
  - vm_compute. split; discriminate.
  - vm_compute. reflexivity.
  - exists e. split; [exact Hl|exact Hu].
Defined.
End ClientSample.
