(* ===== verification/Agent.v ===== *)
(** The agent that keeps a workload's certificate on disk:
    sdk/pkg/lcmclient/agent.go and cmd/lcm-agent.

    The directory it writes to is a map from names to files; every state it goes
    through is kept, as another process may look at any moment.  The class [Os] says
    which system calls fail. *)

From S2P Require Import Prelude Rows Memstore MemstoreInv MemstoreList Authz GoJson GoUrl AuditLog Csr Sealed World Ca.
From S2P Require Import IssueBase Domains Providers Issuers Acme Lifecycle Enroll Secrets Stream Hub Identity NetIdentity Webhook.
From S2P Require Import Expiring GoTime Http HttpCerts Grpc Adapters Client.

(** ** Files *)
Record File := mkFile { fl_data : string; fl_mode : Z }.
Abbreviation Files := (gmap string File).
Class Os := {
  os_fails : nat -> bool;          (* the n-th system call fails *)
  os_partial : nat -> nat;         (* the bytes a write that fails got to the file *)
  os_random : nat -> string;       (* the random part of a temporary name *)
}.
Record FsW := mkFsW { fs_n : nat; fs_files : Files; fs_seen : list Files }.
Definition certFile : string := "tls.crt".
Definition keyFile : string := "tls.key".
Definition chainFile : string := "chain.pem".
Definition bundleFile : string := "bundle.pem".
Definition mode_600 : Z := 384.
Definition mode_644 : Z := 420.
Record AgentConfig := mkAgentConfig {
  ag_WriteDir : string; ag_SpiffeID : string; ag_TenantID : string; ag_Token : string; ag_RenewBefore : Z;
}.
(** One file to write: name, data and mode. *)
Record FileWrite := mkFileWrite { fw_name : string; fw_data : string; fw_mode : Z }.

Section fs.
Context `{Os}.
Definition fs_reach (files : Files) (w : FsW) : FsW := mkFsW (S (fs_n w)) files (fs_seen w ++ [files]).
(** One system call, what it does and what it did when it fails. *)
Definition sys (ok failed : nat -> Files -> Files) : ST FsW unit := fun w =>
  if os_fails (fs_n w) then (Err (Opaque "os"), fs_reach (failed (fs_n w) (fs_files w)) w)
  else (Ok tt, fs_reach (ok (fs_n w) (fs_files w)) w).
Definition unchanged (n : nat) (files : Files) : Files := files.
Definition temp_name (base : string) (random : string) : string := "." +:+ base +:+ "." +:+ random.
(** [os.CreateTemp]: a new file of mode 0600; a name in use is drawn again, 10000 times at most. *)
Fixpoint CreateTemp (tries : nat) (base : string) : ST FsW string := fun w =>
  let name := temp_name base (os_random (fs_n w)) in
  if os_fails (fs_n w) then (Err (Opaque "os"), fs_reach (fs_files w) w)
  else match fs_files w !! name with
  | None => (Ok name, fs_reach (<[name := mkFile "" mode_600]> (fs_files w)) w)
  | Some _ => match tries with
              | O => (Err (Opaque "os"), fs_reach (fs_files w) w)
              | S tries => CreateTemp tries base (fs_reach (fs_files w) w)
              end
  end.
Definition set_data (name data : string) (files : Files) : Files := alter (fun f => mkFile data (fl_mode f)) name files.
Definition set_mode (name : string) (mode : Z) (files : Files) : Files := alter (fun f => mkFile (fl_data f) mode) name files.
Definition rename (from to : string) (files : Files) : Files :=
  match files !! from with Some f => <[to := f]> (delete from files) | None => files end.
Definition temp_tries : nat := Z.to_nat 9999.
(** The temporary file filled, given its mode, synced, closed and renamed. *)
Definition fill_and_rename (fw : FileWrite) (tmp : string) : ST FsW unit :=
  let* _ := sys (fun _ => set_data tmp (fw_data fw)) (fun n => set_data tmp (String.substring 0 (os_partial n) (fw_data fw))) in
  let* _ := sys (fun _ => set_mode tmp (fw_mode fw)) unchanged in
  let* _ := sys unchanged unchanged in
  let* _ := sys unchanged unchanged in
  sys (fun _ => rename tmp (fw_name fw)) unchanged.
(** The file is removed at the end whatever happened, which does nothing once it was renamed. *)
Definition atomicWrite (fw : FileWrite) : ST FsW unit := fun w =>
  match CreateTemp temp_tries (fw_name fw) w with
  | (Err e, w) => (Err e, w)
  | (Ok tmp, w) =>
    let '(r, w) := fill_and_rename fw tmp w in
    (r, (sys (fun _ => delete tmp) unchanged w).2)
  end.
Definition bundle_writes (b : ClientBundle) : list FileWrite :=
  List.filter (fun fw => fw_data fw <>s "")
    ([mkFileWrite certFile (cl_CertPEM b) mode_644; mkFileWrite chainFile (cl_ChainPEM b) mode_644;
      mkFileWrite bundleFile (cl_BundlePEM b) mode_644]
     ++ (if cl_KeyPEM b <>s "" then [mkFileWrite keyFile (cl_KeyPEM b) mode_600] else [])).
Fixpoint write_all (l : list FileWrite) : ST FsW unit :=
  match l with
  | [] => st_ret tt
  | fw :: l' => let* _ := atomicWrite fw in write_all l'
  end.
Definition materialize (cfg : AgentConfig) (b : option ClientBundle) : ST FsW unit :=
  match b with
  | None => st_err (Opaque "lcmclient: nil bundle")
  | Some b =>
    if ag_WriteDir cfg =s "" then st_err (Opaque "lcmclient: empty WriteDir")
    else let* _ := sys unchanged unchanged in                         (* MkdirAll *)
         write_all (bundle_writes b)
  end.
End fs.

(** ** The loop *)
Definition minWait : Z := 5 * Second.
Definition untilRenew (now notAfter renewBefore : Z) : Z :=
  if IsZero notAfter then renewBefore
  else let d := wrap64 (time_sub notAfter now - renewBefore) in
       if d <? minWait then minWait else d.
(** The updates that make the agent renew. *)
Definition wants (cfg : AgentConfig) (u : ClientUpdate) : bool :=
  if (up_SpiffeID u <>s "") && (ag_SpiffeID cfg <>s "") && (up_SpiffeID u <>s ag_SpiffeID cfg) then false
  else (up_Type u =s "renewed") || (up_Type u =s "revoked") || (up_Type u =s "issued").
(** The waits of [watchLoop]: how long after a stream that ended, cleanly or not, and
    the backoff of the next round. *)
Definition agent_baseBackoff : Z := 500000000.
Definition agent_maxBackoff : Z := 30 * Second.
Definition watch_wait (clean : bool) (backoff : Z) : Z * Z :=
  let backoff := if clean then agent_baseBackoff else backoff in
  (backoff, if backoff <? agent_maxBackoff then (if agent_maxBackoff <? backoff * 2 then agent_maxBackoff else backoff * 2) else backoff).
Fixpoint watch_waits (backoff : Z) (ends : list bool) : list Z :=
  match ends with
  | [] => []
  | clean :: ends => let '(wait, next) := watch_wait clean backoff in wait :: watch_waits next ends
  end.

Section loop.
Context `{Os} {S : Type} (conn : Z -> LcmConn S) (cfg : AgentConfig).
Record AgentW := mkAgentW {
  aw_srv : S; aw_fs : FsW; aw_cert : string; aw_notAfter : Z; aw_trigger : bool; aw_timer : Z;
}.
Definition renew_before : Z := if ag_RenewBefore cfg <=? 0 then 3600 * Second else ag_RenewBefore cfg.
(** The initial enrollment; [None] is the error it returns with. *)
Definition RunAgent_start (now : Z) (s : S) (fs : FsW) : option AgentW * S * FsW :=
  match Client_Enroll (conn now) (mkClientEnroll (ag_TenantID cfg) (ag_SpiffeID cfg) "" (ag_Token cfg)) s with
  | (inr _, s) => (None, s, fs)
  | (inl b, s) =>
    match materialize cfg b fs, b with
    | (Ok _, fs), Some b =>
      (Some (mkAgentW s fs (cl_Serial b) (cl_NotAfter b) false (now + untilRenew now (cl_NotAfter b) renew_before)), s, fs)
    | (_, fs), _ => (None, s, fs)
    end
  end.
Definition agent_renew (now : Z) (a : AgentW) : AgentW :=
  if aw_cert a =s "" then a
  else match Client_RenewTenant (conn now) (ag_TenantID cfg) (aw_cert a) (aw_srv a) with
  | (inr _, s) => mkAgentW s (aw_fs a) (aw_cert a) (aw_notAfter a) (aw_trigger a) (aw_timer a)
  | (inl nb, s) =>
    match materialize cfg nb (aw_fs a), nb with
    | (Ok _, fs), Some nb =>
      mkAgentW s fs (if cl_Serial nb <>s "" then cl_Serial nb else aw_cert a) (cl_NotAfter nb) (aw_trigger a) (aw_timer a)
    | (_, fs), _ => mkAgentW s fs (aw_cert a) (aw_notAfter a) (aw_trigger a) (aw_timer a)
    end
  end.
Definition reschedule (now : Z) (a : AgentW) : AgentW :=
  mkAgentW (aw_srv a) (aw_fs a) (aw_cert a) (aw_notAfter a) (aw_trigger a) (now + untilRenew now (aw_notAfter a) renew_before).
(** What happens to a running agent: its timer fires, a poke is taken, the stream
    brings an update, or others use the server.  A renewal starts and ends at the two
    instants. *)
Inductive agent_event := AgTimer (now later : Z) | AgTrigger (now later : Z) | AgUpdate (u : ClientUpdate) | AgServer (s : S).
Definition agent_step (ev : agent_event) (a : AgentW) : option AgentW :=
  match ev with
  | AgTimer now later => if aw_timer a <=? now then Some (reschedule later (agent_renew now a)) else None
  | AgTrigger now later =>
    if aw_trigger a
    then Some (reschedule later (agent_renew now
                 (mkAgentW (aw_srv a) (aw_fs a) (aw_cert a) (aw_notAfter a) false (aw_timer a))))
    else None
  | AgUpdate u =>
    Some (mkAgentW (aw_srv a) (aw_fs a) (aw_cert a) (aw_notAfter a) (aw_trigger a || wants cfg u) (aw_timer a))
  | AgServer s => Some (mkAgentW s (aw_fs a) (aw_cert a) (aw_notAfter a) (aw_trigger a) (aw_timer a))
  end.
Fixpoint agent_run (evs : list agent_event) (a : AgentW) : option AgentW :=
  match evs with
  | [] => Some a
  | ev :: evs => match agent_step ev a with Some a' => agent_run evs a' | None => None end
  end.
End loop.
Arguments AgTimer {S} now later.
Arguments AgTrigger {S} now later.
Arguments AgUpdate {S} u.
Arguments AgServer {S} s.

(** ** cmd/lcm-agent *)
Record options := mkOptions {
  o_server : string; o_spiffeID : string; o_tenant : string; o_token : string; o_dir : string; o_renewBefore : Z;
  o_identityCert : string; o_identityKey : string; o_identityBundle : string;
}.
(** The flags that must be given and were not. *)
Definition missing_flags (o : options) : list string :=
  (if o_server o =s "" then ["-server"] else []) ++ (if o_spiffeID o =s "" then ["-spiffe-id"] else [])
  ++ (if o_tenant o =s "" then ["-tenant"] else []) ++ (if o_dir o =s "" then ["-dir"] else []).
(** The transport of the dial: mutual TLS with the file identity, or none. *)
Inductive transport := MutualTLS | NoTLS.
Definition dial_transport (keypair : string -> string -> bool) (roots : string -> option bool) (o : options) : option transport :=
  if (o_identityCert o <>s "") && (o_identityKey o <>s "") && (o_identityBundle o <>s "") then
    if negb (keypair (o_identityCert o) (o_identityKey o)) then None
    else match roots (o_identityBundle o) with Some true => Some MutualTLS | _ => None end
  else Some NoTLS.
Definition agent_config (o : options) : AgentConfig :=
  mkAgentConfig (o_dir o) (o_spiffeID o) (o_tenant o) (o_token o) (o_renewBefore o).

(** ** What a reader of the directory sees *)

(** The names readers do not look at. *)
Definition is_temp (name : string) : bool := match name with String c _ => byte_of c =? 46 | EmptyString => false end.
Definition part_of (p s : string) : Prop := exists n, p = String.substring 0 n s.
(** A state of the directory while files are being written: every file is an old one,
    or a new one complete and with its mode, or a temporary one, which holds part of a
    new one and is private unless that one is not; and no file has gone. *)
Record appears (old : Files) (ws : list FileWrite) (st : Files) : Prop := {
  appears_files name f : st !! name = Some f ->
    old !! name = Some f
    \/ (exists fw, fw ∈ ws /\ name = fw_name fw /\ f = mkFile (fw_data fw) (fw_mode fw))
    \/ (is_temp name = true /\ exists fw, fw ∈ ws /\ part_of (fl_data f) (fw_data fw) /\ (fl_mode f = mode_600 \/ fl_mode f = fw_mode fw));
  appears_kept name f : old !! name = Some f -> is_temp name = false -> is_Some (st !! name);
}.
(** The names being written are not temporary ones. *)
Definition proper (ws : list FileWrite) : Prop := Forall (fun fw => is_temp (fw_name fw) = false) ws.

Lemma appears_refl old ws : appears old ws old.
Proof. split; eauto. Qed.
Lemma appears_mono old ws ws' st : ws ⊆ ws' -> appears old ws st -> appears old ws' st.
Proof.
  intros Hs [Hf Hk]. split; [|done]. intros name f Hn. destruct (Hf _ _ Hn) as [?|[(fw & ? & ?)|(? & fw & ? & ?)]]; [auto|right; left|right; right];
    [exists fw|split; [done|exists fw]]; auto.
Qed.
Lemma appears_trans old ws mid st : appears old ws mid -> appears mid ws st -> appears old ws st.
Proof.
  intros [Hf Hk] [Hf' Hk']. split.
  - intros name f Hn. destruct (Hf' _ _ Hn) as [Hm|Hr]; [by apply Hf|by right].
  - intros name f Hn Ht. destruct (Hk _ _ Hn Ht) as [g Hg]. eauto.
Qed.
Lemma part_whole s : part_of s s.
Proof. exists (String.length s). symmetry. by apply substring_all. Qed.
Lemma part_empty s : part_of "" s.
Proof. exists 0%nat. by destruct s. Qed.

Section appears.
Context `{Os}.
(** Going from [w] to [w'] readers saw only such states, and the last one is such. *)
Definition shows (ws : list FileWrite) (w w' : FsW) : Prop :=
  exists seen, fs_seen w' = fs_seen w ++ seen /\ Forall (appears (fs_files w) ws) seen /\ appears (fs_files w) ws (fs_files w').
Lemma shows_refl ws w : shows ws w w.
Proof. exists []. rewrite app_nil_r. split_and!; [done|constructor|apply appears_refl]. Qed.
Lemma shows_trans ws w w1 w2 : shows ws w w1 -> shows ws w1 w2 -> shows ws w w2.
Proof.
  intros (s1 & E1 & F1 & V1) (s2 & E2 & F2 & V2). exists (s1 ++ s2). rewrite E2, E1, (assoc (++)). split_and!; [done| |by eapply appears_trans].
  apply Forall_app. split; [done|]. eapply Forall_impl; [exact F2|]. intros st. by apply appears_trans.
Qed.
Lemma shows_mono ws ws' w w' : ws ⊆ ws' -> shows ws w w' -> shows ws' w w'.
Proof.
  intros Hs (seen & E & F & V). exists seen. split_and!; [done| |by eapply appears_mono].
  eapply Forall_impl; [exact F|]. intros st. by apply appears_mono.
Qed.
Lemma shows_reach ws w files : appears (fs_files w) ws files -> shows ws w (fs_reach files w).
Proof. intros Hv. exists [files]. split_and!; [done|by apply Forall_singleton|done]. Qed.
Lemma sys_shows ws ok failed w r w' : sys ok failed w = (r, w') ->
  appears (fs_files w) ws (ok (fs_n w) (fs_files w)) -> appears (fs_files w) ws (failed (fs_n w) (fs_files w)) -> shows ws w w'.
Proof. unfold sys. case_match; intros; simplify_eq; by apply shows_reach. Qed.
Lemma sys_unchanged ws w r w' : sys unchanged unchanged w = (r, w') -> shows ws w w' /\ fs_files w' = fs_files w.
Proof.
  intros Hs. split; [eapply sys_shows; [exact Hs|apply appears_refl..]|]. unfold sys in Hs. by case_match; simplify_eq.
Qed.

(** Steps on the temporary file. *)
Lemma appears_tmp st ws tmp f fw : is_temp tmp = true -> fw ∈ ws -> part_of (fl_data f) (fw_data fw) ->
  fl_mode f = mode_600 \/ fl_mode f = fw_mode fw -> appears st ws (<[tmp := f]> st).
Proof.
  intros Ht Hin Hp Hm. split.
  - intros name g. destruct (decide (name = tmp)) as [->|Hne]; [rewrite lookup_insert_eq|rewrite lookup_insert_ne by done; auto].
    intros [= <-]. right. right. split; [done|]. exists fw. done.
  - intros name g Hn Hnt. rewrite lookup_insert_ne by congruence. eauto.
Qed.
Lemma appears_delete st ws tmp : is_temp tmp = true -> appears st ws (delete tmp st).
Proof.
  intros Ht. split.
  - intros name f [_ Hn]%lookup_delete_Some. auto.
  - intros name f Hn Hnt. rewrite lookup_delete_ne by congruence. eauto.
Qed.
Lemma appears_rename st ws tmp fw : is_temp tmp = true -> fw ∈ ws -> st !! tmp = Some (mkFile (fw_data fw) (fw_mode fw)) ->
  appears st ws (rename tmp (fw_name fw) st).
Proof.
  intros Ht Hin Hf. unfold rename. rewrite Hf. split.
  - intros name f. destruct (decide (name = fw_name fw)) as [->|Hne].
    + rewrite lookup_insert_eq. intros [= <-]. right. left. eauto.
    + rewrite lookup_insert_ne by done. intros [_ Hn]%lookup_delete_Some. auto.
  - intros name f Hn Hnt. destruct (decide (name = fw_name fw)) as [->|Hne]; [rewrite lookup_insert_eq; eauto|].
    rewrite lookup_insert_ne, lookup_delete_ne by congruence. eauto.
Qed.
(** Nothing readers look at changed. *)
Definition calm (w w' : FsW) : Prop := forall name, is_temp name = false -> fs_files w' !! name = fs_files w !! name.
Lemma calm_same w w' : fs_files w' = fs_files w -> calm w w'.
Proof. intros He name _. by rewrite He. Qed.
Lemma calm_trans w w1 w2 : calm w w1 -> calm w1 w2 -> calm w w2.
Proof. intros H1 H2 name Ht. by rewrite H2, H1. Qed.

Lemma CreateTemp_ok tries fw ws w r w' : fw ∈ ws -> CreateTemp tries (fw_name fw) w = (r, w') ->
  shows ws w w' /\ calm w w' /\ forall tmp, r = Ok tmp -> is_temp tmp = true /\ fs_files w' !! tmp = Some (mkFile "" mode_600).
Proof.
  intros Hin. assert (Hstay : forall w, shows ws w (fs_reach (fs_files w) w) /\ calm w (fs_reach (fs_files w) w)).
  { intros w0. split; [apply shows_reach, appears_refl|done]. }
  revert w. induction tries as [|tries IH]; intros w; cbn [CreateTemp]; set (tmp := temp_name _ _).
  all: assert (Ht : is_temp tmp = true) by done; destruct (Hstay w) as [Hs Hc].
  all: destruct (os_fails _); [intros; simplify_eq; done|].
  all: destruct (fs_files w !! tmp) eqn:Ef.
  2, 4: intros [= <- <-]; split_and!; [apply shows_reach, (appears_tmp _ _ _ _ fw); auto using part_empty|
         intros n Hn; cbn; rewrite lookup_insert_ne by congruence; done|intros ? [= <-]; cbn; rewrite lookup_insert_eq; done].
  - intros; simplify_eq. done.
  - intros (Hs' & Hc' & Ho)%IH. split_and!; [by eapply shows_trans|by eapply calm_trans|done].
Qed.
Lemma sys_tmp ws fw tmp (g gf : nat -> File -> File) w f r w' :
  is_temp tmp = true -> fw ∈ ws -> fs_files w !! tmp = Some f ->
  (forall n, part_of (fl_data (g n f)) (fw_data fw) /\ (fl_mode (g n f) = mode_600 \/ fl_mode (g n f) = fw_mode fw)) ->
  (forall n, part_of (fl_data (gf n f)) (fw_data fw) /\ (fl_mode (gf n f) = mode_600 \/ fl_mode (gf n f) = fw_mode fw)) ->
  sys (fun n => alter (g n) tmp) (fun n => alter (gf n) tmp) w = (r, w') ->
  shows ws w w' /\ calm w w' /\ (r = Ok tt -> fs_files w' !! tmp = Some (g (fs_n w) f)).
Proof.
  intros Ht Hin Hf Hg Hgf Hs.
  assert (Ha : forall h : File -> File, alter h tmp (fs_files w) = <[tmp := h f]> (fs_files w)).
  { intros h. apply map_eq. intros n. destruct (decide (n = tmp)) as [->|Hn]; [by rewrite lookup_alter_eq, Hf, lookup_insert_eq|].
    by rewrite lookup_alter_ne, lookup_insert_ne. }
  split_and!.
  - eapply sys_shows; [exact Hs|cbn; rewrite Ha..]; eapply appears_tmp; naive_solver.
  - intros n Hn. unfold sys in Hs. case_match; simplify_eq; cbn; rewrite Ha, lookup_insert_ne by congruence; done.
  - intros ->. unfold sys in Hs. case_match; simplify_eq. cbn. by rewrite Ha, lookup_insert_eq.
Qed.
(** The outcome of writing one file: what readers saw, and that the file is the new
    one exactly when no error is returned; the others are as they were. *)
Definition written (ws : list FileWrite) (fw : FileWrite) (w : FsW) (r : res unit) (w' : FsW) : Prop :=
  shows ws w w'
  /\ forall name, is_temp name = false ->
       fs_files w' !! name = if is_ok r && (name =s fw_name fw) then Some (mkFile (fw_data fw) (fw_mode fw)) else fs_files w !! name.
Lemma written_calm ws fw w e w' : shows ws w w' -> calm w w' -> written ws fw w (Err e) w'.
Proof. intros Hs Hc. split; [done|]. intros name Ht. by apply Hc. Qed.
Lemma written_before ws fw w w1 r w' : shows ws w w1 -> calm w w1 -> written ws fw w1 r w' -> written ws fw w r w'.
Proof.
  intros Hs Hc [Hs' Hw]. split; [by eapply shows_trans|]. intros name Ht. rewrite Hw by done. case_match; [done|by apply Hc].
Qed.
Lemma sys_opaque ok failed w r w' : sys ok failed w = (r, w') -> r = Ok tt \/ r = Err (Opaque "os").
Proof. unfold sys. case_match; intros; simplify_eq; auto. Qed.
(** An error of a call ends the sequence. *)
Lemma sys_bind {B} ok failed (k : unit -> ST FsW B) w r w' : st_bind (sys ok failed) k w = (r, w') ->
  (exists w1, sys ok failed w = (Ok tt, w1) /\ k tt w1 = (r, w')) \/ (exists e, r = Err e /\ sys ok failed w = (Err e, w')).
Proof.
  unfold st_bind. destruct (sys ok failed w) as [[[]|e] w1] eqn:Es; intros Hr; [left; eauto|right]. simplify_eq. eauto.
Qed.
Lemma fill_written ws fw tmp w r w' : is_temp (fw_name fw) = false -> is_temp tmp = true -> fw ∈ ws ->
  fs_files w !! tmp = Some (mkFile "" mode_600) -> fill_and_rename fw tmp w = (r, w') -> written ws fw w r w'.
Proof.
  intros Hn Ht Hin Hf. unfold fill_and_rename. intros [(w1 & H1 & Hr)|(e & -> & H1)]%sys_bind;
    (apply (sys_tmp ws fw tmp (fun _ f => mkFile (fw_data fw) (fl_mode f))
              (fun n f => mkFile (String.substring 0 (os_partial n) (fw_data fw)) (fl_mode f)) w (mkFile "" mode_600)) in H1
       as (Hs1 & Hc1 & Hf1); [|done|done|done|cbn; eauto using part_whole|cbn; intros n; split; [by exists (os_partial n)|auto]]);
    [|by apply written_calm].
  eapply written_before; [exact Hs1|exact Hc1|]. specialize (Hf1 eq_refl). cbn in Hf1.
  apply sys_bind in Hr as [(w2 & H2 & Hr)|(e & -> & H2)].
  2: { unfold sys in H2. case_match; [|done]. simplify_eq. apply written_calm; [apply shows_reach, appears_refl|done]. }
  assert (H2' := H2). unfold sys in H2'. case_match; [done|]. simplify_eq.
  set (w2 := fs_reach _ w1) in *.
  assert (Hf2 : fs_files w2 !! tmp = Some (mkFile (fw_data fw) (fw_mode fw))) by (cbn; unfold set_mode; by rewrite lookup_alter_eq, Hf1).
  assert (Hs2 : shows ws w1 w2 /\ calm w1 w2).
  { split.
    - apply shows_reach. unfold set_mode.
      replace (alter _ tmp _) with (<[tmp := mkFile (fw_data fw) (fw_mode fw)]> (fs_files w1)).
      + apply (appears_tmp _ _ _ _ fw); cbn; auto using part_whole.
      + apply map_eq. intros n. destruct (decide (n = tmp)) as [->|]; [by rewrite lookup_alter_eq, Hf1, lookup_insert_eq|].
        by rewrite lookup_alter_ne, lookup_insert_ne.
    - intros n Hn'. cbn. unfold set_mode. by rewrite lookup_alter_ne by congruence. }
  destruct Hs2 as [Hs2 Hc2]. eapply written_before; [exact Hs2|exact Hc2|]. clearbody w2. clear H2.
  apply sys_bind in Hr as [(w3 & [Hs3 He3]%(sys_unchanged ws) & Hr)|(e & -> & [Hs3 He3]%(sys_unchanged ws))];
    [|by apply written_calm; [|apply calm_same]].
  eapply written_before; [exact Hs3|by apply calm_same|].
  apply sys_bind in Hr as [(w4 & [Hs4 He4]%(sys_unchanged ws) & Hr)|(e & -> & [Hs4 He4]%(sys_unchanged ws))];
    [|by apply written_calm; [|apply calm_same]].
  eapply written_before; [exact Hs4|by apply calm_same|]. rewrite <- He3, <- He4 in Hf2.
  unfold sys in Hr. case_match; simplify_eq; [apply written_calm; [apply shows_reach, appears_refl|done]|].
  split; [apply shows_reach, appears_rename; done|]. intros name Hnt. cbn. unfold rename. rewrite Hf2.
  destruct (name =s fw_name fw) eqn:En; bools; [subst; by rewrite lookup_insert_eq|].
  by rewrite lookup_insert_ne, lookup_delete_ne by congruence.
Qed.
Lemma atomicWrite_written ws fw w r w' : is_temp (fw_name fw) = false -> fw ∈ ws -> atomicWrite fw w = (r, w') -> written ws fw w r w'.
Proof.
  intros Hn Hin. unfold atomicWrite. destruct (CreateTemp _ _ w) as [[tmp|e] w1] eqn:Ec;
    apply (CreateTemp_ok _ _ ws) in Ec as (Hs & Hc & Ho); try done; [|intros; simplify_eq; by apply written_calm].
  destruct (Ho _ eq_refl) as [Ht Hf].
  destruct (fill_and_rename fw tmp w1) as [r' w2] eqn:Ef. apply (fill_written ws) in Ef as [Hs2 Hw2]; [|done..].
  destruct (sys _ _ w2) as [u w3] eqn:Er. cbn [snd]. intros; simplify_eq. eapply written_before; [exact Hs|exact Hc|].
  assert (Hend : shows ws w2 w' /\ calm w2 w').
  { split; [eapply sys_shows; [exact Er|by apply appears_delete|apply appears_refl]|].
    intros n Hnt. unfold sys in Er. case_match; simplify_eq; cbn; [done|by rewrite lookup_delete_ne by congruence]. }
  destruct Hend as [Hs3 Hc3]. split; [by eapply shows_trans|]. intros name Hnt. rewrite Hc3 by done. by apply Hw2.
Qed.
Lemma write_all_shows ws l w r w' : proper l -> l ⊆ ws -> NoDup (fw_name <$> l) -> write_all l w = (r, w') ->
  shows ws w w' /\ (forall name, is_temp name = false -> name ∉ (fw_name <$> l) -> fs_files w' !! name = fs_files w !! name)
  /\ (r = Ok tt -> Forall (fun fw => fs_files w' !! fw_name fw = Some (mkFile (fw_data fw) (fw_mode fw))) l).
Proof.
  revert w r w'. induction l as [|fw l IH]; intros w r w' Hp Hsub Hnd; cbn [write_all].
  { intros Hr. cbv in Hr. simplify_eq. split_and!; [apply shows_refl|done|by constructor]. }
  apply Forall_cons in Hp as [Ht Hp]. apply NoDup_cons in Hnd as [Hni Hnd].
  unfold st_bind. destruct (atomicWrite fw w) as [r1 w1] eqn:E1. apply (atomicWrite_written ws) in E1 as [Hs1 Hw1]; [|done|set_solver].
  assert (Hf1 : forall name, is_temp name = false -> name <> fw_name fw -> fs_files w1 !! name = fs_files w !! name).
  { intros name Hn Hne. rewrite Hw1 by done. rewrite (proj2 (str_eqb_neq _ _) Hne). by rewrite andb_false_r. }
  destruct r1 as [[]|e]; [|intros; simplify_eq; split_and!; [done|set_solver|done]].
  intros (Hs2 & Hf2 & Ho)%IH; [|done|set_solver|done]. split_and!; [by eapply shows_trans| |].
  - intros name Hn Hni'. rewrite Hf2, Hf1 by set_solver. done.
  - intros Hr. constructor; [|by apply Ho]. rewrite Hf2 by done. rewrite Hw1 by done. cbn. by rewrite str_eqb_refl.
Qed.
Lemma bundle_writes_proper b : proper (bundle_writes b) /\ NoDup (fw_name <$> bundle_writes b).
Proof.
  unfold bundle_writes, proper. split.
  - apply Forall_forall. intros fw [Hin _]%list_elem_of_In%filter_In. apply list_elem_of_In in Hin.
    destruct (cl_KeyPEM b <>s ""); set_solver.
  - destruct (cl_KeyPEM b <>s ""); cbn; repeat case_match; cbn; by apply (bool_decide_unpack _).
Qed.

Lemma materialize_shows cfg b w r w' :
  materialize cfg (Some b) w = (r, w') ->
  shows (bundle_writes b) w w'
  /\ (r = Ok tt -> Forall (fun fw => fs_files w' !! fw_name fw = Some (mkFile (fw_data fw) (fw_mode fw))) (bundle_writes b))
  /\ (forall name, is_temp name = false -> name ∉ (fw_name <$> bundle_writes b) -> fs_files w' !! name = fs_files w !! name).
Proof.
  unfold materialize. destruct (bundle_writes_proper b) as [Hp Hnd]. case_match.
  { intros Hr. cbv in Hr. simplify_eq. split_and!; [apply shows_refl|done|done]. }
  intros [(w1 & [Hs1 He1]%(sys_unchanged (bundle_writes b)) & Hr)|(e & -> & [Hs1 He1]%(sys_unchanged (bundle_writes b)))]%sys_bind;
    [|split_and!; [done|done|by rewrite He1]].
  apply (write_all_shows (bundle_writes b)) in Hr as (Hs & Hf & Ho); [|done..]. rewrite He1 in Hf.
  split_and!; [by eapply shows_trans|done|done].
Qed.
(** C17. A workload reading the agent's directory at any moment, even one at which the
    agent dies, finds each file whole: the old one or the new one with its mode, never
    a partial one, and no file ever vanishes.  Only the private key's own file and
    temporary files hold the key, with mode 0600.  The files are all new when no error
    is returned, whatever system calls failed. *)
Theorem materialize_atomic cfg b w r w' :
  materialize cfg (Some b) w = (r, w') ->
  shows (bundle_writes b) w w'
  /\ (r = Ok tt -> Forall (fun fw => fs_files w' !! fw_name fw = Some (mkFile (fw_data fw) (fw_mode fw))) (bundle_writes b))
  /\ (forall name, is_temp name = false -> name ∉ (fw_name <$> bundle_writes b) -> fs_files w' !! name = fs_files w !! name).
Proof. exact (materialize_shows cfg b w r w'). Qed.
End appears.

(** ** How often the agent works *)

(** The waits between the agent's connections to the update stream: the n-th
    failure in a row is followed by 0.5 s doubled n-1 times and at most 30 s, a stream
    that ended cleanly starts over, and no wait is ever below 0.5 s. *)
Theorem watch_waits_capped ends n :
  Forall (fun d => agent_baseBackoff <= d <= agent_maxBackoff) (watch_waits agent_baseBackoff ends)
  /\ watch_waits agent_baseBackoff (repeat false n) = (fun k => Z.min agent_maxBackoff (agent_baseBackoff * 2 ^ Z.of_nat k)) <$> seq 0 n.
Proof.
  split.
  - assert (Hg : forall b, agent_baseBackoff <= b <= agent_maxBackoff -> Forall (fun d => agent_baseBackoff <= d <= agent_maxBackoff) (watch_waits b ends)).
    { induction ends as [|clean ends IH]; intros b Hb; cbn [watch_waits]; [constructor|].
      unfold watch_wait. destruct clean; (constructor; [unfold agent_baseBackoff, agent_maxBackoff, Second in *; lia|apply IH]);
        repeat case_match; bools; unfold agent_baseBackoff, agent_maxBackoff, Second in *; lia. }
    apply Hg. unfold agent_baseBackoff, agent_maxBackoff, Second. lia.
  - assert (Hg : forall k b, b = Z.min agent_maxBackoff (agent_baseBackoff * 2 ^ Z.of_nat k) ->
      watch_waits b (repeat false n) = (fun k => Z.min agent_maxBackoff (agent_baseBackoff * 2 ^ Z.of_nat k)) <$> seq k n).
    { induction n as [|n IH]; intros k b Hb; [done|]. cbn [repeat watch_waits seq]. unfold watch_wait. rewrite fmap_cons, <- Hb. f_equal.
      apply IH. rewrite Nat2Z.inj_succ, Z.pow_succ_r by lia. pose proof (Z.pow_pos_nonneg 2 (Z.of_nat k) ltac:(lia) ltac:(lia)) as Hpos.
      repeat case_match; bools; unfold agent_baseBackoff, agent_maxBackoff, Second in *; lia. }
    by apply (Hg 0%nat).
Qed.
(** The timer is at least five seconds away, except when the validity is not known. *)
Lemma untilRenew_least now notAfter renewBefore : notAfter <> 0 -> minWait <= untilRenew now notAfter renewBefore.
Proof. intros Hn. unfold untilRenew, IsZero. rewrite (proj2 (Z.eqb_neq _ _) Hn). cbv zeta. case_match; bools; lia. Qed.

(** ** The agent against the module *)
Section against.
Context `{Os} `{Env} `{AcmeServer} `{Enrolling} (peer : option string)
  (publish : string -> list string -> bool -> string -> string -> Call World string) (cfg : AgentConfig).
Definition module_conn (now : Z) : LcmConn World := grpc_conn now peer publish.
(** No certificate of the server has this text as its identifier. *)
Definition no_such_id (id : string) (w : World) : Prop := m_Certificates (wd_mem w) !! id = None.
Definition event_keeps (P : World -> Prop) (ev : agent_event (S := World)) : Prop :=
  match ev with AgServer s => P s | _ => True end.

Lemma Renew_unknown now tenantID id w : no_such_id id w -> exists s, SVID_Renew now peer tenantID id w = (inr s, w).
Proof.
  intros Hn. unfold SVID_Renew, serve. destruct (caller peer tenantID) as [subj|s]; [|eauto].
  unfold Renew, st_bind, az_Check, reading. destruct (authz_Check _ _ _ _ _ _) as [[]|e]; [|eauto].
  unfold Mem_GetCertificate, fail_read. rewrite Hn. destruct (m_Fail _ !! _); eauto.
Qed.
Lemma agent_renew_unknown now a : no_such_id (aw_cert a) (aw_srv a) -> agent_renew module_conn cfg now a = a.
Proof.
  intros Hn. unfold agent_renew. case_match; [done|]. unfold Client_RenewTenant, call_map, module_conn, grpc_conn, rpc_wire. cbn [stub_Renew].
  destruct (Renew_unknown now (ag_TenantID cfg) (aw_cert a) (aw_srv a) Hn) as [s Hs]. unfold call_map. rewrite Hs. by destruct a.
Qed.
(** What the agent holds. *)
Definition holdings (a : AgentW (S := World)) : Files * string * Z := (fs_files (aw_fs a), aw_cert a, aw_notAfter a).
Lemma agent_step_stale ev a a' : event_keeps (no_such_id (aw_cert a)) ev -> no_such_id (aw_cert a) (aw_srv a) ->
  agent_step module_conn cfg ev a = Some a' -> holdings a' = holdings a /\ no_such_id (aw_cert a') (aw_srv a').
Proof.
  intros Hk Hn Hs. destruct ev as [now later|now later|u|s]; cbn [agent_step event_keeps] in *.
  - case_match; [|done]. simplify_eq. rewrite agent_renew_unknown by done. done.
  - case_match; [|done]. simplify_eq. rewrite agent_renew_unknown by done. done.
  - by simplify_eq.
  - by simplify_eq.
Qed.
Lemma agent_run_stale evs a a' :
  no_such_id (aw_cert a) (aw_srv a) -> Forall (event_keeps (no_such_id (aw_cert a))) evs ->
  agent_run module_conn cfg evs a = Some a' -> holdings a' = holdings a.
Proof.
  intros Hn Hk. revert a Hn Hk. induction evs as [|ev evs IH]; intros a Hn Hk; cbn [agent_run]; [by intros [= <-]|].
  apply Forall_cons in Hk as [Hk1 Hk]. destruct (agent_step _ _ ev a) as [a1|] eqn:Es; [|done].
  destruct (agent_step_stale _ _ _ Hk1 Hn Es) as [Hh Hn1]. intros Hr. assert (Hc : aw_cert a1 = aw_cert a) by (by injection Hh).
  transitivity (holdings a1); [|done]. apply IH; [done| |done]. by rewrite Hc.
Qed.
(** The serial number of a new certificate is a number in decimal. *)
Lemma mint_serial now subj issuer sid req w b w' :
  mint now subj issuer sid req w = (Ok b, w') ->
  exists c n, m_Certificates (wd_mem w') !! cv_ID (b_Certificate b) = Some c
    /\ cv_Serial (b_Certificate b) = crt_Serial c /\ crt_Serial c = FormatInt n.
Proof.
  intros (caid & caRow & signer & caCert & certID & pub & ks & kp & serial & der & cn & w1 & w2 & _
    & _ & _ & _ & -> & _ & _ & _ & w3 & Hrec & _ & Hmark & _)%mint_ok.
  apply record_certificate_ok in Hrec as (Hc & _). destruct (_ && _).
  - destruct Hmark as [Hmk [perms Hb]]. apply MarkKeyDelivered_ok in Hmk as (c0 & Hc0 & _ & Hw').
    rewrite Hc, lookup_insert_eq in Hc0. injection Hc0 as <-. rewrite Hw', Hb. cbn [certView cv_ID cv_Serial]. eexists _, serial.
    split; [apply lookup_insert_eq|done].
  - destruct Hmark as [Hw' [perms Hb]]. rewrite Hw', Hc, Hb. eexists _, serial. split; [apply lookup_insert_eq|done].
Qed.
Lemma Enroll_serial now subj inp w r w' b :
  Enroll now subj inp w = (Ok r, w') -> er_Bundle r = Some b ->
  exists c n, m_Certificates (wd_mem w') !! cv_ID (b_Certificate b) = Some c
    /\ cv_Serial (b_Certificate b) = crt_Serial c /\ crt_Serial c = FormatInt n.
Proof.
  unfold Enroll. destruct (ParseSPIFFEID _) as [sid|]; [|done]. intros Hr.
  apply st_bind_ok in Hr as ([[[tenant actor] actorID] kind] & w1 & _ & Hr). case_match; [done|]. destruct cfg_AutoApprove.
  - apply st_bind_ok in Hr as ([b'|e] & w2 & Ht & Hr); [|by apply st_bind_ok in Hr as (? & ? & _ & ?)].
    apply (proj1 (st_try_ok _ _ _ _)) in Ht. apply st_bind_ok in Hr as (u & w3 & He & Hr). apply st_ret_ok in Hr as [-> ->]. intros [= <-].
    unfold emit in He. injection He as _ <-. destruct (Issue_ok _ _ _ _ _ _ Ht) as (issuer & sd & _ & _ & Hm).
    by apply mint_serial in Hm.
  - apply st_bind_ok in Hr as (rv & w2 & _ & Hr). by apply st_ret_ok in Hr as [-> ->].
Qed.
(** No identifier of a certificate is a number in decimal: [NewID] makes UUIDs. *)
Definition no_numerals (w : World) : Prop := forall n, no_such_id (FormatInt n) w.
Lemma start_serial now w0 fs0 a w1 fs1 :
  RunAgent_start module_conn cfg now w0 fs0 = (Some a, w1, fs1) ->
  exists id c n, m_Certificates (wd_mem w1) !! id = Some c /\ aw_srv a = w1 /\ aw_cert a = crt_Serial c /\ crt_Serial c = FormatInt n.
Proof.
  unfold RunAgent_start, Client_Enroll, module_conn, grpc_conn, rpc_wire, call_map, Enrollment_Enroll, serve. cbn [stub_Enroll].
  destruct (caller _ _) as [subj|]; [|done]. destruct (Enroll _ _ _ w0) as [[r|e] w] eqn:He; [|done].
  destruct (er_Bundle r) as [b|] eqn:Hb; [|done]. destruct (_ <>s _); [done|]. destruct (Enroll_serial _ _ _ _ _ _ _ He Hb) as (c & n & Hc & Hs & Hn).
  destruct (materialize _ _ fs0) as [[|] fs]; [|done]. intros [= <- <- <-].
  exists (cv_ID (b_Certificate b)), c, n. split_and!; done.
Qed.
(** C18. The agent keeps, as the name of its certificate, the serial number of the
    certificate the enrollment issued, and asks for the renewal by it, where the module
    wants the certificate's identifier.  As identifiers are UUIDs and serial numbers
    decimal numerals, no renewal ever succeeds, whatever fires it and whatever happens
    at the server meanwhile: the files, the number and the validity the agent holds stay
    those of the enrollment until they expire. *)
Theorem agent_never_renews now w0 fs0 a w1 fs1 evs a' :
  RunAgent_start module_conn cfg now w0 fs0 = (Some a, w1, fs1) ->
  no_numerals w1 -> Forall (event_keeps no_numerals) evs -> agent_run module_conn cfg evs a = Some a' ->
  (exists id c, m_Certificates (wd_mem w1) !! id = Some c /\ aw_cert a = crt_Serial c) /\ holdings a' = holdings a.
Proof.
  intros Hs Hw Hk Hr. destruct (start_serial _ _ _ _ _ _ Hs) as (id & c & n & Hc & Hsrv & Ha & Hn). split; [by exists id, c|].
  apply (agent_run_stale evs); [rewrite Ha, Hn, Hsrv; apply Hw| |done]. eapply Forall_impl; [exact Hk|].
  intros []; cbn; try done. intros Hx. rewrite Ha, Hn. apply Hx.
Qed.

(** *** The key of a renewed certificate *)
Lemma mint_keyless now subj issuer sid req w b w' :
  mr_csrPEM req = "" -> mr_deliverKey req = false -> mint now subj issuer sid req w = (Ok b, w') -> b_KeyPEM b = "".
Proof.
  intros Hc Hd. unfold mint. destruct (iss_CAID issuer); [|done]. case_match; [done|]. intros Hr.
  apply st_bind_ok in Hr as (caRow & w1 & _ & Hr). apply st_bind_ok in Hr as ([signer caCert] & w2 & _ & Hr).
  apply st_bind_ok in Hr as (certID & w3 & _ & Hr). apply st_bind_ok in Hr as ([[pub ks] k] & w4 & Hk & Hr).
  apply st_bind_ok in Hr as (serial & w5 & _ & Hr). case_match; [|done].
  do 6 (apply st_bind_ok in Hr as (? & ? & _ & Hr)). apply st_ret_ok in Hr as [-> _]. cbn.
  unfold mint_key in Hk. rewrite Hc, Hd in Hk. change ("" <>s "") with false in Hk. cbv iota in Hk.
  apply st_bind_ok in Hk as ([priv pk] & w6 & _ & Hk). do 2 (apply st_bind_ok in Hk as (? & ? & _ & Hk)).
  apply st_ret_ok in Hk as [Hk _]. by injection Hk.
Qed.
Lemma Renew_keyless now subj id w b w' : Renew now subj id w = (Ok b, w') -> b_KeyPEM b = "".
Proof.
  unfold Renew. intros Hr. apply st_bind_ok in Hr as (? & w1 & _ & Hr). apply st_bind_ok in Hr as (old & w2 & _ & Hr).
  unfold renewCert in Hr. destruct (crt_Kind old =s "generic").
  - unfold renewACME in Hr.
    repeat (apply st_bind_ok in Hr as (? & ? & _ & Hr);
            repeat lazymatch type of Hr with (let (_, _) := ?x in _) _ = _ => destruct x end).
    apply st_ret_ok in Hr as [-> _]. done.
  - destruct (ParseSPIFFEID _) as [sid|]; [|done]. apply st_bind_ok in Hr as (issuer & w3 & _ & Hr).
    apply st_bind_ok in Hr as (b' & w4 & Hm & Hr). apply st_bind_ok in Hr as (? & w5 & _ & Hr). apply st_ret_ok in Hr as [-> _].
    by apply mint_keyless in Hm.
Qed.
(** The module never returns the key of a certificate it renews: even with the
    right identifier, a renewal that reaches the agent's directory leaves the old
    private key beside the new certificate. *)
Theorem renewed_key_withheld now a :
  let a' := agent_renew module_conn cfg now a in
  fs_files (aw_fs a') !! keyFile = fs_files (aw_fs a) !! keyFile.
Proof.
  cbv zeta. unfold agent_renew. case_match; [done|].
  unfold Client_RenewTenant, call_map at 1, module_conn, grpc_conn, rpc_wire, call_map. cbn [stub_Renew].
  unfold SVID_Renew, serve. destruct (caller _ _) as [subj|s]; [|done].
  destruct (Renew _ _ _ _) as [[b|e] w'] eqn:Er; [|done]. apply Renew_keyless in Er.
  set (nb := bundleFrom _). assert (Hk : exists nb', nb = Some nb' /\ cl_KeyPEM nb' = "") by (eexists; split; [reflexivity|exact Er]).
  destruct Hk as (nb' & -> & Hk). destruct (materialize cfg (Some nb') (aw_fs a)) as [r fs] eqn:Em.
  apply materialize_shows in Em as (_ & _ & Hf).
  assert (Hkey : fs_files fs !! keyFile = fs_files (aw_fs a) !! keyFile).
  { apply Hf; [done|]. unfold bundle_writes. rewrite Hk. change ("" <>s "") with false. cbn.
    repeat case_match; cbn; by apply (bool_decide_unpack _). }
  by destruct r.
Qed.
End against.

(** *** Updates *)
Section deaf.
Context `{GoRuntime}.
(** The event logs the module can produce: a service publishes through gRPC, or the
    module itself through its publisher. *)
Inductive live_log : Memory -> Prop :=
| ll_new : live_log NewMemory
| ll_events now maxLen peer tenantID userIDs all typ data m :
    live_log m -> live_log (Events_Publish now maxLen peer tenantID userIDs all typ data m).2
| ll_hub hub wh now maxLen l m : live_log m -> live_log (hub_live hub wh now maxLen l m).2.
Lemma PublishID_types now maxLen tenantID to all typ data mod_ m (P : string -> Prop) :
  (ValidateType typ mod_ = Ok tt -> P typ) -> (forall key e, e ∈ entries key m -> P (field e "type")) ->
  forall key e, e ∈ entries key (PublishID now maxLen tenantID to all typ data mod_ m).2 -> P (field e "type").
Proof.
  intros Hp Hm key e. unfold PublishID. destruct (ValidateType typ mod_) as [[]|] eqn:Ev; [|by apply Hm].
  repeat (case_match; try (by apply Hm)). cbn [snd].
  destruct (XAdd now (Key tenantID) _ maxLen m) as [[id|e'] m'] eqn:Ex; cbn [snd]; [|apply XAdd_err in Ex as ->; by apply Hm].
  apply XAdd_entries in Ex as [[n Hn] Ho]. destruct (decide (key = Key tenantID)) as [->|Hne]; [|rewrite Ho by done; by apply Hm].
  rewrite Hn. intros [Hin|Hin]%elem_of_app; [by apply (Hm (Key tenantID)), (subseteq_drop n)|].
  apply list_elem_of_singleton in Hin as ->. by apply Hp.
Qed.
Lemma certificate_type_free t : Reserved ("certificate." +:+ t) = false.
Proof. unfold Reserved, contains. cbn. done. Qed.
(** No event the module puts on a stream makes the agent renew: the module's own
    types carry its name space, the plain names the agent looks for are refused to the
    other services, and the events of the hub itself are others. *)
Theorem agent_deaf cfg m key e :
  live_log m -> e ∈ entries key m -> wants cfg (updateFrom (watch_update (event_of e))) = false.
Proof.
  intros Hl He. assert (Hfree : Reserved (field e "type") = false).
  { revert key e He. induction Hl as [|now maxLen peer tenantID userIDs all typ data m Hl IH|hub wh now maxLen l m Hl IH]; intros key e He.
    - by apply elem_of_nil in He.
    - unfold Events_Publish in He. destruct (caller peer tenantID); [|by eapply IH].
      destruct (PublishID _ _ _ _ _ _ _ _ _) as [r m'] eqn:Ep. assert (Hm' : m' = (PublishID now maxLen tenantID userIDs all typ (if data =s "" then PNil else PText data) true m).2) by (by rewrite Ep).
      assert (He' : e ∈ entries key m') by (by destruct r). rewrite Hm' in He'.
      apply (PublishID_types _ _ _ _ _ _ _ _ _ (fun t => Reserved t = false)) in He'; [done| |done].
      unfold ValidateType. destruct (negb _); [done|]. by destruct (Reserved typ).
    - assert (Hs : forall tenantID t data, e ∈ entries key (hub_send hub now maxLen tenantID ("certificate." +:+ t) data m) -> Reserved (field e "type") = false).
      { intros tenantID t data. unfold hub_send. destruct hub; [|by apply IH].
        apply (PublishID_types _ _ _ _ _ _ _ _ _ (fun t => Reserved t = false)); [|done]. intros _. apply certificate_type_free. }
      destruct l; [exact (Hs _ _ _ He)|exact (Hs tenant "failed" detail He)]. }
  unfold wants. case_match; [done|]. unfold updateFrom, watch_update. cbn [up_Type].
  assert (Hnot : forall t, t ∈ ["renewed"; "revoked"; "issued"] -> (field e "type" =s t) = false).
  { intros t Ht. apply str_eqb_neq. intros <-. assert (Hc : Reserved (field e "type") = true); [|congruence].
    apply contains_spec. set_solver. }
  destruct (watch_payload _) as [[[c s] n]|]; cbn [cu_Type event_of ev_Type]; by rewrite !Hnot by set_solver.
Qed.
End deaf.

(** ** Sample runs *)
Module AgentSample.
Import Toy IssueSample AcmeSample AdapterSample GrpcSample.
#[local] Existing Instance toy_env.
#[local] Existing Instance toy_server.
#[local] Existing Instance auth_enrolling.
#[local] Instance toy_os : Os := {| os_fails n := false; os_partial n := 0%nat; os_random := fun n => FormatInt (Z.of_nat n) |}.
Definition cfg : AgentConfig := mkAgentConfig "/run/tls" "spiffe://example.org/web" tA "token" 0.
Definition no_publish : string -> list string -> bool -> string -> string -> Call World string := fun _ _ _ _ _ w => (inl "", w).
Definition conn : Z -> LcmConn World := module_conn deployer no_publish.
Definition empty_dir : FsW := mkFsW 0 ∅ [].
Definition nobody : AgentW (S := World) := mkAgentW ready empty_dir "" 0 false 0.
Definition enrolled : AgentW := default nobody (RunAgent_start conn cfg 10 ready empty_dir).1.1.
Example enrolled_run : (RunAgent_start conn cfg 10 ready empty_dir).1.1 = Some enrolled
  /\ aw_cert enrolled = "12" /\ (fl_mode <$> fs_files (aw_fs enrolled) !! keyFile) = Some mode_600
  /\ is_Some (fs_files (aw_fs enrolled) !! certFile).
Proof. vm_compute. eauto. Qed.
(** The timer fires, the certificate is revoked and announced, the timer fires again. *)
Definition events : list (agent_event (S := World)) :=
  [AgTimer (aw_timer enrolled) (aw_timer enrolled); AgUpdate (mkUpdate "certificate.revoked" "id1" "spiffe://example.org/web" 0);
   AgTimer (2 * aw_timer enrolled + minWait) (2 * aw_timer enrolled + minWait)].
Definition later_agent : AgentW := default nobody (agent_run conn cfg events enrolled).
Lemma digits_first fuel z acc : 0 <= z -> acc = "" \/ String.get 0 acc <> Some (chr 105) ->
  digits fuel z acc = "" \/ String.get 0 (digits fuel z acc) <> Some (chr 105).
Proof.
  revert z acc. induction fuel as [|n IH]; intros z acc Hz Ha; [done|]. cbn [digits].
  assert (Hd : String.get 0 (String (chr (48 + z mod 10)) acc) <> Some (chr 105)).
  { assert (Hm : 0 <= z mod 10 < 10) by (apply Z.mod_pos_bound; lia). cbn. intros [= Hc].
    assert (Hall : forallb (fun d => negb (Ascii.eqb (chr (48 + d)) (chr 105))) (Z.of_nat <$> seq 0 10) = true) by done.
    rewrite forallb_forall in Hall. specialize (Hall (z mod 10)). rewrite Hc in Hall. discriminate Hall.
    apply list_elem_of_In, list_elem_of_fmap. exists (Z.to_nat (z mod 10)). rewrite elem_of_seq. lia. }
  case_match; [by right|]. apply IH; [by apply Z.div_pos|by right].
Qed.
Lemma FormatInt_first n : String.get 0 (FormatInt n) <> Some (chr 105).
Proof.
  unfold FormatInt. destruct (n <? 0) eqn:E; [done|]. bools. destruct (digits_first 40 n "") as [->| ]; [lia|by left|done..].
Qed.
Lemma toy_ids w : Forall (fun p => String.get 0 p.1 = Some (chr 105)) (map_to_list (m_Certificates (wd_mem w))) -> no_numerals w.
Proof.
  intros Hi n. apply eq_None_not_Some. intros [c Hc]. apply elem_of_map_to_list in Hc. eapply Forall_forall in Hi; [|exact Hc].
  by apply (FormatInt_first n).
Qed.
Lemma agent_never_renews_witness : (exists id c, m_Certificates (wd_mem (aw_srv enrolled)) !! id = Some c /\ aw_cert enrolled = crt_Serial c)
  /\ holdings later_agent = holdings enrolled.
Proof.
  apply (agent_never_renews deployer no_publish cfg 10 ready empty_dir enrolled (aw_srv enrolled) (aw_fs enrolled) events later_agent).
  - vm_compute. reflexivity.
  - apply toy_ids. vm_compute. repeat constructor.
  - repeat constructor.
  - vm_compute. reflexivity.
Defined.
(** A renewed certificate is on disk before its key is. *)
Definition old_pair : ClientBundle := mkClientBundle "cert 1" "" "" "key 1" "1" "" 0.
Definition new_pair : ClientBundle := mkClientBundle "cert 2" "" "" "key 2" "2" "" 0.
Definition first_pair : FsW := (materialize cfg (Some old_pair) empty_dir).2.
Definition rotated : res unit * FsW := materialize cfg (Some new_pair) first_pair.
Example mixed_pair : exists st, st ∈ fs_seen rotated.2
  /\ (fl_data <$> st !! certFile) = Some "cert 2" /\ (fl_data <$> st !! keyFile) = Some "key 1".
Proof.
  assert (Hl : exists st, fs_seen rotated.2 !! 21%nat = Some st
            /\ (fl_data <$> st !! certFile) = Some "cert 2" /\ (fl_data <$> st !! keyFile) = Some "key 1")
    by (vm_compute; eauto).
  destruct Hl as (st & Hl & Hp). exists st. split; [by eapply list_elem_of_lookup_2|done].
Qed.
Lemma materialize_atomic_witness : shows (bundle_writes new_pair) first_pair rotated.2
  /\ fs_files rotated.2 !! keyFile = Some (mkFile "key 2" mode_600).
Proof.
  split; [|vm_compute; reflexivity].
  exact (proj1 (materialize_atomic cfg new_pair first_pair rotated.1 rotated.2 (surjective_pairing _))).
Defined.
Lemma agent_deaf_witness : exists e,
  last (entries (Key "t1") ClientSample.sent.2) = Some e /\ wants cfg (updateFrom (watch_update (event_of e))) = false.
Proof.
  assert (Hl : live_log ClientSample.sent.2).
  { exact (ll_hub true true _ _ (Pub "t1" "renewed" "c1" "spiffe://example.org/web" ClientSample.expiry) _ ll_new). }
  assert (Hn : exists e, last (entries (Key "t1") ClientSample.sent.2) = Some e) by (vm_compute; eauto).
  destruct Hn as [e He]. exists e. split; [exact He|].
  apply (agent_deaf cfg ClientSample.sent.2 (Key "t1") e Hl). by apply last_Some_elem_of.
Defined.
(** One flag of the identity missing, and the dial is in the clear. *)
Example dials_in_clear : dial_transport (fun _ _ => true) (fun _ => Some true)
  (mkOptions "lcm:443" "spiffe://example.org/web" tA "token" "/run/tls" 0 "id.crt" "id.key" "") = Some NoTLS.
Proof. reflexivity. Qed.
End AgentSample.
