(* ===== verification/Bootstrap.v ===== *)
(** Preparing a deployment: lcmsvc bootstrap (cmd/lcmsvc/bootstrap.go), which makes
    the mesh root, its default issuer and the first leaves, and the development CA
    (cmd/lcm-devca).  Migrations and flags are I/O and left out; a file written is an
    output of the run. *)

From S2P Require Import Prelude Rows Memstore MemstoreInv MemstoreList Paging Authz GoJson GoUrl AuditLog Csr Sealed World Ca.
From S2P Require Import IssueBase Domains Providers Issuers CertList Enroll Lists ListScope.

Definition MeshTenantID : string := "00000000-0000-0000-0000-000000000001".
(** A file written: its name, data and mode. *)
Record OutFile := mkOutFile { of_name : string; of_data : string; of_mode : Z }.

Section bootstrap.
Context `{Env}.
Definition probeKEK : M unit :=
  let* blob := Seal ("{" +:+ json_string "probe" +:+ ":true}") (ADCA "probe") in
  let* _ := st_lift (Open (Some blob) (ADCA "probe")) in
  st_ret tt.
(** [meshIssuerName]: the scan of the issuers, page by page. *)
Fixpoint meshIssuerName (fuel : nat) (trustDomain after : string) (m : Mem) : res string :=
  match fuel with
  | O => Err ErrFuel
  | S fuel =>
    let? page := Mem_ListIssuers MeshTenantID after 200 m in
    if existsb (fun i => EqualFold (iss_Name i) "mesh") page then Ok ("mesh-" +:+ trustDomain)
    else if Z.of_nat (length page) <? 200 then Ok "mesh"
    else meshIssuerName fuel trustDomain (last_or iss_Name page) m
  end.
Definition mesh_issuer (id name trustDomain caID : string) : Issuer :=
  {| iss_ID := id; iss_TenantID := MeshTenantID; iss_Name := name; iss_Type := "self_signed"; iss_TrustDomain := trustDomain;
     iss_IsDefault := true; iss_CAID := Some caID; iss_ACMEDirectoryURL := ""; iss_ACMEEmail := ""; iss_DNSProvider := "";
     iss_SettingsPublic := Some "{}"; iss_SettingsSealed := None; iss_Enabled := true; iss_CreatedBy := None; iss_UpdatedBy := None;
     iss_CreatedAt := 0; iss_UpdatedAt := 0; iss_CertificateCount := 0 |}.
Definition ensureDefaultIssuer (trustDomain caID : string) : M unit :=
  Atomic (
    let* found := st_try (reading (Mem_DefaultIssuer MeshTenantID trustDomain)) in
    match found with
    | Ok _ => st_ret tt
    | Err e =>
      if negb (is_not_found e) then st_err e
      else
        let* name := reading (fun m => meshIssuerName (S (size (m_Issuers m))) trustDomain "" m) in
        let* id := newID in
        writing (Mem_InsertIssuer (mesh_issuer id name trustDomain caID))
    end).
(** The leaf of one service: its certificate and its key. *)
Definition service_leaf (now : Z) (td name : string) (ttl : Z) : M (list OutFile) :=
  let* (key, pub) := drawing generate_key in
  let* (der, _) := SignLeaf now MeshTenantID td ("spiffe://" +:+ td +:+ "/svc/" +:+ name) pub ttl in
  let* keyDER := st_lift (marshal_key key) in
  st_ret [mkOutFile (name +:+ ".pem") (EncodeCertPEM der) 420; mkOutFile (name +:+ ".key") (pem_encode "PRIVATE KEY" keyDER) 384].
Fixpoint service_leaves (now : Z) (td : string) (ttl : Z) (names : list string) : M (list OutFile) :=
  match names with
  | [] => st_ret []
  | name :: rest =>
    let name := TrimSpace name in
    if name =s "" then service_leaves now td ttl rest
    else
      let* files := service_leaf now td name ttl in
      let* more := service_leaves now td ttl rest in
      st_ret (files ++ more)
  end.
(** The serial of the root and the files; without [out] nothing is minted. *)
Definition bootstrap (now : Z) (td services : string) (out : bool) (ttl : Z) : M (string * list OutFile) :=
  let* _ := probeKEK in
  let* root := EnsureCA now MeshTenantID td in
  let* _ := ensureDefaultIssuer td (ca_ID root) in
  if out then
    let* leaves := service_leaves now td ttl (split_byte 44 services) in
    let* bundlePEM := reading (ca_Bundle MeshTenantID td) in
    st_ret (ca_Serial root, leaves ++ [mkOutFile "ca.pem" bundlePEM 420])
  else st_ret (ca_Serial root, []).
End bootstrap.

(** ** The development CA *)
Section devca.
Context `{Env}.
Definition devca_Minute : Z := 60 * Second.
Definition generateRoot (now : Z) (trustDomain : string) (ttl : Z) : M (string * string) :=
  let* (key, pub) := drawing generate_key in
  let* serial := drawing random_int in
  let nb := now - devca_Minute in
  let tmpl := mkTemplate serial (trustDomain +:+ " LCM Root") nb (nb + ttl) true ("spiffe://" +:+ trustDomain) [] in
  let* der := drawing (fun n => create_certificate n tmpl None pub key) in
  let* _ := st_lift (parse_certificate der) in
  st_ret (der, key).
Definition issueLeaf (now : Z) (spiffeID cn : string) (ttl : Z) (root rootKey : string) : M (string * string) :=
  let* (key, pub) := drawing generate_key in
  let* serial := drawing random_int in
  match url_parse spiffeID with
  | None => st_err (Opaque "parse")
  | Some _ =>
    let nb := now - devca_Minute in
    let* der := drawing (fun n => create_certificate n (mkTemplate serial cn nb (nb + ttl) false spiffeID []) (Some (EncodeCertPEM root)) pub rootKey) in
    st_ret (der, key)
  end.
Definition marshalKey (key : string) : res string :=
  let? der := marshal_key key in Ok (pem_encode "PRIVATE KEY" der).
(** The root of the files of an earlier run. *)
Definition loadRoot (certPEM keyPEM : string) : res (string * string) :=
  match pem_decode certPEM with
  | None => Err (Opaque "ca.pem: not PEM")
  | Some (_, cder) =>
    let? _ := parse_certificate cder in
    match pem_decode keyPEM with
    | None => Err (Opaque "ca.key: not PEM")
    | Some (_, kder) =>
      match parse_pkcs8 kder with
      | None => Err (Opaque "parse")
      | Some None => Err (Opaque "ca.key: not an ECDSA key")
      | Some (Some k) => Ok (cder, k)
      end
    end
  end.
Fixpoint devca_leaves (now : Z) (td : string) (ttl : Z) (root rootKey : string) (names : list string) : M (list OutFile) :=
  match names with
  | [] => st_ret []
  | name :: rest =>
    let name := TrimSpace name in
    if name =s "" then devca_leaves now td ttl root rootKey rest
    else
      let spiffeID := "spiffe://" +:+ td +:+ "/svc/" +:+ name in
      let* _ := st_lift (ParseSPIFFEID spiffeID) in
      let* (der, key) := issueLeaf now spiffeID name ttl root rootKey in
      let* keyPEM := st_lift (marshalKey key) in
      let* more := devca_leaves now td ttl root rootKey rest in
      st_ret ([mkOutFile (name +:+ ".pem") (EncodeCertPEM der) 384; mkOutFile (name +:+ ".key") keyPEM 384] ++ more)
  end.
(** A run over the directory: [reuse] keeps a root that is there. *)
Definition devca (now : Z) (td services : string) (ttl caTTL : Z) (reuse : bool) (dir : gmap string string) : M (list OutFile) :=
  let* (root, rootKey, files) :=
    match (if reuse then Some tt else None), dir !! "ca.pem", dir !! "ca.key" with
    | Some _, Some cert, Some key => let* (root, k) := st_lift (loadRoot cert key) in st_ret (root, k, [])
    | _, _, _ =>
      let* (root, key) := generateRoot now td caTTL in
      let* rk := st_lift (marshalKey key) in
      st_ret (root, key, [mkOutFile "ca.pem" (EncodeCertPEM root) 384; mkOutFile "ca.key" rk 384])
    end in
  let* leaves := devca_leaves now td ttl root rootKey (split_byte 44 services) in
  st_ret (files ++ leaves).
End devca.

(** ** The mesh issuer *)
Section mesh.
Context `{Env}.
Definition taken (m : Mem) (after : string) : bool :=
  existsb (fun i => EqualFold (iss_Name i) "mesh") (issuers_after MeshTenantID m after).
(** The scan ends and looks at every issuer of the tenant. *)
Lemma meshIssuerName_spec fuel td after m :
  wf m -> m_Fail m = ∅ -> (length (issuers_after MeshTenantID m after) < fuel)%nat ->
  meshIssuerName fuel td after m = Ok (if taken m after then "mesh-" +:+ td else "mesh").
Proof.
  intros Hwf Hf. revert after. induction fuel as [|fuel IH]; intros after Hfuel; [lia|].
  cbn [meshIssuerName]. unfold Mem_ListIssuers, fail_read, taken. rewrite Hf, lookup_empty.
  change (sortByNameID iss_Name iss_ID _) with (issuers_after MeshTenantID m after). cbn [res_bind].
  set (l := issuers_after MeshTenantID m after) in *.
  destruct (decide (Z.of_nat (length l) < 200)) as [Hs|Hs].
  - assert (Hl : sqlLimit l 200 = l) by (unfold sqlLimit; repeat case_match; bools; [lia|lia|done]).
    rewrite Hl. rewrite (proj2 (Z.ltb_lt _ _)) by lia. by destruct (existsb _ l).
  - assert (Hl : sqlLimit l 200 = take (Z.to_nat 200) l).
    { unfold sqlLimit. repeat case_match; bools; [lia|done|]. by rewrite take_ge by lia. }
    rewrite Hl, length_take, Nat.min_l by lia. rewrite (proj2 (Z.ltb_ge _ _)) by lia.
    destruct (full_page l (Z.to_nat 200)) as (pre & r & Hpre & Hlast); [lia|rewrite length_take; lia|].
    unfold last_or. rewrite Hlast.
    assert (Hnext : issuers_after MeshTenantID m (iss_Name r) = drop (Z.to_nat 200) l)
      by (eapply issuers_next; [apply Hwf|apply Hwf|exact Hpre]).
    rewrite IH by (rewrite Hnext, length_drop; lia). unfold taken. rewrite Hnext.
    rewrite <- (take_drop (Z.to_nat 200) l) at 3. rewrite existsb_app. by destruct (existsb _ (take _ l)).
Qed.
Definition has_default (td : string) (m : Mem) : Prop :=
  exists k x, m_Issuers m !! k = Some x /\ default_of MeshTenantID td x.
Lemma ensured_already td caID w : wf (wd_mem w) -> m_Fail (wd_mem w) = ∅ -> has_default td (wd_mem w) ->
  ensureDefaultIssuer td caID w = (Ok tt, w).
Proof.
  intros Hwf Hf (k & x & Hx & Hd). pose proof (DefaultIssuer_spec MeshTenantID td (wd_mem w) Hwf Hf) as Hs.
  unfold ensureDefaultIssuer, Atomic. rewrite Hf, lookup_empty. unfold st_bind, st_try, reading.
  destruct (Mem_DefaultIssuer _ _ _) as [def|e]; [done|]. by destruct (Hs _ _ Hx).
Qed.
(** The names of the issuers do not clash with the one the mesh issuer gets. *)
Record mesh_names (td : string) (m : Mem) : Prop := {
  mesh_ascii k x : m_Issuers m !! k = Some x -> iss_TenantID x = MeshTenantID -> string_forallb is_ascii_byte (iss_Name x) = true;
  mesh_named : named m;
  mesh_free k x : m_Issuers m !! k = Some x -> iss_TenantID x = MeshTenantID -> ToLower (iss_Name x) <> ToLower ("mesh-" +:+ td);
}.
Lemma mesh_name_free td m name k x : mesh_names td m -> name = (if taken m "" then "mesh-" +:+ td else "mesh") ->
  m_Issuers m !! k = Some x -> iss_TenantID x = MeshTenantID -> ToLower (iss_Name x) <> ToLower name.
Proof.
  intros [Ha Hn Hfree] -> Hx Ht. destruct (taken m "") eqn:Et; [by eapply Hfree|]. intros He.
  assert (Hc : taken m "" = true); [|congruence]. unfold taken. apply existsb_exists. exists (listedIssuer m x). split.
  - apply list_elem_of_In, issuers_after_elem. exists k, x. split_and!; [done..|]. apply str_ltb_empty. by eapply Hn.
  - unfold EqualFold. pose proof (Ha _ _ Hx Ht) as Hasc. change (iss_Name (listedIssuer m x)) with (iss_Name x).
    unfold ToLower in He. rewrite Hasc in *. cbn [andb] in *. by apply bool_decide_eq_true_2.
Qed.
(** Bootstrapping makes the trust domain a default issuer bound to the mesh root:
    an existing one is kept, otherwise one is created whose name no other has, after a
    scan of all issuers however many pages they fill; no issuer is changed, and doing
    it again does nothing. *)
Theorem mesh_issuer_ensured td caID ca w :
  wf (wd_mem w) -> m_Fail (wd_mem w) = ∅ -> m_Issuers (wd_mem w) !! new_id (wd_ids w) = None -> mesh_names td (wd_mem w) ->
  m_CAs (wd_mem w) !! caID = Some ca -> ca_TenantID ca = MeshTenantID ->
  exists w', ensureDefaultIssuer td caID w = (Ok tt, w') /\ has_default td (wd_mem w')
    /\ (forall k x, m_Issuers (wd_mem w) !! k = Some x -> m_Issuers (wd_mem w') !! k = Some x)
    /\ (forall again, ensureDefaultIssuer td again w' = (Ok tt, w')).
Proof.
  intros Hwf Hf Hfresh Hnames Hca Htca.
  pose proof (DefaultIssuer_spec MeshTenantID td (wd_mem w) Hwf Hf) as Hs.
  destruct (Mem_DefaultIssuer MeshTenantID td (wd_mem w)) as [def|e] eqn:Ed.
  { destruct Hs as (x & Hx & Ht & Hall). destruct (proj2 (Hall _ _) (conj eq_refl eq_refl)) as [_ Hd].
    exists w. assert (Hh : has_default td (wd_mem w)) by (eexists _, _; eauto). split_and!; [by apply ensured_already|done|done|].
    intros again. by apply ensured_already. }
  set (name := if taken (wd_mem w) "" then "mesh-" +:+ td else "mesh").
  set (i := mesh_issuer (new_id (wd_ids w)) name td caID).
  assert (Hins : exists m', Mem_InsertIssuer i (wd_mem w) = (Ok tt, m')).
  { unfold Mem_InsertIssuer, fail_write. rewrite Hf, lookup_empty. unfold ca_reference_ok. cbn [iss_CAID i mesh_issuer]. rewrite Hca.
    change (iss_TenantID i) with MeshTenantID. rewrite Htca, str_eqb_refl. cbn [negb].
    replace (existsb _ _) with false; [eauto|]. symmetry. apply existsb_range_false. intros k x Hx.
    unfold issuer_clash. cbn [snd]. change (iss_TenantID i) with MeshTenantID. change (iss_Name i) with name. change (iss_IsDefault i) with true.
    change (iss_TrustDomain i) with td. destruct (iss_TenantID x =s MeshTenantID) eqn:Ht; [|done]. bools. cbn [andb].
    apply orb_false_iff. split; [apply str_eqb_neq; by eapply mesh_name_free|].
    destruct (iss_IsDefault x) eqn:Hdx; [|done]. cbn. apply str_eqb_neq. intros Htd. by apply (Hs _ _ Hx). }
  destruct Hins as [m' Hins]. pose proof (InsertIssuer_ok _ _ _ _ Hins) as (Hm' & _).
  assert (Hrun : exists w', ensureDefaultIssuer td caID w = (Ok tt, w') /\ wd_mem w' = m').
  { unfold ensureDefaultIssuer, Atomic. rewrite Hf, lookup_empty. unfold st_bind, st_try, reading, newID, writing. rewrite Ed.
    assert (Hnf : is_not_found e = true).
    { unfold Mem_DefaultIssuer, fail_read in Ed. rewrite Hf, lookup_empty in Ed. case_match; [|done]. by simplify_eq. }
    rewrite Hnf. cbn [negb]. rewrite meshIssuerName_spec by (done || (pose proof (length_issuers_after MeshTenantID (wd_mem w) ""); lia)).
    fold name. change (wd_mem (w <| wd_ids := S (wd_ids w) |>)) with (wd_mem w). fold i. rewrite Hins. eauto. }
  destruct Hrun as (w' & Hrun & Hw'). exists w'. split; [done|].
  assert (Hd : has_default td (wd_mem w')).
  { exists (iss_ID i), (kept_issuer (m_Now (wd_mem w)) i). rewrite Hw', Hm'. cbn. rewrite lookup_insert_eq. done. }
  split; [done|]. split.
  - intros k x Hx. rewrite Hw', Hm'. cbn. rewrite lookup_insert_ne; [done|]. cbn. congruence.
  - intros again. apply ensured_already; [| |done].
    + rewrite Hw'. replace m' with (Mem_InsertIssuer i (wd_mem w)).2 by (by rewrite Hins). by apply wf_InsertIssuer.
    + rewrite Hw', Hm'. exact Hf.
Qed.
End mesh.

(** ** The root of the development CA *)
Section stable.
Context `{Env} `{!EnvLaws}.
Lemma loadRoot_back root n key pub keyPEM x :
  parse_certificate root = Ok x -> generate_key n = Ok (key, pub) -> marshalKey key = Ok keyPEM ->
  loadRoot (EncodeCertPEM root) keyPEM = Ok (root, key).
Proof.
  intros Hx Hg Hk. unfold marshalKey, res_bind in Hk. destruct (marshal_key key) as [der|] eqn:Em; [|done]. injection Hk as <-.
  unfold loadRoot, EncodeCertPEM, pem_decode. rewrite !laws_pem by auto. cbn. rewrite Hx. cbn.
  by rewrite (laws_key _ _ _ _ Hg Em).
Qed.
(** The trust root of the development CA survives reissuing: a first run leaves a
    root certificate and its key, and every later run that finds them with -reuse-ca
    signs its leaves with exactly that root and writes no other. *)
Theorem devca_root_stable now td services ttl caTTL reuse w files w' :
  devca now td services ttl caTTL reuse ∅ w = (Ok files, w') ->
  exists root key keyPEM, mkOutFile "ca.pem" (EncodeCertPEM root) 384 ∈ files /\ mkOutFile "ca.key" keyPEM 384 ∈ files
    /\ forall later td' services' ttl' caTTL' dir w2,
         dir !! "ca.pem" = Some (EncodeCertPEM root) -> dir !! "ca.key" = Some keyPEM ->
         devca later td' services' ttl' caTTL' true dir w2 = devca_leaves later td' ttl' root key (split_byte 44 services') w2.
Proof.
  unfold devca at 1. rewrite !lookup_empty. intros Hr.
  apply st_bind_ok in Hr as ([[root key] fs] & w1 & Hroot & Hr).
  assert (Hgen : st_bind (generateRoot now td caTTL) (fun '(root, key) =>
      let* rk := st_lift (marshalKey key) in
      st_ret (root, key, [mkOutFile "ca.pem" (EncodeCertPEM root) 384; mkOutFile "ca.key" rk 384])) w = (Ok (root, key, fs), w1))
    by (by destruct reuse). clear Hroot.
  apply st_bind_ok in Hgen as ([r k] & w3 & Hg & Hgen). apply st_bind_ok in Hgen as (rk & w4 & Hm & Hgen).
  apply st_lift_ok in Hm as [Hm ->]. apply st_ret_ok in Hgen as [[= -> -> ->] ->].
  apply st_bind_ok in Hr as (leaves & w5 & _ & Hr). apply st_ret_ok in Hr as [-> _].
  exists r, k, rk. split; [set_solver|]. split; [set_solver|]. intros later td' services' ttl' caTTL' dir w2 Hc Hk.
  unfold generateRoot in Hg. apply st_bind_ok in Hg as ([k' pub] & w6 & Hd & Hg). apply st_bind_ok in Hg as (serial & w7 & _ & Hg).
  apply st_bind_ok in Hg as (der & w8 & _ & Hg). apply st_bind_ok in Hg as (x & w9 & Hx & Hg).
  apply st_lift_ok in Hx as [Hx _]. apply st_ret_ok in Hg as [[= -> ->] _]. unfold drawing in Hd. injection Hd as Hd _.
  unfold devca. rewrite Hc, Hk. unfold st_bind at 1 2, st_lift. rewrite (loadRoot_back _ _ _ _ _ _ Hx Hd Hm). cbn.
  unfold st_bind, st_ret. by destruct (devca_leaves _ _ _ _ _ _ w2) as [[l|e] w10].
Qed.
End stable.

Module BootstrapSample.
Import Toy IssueSample.
#[local] Existing Instance toy_env.
Definition empty : World := mkWorld (Mem_New 5) [] 0 0.
Definition with_root : World := (EnsureCA 10 MeshTenantID "example.org" empty).2.
Definition root_row : CA := default (mkCA "" "" "" "" None "" 0 0 "" 0) (m_CAs (wd_mem with_root) !! "id0").
(** Another trust domain had the name first. *)
Definition old_mesh : Issuer := mesh_issuer "i0" "Mesh" "old.example" "id0".
Definition moved : World := (writing (Mem_InsertIssuer old_mesh) with_root).2.
Lemma moved_wf : wf (wd_mem moved) /\ m_Fail (wd_mem moved) = ∅.
Proof.
  split; [|vm_compute; reflexivity].
  replace (wd_mem moved) with (run_op (OpInsertIssuer old_mesh) (run_op (OpInsertCA root_row) (Mem_New 5))) by (vm_compute; reflexivity).
  repeat (apply run_op_wf || apply wf_New || reflexivity).
Qed.
Example bootstrap_run : exists serial files w,
  bootstrap 10 "example.org" "gateway, auth,,lcm" true (12 * 3600 * Second) empty = (Ok (serial, files), w)
  /\ (of_name <$> files) = ["gateway.pem"; "gateway.key"; "auth.pem"; "auth.key"; "lcm.pem"; "lcm.key"; "ca.pem"].
Proof. vm_compute. eauto 10. Qed.
Lemma moved_names : mesh_names "example.org" (wd_mem moved).
Proof.
  assert (Hone : forall k x, m_Issuers (wd_mem moved) !! k = Some x -> iss_Name x = "Mesh").
  { intros k x Hx. assert (Hl : (k, x) ∈ map_to_list (m_Issuers (wd_mem moved))) by (by apply elem_of_map_to_list).
    assert (Hn : (iss_Name <$> (map_to_list (m_Issuers (wd_mem moved))).*2) = ["Mesh"]) by (vm_compute; reflexivity).
    assert (Hin : iss_Name x ∈ iss_Name <$> (map_to_list (m_Issuers (wd_mem moved))).*2).
    { apply list_elem_of_fmap. exists x. split; [done|]. apply list_elem_of_fmap. by exists (k, x). }
    rewrite Hn in Hin. by apply list_elem_of_singleton in Hin. }
  split; [intros k x Hx%Hone _; by rewrite Hx|intros k x Hx%Hone; by rewrite Hx|intros k x Hx%Hone _; by rewrite Hx].
Qed.
Lemma mesh_issuer_ensured_witness : exists w',
  ensureDefaultIssuer "example.org" "id0" moved = (Ok tt, w') /\ has_default "example.org" (wd_mem w').
Proof.
  destruct (mesh_issuer_ensured "example.org" "id0" root_row moved) as (w' & Hr & Hd & _).
  - exact (proj1 moved_wf).
  - exact (proj2 moved_wf).
  - vm_compute. reflexivity.
  - exact moved_names.
  - vm_compute. reflexivity.
  - vm_compute. reflexivity.
  - exists w'. auto.
Defined.
(** A development root, and a run that keeps it. *)
Definition first_run : res (list OutFile) * World := devca 1000 "example.org" "orders" 3600 7200 true ∅ empty.
Definition first_files : list OutFile := match first_run.1 with Ok l => l | Err _ => [] end.
Lemma devca_root_stable_witness : exists root key keyPEM, mkOutFile "ca.pem" (EncodeCertPEM root) 384 ∈ first_files
  /\ forall w2, devca 2000 "example.org" "orders" 3600 7200 true (<["ca.pem" := EncodeCertPEM root]> (<["ca.key" := keyPEM]> ∅)) w2
       = devca_leaves 2000 "example.org" 3600 root key ["orders"] w2.
Proof.
  assert (Hr : devca 1000 "example.org" "orders" 3600 7200 true ∅ empty = (Ok first_files, first_run.2)) by (vm_compute; reflexivity).
  destruct (devca_root_stable (H0 := toy_env_laws) 1000 "example.org" "orders" 3600 7200 true empty first_files first_run.2 Hr)
    as (root & key & keyPEM & Hc & _ & Hl).
  exists root, key, keyPEM. split; [exact Hc|]. intros w2. apply Hl; reflexivity.
Defined.
End BootstrapSample.
