(* ===== verification/Kek.v ===== *)
(** Loading the key-encryption key: LoadKEK and decodeKEK of internal/sealed/sealed.go,
    with the standard base64 alphabet of encoding/base64. *)

From S2P Require Import Prelude GoJson GoUrl Csr Stream Regexp Domains.

(** ** encoding/base64 *)
Definition b64_char (v : Z) : Ascii.ascii :=
  chr (if v <? 26 then 65 + v else if v <? 52 then 71 + v else if v <? 62 then v - 4 else if v =? 62 then 43 else 47).
Definition b64_value (c : Ascii.ascii) : option Z :=
  let b := byte_of c in
  if (65 <=? b) && (b <=? 90) then Some (b - 65)
  else if (97 <=? b) && (b <=? 122) then Some (b - 71)
  else if (48 <=? b) && (b <=? 57) then Some (b + 4)
  else if b =? 43 then Some 62 else if b =? 47 then Some 63 else None.
Definition is_pad (c : Ascii.ascii) : bool := byte_of c =? 61.
Definition pad : Ascii.ascii := chr 61.
(** The bytes of a group of characters; what is left over of the last one is dropped. *)
Definition bytes3 (a b c d : Z) : string :=
  String (chr (a * 4 + b / 16)) (String (chr (b mod 16 * 16 + c / 4)) (str1 (chr (c mod 4 * 64 + d)))).
Definition bytes2 (a b c : Z) : string := String (chr (a * 4 + b / 16)) (str1 (chr (b mod 16 * 16 + c / 4))).
Definition bytes1 (a b : Z) : string := str1 (chr (a * 4 + b / 16)).
Fixpoint b64_groups (padded : bool) (s : string) : option string :=
  match s with
  | EmptyString => Some EmptyString
  | String a (String b (String c (String d rest))) =>
    va ← b64_value a; vb ← b64_value b;
    match b64_value c, b64_value d with
    | Some vc, Some vd => t ← b64_groups padded rest; Some (bytes3 va vb vc vd +:+ t)
    | Some vc, None => if padded && is_pad d && (rest =s "") then Some (bytes2 va vb vc) else None
    | None, _ => if padded && is_pad c && is_pad d && (rest =s "") then Some (bytes1 va vb) else None
    end
  | String a (String b (String c EmptyString)) =>
    if padded then None else va ← b64_value a; vb ← b64_value b; vc ← b64_value c; Some (bytes2 va vb vc)
  | String a (String b EmptyString) => if padded then None else va ← b64_value a; vb ← b64_value b; Some (bytes1 va vb)
  | String _ EmptyString => None
  end.
(** Line breaks are skipped wherever they are: the [drop_breaks] of the event frames. *)
Definition b64_decode (padded : bool) (s : string) : option string := b64_groups padded (drop_breaks s).
Definition b64_pad (padded : bool) (n : nat) : string := if padded then Nat.iter n (String pad) "" else "".
Fixpoint b64_encode (padded : bool) (s : string) : string :=
  match s with
  | EmptyString => EmptyString
  | String x EmptyString =>
    let x := byte_of x in
    String (b64_char (x / 4)) (String (b64_char (x mod 4 * 16)) (b64_pad padded 2))
  | String x (String y EmptyString) =>
    let x := byte_of x in let y := byte_of y in
    String (b64_char (x / 4)) (String (b64_char (x mod 4 * 16 + y / 16)) (String (b64_char (y mod 16 * 4)) (b64_pad padded 1)))
  | String x (String y (String z rest)) =>
    let x := byte_of x in let y := byte_of y in let z := byte_of z in
    String (b64_char (x / 4)) (String (b64_char (x mod 4 * 16 + y / 16))
      (String (b64_char (y mod 16 * 4 + z / 64)) (String (b64_char (z mod 64)) (b64_encode padded rest))))
  end.

(** ** The key *)
Definition sealed_ErrKEK : err := Sentinel "sealed" "ErrKEK".
(** The operating system: files and environment. *)
Class KekSource := { read_file : string -> option string; get_env : string -> string }.
Section kek.
Context `{GoRuntime} `{KekSource}.
Definition is_key (b : option string) : option string :=
  match b with Some k => if str_len k =? 32 then Some k else None | None => None end.
Definition decodeKEK (raw : string) : res string :=
  let trimmed := TrimSpace raw in
  match is_key (b64_decode true trimmed) with
  | Some k => Ok k
  | None => match is_key (b64_decode false trimmed) with
            | Some k => Ok k
            | None => if str_len raw =? 32 then Ok raw else Err sealed_ErrKEK
            end
  end.
Definition LoadKEK (source path env : string) : res string :=
  if source =s "file" then
    match read_file path with Some raw => decodeKEK raw | None => Err (Opaque "sealed: kek") end
  else if source =s "env" then
    let v := get_env env in if v =s "" then Err (Opaque "sealed: kek: environment variable is empty") else decodeKEK v
  else Err (Opaque "sealed: kek: unknown source").
End kek.

(** ** Round trips *)
Lemma b64_value_char v : 0 <= v < 64 -> b64_value (b64_char v) = Some v.
Proof.
  intros Hv. assert (Hall : forallb (fun n => bool_decide (b64_value (b64_char (Z.of_nat n)) = Some (Z.of_nat n))) (seq 0 64) = true)
    by (vm_compute; reflexivity).
  rewrite forallb_forall in Hall. specialize (Hall (Z.to_nat v)). rewrite Z2Nat.id in Hall by lia.
  apply bool_decide_eq_true in Hall; [done|]. apply in_seq. lia.
Qed.
Lemma b64_char_plain v : 0 <= v < 64 -> let b := byte_of (b64_char v) in
  (b =? 10) = false /\ (b =? 13) = false /\ is_ascii_byte (b64_char v) = true /\ space_byte (b64_char v) = false.
Proof.
  intros Hv. assert (Hall : forallb (fun n => let c := b64_char (Z.of_nat n) in
      negb (byte_of c =? 10) && negb (byte_of c =? 13) && is_ascii_byte c && negb (space_byte c)) (seq 0 64) = true) by (vm_compute; reflexivity).
  rewrite forallb_forall in Hall. specialize (Hall (Z.to_nat v)). rewrite Z2Nat.id in Hall by lia. cbv zeta in *.
  rewrite !andb_true_iff, !negb_true_iff in Hall. destruct Hall as [[[? ?] ?] ?]; [|done]. apply in_seq. lia.
Qed.
(** Three bytes as four numbers below 64, and back. *)
Lemma sextets x y z : 0 <= x < 256 -> 0 <= y < 256 -> 0 <= z < 256 ->
  (0 <= x / 4 < 64 /\ 0 <= x mod 4 * 16 + y / 16 < 64 /\ 0 <= y mod 16 * 4 + z / 64 < 64 /\ 0 <= z mod 64 < 64)
  /\ x / 4 * 4 + (x mod 4 * 16 + y / 16) / 16 = x
  /\ (x mod 4 * 16 + y / 16) mod 16 * 16 + (y mod 16 * 4 + z / 64) / 4 = y
  /\ (y mod 16 * 4 + z / 64) mod 4 * 64 + z mod 64 = z.
Proof. intros. Z.to_euclidean_division_equations. lia. Qed.
(** Induction three bytes at a time. *)
Lemma by_threes (P : string -> Prop) :
  P "" -> (forall x, P (str1 x)) -> (forall x y, P (String x (str1 y))) ->
  (forall x y z s, P s -> P (String x (String y (String z s)))) -> forall s, P s.
Proof.
  intros H0 H1 H2 H3 s. assert (Hn : forall n s, (String.length s <= n)%nat -> P s).
  { clear s. induction n as [|n IH]; intros [|x [|y [|z s]]] Hl; cbn in Hl; first [lia|exact H0|exact (H1 x)|exact (H2 x y)|apply H3, IH; lia]. }
  by apply (Hn (String.length s)).
Qed.
Lemma chr_byte_of c : chr (byte_of c) = c.
Proof. apply byte_of_inj, byte_of_chr, byte_range. Qed.
Lemma b64_groups_back padded s : b64_groups padded (b64_encode padded s) = Some s.
Proof.
  assert (Hpad : b64_value pad = None /\ is_pad pad = true) by done. destruct Hpad as [Hv Hp].
  induction s as [|x|x y|x y z s IH] using by_threes; [done|..].
  - pose proof (byte_range x) as Hx. destruct (sextets (byte_of x) 0 0) as ((A & B & _) & E & _); [lia..|].
    cbn [b64_encode str1]. change (0 / 16) with 0 in *. rewrite Z.add_0_r in *. unfold str1. destruct padded; cbn [b64_pad Nat.iter nat_rect b64_groups];
      rewrite !b64_value_char by lia; cbn [mbind option_bind]; rewrite ?Hv, ?Hp; cbn; unfold bytes1; by rewrite E, chr_byte_of.
  - pose proof (byte_range x) as Hx. pose proof (byte_range y) as Hy.
    destruct (sextets (byte_of x) (byte_of y) 0) as ((A & B & C & _) & E & F & _); [lia..|]. change (0 / 64) with 0 in *. rewrite Z.add_0_r in *.
    cbn [b64_encode str1]. unfold str1. destruct padded; cbn [b64_pad Nat.iter nat_rect b64_groups];
      rewrite !b64_value_char by lia; cbn [mbind option_bind]; rewrite ?Hv, ?Hp; cbn; unfold bytes2; by rewrite E, F, !chr_byte_of.
  - pose proof (byte_range x) as Hx. pose proof (byte_range y) as Hy. pose proof (byte_range z) as Hz.
    destruct (sextets (byte_of x) (byte_of y) (byte_of z)) as ((A & B & C & D) & E & F & G); [lia..|].
    cbn [b64_encode b64_groups]. rewrite !b64_value_char by lia. cbn [mbind option_bind]. rewrite IH. cbn. unfold bytes3.
    by rewrite E, F, G, !chr_byte_of.
Qed.
Lemma encoded_plain padded s : string_forallb (fun c => is_ascii_byte c && negb (space_byte c) && negb (byte_of c =? 10) && negb (byte_of c =? 13))
  (b64_encode padded s) = true.
Proof.
  set (f := fun c => _).
  assert (Hf : forall v, 0 <= v < 64 -> f (b64_char v) = true).
  { intros v Hv. unfold f. destruct (b64_char_plain v Hv) as (-> & -> & -> & ->). done. }
  assert (Hpad : forall n, string_forallb f (b64_pad padded n) = true).
  { intros n. unfold b64_pad. destruct padded; [|done]. induction n as [|n IH]; [done|]. exact IH. }
  induction s as [|x|x y|x y z s IH] using by_threes; [done|..]; cbn [b64_encode str1 string_forallb].
  - unfold str1. pose proof (byte_range x). cbn [string_forallb]. rewrite !Hf, Hpad by (Z.to_euclidean_division_equations; lia). done.
  - unfold str1. pose proof (byte_range x). pose proof (byte_range y). cbn [string_forallb].
    rewrite !Hf, Hpad by (Z.to_euclidean_division_equations; lia). done.
  - destruct (sextets (byte_of x) (byte_of y) (byte_of z)) as ((A & B & C & D) & _); [apply byte_range..|]. rewrite !Hf, IH by lia. done.
Qed.

(** The padded decoder on a text without padding: the same, or nothing. *)
Lemma b64_groups_unpadded s : b64_groups true (b64_encode false s) = Some s \/ b64_groups true (b64_encode false s) = None.
Proof.
  induction s as [|x|x y|x y z s IH] using by_threes; [by left|by right|by right|].
  pose proof (b64_groups_back true (String x (String y (str1 z)))) as Hg. cbn [b64_encode str1 b64_groups] in Hg |- *.
  destruct (sextets (byte_of x) (byte_of y) (byte_of z)) as ((A & B & C & D) & E & F & G); [apply byte_range..|].
  rewrite !b64_value_char by lia. cbn [mbind option_bind]. destruct IH as [->| ->]; [left|by right]. cbn. unfold bytes3.
  by rewrite E, F, G, !chr_byte_of.
Qed.
Lemma b64_groups_length padded s t : b64_groups padded s = Some t -> (4 * String.length t <= 3 * String.length s)%nat.
Proof.
  assert (Hn : forall n s t, (String.length s <= n)%nat -> b64_groups padded s = Some t -> (4 * String.length t <= 3 * String.length s)%nat).
  { clear s t. induction n as [|n IH]; intros [|a [|b [|c [|d s]]]] t Hl; cbn [b64_groups String.length] in *; try lia; try (intros [= <-]; cbn; lia); try done.
    - destruct padded; [done|]. destruct (b64_value a), (b64_value b); cbn; try done. intros [= <-]. cbn. lia.
    - destruct padded; [done|]. destruct (b64_value a), (b64_value b), (b64_value c); cbn; try done. intros [= <-]. cbn. lia.
    - destruct (b64_value a), (b64_value b), (b64_value c), (b64_value d); cbn [mbind option_bind]; try done.
      + destruct (b64_groups padded s) as [t'|] eqn:E; [|done]. intros [= <-]. apply IH in E; [|lia]. change (String.length (bytes3 _ _ _ _ +:+ t')) with (S (S (S (String.length t')))). lia.
      + case_match; [|done]. intros [= <-]. cbn. lia.
      + case_match; [|done]. intros [= <-]. cbn. lia.
      + case_match; [|done]. intros [= <-]. cbn. lia. }
  by apply (Hn (String.length s)).
Qed.
Lemma drop_breaks_length s : (String.length (drop_breaks s) <= String.length s)%nat.
Proof. induction s as [|c s IH]; cbn; [lia|]. case_match; cbn; lia. Qed.
Lemma drop_breaks_plain s : string_forallb (fun c => negb ((byte_of c =? 13) || (byte_of c =? 10))) s = true -> drop_breaks s = s.
Proof.
  induction s as [|c s IH]; [done|]. cbn. intros [Hc Hs]%andb_true_iff. apply negb_true_iff in Hc. by rewrite Hc, IH.
Qed.
Lemma trim_left_length s : (String.length (trim_left s) <= String.length s)%nat.
Proof. induction s as [|c s IH]; cbn; [lia|]. case_match; cbn; lia. Qed.
Lemma trim_right_length s : (String.length (trim_right s) <= String.length s)%nat.
Proof. induction s as [|c s IH]; cbn; [lia|]. destruct (trim_right s); cbn in *; [case_match; cbn; lia|lia]. Qed.
Lemma trim_right_snoc s c : space_byte c = true -> trim_right (s +:+ str1 c) = trim_right s.
Proof. intros Hc. induction s as [|x s IH].
  - change (trim_right (str1 c) = ""). unfold str1. cbn [trim_right]. by rewrite Hc.
  - change (trim_right (String x (s +:+ str1 c)) = trim_right (String x s)). cbn [trim_right]. by rewrite IH.
Qed.

Section forms.
Context `{GoRuntime}.
(** [strings.TrimSpace] never lengthens a text that is not ASCII either. *)
Hypothesis trim_shortens : forall s, (String.length (unicode_trim s) <= String.length s)%nat.
Lemma TrimSpace_length s : (String.length (TrimSpace s) <= String.length s)%nat.
Proof.
  unfold TrimSpace. case_match; [|done]. etrans; [apply trim_right_length|apply trim_left_length].
Qed.
Lemma encoded_trim padded k (end_ : string) : end_ = "" \/ end_ = nl -> k <> "" ->
  b64_decode padded (TrimSpace (b64_encode padded k +:+ end_)) = Some k
  /\ (padded = false -> b64_decode true (TrimSpace (b64_encode padded k +:+ end_)) = Some k
                        \/ b64_decode true (TrimSpace (b64_encode padded k +:+ end_)) = None).
Proof.
  intros He Hk. pose proof (encoded_plain padded k) as Hp. set (t := b64_encode padded k) in *.
  assert (Ht : TrimSpace (t +:+ end_) = t).
  { assert (Ha : string_forallb is_ascii_byte t = true).
    { eapply forallb_impl; [|exact Hp]. intros c Hc. rewrite !andb_true_iff in Hc. by destruct Hc as [[[? _] _] _]. }
    assert (Hs : string_forallb (fun c => negb (space_byte c)) t = true).
    { eapply forallb_impl; [|exact Hp]. intros c Hc. rewrite !andb_true_iff in Hc. by destruct Hc as [[[_ ?] _] _]. }
    unfold TrimSpace. rewrite forallb_app, Ha. replace (string_forallb is_ascii_byte end_) with true by (by destruct He as [-> | ->]). cbn [andb].
    destruct He as [-> | ->]; [rewrite str_app_nil; by apply trim_plain|].
    assert (Hl : forall u, trim_left (t +:+ u) = t +:+ u).
    { intros u. destruct t as [|c t'] eqn:Et; [unfold t in Et; by destruct k as [|x [|y [|z k]]]|].
      cbn [string_forallb] in Hs. apply andb_true_iff in Hs as [Hc _]. apply negb_true_iff in Hc.
      change (trim_left (String c (t' +:+ u)) = String c (t' +:+ u)). cbn [trim_left]. by rewrite Hc. }
    rewrite Hl. change nl with (str1 (chr 10)). rewrite trim_right_snoc by done.
    pose proof (trim_plain t Hs) as Hq. specialize (Hl ""). rewrite str_app_nil in Hl. by rewrite Hl in Hq. }
  rewrite Ht. unfold b64_decode. rewrite drop_breaks_plain.
  2: { eapply forallb_impl; [|exact Hp]. intros c Hc. rewrite !andb_true_iff, !negb_true_iff in Hc. destruct Hc as [[_ ->] ->]. done. }
  split; [apply b64_groups_back|]. intros ->. apply b64_groups_unpadded.
Qed.
(** A key-encryption key of 32 bytes is loaded alike from its base64 text, with or
    without padding and with or without a line break at its end, and from its raw
    bytes; nothing that is not 32 bytes long is ever taken for a key. *)
Theorem decodeKEK_forms :
  (forall k padded end_, str_len k = 32 -> end_ = "" \/ end_ = nl -> decodeKEK (b64_encode padded k +:+ end_) = Ok k)
  /\ (forall k, str_len k = 32 -> decodeKEK k = Ok k)
  /\ (forall raw k, decodeKEK raw = Ok k -> str_len k = 32).
Proof.
  split_and!.
  - intros k padded end_ Hk He. assert (Hne : k <> "") by (intros ->; done). unfold decodeKEK. cbv zeta.
    destruct (encoded_trim padded k end_ He Hne) as [Hd Hu]. destruct padded.
    + rewrite Hd. cbn [is_key]. by rewrite Hk.
    + destruct (Hu eq_refl) as [-> | ->]; cbn [is_key]; [by rewrite Hk|]. rewrite Hd. cbn [is_key]. by rewrite Hk.
  - intros k Hk. unfold decodeKEK. cbv zeta.
    assert (Hshort : forall padded, is_key (b64_decode padded (TrimSpace k)) = None).
    { intros padded. destruct (b64_decode padded (TrimSpace k)) as [t|] eqn:E; [|done]. cbn [is_key].
      apply b64_groups_length in E. pose proof (drop_breaks_length (TrimSpace k)). pose proof (TrimSpace_length k).
      unfold str_len in *. rewrite (proj2 (Z.eqb_neq _ _)); [done|lia]. }
    rewrite !Hshort. by rewrite Hk.
  - intros raw k. unfold decodeKEK. cbv zeta. destruct (is_key (b64_decode true _)) as [a|] eqn:E1.
    { intros [= <-]. unfold is_key in E1. repeat case_match; simplify_eq. by bools. }
    destruct (is_key (b64_decode false _)) as [a|] eqn:E2; [|case_match; intros [= <-]; by bools].
    intros [= <-]. unfold is_key in E2. repeat case_match; simplify_eq. by bools.
Qed.
End forms.

Module KekSample.
#[local] Existing Instance std_runtime.
#[local] Instance toy_files : KekSource := {|
  read_file p := if p =s "/etc/kek" then Some ("MDEyMzQ1Njc4OWFiY2RlZjAxMjM0NTY3ODlhYmNkZWY" +:+ nl) else None;
  get_env v := "" |}.
Definition sample_key : string := "0123456789abcdef0123456789abcdef".
Example encodes : b64_encode true sample_key = "MDEyMzQ1Njc4OWFiY2RlZjAxMjM0NTY3ODlhYmNkZWY=".
Proof. vm_compute. reflexivity. Qed.
Example loads : LoadKEK "file" "/etc/kek" "" = Ok sample_key /\ LoadKEK "env" "" "KEK" <> Ok sample_key.
Proof. split; [vm_compute; reflexivity|vm_compute; discriminate]. Qed.
Lemma decodeKEK_forms_witness : decodeKEK (b64_encode false sample_key +:+ nl) = Ok sample_key /\ decodeKEK sample_key = Ok sample_key.
Proof.
  destruct (@decodeKEK_forms std_runtime (fun s => le_n (String.length s))) as (Ht & Hr & _).
  split; [apply Ht; [reflexivity|right; reflexivity]|apply Hr; reflexivity].
Defined.
End KekSample.
