(* ===== verification/Process.v ===== *)
(** Putting the process together and taking it apart: Build, Close and Health of
    internal/app/app.go, and the registration loop of internal/app/permissions.go.

    What connects to the outside succeeds or fails as the class [Outside] says; the
    state is what Build has acquired, in order, and what was released. *)

From S2P Require Import Prelude Stream.

(** The dependencies with something to release, in the order Build acquires them. *)
Inductive resource := RStore | RKV | RAudit | RIdentity | RFreya.
#[export] Instance resource_eq_dec : EqDecision resource.
Proof. solve_decision. Defined.
(** The options of Build: which parts the caller supplies. *)
Record BuildOptions := mkBuildOptions {
  bo_Migrate : bool; bo_KV : bool; bo_KEK : bool; bo_Verifier : bool; bo_Perms : bool; bo_EnrollTokens : bool; bo_Register : bool;
}.
Class Outside := {
  out_validate : option err; out_migrate : option err; out_open : option err;
  out_ca_file : option (option err);       (* valkey.ca_file is set, and reading it *)
  out_valkey : option err; out_kek : option err; out_envelope : option err; out_identity : option err;
  out_freya : option err; out_auth : option err; out_http : option err; out_register : option err;
}.
Record App := mkApp { app_closers : list resource; app_closed : list resource }.
#[export] Instance app_eta : RecordEta App := fun a => mkApp (app_closers a) (app_closed a).
(** [Close]: in reverse order, and only once. *)
Definition app_Close (a : App) : App := mkApp [] (app_closed a ++ rev (app_closers a)).

Section build.
Context `{Outside}.
Definition tryErr (e : option err) : ST App unit := fun a => (match e with None => Ok tt | Some e => Err e end, a).
Definition acquire (r : resource) : ST App unit := st_mod (fun a => a <| app_closers := app_closers a ++ [r] |>).
Definition unless (b : bool) (m : ST App unit) : ST App unit := if b then st_ret tt else m.
(** The part of Build behind its deferred Close. *)
Definition build_steps (o : BuildOptions) : ST App unit :=
  let* _ := unless (negb (bo_Migrate o)) (tryErr out_migrate) in
  let* _ := tryErr out_open in
  let* _ := acquire RStore in
  let* _ := unless (bo_KV o)
    (let* _ := match out_ca_file with Some r => tryErr r | None => st_ret tt end in tryErr out_valkey) in
  let* _ := acquire RKV in
  let* _ := unless (bo_KEK o) (tryErr out_kek) in
  let* _ := tryErr out_envelope in
  let* _ := acquire RAudit in
  let* _ := tryErr out_identity in
  let* _ := acquire RIdentity in
  let* _ := tryErr out_freya in
  let* _ := acquire RFreya in
  let* _ := unless (bo_Verifier o && bo_Perms o && bo_EnrollTokens o) (tryErr out_auth) in
  let* _ := tryErr out_http in
  unless (negb (bo_Register o)) (tryErr out_register).
Definition Build (o : BuildOptions) : res unit * App :=
  match out_validate with
  | Some e => (Err e, mkApp [] [])
  | None =>
    let '(r, a) := build_steps o (mkApp [] []) in
    match r with Ok _ => (Ok tt, a) | Err e => (Err e, app_Close a) end
  end.
End build.

(** ** Health *)
Record Health := mkHealth { hl_DB : string; hl_Valkey : string; hl_SchedulerLastTick : Z }.
(** [lastTick] is in nanoseconds since 1970, zero before the first pass. *)
Definition app_Health (db kv : bool) (lastTick : Z) : Health :=
  mkHealth (if db then "ok" else "unreachable") (if kv then "ok" else "unreachable")
    (if 0 <? lastTick then unix_epoch + lastTick else 0).

(** ** Registration with the auth service *)
Definition registerRetry : Z := 5 * Second.
Definition registerPeriod : Z := 300 * Second.
(** The waits between the calls of [seed]: [ok n] is the outcome of the n-th call, and
    the context ends at the wait whose number is [len]. *)
Fixpoint registration_waits (ok : nat -> bool) (registered : bool) (n len : nat) : list Z :=
  match len with
  | O => []
  | S len => let registered := registered || ok n in
             (if registered then registerPeriod else registerRetry) :: registration_waits ok registered (S n) len
  end.
Definition registrationLoop (ok : nat -> bool) (len : nat) : list Z := registration_waits ok false 0 len.

(** ** Nothing is leaked *)
Section released.
Context `{Outside}.
Definition all_resources : list resource := [RStore; RKV; RAudit; RIdentity; RFreya].
(** From holding [from], a success holds [to] and a failure part of what there is to hold. *)
Definition leads (from to : list resource) (m : ST App unit) : Prop := forall r a',
  m (mkApp from []) = (r, a') ->
  match r with Ok _ => a' = mkApp to [] | Err _ => exists got, got `prefix_of` all_resources /\ a' = mkApp got [] end.
Lemma leads_ret from : leads from from (st_ret tt).
Proof. intros r a' Hm. cbv in Hm. by simplify_eq. Qed.
Lemma leads_try from e : from `prefix_of` all_resources -> leads from from (tryErr e).
Proof. intros Hp r a' Hm. unfold tryErr in Hm. destruct e; simplify_eq; [by exists from|done]. Qed.
Lemma leads_acquire from r : leads from (from ++ [r]) (acquire r).
Proof. intros x a' Hm. unfold acquire, st_mod in Hm. by simplify_eq. Qed.
Lemma leads_bind from mid to m k : leads from mid m -> leads mid to (k tt) -> leads from to (st_bind m k).
Proof.
  intros Hm Hk r a' Hr. unfold st_bind in Hr. destruct (m _) as [[[]|e] a1] eqn:E; specialize (Hm _ _ E); cbn in Hm.
  - subst a1. by apply Hk.
  - by simplify_eq.
Qed.
Lemma leads_unless from b m : leads from from m -> leads from from (unless b m).
Proof. intros Hm. destruct b; [apply leads_ret|done]. Qed.
Lemma build_steps_lead o : leads [] all_resources (build_steps o).
Proof.
  unfold build_steps, all_resources. repeat (eapply leads_bind; [|cbn [app]]).
  all: repeat first [apply leads_acquire|apply leads_unless|apply leads_ret|apply leads_try|progress case_match|eapply leads_bind].
  all: by apply (bool_decide_unpack _).
Qed.
(** A process that cannot be put together leaves nothing behind: whichever step
    fails, what was acquired until then is released, last first and once, and nothing
    else; a process that was put together holds everything, and closing it releases it
    in reverse, a second time nothing. *)
Theorem Build_releases o r a :
  Build o = (r, a) ->
  (is_ok r = true -> app_closers a = all_resources /\ app_closed a = []
     /\ app_closed (app_Close (app_Close a)) = rev all_resources)
  /\ (is_ok r = false -> app_closers a = [] /\ exists got, got `prefix_of` all_resources /\ app_closed a = rev got).
Proof.
  unfold Build. destruct out_validate; [intros; simplify_eq; split; [done|]; intros _; split; [done|]; exists []; split; [apply prefix_nil|done]|].
  destruct (build_steps o (mkApp [] [])) as [r' a'] eqn:E. apply build_steps_lead in E. destruct r' as [u|e]; intros; simplify_eq.
  - done.
  - destruct E as (got & Hg & ->). split; [done|]. intros _. split; [done|]. by exists got.
Qed.
(** The first call that succeeds ends the retries for good. *)
Lemma registrationLoop_settles ok n len : (forall k, (k < n)%nat -> ok k = false) -> ok n = true -> (n <= len)%nat ->
  registrationLoop ok len = replicate n registerRetry ++ replicate (len - n) registerPeriod.
Proof.
  unfold registrationLoop. intros Hf Hn Hl.
  assert (Hafter : forall m k, registration_waits ok true k m = replicate m registerPeriod) by (induction m; intros; cbn; by f_equal).
  assert (Hg : forall d k, (k + d = n)%nat -> registration_waits ok false k (len - k) = replicate d registerRetry ++ replicate (len - n) registerPeriod).
  { induction d as [|d IH]; intros k Hk.
    - replace k with n by lia. destruct (len - n)%nat as [|m] eqn:E; [done|]. cbn [registration_waits orb]. rewrite Hn, Hafter. done.
    - replace (len - k)%nat with (S (len - S k)) by lia. cbn [registration_waits orb]. rewrite Hf by lia. cbn. f_equal. apply IH. lia. }
  specialize (Hg n 0%nat). rewrite Nat.sub_0_r in Hg. by apply Hg.
Qed.
End released.

Module ProcessSample.
#[local] Instance no_gateway : Outside := {|
  out_validate := None; out_migrate := None; out_open := None; out_ca_file := None; out_valkey := None; out_kek := None;
  out_envelope := None; out_identity := Some (Opaque "self-issue identity"); out_freya := None; out_auth := None; out_http := None; out_register := None |}.
Definition plain_options : BuildOptions := mkBuildOptions true false false false false false true.
Lemma Build_releases_witness : app_closers (Build plain_options).2 = [] /\ app_closed (Build plain_options).2 = [RAudit; RKV; RStore].
Proof.
  split; [|reflexivity].
  exact (proj1 (proj2 (Build_releases plain_options _ _ (surjective_pairing _)) eq_refl)).
Defined.
End ProcessSample.
