(* ===== verification/Surface.v ===== *)
(** What the module shows to the outside: the operations of the OpenAPI document
    (src/api/openapi/lcm.yaml), the routes the Register functions of internal/httpapi
    mount in the order of internal/app/wire.go, the route of the live stream
    (internal/httpapi/stream.go), and what is registered at the gateway and at the
    auth service (src/pkg/lcmmanifest). *)

From S2P Require Import Prelude Rows Authz GoJson GoUrl AuditLog Csr Domains Stream Sse Hub Http.

(** ** The document *)
Definition PermissionExtension : string := "x-freya-permission".
Definition ClientAddressExtension : string := "x-freya-client-address".
Definition TimeoutExtension : string := "x-freya-timeout-seconds".
Definition Prefix : string := "/api/lcm/v1".

(** An operation with the extensions the module reads; the reader gives numbers as
    float64 and methods in capitals. *)
Definition op (method : string) (ext : list (string * ExtValue)) : string * Operation :=
  (method, mkOperation (list_to_map ext)).
Definition at_ (path : string) (ops : list (string * Operation)) : string * gmap string Operation :=
  (Prefix +:+ path, list_to_map ops).
Definition LCM : Doc := list_to_map [
  at_ "/issuers"
    [op "GET" [(PermissionExtension, EString "issuers:read")];
     op "POST" [(PermissionExtension, EString "issuers:manage")]];
  at_ "/issuers/{id}"
    [op "GET" [(PermissionExtension, EString "issuers:read")];
     op "PUT" [(PermissionExtension, EString "issuers:manage")]];
  at_ "/issuers/{id}/remove"
    [op "POST" [(PermissionExtension, EString "issuers:manage")]];
  at_ "/dns-providers"
    [op "GET" [(PermissionExtension, EString "issuers:read")]];
  at_ "/certificates"
    [op "GET" [(PermissionExtension, EString "certificates:read")]];
  at_ "/certificates/issue"
    [op "POST" [(PermissionExtension, EString "certificates:issue"); (TimeoutExtension, EFloat 60 1)]];
  at_ "/certificates/acme"
    [op "POST" [(PermissionExtension, EString "certificates:issue"); (TimeoutExtension, EFloat 30 1)]];
  at_ "/certificates/import"
    [op "POST" [(PermissionExtension, EString "certificates:issue"); (BodyLimitExtension, EFloat 262144 1); (TimeoutExtension, EFloat 30 1)]];
  at_ "/certificates/{id}"
    [op "GET" [(PermissionExtension, EString "certificates:read")];
     op "PUT" [(PermissionExtension, EString "certificates:manage")]];
  at_ "/certificates/{id}/details"
    [op "GET" [(PermissionExtension, EString "certificates:read")]];
  at_ "/certificates/{id}/download"
    [op "GET" [(PermissionExtension, EString "certificates:read")]];
  at_ "/certificates/{id}/key"
    [op "GET" [(PermissionExtension, EString "certificates:manage")]];
  at_ "/certificates/{id}/renew"
    [op "POST" [(PermissionExtension, EString "certificates:manage"); (TimeoutExtension, EFloat 60 1)]];
  at_ "/certificates/{id}/revoke"
    [op "POST" [(PermissionExtension, EString "certificates:revoke")]];
  at_ "/certificates/{id}/deploy"
    [op "POST" [(PermissionExtension, EString "certificates:manage")]];
  at_ "/certificates/{id}/remove"
    [op "POST" [(PermissionExtension, EString "certificates:manage")]];
  at_ "/requests"
    [op "GET" [(PermissionExtension, EString "certificates:read")];
     op "POST" [(PermissionExtension, EString "certificates:issue")]];
  at_ "/requests/{id}"
    [op "GET" [(PermissionExtension, EString "certificates:read")]];
  at_ "/requests/{id}/approve"
    [op "POST" [(PermissionExtension, EString "certificates:manage")]];
  at_ "/requests/{id}/reject"
    [op "POST" [(PermissionExtension, EString "certificates:manage")]];
  at_ "/jobs"
    [op "GET" [(PermissionExtension, EString "jobs:read")]];
  at_ "/jobs/{id}"
    [op "GET" [(PermissionExtension, EString "jobs:read")]];
  at_ "/jobs/{id}/cancel"
    [op "POST" [(PermissionExtension, EString "jobs:manage")]];
  at_ "/jobs/{id}/retry"
    [op "POST" [(PermissionExtension, EString "jobs:manage")]];
  at_ "/enroll"
    [op "POST" [(PublicExtension, EBool true); (TimeoutExtension, EFloat 60 1)]];
  at_ "/bootstrap-bundle"
    [op "GET" [(PublicExtension, EBool true)]];
  at_ "/trust-bundle"
    [op "GET" [(PermissionExtension, EString "certificates:read")]];
  at_ "/revocations"
    [op "GET" [(PermissionExtension, EString "certificates:read")]];
  at_ "/crl"
    [op "GET" [(PermissionExtension, EString "certificates:read")]];
  at_ "/deployment-targets"
    [op "GET" [(PermissionExtension, EString "certificates:manage")];
     op "POST" [(PermissionExtension, EString "certificates:manage")]];
  at_ "/installed"
    [op "GET" [(PermissionExtension, EString "certificates:read")]];
  at_ "/secrets"
    [op "GET" [(PermissionExtension, EString "secrets:manage")];
     op "POST" [(PermissionExtension, EString "secrets:manage")]];
  at_ "/secrets/{id}"
    [op "PUT" [(PermissionExtension, EString "secrets:manage")]];
  at_ "/secrets/{id}/rotate"
    [op "POST" [(PermissionExtension, EString "secrets:manage")]];
  at_ "/secrets/{id}/remove"
    [op "POST" [(PermissionExtension, EString "secrets:manage")]];
  at_ "/webhooks"
    [op "GET" [(PermissionExtension, EString "webhooks:manage")];
     op "POST" [(PermissionExtension, EString "webhooks:manage")]];
  at_ "/webhooks/{id}/remove"
    [op "POST" [(PermissionExtension, EString "webhooks:manage")]];
  at_ "/grants"
    [op "GET" [(PermissionExtension, EString "permissions:manage")];
     op "POST" [(PermissionExtension, EString "permissions:manage")]];
  at_ "/grants/{id}/revoke"
    [op "POST" [(PermissionExtension, EString "permissions:manage")]];
  at_ "/access/check"
    [op "GET" [(PermissionExtension, EString "certificates:read")]];
  at_ "/access/effective"
    [op "GET" [(PermissionExtension, EString "certificates:read")]];
  at_ "/access/accessible"
    [op "GET" [(PermissionExtension, EString "certificates:read")]];
  at_ "/stream"
    [op "GET" [(PermissionExtension, EString "certificates:read"); (TimeoutExtension, EFloat 300 1)]];
  at_ "/backup/export"
    [op "POST" [(PermissionExtension, EString "backup:manage"); (TimeoutExtension, EFloat 120 1)]];
  at_ "/backup/import"
    [op "POST" [(PermissionExtension, EString "backup:manage"); (BodyLimitExtension, EFloat 16777216 1); (TimeoutExtension, EFloat 120 1)]];
  at_ "/stats"
    [op "GET" [(PermissionExtension, EString "stats:read")]];
  at_ "/audit"
    [op "GET" [(PermissionExtension, EString "stats:read")]];
  at_ "/health"
    [op "GET" [(PermissionExtension, EString "stats:read")]]].

(** ** Mounting *)
(** What each Register function mounts, under the prefix, in its order. *)
Definition RegisterIssuers : list (string * string) :=
  [("GET", "/issuers");
   ("POST", "/issuers");
   ("GET", "/issuers/{id}");
   ("PUT", "/issuers/{id}");
   ("POST", "/issuers/{id}/remove");
   ("GET", "/dns-providers")].
Definition RegisterCertificates : list (string * string) :=
  [("GET", "/certificates");
   ("POST", "/certificates/issue");
   ("POST", "/certificates/acme");
   ("POST", "/certificates/import");
   ("GET", "/certificates/{id}");
   ("GET", "/certificates/{id}/details");
   ("PUT", "/certificates/{id}");
   ("GET", "/certificates/{id}/download");
   ("GET", "/certificates/{id}/key");
   ("POST", "/certificates/{id}/renew");
   ("POST", "/certificates/{id}/revoke");
   ("POST", "/certificates/{id}/remove")].
Definition RegisterGrants : list (string * string) :=
  [("GET", "/grants");
   ("POST", "/grants");
   ("POST", "/grants/{id}/revoke");
   ("GET", "/access/check");
   ("GET", "/access/effective");
   ("GET", "/access/accessible")].
Definition RegisterEnroll : list (string * string) :=
  [("POST", "/enroll");
   ("GET", "/requests");
   ("POST", "/requests");
   ("GET", "/requests/{id}");
   ("POST", "/requests/{id}/approve");
   ("POST", "/requests/{id}/reject");
   ("GET", "/jobs");
   ("GET", "/jobs/{id}");
   ("POST", "/jobs/{id}/cancel");
   ("POST", "/jobs/{id}/retry")].
Definition RegisterDeploy : list (string * string) :=
  [("GET", "/installed");
   ("GET", "/deployment-targets");
   ("POST", "/deployment-targets");
   ("POST", "/certificates/{id}/deploy")].
Definition RegisterStream : list (string * string) :=
  [("GET", "/stream")].
Definition RegisterSecrets : list (string * string) :=
  [("GET", "/secrets");
   ("POST", "/secrets");
   ("PUT", "/secrets/{id}");
   ("POST", "/secrets/{id}/rotate");
   ("POST", "/secrets/{id}/remove")].
Definition RegisterWebhooks : list (string * string) :=
  [("GET", "/webhooks");
   ("POST", "/webhooks");
   ("POST", "/webhooks/{id}/remove")].
Definition RegisterBackup : list (string * string) :=
  [("POST", "/backup/export");
   ("POST", "/backup/import")].
Definition RegisterOps : list (string * string) :=
  [("GET", "/stats");
   ("GET", "/audit");
   ("GET", "/trust-bundle");
   ("GET", "/bootstrap-bundle");
   ("GET", "/revocations");
   ("GET", "/crl");
   ("GET", "/health")].
Section mounting.
Context {H : Type} `{GoRuntime} (handler : string -> string -> H).
Definition Mounted : Type := Server H -> res (Server H).
(** The error is the panic. *)
Definition MustHandle (method path : string) (h : H) : Mounted := fun s =>
  match Server_Handle method path h s with (Ok _, s') => Ok s' | (Err e, _) => Err e end.
(** [handler]: the function mounted at a method and a path. *)
Fixpoint mount (l : list (string * string)) : Mounted := fun s =>
  match l with
  | [] => Ok s
  | (method, path) :: l =>
    let? s := MustHandle method (Prefix +:+ path) (handler method (Prefix +:+ path)) s in mount l s
  end.
(** [CheckRoutes] of internal/app/app.go. *)
Definition CheckRoutes (s : Server H) : res unit :=
  match Missing s with
  | [] => Ok tt
  | first :: _ => Err (Opaque ("app: " +:+ FormatInt (Z.of_nat (length (Missing s))) +:+
      " routes declared in the OpenAPI document without a handler (first: " +:+ route_String first +:+ ")"))
  end.
(** The part of [Wire] (internal/app/wire.go) that mounts the handlers. *)
Definition wire_routes : Mounted := fun s =>
  let? s := mount RegisterIssuers s in
  let? s := mount RegisterCertificates s in
  let? s := mount RegisterGrants s in
  let? s := mount RegisterEnroll s in
  let? s := mount RegisterDeploy s in
  let? s := mount RegisterStream s in
  let? s := mount RegisterSecrets s in
  let? s := mount RegisterWebhooks s in
  let? s := mount RegisterBackup s in
  let? s := mount RegisterOps s in
  let? _ := CheckRoutes s in Ok s.
End mounting.

(** ** GET /stream *)
Inductive Streamed := Refused (r : HResponse unit) | Opened (sub : nat) (loop : option (nat * string)).
Definition stream_event (typ outcome reason correlation : string) (id : CallerIdentity) : Event :=
  mkEvent (idn_TenantID id) typ "user" (idn_UserID id) "system" "" "" outcome reason correlation [].
(** Up to [ServeSSE]: the answer, the hub after it and the events recorded. *)
Definition http_Stream (cfg : HubConfig) (requestID : string) (ctx : option CallerIdentity) (m : Memory) (h : Hub)
  : Streamed * Hub * list Event :=
  match Caller ctx with
  | inr e => (Refused (Fail e), h, [])
  | inl id =>
    match Subscribe_locked cfg (idn_TenantID id) (idn_UserID id) m h with
    | (Err e, h', _) =>
      if errors_is e "stream" "ErrTooMany"
      then (Refused (Fail (HError ErrRateLimited)), h', [stream_event "stream_refused" "refused" "too_many_streams" "" id])
      else (Refused (Fail (HService e)), h', [])
    | (Ok s, h', loop) => (Opened s loop, h', [stream_event "stream_opened" "ok" "" requestID id])
    end
  end.

(** ** What the module registers *)
Record GwPermission := mkPerm { gp_Resource : string; gp_Action : string; gp_Description : string }.
Definition lcm_Permissions : list GwPermission :=
  [mkPerm "certificates" "read" "List and read certificates/SVIDs the caller is granted";
   mkPerm "certificates" "issue" "Issue certificates/SVIDs for identities the caller may use";
   mkPerm "certificates" "manage" "Renew, deploy, update and delete certificates the caller is granted";
   mkPerm "certificates" "revoke" "Revoke certificates the caller is granted";
   mkPerm "issuers" "read" "List and read issuers (credentials redacted)";
   mkPerm "issuers" "manage" "Create, change and delete issuers and their CAs";
   mkPerm "enrollment" "enroll" "Enroll a workload for an SVID with a platform identity or enrollment token";
   mkPerm "jobs" "read" "List and read certificate jobs";
   mkPerm "jobs" "manage" "Cancel and retry certificate jobs";
   mkPerm "permissions" "manage" "Grant and revoke access on certificates and issuers the caller may share";
   mkPerm "secrets" "manage" "Create, rotate and delete tenant secrets (ACME/DNS credentials)";
   mkPerm "webhooks" "manage" "Create and delete outbound webhook endpoints";
   mkPerm "backup" "manage" "Export and import tenant backups (bulk disclosure with credentials on request)";
   mkPerm "stats" "read" "Read statistics, health and the audit trail"].
Definition PermissionRefs : list string := (fun p => gp_Resource p +:+ ":" +:+ gp_Action p) <$> lcm_Permissions.
Definition BuiltinGrants : gmap string (list string) := list_to_map
  [("owner", PermissionRefs);
   ("admin", PermissionRefs);
   ("member", ["certificates:read"; "certificates:issue"; "issuers:read"; "enrollment:enroll"; "jobs:read"]);
   ("auditor", ["stats:read"; "certificates:read"; "jobs:read"]);
   ("operator", ["stats:read"; "certificates:read"; "certificates:manage"; "certificates:revoke"; "jobs:read"; "jobs:manage"])].
Record Ability := mkAbility { ab_Action : list string; ab_Subject : list string; ab_Requires : string }.
Definition Abilities : list Ability :=
  [mkAbility ["read"; "create"; "update"; "delete"; "share"; "use"] ["Certificate"] "certificates:read";
   mkAbility ["read"; "create"; "update"; "delete"; "share"] ["Issuer"] "issuers:read";
   mkAbility ["enroll"] ["Enrollment"] "enrollment:enroll";
   mkAbility ["read"; "manage"] ["CertificateJob"] "jobs:read";
   mkAbility ["manage"] ["LcmGrant"] "permissions:manage";
   mkAbility ["manage"] ["TenantSecret"] "secrets:manage";
   mkAbility ["manage"] ["Webhook"] "webhooks:manage";
   mkAbility ["manage"] ["LcmBackup"] "backup:manage";
   mkAbility ["read"] ["LcmStats"; "LcmAudit"] "stats:read"].
Record NavEntry := mkNav { nv_Title : string; nv_Path : string; nv_Icon : string; nv_Order : Z; nv_Requires : string }.
Definition Nav : list NavEntry :=
  [mkNav "Dashboard" "/lcm" "mdi-view-dashboard-outline" 300 "stats:read";
   mkNav "Certificates" "/lcm/certificates" "mdi-certificate-outline" 310 "certificates:read";
   mkNav "Issuers" "/lcm/issuers" "mdi-shield-key-outline" 320 "issuers:read";
   mkNav "Requests" "/lcm/requests" "mdi-clipboard-check-outline" 330 "jobs:read";
   mkNav "Permissions" "/lcm/permissions" "mdi-shield-account-outline" 340 "permissions:manage";
   mkNav "Secrets" "/lcm/secrets" "mdi-key-outline" 350 "secrets:manage";
   mkNav "Audit" "/lcm/audit" "mdi-history" 360 "stats:read"].
Definition DisplayName : string := "Certificates".
Record ModuleRole := mkRole { mr_Slug : string; mr_DisplayName : string; mr_Description : string; mr_Permissions : list string }.
Definition Roles : list ModuleRole :=
  [mkRole "administrator" (DisplayName +:+ " administrator")
     "Every certificate permission, including issuers, secrets, webhooks and backups" PermissionRefs;
   mkRole "operator" (DisplayName +:+ " operator")
     "Issue, renew, deploy and revoke granted certificates; run jobs and enroll workloads"
     ["certificates:read"; "certificates:issue"; "certificates:manage"; "certificates:revoke"; "issuers:read"; "jobs:read";
      "jobs:manage"; "enrollment:enroll"];
   mkRole "viewer" (DisplayName +:+ " viewer") "Read granted certificates, issuers and certificate jobs"
     ["certificates:read"; "issuers:read"; "jobs:read"]].
Record Registration := mkRegistration {
  rg_Module : string; rg_DisplayName : string; rg_Permissions : list GwPermission; rg_Roles : list ModuleRole;
  rg_BuiltinGrants : gmap string (list string);
}.
Definition register_lcm : Registration := mkRegistration "lcm" DisplayName lcm_Permissions Roles BuiltinGrants.

(** ** The routes at the gateway *)
Record GwRoute := mkGwRoute {
  gr_Method : string; gr_Path : string; gr_Public : bool; gr_Permission : string; gr_MaxBodyBytes : Z;
  gr_ClientAddress : bool; gr_Timeout : Z;
}.
Definition gw_key (r : GwRoute) : HRoute := mkHRoute (gr_Method r) (gr_Path r).
Definition ext_string (v : option ExtValue) : string := match v with Some (EString s) => s | _ => "" end.
(** A bound in the document: absent, a positive float64 that is [within] its range, or refused. *)
Definition ext_bound (v : option ExtValue) (within : Z -> positive -> bool) (bad : err) : res Z :=
  match v with
  | None => Ok 0
  | Some (EFloat num den) => if (num <=? 0) || negb (within num den) then Err bad else Ok (Z.quot num (Zpos den))
  | Some _ => Err bad
  end.

Section routes.
(** [float_uint64]: [uint64(n)] of a float64 beyond the type, which Go leaves to the
    machine; [Quote] is strconv.Quote. *)
Context `{GoRuntime} (float_uint64 : Z -> Z) (Quote : string -> string).
Definition gw_error (rt : HRoute) (what : string) : err := Opaque ("lcmmanifest: " +:+ route_String rt +:+ " " +:+ what).
Definition gw_access (rt : HRoute) (ext : gmap string ExtValue) : res (bool * string) :=
  let perm := ext_string (ext !! PermissionExtension) in
  if extensionBool (ext !! PublicExtension) then Ok (true, "")
  else if perm =s "" then Err (gw_error rt "declares no permission")
  else if bool_decide (perm ∈ PermissionRefs) then Ok (false, perm)
  else Err (gw_error rt ("uses undeclared permission " +:+ Quote perm)).
Definition gw_route (o : HRoute * Operation) : res GwRoute :=
  let '(rt, o) := o in
  let ext := op_Extensions o in
  let? access := gw_access rt ext in
  let? body := ext_bound (ext !! BodyLimitExtension) (fun _ _ => true) (gw_error rt "has a bad body limit") in
  let body := if body <=? uint64_max then body else float_uint64 body in
  let? timeout := ext_bound (ext !! TimeoutExtension) (fun num den => num <=? 600 * Zpos den) (gw_error rt "has a bad timeout") in
  Ok (mkGwRoute (ro_Method rt) (ro_Path rt) access.1 access.2 body
        (extensionBool (ext !! ClientAddressExtension)) (timeout * Second)).
Fixpoint gw_routes (l : list (HRoute * Operation)) : res (list GwRoute) :=
  match l with
  | [] => Ok []
  | o :: l => let? r := gw_route o in let? rs := gw_routes l in Ok (r :: rs)
  end.
Definition gw_less (a b : GwRoute) : bool := str_ltb (route_String (gw_key a)) (route_String (gw_key b)).
Definition Routes (doc : Doc) : res (list GwRoute) := res_map (sort_slice gw_less) (gw_routes (operations doc)).

Record Manifest := mkManifest {
  mf_Module : string; mf_DisplayName : string; mf_Version : string; mf_Prefixes : list string; mf_Routes : list GwRoute;
  mf_Permissions : list GwPermission; mf_Abilities : list Ability; mf_Exposes : list string; mf_Nav : list NavEntry;
}.
(** [Manifest], [loaded] being what the reader of the document gives. *)
Definition build_Manifest (loaded : res Doc) : res Manifest :=
  let? doc := loaded in
  let? routes := Routes doc in
  Ok (mkManifest "lcm" DisplayName "1.0.0" ["/api/lcm"] routes lcm_Permissions Abilities ["./routes"; "./nav"; "./header"] Nav).

(** *** What every accepted document gives *)
Lemma operations_canon doc :
  operations doc ≡ₚ map_to_list doc ≫= fun item => (fun m => (mkHRoute (ToUpper m.1) item.1, m.2)) <$> map_to_list item.2.
Proof.
  assert (Hl : forall l : list (string * gmap string Operation),
    (l ≫= fun item => (fun m => (mkHRoute (ToUpper m.1) item.1, m.2)) <$> map_range item.2)
    ≡ₚ (l ≫= fun item => (fun m => (mkHRoute (ToUpper m.1) item.1, m.2)) <$> map_to_list item.2)).
  { induction l as [|item l IH]; [done|]. rewrite !bind_cons. f_equiv; [by rewrite map_range_perm|exact IH]. }
  unfold operations. rewrite map_range_perm. apply Hl.
Qed.
Lemma elem_of_operations doc rt o :
  (rt, o) ∈ operations doc <->
  exists item m, doc !! ro_Path rt = Some item /\ item !! m = Some o /\ ro_Method rt = ToUpper m.
Proof.
  rewrite operations_canon, list_elem_of_bind. split.
  - intros ([p item] & Hm & Hi). apply list_elem_of_fmap in Hm as ([m x] & Hm & Hx). simplify_eq/=.
    apply elem_of_map_to_list in Hi, Hx. by exists item, m.
  - intros (item & m & Hi & Hm & Hr). exists (ro_Path rt, item). split; [|by apply elem_of_map_to_list].
    apply list_elem_of_fmap. exists (m, o). cbn. destruct rt. cbn in *. subst. split; [done|by apply elem_of_map_to_list].
Qed.
Lemma gw_routes_Forall2 l rs : gw_routes l = Ok rs <-> Forall2 (fun o r => gw_route o = Ok r) l rs.
Proof.
  revert rs. induction l as [|o l IH]; intros rs; cbn.
  - split; [intros; by simplify_eq|]. intros Hf. by apply Forall2_nil_inv_l in Hf as ->.
  - split.
    + destruct (gw_route o) as [r|] eqn:Er; [|done]. cbn. destruct (gw_routes l) as [rs'|]; [|done]. cbn. intros. simplify_eq.
      constructor; [done|by apply IH].
    + intros (r & rs' & Hr & Hf & ->)%Forall2_cons_inv_l. rewrite Hr. cbn. apply IH in Hf as ->. done.
Qed.
Lemma ext_bound_range v within bad n :
  ext_bound v within bad = Ok n -> 0 <= n /\ (n = 0 \/ exists num den, within num den = true /\ n = Z.quot num (Zpos den)).
Proof.
  unfold ext_bound. destruct v as [[num den| | | | |]|]; try done; [|intros; simplify_eq; split; [lia|by left]].
  destruct (num <=? 0) eqn:E; [done|]. destruct (within num den) eqn:Ew; [|done]. cbn. intros. simplify_eq. bools.
  split; [apply Z.quot_pos; lia|]. right. by exists num, den.
Qed.
Lemma gw_route_spec rt o r :
  gw_route (rt, o) = Ok r ->
  gw_key r = rt /\ gr_Public r = extensionBool (op_Extensions o !! PublicExtension)
  /\ (if gr_Public r then gr_Permission r = "" else gr_Permission r ∈ PermissionRefs)
  /\ 0 <= gr_Timeout r <= 600 * Second.
Proof.
  unfold gw_route. destruct (gw_access rt (op_Extensions o)) as [a|] eqn:Ea; [|done]. cbn [res_bind].
  destruct (ext_bound _ (fun _ _ => true) _); [|done]. cbn [res_bind].
  destruct (ext_bound _ _ (gw_error rt "has a bad timeout")) as [t|] eqn:Et; [|done]. cbn [res_bind]. intros. simplify_eq. cbn.
  destruct rt as [method path]. cbn in *. split; [done|]. apply ext_bound_range in Et as [Ht Hw].
  assert (t <= 600). { destruct Hw as [->|(num & den & Hn & ->)]; [lia|]. bools. apply Z.quot_le_upper_bound; lia. }
  unfold gw_access in Ea. destruct (extensionBool _); [simplify_eq; unfold Second; split_and!; lia || done|].
  destruct (_ =s ""); [done|]. case_bool_decide as Hp; [|done]. simplify_eq. unfold Second. split_and!; lia || done.
Qed.

(** The reader names the methods of a path in capitals. *)
Definition capitals (doc : Doc) : Prop := map_Forall (fun _ item => map_Forall (fun m _ => ToUpper m = m) item) doc.
Lemma operations_same doc rt o o' :
  capitals doc -> (rt, o) ∈ operations doc -> (rt, o') ∈ operations doc -> o = o'.
Proof.
  intros Hc (item & m & Hi & Hm & Hr)%elem_of_operations (item' & m' & Hi' & Hm' & Hr')%elem_of_operations.
  rewrite Hi in Hi'. simplify_eq. pose proof (Hc _ _ Hi _ _ Hm) as E1. pose proof (Hc _ _ Hi _ _ Hm') as E2. cbn in *. congruence.
Qed.
Lemma Routes_agree {T : Type} doc remote (s : Server T) rs :
  capitals doc -> built doc remote s -> Routes doc = Ok rs ->
  gw_key <$> rs = sv_declared s
  /\ Forall (fun r => IsPublic s (gr_Method r) (gr_Path r) = gr_Public r
       /\ (if gr_Public r then gr_Permission r = "" else gr_Permission r ∈ PermissionRefs)
       /\ 0 <= gr_Timeout r <= 600 * Second) rs.
Proof.
  intros Hc Hb Hr. destruct (built_table _ _ _ Hb) as (Hd & Hp & _). rewrite Hd. clear Hd.
  unfold Routes in Hr. destruct (gw_routes (operations doc)) as [rs0|] eqn:Eg; [|done]. cbn in Hr. simplify_eq.
  apply gw_routes_Forall2 in Eg. split.
  - rewrite <- (sort_slice_fmap (fun a b => str_ltb (route_String a) (route_String b))) by done.
    unfold DeclaredRoutes. f_equal. clear Hp Hb. induction Eg as [|[rt o] r l l' Hg _ IH]; [done|].
    cbn. rewrite IH. by destruct (gw_route_spec _ _ _ Hg) as [-> _].
  - apply Forall_forall. intros r Hin. rewrite elem_of_sort_slice in Hin.
    apply list_elem_of_lookup in Hin as [i Hi]. destruct (Forall2_lookup_r _ _ _ _ _ Eg Hi) as ([rt o] & Ho & Hg).
    apply list_elem_of_lookup_2 in Ho. destruct (gw_route_spec _ _ _ Hg) as (<- & He & Ha & Ht). split_and!; [|done|lia..].
    unfold IsPublic. change (mkHRoute _ _) with (gw_key r). rewrite Hp, He. unfold PublicRoutes.
    apply eq_bool_prop_intro. rewrite bool_decide_spec, elem_of_list_to_set, list_elem_of_fmap. split.
    + intros ([rt o'] & Hk & Hf). cbn in Hk. subst rt. apply list_elem_of_filter in Hf as [Hx Ho']. cbn in Hx.
      rewrite (operations_same _ _ _ _ Hc Ho Ho'), Hx. done.
    + intros Hx. exists (gw_key r, o). split; [done|]. apply list_elem_of_filter. cbn. split; [by destruct (extensionBool _)|done].
Qed.
(** C19. The gateway and the server agree on the surface: the routes registered are
    the operations of the document, each once and in order; a route is public at the
    gateway exactly when the server, however wired, serves it without a token; every
    other route asks for a permission the module declares; and a time limit is at most
    ten minutes. *)
Theorem Routes_mirror {T : Type} doc remote (s : Server T) rs :
  capitals doc -> built doc remote s -> Routes doc = Ok rs ->
  gw_key <$> rs = sv_declared s
  /\ Forall (fun r => IsPublic s (gr_Method r) (gr_Path r) = gr_Public r
       /\ (if gr_Public r then gr_Permission r = "" else gr_Permission r ∈ PermissionRefs)
       /\ 0 <= gr_Timeout r <= 600 * Second) rs.
Proof. exact (Routes_agree doc remote s rs). Qed.
End routes.

(** *** Mounting *)
Section mounted.
Context {T : Type} `{GoRuntime} (handler : string -> string -> T).
Definition mounted_at (l : list (string * string)) : list HRoute := (fun x => mkHRoute x.1 (Prefix +:+ x.2)) <$> l.
(** All routes of a list are mounted when they are declared. *)
Lemma mount_ok l (s : Server T) :
  Forall (fun x => ToUpper x.1 = x.1) l -> (forall rt, rt ∈ mounted_at l -> rt ∈ sv_declared s) ->
  exists s', mount handler l s = Ok s' /\ sv_declared s' = sv_declared s
    /\ (forall rt, rt ∈ mounted_at l -> is_Some (sv_handlers s' !! rt))
    /\ (forall rt, is_Some (sv_handlers s !! rt) -> is_Some (sv_handlers s' !! rt))
    /\ (forall doc remote, built doc remote s -> built doc remote s').
Proof.
  revert s. induction l as [|[m p] l IH]; intros s Hu Hd; cbn [mount].
  { exists s. split_and!; try done. set_solver. }
  apply Forall_cons in Hu as [Hm Hu]. change (ToUpper m = m) in Hm. set (rt := mkHRoute m (Prefix +:+ p)).
  set (s1 := (Server_Handle m (Prefix +:+ p) (handler m (Prefix +:+ p)) s).2).
  assert (Hh : MustHandle m (Prefix +:+ p) (handler m (Prefix +:+ p)) s = Ok s1
    /\ sv_declared s1 = sv_declared s /\ sv_handlers s1 = <[rt := handler m (Prefix +:+ p)]> (sv_handlers s)).
  { unfold MustHandle, s1, Server_Handle. rewrite Hm. fold rt. rewrite (proj2 (isDeclared_elem s rt)); [done|].
    apply Hd. unfold mounted_at. cbn. set_solver. }
  destruct Hh as (-> & Hd1 & Hh1). cbn [res_bind]. destruct (IH s1 Hu) as (s' & -> & Hd' & Hl & Hk & Hb).
  { intros x Hx. rewrite Hd1. apply Hd. unfold mounted_at in *. cbn. set_solver. }
  exists s'. split_and!; [done|congruence| | |].
  - intros x. unfold mounted_at. cbn. rewrite elem_of_cons. intros [->|Hx]; [|by apply Hl]. apply Hk. rewrite Hh1. fold rt.
    rewrite lookup_insert_eq. by eexists.
  - intros x Hx. apply Hk. rewrite Hh1. destruct (decide (x = rt)) as [->|]; [rewrite lookup_insert_eq; by eexists|].
    by rewrite lookup_insert_ne.
  - intros doc remote Hs. by apply Hb, built_handle.
Qed.
Lemma mount_then l1 l2 {A} (k : Server T -> res A) s :
  res_bind (mount handler l1 s) (fun s => res_bind (mount handler l2 s) k) = res_bind (mount handler (l1 ++ l2) s) k.
Proof.
  revert s. induction l1 as [|[m p] l1 IH]; intros s; cbn [mount app]; [done|].
  destruct (MustHandle _ _ _ s) as [s1|]; [|done]. cbn [res_bind]. apply IH.
Qed.
Definition wired : list (string * string) :=
  RegisterIssuers ++ RegisterCertificates ++ RegisterGrants ++ RegisterEnroll ++ RegisterDeploy ++ RegisterStream
  ++ RegisterSecrets ++ RegisterWebhooks ++ RegisterBackup ++ RegisterOps.
Lemma wire_routes_mount s :
  wire_routes handler s = let? s := mount handler wired s in let? _ := CheckRoutes s in Ok s.
Proof. unfold wire_routes, wired. by rewrite !mount_then, <- !app_assoc. Qed.
End mounted.

(** ** The surface of the module *)

(** The document's operations, whatever order a map is read in. *)
Lemma operations_any {R : GoRuntime} doc : operations doc ≡ₚ @operations std_runtime doc.
Proof. by rewrite !operations_canon. Qed.
Lemma DeclaredRoutes_any {R : GoRuntime} doc rt : rt ∈ DeclaredRoutes doc <-> rt ∈ (@operations std_runtime doc).*1.
Proof. unfold DeclaredRoutes. by rewrite elem_of_sort_slice, (operations_any doc). Qed.
Definition LCM_routes : list HRoute := Eval vm_compute in (@operations std_runtime LCM).*1.
Lemma LCM_routes_eq : (@operations std_runtime LCM).*1 = LCM_routes.
Proof. by vm_compute. Qed.

(** The permissions that roles, grants, abilities and the navigation name. *)
Definition named : list string :=
  (Roles ≫= mr_Permissions) ++ (map_to_list BuiltinGrants ≫= snd) ++ (ab_Requires <$> Abilities) ++ (nv_Requires <$> Nav).
Definition stream_MaxAge : Z := 290 * Second.

Section surface.
Context {R : GoRuntime} {T : Type} (handler : string -> string -> T) (float_uint64 : Z -> Z) (Quote : string -> string).
Lemma wired_declared remote : forall rt, rt ∈ mounted_at wired -> rt ∈ sv_declared (NewHandler (H := T) LCM remote).
Proof.
  intros rt Hr. cbn [sv_declared NewHandler]. rewrite DeclaredRoutes_any, LCM_routes_eq.
  assert (Ha : Forall (fun rt => rt ∈ LCM_routes) (mounted_at wired)) by (apply (bool_decide_eq_true_1 _); by vm_compute).
  by eapply Forall_forall in Ha.
Qed.
Lemma declared_wired rt : rt ∈ DeclaredRoutes LCM -> rt ∈ mounted_at wired.
Proof.
  rewrite DeclaredRoutes_any, LCM_routes_eq. intros Hr.
  assert (Ha : Forall (fun rt => rt ∈ mounted_at wired) LCM_routes) by (apply (bool_decide_eq_true_1 _); by vm_compute).
  by eapply Forall_forall in Ha.
Qed.
(** Every operation of the document can be registered. *)
Lemma LCM_registered : exists rs, Routes float_uint64 Quote LCM = Ok rs.
Proof.
  assert (Ha : forallb (fun o => is_ok (gw_route float_uint64 Quote o)) (@operations std_runtime LCM) = true) by (by vm_compute).
  enough (exists rs, gw_routes float_uint64 Quote (operations LCM) = Ok rs) as [rs Hr] by (unfold Routes; rewrite Hr; by eexists).
  rewrite forallb_forall in Ha.
  assert (Hl : forall l, (forall o, o ∈ l -> o ∈ @operations std_runtime LCM) -> exists rs, gw_routes float_uint64 Quote l = Ok rs).
  { induction l as [|o l IH]; intros Hi; [by eexists|]. cbn [gw_routes].
    destruct IH as [rs ->]; [intros; apply Hi; by right|]. pose proof (Ha o) as Ho. rewrite <- list_elem_of_In in Ho.
    destruct (gw_route float_uint64 Quote o); [by eexists|]. discriminate Ho. apply Hi. by left. }
  apply Hl. intros o. by rewrite operations_any.
Qed.
(** The module's surface is closed: wiring mounts every handler without a panic
    and leaves no operation of the document without one; the manifest is accepted,
    with the two enrollment routes as the only public ones; and every permission that
    a role, a built-in grant, an ability or the navigation names is declared. *)
Theorem surface_closed remote :
  exists s man, wire_routes handler (NewHandler LCM remote) = Ok s /\ built LCM remote s /\ Missing s = []
    /\ build_Manifest float_uint64 Quote (Ok LCM) = Ok man /\ gw_key <$> mf_Routes man = sv_declared s
    /\ sv_public s = {[mkHRoute "POST" (Prefix +:+ "/enroll"); mkHRoute "GET" (Prefix +:+ "/bootstrap-bundle")]}
    /\ Forall (fun p => p ∈ PermissionRefs) named.
Proof.
  destruct (mount_ok handler wired (NewHandler LCM remote)) as (s & Hm & Hd & Hh & _ & Hb);
    [apply (bool_decide_eq_true_1 _); by vm_compute|apply wired_declared|].
  specialize (Hb LCM remote (built_new _ _)). destruct (built_table _ _ _ Hb) as (Hdec & Hpub & _).
  assert (Hmiss : Missing s = []).
  { unfold Missing. apply list.elem_of_nil_inv. intros rt [Hn Hr]%list_elem_of_filter. rewrite Hdec in Hr.
    apply declared_wired, Hh in Hr as [h Hr]. congruence. }
  destruct LCM_registered as [rs Hr]. exists s. eexists. rewrite wire_routes_mount, Hm. cbn [res_bind]. unfold CheckRoutes. rewrite Hmiss.
  cbn [res_bind]. unfold build_Manifest. cbn [res_bind]. rewrite Hr. cbn [res_bind]. split_and!; try done.
  - cbn [mf_Routes]. apply (Routes_agree float_uint64 Quote LCM remote s rs); [|done..].
    apply (bool_decide_eq_true_1 _). by vm_compute.
  - rewrite Hpub. apply set_eq. intros rt. unfold PublicRoutes. rewrite elem_of_list_to_set, (operations_any LCM).
    replace (fst <$> _) with [mkHRoute "POST" (Prefix +:+ "/enroll"); mkHRoute "GET" (Prefix +:+ "/bootstrap-bundle")]; [set_solver|].
    by vm_compute.
  - apply (bool_decide_eq_true_1 _). by vm_compute.
Qed.
End surface.

(** ** GET /stream *)
(** A stream is opened for the owner of the token and recorded as such; who is at a
    limit is answered 429, recorded, and has no stream more; and no refusal opens one. *)
Theorem stream_of_caller cfg rid ctx m h ans h' events :
  http_Stream cfg rid ctx m h = (ans, h', events) ->
  match ans with
  | Opened s _ => exists id, Caller ctx = inl id /\ events = [stream_event "stream_opened" "ok" "" rid id]
      /\ h_subs h' !! s = Some (mkSubscription (idn_TenantID id) (idn_UserID id) [] "" false false false [])
  | Refused r => h_subs h' = h_subs h
      /\ (rp_Status r = 429 -> exists id, events = [stream_event "stream_refused" "refused" "too_many_streams" "" id])
  end.
Proof.
  unfold http_Stream. destruct (Caller ctx) as [id|e] eqn:Ec; [|intros; simplify_eq; split; [done|]].
  2:{ unfold Caller in Ec. destruct ctx as [id|]; [destruct (_ || _)|]; simplify_eq; done. }
  assert (Ht : forall t h1 st, ensure_tenant (idn_TenantID id) h m = Ok (t, h1, st) -> h_subs h1 = h_subs h).
  { unfold ensure_tenant. intros t h1 st. case_match; [by intros; simplify_eq|]. destruct (XLast _ m); [|done]. cbn. by intros; simplify_eq. }
  assert (Hs : forall e, rp_Status (Fail (B := unit) (HService e)) <> 429).
  { intros e. cbn. repeat case_match; done. }
  unfold Subscribe_locked. destruct (h_closed h); [cbn [errors_is]; intros; simplify_eq; split; [done|by intros Hx; apply Hs in Hx]|].
  destruct (ensure_tenant _ h m) as [[[t h1] st]|e] eqn:Ee.
  2:{ case_match; intros; simplify_eq; (split; [done|]); [by exists id|by intros Hx; apply Hs in Hx]. }
  specialize (Ht _ _ _ eq_refl). destruct (h_tsubs h1 !! t) as [ts|].
  2:{ cbn [errors_is]. intros. simplify_eq. split; [done|by intros Hx; apply Hs in Hx]. }
  assert (Et : errors_is stream_ErrTooMany "stream" "ErrTooMany" = true) by done.
  destruct (_ || _); rewrite ?Et; intros; simplify_eq; [split; [done|by exists id]|].
  exists id. split_and!; [done..|]. cbn. by rewrite lookup_insert_eq.
Qed.

Module SurfaceSample.
#[local] Existing Instance std_runtime.
Definition by_name (method path : string) : string := method +:+ " " +:+ path.
Definition table : Server string := default (NewHandler LCM true)
  match wire_routes by_name (NewHandler LCM true) with Ok s => Some s | Err _ => None end.
(** [Routes_mirror] at the document of the module. *)
Lemma Routes_mirror_witness :
  exists rs, Routes (fun z => z) (fun s => s) LCM = Ok rs /\ gw_key <$> rs = sv_declared (NewHandler (H := string) LCM true)
    /\ length rs = 56%nat /\ length (filter (fun r => gr_Public r = true) rs) = 2%nat.
Proof.
  eexists. split; [vm_compute; reflexivity|]. split; [|by vm_compute].
  refine (proj1 (Routes_mirror (fun z => z) (fun s => s) LCM true (NewHandler LCM true) _ _ _ _)).
  - apply (bool_decide_eq_true_1 _). by vm_compute.
  - apply built_new.
  - by vm_compute.
Defined.
(** The server ends a stream before the gateway cuts it: the route's limit is longer than the age it may reach. *)
Example stream_outlived :
  exists r, (fun rs => find (fun r => gr_Path r =s Prefix +:+ "/stream") rs) <$>
              match Routes (fun z => z) (fun s => s) LCM with Ok rs => Some rs | Err _ => None end = Some (Some r)
    /\ stream_MaxAge < gr_Timeout r.
Proof. eexists. split; by vm_compute. Qed.
(** An operation with an undeclared permission is refused, and so is one with none. *)
Definition with_op (ext : list (string * ExtValue)) : Doc := <[Prefix +:+ "/new" := list_to_map [op "GET" ext]]> LCM.
Example undeclared :
  is_ok (Routes (fun z => z) (fun s => s) (with_op [(PermissionExtension, EString "certificates:write")])) = false
  /\ is_ok (Routes (fun z => z) (fun s => s) (with_op [])) = false
  /\ is_ok (Routes (fun z => z) (fun s => s) (with_op [(PermissionExtension, EString "jobs:read"); (TimeoutExtension, EFloat 601 1)])) = false.
Proof. by vm_compute. Qed.
(** A person may open as many streams as configured and no more. *)
Definition person : CallerIdentity := mkIdentity "u1" "t1" [].
Definition one : HubConfig := NewHub_config (mkHubConfig 0 1 0 0).
Lemma stream_of_caller_witness :
  exists h1 h2, http_Stream one "r1" (Some person) NewMemory NewHub = (Opened 1 (Some (0%nat, "0-0")), h1, [stream_event "stream_opened" "ok" "" "r1" person])
    /\ http_Stream one "r2" (Some person) NewMemory h1 =
       (Refused (WriteError ErrRateLimited), h2, [stream_event "stream_refused" "refused" "too_many_streams" "" person])
    /\ h_subs h2 = h_subs h1.
Proof.
  do 2 eexists. split; [vm_compute; reflexivity|]. split; [vm_compute; reflexivity|].
  refine (proj1 (stream_of_caller one "r2" (Some person) NewMemory _ (Refused (WriteError ErrRateLimited)) _ _ _)).
  vm_compute; reflexivity.
Defined.
End SurfaceSample.
