(* ===== verification/Valkey.v ===== *)
(** The client of the event log over Valkey: internal/stream/valkeykv/valkey.go.

    [ValkeyServer] is the server: the commands the client sends and what they answer, with
    the laws its documentation states ([ValkeyLaws]).  [EventLog] is what readers of a
    log rely on; the in-process client and the client over Valkey both provide it. *)

From S2P Require Import Prelude Rows GoJson GoUrl Csr Domains Stream.

(** ** Commands and replies *)
Inductive Cmd :=
| XADD (key maxlen : string) (fields : list (string * string))      (* MAXLEN ~, id * *)
| XREAD (count block : Z) (key id : string)
| XRANGE (key start stop : string) (count : Z)
| XREVRANGE (key stop start : string) (count : Z)
| XTRIM (key minid : string)
| INCR (key : string)
| PEXPIRE (key : string) (ms : Z)
| PING.
Record XRangeEntry := mkXRangeEntry { xr_ID : string; xr_FieldValues : gmap string string }.
Inductive Reply :=
| RString (s : string) | RInt (n : Z) | REntries (l : list XRangeEntry) | RStreams (m : gmap string (list XRangeEntry))
| RNil | RDone | RFail (e : err).
Class ValkeyServer := {
  vk_state : Type;
  vk_do : Cmd -> vk_state -> Reply * vk_state;
}.

(** ** The client *)
Record VkConfig := mkVkConfig {
  vc_Addresses : list string; vc_Username : string; vc_Password : string; vc_AllowPlaintext : bool; vc_CAPEM : string;
}.
Definition VersionTLS13 : Z := 772.
(** The options of the connection; the roots are the system's unless given. *)
Record VkOption := mkVkOption {
  vo_InitAddress : list string; vo_Username : string; vo_Password : string; vo_TLS : option (Z * option string);
}.
(** [pem_ok] is AppendCertsFromPEM, [dial] the library's NewClient. *)
Definition vk_New (pem_ok : string -> bool) (dial : VkOption -> option err) (cfg : VkConfig) : res VkOption :=
  match vc_Addresses cfg with
  | [] => Err (Opaque "valkey: addresses required")
  | _ =>
    let opt := mkVkOption (vc_Addresses cfg) (vc_Username cfg) (vc_Password cfg) in
    let? o := if vc_AllowPlaintext cfg then Ok (opt None)
              else if vc_CAPEM cfg =s "" then Ok (opt (Some (VersionTLS13, None)))
              else if pem_ok (vc_CAPEM cfg) then Ok (opt (Some (VersionTLS13, Some (vc_CAPEM cfg))))
              else Err (Opaque "valkey: ca is not valid PEM") in
    match dial o with Some e => Err (Wrapf "valkey: " e) | None => Ok o end
  end.

Section client.
Context `{ValkeyServer}.
(** A reply that is none of those a conversion takes. *)
Definition vk_unexpected : err := Opaque "valkey: unexpected reply".
Definition vk_error (r : Reply) : err := match r with RFail e => e | RNil => Opaque "valkey nil message" | _ => vk_unexpected end.
Definition vk_ask {A} (c : Cmd) (conv : Reply -> res A) : ST vk_state A := fun s =>
  let '(r, s') := vk_do c s in (conv r, s').
Definition vk_fields (fields : gmap string string) : list (string * string) :=
  (fun k => (k, default "" (fields !! k))) <$> sort_slice str_ltb (map_to_list fields).*1.
Definition vk_convert (l : list XRangeEntry) : list Entry := (fun e => mkEntry (xr_ID e) (xr_FieldValues e)) <$> l.

Definition vk_XAdd (key : string) (fields : gmap string string) (maxLen : Z) : ST vk_state string :=
  vk_ask (XADD key (FormatInt maxLen) (vk_fields fields)) (fun r => match r with RString id => Ok id | r => Err (vk_error r) end).
Definition vk_XRead (key afterID : string) (block count : Z) : ST vk_state (list Entry) :=
  vk_ask (XREAD count (Z.quot block Millisecond) key (if afterID =s "" then "$" else afterID))
    (fun r => match r with
              | RStreams m => Ok (vk_convert (default [] (m !! key)))
              | RNil => Ok []
              | r => Err (vk_error r)
              end).
Definition vk_entries (r : Reply) : res (list XRangeEntry) := match r with REntries l => Ok l | r => Err (vk_error r) end.
Definition vk_XRange (key afterID : string) (count : Z) : ST vk_state (list Entry) :=
  vk_ask (XRANGE key (if afterID =s "" then "-" else "(" +:+ afterID) "+" count) (fun r => res_map vk_convert (vk_entries r)).
Definition vk_XLast (key : string) : ST vk_state string :=
  vk_ask (XREVRANGE key "+" "-" 1)
    (fun r => res_map (fun l => match l with [] => "" | e :: _ => xr_ID e end) (vk_entries r)).
(** [Error()]: any answer but a failure will do. *)
Definition vk_done (r : Reply) : res unit := match r with RFail _ | RNil => Err (vk_error r) | _ => Ok tt end.
Definition vk_XTrimMinID (key minID : string) : ST vk_state unit := vk_ask (XTRIM key minID) vk_done.
Definition vk_Incr (key : string) (ttl : Z) : ST vk_state Z := fun s =>
  match vk_ask (INCR key) (fun r => match r with RInt n => Ok n | r => Err (vk_error r) end) s with
  | (Err e, s) => (Err e, s)
  | (Ok n, s) => (Ok n, if (n =? 1) && (0 <? ttl) then (vk_do (PEXPIRE key (Z.quot ttl Millisecond)) s).2 else s)
  end.
Definition vk_Ping : ST vk_state unit := vk_ask PING vk_done.
End client.

(** ** What readers rely on *)

(** A canonical identifier. *)
Definition stream_id (a : string) : Prop :=
  exists ms seq, 0 <= ms <= int64_max /\ 0 <= seq <= int64_max /\ a = FormatInt ms +:+ "-" +:+ FormatInt seq.
Definition past (a : string) (l : list Entry) : list Entry := List.filter (fun e => (a =s "") || Less a (e_ID e)) l.
(** The log after an entry was added and old ones were dropped, [n] being kept at least. *)
Definition appended (n : Z) (id : string) (f : gmap string string) (l l' : list Entry) : Prop :=
  exists d, (d <= length l + 1 - Z.to_nat n)%nat /\ l' = drop d (l ++ [mkEntry id f]).
Definition kept_from (minID : string) (l : list Entry) : list Entry := List.filter (fun e => negb (Less (e_ID e) minID)) l.

(** A log as its clients see it.  [el_ok t]: it can have come about by the time [t];
    [el_given t s key a]: [a] is an identifier the stream may have given by then, or its
    start; [el_room]: it can take one more entry. *)
Class EventLog (S : Type) := {
  el_log : S -> string -> list Entry;
  el_ok : Z -> S -> Prop;
  el_given : Z -> S -> string -> string -> Prop;
  el_room : Z -> S -> Prop;
  el_add : Z -> string -> gmap string string -> Z -> ST S string;
  el_read : string -> string -> Z -> ST S (list Entry);
  el_range : string -> string -> Z -> ST S (list Entry);
  el_last : string -> ST S string;
  el_trim : string -> string -> ST S unit;
}.
Class EventLogLaws (S : Type) `{EventLog S} : Prop := {
  el_sorted t s key : el_ok t s -> StronglySorted older (el_log s key) /\ Forall (fun e => stream_id (e_ID e)) (el_log s key);
  el_entry t s key e : el_ok t s -> e ∈ el_log s key -> el_given t s key (e_ID e);
  el_add_spec t now key f n s r s' :
    el_ok t s -> t <= now -> el_room now s -> 0 < n <= int64_max -> el_add now key f n s = (r, s') ->
    el_ok now s' /\ (forall k, k <> key -> el_log s' k = el_log s k) /\ (forall k a, el_given t s k a -> el_given now s' k a)
    /\ match r with
       | Ok id => appended n id f (el_log s key) (el_log s' key) /\ forall a, el_given t s key a -> Less a id = true
       | Err _ => el_log s' key = el_log s key
                  \/ exists id, appended n id f (el_log s key) (el_log s' key) /\ forall a, el_given t s key a -> Less a id = true
       end;
  el_read_spec t key a count s r s' :
    el_ok t s -> stream_id a -> 0 < count -> el_read key a count s = (r, s') ->
    el_ok t s' /\ (forall k, el_log s' k = el_log s k) /\ (forall k a, el_given t s k a -> el_given t s' k a)
    /\ forall l, r = Ok l -> l = take (Z.to_nat count) (past a (el_log s key));
  el_range_spec t key a count s r s' :
    el_ok t s -> a = "" \/ stream_id a -> 0 < count -> el_range key a count s = (r, s') ->
    el_ok t s' /\ (forall k, el_log s' k = el_log s k)
    /\ forall l, r = Ok l -> l = take (Z.to_nat count) (past a (el_log s key));
  el_last_spec t key s r s' :
    el_ok t s -> el_last key s = (r, s') ->
    el_ok t s' /\ (forall k, el_log s' k = el_log s k)
    /\ forall id, r = Ok id -> id = match list.last (el_log s key) with Some e => e_ID e | None => "" end;
  el_trim_spec t key minID s r s' :
    el_ok t s -> stream_id minID -> el_trim key minID s = (r, s') ->
    el_ok t s' /\ (forall k, k <> key -> el_log s' k = el_log s k) /\ (forall k a, el_given t s k a -> el_given t s' k a)
    /\ match r with
       | Ok _ => el_log s' key = kept_from minID (el_log s key)
       | Err _ => el_log s' key = el_log s key \/ el_log s' key = kept_from minID (el_log s key)
       end;
}.

Lemma id_nonempty a : stream_id a -> a =s "" = false /\ a =s "$" = false.
Proof.
  intros (ms & seq & Hm & Hs & ->). split; apply str_eqb_neq.
  - by destruct (FormatInt ms).
  - pose proof (FormatInt_lacks ms) as Hl. destruct (FormatInt ms) as [|c r] eqn:E; [done|]. cbn. intros [=].
    by destruct r.
Qed.
Lemma past_id a l : stream_id a -> past a l = List.filter (fun e => Less a (e_ID e)) l.
Proof. intros [Ha _]%id_nonempty. unfold past. apply List.filter_ext. intros e. by rewrite Ha. Qed.
Lemma filter_none {A} (f : A -> bool) l : Forall (fun x => f x = false) l -> List.filter f l = [].
Proof. induction 1 as [|x l Hx _ IH]; [done|]. cbn. by rewrite Hx. Qed.
Lemma filter_every {A} (f : A -> bool) l : Forall (fun x => f x = true) l -> List.filter f l = l.
Proof. induction 1 as [|x l Hx _ IH]; [done|]. cbn. by rewrite Hx, IH. Qed.
Lemma filter_filter_imp {A} (f g : A -> bool) l :
  (forall x, f x = true -> g x = true) -> List.filter f (List.filter g l) = List.filter f l.
Proof.
  intros Hi. induction l as [|x l IH]; [done|]. cbn. destruct (g x) eqn:Eg; cbn; [by rewrite IH|].
  destruct (f x) eqn:Ef; [|done]. apply Hi in Ef. congruence.
Qed.
(** Past a first part of a sorted log there is the rest of it. *)
Lemma past_split a l l1 l2 :
  StronglySorted older l -> Forall (fun e => stream_id (e_ID e)) l -> stream_id a -> past a l = l1 ++ l2 ->
  let last := foldl (fun _ e => e_ID e) a l1 in stream_id last /\ past last l = l2.
Proof.
  intros Hs Hi Ha Hp last. unfold last. destruct l1 as [|e l1 _] using rev_ind; [by split|]. rewrite foldl_app. cbn [foldl].
  rewrite past_id in Hp by done. pose proof (sorted_filter _ (fun e => Less a (e_ID e)) _ Hs) as Hf. rewrite Hp in Hf.
  assert (He : e ∈ List.filter (fun e => Less a (e_ID e)) l) by (rewrite Hp; set_solver).
  rewrite list_elem_of_In, filter_In, <- list_elem_of_In in He. destruct He as [He Hae].
  assert (Hie : stream_id (e_ID e)) by (by eapply Forall_forall in Hi). split; [done|]. rewrite past_id by done.
  rewrite <- (filter_filter_imp _ (fun x => Less a (e_ID x))) by (intros x; by apply Less_trans). rewrite Hp, <- app_assoc.
  rewrite <- app_assoc in Hf. rewrite List.filter_app. cbn [app] in *. cbn [List.filter]. rewrite Less_irrefl.
  rewrite filter_none, filter_every; [done| |].
  - pose proof (sorted_drop _ (length l1) _ Hf) as Hd. rewrite drop_app_length in Hd. by inversion Hd.
  - apply Forall_forall. intros x Hx. destruct (Less (e_ID e) (e_ID x)) eqn:E; [|done].
    assert (Hxe : older x e) by (eapply (StronglySorted_app_1_elem_of _ l1 (e :: l2)); [done..|left]).
    pose proof (Less_trans _ _ _ Hxe E) as Hxx. by rewrite Less_irrefl in Hxx.
Qed.
(** *** The reading loop of internal/stream/hub.go *)
Section reader.
Context {S : Type} `{EventLog S} (key : string) (window maxLen : Z).
(** One turn of [loop]: when the ticker has fired, at [now], entries older than the
    replay window are trimmed, whatever comes of it; then the next hundred are read.  A
    read that fails is repeated in the next turn.  A read that waits is one that looks
    when it is answered. *)
Definition loop_turn (trim : option Z) (last : string) (s : S) : res (list Entry) * string * S :=
  let s := match trim with Some now => (el_trim key (ID (now - window) 0) s).2 | None => s end in
  match el_read key last 100 s with
  | (Err e, s) => (Err e, last, s)
  | (Ok l, s) => (Ok l, foldl (fun _ e => e_ID e) last l, s)
  end.

(** The loop among the others that use the stream.  Kept for the account: what was
    dispatched, all the stream has held, and the times of the trims. *)
Record Following := mkFollowing {
  fo_time : Z; fo_s : S; fo_last : string; fo_out : list Entry; fo_all : list Entry; fo_trims : list Z;
}.
Definition dated (now : Z) : Prop := 0 <= UnixMilli (now - window) <= int64_max.
Inductive follow_step : Following -> Following -> Prop :=
| fs_turn trim t s last out all trims r last' s' :
    (forall now, trim = Some now -> dated now) -> loop_turn trim last s = (r, last', s') ->
    follow_step (mkFollowing t s last out all trims)
      (mkFollowing t s' last' (out ++ match r with Ok l => l | Err _ => [] end) all (option_list trim ++ trims))
| fs_publish now f t s last out all trims r s' new :           (* XAdd, of any publisher *)
    t <= now -> el_room now s -> el_add now key f maxLen s = (r, s') ->
    match r with
    | Ok id => new = [mkEntry id f]
    | Err _ => (el_log s' key = el_log s key /\ new = [])
               \/ exists id, appended maxLen id f (el_log s key) (el_log s' key) /\ (forall a, el_given t s key a -> Less a id = true)
                            /\ new = [mkEntry id f]
    end ->
    follow_step (mkFollowing t s last out all trims) (mkFollowing now s' last out (all ++ new) trims)
| fs_trim now t s last out all trims r s' :                    (* the loop of another instance *)
    dated now -> el_trim key (ID (now - window) 0) s = (r, s') ->
    follow_step (mkFollowing t s last out all trims) (mkFollowing t s' last out all (now :: trims))
| fs_elsewhere k now f n t s last out all trims r s' :         (* a publisher of another tenant *)
    k <> key -> t <= now -> el_room now s -> 0 < n <= int64_max -> el_add now k f n s = (r, s') ->
    follow_step (mkFollowing t s last out all trims) (mkFollowing now s' last out all trims).

(** How an entry can leave the log: by its age at a trim, or behind [maxLen] newer ones. *)
Definition expired (trims : list Z) (e : Entry) : Prop := exists now, now ∈ trims /\ Less (e_ID e) (ID (now - window) 0) = true.
Definition outgrown (all : list Entry) (e : Entry) : Prop :=
  exists newer, NoDup newer /\ newer ⊆ all /\ maxLen <= Z.of_nat (length newer) /\ Forall (older e) newer.
(** What a reader that started after [from] has done and has before it. *)
Record accounted (from : string) (l : Following) : Prop := {
  ac_order : StronglySorted older (fo_out l);
  ac_dispatched e : e ∈ fo_out l -> e ∈ fo_all l /\ Less from (e_ID e) = true;
  ac_entries e : e ∈ fo_all l -> Less from (e_ID e) = true ->
    e ∈ fo_out l \/ e ∈ past (fo_last l) (el_log (fo_s l) key) \/ expired (fo_trims l) e \/ outgrown (fo_all l) e;
  ac_reads trim r l' last' s' : (forall now, trim = Some now -> dated now) ->
    loop_turn trim (fo_last l) (fo_s l) = (r, last', s') -> r = Ok l' -> l' = take 100 (past (fo_last l) (el_log s' key));
}.
End reader.

Lemma older_nodup l : StronglySorted older l -> NoDup l.
Proof.
  induction 1 as [|x l Hs IH Hx]; constructor; [|done]. intros Hin. eapply Forall_forall in Hx; [|exact Hin].
  unfold older in Hx. by rewrite Less_irrefl in Hx.
Qed.
(** The order is total on positions. *)
Lemma Less_before a b c : Less a b = false -> Less a c = true -> Less b c = true.
Proof. rewrite Less_false, !Less_pos. unfold pos_lt. lia. Qed.
Lemma Less_within a b c : Less a b = false -> (Less a c = true \/ a = c) -> Less c b = false.
Proof. intros H1 [H2|<-]; [|done]. revert H1 H2. rewrite !Less_false, Less_pos. unfold pos_lt. lia. Qed.
Lemma elem_past a l e : stream_id a -> e ∈ past a l <-> e ∈ l /\ Less a (e_ID e) = true.
Proof. intros Ha. rewrite past_id by done. by rewrite list_elem_of_In, filter_In, <- list_elem_of_In. Qed.
(** Where the reader stands after the first part of what is before it. *)
Lemma past_split_last a l l1 l2 :
  StronglySorted older l -> Forall (fun e => stream_id (e_ID e)) l -> stream_id a -> past a l = l1 ++ l2 ->
  let last := foldl (fun _ e => e_ID e) a l1 in
  (Less a last = true \/ a = last) /\ Forall (fun e => Less last (e_ID e) = false) l1
  /\ (last = a \/ exists e, e ∈ l /\ last = e_ID e).
Proof.
  intros Hs Hi Ha Hp last. destruct (past_split a l l1 l2 Hs Hi Ha Hp) as [Hid Hl2]. fold last in Hid, Hl2.
  assert (Hin : forall e, e ∈ l1 -> e ∈ l /\ Less a (e_ID e) = true).
  { intros e He. apply elem_past; [done|]. rewrite Hp. set_solver. }
  split_and!.
  - unfold last. destruct l1 as [|e l1 _] using rev_ind; [by right|]. rewrite foldl_app. cbn. left. apply Hin. set_solver.
  - apply Forall_forall. intros e He. destruct (Less last (e_ID e)) eqn:E; [|done]. exfalso.
    assert (H2 : e ∈ l2) by (rewrite <- Hl2; apply elem_past; [done|]; split; [by apply Hin|done]).
    pose proof (sorted_filter _ (fun e => Less a (e_ID e)) _ Hs) as Hf. rewrite <- past_id, Hp in Hf by done.
    apply older_nodup, NoDup_app in Hf as (_ & Hd & _). by apply (Hd e).
  - unfold last. destruct l1 as [|e l1 _] using rev_ind; [by left|]. rewrite foldl_app. cbn. right. exists e.
    split; [|done]. apply Hin. set_solver.
Qed.

Section follows.
Context {S : Type} `{EventLogLaws S} (key : string) (window maxLen : Z) (from : string).
Record follow_inv (l : Following) : Prop := {
  fi_ok : el_ok (fo_time l) (fo_s l);
  fi_id : stream_id (fo_last l);
  fi_given : el_given (fo_time l) (fo_s l) key (fo_last l);
  fi_ahead x : Less (fo_last l) x = true -> Less from x = true;
  fi_sorted : StronglySorted older (fo_out l);
  fi_out e : e ∈ fo_out l -> e ∈ fo_all l /\ Less from (e_ID e) = true /\ Less (fo_last l) (e_ID e) = false;
  fi_log : el_log (fo_s l) key ⊆ fo_all l;
  fi_all e : e ∈ fo_all l -> Less from (e_ID e) = true ->
    e ∈ fo_out l \/ e ∈ past (fo_last l) (el_log (fo_s l) key) \/ expired window (fo_trims l) e \/ outgrown maxLen (fo_all l) e;
}.
Lemma dated_id now : dated window now -> stream_id (ID (now - window) 0).
Proof. intros Hd. exists (UnixMilli (now - window)), 0. unfold ID. split_and!; (done || apply Hd || (unfold int64_max; lia)). Qed.
(** A trim takes away only what has expired. *)
Lemma trim_follow now t s last out all trims r s' :
  dated window now -> follow_inv (mkFollowing t s last out all trims) -> el_trim key (ID (now - window) 0) s = (r, s') ->
  follow_inv (mkFollowing t s' last out all (now :: trims)).
Proof.
  intros Hd [Ho Hi Hg Hah Hs Hout Hlog Hall] Hr. cbn in *.
  destruct (el_trim_spec _ _ _ _ _ _ Ho (dated_id _ Hd) Hr) as (Ho' & _ & Hg' & Hl).
  assert (Hk : forall e, e ∈ el_log s key -> e ∈ el_log s' key \/ Less (e_ID e) (ID (now - window) 0) = true).
  { intros e He. assert (Hkept : e ∈ kept_from (ID (now - window) 0) (el_log s key) \/ Less (e_ID e) (ID (now - window) 0) = true).
    { unfold kept_from. rewrite list_elem_of_In, filter_In, <- list_elem_of_In. destruct (Less _ _); auto. }
    destruct r; [rewrite Hl; tauto|]. destruct Hl as [->| ->]; tauto. }
  assert (Hsub : el_log s' key ⊆ el_log s key).
  { assert (Hf : kept_from (ID (now - window) 0) (el_log s key) ⊆ el_log s key).
    { intros e. unfold kept_from. rewrite list_elem_of_In, filter_In, <- list_elem_of_In. tauto. }
    destruct r; [by rewrite Hl|]. by destruct Hl as [->| ->]. }
  split; cbn; auto; [by etrans|].
  intros e He Hf. destruct (Hall e He Hf) as [?|[Hp|[(x & Hx & Hxl)|?]]]; [by left| |right; right; left; exists x; set_solver|by auto].
  apply elem_past in Hp as [Hel Hla]; [|done]. destruct (Hk e Hel) as [Hin|Hex].
  - right. left. by apply elem_past.
  - right. right. left. exists now. set_solver.
Qed.
Lemma read_follow t s last out all trims r s' l last' :
  follow_inv (mkFollowing t s last out all trims) -> el_read key last 100 s = (r, s') ->
  l = match r with Ok l => l | Err _ => [] end -> last' = foldl (fun _ e => e_ID e) last l ->
  follow_inv (mkFollowing t s' last' (out ++ l) all trims) /\ forall x, r = Ok x -> x = take 100 (past last (el_log s' key)).
Proof.
  intros [Ho Hi Hg Hah Hs Hout Hlog Hall] Hr El Elast. cbn in *.
  destruct (el_read_spec t key last 100 s _ s' Ho Hi eq_refl Hr) as (Ho' & Hsame & Hg' & Hl).
  split; [|intros x ->; rewrite Hsame; by apply Hl]. destruct r as [x|e]; subst l.
  2:{ subst last'. rewrite app_nil_r. split; cbn; rewrite ?Hsame; auto. }
  specialize (Hl x eq_refl). destruct (el_sorted t s key Ho) as [Hsl Hil]. set (F := past last (el_log s key)) in *.
  assert (HF : past last (el_log s key) = x ++ drop (Z.to_nat 100) F) by (rewrite Hl; by rewrite take_drop).
  destruct (past_split _ _ _ _ Hsl Hil Hi HF) as [Hid Hrest]. destruct (past_split_last _ _ _ _ Hsl Hil Hi HF) as (Hle & Hx & Hlast).
  rewrite <- Elast in *. assert (Hin : forall e, e ∈ x -> e ∈ el_log s key /\ Less last (e_ID e) = true).
  { intros e He. apply elem_past; [done|]. rewrite HF. set_solver. }
  split; cbn; rewrite ?Hsame; auto.
  - destruct Hlast as [->|(e & He & ->)]; [auto|]. by apply Hg', el_entry.
  - intros y Hy. destruct Hle as [Hle|<-]; [|auto]. apply Hah. by eapply Less_trans.
  - apply StronglySorted_app_2; [|done|].
    + intros a b Ha Hb. destruct (Hout a Ha) as (_ & _ & Hal). unfold older. eapply Less_before; [exact Hal|]. by apply Hin.
    + pose proof (sorted_filter _ (fun e => Less last (e_ID e)) _ Hsl) as Hf. rewrite <- past_id, HF in Hf by done.
      by apply StronglySorted_app_1_l in Hf.
  - intros e [He|He]%elem_of_app.
    + destruct (Hout e He) as (? & ? & Hel). split_and!; [done..|]. by eapply Less_within.
    + destruct (Hin e He) as [Hel Hla]. split_and!; [by apply Hlog|by apply Hah|]. by eapply Forall_forall in Hx.
  - intros e He Hf. destruct (Hall e He Hf) as [?|[Hp|?]]; [left; set_solver| |by auto]. unfold F in Hp, HF. rewrite HF in Hp.
    apply elem_of_app in Hp as [?|Hp]; [left; set_solver|]. right. left. rewrite Hrest. exact Hp.
Qed.
Lemma publish_follow now f t s last out all trims r s' id :
  0 < maxLen <= int64_max -> t <= now -> el_room now s -> follow_inv (mkFollowing t s last out all trims) ->
  el_add now key f maxLen s = (r, s') -> appended maxLen id f (el_log s key) (el_log s' key) ->
  (forall a, el_given t s key a -> Less a id = true) -> follow_inv (mkFollowing now s' last out (all ++ [mkEntry id f]) trims).
Proof.
  intros Hn Hle Hroom [Ho Hi Hg Hah Hs Hout Hlog Hall] Hr (d & Hd & Hl) Hnew. cbn in *.
  destruct (el_add_spec _ _ _ _ _ _ _ _ Ho Hle Hroom Hn Hr) as (Ho' & _ & Hg' & _).
  destruct (el_sorted t s key Ho) as [Hsl _]. set (e0 := mkEntry id f) in *.
  assert (Hs0 : StronglySorted older (el_log s key ++ [e0])).
  { apply sorted_snoc; [done|]. apply Forall_forall. intros e He. unfold older. cbn. apply Hnew. by apply el_entry. }
  assert (Hsub : el_log s' key ⊆ all ++ [e0]) by (rewrite Hl; etrans; [apply subseteq_drop|]; set_solver).
  split; cbn; auto.
  - intros e He. destruct (Hout e He) as (? & ? & ?). split_and!; [set_solver|done..].
  - assert (Hgrow : forall e, outgrown maxLen all e -> outgrown maxLen (all ++ [e0]) e).
    { intros e (newer & ? & ? & ? & ?). exists newer. split_and!; [done|set_solver|done..]. }
    intros e [He|He]%elem_of_app Hf.
    + destruct (Hall e He Hf) as [?|[Hp|[?|?]]]; auto. apply elem_past in Hp as [Hel Hla]; [|done].
      apply list_elem_of_lookup in Hel as [i Hi']. destruct (decide (d <= i)%nat) as [Hge|Hlt].
      * right. left. apply elem_past; [done|]. split; [|done]. rewrite Hl. apply list_elem_of_lookup. exists (i - d)%nat.
        rewrite lookup_drop. replace (d + (i - d))%nat with i by lia. by apply lookup_app_l_Some.
      * right. right. right. exists (el_log s' key). split_and!; [|done| |].
        -- rewrite Hl. by apply older_nodup, sorted_drop.
        -- rewrite Hl, length_drop, length_app. cbn. lia.
        -- rewrite Hl. apply Forall_forall. intros y Hy. rewrite <- (take_drop d (el_log s key ++ [e0])) in Hs0.
           eapply (StronglySorted_app_1_elem_of _ (take d _) (drop d _)); [exact Hs0| |exact Hy].
           apply list_elem_of_lookup. exists i. rewrite lookup_take_lt by lia. by apply lookup_app_l_Some.
    + apply list_elem_of_singleton in He as ->. right. left. apply elem_past; [done|]. split; [|by apply Hnew].
      rewrite Hl. apply list_elem_of_lookup. exists (length (el_log s key) - d)%nat. rewrite lookup_drop.
      replace (d + (length (el_log s key) - d))%nat with (length (el_log s key)) by lia. apply list_lookup_middle. done.
Qed.
Lemma follow_step_inv l l' : 0 < maxLen <= int64_max -> follow_step key window maxLen l l' -> follow_inv l -> follow_inv l'.
Proof.
  intros Hn Hst Hinv. destruct Hst as [trim t s last out all trims r last' s' Hd Hr|now f t s last out all trims r s' new Hle Hroom Hr Hx|now t s last out all trims r s' Hd Hr|k now f n t s last out all trims r s' Hk Hle Hroom Hn' Hr].
  - unfold loop_turn in Hr. destruct trim as [now|]; cbn [option_list].
    + destruct (el_trim key _ s) as [rt st] eqn:Et. pose proof (trim_follow _ _ _ _ _ _ _ _ _ (Hd now eq_refl) Hinv Et) as Hi1. cbn in Hr.
      destruct (el_read key last 100 st) as [[x|e] s2] eqn:Er; simplify_eq; by eapply read_follow.
    + destruct (el_read key last 100 s) as [[x|e] s2] eqn:Er; simplify_eq; by eapply read_follow.
  - assert (Hadd : (exists id, appended maxLen id f (el_log s key) (el_log s' key) /\ (forall a, el_given t s key a -> Less a id = true)
                      /\ new = [mkEntry id f]) \/ (el_log s' key = el_log s key /\ new = [])).
    { destruct r as [id|e]; [left|destruct Hx; auto]. exists id. split_and!; [..|done];
        apply (el_add_spec _ _ _ _ _ _ _ _ (fi_ok _ Hinv) Hle Hroom Hn Hr). }
    destruct Hadd as [(id & Hap & Hgr & ->)|[Hsame ->]]; [by eapply publish_follow|].
    rewrite app_nil_r. destruct (el_add_spec _ _ _ _ _ _ _ _ (fi_ok _ Hinv) Hle Hroom Hn Hr) as (Ho' & _ & Hg' & _).
    destruct Hinv as [Ho Hi Hg Hah Hs Hout Hlog Hall]. cbn in *. split; cbn; rewrite ?Hsame; auto.
  - by eapply trim_follow.
  - destruct (el_add_spec _ _ _ _ _ _ _ _ (fi_ok _ Hinv) Hle Hroom Hn' Hr) as (Ho' & Hsame & Hg' & _). specialize (Hsame key ltac:(congruence)).
    destruct Hinv as [Ho Hi Hg Hah Hs Hout Hlog Hall]. cbn in *. split; cbn; rewrite ?Hsame; auto.
Qed.
Lemma follow_inv_accounted l : follow_inv l -> accounted key window maxLen from l.
Proof.
  intros Hinv. destruct l as [t s last out all trims]. pose proof Hinv as [Ho Hi Hg Hah Hs Hout Hlog Hall]. split; cbn in *; auto.
  - intros e He. by destruct (Hout e He) as (? & ? & _).
  - intros trim r l' last' s' Hd Hr ->. unfold loop_turn in Hr. destruct trim as [now|].
    + destruct (el_trim key _ s) as [rt st] eqn:Et. pose proof (trim_follow _ _ _ _ _ _ _ _ _ (Hd now eq_refl) Hinv Et) as Hi1. cbn in Hr.
      destruct (el_read key last 100 st) as [[x|e] s2] eqn:Er; simplify_eq. by eapply (read_follow _ _ _ _ _ _ _ _ _ _ Hi1 Er).
    + destruct (el_read key last 100 s) as [[x|e] s2] eqn:Er; simplify_eq. by eapply (read_follow _ _ _ _ _ _ _ _ _ _ Hinv Er).
Qed.
(** A reader that starts after the newest entry, or before the first. *)
Lemma reader_follows t s l :
  0 < maxLen <= int64_max -> el_ok t s -> stream_id from -> el_given t s key from ->
  rtc (follow_step key window maxLen) (mkFollowing t s from [] (el_log s key) []) l -> accounted key window maxLen from l.
Proof.
  intros Hn Ho Hi Hg Hr. apply follow_inv_accounted.
  assert (Hst : follow_inv (mkFollowing t s from [] (el_log s key) [])).
  { split; cbn; auto; [constructor|intros e He; by apply elem_of_nil in He|]. intros e He Hf. right. left. by apply elem_past. }
  revert Hst. induction Hr as [|a b c Hab _ IH]; intros Hst; [done|]. apply IH. by eapply follow_step_inv.
Qed.
End follows.

(** ** The in-process client *)
Definition memory_log : EventLog Memory := {|
  el_log m key := entries key m;
  el_ok t m := log_inv t m;
  el_given t m key a := a = "0-0" \/ exists e, e_ID e = a /\ given t (mm_seq m) e;
  el_room now m := UnixMilli now <= int64_max /\ mm_seq m < int64_max;
  el_add now key f n := XAdd now key f n;
  el_read key a count m := (XRead key a count m, m);
  el_range key a count m := (XRange key a count m, m);
  el_last key m := (XLast key m, m);
  el_trim key minID := XTrimMinID key minID;
|}.
Lemma after_past a count l : 0 < count -> after_from a count l [] = take (Z.to_nat count) (past a l).
Proof.
  intros Hc. enough (He : forall out, Z.of_nat (length out) < count ->
    after_from a count l out = out ++ take (Z.to_nat count - length out) (past a l)).
  { rewrite He by (cbn; lia). cbn. by rewrite Nat.sub_0_r. }
  induction l as [|e l IH]; intros out Ho; cbn; [by rewrite take_nil, app_nil_r|].
  destruct ((a =s "") || Less a (e_ID e)); [|by apply IH].
  destruct (Z.to_nat count - length out)%nat as [|k] eqn:Ek; [lia|]. cbn [take]. rewrite length_app. cbn [length].
  replace (0 <? count) with true by (symmetry; by apply Z.ltb_lt). cbn [andb].
  destruct (_ =? count) eqn:Ef; bools; [by replace k with 0%nat by lia; rewrite take_0|].
  rewrite IH by (rewrite length_app; cbn; lia). rewrite <- app_assoc. cbn. do 3 f_equal. rewrite length_app. cbn. lia.
Qed.
Lemma given_id t seq e : given t seq e -> seq <= int64_max -> stream_id (e_ID e).
Proof. intros (a & b & -> & ? & ? & ? & ?) Hs. exists (UnixMilli a), b. unfold ID. split_and!; done || lia. Qed.
Lemma log_inv_later t now m : log_inv t m -> t <= now -> log_inv now m.
Proof.
  intros [Ht Hq Hg Hs] Hle. assert (UnixMilli t <= UnixMilli now) by (apply Z.div_le_mono; unfold Millisecond; lia).
  split; [lia|done| |done]. intros k. eapply Forall_impl; [apply (Hg k)|]. intros e. by apply given_mono.
Qed.
Lemma XTrim_inv t key minID m r m' : log_inv t m -> XTrimMinID key minID m = (r, m') -> log_inv t m'.
Proof.
  intros [Ht Hq Hg Hs]. unfold XTrimMinID, client_write. case_match; intros Ha; [by simplify_eq|]. simplify_eq.
  split; try done; intros k; unfold entries; cbn; rewrite lookup_insert; case_decide; cbn; try apply (Hg k); try apply (Hs k).
  - apply Forall_forall. intros x Hx. rewrite list_elem_of_In, filter_In, <- list_elem_of_In in Hx. destruct Hx as [Hx _].
    by pose proof (proj1 (Forall_forall _ _) (Hg key) x Hx).
  - apply sorted_filter, (Hs key).
Qed.
Lemma XAdd_appended now key f n m id m' :
  0 < n -> XAdd now key f n m = (Ok id, m') -> appended n id f (entries key m) (entries key m').
Proof.
  intros Hn. unfold XAdd, client_write. case_match; [done|]. intros. simplify_eq. set (l := entries key m). unfold appended, entries. cbn.
  rewrite lookup_insert_eq. cbn [default from_option Datatypes.id]. rewrite length_app. cbn [length].
  destruct (_ && _); [|by exists 0%nat; split; [lia|]]. exists (length l + 1 - Z.to_nat n)%nat. by split; [lia|].
Qed.
Lemma seq_next q : 0 <= q < int64_max -> wrap64 (q + 1) = q + 1.
Proof. intros Hq. unfold wrap64, int64_max in *. rewrite Z.mod_small; lia. Qed.
(** An identifier given is greater than any before it. *)
Lemma XAdd_greater t now key f n m id m' a :
  log_inv t m -> t <= now -> UnixMilli now <= int64_max -> mm_seq m < int64_max -> XAdd now key f n m = (Ok id, m') ->
  @el_given _ memory_log t m key a -> Less a id = true.
Proof.
  intros [Ht Hq _ _] Hle Hn Hs Ha. assert (UnixMilli t <= UnixMilli now) by (apply Z.div_le_mono; unfold Millisecond; lia).
  unfold XAdd, client_write in Ha. case_match; [done|]. rewrite seq_next in Ha by lia. simplify_eq. cbn [el_given memory_log].
  intros [->|(e & <- & He)]; [|apply (given_older t); [lia..|done]].
  apply Less_pos. unfold pos, pos_lt. rewrite ParseID_ID by lia. change (ParseID "0-0") with (0, 0, true). cbn [fst snd]. lia.
Qed.
Lemma given_later t t' m m' key a :
  UnixMilli t <= UnixMilli t' -> mm_seq m <= mm_seq m' -> @el_given _ memory_log t m key a -> @el_given _ memory_log t' m' key a.
Proof. intros Ht Hs [->|(e & <- & He)]; [by left|]. right. exists e. split; [done|]. by eapply given_mono. Qed.
Lemma XAdd_seq now key f n m r m' : 0 <= mm_seq m < int64_max -> XAdd now key f n m = (r, m') -> mm_seq m <= mm_seq m'.
Proof. intros Hq. unfold XAdd, client_write. rewrite seq_next by done. case_match; intros; simplify_eq; cbn; lia. Qed.
Lemma XTrim_seq key minID m r m' : XTrimMinID key minID m = (r, m') -> mm_seq m' = mm_seq m.
Proof. unfold XTrimMinID, client_write. case_match; intros; by simplify_eq. Qed.
#[export] Instance memory_laws : @EventLogLaws Memory memory_log.
Proof.
  split; cbn [el_log el_ok el_given el_room el_add el_read el_range el_last el_trim memory_log].
  - intros t s key Ho. destruct Ho as [_ Hq Hg Hs]. split; [apply Hs|]. eapply Forall_impl; [apply Hg|].
    intros e He. by eapply given_id; [|apply Hq].
  - intros t s key e [_ _ Hg _] He. right. exists e. split; [done|]. by eapply Forall_forall in Hg.
  - intros t now key f n s r s' Ho Hle [Hn Hq] Hp Ha. split; [by eapply XAdd_inv|].
    assert (Hlater : UnixMilli t <= UnixMilli now) by (apply Z.div_le_mono; unfold Millisecond; lia).
    pose proof (XAdd_seq _ _ _ _ _ _ _ (conj (proj1 (li_seq _ _ Ho)) Hq) Ha) as Hseq. split_and!.
    + destruct r; [by apply XAdd_entries in Ha as [_ ?]|by apply XAdd_err in Ha as ->].
    + intros k a. by apply (given_later _ _ _ _ k).
    + destruct r as [id|e]; [split|by left; apply XAdd_err in Ha as ->].
      * eapply XAdd_appended; [|done]. lia.
      * intros a. by eapply XAdd_greater.
  - intros t key a count s r s' Ho Ha Hc Hr. simplify_eq. split_and!; [done..|]. intros l. unfold XRead, client_read, after.
    destruct (id_nonempty _ Ha) as [-> ->]. case_match; [done|]. intros [= <-]. by apply after_past.
  - intros t key a count s r s' Ho Ha Hc Hr. simplify_eq. split_and!; [done..|]. intros l. unfold XRange, client_read, after.
    case_match; [done|]. intros [= <-]. by apply after_past.
  - intros t key s r s' Ho Hr. simplify_eq. split_and!; [done..|]. unfold XLast, client_read, newest.
    intros l. case_match; [done|]. intros. by simplify_eq.
  - intros t key minID s r s' Ho Hm Hr. split; [by eapply XTrim_inv|]. unfold XTrimMinID, client_write in Hr.
    case_match; simplify_eq; [split_and!; [done..|by left]|]. unfold entries. cbn. split_and!; [|done|by rewrite lookup_insert_eq].
    intros k Hk. by rewrite lookup_insert_ne by congruence.
Qed.

(** ** The client over Valkey *)

(** What the documentation of the commands promises.  Identifiers grow; MAXLEN ~ keeps
    at least the number given; MINID drops exactly the older entries; a read answers
    the first entries of its range, and nil when XREAD has none.  A command whose answer
    is lost may have taken effect. *)
Class ValkeyLaws `{ValkeyServer} := {
  vk_log : vk_state -> string -> list Entry;
  vk_ok : vk_state -> Prop;
  vk_given : vk_state -> string -> string -> Prop;              (* an identifier the stream has given, or its start *)
  vk_keeps c s : vk_ok s -> vk_ok (vk_do c s).2;
  vk_recalls c s key a : vk_ok s -> vk_given s key a -> vk_given (vk_do c s).2 key a;
  vk_entry s key e : vk_ok s -> e ∈ vk_log s key -> vk_given s key (e_ID e);
  vk_sorted s key : vk_ok s -> StronglySorted older (vk_log s key) /\ Forall (fun e => stream_id (e_ID e)) (vk_log s key);
  vk_does_XADD key n f s r s' : vk_ok s -> 0 < n <= int64_max -> vk_do (XADD key (FormatInt n) f) s = (r, s') ->
    (forall k, k <> key -> vk_log s' k = vk_log s k)
    /\ match r with
       | RString id => appended n id (list_to_map f) (vk_log s key) (vk_log s' key) /\ forall a, vk_given s key a -> Less a id = true
       | RFail _ => vk_log s' key = vk_log s key
                    \/ exists id, appended n id (list_to_map f) (vk_log s key) (vk_log s' key) /\ forall a, vk_given s key a -> Less a id = true
       | _ => False
       end;
  vk_does_XREAD count block key a s r s' : vk_ok s -> 0 < count -> stream_id a -> vk_do (XREAD count block key a) s = (r, s') ->
    (forall k, vk_log s' k = vk_log s k)
    /\ match r with
       | RStreams m => exists l, m !! key = Some l /\ vk_convert l = take (Z.to_nat count) (past a (vk_log s key))
       | RNil => past a (vk_log s key) = []
       | RFail _ => True
       | _ => False
       end;
  vk_does_XRANGE key a start count s r s' : vk_ok s -> 0 < count ->
    (a = "" /\ start = "-") \/ (stream_id a /\ start = "(" +:+ a) -> vk_do (XRANGE key start "+" count) s = (r, s') ->
    (forall k, vk_log s' k = vk_log s k)
    /\ match r with
       | REntries l => vk_convert l = take (Z.to_nat count) (past a (vk_log s key))
       | RFail _ => True
       | _ => False
       end;
  vk_does_XREVRANGE key s r s' : vk_ok s -> vk_do (XREVRANGE key "+" "-" 1) s = (r, s') ->
    (forall k, vk_log s' k = vk_log s k)
    /\ match r with
       | REntries l => vk_convert l = match list.last (vk_log s key) with Some e => [e] | None => [] end
       | RFail _ => True
       | _ => False
       end;
  vk_does_XTRIM key minID s r s' : vk_ok s -> stream_id minID -> vk_do (XTRIM key minID) s = (r, s') ->
    (forall k, k <> key -> vk_log s' k = vk_log s k)
    /\ match r with
       | RInt _ => vk_log s' key = kept_from minID (vk_log s key)
       | RFail _ => vk_log s' key = vk_log s key \/ vk_log s' key = kept_from minID (vk_log s key)
       | _ => False
       end;
}.

Section valkey.
Context `{ValkeyLaws}.
(** The fields arrive as they were given. *)
Lemma vk_fields_map f : list_to_map (vk_fields f) = f.
Proof.
  apply map_eq. intros k. unfold vk_fields. set (ks := sort_slice _ _).
  assert (Hk : forall x, x ∈ ks <-> is_Some (f !! x)).
  { intros x. unfold ks. rewrite elem_of_sort_slice, list_elem_of_fmap. split.
    - intros ([y v] & -> & Hy). apply elem_of_map_to_list in Hy. by exists v.
    - intros [v Hv]. exists (x, v). by rewrite elem_of_map_to_list. }
  assert (Hl : forall l : list string, (forall x, x ∈ l -> is_Some (f !! x)) ->
    (list_to_map ((fun k => (k, default "" (f !! k))) <$> l) : gmap string string) !! k = if decide (k ∈ l) then f !! k else None).
  { intros l. induction l as [|x l IH]; intros Hx.
    - rewrite decide_False by set_solver. apply lookup_empty.
    - rewrite fmap_cons, list_to_map_cons. destruct (decide (k = x)) as [->|Hn].
      + rewrite lookup_insert_eq, decide_True by set_solver. destruct (Hx x) as [v Hv]; [set_solver|]. by rewrite Hv.
      + rewrite lookup_insert_ne by done. rewrite IH by set_solver. destruct (decide (k ∈ l)), (decide (k ∈ x :: l)); set_solver. }
  rewrite Hl by (intros x; apply Hk). case_decide as Hd; [done|]. rewrite Hk in Hd. by apply eq_None_not_Some in Hd.
Qed.
Definition valkey_log (block : Z) : EventLog vk_state := {|
  el_log := vk_log;
  el_ok t s := vk_ok s;
  el_given t s := vk_given s;
  el_room now s := True;
  el_add now key f n := vk_XAdd key f n;
  el_read key a count := vk_XRead key a block count;
  el_range key a count := vk_XRange key a count;
  el_last key := vk_XLast key;
  el_trim key minID := vk_XTrimMinID key minID;
|}.
#[export] Instance valkey_laws block : @EventLogLaws vk_state (valkey_log block).
Proof.
  split; cbn [el_log el_ok el_given el_room el_add el_read el_range el_last el_trim valkey_log].
  - intros t s key Ho. by apply vk_sorted.
  - intros t s key e. apply vk_entry.
  - intros t now key f n s r s' Ho _ _ Hn Ha. unfold vk_XAdd, vk_ask in Ha. set (c := XADD key _ _) in Ha.
    pose proof (vk_keeps c s Ho) as Hk. pose proof (fun key a => vk_recalls c s key a Ho) as Hg. destruct (vk_do c s) as [q s1] eqn:E.
    destruct (vk_does_XADD _ _ _ _ _ _ Ho Hn E) as [Hf Hq]. rewrite vk_fields_map in Hq. simplify_eq. split_and!; [done..|]. by destruct q.
  - intros t key a count s r s' Ho Ha Hc Hr. unfold vk_XRead, vk_ask in Hr. rewrite (proj1 (id_nonempty _ Ha)) in Hr. set (c := XREAD _ _ _ _) in Hr.
    pose proof (vk_keeps c s Ho) as Hk. pose proof (fun key a => vk_recalls c s key a Ho) as Hg. destruct (vk_do c s) as [q s1] eqn:E.
    destruct (vk_does_XREAD _ _ _ _ _ _ _ Ho Hc Ha E) as [Hf Hq]. simplify_eq. split_and!; [done..|].
    destruct q as [| | |m| | |]; try done; intros l Hl; simplify_eq.
    + destruct Hq as (x & -> & <-). done.
    + by rewrite Hq, take_nil.
  - intros t key a count s r s' Ho Ha Hc Hr. unfold vk_XRange, vk_ask in Hr. set (start := if a =s "" then "-" else _) in Hr.
    assert (Hs : (a = "" /\ start = "-") \/ (stream_id a /\ start = "(" +:+ a)).
    { destruct Ha as [->|Ha]; [by left|right]. split; [done|]. unfold start. by rewrite (proj1 (id_nonempty _ Ha)). }
    destruct (vk_do _ s) as [q s1] eqn:E. pose proof (vk_keeps (XRANGE key start "+" count) s Ho) as Hk. rewrite E in Hk.
    destruct (vk_does_XRANGE _ _ _ _ _ _ _ Ho Hc Hs E) as [Hf Hq]. simplify_eq. split_and!; [done..|].
    destruct q; try done. cbn. intros. by simplify_eq.
  - intros t key s r s' Ho Hr. unfold vk_XLast, vk_ask in Hr. destruct (vk_do _ s) as [q s1] eqn:E.
    pose proof (vk_keeps (XREVRANGE key "+" "-" 1) s Ho) as Hk. rewrite E in Hk.
    destruct (vk_does_XREVRANGE _ _ _ _ Ho E) as [Hf Hq]. simplify_eq. split_and!; [done..|].
    destruct q as [| |l| | | |]; try done. cbn. intros id Hid. simplify_eq. destruct (list.last _), l as [|x [|]]; cbn in *; by simplify_eq.
  - intros t key minID s r s' Ho Hm Hr. unfold vk_XTrimMinID, vk_ask in Hr. set (c := XTRIM key minID) in Hr.
    pose proof (vk_keeps c s Ho) as Hk. pose proof (fun key a => vk_recalls c s key a Ho) as Hg. destruct (vk_do c s) as [q s1] eqn:E.
    destruct (vk_does_XTRIM _ _ _ _ _ Ho Hm E) as [Hf Hq]. simplify_eq. split_and!; [done..|]. by destruct q.
Qed.
End valkey.

(** C20. Over Valkey the reading loop of the hub accounts for every entry of a tenant's
    log, whichever of its reads and trims fail, and whatever other instances publish or
    trim in between.  What it dispatches is in order, none twice, and of the log past the
    identifier it started from; each entry of the log past that identifier has been
    dispatched, or still waits past the last one read, or was dropped: by a trim, for
    being older than the replay window then, or for [maxLen] newer ones.  And a read
    that succeeds takes the oldest hundred of those that wait. *)
Theorem valkey_followed `{ValkeyLaws} block key window maxLen from s t l :
  0 < maxLen <= int64_max -> vk_ok s -> stream_id from -> vk_given s key from ->
  rtc (@follow_step _ (valkey_log block) key window maxLen) (mkFollowing t s from [] (vk_log s key) []) l ->
  @accounted _ (valkey_log block) key window maxLen from l.
Proof. intros Hn Ho Hi Hg. exact (@reader_follows _ _ (valkey_laws block) key window maxLen from t s l Hn Ho Hi Hg). Qed.
(** The in-process client serves the same loop. *)
Theorem memory_followed key window maxLen from m t l :
  0 < maxLen <= int64_max -> log_run t m -> stream_id from -> @el_given _ memory_log t m key from ->
  rtc (@follow_step _ memory_log key window maxLen) (mkFollowing t m from [] (entries key m) []) l ->
  @accounted _ memory_log key window maxLen from l.
Proof. intros Hn Ho Hi Hg. exact (@reader_follows _ _ memory_laws key window maxLen from t m l Hn (log_run_inv _ _ Ho) Hi Hg). Qed.

(** ** A server *)
Module ValkeySample.
Definition noon : Z := unix_epoch + 1700000000 * Second.
Definition raw (l : list Entry) : list XRangeEntry := (fun e => mkXRangeEntry (e_ID e) (e_Fields e)) <$> l.
Lemma convert_raw l : vk_convert (raw l) = l.
Proof. unfold vk_convert, raw. rewrite <- list_fmap_compose. induction l as [|[] l IH]; [done|]. cbn. f_equal. exact IH. Qed.
Definition outage : err := Opaque "i/o timeout".
Definition position (start : string) : string := default start (strip_prefix "(" start).
(** A server whose clock stands still, over the lists of [Memory]; every third entry
    its connection drops before the answer. *)
Definition server_do (c : Cmd) (m : Memory) : Reply * Memory :=
  match c with
  | XADD key maxlen fields =>
    if mm_seq m <? int64_max then
      match XAdd noon key (list_to_map fields) (ParseInt maxlen).1 m with
      | (Ok id, m') => (if mm_seq m' mod 3 =? 0 then RFail outage else RString id, m')
      | (Err e, m') => (RFail e, m')
      end
    else (RFail (Opaque "ERR The stream has exhausted the last possible ID"), m)
  | XREAD count _ key id =>
    match XRead key id count m with
    | Ok [] => (RNil, m)
    | Ok l => (RStreams {[key := raw l]}, m)
    | Err e => (RFail e, m)
    end
  | XRANGE key start _ count =>
    match XRange key (if start =s "-" then "" else position start) count m with Ok l => (REntries (raw l), m) | Err e => (RFail e, m) end
  | XREVRANGE key _ _ _ =>
    if mm_Err m is Some e then (RFail e, m) else (REntries (raw (match newest key m with Some e => [e] | None => [] end)), m)
  | XTRIM key minid => match XTrimMinID key minid m with (Ok _, m') => (RInt 0, m') | (Err e, m') => (RFail e, m') end
  | INCR key => match Incr noon key 0 m with (Ok n, m') => (RInt n, m') | (Err e, m') => (RFail e, m') end
  | PEXPIRE _ _ => (RInt 1, m)
  | PING => (RString "PONG", m)
  end.
#[export] Instance sample_valkey : ValkeyServer := {| vk_state := Memory; vk_do := server_do |}.
Lemma Incr_inv t now key ttl m r m' : log_inv t m -> Incr now key ttl m = (r, m') -> log_inv t m'.
Proof.
  intros Hi Ha. unfold Incr, client_write in Ha. case_match; [by simplify_eq|]. destruct (default _ _) as [n x].
  destruct (_ || _); cbn in Ha; simplify_eq; by destruct Hi.
Qed.
Lemma server_seq c m : 0 <= mm_seq m <= int64_max -> mm_seq m <= mm_seq (server_do c m).2.
Proof.
  intros Hq. destruct c; cbn [server_do].
  2-4: repeat case_match; cbn; lia.
  4-5: cbn; lia.
  - destruct (_ <? _) eqn:E; [|done]. bools. destruct (XAdd _ _ _ _ m) as [[x|e] m'] eqn:Ea; apply XAdd_seq in Ea; cbn; lia.
  - destruct (XTrimMinID _ _ m) as [[x|e] m'] eqn:Ea; apply XTrim_seq in Ea; cbn; lia.
  - unfold Incr, client_write. destruct (mm_Err m); [done|]. destruct (default _ _) as [n x]. destruct (_ || _); done.
Qed.
Lemma noon_time : UnixMilli noon <= int64_max.
Proof. by vm_compute. Qed.
#[export] Instance sample_laws : ValkeyLaws.
Proof.
  refine {| vk_log := fun m key => entries key m; vk_ok := fun m => log_inv noon m; vk_given := @el_given _ memory_log noon |}; cbn [vk_do sample_valkey vk_state].
  - intros c m Hi. destruct c; cbn [server_do].
    + destruct (mm_seq m <? int64_max) eqn:Eq; [|done]. bools. destruct (XAdd _ _ _ _ m) as [[x|e] m'] eqn:Ea;
        by eapply XAdd_inv; [|reflexivity|apply noon_time| |].
    + repeat case_match; done.
    + by case_match.
    + by case_match.
    + destruct (XTrimMinID _ _ m) as [[x|e] m'] eqn:Ea; by eapply XTrim_inv.
    + destruct (Incr _ _ _ m) as [[x|e] m'] eqn:Ea; by eapply Incr_inv.
    + done.
    + done.
  - intros c m key a Hi. apply given_later; [done|]. apply server_seq, Hi.
  - intros m key e. apply (@el_entry _ _ memory_laws).
  - intros m key Hi. exact (@el_sorted _ _ memory_laws noon m key Hi).
  - intros key n f m r m' Hi Hn. cbn [server_do]. destruct (mm_seq m <? int64_max) eqn:Eq.
    2:{ intros. simplify_eq. split; [done|by left]. }
    rewrite ParseInt_FormatInt by lia. cbn [fst]. destruct (XAdd noon key (list_to_map f) n m) as [[x|e] m1] eqn:Ea.
    + pose proof (proj2 (XAdd_entries _ _ _ _ _ _ _ Ea)) as Hk. pose proof (XAdd_appended _ _ _ _ _ _ _ (proj1 Hn) Ea) as Hp.
      pose proof (fun a => XAdd_greater _ _ _ _ _ _ _ _ a Hi (Z.le_refl noon) noon_time ltac:(lia) Ea) as Hg.
      destruct (_ =? 0); intros; simplify_eq; (split; [done|]); [right; by eexists|by split].
    + apply XAdd_err in Ea as ->. intros. simplify_eq. split; [done|by left].
  - intros count block key a m r m' Hi Hc Ha. cbn [server_do]. destruct (XRead key a count m) as [l|e] eqn:Er.
    2:{ by intros; simplify_eq. }
    destruct (@el_read_spec _ _ memory_laws noon key a count m _ _ Hi Ha Hc (f_equal (fun x => (x, m)) Er)) as (_ & _ & _ & Hl).
    specialize (Hl l eq_refl). destruct l as [|x l]; intros; simplify_eq; (split; [done|]).
    + change (el_log m' key) with (entries key m') in Hl. destruct (past a (entries key m')); [done|].
      destruct (Z.to_nat count) eqn:E; [lia|discriminate Hl].
    + exists (raw (x :: l)). rewrite lookup_singleton_eq, convert_raw. by split.
  - intros key a start count m r m' Hi Hc Hs. cbn [server_do].
    assert (Hp : (if start =s "-" then "" else position start) = a) by (by destruct Hs as [[-> ->]|[_ ->]]).
    assert (Ha : a = "" \/ stream_id a) by (destruct Hs as [[]|[]]; auto). rewrite Hp. clear Hp Hs.
    destruct (XRange key a count m) as [l|e] eqn:Er; intros; simplify_eq; (split; [done|]); [|done]. rewrite convert_raw.
    by apply (@el_range_spec _ _ memory_laws noon key a count m' _ _ Hi Ha Hc (f_equal (fun x => (x, m')) Er)).
  - intros key m r m' Hi. cbn [server_do]. case_match; intros; simplify_eq; (split; [done|]); [done|].
    rewrite convert_raw. done.
  - intros key minID m r m' Hi Hm. cbn [server_do]. destruct (XTrimMinID key minID m) as [[x|e] m1] eqn:Ea; intros; simplify_eq;
      destruct (@el_trim_spec _ _ memory_laws noon key minID m _ _ Hi Hm Ea) as (_ & Hf & _ & Hl); by split.
Defined.
Definition event (i : Z) : gmap string string := list_to_map [("to", "*"); ("type", "certificate.issued"); ("at", FormatInt i)].
Definition send_event (i : Z) (m : Memory) : Memory := (vk_XAdd (Key "t1") (event i) 10000 m).2.
(** Events one and two are read.  The third is sent, its answer is lost, and it grows
    older than the window before the loop reads again: the loop's own trim drops it.
    The fourth is read. *)
Definition two_sent : Memory := send_event 2 (send_event 1 NewMemory).
Definition next_day : Z := noon + 86400 * Second.
Definition after_trim : Memory := (vk_XTrimMinID (Key "t1") (ID (next_day - Second) 0) (send_event 3 two_sent)).2.
Definition all_sent : Memory := send_event 4 after_trim.
Definition entry (i : Z) : Entry := mkEntry (ID noon i) (event i).
Definition followed : @Following vk_state :=
  mkFollowing noon all_sent (ID noon 4) [entry 1; entry 2; entry 4] [entry 1; entry 2; entry 3; entry 4] [next_day].
Example answer_lost : (vk_XAdd (Key "t1") (event 3) 10000 two_sent).1 = Err outage.
Proof. by vm_compute. Qed.
Lemma first_id : stream_id "0-0".
Proof. exists 0, 0. by vm_compute. Qed.
Lemma next_day_dated : dated Second next_day.
Proof. by vm_compute. Qed.
Lemma new_ok : vk_ok NewMemory.
Proof. apply log_run_inv, lr_new. by vm_compute. Qed.
Lemma send_event_ok i m : vk_ok m -> vk_ok (send_event i m).
Proof.
  intros Ho. apply (vk_keeps (XADD (Key "t1") (FormatInt 10000) (vk_fields (event i)))) in Ho. unfold send_event, vk_XAdd, vk_ask.
  by destruct (vk_do _ m).
Qed.
Lemma third_sent :
  appended 10000 (ID noon 3) (event 3) (vk_log two_sent (Key "t1")) (vk_log (send_event 3 two_sent) (Key "t1"))
  /\ forall a, vk_given two_sent (Key "t1") a -> Less a (ID noon 3) = true.
Proof.
  assert (Hi : vk_ok two_sent) by (unfold two_sent; by repeat apply send_event_ok; apply new_ok).
  assert (Ha : XAdd noon (Key "t1") (event 3) 10000 two_sent = (Ok (ID noon 3), send_event 3 two_sent)) by (by vm_compute).
  split; [by eapply XAdd_appended|]. intros a. by eapply XAdd_greater; [exact Hi|..|exact Ha].
Qed.
Lemma run_followed :
  rtc (@follow_step _ (valkey_log Second) (Key "t1") Second 10000) (mkFollowing (S := vk_state) noon NewMemory "0-0" [] [] []) followed.
Proof.
  eapply rtc_l; [eapply (@fs_publish vk_state (valkey_log Second) _ _ _ noon (event 1)); [done|done|vm_compute; reflexivity|done]|].
  eapply rtc_l; [eapply (@fs_publish vk_state (valkey_log Second) _ _ _ noon (event 2)); [done|done|vm_compute; reflexivity|done]|].
  eapply rtc_l; [eapply (@fs_turn vk_state (valkey_log Second) _ _ _ None); [done|vm_compute; reflexivity]|].
  eapply rtc_l; [eapply (@fs_publish vk_state (valkey_log Second) _ _ _ noon (event 3)); [done|done|vm_compute; reflexivity|]|].
  { right. eexists. split_and!; [apply third_sent..|done]. }
  eapply rtc_l; [eapply (@fs_turn vk_state (valkey_log Second) _ _ _ (Some next_day)); [|vm_compute; reflexivity]|].
  { intros ? [= <-]. exact next_day_dated. }
  eapply rtc_l; [eapply (@fs_publish vk_state (valkey_log Second) _ _ _ noon (event 4)); [done|done|vm_compute; reflexivity|done]|].
  eapply rtc_l; [eapply (@fs_turn vk_state (valkey_log Second) _ _ _ None); [done|vm_compute; reflexivity]|].
  apply rtc_refl.
Qed.
Lemma valkey_followed_witness :
  (fun e => e_Fields e !! "at") <$> fo_out followed = [Some "1"; Some "2"; Some "4"]
  /\ @accounted _ (valkey_log Second) (Key "t1") Second 10000 "0-0" followed.
Proof.
  split; [by vm_compute|].
  refine (valkey_followed Second (Key "t1") Second 10000 "0-0" NewMemory noon followed _ _ first_id _ run_followed).
  - done.
  - exact new_ok.
  - by left.
Defined.
(** A read that is to wait for less than a millisecond asks to wait without end (BLOCK 0). *)
Example sub_millisecond_block : Z.quot (Millisecond - 1) Millisecond = 0.
Proof. done. Qed.
(** Without leave for plain text the connection is of TLS 1.3. *)
Example dialled : vk_New (fun _ => true) (fun _ => None) (mkVkConfig ["valkey:6379"] "lcm" "pw" false "") =
  Ok (mkVkOption ["valkey:6379"] "lcm" "pw" (Some (VersionTLS13, None))).
Proof. done. Qed.
End ValkeySample.
